(* ===== verification/_CoqProject ===== *)
-Q . S2P
Prelude.v
Piece.v
Board.v
Action.v
Brain.v
Engine.v
Keyed.v
AdminMsg.v
Lobby.v
Room.v
RoomInv.v
RoomSpec.v
Standings.v
RoomTheorems.v
Handlers.v
RoomMessages.v
Text.v
Name.v
Layout.v
DbRows.v
DbRowsTheorems.v
DbQueue.v
DbQueueTheorems.v
History.v
HistoryTheorems.v
Token.v
TokenTheorems.v
Htttp.v
HtttpTheorems.v
HtttpSends.v
Rc.v
LogMsg.v
Logd.v
LogTail.v
LogTailTheorems.v
LogTheorems.v
ControlPlane.v
ControlTheorems.v
Daemon.v
DaemonTheorems.v
CtlClient.v
CtlClientTheorems.v
BallotTypes.v
BallotDb.v
Ballot.v
BallotSim.v
BallotInv.v
BallotSteps.v
BallotSql.v
BallotSqlLaws.v
BallotTheorems.v
Codec.v
CodecTheorems.v
CodecResponse.v
CodecFits.v
Ballotd.v
BallotdTheorems.v
BallotdLoop.v
BallotdLoopTheorems.v
CtlFrame.v
Tetrissh.v
TetrisshTheorems.v
BallotClient.v
ClientTheorems.v
CodecSends.v
VoteTheorems.v
Auth.v
AuthTheorems.v
SessionProc.v
SessionTheorems.v
System.v
Net.v
Render.v
RenderTheorems.v
Ui.v
Screens.v
ScreensTheorems.v
Ballotu.v
BallotuTheorems.v
NetTheorems.v
