(* ===== verification/Prelude.v ===== *)
(** * corestack: a verification development

    corestack is two systems on one core: tetriSH, a multiplayer Tetris server
    with its client, and BallotBox, an electronic voting daemon with its clients;
    core/ holds what both share.  This library models the parts that carry their
    logic and proves what makes them correct.

    ** The program and its model

    - The rules engine, tetriSH/src/libtetrisbrain.  [Piece] has the data model of
      gamestate.h, the shape tables and queries of piece.c, the piece stream of
      rng.c and scoring.c; [Board] has board.c, cell by cell as the loops write;
      [Action] has action.c and the facade tetrisbrain.c.  A function that mutates
      [*g] takes and returns the [GameState].  [Brain] states the invariant
      [game_ok] and proves what each call does to it; [Engine] puts the calls a
      session makes together (tetriSH/src/tetrisd/session.c: the tick, the
      player's input, incoming garbage and standings, the garbage flush) as a step
      relation and proves the engine's contract over every interleaving.
    - The admin thread's room table, tetriSH/src/tetrisd/room.c.  [AdminMsg] has
      the message records of adminmsg.h, sessionstate.h and limits.h and the two
      framing loops; [Room] has every function of room.c over one [Admin] record
      (the two slot tables, the wedged queue, what was sent, the random source).
      [Lobby] is the abstract machine room.c promises to implement (who sits where,
      who owns what, which round runs), with its invariant [lobby_ok]; [Keyed] reads
      slot tables as finite maps; [RoomInv] is the abstraction and the simulation,
      [RoomSpec] the admin thread's steps, [Standings] the ranking, [RoomTheorems]
      and [RoomMessages] the theorems, [Handlers] what no message changes.
    - The game server around the rooms.  [Daemon] has the admin thread of
      tetriSH/src/tetrisd/tetrisd.c (its poll set, registrations, the scan, the reload,
      dropping stuck sessions) and [ControlPlane] the operator's commands
      (tetrisctl/control_plane.c); [SessionProc] has the process behind one client
      (tetrisd/session.c: routing, the admin's messages, the tick, the loop),
      [Layout] the structs it exchanges as bytes, [History] the match history
      (tetrisd/history.c).  [DaemonTheorems], [ControlTheorems], [SessionTheorems]
      and [HistoryTheorems] have their theorems; [System] composes the admin thread
      with a session over the socketpair between them.
    - The game client, tetriSH/src/tetrisu.  [Net] has its connection (net.c), and
      [NetTheorems] runs it against [SessionProc] over [Htttp]; [Screens] has the
      screens and the state machine of [main] (tetrisu.c, screens.c, screen_auth.c,
      game_screen.c), [ScreensTheorems] its theorem; [Render] has every character
      render.c puts on the screen, [RenderTheorems] reads the board back from it.
    - The operator's client, tetriSH/src/tetrisctl.  [CtlClient] has ctl_client.c (the
      JSON reader, the decoders, the snapshot), [CtlClientTheorems] runs it against
      [ControlPlane]; [LogTail] and [LogTailTheorems] follow the log (ctl_logtail.c).
    - Logging.  [LogMsg] has the sender, core/src/libtetrisutil/logmsg.c; [Logd] the
      daemon, core/src/tetrislogd (logger.c, config.c), which writes through
      [DbQueue], the queue and worker of core/src/libtetrisdb/pipe/queue.c.
      [DbQueueTheorems] has the queue's accounts, [LogTheorems] the way of a record
      from the sender to the operator's screen.
    - Accounts, core/src/libtetrisauth: [Token] has token.c and hex.c, [Auth] the
      accounts of account.c and the gate of auth.c; [TokenTheorems] and
      [AuthTheorems] their theorems.
    - The database client, core/src/libtetrisdb: [DbRows] has the line protocol of
      wire.c, the reply parser rows.c and [db_quote]; [DbRowsTheorems] reads back
      what the runner prints.
    - libtetrisutil: [Name] has name.c, [Rc] the configuration reader rc.c.
    - The HTTTP grammar, core/src/libhtttp/htttp.c.  [Text] models C strings as
      byte lists; [Htttp] has the parsers, serializers and header helpers;
      [HtttpTheorems] the round trips and bounds, [HtttpSends] the messages that are
      never refused.
    - BallotBox's logic, ballotbox/src/libballotbrain.  [BallotTypes] has types.h,
      config.c, crypto.c, the transition table and the eligibility check;
      [BallotDb] the seam of db.h as classes with their laws, over the meaning of
      each command on the six tables and of what can be read of a select's printed
      reply; [Ballot] the handlers of handlers.c and
      lifecycle.c against that seam.  [BallotSim] compares a handler over a faulty
      store with the same handler on the tables alone; [BallotInv] is the ballot
      book's invariant; [BallotSteps] shows that every request is a step of the
      store.  [BallotSql] has db.c, txn.c and [bb_alloc_id] as the statements they
      send over a connection that may fail at any exchange, and [BallotSqlLaws]
      that they keep the seam's laws.  [BallotTheorems] has the theorems.
    - BallotBox on the wire, ballotbox/src/libballotclient/codec.c.  [Codec] has the
      operation and result names, the body writer and reader, and the two encoders
      and decoders over [Htttp]; [CodecTheorems], [CodecResponse], [CodecFits] and
      [CodecSends] have the round trips, the bounds on what is decoded and the
      messages that are never refused.
    - The ballot daemon, ballotbox/src/ballotd.  [Ballotd] has dispatch.c and what a
      frame on a voter's channel (session.c) and on the operators' socket
      (control_plane.c, main.c) does and answers; [BallotdTheorems] follows raw
      frames into the store.  [BallotdLoop] has the admin thread of main.c with its
      table of workers, [BallotdLoopTheorems] what becomes of each of them.
    - The ballot clients, ballotbox/src/libballotclient.  [BallotClient] has voter.c,
      voter_crypto.c, admin.c and the voter's half of transport.c; [ClientTheorems]
      the operator's lists;
      [VoteTheorems] puts client, codec, daemon and store together.  [Ballotu] has the
      voter's program, ballotbox/src/ballotu/ballotu.c, with the rest of the voter's
      transport, [BallotuTheorems] its theorem.
    - [Ui] is what the two interactive programs share: computations over the answers of
      the user and the network, and a small program logic for them.
    - Control frames, ctl_frame.h and tetrisctl/control_plane.h: [CtlFrame].
    - The secure session, core/src/libtetrissh.  [Tetrissh] has the handshake, the
      encrypted frames and the socket loops over OpenSSL as a parameter;
      [TetrisshTheorems] what they guarantee.

    [Prelude] (this file) holds the machine integers, C arrays as lists, the
    tactics and the generic list lemmas.

    ** What the theorems show

    - Engine: every reachable game satisfies the invariant and every call returns;
      hard drop agrees with its preview; one lock cycle accounts for every cell,
      line, point and garbage row; clearing is a filter and garbage a shift; equal
      seeds give equal streams; counters stay in range; game over is final.
    - Rooms: the tables agree in every reachable state, whatever room numbers are asked
      for (a client under a negative one is in no table), the handlers implement the
      abstract lobby, every message is handled, a running round can end; one seed
      per round, garbage to the leader, the announced winner is the leader, the
      scoreboard is the true top eight; messages survive partial reads and writes.
    - Game server: the poll set is the client table after every turn of the admin
      thread, which always ends and goes to sleep with no stuck session left to drop;
      the operator's reports are complete or refused, and a kick finds its player; a
      session acts for its own client only and obeys the guards of each method;
      whatever the other clients do, a session is told a consistent story of its
      room, up to the first message that could not be written to it.
    - Game client: its keys are the engine's moves, and what the server pushes is what
      the client believes; whenever it offers to join a room it is in none; the board
      on its screen is the board of the game, landing preview included.
    - Operator: the snapshot of the client is the server's tables, or the last good one
      marked stale.  Every record a process logs is in the log, filtered, or counted as
      dropped; what is in the log is one clean line each, and the log view shows the
      last of them.  Statements for the database are executed, counted as dropped or
      still queued, and stopping the queue always ends.
    - Accounts: exactly the minted tokens verify until they expire; the gate opens
      only for guests and proven accounts; a registered password logs in.
    - Database client: a printed table is read back field by field however the reads
      are cut; the match history shown is the recorded one, or none.  Accounts and
      history are stated against a table: a class says what the database answers to
      each literal statement ([UserTable], [HistoryTable]), and a small database is an
      instance.
    - HTTTP: a message that serializes parses back; whatever arrives, a parsed
      message fits its arrays; numbers are read exactly.
    - BallotBox: ballots and commands are atomic; the decision on a ballot on every
      branch; a nonce that is not empty is used once; receipts find their ballot;
      results are gated.  As long as no two receipt hashes of an election collide and
      every automatically allocated id is free - the code ensures neither -, one voter,
      one vote over every history and fault pattern, and the lifecycle only moves
      forward and freezes the ballots ([request_ok] is that condition).
    - The ballot wire: requests and responses decode to what was encoded and nothing
      can be smuggled into a field; whatever arrives, the structs' bounds hold.
    - ballotd: under the same condition any sequence of raw frames leaves one vote per listed voter, cast on
      that voter's own channel; a voter's channel touches nobody else's records, an
      operator's no ballot.  End to end: what the voter is told is what the store
      holds.  Eligibility lists are folded and deduplicated.  Every turn of the admin
      thread serves each worker that asks, and every descriptor is closed once.  The
      voter's program submits only the option just confirmed, for the name that signed
      in on the connection, and shows only receipts that were issued.
    - Framing and the secure session: frames arrive whole or not at all; a handshake
      ends with one key or no session; messages arrive in order and unchanged; every
      input to a receive is classified; the exact size limit.
    - Defects are theorems too: a negative room number leaks a slot, the seventeenth
      stuck session is forgotten, the serializers write messages the parsers refuse,
      BB_ERR_RETRY escapes and leaves the voter without a reply, an empty nonce may be
      used again and an empty eligible name hides the whole list, a payload over 159
      bytes is encoded but not decoded, colliding receipts drop a vote, automatic ids
      repeat, a late phase message records a round twice, half of the server's capacity
      is too many players for the operator's list, a worker ballotd turns away is never
      waited for, a failed JOIN by number returns to the menu of a dead connection.

    ** Conventions, bounds and fuel

    C [int]s are [Z]; arithmetic the code does in [unsigned] goes through [u32].
    A fixed array is a list read with [aget] and written with [aset].  Loops that
    are not structural take fuel, and the theorems show the fuel is enough: the
    drop loops [drop_fuel] (a piece can fall at most the height of the board and
    its own size), lifting a buried piece [lift_fuel], the search for a free room
    number [free_id_fuel] (one more than there are rooms), the admin thread's scan and
    its drop loop one or two more than the poll set has entries, the database worker
    one more than the queue holds, the loops of the screens one more than there are
    answers left (each round takes one).  Bounded loops of the
    code (three transaction attempts, 32 headers, 64 hash digits) keep their bound.
    What lies outside the modelled code is an argument: the outcome of each
    [adminmsg_write] and the values of [rand] in [Room], the system calls' results
    in [AdminMsg], [CtlFrame] and [Tetrissh], the formatted date in [Htttp], the fate
    of each exchange with the database and the length of what it prints above a
    reply's rows ([Runner]) in [BallotSql], OpenSSL and its random bytes in
    [Tetrissh], the key derivation and the MAC in [Auth] and [Token], what poll and the
    pipes deliver in a turn in [Daemon], [SessionProc], [BallotdLoop] and [Logd], the
    user's answers in [Screens] and [Ballotu], the file system in [LogTail].  The hops between ballotd's own threads deliver.

    ** Not modelled

    Dialling and accepting sockets, forking, signals and process control: of tetrisd.c
    and ballotd's main.c the listener and [main]; of libtetrisdb the pipe to the child
    JVM and the creation of the table files; tetrisctl's starting and stopping of the
    daemon; the shell tetrish and the runner tetrisdb; the Java storage engine, of which
    the integration document is the contract.  Of libtetrisauth the secret's file.
    Terminal drawing other than the game's board: the widgets of libtetrisui, the
    waiting panel of tetrisu, the dashboard of tetrisctl, the screens of ballotctl,
    which are forms over the request builders of [BallotClient].  Log lines are left
    out where the code writes them.  The directory external/ holds older copies of
    code of the kind modelled here and tests, and is not part of the system. *)

From stdpp Require Export base numbers strings option list_numbers list relations.
From stdpp Require Import options.

#[global] Open Scope Z_scope.

(** ** Machine integers

    C [int]s are [Z]; the places where the code computes in [unsigned] (and so
    relies on wrap-around) go through [u32]. *)

Definition UINT32_MAX : Z := 4294967295.
Definition INT_MAX : Z := 2147483647.

Definition u32 (x : Z) : Z := x mod 4294967296.

Declare Scope cint_scope.
Delimit Scope cint_scope with cint.
Notation "x *u y" := (u32 (x * y)) (at level 40, left associativity) : cint_scope.
Notation "x +u y" := (u32 (x + y)) (at level 50, left associativity) : cint_scope.

Lemma u32_range x : 0 <= u32 x <= UINT32_MAX.
Proof. unfold u32, UINT32_MAX. pose proof (Z.mod_pos_bound x 4294967296). lia. Qed.

Lemma u32_small x : 0 <= x <= UINT32_MAX -> u32 x = x.
Proof. unfold u32, UINT32_MAX. intros. apply Z.mod_small. lia. Qed.

Lemma u32_idem x : u32 (u32 x) = u32 x.
Proof. apply u32_small, u32_range. Qed.

Lemma u32_succ x k : u32 (u32 x + k) = u32 (x + k).
Proof. unfold u32. by rewrite Zplus_mod_idemp_l. Qed.

(** [unsigned long]. *)
Definition ULONG_MAX : Z := 18446744073709551615.
Definition u64 (x : Z) : Z := x mod 18446744073709551616.

Lemma u64_range x : 0 <= u64 x <= ULONG_MAX.
Proof. unfold u64, ULONG_MAX. pose proof (Z.mod_pos_bound x 18446744073709551616). lia. Qed.

Lemma u64_small x : 0 <= x <= ULONG_MAX -> u64 x = x.
Proof. unfold u64, ULONG_MAX. intros. apply Z.mod_small. lia. Qed.

Lemma u64_add_l x k : u64 (u64 x + k) = u64 (x + k).
Proof. apply Zplus_mod_idemp_l. Qed.

(** ** Tactics of the development *)

(** Split every [match]/[if] in sight and discharge the impossible branches. *)
Ltac cases := repeat (case_match; simplify_eq/=).

(** Turn boolean arithmetic tests into propositions. *)
Ltac bool_arith :=
  repeat match goal with
  | H : (_ <? _) = true |- _ => apply Z.ltb_lt in H
  | H : (_ <? _) = false |- _ => apply Z.ltb_ge in H
  | H : (_ <=? _) = true |- _ => apply Z.leb_le in H
  | H : (_ <=? _) = false |- _ => apply Z.leb_gt in H
  | H : (_ =? _) = true |- _ => apply Z.eqb_eq in H
  | H : (_ =? _) = false |- _ => apply Z.eqb_neq in H
  | H : _ || _ = true |- _ => apply orb_true_iff in H
  | H : _ || _ = false |- _ => apply orb_false_iff in H; destruct H
  | H : _ && _ = true |- _ => apply andb_true_iff in H; destruct H
  | H : negb _ = true |- _ => apply negb_true_iff in H
  | H : negb _ = false |- _ => apply negb_false_iff in H
  end.

Create HintDb corestack.

(** ** Lists read and written as C arrays *)

(** [aget d l i] is the read [l[i]] of a C array; the value out of range, [d],
    is never relied on: every use below is under the bound the code checks. *)
Definition aget {A} (d : A) (l : list A) (i : Z) : A :=
  if i <? 0 then d else default d (l !! Z.to_nat i).

(** [aset l i x] is the write [l[i] = x]. *)
Definition aset {A} (l : list A) (i : Z) (x : A) : list A :=
  if i <? 0 then l else <[Z.to_nat i := x]> l.

(** [range n] is the index sequence of [for (int i = 0; i < n; i++)]. *)
Definition range (n : Z) : list Z := seqZ 0 n.

Lemma elem_of_range n i : i ∈ range n <-> 0 <= i < n.
Proof. unfold range. rewrite elem_of_seqZ. lia. Qed.

Lemma NoDup_range n : NoDup (range n).
Proof. apply NoDup_seqZ. Qed.

Lemma aget_nat {A} (d : A) l (n : nat) : aget d l (Z.of_nat n) = default d (l !! n).
Proof. unfold aget. rewrite Nat2Z.id. case_match; [bool_arith; lia|done]. Qed.

Lemma aset_nat {A} (l : list A) (n : nat) x : aset l (Z.of_nat n) x = <[n := x]> l.
Proof. unfold aset. rewrite Nat2Z.id. case_match; [bool_arith; lia|done]. Qed.

Lemma aget_Some {A} (d : A) l i :
  0 <= i < Z.of_nat (length l) -> l !! Z.to_nat i = Some (aget d l i).
Proof.
  intros Hi. unfold aget. rewrite (proj2 (Z.ltb_ge _ _)) by lia.
  destruct (lookup_lt_is_Some_2 l (Z.to_nat i)) as [x ->]; [lia|done].
Qed.

Lemma aget_lookup {A} (d : A) l i x :
  0 <= i -> l !! Z.to_nat i = Some x -> aget d l i = x.
Proof. intros Hi Hx. unfold aget. rewrite (proj2 (Z.ltb_ge _ _)) by lia. by rewrite Hx. Qed.

Lemma length_aset {A} (l : list A) i x : length (aset l i x) = length l.
Proof. unfold aset. case_match; [done|]. apply length_insert. Qed.

Lemma aget_aset_eq {A} (d : A) l i x :
  0 <= i < Z.of_nat (length l) -> aget d (aset l i x) i = x.
Proof.
  intros Hi. unfold aset. rewrite (proj2 (Z.ltb_ge _ _)) by lia.
  apply aget_lookup; [lia|]. apply list_lookup_insert_eq. lia.
Qed.

Lemma aget_aset_ne {A} (d : A) l i j x :
  i <> j -> aget d (aset l i x) j = aget d l j.
Proof.
  intros Hne. unfold aget, aset. case_match; [done|]. case_match; [done|].
  bool_arith. rewrite list_lookup_insert_ne by lia. done.
Qed.

Lemma range_snoc n : 0 <= n -> range (n + 1) = range n ++ [n].
Proof. intros. unfold range. rewrite seqZ_app by lia. done. Qed.

Lemma length_range n : length (range n) = Z.to_nat n.
Proof. apply length_seqZ. Qed.

(** Fold invariant for a counting loop. *)
Lemma foldl_range_ind {S} (I : Z -> S -> Prop) (f : S -> Z -> S) s0 n :
  0 <= n -> I 0 s0 ->
  (forall k s, 0 <= k < n -> I k s -> I (k + 1) (f s k)) ->
  I n (foldl f s0 (range n)).
Proof.
  intros Hn H0 Hstep.
  cut (forall m : nat, Z.of_nat m <= n -> I (Z.of_nat m) (foldl f s0 (range (Z.of_nat m)))).
  { intros H. specialize (H (Z.to_nat n)). rewrite Z2Nat.id in H by lia. apply H. lia. }
  induction m as [|m IH]; intros Hm; [done|].
  rewrite Nat2Z.inj_succ, <- Z.add_1_r, range_snoc, foldl_app by lia.
  apply Hstep; [lia|]. apply IH. lia.
Qed.

Lemma seqZ_range m n : seqZ m n = Z.add m <$> range n.
Proof. unfold range. rewrite fmap_add_seqZ. f_equal. lia. Qed.

(** The same, for a loop that starts at [m]. *)
Lemma foldl_seqZ_ind {S} (I : Z -> S -> Prop) (f : S -> Z -> S) s0 m n :
  0 <= n -> I m s0 ->
  (forall k s, m <= k < m + n -> I k s -> I (k + 1) (f s k)) ->
  I (m + n) (foldl f s0 (seqZ m n)).
Proof.
  intros Hn H0 Hstep. rewrite seqZ_range.
  assert (foldl f s0 (Z.add m <$> range n) = foldl (fun s k => f s (m + k)) s0 (range n)) as ->.
  { generalize (range n) as l, s0 as s. intros l. induction l; naive_solver. }
  apply (foldl_range_ind (fun k => I (m + k))); [done|by rewrite Z.add_0_r|].
  intros k s Hk HI. rewrite Z.add_assoc. apply Hstep; [lia|done].
Qed.

(** Replacing one element changes a sum by the difference. *)
Lemma sum_list_insert {A} (f : A -> nat) l i x y :
  l !! i = Some x ->
  (sum_list_with f (<[i := y]> l) + f x = sum_list_with f l + f y)%nat.
Proof.
  revert i. induction l as [|a l IH]; intros [|i] Hi; simplify_eq/=; [lia|].
  specialize (IH i Hi). lia.
Qed.

Lemma sum_list_zero {A} (f : A -> nat) l :
  sum_list_with f l = 0%nat <-> Forall (fun x => f x = 0%nat) l.
Proof.
  induction l as [|x l IH]; simpl; [done|]. rewrite Forall_cons. lia || (rewrite <- IH; lia).
Qed.

Lemma existsb_false {A} (f : A -> bool) l :
  existsb f l = false <-> Forall (fun x => f x = false) l.
Proof.
  induction l as [|x l IH]; simpl; [done|]. by rewrite orb_false_iff, Forall_cons, IH.
Qed.

Lemma Forall_range (P : Z -> Prop) n : Forall P (range n) <-> forall i, 0 <= i < n -> P i.
Proof. rewrite list.Forall_forall. by setoid_rewrite elem_of_range. Qed.

Lemma forallb_false_elem {A} (f : A -> bool) l :
  forallb f l = false -> exists x, x ∈ l /\ f x = false.
Proof.
  induction l as [|x l IH]; simpl; [done|]. intros [Hx|Hl]%andb_false_iff.
  - exists x. split; [apply elem_of_cons; by left|done].
  - destruct (IH Hl) as (y & Hy & Hf). exists y. split; [apply elem_of_cons; by right|done].
Qed.
