(* ===== verification/Piece.v ===== *)
(** * Piece: the shared game data model, the shape tables and the generator

    Models tetriSH/include/libtetrisbrain/gamestate.h (the data),
    tetriSH/src/libtetrisbrain/piece.c (shape tables and queries), rng.c (the
    deterministic piece stream) and scoring.c. *)

From stdpp Require Import options.
From S2P Require Import Prelude.

(** ** gamestate.h *)

Definition BOARD_WIDTH : Z := 10.
Definition BOARD_MAIN_HEIGHT : Z := 20.
Definition BOARD_BUFFER_HEIGHT : Z := 6.
Definition BOARD_HEIGHT : Z := BOARD_MAIN_HEIGHT + BOARD_BUFFER_HEIGHT.

Inductive PieceKind :=
| PIECE_NONE | PIECE_I | PIECE_O | PIECE_T | PIECE_S | PIECE_Z | PIECE_J
| PIECE_L | PIECE_SPAWNABLE | PIECE_GARBAGE | PIECE_COUNT.

#[global] Instance PieceKind_eq_dec : EqDecision PieceKind.
Proof. solve_decision. Defined.

(** The enumerator's value, as C assigns it. *)
Definition kind_code (k : PieceKind) : Z :=
  match k with
  | PIECE_NONE => 0 | PIECE_I => 1 | PIECE_O => 2 | PIECE_T => 3
  | PIECE_S => 4 | PIECE_Z => 5 | PIECE_J => 6 | PIECE_L => 7
  | PIECE_SPAWNABLE => 8 | PIECE_GARBAGE => 9 | PIECE_COUNT => 10
  end.

(** The cast [(PieceKind)n] on the enumerator values. *)
Definition kind_of_code (n : Z) : PieceKind :=
  match n with
  | 1 => PIECE_I | 2 => PIECE_O | 3 => PIECE_T | 4 => PIECE_S | 5 => PIECE_Z
  | 6 => PIECE_J | 7 => PIECE_L | 8 => PIECE_SPAWNABLE | 9 => PIECE_GARBAGE
  | 10 => PIECE_COUNT | _ => PIECE_NONE
  end.

(** One board cell: [typedef int Cell]. *)
Definition Cell := Z.

Record Piece := mkPiece { kind : PieceKind; rot : Z; px : Z; py : Z }.

#[global] Instance Piece_eq_dec : EqDecision Piece.
Proof. solve_decision. Defined.

Inductive Move :=
| MOVE_NONE | MOVE_LEFT | MOVE_RIGHT | MOVE_ROT_LEFT | MOVE_ROT_RIGHT
| MOVE_SOFT_DROP | MOVE_HARD_DROP | HOLD.

(** One row of the room's scoreboard. *)
Record PlayerStanding := mkStanding {
  st_player_id : Z;
  st_name : string;
  st_score : Z;
  st_lines : Z;
  st_game_over : bool
}.

#[global] Instance PlayerStanding_eq_dec : EqDecision PlayerStanding.
Proof. solve_decision. Defined.

(** A board is its rows, top row first: [Cell board[BOARD_HEIGHT][BOARD_WIDTH]]. *)
Abbreviation Board := (list (list Z)).

Record GameState := mkGame {
  board : Board;
  active : Piece;
  next : list PieceKind;
  hold : PieceKind;
  hold_used : bool;
  score : Z;
  lines : Z;
  level : Z;
  tick_count : Z;
  tick_trigger : Z;
  seed : Z;
  piece_generated_counter : Z;
  game_over : bool;
  garbage_out : Z;
  standings : list PlayerStanding;
  standing_count : Z;
  my_player_id : Z
}.

(** Assignments [g->f = v] to one field. *)
Definition set_board (v : Board) (g : GameState) : GameState := mkGame v
  (active g) (next g) (hold g) (hold_used g) (score g) (lines g) (level g)
  (tick_count g) (tick_trigger g) (seed g) (piece_generated_counter g)
  (game_over g) (garbage_out g) (standings g) (standing_count g) (my_player_id
  g).
Definition set_active (v : Piece) (g : GameState) : GameState := mkGame (board
  g) v (next g) (hold g) (hold_used g) (score g) (lines g) (level g)
  (tick_count g) (tick_trigger g) (seed g) (piece_generated_counter g)
  (game_over g) (garbage_out g) (standings g) (standing_count g) (my_player_id
  g).
Definition set_next (v : list PieceKind) (g : GameState) : GameState := mkGame
  (board g) (active g) v (hold g) (hold_used g) (score g) (lines g) (level g)
  (tick_count g) (tick_trigger g) (seed g) (piece_generated_counter g)
  (game_over g) (garbage_out g) (standings g) (standing_count g) (my_player_id
  g).
Definition set_hold (v : PieceKind) (g : GameState) : GameState := mkGame
  (board g) (active g) (next g) v (hold_used g) (score g) (lines g) (level g)
  (tick_count g) (tick_trigger g) (seed g) (piece_generated_counter g)
  (game_over g) (garbage_out g) (standings g) (standing_count g) (my_player_id
  g).
Definition set_hold_used (v : bool) (g : GameState) : GameState := mkGame
  (board g) (active g) (next g) (hold g) v (score g) (lines g) (level g)
  (tick_count g) (tick_trigger g) (seed g) (piece_generated_counter g)
  (game_over g) (garbage_out g) (standings g) (standing_count g) (my_player_id
  g).
Definition set_score (v : Z) (g : GameState) : GameState := mkGame (board g)
  (active g) (next g) (hold g) (hold_used g) v (lines g) (level g) (tick_count
  g) (tick_trigger g) (seed g) (piece_generated_counter g) (game_over g)
  (garbage_out g) (standings g) (standing_count g) (my_player_id g).
Definition set_lines (v : Z) (g : GameState) : GameState := mkGame (board g)
  (active g) (next g) (hold g) (hold_used g) (score g) v (level g) (tick_count
  g) (tick_trigger g) (seed g) (piece_generated_counter g) (game_over g)
  (garbage_out g) (standings g) (standing_count g) (my_player_id g).
Definition set_tick_count (v : Z) (g : GameState) : GameState := mkGame (board
  g) (active g) (next g) (hold g) (hold_used g) (score g) (lines g) (level g)
  v (tick_trigger g) (seed g) (piece_generated_counter g) (game_over g)
  (garbage_out g) (standings g) (standing_count g) (my_player_id g).
Definition set_piece_generated_counter (v : Z) (g : GameState) : GameState :=
  mkGame (board g) (active g) (next g) (hold g) (hold_used g) (score g) (lines
  g) (level g) (tick_count g) (tick_trigger g) (seed g) v (game_over g)
  (garbage_out g) (standings g) (standing_count g) (my_player_id g).
Definition set_game_over (v : bool) (g : GameState) : GameState := mkGame
  (board g) (active g) (next g) (hold g) (hold_used g) (score g) (lines g)
  (level g) (tick_count g) (tick_trigger g) (seed g) (piece_generated_counter
  g) v (garbage_out g) (standings g) (standing_count g) (my_player_id g).
Definition set_garbage_out (v : Z) (g : GameState) : GameState := mkGame
  (board g) (active g) (next g) (hold g) (hold_used g) (score g) (lines g)
  (level g) (tick_count g) (tick_trigger g) (seed g) (piece_generated_counter
  g) (game_over g) v (standings g) (standing_count g) (my_player_id g).
Definition set_standings (v : list PlayerStanding) (g : GameState) : GameState
  := mkGame (board g) (active g) (next g) (hold g) (hold_used g) (score g)
  (lines g) (level g) (tick_count g) (tick_trigger g) (seed g)
  (piece_generated_counter g) (game_over g) (garbage_out g) v (standing_count
  g) (my_player_id g).
Definition set_standing_count (v : Z) (g : GameState) : GameState := mkGame
  (board g) (active g) (next g) (hold g) (hold_used g) (score g) (lines g)
  (level g) (tick_count g) (tick_trigger g) (seed g) (piece_generated_counter
  g) (game_over g) (garbage_out g) (standings g) v (my_player_id g).
Definition set_my_player_id (v : Z) (g : GameState) : GameState := mkGame
  (board g) (active g) (next g) (hold g) (hold_used g) (score g) (lines g)
  (level g) (tick_count g) (tick_trigger g) (seed g) (piece_generated_counter
  g) (game_over g) (garbage_out g) (standings g) (standing_count g) v.

(** ** piece.c: the shape tables *)

Definition PIECE_ROTS : Z := 4.

(** [size] and the four occupancy grids; a zeroed table entry has size 0 and
    NULL grids. *)
Record PieceDef := mkDef { size : Z; grid : list (option (list Z)) }.

Definition O_SHAPE : list Z := [1; 1; 1; 1].

Definition I_N : list Z := [0; 0; 0; 0; 1; 1; 1; 1; 0; 0; 0; 0; 0; 0; 0; 0].
Definition I_E : list Z := [0; 0; 1; 0; 0; 0; 1; 0; 0; 0; 1; 0; 0; 0; 1; 0].
Definition I_S : list Z := [0; 0; 0; 0; 0; 0; 0; 0; 1; 1; 1; 1; 0; 0; 0; 0].
Definition I_W : list Z := [0; 1; 0; 0; 0; 1; 0; 0; 0; 1; 0; 0; 0; 1; 0; 0].

Definition T_N : list Z := [0; 1; 0; 1; 1; 1; 0; 0; 0].
Definition T_E : list Z := [0; 1; 0; 0; 1; 1; 0; 1; 0].
Definition T_S : list Z := [0; 0; 0; 1; 1; 1; 0; 1; 0].
Definition T_W : list Z := [0; 1; 0; 1; 1; 0; 0; 1; 0].

Definition S_N : list Z := [0; 1; 1; 1; 1; 0; 0; 0; 0].
Definition S_E : list Z := [0; 1; 0; 0; 1; 1; 0; 0; 1].
Definition S_S : list Z := [0; 0; 0; 0; 1; 1; 1; 1; 0].
Definition S_W : list Z := [1; 0; 0; 1; 1; 0; 0; 1; 0].

Definition Z_N : list Z := [1; 1; 0; 0; 1; 1; 0; 0; 0].
Definition Z_E : list Z := [0; 0; 1; 0; 1; 1; 0; 1; 0].
Definition Z_S : list Z := [0; 0; 0; 1; 1; 0; 0; 1; 1].
Definition Z_W : list Z := [0; 1; 0; 1; 1; 0; 1; 0; 0].

Definition J_N : list Z := [1; 0; 0; 1; 1; 1; 0; 0; 0].
Definition J_E : list Z := [0; 1; 1; 0; 1; 0; 0; 1; 0].
Definition J_S : list Z := [0; 0; 0; 1; 1; 1; 0; 0; 1].
Definition J_W : list Z := [0; 1; 0; 0; 1; 0; 1; 1; 0].

Definition L_N : list Z := [0; 0; 1; 1; 1; 1; 0; 0; 0].
Definition L_E : list Z := [0; 1; 0; 0; 1; 0; 0; 1; 1].
Definition L_S : list Z := [0; 0; 0; 1; 1; 1; 1; 0; 0].
Definition L_W : list Z := [1; 1; 0; 0; 1; 0; 0; 1; 0].

(** The master table; kinds without a designated initializer stay zeroed. *)
Definition PIECES (k : PieceKind) : PieceDef :=
  match k with
  | PIECE_I => mkDef 4 [Some I_N; Some I_E; Some I_S; Some I_W]
  | PIECE_O => mkDef 2 [Some O_SHAPE; Some O_SHAPE; Some O_SHAPE; Some O_SHAPE]
  | PIECE_T => mkDef 3 [Some T_N; Some T_E; Some T_S; Some T_W]
  | PIECE_S => mkDef 3 [Some S_N; Some S_E; Some S_S; Some S_W]
  | PIECE_Z => mkDef 3 [Some Z_N; Some Z_E; Some Z_S; Some Z_W]
  | PIECE_J => mkDef 3 [Some J_N; Some J_E; Some J_S; Some J_W]
  | PIECE_L => mkDef 3 [Some L_N; Some L_E; Some L_S; Some L_W]
  | _ => mkDef 0 [None; None; None; None]
  end.

(** NULL for PIECE_NONE and for a kind outside the table.  (The [assert] before
    the test aborts on the latter; no definition below builds such a kind.) *)
Definition piece_def (k : PieceKind) : option PieceDef :=
  if (kind_code k <=? kind_code PIECE_NONE) || (kind_code PIECE_COUNT <=? kind_code k)
  then None else Some (PIECES k).

Definition piece_size (p : Piece) : Z :=
  match piece_def (kind p) with Some d => size d | None => 0 end.

Definition piece_grid (p : Piece) : option (list Z) :=
  match piece_def (kind p) with
  | None => None
  | Some d => aget None (grid d) (rot p)
  end.

Definition piece_filled (p : Piece) (r c : Z) : bool :=
  let n := piece_size p in
  if (n =? 0) || (r <? 0) || (c <? 0) || (n <=? r) || (n <=? c) then false
  else match piece_grid p with
       | Some g => aget 0 g (r * n + c) =? 1
       | None => false
       end.

(** ** rng.c: the deterministic stream *)

Definition piece_from_hash (h : Z) : PieceKind :=
  let r := Z.shiftr h 16 mod (kind_code PIECE_SPAWNABLE - 1) in
  kind_of_code (kind_code PIECE_I + r).

Definition rng_piece (seed counter : Z) : PieceKind :=
  let h := ((Z.lxor seed (counter *u 2654435761) *u 1664525) +u 1013904223)%cint in
  piece_from_hash h.

(** ** scoring.c *)

Definition PTS : list Z := [0; 100; 300; 500; 800].

Definition scoring_add (g : GameState) (cleared : Z) : GameState :=
  if cleared <=? 0 then g
  else
    let cleared := if 4 <? cleared then 4 else cleared in
    let g := set_lines (lines g + cleared) g in
    set_score (score g + aget 0 PTS cleared) g.

(** ** Facts *)

(** The kinds the generator may deal: the seven tetrominoes. *)
Definition spawnable (k : PieceKind) : bool :=
  (kind_code PIECE_I <=? kind_code k) && (kind_code k <? kind_code PIECE_SPAWNABLE).

Lemma kind_of_code_code k : kind_of_code (kind_code k) = k.
Proof. by destruct k. Qed.

Lemma spawnable_cases k :
  spawnable k = true <->
  k ∈ [PIECE_I; PIECE_O; PIECE_T; PIECE_S; PIECE_Z; PIECE_J; PIECE_L].
Proof. rewrite !elem_of_cons, elem_of_nil. destruct k; cbn; naive_solver. Qed.

Lemma rng_piece_spawnable s c : spawnable (rng_piece s c) = true.
Proof.
  unfold rng_piece, piece_from_hash.
  match goal with |- context [Z.shiftr ?h 16] => set (x := Z.shiftr h 16) end.
  pose proof (Z.mod_pos_bound x (kind_code PIECE_SPAWNABLE - 1) ltac:(cbn; lia)) as Hb.
  set (r := x mod _) in *. cbn in Hb.
  assert (r = 0 \/ r = 1 \/ r = 2 \/ r = 3 \/ r = 4 \/ r = 5 \/ r = 6) as Hr by lia.
  by destruct Hr as [->|[->|[->|[->|[->|[->| ->]]]]]].
Qed.

(** The box of a spawnable piece is 2, 3 or 4 wide. *)
Lemma piece_size_spawnable p :
  spawnable (kind p) = true -> 2 <= piece_size p <= 4.
Proof. unfold piece_size. destruct (kind p); cbn; intros; done || lia. Qed.

Lemma piece_size_bounds p : 0 <= piece_size p <= 4.
Proof. unfold piece_size. destruct (kind p); cbn; lia. Qed.

Lemma piece_size_kind p q : kind p = kind q -> piece_size p = piece_size q.
Proof. unfold piece_size. by intros ->. Qed.

Lemma piece_filled_box p r c :
  piece_filled p r c = true -> 0 <= r < piece_size p /\ 0 <= c < piece_size p.
Proof.
  unfold piece_filled. case_match eqn:E; [done|]. intros _.
  bool_arith. lia.
Qed.

Lemma piece_filled_shape p q r c :
  kind p = kind q -> rot p = rot q -> piece_filled p r c = piece_filled q r c.
Proof.
  intros Hk Hr. unfold piece_filled, piece_grid.
  by rewrite (piece_size_kind p q), Hk, Hr.
Qed.
