(* ===== verification/Board.v ===== *)
(** * Board: collision, locking, line clearing, garbage

    Models tetriSH/src/libtetrisbrain/board.c.  The loops are written as the
    code has them (cell by cell, in place); the theorems at the end show what
    they compute: [board_clear_lines] keeps exactly the rows that are not full
    and refills from the top, [board_add_garbage] is a shift of the stack, and
    locking a piece adds its cells and nothing else. *)

From stdpp Require Import options.
From S2P Require Import Prelude Piece.

(** ** Cells and rows *)

Definition row (b : Board) (y : Z) : list Z := aget [] b y.
Definition bget (b : Board) (y x : Z) : Cell := aget 0 (row b y) x.
Definition bset (b : Board) (y x : Z) (v : Cell) : Board := aset b y (aset (row b y) x v).

(** The iteration space of the two nested loops over a piece's box. *)
Definition box (n : Z) : list (Z * Z) :=
  range n ≫= fun r => (fun c => (r, c)) <$> range n.

Definition off_board (bx by_ : Z) : bool :=
  (bx <? 0) || (BOARD_WIDTH <=? bx) || (by_ <? 0) || (BOARD_HEIGHT <=? by_).

(** ** board.c *)

Definition board_collides (g : GameState) (p : Piece) : bool :=
  existsb (fun '(r, c) =>
    if negb (piece_filled p r c) then false
    else
      let bx := px p + c in
      let by_ := py p + r in
      if off_board bx by_ then true
      else negb (bget (board g) by_ bx =? kind_code PIECE_NONE))
    (box (piece_size p)).

Definition board_spawn_piece (g : GameState) (k : PieceKind) : bool * GameState :=
  let p := mkPiece k 0 3 (BOARD_BUFFER_HEIGHT - piece_size (mkPiece k 0 0 0)) in
  if board_collides g p then (false, g)
  else (true, set_tick_count 0 (set_active p g)).

Definition lock_cell (p : Piece) (b : Board) (rc : Z * Z) : Board :=
  let '(r, c) := rc in
  if negb (piece_filled p r c) then b
  else
    let bx := px p + c in
    let by_ := py p + r in
    if off_board bx by_ then b
    else bset b by_ bx (kind_code (kind p)).

#[global] Arguments lock_cell : simpl never.

Definition board_lock (g : GameState) (p : Piece) : GameState :=
  let g := set_board (foldl (lock_cell p) (board g) (box (piece_size p))) g in
  set_hold_used false g.

Definition row_full (b : Board) (r : Z) : bool :=
  forallb (fun c => negb (bget b r c =? kind_code PIECE_NONE)) (range BOARD_WIDTH).

(** [for (c) board[dst][c] = board[src][c]] *)
Definition copy_row (b : Board) (dst src : Z) : Board :=
  foldl (fun b c => bset b dst c (bget b src c)) b (range BOARD_WIDTH).

(** [for (c) board[y][c] = f(c)] *)
Definition fill_row (f : Z -> Cell) (b : Board) (y : Z) : Board :=
  foldl (fun b c => bset b y c (f c)) b (range BOARD_WIDTH).

(** The [src] loop, from row [n-1] down to 0, with its running [dst] and
    [cleared]. *)
Fixpoint clear_scan (n : nat) (b : Board) (dst cleared : Z) : Board * Z * Z :=
  match n with
  | O => (b, dst, cleared)
  | S n' =>
      let src := Z.of_nat n' in
      if row_full b src then clear_scan n' b dst (cleared + 1)
      else
        let b := if dst =? src then b else copy_row b dst src in
        clear_scan n' b (dst - 1) cleared
  end.

(** [for (; dst >= 0; dst--)]: empty the vacated rows [n-1 .. 0]. *)
Fixpoint clear_top (n : nat) (b : Board) : Board :=
  match n with
  | O => b
  | S n' => clear_top n' (fill_row (fun _ => kind_code PIECE_NONE) b (Z.of_nat n'))
  end.

Definition board_clear_lines (g : GameState) : Z * GameState :=
  let '(b, dst, cleared) :=
    clear_scan (Z.to_nat BOARD_HEIGHT) (board g) (BOARD_HEIGHT - 1) 0 in
  (cleared, set_board (clear_top (Z.to_nat (dst + 1)) b) g).

Definition GARBAGE_HOLE_COL : Z := 5.

Definition garbage_cell (c : Z) : Cell :=
  if c =? GARBAGE_HOLE_COL then kind_code PIECE_NONE else kind_code PIECE_GARBAGE.

(** The loop that walks the falling piece up until it is clear of the stack:
    [false] when it runs off the top.  [fuel] bounds the iterations; [None] is
    running out of it. *)
Fixpoint lift_active (fuel : nat) (g : GameState) : option (bool * GameState) :=
  match fuel with
  | O => None
  | S fuel =>
      if negb (bool_decide (kind (active g) = PIECE_NONE)) && board_collides g (active g)
      then
        if py (active g) <=? - piece_size (active g) then Some (false, g)
        else
          let p := active g in
          lift_active fuel
            (set_active (mkPiece (kind p) (rot p) (px p) (py p - 1)) g)
      else Some (true, g)
  end.

(** Enough iterations for any falling piece: it rises one row at a time. *)
Definition lift_fuel (g : GameState) : nat :=
  S (S (Z.to_nat (py (active g) + piece_size (active g)))).

Definition garbage_topped (b : Board) (rows : Z) : bool :=
  existsb (fun r => existsb (fun c => negb (bget b r c =? kind_code PIECE_NONE))
                      (range BOARD_WIDTH)) (range rows).

(** The two copying loops of [board_add_garbage]: lift the stack, then lay the
    new rows underneath. *)
Definition garbage_shift (b : Board) (rows : Z) : Board :=
  let b := foldl (fun b dst => copy_row b dst (dst + rows)) b
             (range (BOARD_HEIGHT - rows)) in
  foldl (fill_row garbage_cell) b (seqZ (BOARD_HEIGHT - rows) rows).

Definition board_add_garbage (g : GameState) (rows : Z) : option (bool * GameState) :=
  if rows <=? 0 then Some (true, g)
  else
    let rows := if BOARD_HEIGHT <? rows then BOARD_HEIGHT else rows in
    let topped := garbage_topped (board g) rows in
    let g := set_board (garbage_shift (board g) rows) g in
    match lift_active (lift_fuel g) g with
    | None => None
    | Some (false, g) => Some (false, g)
    | Some (true, g) => Some (negb topped, g)
    end.

(** ** Well-formed boards *)

(** The array has its declared dimensions. *)
Definition wf_board (b : Board) : Prop :=
  length b = Z.to_nat BOARD_HEIGHT /\ Forall (fun r => length r = Z.to_nat BOARD_WIDTH) b.

#[global] Instance wf_board_dec b : Decision (wf_board b).
Proof. unfold wf_board. apply _. Defined.

Definition empty_row : list Z := replicate (Z.to_nat BOARD_WIDTH) (kind_code PIECE_NONE).
Definition garbage_row : list Z := garbage_cell <$> range BOARD_WIDTH.

Definition in_board (y x : Z) : Prop := 0 <= y < BOARD_HEIGHT /\ 0 <= x < BOARD_WIDTH.

Lemma off_board_false bx by_ : off_board bx by_ = false <-> in_board by_ bx.
Proof.
  unfold off_board, in_board. rewrite !orb_false_iff, !Z.ltb_ge, !Z.leb_gt. lia.
Qed.

Lemma elem_of_box n r c : (r, c) ∈ box n <-> 0 <= r < n /\ 0 <= c < n.
Proof.
  unfold box. rewrite list_elem_of_bind. setoid_rewrite elem_of_range.
  setoid_rewrite list_elem_of_fmap. setoid_rewrite elem_of_range. naive_solver.
Qed.

Lemma NoDup_box n : NoDup (box n).
Proof.
  unfold box. apply NoDup_bind; [|intros; apply NoDup_fmap_2; [congruence|]|];
    [|apply NoDup_range..].
  intros r r' [? ?] _ _. rewrite !list_elem_of_fmap. naive_solver.
Qed.

Lemma row_lookup b y :
  wf_board b -> 0 <= y < BOARD_HEIGHT -> b !! Z.to_nat y = Some (row b y).
Proof. intros [Hl _] Hy. apply aget_Some. unfold BOARD_HEIGHT in *. rewrite Hl. lia. Qed.

Lemma length_row b y :
  wf_board b -> 0 <= y < BOARD_HEIGHT -> length (row b y) = Z.to_nat BOARD_WIDTH.
Proof.
  intros Hw Hy. pose proof (row_lookup b y Hw Hy) as Hr. destruct Hw as [_ Hf].
  by apply (Forall_lookup_1 _ _ _ _ Hf Hr).
Qed.

Lemma row_aset_eq b y r :
  wf_board b -> 0 <= y < BOARD_HEIGHT -> row (aset b y r) y = r.
Proof. intros [Hl _] Hy. apply aget_aset_eq. rewrite Hl. lia. Qed.

Lemma row_aset_ne b y y' r : y <> y' -> row (aset b y r) y' = row b y'.
Proof. apply aget_aset_ne. Qed.

Lemma wf_aset b y r :
  wf_board b -> length r = Z.to_nat BOARD_WIDTH -> wf_board (aset b y r).
Proof.
  intros [Hl Hf] Hr. split; [by rewrite length_aset|].
  unfold aset. case_match; [done|]. by apply Forall_insert.
Qed.

Lemma wf_bset b y x v : wf_board b -> 0 <= y < BOARD_HEIGHT -> wf_board (bset b y x v).
Proof. intros Hw Hy. apply wf_aset; [done|]. rewrite length_aset. by apply length_row. Qed.

Lemma bget_bset_eq b y x v : wf_board b -> in_board y x -> bget (bset b y x v) y x = v.
Proof.
  intros Hw [Hy Hx]. unfold bget, bset. rewrite row_aset_eq by done.
  apply aget_aset_eq. rewrite length_row by done. lia.
Qed.

Lemma bget_bset_ne b y x y' x' v :
  wf_board b -> 0 <= y < BOARD_HEIGHT -> (y, x) <> (y', x') ->
  bget (bset b y x v) y' x' = bget b y' x'.
Proof.
  intros Hw Hy Hne. unfold bget, bset. destruct (decide (y = y')) as [<-|Hy'].
  - rewrite row_aset_eq by done. apply aget_aset_ne. congruence.
  - by rewrite row_aset_ne.
Qed.

#[export] Hint Resolve wf_aset wf_bset : corestack.

(** Two boards with the same rows are the same board. *)
Lemma board_ext b b' :
  wf_board b -> wf_board b' ->
  (forall y, 0 <= y < BOARD_HEIGHT -> row b y = row b' y) -> b = b'.
Proof.
  intros Hw Hw' Heq. apply list_eq_same_length with (Z.to_nat BOARD_HEIGHT);
    [apply Hw'|apply Hw|].
  intros i r r' Hi Hr Hr'. specialize (Heq (Z.of_nat i)).
  unfold row in Heq. rewrite !aget_nat, Hr, Hr' in Heq. apply Heq. lia.
Qed.

(** A column loop that writes row [y] writes the whole row, whatever it reads
    from the other rows. *)
Lemma row_write_loop (f : Board -> Z -> Z) b y (v : list Z) :
  wf_board b -> 0 <= y < BOARD_HEIGHT -> length v = Z.to_nat BOARD_WIDTH ->
  (forall b' c, 0 <= c < BOARD_WIDTH ->
     (forall y', y' <> y -> row b' y' = row b y') -> f b' c = aget 0 v c) ->
  foldl (fun b c => bset b y c (f b c)) b (range BOARD_WIDTH) = aset b y v.
Proof.
  intros Hw Hy Hv Hf.
  pose (I := fun (k : Z) (s : Board) =>
    wf_board s /\ (forall y', y' <> y -> row s y' = row b y') /\
    (forall c, 0 <= c < k -> bget s y c = aget 0 v c)).
  assert (I BOARD_WIDTH (foldl (fun b c => bset b y c (f b c)) b (range BOARD_WIDTH)))
    as (Hws & Hother & Hrow).
  { apply (foldl_range_ind I); [done| |].
    - split; [done|split; [done|]]. lia.
    - intros k s Hk (Hws & Ho & Hc). split; [|split].
      + auto with corestack.
      + intros y' Hne. unfold bset. rewrite row_aset_ne by done. by apply Ho.
      + intros c Hcb. destruct (decide (c = k)) as [->|Hck].
        * rewrite bget_bset_eq by (done || split; done). by apply Hf.
        * rewrite bget_bset_ne by (done || congruence). apply Hc. lia. }
  apply board_ext; [done|by apply wf_aset|].
  intros y' Hy'. destruct (decide (y' = y)) as [->|Hne].
  - rewrite row_aset_eq by done. pose proof (length_row _ _ Hws Hy) as Hlr.
    apply list_eq_same_length with (Z.to_nat BOARD_WIDTH); [done|done|].
    intros i x x' Hi Hx Hx'. specialize (Hrow (Z.of_nat i)).
    unfold bget in Hrow. rewrite !aget_nat, Hx, Hx' in Hrow. apply Hrow. lia.
  - rewrite row_aset_ne by done. by apply Hother.
Qed.

Lemma copy_row_spec b dst src :
  wf_board b -> 0 <= dst < BOARD_HEIGHT -> 0 <= src < BOARD_HEIGHT -> dst <> src ->
  copy_row b dst src = aset b dst (row b src).
Proof.
  intros Hw Hd Hs Hne. unfold copy_row.
  apply (row_write_loop (fun b c => bget b src c)); [done..|by apply length_row|].
  intros b' c Hc Ho. unfold bget. by rewrite Ho.
Qed.

Lemma fill_row_spec f b y :
  wf_board b -> 0 <= y < BOARD_HEIGHT ->
  fill_row f b y = aset b y (f <$> range BOARD_WIDTH).
Proof.
  intros Hw Hy. unfold fill_row.
  apply (row_write_loop (fun _ c => f c)); [done..|by rewrite length_fmap, length_range|].
  intros b' c Hc _. symmetry. apply aget_lookup; [lia|].
  rewrite list_lookup_fmap. unfold range. rewrite lookup_seqZ_lt by lia.
  simpl. f_equal. f_equal. lia.
Qed.

(** ** Line clearing *)

(** A row with no empty cell. *)
Definition full (r : list Z) : bool := forallb (fun x => negb (x =? kind_code PIECE_NONE)) r.

(** The reference: drop the full rows, refill from the top. *)
Definition cleared_board (b : Board) : Board :=
  let kept := filter (fun r => full r = false) b in
  replicate (length b - length kept) empty_row ++ kept.

Definition full_rows (b : Board) : nat := length (filter (fun r => full r = true) b).

Lemma full_rows_kept b :
  (full_rows b + length (filter (fun r => full r = false) b) = length b)%nat.
Proof.
  unfold full_rows. induction b as [|r b IH]; [done|].
  rewrite !filter_cons. simpl.
  destruct (full r); repeat case_decide; simplify_eq; simpl; lia.
Qed.

Lemma row_full_spec b y :
  wf_board b -> 0 <= y < BOARD_HEIGHT -> row_full b y = full (row b y).
Proof.
  intros Hw Hy. unfold row_full, full, bget. pose proof (length_row b y Hw Hy) as Hl.
  apply eq_true_iff_eq. rewrite !forallb_forall. split.
  - intros H x Hx. apply list_elem_of_In, list_elem_of_lookup in Hx as [i Hi].
    pose proof (lookup_lt_Some _ _ _ Hi).
    specialize (H (Z.of_nat i)). rewrite aget_nat, Hi in H. apply H.
    apply list_elem_of_In, elem_of_range. lia.
  - intros H c Hc%list_elem_of_In%elem_of_range. apply H.
    apply list_elem_of_In. eapply list_elem_of_lookup_2, aget_Some. rewrite Hl. lia.
Qed.

Lemma full_empty_row : full empty_row = false.
Proof. done. Qed.

Lemma wf_cleared_board b : wf_board b -> wf_board (cleared_board b).
Proof.
  intros [Hl Hf]. unfold cleared_board. pose proof (length_filter (fun r => full r = false) b).
  split.
  - rewrite length_app, length_replicate. lia.
  - apply Forall_app. split; [by apply Forall_replicate|].
    apply list.Forall_forall. intros r [_ Hr]%list_elem_of_filter.
    by apply (proj1 (list.Forall_forall _ _) Hf).
Qed.

(** Loop invariant of the [src] loop: the rows above [n] are untouched, and the
    rows below [dst] are the survivors of the rows already scanned. *)
Lemma clear_scan_spec b0 n b P dst cleared :
  wf_board b0 -> wf_board b -> (n <= Z.to_nat BOARD_HEIGHT)%nat ->
  b = P ++ filter (fun r => full r = false) (drop n b0) ->
  Z.of_nat (length P) = dst + 1 -> take n P = take n b0 -> (n <= length P)%nat ->
  exists b' P' dst', clear_scan n b dst cleared = (b', dst', cleared + Z.of_nat (full_rows (take n b0))) /\
    wf_board b' /\ b' = P' ++ filter (fun r => full r = false) b0 /\
    Z.of_nat (length P') = dst' + 1.
Proof.
  intros Hw0. revert b P dst cleared.
  induction n as [|n IH]; intros b P dst cleared Hw Hn Hb HP Htake HnP.
  { exists b, P, dst. simpl. unfold full_rows. simpl. rewrite Z.add_0_r. done. }
  destruct (lookup_lt_is_Some_2 b0 n) as [r Hr]; [destruct Hw0; lia|].
  assert (HPn : P !! n = Some r).
  { rewrite <- (lookup_take_lt P (S n)) by lia. rewrite Htake.
    by rewrite lookup_take_lt by lia. }
  assert (Hrow : row b (Z.of_nat n) = r).
  { unfold row. rewrite aget_nat, Hb. rewrite lookup_app_l by lia. by rewrite HPn. }
  assert (HtakeS : take (S n) b0 = take n b0 ++ [r]) by (by apply take_S_r).
  assert (Hdrop : drop n b0 = r :: drop (S n) b0) by (by apply drop_S).
  assert (Htn : forall Q, take n Q = take n P -> take n Q = take n b0).
  { intros Q ->. pose proof (f_equal (take n) Htake) as Ht.
    rewrite !take_take in Ht. by replace (n `min` S n)%nat with n in Ht by lia. }
  assert (Hfr : full_rows (take (S n) b0) = (full_rows (take n b0) + if full r then 1 else 0)%nat).
  { unfold full_rows. rewrite HtakeS, list.filter_app, length_app. f_equal.
    rewrite filter_cons, filter_nil. destruct (full r); done. }
  simpl clear_scan. rewrite row_full_spec, Hrow by (done || lia).
  destruct (full r) eqn:Hfull.
  - edestruct (IH b P dst (cleared + 1)) as (b' & P' & dst' & -> & Hrest);
      [done|lia| |done|by apply Htn|lia|].
    + rewrite Hb, Hdrop, filter_cons_False by congruence. done.
    + exists b', P', dst'. rewrite Hfr. split; [|done]. f_equal. lia.
  - assert (exists Q x, P = Q ++ [x]) as (Q & x & ->).
    { destruct (decide (P = [])) as [->|Hne]; [simpl in HnP; lia|].
      destruct (exists_last Hne) as (Q & x & ->). eauto. }
    rewrite length_app in *. simpl in HP, HnP.
    assert (Hb' : (if dst =? Z.of_nat n then b else copy_row b dst (Z.of_nat n)) = aset b dst r).
    { destruct (Z.eqb_spec dst (Z.of_nat n)) as [->|Hne].
      - rewrite aset_nat. symmetry. apply list_insert_id.
        rewrite Hb. rewrite lookup_app_l by (rewrite length_app; simpl; lia). done.
      - rewrite copy_row_spec, Hrow by (done || destruct Hw as [Hl _];
          rewrite Hb, !length_app in Hl; simpl in Hl; lia). done. }
    rewrite Hb'.
    assert (Hb'' : aset b dst r = Q ++ filter (fun r => full r = false) (drop n b0)).
    { replace dst with (Z.of_nat (length Q)) by lia.
      rewrite aset_nat, Hb, <- (app_assoc Q), insert_app_r_alt by lia.
      rewrite Nat.sub_diag. simpl. rewrite Hdrop, filter_cons_True by done. done. }
    edestruct (IH (aset b dst r) Q (dst - 1) cleared) as (b' & P' & dst' & -> & Hrest);
      [|lia|done|lia| |lia|].
    + apply wf_aset; [done|]. destruct Hw0 as [_ Hf0].
      by apply (Forall_lookup_1 _ _ _ _ Hf0 Hr).
    + apply Htn. rewrite take_app_le by lia. done.
    + exists b', P', dst'. rewrite Hfr, Nat.add_0_r. done.
Qed.

Lemma clear_top_spec n b P K :
  wf_board b -> b = P ++ K -> length P = n -> clear_top n b = replicate n empty_row ++ K.
Proof.
  revert b P K. induction n as [|n IH]; intros b P K Hw Hb HP.
  { apply nil_length_inv in HP. by subst. }
  assert (exists Q x, P = Q ++ [x]) as (Q & x & ->).
  { destruct (decide (P = [])) as [->|Hne]; [done|].
    destruct (exists_last Hne) as (Q & x & ->). eauto. }
  rewrite length_app in HP. simpl in HP. simpl clear_top.
  assert (Hn : 0 <= Z.of_nat n < BOARD_HEIGHT).
  { destruct Hw as [Hl _]. rewrite Hb, !length_app in Hl. simpl in Hl. lia. }
  rewrite fill_row_spec by done. change (_ <$> range BOARD_WIDTH) with empty_row.
  rewrite (IH _ Q (empty_row :: K)); [| |  |lia].
  - rewrite replicate_S_end, <- app_assoc. done.
  - by apply wf_aset.
  - rewrite aset_nat, Hb, <- app_assoc, insert_app_r_alt by lia.
    replace (n - length Q)%nat with 0%nat by lia. done.
Qed.

Lemma board_clear_lines_spec g :
  wf_board (board g) ->
  board_clear_lines g =
    (Z.of_nat (full_rows (board g)), set_board (cleared_board (board g)) g).
Proof.
  intros Hw. unfold board_clear_lines.
  destruct (clear_scan_spec (board g) (Z.to_nat BOARD_HEIGHT) (board g) (board g)
    (BOARD_HEIGHT - 1) 0) as (b' & P' & dst' & -> & Hw' & Hb' & HP'); [done|done|lia| | |done| |].
  - destruct Hw as [Hl _]. rewrite <- Hl, drop_all, filter_nil, app_nil_r. done.
  - destruct Hw as [Hl _]. rewrite Hl. done.
  - destruct Hw as [Hl _]. rewrite Hl. done.
  - rewrite (clear_top_spec _ _ P' _ Hw' Hb') by lia. f_equal.
    + destruct Hw as [Hl _]. rewrite <- Hl, firstn_all. done.
    + f_equal. unfold cleared_board. f_equal. f_equal.
      destruct Hw as [Hl _], Hw' as [Hl' _]. rewrite Hb', length_app in Hl'. lia.
Qed.

(** ** Garbage *)

Lemma wf_copy_row b dst src :
  wf_board b -> 0 <= dst < BOARD_HEIGHT -> 0 <= src < BOARD_HEIGHT -> dst <> src ->
  wf_board (copy_row b dst src).
Proof. intros. rewrite copy_row_spec by done. apply wf_aset; [done|by apply length_row]. Qed.

Lemma length_garbage_row : length garbage_row = Z.to_nat BOARD_WIDTH.
Proof. done. Qed.

Lemma garbage_lift_loop b rows :
  wf_board b -> 0 < rows <= BOARD_HEIGHT ->
  let b' := foldl (fun b dst => copy_row b dst (dst + rows)) b (range (BOARD_HEIGHT - rows)) in
  wf_board b' /\ forall y, 0 <= y < BOARD_HEIGHT - rows -> row b' y = row b (y + rows).
Proof.
  intros Hw Hr.
  pose (I := fun (k : Z) s => wf_board s /\
    (forall y, 0 <= y < k -> row s y = row b (y + rows)) /\
    (forall y, k <= y < BOARD_HEIGHT -> row s y = row b y)).
  assert (I (BOARD_HEIGHT - rows) (foldl (fun b dst => copy_row b dst (dst + rows)) b
    (range (BOARD_HEIGHT - rows)))) as (Hw' & Hlo & _); [|done].
  apply (foldl_range_ind I); [lia| |].
  - split; [done|split; [lia|done]].
  - intros k s Hk (Hws & Hlo & Hhi). split; [|split].
    + apply wf_copy_row; [done|lia..].
    + intros y Hy. rewrite copy_row_spec by (done || lia).
      destruct (decide (y = k)) as [->|Hne].
      * rewrite row_aset_eq by (done || lia). apply Hhi. lia.
      * rewrite row_aset_ne by lia. apply Hlo. lia.
    + intros y Hy. rewrite copy_row_spec by (done || lia).
      rewrite row_aset_ne by lia. apply Hhi. lia.
Qed.

Lemma garbage_fill_loop b rows :
  wf_board b -> 0 < rows <= BOARD_HEIGHT ->
  let b' := foldl (fill_row garbage_cell) b (seqZ (BOARD_HEIGHT - rows) rows) in
  wf_board b' /\ (forall y, 0 <= y < BOARD_HEIGHT - rows -> row b' y = row b y) /\
  (forall y, BOARD_HEIGHT - rows <= y < BOARD_HEIGHT -> row b' y = garbage_row).
Proof.
  intros Hw Hr.
  pose (I := fun (k : Z) s => wf_board s /\
    (forall y, 0 <= y < BOARD_HEIGHT - rows -> row s y = row b y) /\
    (forall y, BOARD_HEIGHT - rows <= y < k -> row s y = garbage_row)).
  assert (I (BOARD_HEIGHT - rows + rows) (foldl (fill_row garbage_cell) b
    (seqZ (BOARD_HEIGHT - rows) rows))) as HI.
  { apply (foldl_seqZ_ind I); [lia| |].
    - split; [done|split; [done|lia]].
    - intros k s Hk (Hws & Hlo & Hhi). rewrite fill_row_spec by (done || lia).
      fold garbage_row. split; [by apply wf_aset|split].
      + intros y Hy. rewrite row_aset_ne by lia. by apply Hlo.
      + intros y Hy. destruct (decide (y = k)) as [->|Hne].
        * apply row_aset_eq; [done|lia].
        * rewrite row_aset_ne by lia. apply Hhi. lia. }
  unfold I in HI. by replace (BOARD_HEIGHT - rows + rows) with BOARD_HEIGHT in HI by lia.
Qed.

(** The reference: the stack moves up by [rows], garbage below. *)
Definition shifted_board (b : Board) (rows : Z) : Board :=
  drop (Z.to_nat rows) b ++ replicate (Z.to_nat rows) garbage_row.

Lemma wf_shifted_board b rows :
  wf_board b -> 0 < rows <= BOARD_HEIGHT -> wf_board (shifted_board b rows).
Proof.
  intros [Hl Hf] Hr. unfold shifted_board. split.
  - rewrite length_app, length_drop, length_replicate, Hl. lia.
  - apply Forall_app. split; [by apply Forall_drop|by apply Forall_replicate].
Qed.

Lemma garbage_shift_spec b rows :
  wf_board b -> 0 < rows <= BOARD_HEIGHT ->
  garbage_shift b rows = shifted_board b rows.
Proof.
  intros Hw Hr. unfold garbage_shift.
  destruct (garbage_lift_loop b rows Hw Hr) as [Hw1 H1].
  destruct (garbage_fill_loop _ rows Hw1 Hr) as (Hw2 & H2 & H3).
  apply board_ext; [done|by apply wf_shifted_board|]. intros y Hy.
  unfold row at 2, shifted_board. destruct (decide (y < BOARD_HEIGHT - rows)).
  - rewrite H2, H1 by lia. symmetry. apply aget_lookup; [lia|].
    rewrite lookup_app_l by (rewrite length_drop; destruct Hw as [-> _]; lia).
    rewrite lookup_drop. rewrite <- row_lookup by (done || lia). f_equal. lia.
  - rewrite H3 by lia. symmetry. apply aget_lookup; [lia|].
    rewrite lookup_app_r by (rewrite length_drop; destruct Hw as [-> _]; lia).
    apply lookup_replicate. split; [done|]. rewrite length_drop. destruct Hw as [-> _]. lia.
Qed.

(** The falling piece [k] rows higher. *)
Definition raise_piece (k : Z) (p : Piece) : Piece :=
  mkPiece (kind p) (rot p) (px p) (py p - k).

Lemma lift_active_spec fuel g :
  py (active g) + piece_size (active g) + 1 < Z.of_nat fuel -> (0 < fuel)%nat ->
  exists ok k, 0 <= k /\
    lift_active fuel g = Some (ok, set_active (raise_piece k (active g)) g) /\
    (forall j, 0 <= j < k -> board_collides g (raise_piece j (active g)) = true) /\
    (ok = true -> kind (active g) = PIECE_NONE \/
                  board_collides g (raise_piece k (active g)) = false) /\
    (ok = false -> py (active g) - k <= - piece_size (active g)).
Proof.
  revert g. induction fuel as [|fuel IH]; intros g Hfuel Hpos; [lia|].
  assert (H0 : raise_piece 0 (active g) = active g).
  { destruct (active g). unfold raise_piece. simpl. f_equal. lia. }
  assert (Hid : set_active (active g) g = g) by (by destruct g).
  simpl lift_active.
  destruct (negb _ && _) eqn:Hc.
  - bool_arith. apply bool_decide_eq_false in H.
    destruct (py (active g) <=? - piece_size (active g)) eqn:Htop.
    + bool_arith. exists false, 0. rewrite H0, Hid. split; [lia|].
      split; [done|]. split; [lia|]. split; [done|intros _; lia].
    + bool_arith. set (p1 := mkPiece _ _ _ _).
      assert (Hs : piece_size p1 = piece_size (active g)) by (by apply piece_size_kind).
      pose proof (piece_size_bounds (active g)).
      destruct (IH (set_active p1 g)) as (ok & k & Hk & -> & Hcol & Hok & Hbad);
        [simpl; rewrite Hs; simpl; lia|lia|].
      simpl in *. rewrite Hs in Hbad. simpl in Hbad.
      assert (Hr : forall j, raise_piece j p1 = raise_piece (j + 1) (active g)).
      { intros j. unfold raise_piece, p1. simpl. f_equal. lia. }
      exists ok, (k + 1). rewrite Hr in *. split; [lia|]. split; [done|].
      split; [|split; [done|intros Hb; specialize (Hbad Hb); lia]].
      intros j Hj. destruct (decide (j = 0)) as [->|Hne]; [by rewrite H0|].
      specialize (Hcol (j - 1) ltac:(lia)). rewrite Hr in Hcol.
      by replace (j - 1 + 1) with j in Hcol by lia.
  - exists true, 0. rewrite H0, Hid. split; [lia|]. split; [done|]. split; [lia|].
    split; [|done]. intros _.
    apply andb_false_iff in Hc as [Hc|Hc]; [|by right].
    left. apply negb_false_iff, bool_decide_eq_true in Hc. done.
Qed.

(** ** Collision, as a statement about the cells a piece covers *)

Lemma board_collides_false g p :
  board_collides g p = false <->
  forall r c, piece_filled p r c = true ->
    in_board (py p + r) (px p + c) /\ bget (board g) (py p + r) (px p + c) = kind_code PIECE_NONE.
Proof.
  unfold board_collides. rewrite <- not_true_iff_false, existsb_exists. split.
  - intros Hn r c Hf. pose proof (piece_filled_box _ _ _ Hf) as Hbox.
    destruct (off_board (px p + c) (py p + r)) eqn:Ho.
    { destruct Hn. exists (r, c). rewrite Hf, Ho. split; [|done].
      by apply list_elem_of_In, elem_of_box. }
    split; [by apply off_board_false|].
    destruct (Z.eqb_spec (bget (board g) (py p + r) (px p + c)) (kind_code PIECE_NONE))
      as [|Hne]; [done|].
    destruct Hn. exists (r, c). rewrite Hf, Ho. split; [by apply list_elem_of_In, elem_of_box|].
    simpl. apply Z.eqb_neq in Hne. simpl in Hne. by rewrite Hne.
  - intros H ([r c] & _ & Hc). destruct (piece_filled p r c) eqn:Hf; [|done]. simpl in Hc.
    destruct (H r c Hf) as [Hin Hz]. apply off_board_false in Hin. rewrite Hin in Hc.
    simpl in Hz. by rewrite Hz in Hc.
Qed.

(** A piece raised past the top of the board collides. *)
Lemma off_top_collides g p :
  (exists r c, piece_filled p r c = true) -> py p <= - piece_size p -> board_collides g p = true.
Proof.
  intros (r & c & Hf) Hp. destruct (board_collides g p) eqn:Hc; [done|].
  pose proof (piece_filled_box _ _ _ Hf).
  destruct (proj1 (board_collides_false g p) Hc r c Hf) as [[? _] _]. lia.
Qed.

Lemma board_collides_board g g' p : board g = board g' -> board_collides g p = board_collides g' p.
Proof. unfold board_collides. by intros ->. Qed.

(** ** Locking *)

(** The box cells a piece fills. *)
Definition piece_cells (p : Piece) : list (Z * Z) :=
  filter (fun rc => piece_filled p rc.1 rc.2 = true) (box (piece_size p)).

Lemma elem_of_piece_cells p r c : (r, c) ∈ piece_cells p <-> piece_filled p r c = true.
Proof.
  unfold piece_cells. rewrite list_elem_of_filter, elem_of_box. simpl. split; [by intros []|].
  intros H. split; [done|]. by apply piece_filled_box.
Qed.

Lemma NoDup_piece_cells p : NoDup (piece_cells p).
Proof. apply NoDup_filter, NoDup_box. Qed.

(** Every tetromino covers four cells in each of its rotations. *)
Lemma length_piece_cells p :
  spawnable (kind p) = true -> 0 <= rot p < PIECE_ROTS -> length (piece_cells p) = 4%nat.
Proof.
  intros Hk Hr. unfold PIECE_ROTS in Hr. destruct p as [k ro x y]. simpl in *.
  assert (Hrot : ro = 0 \/ ro = 1 \/ ro = 2 \/ ro = 3) by lia.
  destruct Hrot as [->|[->|[->| ->]]]; destruct k; done.
Qed.

Lemma piece_nonempty p :
  spawnable (kind p) = true -> 0 <= rot p < PIECE_ROTS ->
  exists r c, piece_filled p r c = true.
Proof.
  intros Hk Hr. pose proof (length_piece_cells p Hk Hr) as Hl.
  destruct (piece_cells p) as [|[r c] l] eqn:E; [done|].
  exists r, c. apply elem_of_piece_cells. rewrite E. apply elem_of_cons. by left.
Qed.

Lemma lock_cells_filter p b l :
  foldl (lock_cell p) b l =
  foldl (lock_cell p) b (filter (fun rc => piece_filled p rc.1 rc.2 = true) l).
Proof.
  revert b. induction l as [|[r c] l IH]; intros b; [done|].
  rewrite filter_cons. simpl. destruct (piece_filled p r c) eqn:Hf.
  - rewrite decide_True by done. apply IH.
  - rewrite decide_False by done. unfold lock_cell at 2. rewrite Hf. apply IH.
Qed.

(** How many cells are taken. *)
Definition cell_count (x : Z) : nat := if x =? kind_code PIECE_NONE then 0%nat else 1%nat.
Definition row_count (r : list Z) : nat := sum_list_with cell_count r.
Definition filled (b : Board) : nat := sum_list_with row_count b.

Lemma filled_bset b y x v :
  wf_board b -> in_board y x -> bget b y x = kind_code PIECE_NONE -> v <> kind_code PIECE_NONE ->
  filled (bset b y x v) = S (filled b).
Proof.
  intros Hw [Hy Hx] Hz Hv. unfold bset, filled, aset.
  rewrite (proj2 (Z.ltb_ge y 0)), (proj2 (Z.ltb_ge x 0)) by lia.
  pose proof (row_lookup b y Hw Hy) as Hr.
  assert (Hc : row b y !! Z.to_nat x = Some (kind_code PIECE_NONE)).
  { rewrite <- Hz. apply aget_Some. rewrite length_row by done. lia. }
  pose proof (sum_list_insert row_count _ _ _ (<[Z.to_nat x:=v]> (row b y)) Hr) as H1.
  pose proof (sum_list_insert cell_count _ _ _ v Hc) as H2.
  unfold row_count in *. unfold cell_count in H2 at 2 4. apply Z.eqb_neq in Hv.
  rewrite Hv in H2. simpl in H2. lia.
Qed.

(** What locking a list of filled box cells does, provided they are free. *)
Lemma lock_cells_spec p b l :
  wf_board b -> NoDup l -> kind p <> PIECE_NONE ->
  (forall r c, (r, c) ∈ l -> piece_filled p r c = true /\
     in_board (py p + r) (px p + c) /\ bget b (py p + r) (px p + c) = kind_code PIECE_NONE) ->
  let b' := foldl (lock_cell p) b l in
  wf_board b' /\ filled b' = (filled b + length l)%nat /\
  (forall r c, (r, c) ∈ l -> bget b' (py p + r) (px p + c) = kind_code (kind p)) /\
  (forall y x, (y - py p, x - px p) ∉ l -> bget b' y x = bget b y x).
Proof.
  revert b. induction l as [|[r0 c0] l IH]; intros b Hw Hnd Hk Hl.
  { simpl. split; [done|]. split; [lia|]. split; [|done]. intros r c H. by apply elem_of_nil in H. }
  apply NoDup_cons in Hnd as [Hnotin Hnd].
  destruct (Hl r0 c0) as (Hf & Hin & Hz); [apply elem_of_cons; by left|].
  assert (Hstep : lock_cell p b (r0, c0) = bset b (py p + r0) (px p + c0) (kind_code (kind p))).
  { unfold lock_cell. rewrite Hf. simpl. by rewrite (proj2 (off_board_false _ _) Hin). }
  simpl foldl. rewrite Hstep. set (b1 := bset _ _ _ _).
  assert (Hkc : kind_code (kind p) <> kind_code PIECE_NONE) by (destruct (kind p); done).
  destruct (IH b1) as (Hw' & Hfill & Hset & Hkeep); [by apply wf_bset; [|apply Hin]|done|done| |].
  { intros r c Hrc. destruct (Hl r c) as (? & ? & ?); [apply elem_of_cons; by right|].
    split; [done|split; [done|]]. unfold b1. rewrite bget_bset_ne; [done|done|apply Hin|].
    intros [=]. apply Hnotin. by replace (r0, c0) with (r, c) by (f_equal; lia). }
  split; [done|]. split; [|split].
  - rewrite Hfill. unfold b1. rewrite filled_bset by done. simpl. lia.
  - intros r c [[= -> ->]|Hrc]%elem_of_cons; [|by apply Hset].
    rewrite Hkeep.
    + unfold b1. by apply bget_bset_eq.
    + by replace (py p + r0 - py p) with r0 by lia; replace (px p + c0 - px p) with c0 by lia.
  - intros y x Hyx. apply not_elem_of_cons in Hyx as [Hne Hyx]. rewrite Hkeep by done.
    unfold b1. apply bget_bset_ne; [done|apply Hin|]. intros [=]. apply Hne. f_equal; lia.
Qed.

(** Locking a piece that does not collide: its cells take its colour, nothing
    else changes. *)
Lemma board_lock_spec g p :
  wf_board (board g) -> kind p <> PIECE_NONE -> board_collides g p = false ->
  let b' := board (board_lock g p) in
  wf_board b' /\ filled b' = (filled (board g) + length (piece_cells p))%nat /\
  (forall r c, piece_filled p r c = true -> bget b' (py p + r) (px p + c) = kind_code (kind p)) /\
  (forall y x, piece_filled p (y - py p) (x - px p) = false -> bget b' y x = bget (board g) y x).
Proof.
  intros Hw Hk Hc. unfold board_lock. simpl. rewrite lock_cells_filter.
  fold (piece_cells p).
  destruct (lock_cells_spec p (board g) (piece_cells p)) as (? & ? & Hset & Hkeep);
    [done|apply NoDup_piece_cells|done| |].
  - intros r c Hrc%elem_of_piece_cells. split; [done|].
    by apply board_collides_false.
  - split; [done|split; [done|split]].
    + intros r c Hf. apply Hset. by apply elem_of_piece_cells.
    + intros y x Hf. apply Hkeep. rewrite elem_of_piece_cells. by rewrite Hf.
Qed.

(** ** Counting rows and cells *)

Lemma Forall_board (P : Z -> Prop) b :
  wf_board b -> Forall (Forall P) b <-> (forall y x, in_board y x -> P (bget b y x)).
Proof.
  intros Hw. rewrite Forall_lookup. setoid_rewrite Forall_lookup. split.
  - intros H y x [Hy Hx]. apply (H (Z.to_nat y) (row b y) (row_lookup _ _ Hw Hy) (Z.to_nat x)).
    apply aget_Some. rewrite length_row by done. lia.
  - intros H i r Hr j v Hv. specialize (H (Z.of_nat i) (Z.of_nat j)).
    unfold bget, row in H. rewrite !aget_nat, Hr in H. simpl in H. rewrite Hv in H.
    apply H. destruct Hw as [Hl Hf]. apply lookup_lt_Some in Hv as Hj.
    rewrite (Forall_lookup_1 _ _ _ _ Hf Hr) in Hj. apply lookup_lt_Some in Hr.
    unfold in_board. lia.
Qed.

(** Changing rows inside a window of [n] rows makes at most [n] more full. *)
Lemma full_rows_window (b b' : Board) (lo n : Z) :
  length b = length b' -> 0 <= n ->
  (forall i, (lo <= Z.of_nat i < lo + n) \/ b !! i = b' !! i) ->
  Z.of_nat (full_rows b') <= Z.of_nat (full_rows b) + n.
Proof.
  intros Hl Hn H. cut (Z.of_nat (full_rows b') <=
    Z.of_nat (full_rows b) + (Z.max 0 (lo + n) - Z.max 0 lo)); [lia|].
  revert b' lo Hl H. unfold full_rows. induction b as [|r b IH]; intros [|r' b'] lo Hl H; try done.
  { simpl. lia. }
  specialize (IH b' (lo - 1) ltac:(simpl in Hl; lia)).
  assert (Hi : forall i, lo - 1 <= Z.of_nat i < lo - 1 + n \/ b !! i = b' !! i).
  { intros i. destruct (H (S i)) as [?|?]; [left; lia|by right]. }
  specialize (IH Hi). rewrite !filter_cons.
  destruct (H 0%nat) as [?|[= ->]]; repeat case_decide; simpl; lia.
Qed.

Lemma row_count_full r : full r = true -> row_count r = length r.
Proof.
  unfold full, row_count. induction r as [|x r IH]; [done|]. simpl. intros H. bool_arith.
  rewrite IH by done. unfold cell_count. apply Z.eqb_neq in H. simpl. by rewrite H.
Qed.

Lemma filled_app b b' : filled (b ++ b') = (filled b + filled b')%nat.
Proof. unfold filled. induction b as [|r b IH]; simpl; [done|]. rewrite IH. lia. Qed.

Lemma filled_replicate n r : filled (replicate n r) = (n * row_count r)%nat.
Proof. unfold filled. induction n; simpl; lia. Qed.

(** Clearing removes exactly the cells of the full rows. *)
Lemma filled_cleared b :
  wf_board b -> filled b = (filled (cleared_board b) + 10 * full_rows b)%nat.
Proof.
  intros [_ Hf]. unfold cleared_board. rewrite filled_app, filled_replicate.
  change (row_count empty_row) with 0%nat. rewrite Nat.mul_0_r. unfold full_rows, filled.
  induction Hf as [|r b Hr Hf IH]; [done|]. rewrite !filter_cons. simpl.
  destruct (full r) eqn:E; repeat case_decide; simplify_eq; simpl.
  - rewrite (row_count_full _ E), Hr, IH. change (Z.to_nat BOARD_WIDTH) with 10%nat. lia.
  - lia.
Qed.

Lemma no_full_cleared b : Forall (fun r => full r = false) (cleared_board b).
Proof.
  unfold cleared_board. apply Forall_app. split.
  - by apply Forall_replicate.
  - apply list.Forall_forall. by intros r [? _]%list_elem_of_filter.
Qed.

Lemma no_full_rows b : Forall (fun r => full r = false) b -> full_rows b = 0%nat.
Proof.
  unfold full_rows. induction 1 as [|r b Hr Hb IH]; [done|].
  rewrite filter_cons, decide_False by congruence. done.
Qed.

Lemma no_full_shifted b rows :
  Forall (fun r => full r = false) b -> Forall (fun r => full r = false) (shifted_board b rows).
Proof. intros H. apply Forall_app. split; [by apply Forall_drop|by apply Forall_replicate]. Qed.

(** The test of the top rows means what it says. *)
Lemma garbage_topped_spec b rows :
  wf_board b -> 0 < rows <= BOARD_HEIGHT ->
  garbage_topped b rows = false <-> filled (take (Z.to_nat rows) b) = 0%nat.
Proof.
  intros Hw Hr. unfold garbage_topped, filled. rewrite existsb_false, sum_list_zero, Forall_range.
  setoid_rewrite existsb_false. setoid_rewrite Forall_range.
  unfold row_count. setoid_rewrite sum_list_zero.
  assert (Hcell : forall v, negb (v =? kind_code PIECE_NONE) = false <-> cell_count v = 0%nat).
  { intros v. unfold cell_count. by destruct (v =? _). }
  setoid_rewrite Hcell. split.
  - intros H. apply Forall_lookup. intros i r [Hi Hlt]%lookup_take_Some.
    apply Forall_lookup. intros j v Hv. specialize (H (Z.of_nat i) ltac:(lia) (Z.of_nat j)).
    unfold bget, row in H. rewrite !aget_nat, Hi in H. simpl in H. rewrite Hv in H. apply H.
    destruct Hw as [_ Hf]. apply lookup_lt_Some in Hv.
    rewrite (Forall_lookup_1 _ _ _ _ Hf Hi) in Hv. lia.
  - intros H y Hy x Hx.
    assert (Hrow : Forall (fun v => cell_count v = 0%nat) (row b y)).
    { apply (Forall_lookup_1 _ _ (Z.to_nat y) _ H). rewrite lookup_take_lt by lia. apply row_lookup; [done|lia]. }
    apply (Forall_lookup_1 _ _ (Z.to_nat x) _ Hrow).
    apply aget_Some. rewrite length_row by (done || lia). lia.
Qed.

(** When nothing is pushed off the top, garbage adds nine cells a row. *)
Lemma filled_shifted b rows :
  wf_board b -> 0 < rows <= BOARD_HEIGHT -> garbage_topped b rows = false ->
  filled (shifted_board b rows) = (filled b + 9 * Z.to_nat rows)%nat.
Proof.
  intros Hw Hr Ht%garbage_topped_spec; [|done..]. unfold shifted_board.
  rewrite filled_app, filled_replicate. change (row_count garbage_row) with 9%nat.
  rewrite <- (take_drop (Z.to_nat rows) b) at 2. rewrite filled_app. lia.
Qed.
