(* ===== verification/Action.v ===== *)
(** * Action: moving, dropping, holding and spawning; the engine facade

    Models tetriSH/src/libtetrisbrain/action.c and tetrisbrain.c.  A function
    that mutates [*g] takes the state and returns it; a function that also
    returns a value returns the pair. *)

From stdpp Require Import options.
From S2P Require Import Prelude Piece Board.

(** ** action.c: pure transforms *)

(** C's [%] truncates, hence [Z.rem]. *)
Definition action_rotate (p : Piece) (step : Z) : Piece :=
  mkPiece (kind p) (Z.rem (Z.rem (rot p + step) PIECE_ROTS + PIECE_ROTS) PIECE_ROTS)
    (px p) (py p).

Definition action_move (p : Piece) (dx dy : Z) : Piece :=
  mkPiece (kind p) (rot p) (px p + dx) (py p + dy).

(** ** action.c: check and commit *)

Definition action_try_move (g : GameState) (dx dy : Z) : bool * GameState :=
  let cand := action_move (active g) dx dy in
  if board_collides g cand then (false, g) else (true, set_active cand g).

(** The wall-kick loop from offset [i], [n] offsets left to try: right first,
    then left. *)
Fixpoint kick_loop (g : GameState) (dir : Z) (i : Z) (n : nat) : option Piece :=
  match n with
  | O => None
  | S n =>
      let cand := action_move (action_rotate (active g) dir) i 0 in
      if negb (board_collides g cand) then Some cand
      else
        let cand := action_move (action_rotate (active g) dir) (- i) 0 in
        if negb (board_collides g cand) then Some cand
        else kick_loop g dir (i + 1) n
  end.

Definition action_try_rotate (g : GameState) (dir : Z) : bool * GameState :=
  let cand := action_rotate (active g) dir in
  let n := piece_size cand in
  let found :=
    if negb (board_collides g cand) then Some cand
    else kick_loop g dir 1 (Z.to_nat n) in
  match found with
  | Some cand => (true, set_active cand g)
  | None => (false, g)
  end.

Definition action_lmove (g : GameState) := action_try_move g (-1) 0.
Definition action_rmove (g : GameState) := action_try_move g 1 0.
Definition action_rrot (g : GameState) := action_try_rotate g 1.
Definition action_lrot (g : GameState) := action_try_rotate g (-1).

Definition garbage_earn (g : GameState) (n : Z) : GameState :=
  if 2 <=? n then set_garbage_out (garbage_out g + (n - 1)) g else g.

(** The queue's length: [sizeof g->next / sizeof g->next[0]]. *)
Definition NEXT_LEN : Z := 5.

Definition shift_queue (nx : list PieceKind) : list PieceKind :=
  foldl (fun nx i => aset nx i (aget PIECE_NONE nx (i + 1))) nx (range (NEXT_LEN - 1)).

Definition spawn_next (g : GameState) : bool * GameState :=
  let k := aget PIECE_NONE (next g) 0 in
  let nx := shift_queue (next g) in
  let nx := aset nx (NEXT_LEN - 1) (rng_piece (seed g) (piece_generated_counter g)) in
  let g := set_next nx g in
  let g := set_piece_generated_counter (u32 (piece_generated_counter g + 1)) g in
  board_spawn_piece g k.

Definition post_lock (g : GameState) : GameState :=
  let '(n, g) := board_clear_lines g in
  let g := scoring_add g n in
  let g := garbage_earn g n in
  let g := set_hold_used false g in
  let '(ok, g) := spawn_next g in
  if negb ok then set_game_over true g else g.

Definition action_softdrop (g : GameState) : bool * GameState :=
  let '(result, g) := action_try_move g 0 1 in
  let g := if negb result then post_lock (board_lock g (active g)) else g in
  (result, set_tick_count 0 g).

(** [while (action_softdrop(g)) dropped++;] with [fuel] iterations at most. *)
Fixpoint harddrop_loop (fuel : nat) (g : GameState) (dropped : Z) : option (Z * GameState) :=
  match fuel with
  | O => None
  | S fuel =>
      match action_softdrop g with
      | (true, g) => harddrop_loop fuel g (dropped + 1)
      | (false, g) => Some (dropped, g)
      end
  end.

(** Enough iterations for a piece at its height: see [drop_lands]. *)
Definition drop_fuel (g : GameState) : nat := S (Z.to_nat (BOARD_HEIGHT - py (active g))).

Definition action_harddrop (g : GameState) : option (Z * GameState) :=
  harddrop_loop (drop_fuel g) g 0.

Fixpoint ghost_loop (fuel : nat) (g : GameState) (p : Piece) : option Piece :=
  match fuel with
  | O => None
  | S fuel =>
      if negb (board_collides g (action_move p 0 1))
      then ghost_loop fuel g (action_move p 0 1)
      else Some p
  end.

Definition action_ghost (g : GameState) : option Piece :=
  let p := active g in
  if bool_decide (kind p = PIECE_NONE) then Some p
  else ghost_loop (drop_fuel g) g p.

Definition action_hold (g : GameState) : bool * GameState :=
  if hold_used g then (false, g)
  else
    let cur := kind (active g) in
    let g := set_hold_used true g in
    let g :=
      if bool_decide (hold g = PIECE_NONE) then
        let g := set_hold cur g in
        let '(ok, g) := spawn_next g in
        if negb ok then set_game_over true g else g
      else
        let held := hold g in
        let '(ok, g) := board_spawn_piece g held in
        if negb ok then set_game_over true g else set_hold cur g in
    (true, g).

(** ** tetrisbrain.c *)

Definition GRAVITY_TICKS : Z := 20.

Definition tetrisbrain_init (g : GameState) (sd : Z) : GameState :=
  let b := foldl (fill_row (fun _ => kind_code PIECE_NONE)) (board g) (range BOARD_HEIGHT) in
  let nx := foldl (fun nx k => aset nx k (rng_piece sd k)) (next g) (range NEXT_LEN) in
  let g := mkGame b (active g) nx PIECE_NONE false 0 0 0 0 GRAVITY_TICKS sd
             NEXT_LEN false 0 (standings g) (standing_count g) (my_player_id g) in
  (spawn_next g).2.

Definition tetrisbrain_tick (g : GameState) : GameState :=
  if game_over g then g
  else
    let g := set_tick_count (tick_count g + 1) g in
    if tick_trigger g <=? tick_count g then (action_softdrop g).2 else g.

(** [None] only if the hard drop does not come to rest. *)
Definition tetrisbrain_input (g : GameState) (m : Move) : option GameState :=
  if game_over g then Some g
  else
    match m with
    | MOVE_LEFT => Some (action_lmove g).2
    | MOVE_RIGHT => Some (action_rmove g).2
    | MOVE_ROT_RIGHT => Some (action_rrot g).2
    | MOVE_ROT_LEFT => Some (action_lrot g).2
    | MOVE_SOFT_DROP => Some (action_softdrop g).2
    | MOVE_HARD_DROP => snd <$> action_harddrop g
    | HOLD => Some (action_hold g).2
    | MOVE_NONE => Some g
    end.

Definition tetrisbrain_game_over (g : GameState) : bool := game_over g.

Definition tetrisbrain_ghost (g : GameState) : option Piece := action_ghost g.

(** ** Examples *)

Definition zero_game : GameState :=
  mkGame (replicate 26 (replicate 10 0)) (mkPiece PIECE_NONE 0 0 0)
    (replicate 5 PIECE_NONE) PIECE_NONE false 0 0 0 0 0 0 0 false 0 [] 0 (-1).

Example init_seed_42 :
  let g := tetrisbrain_init zero_game 42 in
  (kind (active g), next g, piece_generated_counter g, game_over g) =
  (rng_piece 42 0, rng_piece 42 <$> [1; 2; 3; 4; 5], 6, false).
Proof. vm_compute. reflexivity. Qed.

Example harddrop_seed_42 :
  fst <$> action_harddrop (tetrisbrain_init zero_game 42) = Some 21.
Proof. vm_compute. reflexivity. Qed.
