(* ===== verification/Brain.v ===== *)
(** * Brain: the engine's invariant and its theorems

    The properties of the rules engine as a whole: the invariant every call
    keeps, the drop and its preview, the lock cycle's accounting, hold, garbage
    and the shared piece stream. *)

From stdpp Require Import options.
From S2P Require Import Prelude Piece Board Action.

(** ** The invariant *)

(** A cell holds nothing, a tetromino's colour or garbage. *)
Definition cell_ok (x : Z) : Prop := x ∈ [0; 1; 2; 3; 4; 5; 6; 7; 9].

#[global] Instance cell_ok_dec x : Decision (cell_ok x) :=
  list_elem_of_dec x _.

(** The queue is a window on the stream the seed determines. *)
Definition queue_at (sd c : Z) : list PieceKind :=
  (fun i => rng_piece sd (u32 (c - NEXT_LEN + i))) <$> range NEXT_LEN.

Record game_ok (g : GameState) : Prop := {
  ok_board : wf_board (board g);
  ok_cells : Forall (Forall cell_ok) (board g);
  ok_open : Forall (fun r => full r = false) (board g);
  ok_kind : spawnable (kind (active g)) = true;
  ok_rot : 0 <= rot (active g) < PIECE_ROTS;
  ok_fits : game_over g = false -> board_collides g (active g) = false;
  ok_hold : hold g = PIECE_NONE \/ spawnable (hold g) = true;
  ok_next : next g = queue_at (seed g) (piece_generated_counter g);
  ok_counter : 0 <= piece_generated_counter g <= UINT32_MAX;
  ok_score : 0 <= score g;
  ok_lines : 0 <= lines g;
  ok_garbage : 0 <= garbage_out g
}.

#[export] Hint Resolve ok_board ok_cells ok_open ok_kind ok_rot ok_hold ok_next
  ok_counter ok_score ok_lines ok_garbage : corestack.

(** What a spawn relies on and restores. *)
Definition pre_spawn (g : GameState) : Prop :=
  wf_board (board g) /\ Forall (Forall cell_ok) (board g) /\
  Forall (fun r => full r = false) (board g) /\
  next g = queue_at (seed g) (piece_generated_counter g) /\
  0 <= piece_generated_counter g <= UINT32_MAX /\
  0 <= score g /\ 0 <= lines g /\ 0 <= garbage_out g /\
  (hold g = PIECE_NONE \/ spawnable (hold g) = true).

Lemma game_ok_pre_spawn g : game_ok g -> pre_spawn g.
Proof. intros []. unfold pre_spawn. tauto. Qed.

Lemma spawnable_not_none k : spawnable k = true -> k <> PIECE_NONE.
Proof. by intros H ->. Qed.

Lemma queue_at_head sd c : aget PIECE_NONE (queue_at sd c) 0 = rng_piece sd (u32 (c - NEXT_LEN)).
Proof. unfold queue_at. simpl. by rewrite Z.add_0_r. Qed.

(** Advancing the queue slides the window by one. *)
Lemma queue_at_advance sd c :
  0 <= c <= UINT32_MAX ->
  aset (shift_queue (queue_at sd c)) (NEXT_LEN - 1) (rng_piece sd c) = queue_at sd (u32 (c + 1)).
Proof.
  intros Hc. unfold queue_at, NEXT_LEN. change (range 5) with [0; 1; 2; 3; 4].
  unfold shift_queue, aset, aget. simpl.
  assert (Hw : forall k, u32 (u32 (c + 1) - 5 + k) = u32 (c - 5 + (k + 1))).
  { intros k. replace (u32 (c + 1) - 5 + k) with (u32 (c + 1) + (k - 5)) by lia.
    rewrite u32_succ. f_equal. lia. }
  rewrite !Hw. replace (c - 5 + (4 + 1)) with c by lia. by rewrite (u32_small c).
Qed.

(** ** Spawning *)

Lemma board_spawn_ok g k :
  pre_spawn g -> spawnable k = true -> game_over g = false ->
  forall ok g', board_spawn_piece g k = (ok, g') ->
  (ok = true /\ game_ok g' /\ game_over g' = false) \/ (ok = false /\ g' = g).
Proof.
  intros (Hb & Hc & Ho & Hn & Hctr & Hs & Hl & Hg & Hh) Hk Hgo ok g' Heq.
  unfold board_spawn_piece in Heq. case_match eqn:Hcol; simplify_eq; [by right|left].
  split; [done|]. split; [|done].
  by split.
Qed.

Lemma spawn_next_ok g :
  pre_spawn g -> game_over g = false ->
  forall ok g', spawn_next g = (ok, g') ->
  (ok = true /\ game_ok g' /\ game_over g' = false) \/
  (ok = false /\ pre_spawn g' /\ active g' = active g /\ game_over g' = false).
Proof.
  intros Hpre Hgo ok g' Heq. pose proof Hpre as (Hb & Hc & Ho & Hn & Hctr & Hs & Hl & Hg & Hh).
  unfold spawn_next in Heq. rewrite Hn, queue_at_advance in Heq by done.
  match type of Heq with board_spawn_piece ?g1 _ = _ => set (g1' := g1) in * end.
  assert (Hpre1 : pre_spawn g1').
  { pose proof (u32_range (piece_generated_counter g + 1)). unfold pre_spawn. simpl. tauto. }
  rewrite queue_at_head in Heq.
  destruct (board_spawn_ok g1' _ Hpre1 (rng_piece_spawnable _ _) Hgo _ _ Heq)
    as [(-> & ? & ?)|(-> & ->)]; [by left|by right].
Qed.

(** Spawning touches neither the stack nor the tallies. *)
Lemma spawn_next_fields g ok g' :
  spawn_next g = (ok, g') ->
  board g' = board g /\ score g' = score g /\ lines g' = lines g /\
  garbage_out g' = garbage_out g /\ hold g' = hold g /\ seed g' = seed g /\
  piece_generated_counter g' = u32 (piece_generated_counter g + 1).
Proof. unfold spawn_next, board_spawn_piece. case_match; intros; by simplify_eq. Qed.

(** ** Moves and rotations *)

(** Changing only the falling piece, to one that fits, keeps the invariant. *)
Lemma set_active_ok g p :
  game_ok g -> spawnable (kind p) = true -> 0 <= rot p < PIECE_ROTS ->
  board_collides g p = false -> game_ok (set_active p g).
Proof. intros [] ???. by split. Qed.

Lemma try_move_ok g dx dy : game_ok g -> game_ok (action_try_move g dx dy).2.
Proof.
  intros Hg. unfold action_try_move. case_match eqn:Hc; [done|].
  apply set_active_ok; simpl; auto with corestack.
Qed.

Lemma action_rotate_rot p d : 0 <= rot (action_rotate p d) < PIECE_ROTS.
Proof.
  simpl. unfold PIECE_ROTS. pose proof (Z.rem_bound_abs (rot p + d) 4 ltac:(lia)).
  apply Z.rem_bound_pos; lia.
Qed.

Lemma kick_loop_Some g d i n p :
  0 <= i -> kick_loop g d i n = Some p ->
  board_collides g p = false /\ kind p = kind (active g) /\
  rot p = rot (action_rotate (active g) d) /\ py p = py (active g) /\
  Z.abs (px p - px (active g)) < i + Z.of_nat n.
Proof.
  revert i. induction n as [|n IH]; intros i Hi Heq; simpl in Heq; [done|].
  destruct (negb _) eqn:H1 in Heq.
  { simplify_eq. bool_arith. simpl. repeat split; try done; try lia. }
  destruct (negb _) eqn:H2 in Heq.
  { simplify_eq. bool_arith. simpl. repeat split; try done; try lia. }
  apply IH in Heq as (? & ? & ? & ? & ?); [|lia]. repeat split; try done. lia.
Qed.

Lemma try_rotate_found g d p :
  (if negb (board_collides g (action_rotate (active g) d))
   then Some (action_rotate (active g) d)
   else kick_loop g d 1 (Z.to_nat (piece_size (action_rotate (active g) d)))) = Some p ->
  board_collides g p = false /\ kind p = kind (active g) /\
  rot p = rot (action_rotate (active g) d) /\ py p = py (active g) /\
  Z.abs (px p - px (active g)) <= piece_size (active g).
Proof.
  pose proof (piece_size_bounds (active g)).
  rewrite (piece_size_kind _ (active g)) by done. case_match eqn:Hc; intros Heq.
  - simplify_eq. bool_arith. simpl. repeat split; try done. lia.
  - apply kick_loop_Some in Heq as (? & ? & ? & ? & ?); [|done]. repeat split; try done. lia.
Qed.

Lemma try_rotate_ok g d : game_ok g -> game_ok (action_try_rotate g d).2.
Proof.
  intros Hg. unfold action_try_rotate. case_match eqn:Hf; [|done].
  apply try_rotate_found in Hf as (? & Hk & Hr & _).
  apply set_active_ok; [done| | |done].
  - rewrite Hk. by apply ok_kind.
  - rewrite Hr. apply action_rotate_rot.
Qed.

(** ** The lock cycle *)

Lemma cell_ok_code k : spawnable k = true -> cell_ok (kind_code k).
Proof. unfold cell_ok. rewrite !elem_of_cons. destruct k; naive_solver. Qed.

(** After a lock: a well-formed board with at most as many full rows as the
    piece is tall, and its four cells added. *)
Lemma lock_ok g :
  game_ok g -> game_over g = false ->
  let b := board (board_lock g (active g)) in
  wf_board b /\ Forall (Forall cell_ok) b /\
  Z.of_nat (full_rows b) <= piece_size (active g) /\ filled b = (filled (board g) + 4)%nat.
Proof.
  intros Hg Hgo. set (p := active g).
  destruct (board_lock_spec g p) as (Hw & Hfill & Hset & Hkeep);
    [auto with corestack|apply spawnable_not_none; by apply ok_kind|by apply ok_fits|].
  split; [done|]. split; [|split].
  - apply Forall_board; [done|]. intros y x Hin.
    destruct (piece_filled p (y - py p) (x - px p)) eqn:Hf.
    + specialize (Hset _ _ Hf). replace (py p + (y - py p)) with y in Hset by lia.
      replace (px p + (x - px p)) with x in Hset by lia. rewrite Hset.
      by apply cell_ok_code, ok_kind.
    + rewrite Hkeep by done. revert y x Hin Hf. intros y x Hin _.
      apply Forall_board; auto with corestack.
  - pose proof (no_full_rows _ (ok_open g Hg)) as H0.
    pose proof (piece_size_bounds p).
    pose proof (full_rows_window (board g) (board (board_lock g p)) (py p) (piece_size p)) as Hwin.
    rewrite H0 in Hwin. apply Hwin; [|lia|].
    { destruct Hw as [-> _]. by destruct (ok_board g Hg) as [-> _]. }
    intros i. destruct (decide (py p <= Z.of_nat i < py p + piece_size p)) as [?|Hout]; [by left|right].
    destruct (decide (Z.of_nat i < BOARD_HEIGHT)) as [Hi|Hi].
    + rewrite <- (Nat2Z.id i). rewrite !row_lookup by (lia || auto with corestack). f_equal.
      symmetry. apply list_eq_same_length with (Z.to_nat BOARD_WIDTH);
        [apply length_row; [auto with corestack|lia]|apply length_row; [done|lia]|].
      intros j v v' Hj Hv Hv'.
      specialize (Hkeep (Z.of_nat i) (Z.of_nat j)). unfold bget in Hkeep.
      rewrite !aget_nat, Hv, Hv' in Hkeep. apply Hkeep.
      destruct (piece_filled p _ _) eqn:Hf; [|done]. apply piece_filled_box in Hf. lia.
    + destruct Hw as [Hl _]. destruct (ok_board g Hg) as [Hl' _].
      rewrite !lookup_ge_None_2 by lia. done.
  - rewrite Hfill. f_equal. apply length_piece_cells; [by apply ok_kind|by apply ok_rot].
Qed.

(** Fields the lock cycle's bookkeeping leaves alone. *)
Lemma scoring_garbage_fields g n :
  let g' := garbage_earn (scoring_add g n) n in
  board g' = board g /\ active g' = active g /\ next g' = next g /\ hold g' = hold g /\
  seed g' = seed g /\ piece_generated_counter g' = piece_generated_counter g /\
  game_over g' = game_over g.
Proof. unfold garbage_earn, scoring_add. by repeat case_match. Qed.

(** What clearing [n] rows is worth. *)
Definition points (n : Z) : Z := aget 0 PTS (Z.min n 4).

Lemma scoring_garbage_values g n :
  0 <= n <= 4 ->
  let g' := garbage_earn (scoring_add g n) n in
  score g' = score g + points n /\ lines g' = lines g + n /\
  garbage_out g' = garbage_out g + (if 2 <=? n then n - 1 else 0).
Proof.
  intros Hn. assert (n = 0 \/ n = 1 \/ n = 2 \/ n = 3 \/ n = 4) as Hc by lia.
  destruct g. unfold garbage_earn, scoring_add, points.
  destruct Hc as [->|[->|[->|[->| ->]]]]; simpl; split_and!;
    first [lia | reflexivity | symmetry; apply Z.add_0_r].
Qed.

Lemma points_nonneg n : 0 <= n <= 4 -> 0 <= points n <= 800.
Proof.
  intros Hn. assert (n = 0 \/ n = 1 \/ n = 2 \/ n = 3 \/ n = 4) as Hc by lia.
  destruct Hc as [->|[->|[->|[->| ->]]]]; split; vm_compute; discriminate.
Qed.

(** One lock cycle, from a piece that cannot fall: how the state moves. *)
Lemma lock_cycle_spec g :
  game_ok g -> game_over g = false ->
  let b := board (board_lock g (active g)) in
  let n := Z.of_nat (full_rows b) in
  let g' := post_lock (board_lock g (active g)) in
  0 <= n <= 4 /\ game_ok g' /\ board g' = cleared_board b /\
  score g' = score g + points n /\ lines g' = lines g + n /\
  garbage_out g' = garbage_out g + (if 2 <=? n then n - 1 else 0) /\
  (filled (board g') + 10 * full_rows b = filled (board g) + 4)%nat.
Proof.
  intros Hg Hgo b n g'. destruct (lock_ok g Hg Hgo) as (Hw & Hc & Hrows & Hfill).
  pose proof (piece_size_bounds (active g)). assert (Hn : 0 <= n <= 4) by (unfold n, b; lia).
  split; [done|]. unfold g', post_lock.
  rewrite board_clear_lines_spec by done. fold b n.
  set (g1 := set_board (cleared_board b) (board_lock g (active g))).
  destruct (scoring_garbage_fields g1 n) as (Fb & Fa & Fn & Fh & Fs & Fc & Fg).
  destruct (scoring_garbage_values g1 n Hn) as (Vs & Vl & Vg).
  set (g2 := garbage_earn (scoring_add g1 n) n) in *. clearbody g2.
  pose proof (points_nonneg n Hn).
  pose proof (ok_score g Hg). pose proof (ok_lines g Hg). pose proof (ok_garbage g Hg).
  assert (Hpre : pre_spawn (set_hold_used false g2)).
  { unfold pre_spawn. simpl. rewrite Fb, Fn, Fh, Fs, Fc, Vs, Vl, Vg. simpl.
    split_and!; auto with corestack; try (apply Hg); try lia.
    - by apply wf_cleared_board.
    - apply Forall_app. split.
      + apply Forall_replicate. unfold empty_row. apply Forall_replicate.
        unfold cell_ok. rewrite elem_of_cons. by left.
      + apply list.Forall_forall. intros r [_ Hr]%list_elem_of_filter.
        by apply (proj1 (list.Forall_forall _ _) Hc).
    - apply no_full_cleared.
    - destruct (2 <=? n) eqn:E; bool_arith; lia. }
  assert (Hfilled : (filled (cleared_board b) + 10 * full_rows b = filled (board g) + 4)%nat).
  { unfold b. rewrite <- (filled_cleared _ Hw), Hfill. done. }
  destruct (spawn_next (set_hold_used false g2)) as [ok g3] eqn:Esp.
  destruct (spawn_next_fields _ _ _ Esp) as (Pb & Ps & Pl & Pg & _). simpl in Pb, Ps, Pl, Pg.
  rewrite Fb in Pb. rewrite Vs in Ps. rewrite Vl in Pl. rewrite Vg in Pg. simpl in Pb, Ps, Pl, Pg.
  assert (Hgo2 : game_over (set_hold_used false g2) = false) by (simpl; by rewrite Fg).
  destruct (spawn_next_ok _ Hpre Hgo2 _ _ Esp) as [(-> & Hok & _)|(-> & Hp3 & Ha & _)]; simpl.
  - rewrite Pb. by split_and!.
  - rewrite Pb. split_and!; try done.
    destruct Hp3 as (?&?&?&?&?&?&?&?&?). split; simpl; try done; rewrite Ha; simpl; rewrite Fa; apply Hg.
Qed.

(** ** Dropping *)

(** A piece that fits has its box origin above the floor. *)
Lemma fits_above_floor g p :
  spawnable (kind p) = true -> 0 <= rot p < PIECE_ROTS -> board_collides g p = false ->
  py p < BOARD_HEIGHT.
Proof.
  intros Hk Hr Hc. destruct (piece_nonempty p Hk Hr) as (r & c & Hf).
  pose proof (piece_filled_box _ _ _ Hf).
  destruct (proj1 (board_collides_false g p) Hc r c Hf) as [[? _] _]. lia.
Qed.

(** The gravity counter does not influence a drop. *)
Lemma clear_lines_tick t g :
  board_clear_lines (set_tick_count t g) =
  ((board_clear_lines g).1, set_tick_count t (board_clear_lines g).2).
Proof.
  unfold board_clear_lines. change (board (set_tick_count t g)) with (board g).
  by destruct (clear_scan _ _ _ _) as [[]].
Qed.

Lemma post_lock_tick t g :
  set_tick_count 0 (post_lock (set_tick_count t g)) = set_tick_count 0 (post_lock g).
Proof.
  unfold post_lock. rewrite clear_lines_tick. destruct (board_clear_lines g) as [n []].
  unfold scoring_add, garbage_earn, spawn_next, board_spawn_piece, board_collides. simpl.
  destruct (n <=? 0), (2 <=? n); simpl; destruct (existsb _ _); reflexivity.
Qed.

Lemma softdrop_tick t g : action_softdrop (set_tick_count t g) = action_softdrop g.
Proof.
  unfold action_softdrop, action_try_move.
  rewrite (board_collides_board (set_tick_count t g) g) by done.
  change (active (set_tick_count t g)) with (active g).
  destruct (board_collides _ _); [|done]. simpl. f_equal.
  apply (post_lock_tick t (board_lock g (active g))).
Qed.

(** The falling piece [k] rows lower. *)
Definition fallen (k : Z) (g : GameState) : GameState :=
  set_active (action_move (active g) 0 k) g.

Lemma fallen_0 g : fallen 0 g = g.
Proof. destruct g as [? []]. unfold fallen, action_move, set_active. simpl. by rewrite !Z.add_0_r. Qed.

Lemma ghost_loop_board fuel g g' p : board g = board g' -> ghost_loop fuel g p = ghost_loop fuel g' p.
Proof.
  intros Hb. revert p. induction fuel as [|fuel IH]; intros p; [done|]. simpl.
  rewrite (board_collides_board g g') by done. by rewrite IH.
Qed.

(** With enough fuel a drop comes to rest, at the first height below which the
    piece no longer fits, and the preview stops at the same height. *)
Lemma drop_lands fuel g d :
  game_ok g -> game_over g = false -> BOARD_HEIGHT - py (active g) < Z.of_nat fuel ->
  exists k, 0 <= k /\
    ghost_loop fuel g (active g) = Some (action_move (active g) 0 k) /\
    harddrop_loop fuel g d = Some (d + k, (action_softdrop (fallen k g)).2) /\
    (action_softdrop (fallen k g)).1 = false /\
    (forall j, 0 <= j <= k -> board_collides g (action_move (active g) 0 j) = false) /\
    board_collides g (action_move (active g) 0 (k + 1)) = true.
Proof.
  revert g d. induction fuel as [|fuel IH]; intros g d Hg Hgo Hfuel.
  { pose proof (fits_above_floor g (active g) (ok_kind g Hg) (ok_rot g Hg) (ok_fits g Hg Hgo)). lia. }
  pose proof (ok_fits g Hg Hgo) as Hfit.
  assert (Hm0 : action_move (active g) 0 0 = active g).
  { destruct (active g). unfold action_move. simpl. by rewrite !Z.add_0_r. }
  assert (Hmm : forall k p, action_move (action_move p 0 1) 0 k = action_move p 0 (k + 1)).
  { intros. unfold action_move. simpl. f_equal; lia. }
  simpl ghost_loop. simpl harddrop_loop.
  destruct (board_collides g (action_move (active g) 0 1)) eqn:Hc; simpl.
  - exists 0. rewrite fallen_0, Hm0.
    destruct (action_softdrop g) as [ok g'] eqn:Esd.
    assert (ok = false) as ->.
    { unfold action_softdrop, action_try_move in Esd. rewrite Hc in Esd. by simplify_eq/=. }
    rewrite Z.add_0_r. split_and!; try done.
    intros j Hj. assert (j = 0) as -> by lia. by rewrite Hm0.
  - set (g1 := set_tick_count 0 (fallen 1 g)).
    assert (Esd : action_softdrop g = (true, g1)).
    { unfold action_softdrop, action_try_move. by rewrite Hc. }
    assert (Hg1 : game_ok g1).
    { pose proof (set_active_ok g (action_move (active g) 0 1) Hg (ok_kind g Hg) (ok_rot g Hg) Hc) as [].
      by split. }
    rewrite Esd.
    destruct (IH g1 (d + 1)) as (k & Hk & Hgh & Hhd & Hsd & Hfree & Hland); [done|done|simpl; lia|].
    assert (Hfg : fallen k g1 = set_tick_count 0 (fallen (k + 1) g)).
    { unfold fallen, g1, fallen. simpl. by rewrite Hmm. }
    rewrite Hfg, softdrop_tick in Hhd, Hsd.
    rewrite (ghost_loop_board fuel g1 g) in Hgh by done.
    change (active g1) with (action_move (active g) 0 1) in *. rewrite Hmm in Hgh, Hland.
    exists (k + 1). split; [lia|]. split_and!; try done.
    + rewrite Hhd. f_equal. f_equal. lia.
    + intros j Hj. destruct (decide (j = 0)) as [->|Hne]; [by rewrite Hm0|].
      specialize (Hfree (j - 1) ltac:(lia)). rewrite Hmm in Hfree.
      by replace (j - 1 + 1) with j in Hfree by lia.
Qed.

Lemma set_tick_ok t g : game_ok g -> game_ok (set_tick_count t g).
Proof. intros []. by split. Qed.

Lemma softdrop_ok g : game_ok g -> game_over g = false -> game_ok (action_softdrop g).2.
Proof.
  intros Hg Hgo. unfold action_softdrop.
  pose proof (try_move_ok g 0 1 Hg) as Hmv.
  unfold action_try_move in *. destruct (board_collides _ _); simpl in *; apply set_tick_ok.
  - by apply lock_cycle_spec.
  - done.
Qed.

Lemma harddrop_ok g :
  game_ok g -> game_over g = false ->
  exists d g', action_harddrop g = Some (d, g') /\ game_ok g'.
Proof.
  intros Hg Hgo. pose proof (fits_above_floor g _ (ok_kind g Hg) (ok_rot g Hg) (ok_fits g Hg Hgo)).
  destruct (drop_lands (drop_fuel g) g 0) as (k & Hk & _ & Hhd & _ & Hfree & _);
    [done|done|unfold drop_fuel; lia|].
  exists (0 + k), (action_softdrop (fallen k g)).2. split; [done|].
  apply softdrop_ok; [|done].
  apply set_active_ok; [done|by apply ok_kind|by apply ok_rot|apply Hfree; lia].
Qed.

Lemma hold_ok g : game_ok g -> game_over g = false -> game_ok (action_hold g).2.
Proof.
  intros Hg Hgo. unfold action_hold. destruct (hold_used g); [done|].
  pose proof (game_ok_pre_spawn g Hg) as Hpre.
  pose proof (ok_kind g Hg) as Hk. pose proof (ok_rot g Hg) as Hr.
  case_bool_decide as Hh; simpl in Hh.
  - set (g1 := set_hold _ _).
    assert (Hp1 : pre_spawn g1) by (unfold pre_spawn in *; simpl; tauto).
    destruct (spawn_next g1) as [ok g2] eqn:E.
    destruct (spawn_next_ok g1 Hp1 Hgo _ _ E) as [(-> & ? & _)|(-> & Hp2 & Ha & _)]; [done|].
    destruct Hp2 as (?&?&?&?&?&?&?&?&?). simpl. split; simpl; try done; by rewrite Ha.
  - destruct (ok_hold g Hg) as [|Hhs]; [done|]. set (g1 := set_hold_used true g).
    assert (Hp1 : pre_spawn g1) by (unfold pre_spawn in *; simpl; tauto).
    destruct (board_spawn_piece g1 (hold g1)) as [ok g2] eqn:E.
    destruct (board_spawn_ok g1 _ Hp1 Hhs Hgo _ _ E) as [(-> & [] & Hgo2)|(-> & ->)]; simpl.
    + split; simpl; try done. by right.
    + destruct Hg. by split.
Qed.

(** ** Garbage *)

(** What receiving [rows] rows does, for any count the clamp leaves. *)
Lemma add_garbage_unfold g rows :
  wf_board (board g) -> 0 < rows ->
  let n := Z.min rows BOARD_HEIGHT in
  let g1 := set_board (shifted_board (board g) n) g in
  exists ok k, 0 <= k /\
    board_add_garbage g rows =
      Some (ok && negb (garbage_topped (board g) n), set_active (raise_piece k (active g)) g1) /\
    (forall j, 0 <= j < k -> board_collides g1 (raise_piece j (active g)) = true) /\
    (ok = true -> kind (active g) = PIECE_NONE \/ board_collides g1 (raise_piece k (active g)) = false) /\
    (ok = false -> py (active g) - k <= - piece_size (active g)).
Proof.
  intros Hw Hr n g1. unfold board_add_garbage.
  rewrite (proj2 (Z.leb_gt _ _)) by lia.
  assert ((if BOARD_HEIGHT <? rows then BOARD_HEIGHT else rows) = n) as ->.
  { unfold n. destruct (Z.ltb_spec BOARD_HEIGHT rows); lia. }
  assert (0 < n <= BOARD_HEIGHT) by (unfold n, BOARD_HEIGHT, BOARD_MAIN_HEIGHT, BOARD_BUFFER_HEIGHT in *; lia).
  rewrite garbage_shift_spec by done. fold g1.
  pose proof (piece_size_bounds (active g)).
  destruct (lift_active_spec (lift_fuel g1) g1) as (ok & k & Hk & -> & Hcol & Hok & Hbad);
    [unfold lift_fuel; lia|unfold lift_fuel; lia|].
  exists ok, k. split; [done|]. split; [by destruct ok|done].
Qed.

Lemma garbage_ok g rows ok g' :
  game_ok g -> board_add_garbage g rows = Some (ok, g') ->
  game_ok (if ok then g' else set_game_over true g').
Proof.
  intros Hg Heq. destruct (decide (0 < rows)) as [Hr|Hr].
  2: { unfold board_add_garbage in Heq. rewrite (proj2 (Z.leb_le _ _)) in Heq by lia. by simplify_eq. }
  destruct (add_garbage_unfold g rows (ok_board g Hg) Hr) as (ok1 & k & Hk & Heq' & _ & Hfit & _).
  rewrite Heq' in Heq. simplify_eq. clear Heq'.
  set (n := Z.min rows BOARD_HEIGHT) in *.
  assert (0 < n <= BOARD_HEIGHT) by (unfold n, BOARD_HEIGHT, BOARD_MAIN_HEIGHT, BOARD_BUFFER_HEIGHT in *; lia).
  assert (Hcells : Forall (Forall cell_ok) (shifted_board (board g) n)).
  { apply Forall_app. split; [apply Forall_drop; auto with corestack|].
    apply Forall_replicate. repeat constructor; unfold cell_ok; rewrite !elem_of_cons; cbn; tauto. }
  pose proof (wf_shifted_board _ _ (ok_board g Hg) H) as Hw.
  pose proof (no_full_shifted (board g) n (ok_open g Hg)) as Hopen.
  destruct Hg. destruct (ok1 && _) eqn:Hb; split; simpl; try done.
  intros _. apply andb_true_iff in Hb as [Hb _]. destruct (Hfit Hb) as [Hnone|?]; [|done].
  by rewrite Hnone in ok_kind0.
Qed.
