(* ===== verification/Engine.v ===== *)
(** * Engine: a running game as a transition system, and what holds of it

    A session process drives one game: it starts it with the room's seed, ticks
    it, feeds it the player's moves, applies the garbage other players send and
    carries off the garbage it has earned (tetriSH/src/tetrisd/session.c).  This
    file puts those calls together as a step relation over the game state and
    proves the engine's contract along every interleaving of them. *)

From stdpp Require Import options.
From S2P Require Import Prelude Piece Board Action Brain.

(** ** The transition system *)

(** [case ADMIN_RECV_GARBAGE] of session_handle_admin: only a live board takes
    the hit, and a board that cannot take it tops out. *)
Definition recv_garbage (g : GameState) (rows : Z) : option GameState :=
  if negb (game_over g) then
    '(ok, g) ← board_add_garbage g rows;
    Some (if negb ok then set_game_over true g else g)
  else Some g.

(** [case ADMIN_STANDINGS]: the count is clamped and that many entries copied. *)
Definition recv_standings (g : GameState) (st : list PlayerStanding) (count : Z) : GameState :=
  let n := if count <? 0 then 0 else count in
  let n := if 8 <? n then 8 else n in
  set_standing_count n
    (set_standings (take (Z.to_nat n) st ++ drop (Z.to_nat n) (standings g)) g).

(** [session_flush_garbage], [taken] being whether the admin accepted it. *)
Definition flush_garbage (g : GameState) (taken : bool) : GameState :=
  if garbage_out g <=? 0 then g else if taken then set_garbage_out 0 g else g.

Inductive play_step : GameState -> GameState -> Prop :=
| play_tick g : play_step g (tetrisbrain_tick g)
| play_input g m g' : tetrisbrain_input g m = Some g' -> play_step g g'
| play_garbage g rows g' : recv_garbage g rows = Some g' -> play_step g g'
| play_flush g taken : play_step g (flush_garbage g taken)
| play_standings g st count : play_step g (recv_standings g st count).

(** A session also starts a new round on the board it has. *)
Inductive engine_step : GameState -> GameState -> Prop :=
| engine_play g g' : play_step g g' -> engine_step g g'
| engine_start g sd : engine_step g (tetrisbrain_init g sd).

#[export] Hint Constructors play_step engine_step : corestack.

(** ** Starting a round *)

(** Memory that has the shape of a game; its contents are irrelevant. *)
Definition game_memory (g : GameState) : Prop :=
  wf_board (board g) /\ length (next g) = 5%nat.

Lemma game_ok_memory g : game_ok g -> game_memory g.
Proof. intros Hg. split; [by apply ok_board|]. rewrite (ok_next g Hg). done. Qed.

Lemma init_board b :
  wf_board b ->
  foldl (fill_row (fun _ => kind_code PIECE_NONE)) b (range BOARD_HEIGHT) =
  replicate (Z.to_nat BOARD_HEIGHT) empty_row.
Proof.
  intros Hw.
  cut (wf_board (foldl (fill_row (fun _ => kind_code PIECE_NONE)) b (range BOARD_HEIGHT)) /\
    forall y, 0 <= y < BOARD_HEIGHT ->
      row (foldl (fill_row (fun _ => kind_code PIECE_NONE)) b (range BOARD_HEIGHT)) y = empty_row).
  { intros [[Hl _] Hrow]. apply list_eq_same_length with (Z.to_nat BOARD_HEIGHT);
      [by rewrite length_replicate|done|].
    intros i x y Hi Hx Hy. apply lookup_replicate in Hy as [-> _].
    specialize (Hrow (Z.of_nat i) ltac:(lia)). unfold row in Hrow. rewrite aget_nat, Hx in Hrow.
    done. }
  apply (foldl_range_ind (fun k b' => wf_board b' /\
    forall y, 0 <= y < k -> row b' y = empty_row)); [done| |].
  - split; [done|]. intros; lia.
  - intros k b' Hk [Hw' Hrow]. rewrite fill_row_spec by done. split.
    + apply wf_aset; done.
    + intros y Hy. destruct (decide (k = y)) as [->|Hne].
      * rewrite row_aset_eq by done. done.
      * rewrite row_aset_ne by done. apply Hrow. lia.
Qed.

Lemma init_queue nx sd :
  length nx = 5%nat ->
  foldl (fun nx k => aset nx k (rng_piece sd k)) nx (range NEXT_LEN) = queue_at sd NEXT_LEN.
Proof.
  intros Hl. do 6 (destruct nx as [|? nx]; try discriminate Hl).
  unfold queue_at. change (range NEXT_LEN) with [0; 1; 2; 3; 4].
  unfold NEXT_LEN. cbn -[rng_piece]. repeat f_equal.
Qed.

(** A fresh board takes any piece. *)
Lemma empty_board_fits g k :
  board g = replicate (Z.to_nat BOARD_HEIGHT) empty_row -> spawnable k = true ->
  (board_spawn_piece g k).1 = true.
Proof.
  intros Hb Hk. unfold board_spawn_piece, board_collides. rewrite Hb. by destruct k.
Qed.

Lemma init_ok g sd :
  game_memory g ->
  let g' := tetrisbrain_init g sd in
  game_ok g' /\ game_over g' = false /\ seed g' = sd /\
  board g' = replicate (Z.to_nat BOARD_HEIGHT) empty_row /\
  kind (active g') = rng_piece sd 0 /\ piece_generated_counter g' = NEXT_LEN + 1 /\
  score g' = 0 /\ lines g' = 0 /\ garbage_out g' = 0 /\
  hold g' = PIECE_NONE /\ hold_used g' = false.
Proof.
  intros [Hw Hl]. cbv zeta. unfold tetrisbrain_init.
  rewrite init_board, init_queue by done.
  match goal with |- context [spawn_next ?g0] => set (g1 := g0) end.
  assert (Hpre : pre_spawn g1).
  { unfold pre_spawn, g1. simpl board. simpl next. split_and!; try done; try (by left).
    - repeat constructor.
    - repeat (constructor; [repeat constructor|]); constructor.
    - repeat constructor. }
  assert (Hgo : game_over g1 = false) by done.
  destruct (spawn_next g1) as [ok g2] eqn:E. pose proof E as E'.
  unfold spawn_next in E'. change (next g1) with (queue_at sd NEXT_LEN) in E'.
  rewrite queue_at_head in E'.
  match type of E' with board_spawn_piece ?g0 ?k = _ =>
    pose proof (empty_board_fits g0 k eq_refl (rng_piece_spawnable _ _)) as Hfit end.
  rewrite E' in Hfit. simpl in Hfit. subst ok.
  destruct (spawn_next_fields _ _ _ E) as (Fb & Fs & Fl & Fg & Fh & Fsd & Fc).
  destruct (spawn_next_ok g1 Hpre Hgo _ _ E) as [(_ & Hok & Hgo')|(? & _)]; [|done].
  assert (kind (active g2) = rng_piece sd 0 /\ hold_used g2 = false) as [Hk Hu].
  { clear -E'. unfold board_spawn_piece in E'. case_match; [done|].
    injection E' as <-. done. }
  by split_and!.
Qed.

(** ** Every step keeps the invariant and moves the tallies by a bounded amount *)

(** How far one step can move what the room and the client see. *)
Definition step_bound (g g' : GameState) : Prop :=
  score g' <= score g + 800 /\ lines g' <= lines g + 4 /\ garbage_out g' <= garbage_out g + 3.

Lemma step_bound_same g g' :
  score g' = score g -> lines g' = lines g -> garbage_out g' = garbage_out g -> step_bound g g'.
Proof. unfold step_bound. lia. Qed.

Lemma softdrop_bound g :
  game_ok g -> game_over g = false -> step_bound g (action_softdrop g).2.
Proof.
  intros Hg Hgo. unfold action_softdrop, action_try_move.
  destruct (board_collides _ _); simpl; [|by apply step_bound_same].
  destruct (lock_cycle_spec g Hg Hgo) as (Hn & _ & _ & Hs & Hl & Hgb & _).
  pose proof (points_nonneg _ Hn). unfold step_bound. simpl. rewrite Hs, Hl, Hgb.
  destruct (2 <=? _); lia.
Qed.

(** A hard drop is the lock cycle at the landing height. *)
Lemma harddrop_lands g :
  game_ok g -> game_over g = false ->
  exists k, 0 <= k /\
    action_ghost g = Some (action_move (active g) 0 k) /\
    action_harddrop g = Some (k, (action_softdrop (fallen k g)).2) /\
    (action_softdrop (fallen k g)).1 = false /\ game_ok (fallen k g) /\
    (forall j, 0 <= j <= k -> board_collides g (action_move (active g) 0 j) = false) /\
    board_collides g (action_move (active g) 0 (k + 1)) = true.
Proof.
  intros Hg Hgo. pose proof (fits_above_floor g _ (ok_kind g Hg) (ok_rot g Hg) (ok_fits g Hg Hgo)).
  destruct (drop_lands (drop_fuel g) g 0) as (k & Hk & Hgh & Hhd & Hsd & Hfree & Hland);
    [done|done|unfold drop_fuel; lia|].
  exists k. split_and!; try done.
  - unfold action_ghost. by rewrite bool_decide_false by by apply spawnable_not_none, ok_kind.
  - apply set_active_ok; [done|by apply ok_kind|by apply ok_rot|apply Hfree; lia].
Qed.

Lemma input_ok g m :
  game_ok g -> exists g', tetrisbrain_input g m = Some g' /\ game_ok g' /\ step_bound g g'.
Proof.
  intros Hg. unfold tetrisbrain_input.
  destruct (game_over g) eqn:Hgo; [eexists; split_and!; [done..|by apply step_bound_same]|].
  destruct m; try (eexists; split; [reflexivity|]).
  - split; [done|by apply step_bound_same].
  - split; [by apply try_move_ok|]. unfold action_lmove, action_try_move.
    case_match; by apply step_bound_same.
  - split; [by apply try_move_ok|]. unfold action_rmove, action_try_move.
    case_match; by apply step_bound_same.
  - split; [by apply try_rotate_ok|]. unfold action_lrot, action_try_rotate.
    case_match; by apply step_bound_same.
  - split; [by apply try_rotate_ok|]. unfold action_rrot, action_try_rotate.
    case_match; by apply step_bound_same.
  - split; [by apply softdrop_ok|by apply softdrop_bound].
  - destruct (harddrop_lands g Hg Hgo) as (k & _ & _ & -> & _ & Hf & _). simpl.
    eexists. split; [reflexivity|]. split; [by apply softdrop_ok|].
    apply (softdrop_bound _ Hf Hgo).
  - split; [by apply hold_ok|]. apply step_bound_same; unfold action_hold, spawn_next, board_spawn_piece;
      repeat case_match; by simplify_eq/=.
Qed.

(** ** Garbage *)

(** Receiving garbage always finishes, whatever is on the board. *)
Lemma add_garbage_total g rows :
  wf_board (board g) -> exists ok g', board_add_garbage g rows = Some (ok, g').
Proof.
  intros Hw. destruct (decide (0 < rows)) as [Hr|Hr].
  - destruct (add_garbage_unfold g rows Hw Hr) as (ok & k & _ & -> & _). eauto.
  - unfold board_add_garbage. rewrite (proj2 (Z.leb_le _ _)) by lia. eauto.
Qed.

Lemma add_garbage_fields g rows ok g' :
  wf_board (board g) -> board_add_garbage g rows = Some (ok, g') ->
  score g' = score g /\ lines g' = lines g /\ garbage_out g' = garbage_out g /\
  seed g' = seed g /\ next g' = next g /\
  piece_generated_counter g' = piece_generated_counter g.
Proof.
  intros Hw. destruct (decide (0 < rows)) as [Hr|Hr].
  - destruct (add_garbage_unfold g rows Hw Hr) as (? & k & _ & -> & _). by intros ?; simplify_eq.
  - unfold board_add_garbage. rewrite (proj2 (Z.leb_le _ _)) by lia. by intros ?; simplify_eq.
Qed.

Lemma recv_garbage_ok g rows g' :
  game_ok g -> recv_garbage g rows = Some g' -> game_ok g' /\ step_bound g g'.
Proof.
  intros Hg. unfold recv_garbage. destruct (game_over g); simpl.
  { intros ?; simplify_eq. split; [done|by apply step_bound_same]. }
  destruct (board_add_garbage g rows) as [[ok g1]|] eqn:E; [|done]. simpl. intros ?; simplify_eq.
  destruct (add_garbage_fields _ _ _ _ (ok_board g Hg) E) as (? & ? & ? & _).
  pose proof (garbage_ok _ _ _ _ Hg E) as Hok. destruct ok; simpl in *.
  - split; [done|by apply step_bound_same].
  - split; [done|by apply step_bound_same].
Qed.

(** ** One step *)

Lemma tick_ok g : game_ok g -> game_ok (tetrisbrain_tick g) /\ step_bound g (tetrisbrain_tick g).
Proof.
  intros Hg. unfold tetrisbrain_tick.
  destruct (game_over g) eqn:Hgo; [split; [done|by apply step_bound_same]|].
  pose proof (set_tick_ok (tick_count g + 1) g Hg) as Hg1.
  case_match.
  - split; [by apply softdrop_ok|]. apply (softdrop_bound _ Hg1 Hgo).
  - split; [done|by apply step_bound_same].
Qed.

Lemma play_step_ok g g' : game_ok g -> play_step g g' -> game_ok g' /\ step_bound g g'.
Proof.
  intros Hg Hs. destruct Hs as [g|g m g' Hm|g rows g' Hr|g taken|g st n].
  - by apply tick_ok.
  - destruct (input_ok g m Hg) as (g2 & Heq & ? & ?). rewrite Hm in Heq. by simplify_eq.
  - by eapply recv_garbage_ok.
  - unfold flush_garbage. pose proof (ok_garbage g Hg). destruct Hg.
    repeat case_match; (split; [split; simpl; done || lia|unfold step_bound; simpl; lia]).
  - destruct Hg. unfold recv_standings. split; [by split|]. by apply step_bound_same.
Qed.

Lemma engine_step_ok g g' : game_ok g -> engine_step g g' -> game_ok g' /\ step_bound g g'.
Proof.
  intros Hg Hs. destruct Hs as [g1 g2 Hs|g1 sd]; [by apply play_step_ok|].
  destruct (init_ok g1 sd (game_ok_memory _ Hg)) as (Hok & _ & _ & _ & _ & _ & Hs & Hl & Hgb & _).
  split; [done|]. pose proof (ok_score g1 Hg). pose proof (ok_lines g1 Hg).
  pose proof (ok_garbage g1 Hg). unfold step_bound. lia.
Qed.

Lemma engine_steps_ok n g g' :
  nsteps engine_step n g g' -> game_ok g ->
  game_ok g' /\ score g' <= score g + 800 * Z.of_nat n /\
  lines g' <= lines g + 4 * Z.of_nat n /\ garbage_out g' <= garbage_out g + 3 * Z.of_nat n.
Proof.
  intros Hn Hg. revert Hg. induction Hn as [g|n g g1 g' Hs _ IH]; intros Hg; [split_and!; [done|lia..]|].
  destruct (engine_step_ok g g1 Hg Hs) as [Hg1 (? & ? & ?)].
  destruct (IH Hg1) as (? & ? & ? & ?). split_and!; [done|lia..].
Qed.

(** The piece in play of a consistent game lies in a narrow window, so its
    coordinates never come near the limits of [int]. *)
Lemma active_window g :
  game_ok g -> game_over g = false ->
  -4 < py (active g) < BOARD_HEIGHT /\ -4 < px (active g) < BOARD_WIDTH.
Proof.
  intros Hg Hgo.
  destruct (piece_nonempty _ (ok_kind g Hg) (ok_rot g Hg)) as (r & c & Hf).
  pose proof (piece_filled_box _ _ _ Hf). pose proof (piece_size_bounds (active g)).
  destruct (proj1 (board_collides_false g _) (ok_fits g Hg Hgo) r c Hf) as [[? ?] _]. lia.
Qed.

(** The landing preview is found for any tetromino, wherever it is. *)
Lemma ghost_loop_total fuel g p :
  spawnable (kind p) = true -> 0 <= rot p < PIECE_ROTS ->
  BOARD_HEIGHT - py p < Z.of_nat fuel -> (0 < fuel)%nat ->
  exists q, ghost_loop fuel g p = Some q.
Proof.
  revert p. induction fuel as [|fuel IH]; intros p Hk Hr Hf H0; [lia|]. simpl.
  destruct (board_collides g (action_move p 0 1)) eqn:Hc; simpl; [eauto|].
  pose proof (fits_above_floor g (action_move p 0 1) Hk Hr Hc). simpl in *.
  apply IH; simpl; [done..|lia|lia].
Qed.

Lemma ghost_total g : game_ok g -> exists q, tetrisbrain_ghost g = Some q.
Proof.
  intros Hg. unfold tetrisbrain_ghost, action_ghost. case_bool_decide; [eauto|].
  apply ghost_loop_total; [apply Hg..| |]; unfold drop_fuel; lia.
Qed.

(** ** What a round's events never change *)

Lemma post_lock_seed g : seed (post_lock g) = seed g.
Proof.
  unfold post_lock, board_clear_lines. destruct (clear_scan _ _ _ _) as [[b dst] n].
  unfold spawn_next, board_spawn_piece, garbage_earn, scoring_add.
  repeat (case_match; simplify_eq/=); done.
Qed.

Lemma softdrop_seed g : seed (action_softdrop g).2 = seed g.
Proof.
  unfold action_softdrop, action_try_move. destruct (board_collides _ _); [|done].
  simpl. by rewrite post_lock_seed.
Qed.

Lemma play_step_seed g g' : game_ok g -> play_step g g' -> seed g' = seed g.
Proof.
  intros Hg Hs. destruct Hs as [g|g m g' Hm|g rows g' Hr|g taken|g st n].
  - unfold tetrisbrain_tick. repeat case_match; try done. by rewrite softdrop_seed.
  - unfold tetrisbrain_input in Hm. destruct (game_over g) eqn:Hgo; [by simplify_eq|].
    destruct m; simplify_eq/=; try done.
    + unfold action_lmove, action_try_move. by case_match.
    + unfold action_rmove, action_try_move. by case_match.
    + unfold action_lrot, action_try_rotate. by case_match.
    + unfold action_rrot, action_try_rotate. by case_match.
    + by rewrite softdrop_seed.
    + destruct (harddrop_lands g Hg Hgo) as (k & _ & _ & Heq & _). rewrite Heq in Hm.
      simplify_eq/=. by rewrite softdrop_seed.
    + unfold action_hold, spawn_next, board_spawn_piece. repeat case_match; by simplify_eq/=.
  - unfold recv_garbage in Hr. destruct (game_over g); [by simplify_eq/=|]. simpl in Hr.
    destruct (board_add_garbage g rows) as [[ok g1]|] eqn:E; [|done]. simplify_eq/=.
    destruct (add_garbage_fields _ _ _ _ (ok_board g Hg) E) as (_ & _ & _ & <- & _). by destruct ok.
  - unfold flush_garbage. by repeat case_match.
  - done.
Qed.

Lemma play_steps_ok g g' : game_ok g -> rtc play_step g g' -> game_ok g' /\ seed g' = seed g.
Proof.
  intros Hg Hs. induction Hs as [g|g g1 g' Hs _ IH]; [done|].
  destruct (IH (proj1 (play_step_ok _ _ Hg Hs))) as [? ->]. split; [done|].
  by apply play_step_seed.
Qed.

(** A topped-out board: every event leaves it as it is. *)
Lemma dead_step g g' :
  game_over g = true -> play_step g g' ->
  game_over g' = true /\ board g' = board g /\ active g' = active g /\
  score g' = score g /\ lines g' = lines g.
Proof.
  intros Hgo Hs. destruct Hs as [g|g m g' Hm|g rows g' Hr|g taken|g st n].
  - unfold tetrisbrain_tick. by rewrite Hgo.
  - unfold tetrisbrain_input in Hm. rewrite Hgo in Hm. by simplify_eq.
  - unfold recv_garbage in Hr. rewrite Hgo in Hr. by simplify_eq/=.
  - unfold flush_garbage. by repeat case_match.
  - done.
Qed.

(** ** The engine's contract *)

(** C1: Whatever the session does with a game - ticks, moves, garbage from
    other players, scoreboard updates, new rounds, in any order - the game stays
    consistent: a 26 by 10 board of known cells with no full row left standing,
    a real tetromino in play that overlaps nothing while the game is live, a
    held piece that can be spawned, a queue that is the seed's piece stream, and
    non-negative tallies. *)
Theorem reachable_game_ok g0 sd g :
  game_memory g0 -> rtc engine_step (tetrisbrain_init g0 sd) g -> game_ok g.
Proof.
  intros Hm [n Hn]%rtc_nsteps. apply (engine_steps_ok n _ _ Hn). by apply init_ok.
Qed.

Lemma zero_memory : game_memory zero_game.
Proof. split; [|done]. split; [done|]. repeat constructor. Qed.

(** A short game: a hard drop, two rows of garbage, a tick. *)
Lemma reachable_game_ok_witness : exists g,
  rtc engine_step (tetrisbrain_init zero_game 42) g /\ game_ok g /\ filled (board g) = 22%nat.
Proof.
  destruct (tetrisbrain_input (tetrisbrain_init zero_game 42) MOVE_HARD_DROP) as [g1|] eqn:E1;
    [|vm_compute in E1; discriminate].
  destruct (recv_garbage g1 2) as [g2|] eqn:E2;
    [|vm_compute in E1; injection E1 as <-; vm_compute in E2; discriminate].
  assert (Hr : rtc engine_step (tetrisbrain_init zero_game 42) (tetrisbrain_tick g2)).
  { eapply rtc_l; [apply engine_play, (play_input _ _ _ E1)|].
    eapply rtc_l; [apply engine_play, (play_garbage _ _ _ E2)|].
    apply rtc_once, engine_play, play_tick. }
  exists (tetrisbrain_tick g2). split; [exact Hr|].
  split; [apply (reachable_game_ok zero_game 42 _ zero_memory Hr)|].
  vm_compute in E1. injection E1 as <-. vm_compute in E2. injection E2 as <-.
  vm_compute. reflexivity.
Defined.

(** C33: No call blocks.  In every game a session can reach, each input finishes
    (the hard drop's loop comes to rest), any amount of garbage is absorbed (the
    loop that lifts the piece finishes), and the landing preview is found. *)
Theorem engine_never_stuck g0 sd g :
  game_memory g0 -> rtc engine_step (tetrisbrain_init g0 sd) g ->
  (forall m, exists g', tetrisbrain_input g m = Some g') /\
  (forall rows, exists ok g', board_add_garbage g rows = Some (ok, g')) /\
  (exists p, tetrisbrain_ghost g = Some p).
Proof.
  intros Hm [n Hn]%rtc_nsteps.
  destruct (engine_steps_ok n _ _ Hn) as [Hg _]; [by apply init_ok|]. split_and!.
  - intros m. destruct (input_ok g m Hg) as (g' & ? & _). eauto.
  - intros rows. apply add_garbage_total. by apply ok_board.
  - by apply ghost_total.
Qed.

Lemma engine_never_stuck_witness :
  exists g', tetrisbrain_input (tetrisbrain_init zero_game 7) MOVE_HARD_DROP = Some g'.
Proof.
  apply (engine_never_stuck zero_game 7 (tetrisbrain_init zero_game 7) zero_memory).
  apply rtc_refl.
Defined.

(** The ghost is the truth.  A hard drop is exactly the lock cycle run with
    the piece where the landing preview draws it: the piece falls [k] rows
    through positions that all fit, to the first row below which it does not
    fit, and the number of rows returned is the preview's distance. *)
Theorem harddrop_is_lock_at_ghost g :
  game_ok g -> game_over g = false ->
  exists k, 0 <= k /\
    tetrisbrain_ghost g = Some (action_move (active g) 0 k) /\
    (forall j, 0 <= j <= k -> board_collides g (action_move (active g) 0 j) = false) /\
    board_collides g (action_move (active g) 0 (k + 1)) = true /\
    action_harddrop g =
      Some (k, set_tick_count 0
        (post_lock (board_lock (fallen k g) (action_move (active g) 0 k)))).
Proof.
  intros Hg Hgo. destruct (harddrop_lands g Hg Hgo) as (k & Hk & Hgh & Hhd & Hsd & _ & Hfree & Hland).
  exists k. split_and!; try done. rewrite Hhd. do 2 f_equal.
  unfold action_softdrop in *. destruct (action_try_move (fallen k g) 0 1) as [[] g1] eqn:E; [done|].
  unfold action_try_move in E. destruct (board_collides (fallen k g) _); [|discriminate].
  injection E as <-. reflexivity.
Qed.

Lemma harddrop_is_lock_at_ghost_witness :
  exists k, tetrisbrain_ghost (tetrisbrain_init zero_game 42) =
    Some (action_move (active (tetrisbrain_init zero_game 42)) 0 k) /\
    fst <$> action_harddrop (tetrisbrain_init zero_game 42) = Some k.
Proof.
  destruct (init_ok zero_game 42 zero_memory) as (Hg & Hgo & _).
  destruct (harddrop_is_lock_at_ghost _ Hg Hgo) as (k & _ & Hgh & _ & _ & Hhd).
  exists k. split; [exact Hgh|]. rewrite Hhd. reflexivity.
Defined.

(** C19: Accounting of a landing.  When the piece in play cannot fall, a soft
    drop locks its four cells and clears the [n] rows (at most four) they
    complete: the score grows by 0, 100, 300, 500 or 800, the line count by [n],
    the attack by [n - 1] rows from a double up, the board becomes the locked
    board with its full rows removed and empty rows on top, and the count of
    occupied cells balances. *)
Theorem lock_cycle_accounting g :
  game_ok g -> game_over g = false ->
  board_collides g (action_move (active g) 0 1) = true ->
  let b := board (board_lock g (active g)) in
  let n := Z.of_nat (full_rows b) in
  let '(moved, g') := action_softdrop g in
  moved = false /\ 0 <= n <= 4 /\ board g' = cleared_board b /\
  score g' = score g + points n /\ lines g' = lines g + n /\
  garbage_out g' = garbage_out g + (if 2 <=? n then n - 1 else 0) /\
  (filled (board g') + 10 * full_rows b = filled (board g) + 4)%nat.
Proof.
  intros Hg Hgo Hc b n. unfold action_softdrop, action_try_move. rewrite Hc. simpl.
  destruct (lock_cycle_spec g Hg Hgo) as (? & _ & ?). tauto.
Qed.

(** A board whose two bottom rows miss only columns 3 to 6 at the left of an
    [O] piece: the landing clears both. *)
Definition double_game : GameState :=
  mkGame (replicate 24 empty_row ++ replicate 2 [1; 1; 1; 0; 0; 1; 1; 1; 1; 1])
    (mkPiece PIECE_O 0 3 24) (queue_at 1 6) PIECE_NONE false 50 3 0 0 20 1 6 false 1 [] 0 7.

Lemma double_game_ok : game_ok double_game.
Proof.
  split; try done.
  - split; [done|]. repeat constructor.
  - refine (bool_decide_unpack _ _). vm_compute. exact I.
  - repeat constructor.
  - by left.
Qed.

Lemma lock_cycle_accounting_witness :
  let g' := (action_softdrop double_game).2 in
  score g' = 350 /\ lines g' = 5 /\ garbage_out g' = 2 /\ filled (board g') = 0%nat.
Proof.
  pose proof (lock_cycle_accounting double_game double_game_ok eq_refl eq_refl) as H.
  cbv zeta in H. destruct (action_softdrop double_game) as [ok g'] eqn:E.
  destruct H as (_ & _ & _ & Hs & Hl & Hg & Hf). simpl. rewrite Hs, Hl, Hg.
  repeat split.
  replace (full_rows (board (board_lock double_game (active double_game)))) with 2%nat in Hf
    by (vm_compute; reflexivity).
  replace (filled (board double_game)) with 16%nat in Hf by (vm_compute; reflexivity). lia.
Defined.

(** Line clearing.  The in-place two-pointer sweep returns the number of full
    rows and leaves the board that a filter would: the other rows in their order
    under as many empty rows; no full row is left, ten cells go per row, and a
    second sweep finds nothing. *)
Theorem clear_lines_is_filter g :
  wf_board (board g) ->
  let '(n, g') := board_clear_lines g in
  n = Z.of_nat (length (filter (fun r => full r = true) (board g))) /\
  board g' = replicate (Z.to_nat n) empty_row ++ filter (fun r => full r = false) (board g) /\
  (filled (board g) = filled (board g') + 10 * Z.to_nat n)%nat /\
  board_clear_lines g' = (0, g').
Proof.
  intros Hw. rewrite board_clear_lines_spec by done. simpl.
  rewrite Nat2Z.id. split; [done|].
  assert (Hcl : cleared_board (board g) =
    replicate (full_rows (board g)) empty_row ++ filter (fun r => full r = false) (board g)).
  { unfold cleared_board. f_equal. f_equal.
    pose proof (full_rows_kept (board g)). destruct Hw as [Hl _]. lia. }
  split; [done|]. split; [by rewrite (filled_cleared _ Hw)|].
  pose proof (no_full_cleared (board g)) as Hno.
  rewrite board_clear_lines_spec by (simpl; by apply wf_cleared_board). simpl.
  rewrite (no_full_rows _ Hno). simpl. f_equal. destruct g. unfold set_board. simpl in *. f_equal.
  unfold cleared_board at 1.
  assert (Hf : filter (fun r => full r = false) (cleared_board board) = cleared_board board).
  { clear -Hno. induction Hno as [|r b Hr _ IH]; [done|]. by rewrite filter_cons_True, IH. }
  rewrite Hf. destruct (wf_cleared_board _ Hw) as [-> _]. by rewrite Nat.sub_diag.
Qed.

Lemma clear_lines_is_filter_witness :
  (board_clear_lines (board_lock double_game (active double_game))).1 = 2.
Proof.
  pose proof (clear_lines_is_filter (board_lock double_game (active double_game))) as H.
  destruct (board_clear_lines _) as [n g']. destruct H as [-> _]; [|reflexivity].
  refine (bool_decide_unpack _ _). vm_compute. exact I.
Defined.

(** Garbage.  [rows] rows of garbage (26 at most) push the stack up by that
    much and leave rows with a hole in column 5 below; the piece in play is
    raised by the least amount that makes it fit the new stack.  The call
    succeeds exactly when nothing was pushed off the top and such a position was
    found, and then nine cells a row were added; otherwise the piece had been
    raised out of the board or stack was lost. *)
Theorem add_garbage_correct g rows :
  game_ok g -> 0 < rows ->
  let n := Z.min rows BOARD_HEIGHT in
  exists ok g' k, board_add_garbage g rows = Some (ok, g') /\ 0 <= k /\
    board g' = drop (Z.to_nat n) (board g) ++ replicate (Z.to_nat n) garbage_row /\
    active g' = raise_piece k (active g) /\
    (forall j, 0 <= j < k -> board_collides g' (raise_piece j (active g)) = true) /\
    (ok = true <-> filled (take (Z.to_nat n) (board g)) = 0%nat /\
                   board_collides g' (active g') = false) /\
    (ok = true -> filled (board g') = (filled (board g) + 9 * Z.to_nat n)%nat).
Proof.
  intros Hg Hr n. pose proof (ok_board g Hg) as Hw.
  assert (Hn : 0 < n <= BOARD_HEIGHT)
    by (unfold n, BOARD_HEIGHT, BOARD_MAIN_HEIGHT, BOARD_BUFFER_HEIGHT in *; lia).
  destruct (add_garbage_unfold g rows Hw Hr) as (ok & k & Hk & Heq & Hcol & Hfit & Hbad).
  fold n in Heq, Hcol, Hfit. eexists _, _, k. split; [exact Heq|]. split; [done|].
  pose proof (garbage_topped_spec (board g) n Hw Hn) as Htop.
  assert (Hok : ok = true <->
    board_collides (set_board (shifted_board (board g) n) g) (raise_piece k (active g)) = false).
  { split.
    - intros Hok. destruct (Hfit Hok) as [Hnone|]; [|done].
      destruct (spawnable_not_none _ (ok_kind g Hg) Hnone).
    - intros Hnc. destruct ok; [done|]. specialize (Hbad eq_refl).
      rewrite off_top_collides in Hnc; [done| |].
      + apply piece_nonempty; [apply (ok_kind g Hg)|apply (ok_rot g Hg)].
      + rewrite (piece_size_kind _ (active g)) by done. done. }
  simpl. split_and!; try done.
  - rewrite andb_true_iff, negb_true_iff, Htop, Hok. tauto.
  - rewrite andb_true_iff, negb_true_iff. intros [_ ?]. by apply filled_shifted.
Qed.

Lemma add_garbage_correct_witness :
  exists g', board_add_garbage (tetrisbrain_init zero_game 42) 3 = Some (true, g') /\
    filled (board g') = 27%nat.
Proof.
  destruct (init_ok zero_game 42 zero_memory) as (Hg & _).
  destruct (add_garbage_correct _ 3 Hg ltac:(lia)) as (ok & g' & k & Heq & _ & _ & _ & _ & _ & Hfill).
  assert (ok = true) as ->.
  { apply (f_equal (option_map fst)) in Heq. vm_compute in Heq. congruence. }
  exists g'. split; [exact Heq|]. rewrite Hfill by reflexivity. vm_compute. reflexivity.
Defined.

(** ** Fairness of a round *)

(** One stream for everyone.  Two players of a round start from the same
    seed; whatever happens to each of them afterwards, when they have drawn the
    same number of pieces they look at the same queue, and the next piece either
    draws is the same one: the seed's stream at that position. *)
Theorem shared_piece_stream g0 g0' sd g g' :
  game_memory g0 -> game_memory g0' ->
  rtc play_step (tetrisbrain_init g0 sd) g -> rtc play_step (tetrisbrain_init g0' sd) g' ->
  piece_generated_counter g = piece_generated_counter g' ->
  next g = next g' /\
  forall g1 g1', spawn_next g = (true, g1) -> spawn_next g' = (true, g1') ->
    kind (active g1) = kind (active g1') /\
    kind (active g1) = rng_piece sd (u32 (piece_generated_counter g - NEXT_LEN)).
Proof.
  intros Hm Hm' Hs Hs' Hc.
  destruct (init_ok g0 sd Hm) as (Hi & _ & Hsd & _).
  destruct (init_ok g0' sd Hm') as (Hi' & _ & Hsd' & _).
  destruct (play_steps_ok _ _ Hi Hs) as [Hg Hseed], (play_steps_ok _ _ Hi' Hs') as [Hg' Hseed'].
  assert (Hhead : forall h h1, game_ok h -> seed h = sd ->
    piece_generated_counter h = piece_generated_counter g -> spawn_next h = (true, h1) ->
    kind (active h1) = rng_piece sd (u32 (piece_generated_counter g - NEXT_LEN))).
  { intros h h1 Hh Hsh Hch Heq. unfold spawn_next, board_spawn_piece in Heq.
    rewrite (ok_next h Hh), queue_at_head, Hsh, Hch in Heq. case_match; [done|].
    injection Heq as <-. done. }
  split.
  - rewrite (ok_next g Hg), (ok_next g' Hg'), Hc. congruence.
  - intros g1 g1' H1 H1'. rewrite (Hhead g g1), (Hhead g' g1'); try done; congruence.
Qed.

Lemma shared_piece_stream_witness :
  next (tetrisbrain_tick (tetrisbrain_init zero_game 9)) =
  next (action_lmove (tetrisbrain_init double_game 9)).2.
Proof.
  refine (proj1 (shared_piece_stream zero_game double_game 9 _ _ zero_memory
    (game_ok_memory _ double_game_ok) _ _ _)).
  - apply rtc_once, play_tick.
  - apply rtc_once, (play_input _ MOVE_LEFT). unfold tetrisbrain_input.
    destruct (init_ok double_game 9 (game_ok_memory _ double_game_ok)) as (_ & -> & _). reflexivity.
  - vm_compute. reflexivity.
Defined.

(** Topping out is final.  Once a game is over no tick, move, garbage or
    scoreboard message changes its board, its piece, its score or its lines, and
    it stays over until a new round starts. *)
Theorem game_over_is_final g g' :
  game_over g = true -> rtc play_step g g' ->
  game_over g' = true /\ board g' = board g /\ active g' = active g /\
  score g' = score g /\ lines g' = lines g.
Proof.
  intros Hgo Hs. induction Hs as [g|g g1 g' Hs _ IH]; [by split_and!|].
  destruct (dead_step g g1 Hgo Hs) as (Hgo1 & Hb & Ha & Hsc & Hl).
  destruct (IH Hgo1) as (? & -> & -> & -> & ->). by split_and!.
Qed.

Lemma game_over_is_final_witness :
  board (tetrisbrain_tick (set_game_over true double_game)) = board double_game.
Proof.
  apply (game_over_is_final (set_game_over true double_game)
    (tetrisbrain_tick (set_game_over true double_game)) eq_refl).
  apply rtc_once, play_tick.
Defined.

(** ** Rotation with wall kicks *)

(** The sideways offsets tried, nearest first and right before left. *)
Definition kick_offsets (n : Z) : list Z :=
  0 :: flat_map (fun i => [i; - i]) (seqZ 1 n).

Definition kicked (g : GameState) (d dx : Z) : Piece :=
  action_move (action_rotate (active g) d) dx 0.

Lemma kick_loop_find g d i n :
  kick_loop g d i n =
  kicked g d <$> List.find (fun dx => negb (board_collides g (kicked g d dx)))
                   (flat_map (fun i => [i; - i]) (seqZ i (Z.of_nat n))).
Proof.
  revert i. induction n as [|n IH]; intros i; [done|].
  rewrite seqZ_cons by lia. simpl flat_map. simpl kick_loop. simpl List.find.
  fold (kicked g d i) (kicked g d (- i)).
  destruct (negb (board_collides g (kicked g d i))); [done|].
  destruct (negb (board_collides g (kicked g d (- i)))); [done|].
  rewrite IH. repeat f_equal; lia.
Qed.

(** Rotation takes the first offset that fits, trying the piece in place and
    then up to its box's width to either side, nearest first and right before
    left; when none fits nothing changes. *)
Theorem try_rotate_first_fit g d :
  action_try_rotate g d =
  match List.find (fun dx => negb (board_collides g (kicked g d dx)))
          (kick_offsets (piece_size (active g))) with
  | Some dx => (true, set_active (kicked g d dx) g)
  | None => (false, g)
  end.
Proof.
  unfold action_try_rotate. rewrite kick_loop_find.
  rewrite (piece_size_kind _ (active g)) by done.
  rewrite Z2Nat.id by apply piece_size_bounds. unfold kick_offsets. simpl List.find.
  assert (H0 : kicked g d 0 = action_rotate (active g) d).
  { unfold kicked, action_move. destruct (action_rotate _ _). simpl. by rewrite !Z.add_0_r. }
  rewrite H0. destruct (negb _); [by rewrite H0|by destruct (List.find _ _)].
Qed.

(** ** Machine bounds *)

(** No [int] of the game overflows in any round of fewer than 2684354
    events: the score is at most 800 and the lines at most 4 per event, the
    attack banked at most 3, and the piece in play of a live game stays in a
    window around the board. *)
Theorem game_ints_bounded g0 sd n g :
  game_memory g0 -> nsteps engine_step n (tetrisbrain_init g0 sd) g ->
  Z.of_nat n <= 2684354 ->
  0 <= score g <= INT_MAX /\ 0 <= lines g <= INT_MAX /\ 0 <= garbage_out g <= INT_MAX /\
  (game_over g = false ->
    -4 < py (active g) < BOARD_HEIGHT /\ -4 < px (active g) < BOARD_WIDTH).
Proof.
  intros Hm Hn Hb. destruct (init_ok g0 sd Hm) as (Hi & _ & _ & _ & _ & _ & Hs0 & Hl0 & Hg0 & _).
  destruct (engine_steps_ok n _ _ Hn Hi) as (Hg & Hs & Hl & Hgb).
  rewrite Hs0 in Hs. rewrite Hl0 in Hl. rewrite Hg0 in Hgb.
  pose proof (ok_score g Hg). pose proof (ok_lines g Hg). pose proof (ok_garbage g Hg).
  unfold INT_MAX. split_and!; try lia; by apply active_window.
Qed.

Lemma game_ints_bounded_witness :
  score (tetrisbrain_tick (tetrisbrain_init zero_game 5)) <= INT_MAX.
Proof.
  refine (proj2 (proj1 (game_ints_bounded zero_game 5 1 _ zero_memory _ _))); [|lia].
  apply nsteps_once, engine_play, play_tick.
Defined.

(** ** Hold *)

(** Hold.  At most one swap per piece: a used hold changes nothing.
    Otherwise the stack, the score and the lines are untouched, further swaps
    are refused, and the two pieces trade places (or, with nothing held yet, the
    piece in play is stored and the queue's head drawn); if the incoming piece
    does not fit the game is over. *)
Theorem hold_swaps_once g ok g' :
  game_ok g -> game_over g = false -> action_hold g = (ok, g') ->
  ok = negb (hold_used g) /\ (action_hold g').1 = false /\
  board g' = board g /\ score g' = score g /\ lines g' = lines g /\
  (hold_used g = true -> g' = g) /\
  (hold_used g = false -> game_over g' = false ->
    hold g' = kind (active g) /\
    (hold g <> PIECE_NONE -> kind (active g') = hold g /\ next g' = next g) /\
    (hold g = PIECE_NONE -> Some (kind (active g')) = head (next g) /\
       next g' = queue_at (seed g) (u32 (piece_generated_counter g + 1)))).
Proof.
  intros Hg Hgo. unfold action_hold at 1. destruct (hold_used g) eqn:Hu.
  { intros ?; simplify_eq. unfold action_hold. rewrite Hu. by split_and!. }
  case_bool_decide as Hh.
  - set (g1 := set_hold _ _). destruct (spawn_next g1) as [sp g2] eqn:E.
    destruct (spawn_next_fields _ _ _ E) as (Fb & Fs & Fl & _ & Fh & _).
    assert (Hq : sp = true -> Some (kind (active g2)) = head (next g) /\
      next g2 = queue_at (seed g) (u32 (piece_generated_counter g + 1))).
    { intros ->. unfold spawn_next, board_spawn_piece in E. subst g1. simpl in E.
      rewrite (ok_next g Hg), queue_at_head, queue_at_advance in E by apply Hg.
      case_match; [done|]. injection E as <-. simpl. rewrite (ok_next g Hg). split; [|done].
      unfold queue_at. simpl. by rewrite Z.add_0_r. }
    assert (Hu2 : hold_used g2 = true).
    { unfold spawn_next, board_spawn_piece in E. by case_match; simplify_eq/=. }
    intros ?; simplify_eq/=. unfold action_hold. destruct sp; simpl; rewrite Hu2; split_and!; try done.
    intros _ _. by split_and!; [|intros ?|intros _; apply Hq].
  - simpl in Hh. destruct (board_spawn_piece (set_hold_used true g) _) as [sp g2] eqn:E.
    intros ?; simplify_eq/=. unfold board_spawn_piece in E. case_match; simplify_eq/=; by split_and!.
Qed.

Lemma hold_swaps_once_witness :
  let g' := (action_hold double_game).2 in
  hold g' = PIECE_O /\ Some (kind (active g')) = head (next double_game).
Proof.
  destruct (action_hold double_game) as [ok g'] eqn:E.
  destruct (hold_swaps_once double_game ok g' double_game_ok eq_refl E)
    as (_ & _ & _ & _ & _ & _ & H).
  destruct (H eq_refl) as (Hh & _ & Hd).
  - change g' with (ok, g').2. rewrite <- E. vm_compute. reflexivity.
  - split; [exact Hh|apply Hd; reflexivity].
Defined.
