(* ===== verification/Keyed.v ===== *)
(** * Keyed: a table of slots as a finite map

    The daemon keeps its clients and rooms in fixed arrays of slots, a slot being
    in use when its key (an fd, a room number) is valid.  This file relates such
    an array to the finite map from keys to values it stands for, and a write to
    one slot to an insertion or a deletion. *)

From stdpp Require Export gmap.
From stdpp Require Import options.
From S2P Require Import Prelude.

Section keyed.
Context {A B : Type} (key : A -> Z) (ok : Z -> Prop) `{Hdec : forall z, Decision (ok z)}.
Context (val : A -> B).

(** Slots in use have distinct keys. *)
Definition slot_uniq (l : list A) : Prop :=
  forall i j x y, l !! i = Some x -> l !! j = Some y -> ok (key x) -> key x = key y -> i = j.

(** The map the slots in use represent. *)
Definition slot_map (l : list A) : gmap Z B :=
  list_to_map ((fun x => (key x, val x)) <$> filter (fun x => ok (key x)) l).

Lemma slot_uniq_cons x l : slot_uniq (x :: l) -> slot_uniq l.
Proof.
  intros Hu i j y z Hi Hj Hok Heq. specialize (Hu (S i) (S j) y z Hi Hj Hok Heq). lia.
Qed.

Lemma slot_uniq_NoDup l : slot_uniq l -> NoDup (key <$> filter (fun x => ok (key x)) l).
Proof.
  induction l as [|x l IH]; intros Hu; [constructor|].
  rewrite filter_cons. case_decide as Hok; [|by eapply IH, slot_uniq_cons].
  simpl. constructor; [|by eapply IH, slot_uniq_cons].
  intros (y & Heq & [_ Hy]%list_elem_of_filter)%list_elem_of_fmap.
  apply list_elem_of_lookup in Hy as [j Hj].
  specialize (Hu 0%nat (S j) x y eq_refl Hj Hok Heq). lia.
Qed.

Lemma slot_map_lookup l k v :
  slot_uniq l ->
  slot_map l !! k = Some v <->
  exists i x, l !! i = Some x /\ ok k /\ key x = k /\ val x = v.
Proof.
  intros Hu. unfold slot_map. rewrite <- elem_of_list_to_map.
  2: { rewrite <- list_fmap_compose. by apply slot_uniq_NoDup. }
  rewrite list_elem_of_fmap. split.
  - intros (x & Heq & [Hok [i Hi]%list_elem_of_lookup]%list_elem_of_filter). simplify_eq.
    by exists i, x.
  - intros (i & x & Hi & Hok & <- & <-). exists x. split; [done|].
    apply list_elem_of_filter. split; [done|]. by eapply list_elem_of_lookup_2.
Qed.

Lemma slot_map_lookup_1 l i x :
  slot_uniq l -> l !! i = Some x -> ok (key x) -> slot_map l !! key x = Some (val x).
Proof. intros Hu Hi Hok. apply slot_map_lookup; [done|]. by exists i, x. Qed.

Lemma slot_map_lookup_None l k :
  slot_uniq l -> slot_map l !! k = None <-> (ok k -> forall i x, l !! i = Some x -> key x <> k).
Proof.
  intros Hu. rewrite eq_None_not_Some. split.
  - intros Hn Hok i x Hi Hk. destruct Hn. exists (val x). apply slot_map_lookup; [done|]. by exists i, x.
  - intros Hn [v (i & x & Hi & Hok & Hk & _)%slot_map_lookup]; [|done]. by eapply Hn.
Qed.

(** Scanning the slots for a valid key finds the one slot that has it. *)
Lemma slot_find_Some l k i x :
  slot_uniq l -> ok k ->
  list_find (fun x => key x = k) l = Some (i, x) <-> l !! i = Some x /\ key x = k.
Proof.
  intros Hu Hok. rewrite list_find_Some. split; [by intros (? & ? & _)|].
  intros [Hi Hk]. split_and!; [done|done|]. intros j y Hj Hlt Hy.
  assert (j = i) by (eapply (Hu j i y x); [done|done| |]; congruence). lia.
Qed.

Lemma slot_find_None l k :
  slot_uniq l -> ok k -> list_find (fun x => key x = k) l = None <-> slot_map l !! k = None.
Proof.
  intros Hu Hok. rewrite list_find_None, slot_map_lookup_None, Forall_lookup by done. naive_solver.
Qed.

Lemma lookup_alter_Some (f : A -> A) (l : list A) (i j : nat) x y :
  l !! i = Some x -> alter f i l !! j = Some y ->
  (j = i /\ y = f x) \/ (j <> i /\ l !! j = Some y).
Proof.
  intros Hi Hj. destruct (decide (i = j)) as [<-|Hne].
  - rewrite list_lookup_alter_eq, Hi in Hj. simplify_eq/=. by left.
  - rewrite list_lookup_alter_ne in Hj by done. right. by split.
Qed.

(** A write that keeps the key. *)
Lemma slot_uniq_alter l i x f :
  slot_uniq l -> l !! i = Some x -> key (f x) = key x -> slot_uniq (alter f i l).
Proof.
  intros Hu Hi Hk j1 j2 y1 y2 H1 H2 Hok Heq.
  destruct (lookup_alter_Some _ _ _ _ _ _ Hi H1) as [[-> ->]|[Hn1 H1']],
    (lookup_alter_Some _ _ _ _ _ _ Hi H2) as [[-> ->]|[Hn2 H2']]; rewrite ?Hk in *; eauto.
Qed.

Lemma slot_map_alter l i x f :
  slot_uniq l -> l !! i = Some x -> key (f x) = key x -> ok (key x) ->
  slot_map (alter f i l) = <[key x := val (f x)]> (slot_map l).
Proof.
  intros Hu Hi Hk Hok. pose proof (slot_uniq_alter _ _ _ _ Hu Hi Hk) as Hu'.
  apply map_eq. intros k. apply option_eq. intros v. rewrite slot_map_lookup by done.
  destruct (decide (k = key x)) as [->|Hne].
  - rewrite lookup_insert_eq. split.
    + intros (j & y & Hj & _ & Hy & <-).
      destruct (lookup_alter_Some _ _ _ _ _ _ Hi Hj) as [[-> ->]|[Hn Hj']]; [done|].
      destruct Hn. by eapply (Hu j i y x); [done|done|congruence|].
    + intros [= <-]. exists i, (f x). rewrite list_lookup_alter_eq, Hi. by rewrite Hk.
  - rewrite lookup_insert_ne by done. rewrite slot_map_lookup by done. split.
    + intros (j & y & Hj & Hok' & Hy & <-).
      destruct (lookup_alter_Some _ _ _ _ _ _ Hi Hj) as [[-> ->]|[Hn Hj']]; [congruence|eauto 10].
    + intros (j & y & Hj & Hok' & Hy & <-). exists j, y. split; [|done].
      rewrite list_lookup_alter_ne; [done|]. intros <-. congruence.
Qed.

(** A write that changes neither keys nor values. *)
Lemma slot_map_alter_id l i f :
  (forall x, key (f x) = key x) -> (forall x, val (f x) = val x) -> slot_uniq l ->
  slot_uniq (alter f i l) /\ slot_map (alter f i l) = slot_map l.
Proof.
  intros Hk Hv Hu. destruct (l !! i) as [x|] eqn:Hi.
  2: { assert (alter f i l = l) as ->; [|done]. apply list_eq. intros j.
       destruct (decide (i = j)) as [<-|Hne]; [by rewrite list_lookup_alter_eq, Hi|].
       by rewrite list_lookup_alter_ne. }
  pose proof (slot_uniq_alter l i x f Hu Hi (Hk x)) as Hu'. split; [done|].
  apply map_eq. intros k. apply option_eq. intros v. rewrite !slot_map_lookup by done. split.
  - intros (j & y & Hj & Hok & Hy & <-).
    destruct (lookup_alter_Some _ _ _ _ _ _ Hi Hj) as [[-> ->]|[Hn Hj']]; [|by eauto 10].
    exists i, x. rewrite <- (Hk x), Hv. done.
  - intros (j & y & Hj & Hok & Hy & <-). destruct (decide (i = j)) as [<-|Hne].
    + exists i, (f y). rewrite list_lookup_alter_eq, Hj, Hk, Hv. done.
    + exists j, y. by rewrite list_lookup_alter_ne.
Qed.

(** A write to a slot that is not in use and stays so. *)
Lemma slot_map_alter_out l i x f :
  slot_uniq l -> l !! i = Some x -> ~ ok (key x) -> ~ ok (key (f x)) ->
  slot_uniq (alter f i l) /\ slot_map (alter f i l) = slot_map l.
Proof.
  intros Hu Hi Hno Hno'.
  assert (Hu' : slot_uniq (alter f i l)).
  { intros j1 j2 y1 y2 H1 H2 Hok Heq.
    destruct (lookup_alter_Some _ _ _ _ _ _ Hi H1) as [[-> ->]|[Hn1 H1']],
      (lookup_alter_Some _ _ _ _ _ _ Hi H2) as [[-> ->]|[Hn2 H2']]; [done|done| |by eauto].
    by rewrite Heq in Hok. }
  split; [done|]. apply map_eq. intros k. apply option_eq. intros v. rewrite !slot_map_lookup by done.
  split; intros (j & y & Hj & Hok & Hy & <-).
  - destruct (lookup_alter_Some _ _ _ _ _ _ Hi Hj) as [[-> ->]|[Hn Hj']]; [|by eauto 10].
    by rewrite Hy in Hno'.
  - exists j, y. rewrite list_lookup_alter_ne; [done|]. intros <-.
    rewrite Hi in Hj. injection Hj as <-. by rewrite Hy in Hno.
Qed.

Lemma fmap_key_alter (l : list A) i f :
  (forall x, key (f x) = key x) -> key <$> alter f i l = key <$> l.
Proof.
  intros Hk. apply list_eq. intros j. rewrite !list_lookup_fmap.
  destruct (decide (i = j)) as [<-|Hne]; [|by rewrite list_lookup_alter_ne].
  rewrite list_lookup_alter_eq. destruct (l !! i); simpl; by rewrite ?Hk.
Qed.

(** A write that puts a free slot to use under a fresh key. *)
Lemma slot_uniq_add l i x f :
  slot_uniq l -> l !! i = Some x -> slot_map l !! key (f x) = None -> ok (key (f x)) ->
  slot_uniq (alter f i l).
Proof.
  intros Hu Hi Hf Hok j1 j2 y1 y2 H1 H2 Hok1 Heq.
  rewrite slot_map_lookup_None in Hf by done.
  destruct (lookup_alter_Some _ _ _ _ _ _ Hi H1) as [[-> ->]|[Hn1 H1']],
    (lookup_alter_Some _ _ _ _ _ _ Hi H2) as [[-> ->]|[Hn2 H2']]; [done| | |by eauto].
  - by destruct (Hf Hok j2 y2 H2').
  - by destruct (Hf Hok j1 y1 H1').
Qed.

Lemma slot_map_add l i x f :
  slot_uniq l -> l !! i = Some x -> ~ ok (key x) -> slot_map l !! key (f x) = None -> ok (key (f x)) ->
  slot_map (alter f i l) = <[key (f x) := val (f x)]> (slot_map l).
Proof.
  intros Hu Hi Hno Hf Hok. pose proof (slot_uniq_add _ _ _ _ Hu Hi Hf Hok) as Hu'.
  apply map_eq. intros k. apply option_eq. intros v. rewrite slot_map_lookup by done.
  destruct (decide (k = key (f x))) as [->|Hne].
  - rewrite lookup_insert_eq. split.
    + intros (j & y & Hj & _ & Hy & <-).
      destruct (lookup_alter_Some _ _ _ _ _ _ Hi Hj) as [[-> ->]|[Hn Hj']]; [done|].
      rewrite slot_map_lookup_None in Hf by done. by destruct (Hf Hok j y Hj').
    + intros [= <-]. exists i, (f x). by rewrite list_lookup_alter_eq, Hi.
  - rewrite lookup_insert_ne by done. rewrite slot_map_lookup by done. split.
    + intros (j & y & Hj & Hok' & Hy & <-).
      destruct (lookup_alter_Some _ _ _ _ _ _ Hi Hj) as [[-> ->]|[Hn Hj']]; [congruence|eauto 10].
    + intros (j & y & Hj & Hok' & Hy & <-). exists j, y. split; [|done].
      rewrite list_lookup_alter_ne; [done|]. intros <-. by simplify_eq.
Qed.

(** A write that frees a slot. *)
Lemma slot_uniq_del l i x f :
  slot_uniq l -> l !! i = Some x -> ~ ok (key (f x)) -> slot_uniq (alter f i l).
Proof.
  intros Hu Hi Hno j1 j2 y1 y2 H1 H2 Hok1 Heq.
  destruct (lookup_alter_Some _ _ _ _ _ _ Hi H1) as [[-> ->]|[Hn1 H1']],
    (lookup_alter_Some _ _ _ _ _ _ Hi H2) as [[-> ->]|[Hn2 H2']]; [done|done| |by eauto].
  by rewrite Heq in Hok1.
Qed.

Lemma slot_map_del l i x f :
  slot_uniq l -> l !! i = Some x -> ok (key x) -> ~ ok (key (f x)) ->
  slot_map (alter f i l) = delete (key x) (slot_map l).
Proof.
  intros Hu Hi Hok Hno. pose proof (slot_uniq_del _ _ _ _ Hu Hi Hno) as Hu'.
  apply map_eq. intros k. apply option_eq. intros v. rewrite slot_map_lookup by done.
  destruct (decide (k = key x)) as [->|Hne].
  - rewrite lookup_delete_eq. split; [|done].
    intros (j & y & Hj & _ & Hy & <-).
    destruct (lookup_alter_Some _ _ _ _ _ _ Hi Hj) as [[-> ->]|[Hn Hj']]; [by rewrite Hy in Hno|].
    destruct Hn. by eapply (Hu j i y x); [done|done|congruence|].
  - rewrite lookup_delete_ne by done. rewrite slot_map_lookup by done. split.
    + intros (j & y & Hj & Hok' & Hy & <-).
      destruct (lookup_alter_Some _ _ _ _ _ _ Hi Hj) as [[-> ->]|[Hn Hj']]; [congruence|eauto 10].
    + intros (j & y & Hj & Hok' & Hy & <-). exists j, y. split; [|done].
      rewrite list_lookup_alter_ne; [done|]. intros <-. congruence.
Qed.
End keyed.

Lemma length_filter_all {A} (P : A -> Prop) `{forall x, Decision (P x)} l :
  Forall P l -> length (filter P l) = length l.
Proof. induction 1 as [|x l Hx _ IH]; [done|]. rewrite filter_cons_True by done. simpl. by rewrite IH. Qed.

(** Free slots: fewer distinct keys in use than slots. *)
Lemma slot_map_size {A B} (key : A -> Z) (ok : Z -> Prop) `{forall z, Decision (ok z)} (val : A -> B) l :
  slot_uniq key ok l -> size (slot_map key ok val l) = length (filter (fun x => ok (key x)) l).
Proof.
  intros Hu. unfold slot_map. rewrite map_size_list_to_map.
  - by rewrite length_fmap.
  - rewrite <- list_fmap_compose. by apply slot_uniq_NoDup.
Qed.
