(* ===== verification/AdminMsg.v ===== *)
(** * AdminMsg: the records between a session and the admin thread

    Models tetriSH/include/tetrisd/adminmsg.h (the message set and its framing on
    a stream socketpair), core/include/libtetrisutil/sessionstate.h and the
    capacities of core/include/libtetrisutil/limits.h. *)

From stdpp Require Import options.
From S2P Require Import Prelude Piece.

(** ** limits.h *)

Definition MAX_SESSIONS : Z := 1024.
Definition MAX_ROOMS : Z := 1024.
Definition MAX_ROOM_MEMBERS : Z := 1024.
Definition MAX_STANDINGS : Z := 8.
Definition MAX_USER_NAME : Z := 16.

(** [snprintf(dst, size, "%s", src)]: what fits in [size - 1] characters. *)
Definition snprintf_s (size : Z) (src : string) : string :=
  String.substring 0 (Z.to_nat (size - 1)) src.

(** ** sessionstate.h *)

Inductive SessionPhase :=
| SESSION_NONE | SESSION_IDLE | SESSION_WAITING | SESSION_PLAYING | SESSION_GAME_OVER
| SESSION_DISCONNECTED.

#[global] Instance SessionPhase_eq_dec : EqDecision SessionPhase.
Proof. solve_decision. Defined.

Definition phase_code (p : SessionPhase) : Z :=
  match p with
  | SESSION_NONE => 0 | SESSION_IDLE => 1 | SESSION_WAITING => 2 | SESSION_PLAYING => 3
  | SESSION_GAME_OVER => 4 | SESSION_DISCONNECTED => 5
  end.

Definition ROOM_NONE : Z := -1.

Record RoomMember := mkMember {
  rm_player_id : Z;
  rm_name : string;
  rm_is_owner : bool
}.

#[global] Instance RoomMember_eq_dec : EqDecision RoomMember.
Proof. solve_decision. Defined.

Record SessionState := mkSession {
  phase : SessionPhase;
  room_id : Z;
  player_id : Z;
  is_owner : bool;
  roster : list RoomMember;
  roster_count : Z
}.

#[global] Instance SessionState_eq_dec : EqDecision SessionState.
Proof. solve_decision. Defined.

Definition zero_member : RoomMember := mkMember 0 EmptyString false.
Definition zero_standing : PlayerStanding := mkStanding 0 EmptyString 0 0 false.
Definition zero_session : SessionState :=
  mkSession SESSION_NONE 0 0 false (replicate (Z.to_nat MAX_STANDINGS) zero_member) 0.

(** ** adminmsg.h: the message set *)

Inductive AdminMsgType :=
| ADMIN_JOIN | ADMIN_LEAVE | ADMIN_START | ADMIN_GARBAGE | ADMIN_GAMEOVER
| ADMIN_SESSION | ADMIN_SEED | ADMIN_RECV_GARBAGE | ADMIN_RESULT | ADMIN_REJECT
| ADMIN_SCORE | ADMIN_STANDINGS.

#[global] Instance AdminMsgType_eq_dec : EqDecision AdminMsgType.
Proof. solve_decision. Defined.

Definition REJECT_NOT_OWNER : Z := 403.
Definition REJECT_CONFLICT : Z := 409.
Definition REJECT_FULL : Z := 429.

Record AdminMsg := mkMsg {
  m_type : AdminMsgType;
  m_room_id : Z;
  m_name : string;
  m_lines : Z;
  m_seed : Z;
  m_score : Z;
  m_winner : Z;
  m_reason : Z;
  m_session : SessionState;
  m_created : bool;
  m_standings : list PlayerStanding;
  m_standing_count : Z
}.

(** [memcmp] of two records that were zeroed before they were filled. *)
#[global] Instance AdminMsg_eq_dec : EqDecision AdminMsg.
Proof. solve_decision. Defined.

(** [memset(&m, 0, sizeof m); m.type = ty;] *)
Definition zero_msg (ty : AdminMsgType) : AdminMsg :=
  mkMsg ty 0 EmptyString 0 0 0 0 0 zero_session false
    (replicate (Z.to_nat MAX_STANDINGS) zero_standing) 0.

Definition set_m_lines (v : Z) (m : AdminMsg) : AdminMsg := mkMsg (m_type m)
  (m_room_id m) (m_name m) v (m_seed m) (m_score m) (m_winner m) (m_reason m)
  (m_session m) (m_created m) (m_standings m) (m_standing_count m).
Definition set_m_seed (v : Z) (m : AdminMsg) : AdminMsg := mkMsg (m_type m)
  (m_room_id m) (m_name m) (m_lines m) v (m_score m) (m_winner m) (m_reason m)
  (m_session m) (m_created m) (m_standings m) (m_standing_count m).
Definition set_m_winner (v : Z) (m : AdminMsg) : AdminMsg := mkMsg (m_type m)
  (m_room_id m) (m_name m) (m_lines m) (m_seed m) (m_score m) v (m_reason m)
  (m_session m) (m_created m) (m_standings m) (m_standing_count m).
Definition set_m_reason (v : Z) (m : AdminMsg) : AdminMsg := mkMsg (m_type m)
  (m_room_id m) (m_name m) (m_lines m) (m_seed m) (m_score m) (m_winner m) v
  (m_session m) (m_created m) (m_standings m) (m_standing_count m).
Definition set_m_session (v : SessionState) (c : bool) (m : AdminMsg) : AdminMsg :=
  mkMsg (m_type m) (m_room_id m) (m_name m) (m_lines m) (m_seed m) (m_score m)
  (m_winner m) (m_reason m) v c (m_standings m) (m_standing_count m).
Definition set_m_standings (v : list PlayerStanding) (n : Z) (m : AdminMsg) : AdminMsg :=
  mkMsg (m_type m) (m_room_id m) (m_name m) (m_lines m) (m_seed m) (m_score m)
  (m_winner m) (m_reason m) (m_session m) (m_created m) v n.

(** ** adminmsg.h: framing

    A message is its bytes; [sys] is the sequence of results the kernel gives to
    the successive [write] (or [read]) calls, and [None] means the sequence ended
    while the loop was still waiting for one. *)

Inductive sysres := SysOk (n : Z) | SysEINTR | SysEAGAIN | SysErr.

Definition ADMINMSG_WOULDBLOCK : Z := -2.

(** [p] is what is left to write, [wire] what the socket has accepted. *)
Fixpoint adminmsg_write (sys : list sysres) (p wire : list Z) : option (Z * list Z * list sysres) :=
  match p with
  | [] => Some (0, wire, sys)
  | _ =>
      match sys with
      | [] => None
      | SysOk n :: sys =>
          if 0 <? n then adminmsg_write sys (drop (Z.to_nat n) p) (wire ++ take (Z.to_nat n) p)
          else Some (-1, wire, sys)
      | SysEINTR :: sys => adminmsg_write sys p wire
      | SysEAGAIN :: sys => Some (ADMINMSG_WOULDBLOCK, wire, sys)
      | SysErr :: sys => Some (-1, wire, sys)
      end
  end.

(** [size] is the record's size, [buf] what has been read of it so far and
    [wire] what is still in the socket; a [read] of 0 is the peer's close. *)
Fixpoint adminmsg_read (size : Z) (sys : list sysres) (buf wire : list Z)
    : option (Z * list Z * list Z * list sysres) :=
  if size <=? Z.of_nat (length buf) then Some (1, buf, wire, sys)
  else
    match sys with
    | [] => None
    | SysOk n :: sys =>
        if 0 <? n
        then adminmsg_read size sys (buf ++ take (Z.to_nat n) wire) (drop (Z.to_nat n) wire)
        else if n =? 0 then Some (if bool_decide (buf = []) then 0 else -1, buf, wire, sys)
        else Some (-1, buf, wire, sys)
    | SysEINTR :: sys => adminmsg_read size sys buf wire
    | SysEAGAIN :: sys => Some (-1, buf, wire, sys)
    | SysErr :: sys => Some (-1, buf, wire, sys)
    end.

(** ** Framing *)

(** What a kernel may answer to a reader that has [have] bytes of a record of
    [size] while [avail] more can arrive: an interruption, or a positive count that
    exceeds neither what was asked for nor what is there. *)
Fixpoint reads_ok (size : Z) (sys : list sysres) (have avail : Z) : Prop :=
  match sys with
  | [] => True
  | SysOk n :: sys =>
      have < size -> 0 < n <= Z.min (size - have) avail /\ reads_ok size sys (have + n) (avail - n)
  | SysEINTR :: sys => reads_ok size sys have avail
  | _ => have >= size
  end.

Definition is_ok (r : sysres) : bool := match r with SysOk _ => true | _ => false end.
Definition transfers (sys : list sysres) : Z := Z.of_nat (length (filter (fun r => is_ok r = true) sys)).

Lemma write_status_wire sys p wire st wire' rest :
  adminmsg_write sys p wire = Some (st, wire', rest) ->
  exists k, wire' = wire ++ take k p /\ (st = 0 -> take k p = p) /\ (st <> 0 -> (k < length p)%nat).
Proof.
  revert p wire. induction sys as [|r sys IH]; intros [|x p] wire Heq; simpl in Heq; simplify_eq.
  - exists 0%nat. by rewrite app_nil_r.
  - exists 0%nat. by rewrite app_nil_r.
  - destruct r as [n| | |]; simplify_eq; try (exists 0%nat; simpl; rewrite app_nil_r; split_and!; (done || lia)).
    + destruct (0 <? n) eqn:Hn; simplify_eq; [|exists 0%nat; simpl; rewrite app_nil_r; split_and!; (done || lia)].
      apply IH in Heq as (k & -> & H0 & H1). exists (Z.to_nat n + k)%nat.
      rewrite <- app_assoc, take_take_drop. split; [done|]. split.
      * intros Hst. rewrite <- take_take_drop, (H0 Hst). apply take_drop.
      * intros Hst. specialize (H1 Hst). rewrite length_drop in H1. lia.
    + by apply IH in Heq.
Qed.

Lemma read_record size sys buf wire :
  Z.of_nat (length buf) <= size -> size <= Z.of_nat (length buf + length wire) ->
  reads_ok size sys (Z.of_nat (length buf)) (Z.of_nat (length wire)) ->
  size - Z.of_nat (length buf) <= transfers sys ->
  exists rest, adminmsg_read size sys buf wire =
    Some (1, buf ++ take (Z.to_nat (size - Z.of_nat (length buf))) wire,
      drop (Z.to_nat (size - Z.of_nat (length buf))) wire, rest).
Proof.
  revert buf wire. induction sys as [|r sys IH]; intros buf wire Hb Hw Hr Ht; simpl;
    destruct (Z.leb_spec size (Z.of_nat (length buf))) as [Hge|Hlt].
  1,3: replace (size - Z.of_nat (length buf)) with 0 by lia; rewrite app_nil_r; eauto.
  - unfold transfers in Ht. simpl in Ht. lia.
  - destruct r as [n| | |]; simpl in Hr; try lia.
    + destruct (Hr Hlt) as [Hn Hr']. rewrite (proj2 (Z.ltb_lt _ _)) by lia.
      assert (Hlt' : length (take (Z.to_nat n) wire) = Z.to_nat n) by (rewrite length_take; lia).
      destruct (IH (buf ++ take (Z.to_nat n) wire) (drop (Z.to_nat n) wire)) as [rest ->].
      * rewrite length_app. lia.
      * rewrite length_app, length_drop. lia.
      * rewrite length_app, length_drop, Hlt'.
        replace (Z.of_nat (length buf + Z.to_nat n)) with (Z.of_nat (length buf) + n) by lia.
        replace (Z.of_nat (length wire - Z.to_nat n)) with (Z.of_nat (length wire) - n) by lia. done.
      * unfold transfers in *. simpl in Ht. rewrite length_app. lia.
      * exists rest. rewrite length_app, Hlt', <- app_assoc, take_take_drop, drop_drop.
        do 3 f_equal; [f_equal; f_equal; f_equal; lia|f_equal; lia].
    + apply IH; [done..|]. unfold transfers in *. done.
Qed.

(** Framing.  When [adminmsg_write] reports success the whole record is on
    the stream, and a reader whose [read] calls return it in pieces of any sizes,
    interrupted any number of times, ends with exactly that record and the rest of
    the stream untouched.  When it reports anything else, only a proper prefix went
    out: the stream is torn and the peer must be closed. *)
Theorem adminmsg_framing size msg tail wsys st wire wrest rsys :
  Z.of_nat (length msg) = size ->
  adminmsg_write wsys msg [] = Some (st, wire, wrest) ->
  reads_ok size rsys 0 (Z.of_nat (length (wire ++ tail))) -> size <= transfers rsys ->
  if st =? 0 then
    exists rest, adminmsg_read size rsys [] (wire ++ tail) = Some (1, msg, tail, rest)
  else exists k, (k < length msg)%nat /\ wire = take k msg.
Proof.
  intros Hlen Hw Hr Ht. destruct (write_status_wire _ _ _ _ _ _ Hw) as (k & -> & H0 & H1).
  destruct (Z.eqb_spec st 0) as [->|Hne]; [|exists k; by split; [apply H1|]].
  simpl in *. rewrite H0 in * by done. clear H0 H1 Hw.
  destruct (read_record size rsys [] (msg ++ tail)) as [rest Heq]; cbn [length].
  - lia.
  - rewrite length_app. lia.
  - done.
  - lia.
  - exists rest. rewrite Heq. cbn [length app Z.of_nat]. rewrite Z.sub_0_r, <- Hlen, Nat2Z.id.
    by rewrite take_app_length, drop_app_length.
Qed.

Lemma adminmsg_framing_witness :
  exists rest, adminmsg_read 5 [SysOk 1; SysEINTR; SysOk 3; SysOk 1; SysOk 1; SysOk 1] []
    [1; 2; 3; 4; 5; 9] = Some (1, [1; 2; 3; 4; 5], [9], rest).
Proof.
  apply (adminmsg_framing 5 [1; 2; 3; 4; 5] [9] [SysOk 2; SysEINTR; SysOk 3] 0 [1; 2; 3; 4; 5] []
    [SysOk 1; SysEINTR; SysOk 3; SysOk 1; SysOk 1; SysOk 1]); [reflexivity|reflexivity| |].
  - simpl. intros _. split; [lia|]. intros _. split; [lia|]. intros _. split; [lia|].
    intros H. lia.
  - vm_compute. discriminate.
Defined.
