(* ===== verification/Lobby.v ===== *)
(** * Lobby: what the room module promises, as an abstract state machine

    The room table of tetriSH/src/tetrisd/room.c seen from outside: who is
    connected and sitting where ([seats], by fd), and which rooms exist with whom
    in them ([tables], by room number).  The operations are those of the module
    with slots, arrays and messages abstracted away; the invariant says the two
    views agree.  [RoomInv] shows that the handlers implement this machine. *)

From stdpp Require Export gmap.
From stdpp Require Import options.
From S2P Require Import Prelude AdminMsg.

Record Seat := mkSeat { s_room : Z; s_player : Z; s_owner : bool; s_phase : SessionPhase }.
Record Table := mkTable { t_live : list Z; t_next : Z; t_phase : SessionPhase }.
Record Lobby := mkLobby { seats : gmap Z Seat; tables : gmap Z Table }.

Definition idle_seat : Seat := mkSeat ROOM_NONE 0 false SESSION_IDLE.

Definition seat_phase (p : SessionPhase) (st : Seat) : Seat :=
  mkSeat (s_room st) (s_player st) (s_owner st) p.
Definition seat_owner (st : Seat) : Seat :=
  mkSeat (s_room st) (s_player st) true (s_phase st).
Definition table_phase (p : SessionPhase) (t : Table) : Table := mkTable (t_live t) (t_next t) p.

(** Removal by moving the last member into the gap. *)
Definition swap_remove (fd : Z) (l : list Z) : list Z :=
  match list_find (fun x => x = fd) l with
  | Some (i, _) => take (length l - 1) (<[i := default 0 (last l)]> l)
  | None => l
  end.

(** Set the phase of every listed seat. *)
Definition phase_all (p : SessionPhase) (fds : list Z) (S : gmap Z Seat) : gmap Z Seat :=
  foldl (fun S fd => alter (seat_phase p) fd S) S fds.

(** ** Operations *)

Definition l_connect (fd : Z) (L : Lobby) : Lobby :=
  mkLobby (<[fd := idle_seat]> (seats L)) (tables L).

Definition l_open (id : Z) (L : Lobby) : Lobby :=
  mkLobby (seats L) (<[id := mkTable [] 0 SESSION_WAITING]> (tables L)).

Definition l_join (fd id : Z) (L : Lobby) : Lobby :=
  match tables L !! id with
  | None => L
  | Some t =>
      mkLobby
        (<[fd := mkSeat id (t_next t) (bool_decide (t_live t = [])) SESSION_WAITING]> (seats L))
        (<[id := mkTable (t_live t ++ [fd]) (t_next t + 1) (t_phase t)]> (tables L))
  end.

(** A JOIN for a negative number: the client is the owner and first player of a
    room that is in no table, since no lookup will find it. *)
Definition l_stray (fd id : Z) (L : Lobby) : Lobby :=
  mkLobby (<[fd := mkSeat id 0 true SESSION_WAITING]> (seats L)) (tables L).

Definition l_promote (id : Z) (L : Lobby) : Lobby :=
  match tables L !! id with
  | Some t => mkLobby (alter seat_owner (default 0 (head (t_live t))) (seats L)) (tables L)
  | None => L
  end.

Definition all_over (S : gmap Z Seat) (fds : list Z) : bool :=
  forallb (fun fd => match S !! fd with
                     | Some st => bool_decide (s_phase st = SESSION_GAME_OVER)
                     | None => true
                     end) fds.

Definition l_round_end (id : Z) (L : Lobby) : Lobby :=
  match tables L !! id with
  | Some t =>
      if bool_decide (t_phase t = SESSION_PLAYING) && all_over (seats L) (t_live t)
      then mkLobby (phase_all SESSION_WAITING (t_live t) (seats L))
             (<[id := table_phase SESSION_WAITING t]> (tables L))
      else L
  | None => L
  end.

Definition l_settle (id : Z) (was_owner : bool) (L : Lobby) : Lobby :=
  l_round_end id (if was_owner then l_promote id L else L).

(** Take [fd] out of its room; [S] is what the seats become. *)
Definition l_depart (fd : Z) (st : Seat) (S : gmap Z Seat) (L : Lobby) : Lobby :=
  let id := s_room st in
  match tables L !! id with
  | None => mkLobby S (tables L)
  | Some t =>
      let fds := swap_remove fd (t_live t) in
      if bool_decide (fds = []) then mkLobby S (delete id (tables L))
      else l_settle id (s_owner st)
             (mkLobby S (<[id := mkTable fds (t_next t) (t_phase t)]> (tables L)))
  end.

Definition l_leave (fd : Z) (L : Lobby) : Lobby :=
  match seats L !! fd with
  | None => L
  | Some st =>
      if s_room st =? ROOM_NONE then L
      else l_depart fd st (<[fd := idle_seat]> (seats L)) L
  end.

Definition l_close (fd : Z) (L : Lobby) : Lobby :=
  match seats L !! fd with
  | None => L
  | Some st =>
      if s_room st =? ROOM_NONE then mkLobby (delete fd (seats L)) (tables L)
      else l_depart fd st (delete fd (seats L)) L
  end.

Definition l_start (id : Z) (L : Lobby) : Lobby :=
  match tables L !! id with
  | None => L
  | Some t =>
      mkLobby (phase_all SESSION_PLAYING (t_live t) (seats L))
        (<[id := table_phase SESSION_PLAYING t]> (tables L))
  end.

Definition l_gameover (fd : Z) (L : Lobby) : Lobby :=
  match seats L !! fd with
  | None => L
  | Some st =>
      if s_room st =? ROOM_NONE then L
      else l_round_end (s_room st)
             (mkLobby (alter (seat_phase SESSION_GAME_OVER) fd (seats L)) (tables L))
  end.

(** ** The invariant *)

(** The phases a member may be in, given its room's. *)
Definition phase_agrees (room member : SessionPhase) : Prop :=
  member = SESSION_GAME_OVER \/ member = room.

(** Everything but the existence of an owner and of a player still playing. *)
Record table_core (S : gmap Z Seat) (id : Z) (t : Table) : Prop := {
  tc_id : 0 < id;
  tc_nodup : NoDup (t_live t);
  tc_members : forall fd, fd ∈ t_live t <-> exists st, S !! fd = Some st /\ s_room st = id;
  tc_players : forall fd st, S !! fd = Some st -> s_room st = id -> 0 <= s_player st < t_next t;
  tc_distinct : forall fd fd' st st', S !! fd = Some st -> S !! fd' = Some st' ->
    s_room st = id -> s_room st' = id -> s_player st = s_player st' -> fd = fd';
  tc_owner : forall fd fd' st st', S !! fd = Some st -> S !! fd' = Some st' ->
    s_room st = id -> s_room st' = id -> s_owner st = true -> s_owner st' = true -> fd = fd';
  tc_phase : t_phase t = SESSION_WAITING \/ t_phase t = SESSION_PLAYING;
  tc_phases : forall fd st, S !! fd = Some st -> s_room st = id ->
    phase_agrees (t_phase t) (s_phase st);
  tc_next : 0 <= t_next t
}.

Definition has_owner (S : gmap Z Seat) (id : Z) : Prop :=
  exists fd st, S !! fd = Some st /\ s_room st = id /\ s_owner st = true.

(** A running round has someone left to finish it. *)
Definition has_player (S : gmap Z Seat) (id : Z) (t : Table) : Prop :=
  t_phase t = SESSION_PLAYING ->
  exists fd st, S !! fd = Some st /\ s_room st = id /\ s_phase st = SESSION_PLAYING.

(** A client is in no room, in a room whose negative number no lookup finds, or
    in a room that exists. *)
Definition seat_ok (T : gmap Z Table) (fd : Z) (st : Seat) : Prop :=
  0 <= fd /\ (s_room st < 0 \/ is_Some (T !! s_room st)).

(** [except id]: every room but [id] is in order, and [id] up to its owner and
    its round. *)
Definition lobby_but (id : Z) (L : Lobby) : Prop :=
  (forall i t, tables L !! i = Some t -> table_core (seats L) i t) /\
  (forall fd st, seats L !! fd = Some st -> seat_ok (tables L) fd st) /\
  (forall i t, tables L !! i = Some t -> i <> id ->
     has_owner (seats L) i /\ has_player (seats L) i t).

Definition lobby_ok (L : Lobby) : Prop :=
  (forall i t, tables L !! i = Some t -> table_core (seats L) i t) /\
  (forall fd st, seats L !! fd = Some st -> seat_ok (tables L) fd st) /\
  (forall i t, tables L !! i = Some t -> has_owner (seats L) i /\ has_player (seats L) i t).

Lemma lobby_ok_but id L : lobby_ok L -> lobby_but id L.
Proof. intros (? & ? & ?). split_and!; eauto. Qed.

(** ** Facts on the helpers *)

Lemma swap_remove_perm fd l :
  NoDup l -> fd ∈ l -> l ≡ₚ fd :: swap_remove fd l.
Proof.
  intros Hnd Hin. unfold swap_remove.
  destruct (list_find (fun x => x = fd) l) as [[i x]|] eqn:E.
  2: { apply list_find_None in E. rewrite list.Forall_forall in E. by destruct (E fd Hin). }
  apply list_find_Some in E as (Hi & -> & _).
  destruct (exists_last (l := l)) as (k & z & ->); [by intros ->|].
  rewrite last_snoc, length_app. simpl. rewrite Nat.add_sub.
  destruct (decide (i = length k)) as [->|Hne].
  - rewrite lookup_app_r, Nat.sub_diag in Hi by lia. simplify_eq/=.
    rewrite insert_app_r_alt, Nat.sub_diag, take_app_length by lia.
    by rewrite Permutation_app_comm.
  - assert (Hlt : (i < length k)%nat).
    { apply lookup_lt_Some in Hi. rewrite length_app in Hi. simpl in Hi. lia. }
    rewrite lookup_app_l in Hi by done.
    rewrite insert_app_l, take_app_le, take_ge by (rewrite ?length_insert; lia).
    rewrite <- (take_drop_middle k i fd Hi) at 1.
    rewrite insert_take_drop by done. rewrite <- app_assoc. simpl.
    rewrite <- Permutation_middle. f_equiv.
    f_equiv. by rewrite <- Permutation_cons_append.
Qed.

Lemma swap_remove_spec fd l :
  NoDup l -> fd ∈ l ->
  NoDup (swap_remove fd l) /\ forall x, x ∈ swap_remove fd l <-> x ∈ l /\ x <> fd.
Proof.
  intros Hnd Hin. pose proof (swap_remove_perm fd l Hnd Hin) as Hp.
  set (k := swap_remove fd l) in *. clearbody k.
  rewrite Hp in Hnd. apply NoDup_cons in Hnd as [Hni Hnd].
  split; [done|]. intros x. rewrite Hp, elem_of_cons. naive_solver.
Qed.

Lemma phase_all_lookup p fds S fd :
  phase_all p fds S !! fd = if decide (fd ∈ fds) then seat_phase p <$> S !! fd else S !! fd.
Proof.
  unfold phase_all. revert S. induction fds as [|x fds IH]; intros S; simpl; [done|].
  rewrite IH. destruct (decide (fd = x)) as [->|Hne].
  - rewrite lookup_alter_eq, (decide_True (P := x ∈ x :: fds)) by (apply elem_of_cons; by left).
    case_decide; [|done]. by destruct (S !! x).
  - rewrite lookup_alter_ne by done. destruct (decide (fd ∈ fds)).
    + by rewrite decide_True by (apply elem_of_cons; by right).
    + by rewrite decide_False by (rewrite elem_of_cons; tauto).
Qed.

Lemma all_over_spec S fds :
  all_over S fds = true <->
  forall fd st, fd ∈ fds -> S !! fd = Some st -> s_phase st = SESSION_GAME_OVER.
Proof.
  unfold all_over. rewrite forallb_forall. setoid_rewrite <- list_elem_of_In. split.
  - intros H fd st Hin Hst. specialize (H fd Hin). rewrite Hst in H. by apply bool_decide_eq_true in H.
  - intros H fd Hin. destruct (S !! fd) eqn:E; [|done]. apply bool_decide_eq_true. by eapply H.
Qed.

(** ** Preservation *)

(** A table whose members' seats are the same still is in order. *)
Lemma table_core_ext S S' i t :
  (forall fd st, s_room st = i -> S !! fd = Some st <-> S' !! fd = Some st) ->
  table_core S i t -> table_core S' i t.
Proof.
  intros Heq []. split; try done.
  - intros fd. rewrite tc_members0. split; intros (st & H & Hr); exists st; split; try done;
      by apply (Heq fd st Hr).
  - intros fd st H Hr. apply (tc_players0 fd st); [by apply Heq|done].
  - intros fd fd' st st' H H' Hr Hr'. apply tc_distinct0; try done; by apply Heq.
  - intros fd fd' st st' H H' Hr Hr'. apply tc_owner0; try done; by apply Heq.
  - intros fd st H Hr. apply (tc_phases0 fd st); [by apply Heq|done].
Qed.

Lemma has_owner_ext S S' i :
  (forall fd st, s_room st = i -> S !! fd = Some st -> S' !! fd = Some st) ->
  has_owner S i -> has_owner S' i.
Proof. intros Heq (fd & st & H & Hr & Ho). exists fd, st. by split; [apply Heq|]. Qed.

Lemma has_player_ext S S' i t :
  (forall fd st, s_room st = i -> S !! fd = Some st -> S' !! fd = Some st) ->
  has_player S i t -> has_player S' i t.
Proof.
  intros Heq Hp Ht. destruct (Hp Ht) as (fd & st & H & Hr & Ho). exists fd, st.
  by split; [apply Heq|].
Qed.

(** A client outside every table moves, arrives or goes: no table notices. *)
Lemma outside_ok fd S' L :
  lobby_ok L -> 0 <= fd -> (forall st, seats L !! fd = Some st -> s_room st < 0) ->
  (forall f, f <> fd -> S' !! f = seats L !! f) -> (forall st, S' !! fd = Some st -> s_room st < 0) ->
  lobby_ok (mkLobby S' (tables L)).
Proof.
  intros (Hc & Hs & Ho) Hfd Hold Hoff Hnew.
  assert (Hsame : forall i, 0 < i -> forall f st, s_room st = i ->
    seats L !! f = Some st <-> S' !! f = Some st).
  { intros i Hi f st Hr. destruct (decide (f = fd)) as [->|Hne]; [|by rewrite Hoff].
    split; intros H; [apply Hold in H|apply Hnew in H]; lia. }
  split_and!; simpl.
  - intros i t Hi. specialize (Hc i t Hi). eapply table_core_ext; [|done]. apply Hsame, Hc.
  - intros f st Hf. destruct (decide (f = fd)) as [->|Hne]; [split; eauto|].
    rewrite Hoff in Hf by done. by apply Hs.
  - intros i t Hi. destruct (Hc i t Hi) as [Hid]. destruct (Ho i t Hi) as [Ha Hb]. split.
    + eapply has_owner_ext; [|done]. intros. by apply (Hsame i Hid).
    + eapply has_player_ext; [|done]. intros. by apply (Hsame i Hid).
Qed.

(** The usual way to apply it: one seat is written. *)
Lemma outside_insert_ok fd new L :
  lobby_ok L -> 0 <= fd -> (forall st, seats L !! fd = Some st -> s_room st < 0) -> s_room new < 0 ->
  lobby_ok (mkLobby (<[fd := new]> (seats L)) (tables L)).
Proof.
  intros HL Hfd Hold Hnew. eapply (outside_ok fd); [done..| |].
  - intros f Hne. by rewrite lookup_insert_ne.
  - intros st. rewrite lookup_insert_eq. by intros [= <-].
Qed.

Lemma l_connect_ok fd L :
  lobby_ok L -> 0 <= fd -> seats L !! fd = None -> lobby_ok (l_connect fd L).
Proof. intros HL Hfd Hn. apply outside_insert_ok; [done..| |done]. intros st. by rewrite Hn. Qed.

Lemma l_stray_ok fd old id L :
  lobby_ok L -> seats L !! fd = Some old -> s_room old < 0 -> id < 0 -> lobby_ok (l_stray fd id L).
Proof.
  intros HL Hfd Hold Hid. pose proof HL as (_ & Hs & _). destruct (Hs fd old Hfd) as [Hpos _].
  apply outside_insert_ok; [done..| |done]. intros st. rewrite Hfd. by intros [= <-].
Qed.

(** Seats that belong to another room do not matter to a room. *)
Lemma seat_insert_other (S : gmap Z Seat) (fd : Z) old new i :
  S !! fd = Some old -> s_room old <> i -> s_room new <> i ->
  forall f st, s_room st = i -> S !! f = Some st <-> <[fd := new]> S !! f = Some st.
Proof.
  intros Hold Ho Hn f st Hr. destruct (decide (f = fd)) as [->|Hne].
  - rewrite lookup_insert_eq, Hold. split; intros [= <-]; congruence.
  - by rewrite lookup_insert_ne.
Qed.

Lemma l_open_but id L :
  lobby_ok L -> 0 < id -> tables L !! id = None -> lobby_but id (l_open id L).
Proof.
  intros (Hc & Hs & Ho) Hid Hn.
  assert (Hnone : forall fd st, seats L !! fd = Some st -> s_room st <> id).
  { intros fd st H <-. destruct (Hs fd st H) as [_ [Hneg|[t Ht]]]; [lia|congruence]. }
  split_and!; simpl.
  - intros i t. destruct (decide (i = id)) as [->|Hne]; [|rewrite lookup_insert_ne by done; apply Hc].
    rewrite lookup_insert_eq. intros [= <-]. split; simpl; try done.
    + constructor.
    + intros fd. split; [by intros ?%elem_of_nil|]. intros (st & H & Hr). by destruct (Hnone fd st H).
    + intros fd st H Hr. by destruct (Hnone fd st H).
    + intros fd fd' st st' H _ Hr. by destruct (Hnone fd st H).
    + intros fd fd' st st' H _ Hr. by destruct (Hnone fd st H).
    + by left.
    + intros fd st H Hr. by destruct (Hnone fd st H).
  - intros fd st H. destruct (Hs fd st H) as [? [?|?]]; (split; [done|]); [by left|right].
    destruct (decide (s_room st = id)) as [->|]; [by rewrite lookup_insert_eq|].
    by rewrite lookup_insert_ne.
  - intros i t Hi Hne. rewrite lookup_insert_ne in Hi by done. by apply Ho.
Qed.

(** A new member: the table it joins is in order. *)
Lemma join_table_core fd old id t S :
  table_core S id t -> t_phase t = SESSION_WAITING -> S !! fd = Some old -> s_room old < 0 ->
  table_core
    (<[fd := mkSeat id (t_next t) (bool_decide (t_live t = [])) SESSION_WAITING]> S) id
    (mkTable (t_live t ++ [fd]) (t_next t + 1) (t_phase t)).
Proof.
  intros Hcore Hw Hfd Hold. pose proof (tc_id _ _ _ Hcore) as Hid. set (new := mkSeat _ _ _ _).
  assert (Hfresh : forall f st, S !! f = Some st -> s_room st = id -> f <> fd).
  { intros f st H <- ->. simplify_eq. lia. }
  assert (Hin : forall f st, <[fd := new]> S !! f = Some st -> s_room st = id ->
    (f = fd /\ st = new) \/ (f <> fd /\ S !! f = Some st)).
  { intros f st H Hr. destruct (decide (f = fd)) as [->|Hne].
    - rewrite lookup_insert_eq in H. left. split; congruence.
    - rewrite lookup_insert_ne in H by done. by right. }
  assert (Hnew : s_owner new = true -> forall f st, S !! f = Some st -> s_room st = id -> False).
  { simpl. intros Hemp%bool_decide_eq_true f st H Hr.
    assert (f ∈ t_live t) as Hm by (apply (tc_members _ _ _ Hcore); eauto).
    rewrite Hemp in Hm. by apply elem_of_nil in Hm. }
  split; simpl; try done.
  + apply NoDup_app. split; [apply Hcore|]. split; [|apply NoDup_singleton].
    intros f Hf ->%list_elem_of_singleton.
    apply (tc_members _ _ _ Hcore) in Hf as (st & H & Hr). by apply (Hfresh fd st).
  + intros f. rewrite elem_of_app, list_elem_of_singleton, (tc_members _ _ _ Hcore). split.
    * intros [(st & H & Hr)| ->]; [|exists new; by rewrite lookup_insert_eq].
      exists st. rewrite lookup_insert_ne; [done|]. intros <-. by apply (Hfresh fd st).
    * intros (st & H & Hr). destruct (Hin f st H Hr) as [[-> ->]|[? ?]]; [by right|left; eauto].
  + intros f st H Hr. pose proof (tc_next _ _ _ Hcore).
    destruct (Hin f st H Hr) as [[-> ->]|[_ H']]; simpl; [lia|].
    pose proof (tc_players _ _ _ Hcore f st H' Hr). lia.
  + intros f f' st st' H H' Hr Hr' Heq.
    destruct (Hin f st H Hr) as [[-> ->]|[_ H1]], (Hin f' st' H' Hr') as [[-> ->]|[_ H1']];
      [done| | |by eapply (tc_distinct _ _ _ Hcore)].
    * pose proof (tc_players _ _ _ Hcore f' st' H1' Hr'). simpl in Heq. lia.
    * pose proof (tc_players _ _ _ Hcore f st H1 Hr). simpl in Heq. lia.
  + intros f f' st st' H H' Hr Hr' Hw1 Hw2.
    destruct (Hin f st H Hr) as [[-> ->]|[_ H1]], (Hin f' st' H' Hr') as [[-> ->]|[_ H1']];
      [done| | |by eapply (tc_owner _ _ _ Hcore)].
    * by destruct (Hnew Hw1 f' st').
    * by destruct (Hnew Hw2 f st).
  + by left.
  + intros f st H Hr. destruct (Hin f st H Hr) as [[-> ->]|[_ H1]].
    * right. by rewrite Hw.
    * by apply (tc_phases _ _ _ Hcore f st).
  + pose proof (tc_next _ _ _ Hcore). lia.
Qed.

Lemma l_join_ok fd old id t L :
  lobby_but id L -> tables L !! id = Some t -> t_phase t = SESSION_WAITING ->
  t_live t = [] \/ has_owner (seats L) id -> seats L !! fd = Some old -> s_room old < 0 ->
  lobby_ok (l_join fd id L).
Proof.
  intros (Hc & Hs & Ho) Ht Hw Hlo Hfd Hold. unfold l_join. rewrite Ht.
  pose proof (Hc id t Ht) as Hcore. pose proof (tc_id _ _ _ Hcore) as Hid.
  set (new := mkSeat _ _ _ _).
  assert (Hoth : forall i, 0 < i -> i <> id -> forall f st, s_room st = i ->
    seats L !! f = Some st <-> <[fd := new]> (seats L) !! f = Some st).
  { intros i Hi Hne. eapply seat_insert_other; [done|lia|done]. }
  assert (Hfresh : forall f st, seats L !! f = Some st -> s_room st = id -> f <> fd).
  { intros f st H <- ->. simplify_eq. lia. }
  split_and!; simpl.
  - intros i t'. destruct (decide (i = id)) as [->|Hne].
    2: { rewrite lookup_insert_ne by done. intros Hi. specialize (Hc i t' Hi).
         eapply table_core_ext; [|done]. by apply Hoth; [apply Hc|]. }
    rewrite lookup_insert_eq. intros [= <-]. by eapply join_table_core.
  - intros f st. destruct (decide (f = fd)) as [->|Hne].
    + rewrite lookup_insert_eq. intros [= <-]. split; [by apply (Hs fd old)|right]. simpl.
      by rewrite lookup_insert_eq.
    + rewrite lookup_insert_ne by done. intros H. destruct (Hs f st H) as [? [?|?]];
        (split; [done|]); [by left|right].
      destruct (decide (s_room st = id)) as [->|]; [by rewrite lookup_insert_eq|by rewrite lookup_insert_ne].
  - intros i t'. destruct (decide (i = id)) as [->|Hne].
    + rewrite lookup_insert_eq. intros [= <-]. split; [|unfold has_player; simpl; by rewrite Hw].
      destruct Hlo as [Hemp|(f & st & H & Hr & Hown)].
      * exists fd, new. rewrite lookup_insert_eq. simpl. rewrite Hemp. done.
      * exists f, st. rewrite lookup_insert_ne; [done|]. intros <-. by apply (Hfresh fd st).
    + rewrite lookup_insert_ne by done. intros Hi. destruct (Ho i t' Hi Hne) as [Ha Hb].
      pose proof (tc_id _ _ _ (Hc i t' Hi)) as Hip. split.
      * eapply has_owner_ext; [|done]. intros. by apply (Hoth i Hip Hne).
      * eapply has_player_ext; [|done]. intros. by apply (Hoth i Hip Hne).
Qed.

(** Setting the phase of a room and of all its members. *)
Lemma phase_all_but p id t L :
  lobby_but id L -> tables L !! id = Some t -> p = SESSION_WAITING \/ p = SESSION_PLAYING ->
  lobby_but id (mkLobby (phase_all p (t_live t) (seats L)) (<[id := table_phase p t]> (tables L))) /\
  (has_owner (seats L) id -> has_owner (phase_all p (t_live t) (seats L)) id) /\
  (forall fd st, phase_all p (t_live t) (seats L) !! fd = Some st -> s_room st = id -> s_phase st = p).
Proof.
  intros (Hc & Hs & Ho) Ht Hp. pose proof (Hc id t Ht) as Hcore.
  set (S := phase_all p (t_live t) (seats L)).
  assert (Hin : forall fd st, S !! fd = Some st -> s_room st = id ->
    exists st0, seats L !! fd = Some st0 /\ s_room st0 = id /\ st = seat_phase p st0).
  { intros fd st H Hr. unfold S in H. rewrite phase_all_lookup in H. case_decide as Hm.
    - destruct (seats L !! fd) as [st0|]; [|done]. simpl in H. simplify_eq. by exists st0.
    - destruct Hm. apply (tc_members _ _ _ Hcore). eauto. }
  assert (Hout : forall fd st, seats L !! fd = Some st -> s_room st = id ->
    S !! fd = Some (seat_phase p st)).
  { intros fd st H Hr. unfold S. rewrite phase_all_lookup, decide_True, H; [done|].
    apply (tc_members _ _ _ Hcore). eauto. }
  assert (Hoth : forall i, i <> id -> forall fd st, s_room st = i ->
    seats L !! fd = Some st <-> S !! fd = Some st).
  { intros i Hne fd st Hr. unfold S. rewrite phase_all_lookup. case_decide as Hm; [|done].
    apply (tc_members _ _ _ Hcore) in Hm as (st0 & H & Hr0). rewrite H. simpl.
    split; intros [= <-]; simpl in Hr; congruence. }
  split; [|split].
  - split_and!; simpl.
    + intros i t'. destruct (decide (i = id)) as [->|Hne].
      2: { rewrite lookup_insert_ne by done. intros Hi. exact (table_core_ext (seats L) S i t' (Hoth i Hne) (Hc i t' Hi)). }
      rewrite lookup_insert_eq. intros [= <-]. destruct Hcore. split; simpl; try done.
      * intros fd. rewrite tc_members0. split.
        -- intros (st & H & Hr). exists (seat_phase p st). split; [by apply Hout|done].
        -- intros (st & H & Hr). destruct (Hin fd st H Hr) as (st0 & ? & ? & _). eauto.
      * intros fd st H Hr. destruct (Hin fd st H Hr) as (st0 & H0 & Hr0 & ->). exact (tc_players0 fd st0 H0 Hr0).
      * intros fd fd' st st' H H' Hr Hr' Heq. destruct (Hin fd st H Hr) as (st0 & ? & ? & ->),
          (Hin fd' st' H' Hr') as (st0' & ? & ? & ->). by eapply (tc_distinct0 fd fd' st0 st0').
      * intros fd fd' st st' H H' Hr Hr' Heq Heq'. destruct (Hin fd st H Hr) as (st0 & ? & ? & ->),
          (Hin fd' st' H' Hr') as (st0' & ? & ? & ->). by eapply (tc_owner0 fd fd' st0 st0').
      * intros fd st H Hr. destruct (Hin fd st H Hr) as (st0 & ? & ? & ->). by right.
    + intros fd st H. unfold S in H. rewrite phase_all_lookup in H.
      assert (exists st0, seats L !! fd = Some st0 /\ s_room st0 = s_room st /\ (st0 = st \/ s_room st = id))
        as (st0 & H0 & Hr & Hor).
      { case_decide as Hm; [|by exists st; auto].
        apply (tc_members _ _ _ Hcore) in Hm as (st1 & H1 & Hr1). rewrite H1 in H.
        simplify_eq/=. exists st1. auto. }
      pose proof (tc_id _ _ _ Hcore).
      destruct (Hs fd st0 H0) as [? Hor2]. split; [done|].
      destruct (decide (s_room st = id)) as [Heq|Hne].
      { right. by rewrite Heq, lookup_insert_eq. }
      destruct Hor as [->|]; [|done]. by rewrite lookup_insert_ne by done.
    + intros i t' Hi Hne. rewrite lookup_insert_ne in Hi by done. destruct (Ho i t' Hi Hne). split.
      * eapply has_owner_ext; [|done]. intros. by apply (Hoth i Hne).
      * eapply has_player_ext; [|done]. intros. by apply (Hoth i Hne).
  - intros (fd & st & H & Hr & Hown). exists fd, (seat_phase p st). split; [by apply Hout|done].
  - intros fd st H Hr. by destruct (Hin fd st H Hr) as (st0 & ? & ? & ->).
Qed.

Lemma lobby_but_ok id L :
  lobby_but id L ->
  (forall t, tables L !! id = Some t -> has_owner (seats L) id /\ has_player (seats L) id t) ->
  lobby_ok L.
Proof.
  intros (Hc & Hs & Ho) Hid. split_and!; try done. intros i t Hi.
  destruct (decide (i = id)) as [->|]; [by apply Hid|by apply Ho].
Qed.

(** Checking for the end of the round repairs a round nobody is left to end. *)
Lemma l_round_end_ok id L :
  lobby_but id L -> (forall t, tables L !! id = Some t -> has_owner (seats L) id) ->
  lobby_ok (l_round_end id L).
Proof.
  intros Hbut Hown. unfold l_round_end. destruct (tables L !! id) as [t|] eqn:Ht.
  2: { apply (lobby_but_ok id); [done|]. intros t. by rewrite Ht. }
  specialize (Hown t eq_refl). destruct (_ && _) eqn:Hb.
  - destruct (phase_all_but SESSION_WAITING id t L Hbut Ht) as (H1 & H2 & _); [by left|].
    apply (lobby_but_ok id); [done|]. simpl. intros t'. rewrite lookup_insert_eq. intros [= <-].
    split; [by apply H2|]. by unfold has_player.
  - apply (lobby_but_ok id); [done|]. intros t'. rewrite Ht. intros [= <-]. split; [done|].
    intros Hplay. rewrite (bool_decide_true _ Hplay) in Hb. simpl in Hb.
    destruct Hbut as (Hc & _). specialize (Hc id t Ht).
    apply forallb_false_elem in Hb as (fd & Hfd & Hph).
    apply (tc_members _ _ _ Hc) in Hfd as (st & Hst & Hr). rewrite Hst in Hph.
    apply bool_decide_eq_false in Hph. exists fd, st. split_and!; [done..|].
    destruct (tc_phases _ _ _ Hc fd st Hst Hr) as [|Heq]; [done|congruence].
Qed.

(** Changing a member's role or phase in place. *)
Section reseat.
Context (S : gmap Z Seat) (id : Z) (t : Table) (fd : Z) (st new : Seat).
Context (Hst : S !! fd = Some st) (Hr : s_room st = id) (Hrn : s_room new = id).
Context (Hp : s_player new = s_player st).

Lemma reseat_in f sf : <[fd := new]> S !! f = Some sf -> s_room sf = id ->
  exists sf0, S !! f = Some sf0 /\ s_room sf0 = id /\ s_player sf0 = s_player sf /\
    ((f = fd /\ sf = new) \/ sf = sf0).
Proof using All.
  intros Hf He. destruct (decide (f = fd)) as [->|Hne].
  - rewrite lookup_insert_eq in Hf. simplify_eq. exists st. split_and!; auto.
  - rewrite lookup_insert_ne in Hf by done. exists sf. split_and!; auto.
Qed.

Lemma reseat_core :
  table_core S id t -> phase_agrees (t_phase t) (s_phase new) ->
  (s_owner new = true -> s_owner st = true \/
     forall f sf, S !! f = Some sf -> s_room sf = id -> s_owner sf = false) ->
  table_core (<[fd := new]> S) id t.
Proof using All.
  intros [] Hph Hown. split; try done.
  - intros f. rewrite tc_members0. split; intros (sf & Hf & He).
    + destruct (decide (f = fd)) as [->|]; [exists new; by rewrite lookup_insert_eq|].
      exists sf. by rewrite lookup_insert_ne.
    + destruct (reseat_in f sf Hf He) as (sf0 & ? & ? & _). eauto.
  - intros f sf Hf He. destruct (reseat_in f sf Hf He) as (sf0 & H0 & Hr0 & <- & _).
    exact (tc_players0 f sf0 H0 Hr0).
  - intros f f' sf sf' Hf Hf' He He' Hq. destruct (reseat_in f sf Hf He) as (sf0 & ? & ? & ? & _),
      (reseat_in f' sf' Hf' He') as (sf0' & ? & ? & ? & _). apply (tc_distinct0 f f' sf0 sf0'); congruence.
  - assert (Hmain : forall f sf0, S !! f = Some sf0 -> s_room sf0 = id -> s_owner sf0 = true ->
      s_owner new = true -> f = fd).
    { intros f sf0 H0 Hr0 Ho0 [Ho|Hno]%Hown; [by apply (tc_owner0 f fd sf0 st)|].
      by rewrite (Hno f sf0 H0 Hr0) in Ho0. }
    intros f f' sf sf' Hf Hf' He He' Hq Hq'.
    destruct (reseat_in f sf Hf He) as (sf0 & H0 & ? & _ & [[-> ->]| ->]),
      (reseat_in f' sf' Hf' He') as (sf0' & H0' & ? & _ & [[-> ->]| ->]); eauto.
    symmetry. eauto.
  - intros f sf Hf He. destruct (reseat_in f sf Hf He) as (sf0 & H0 & ? & _ & [[-> ->]| ->]); [done|].
    by apply (tc_phases0 f sf0).
Qed.
End reseat.

Lemma reseat_but id t L fd st new :
  lobby_but id L -> tables L !! id = Some t ->
  seats L !! fd = Some st -> s_room st = id -> s_room new = id -> s_player new = s_player st ->
  phase_agrees (t_phase t) (s_phase new) ->
  (s_owner new = true -> s_owner st = true \/
     forall f sf, seats L !! f = Some sf -> s_room sf = id -> s_owner sf = false) ->
  lobby_but id (mkLobby (<[fd := new]> (seats L)) (tables L)).
Proof.
  intros (Hc & Hs & Ho) Ht Hst Hr Hrn Hp Hph Hown.
  assert (Hoth : forall i, i <> id -> forall f sf, s_room sf = i ->
    seats L !! f = Some sf <-> <[fd := new]> (seats L) !! f = Some sf).
  { intros i Hi. eapply seat_insert_other; [done|congruence|congruence]. }
  pose proof (tc_id _ _ _ (Hc id t Ht)) as Hid.
  split_and!; simpl.
  - intros i t' Hi. destruct (decide (i = id)) as [->|Hne].
    2: { exact (table_core_ext _ _ i t' (Hoth i Hne) (Hc i t' Hi)). }
    assert (t' = t) as -> by congruence. eapply reseat_core; eauto.
  - intros f sf Hf. destruct (decide (f = fd)) as [->|Hne].
    + rewrite lookup_insert_eq in Hf. simplify_eq. split; [by eapply Hs|right].
      by rewrite Hrn, Ht.
    + rewrite lookup_insert_ne in Hf by done. by apply Hs.
  - intros i t' Hi Hne. destruct (Ho i t' Hi Hne). split.
    + eapply has_owner_ext; [|done]. intros. by apply (Hoth i Hne).
    + eapply has_player_ext; [|done]. intros. by apply (Hoth i Hne).
Qed.

Lemma alter_is_insert (f : Seat -> Seat) (S : gmap Z Seat) (fd : Z) st :
  S !! fd = Some st -> alter f fd S = <[fd := f st]> S.
Proof.
  intros H. apply map_eq. intros k. destruct (decide (k = fd)) as [->|].
  - by rewrite lookup_alter_eq, lookup_insert_eq, H.
  - by rewrite lookup_alter_ne, lookup_insert_ne.
Qed.

(** Promoting the first member of a room that lost its owner. *)
Lemma l_promote_ok id t L :
  lobby_but id L -> tables L !! id = Some t -> t_live t <> [] ->
  (forall fd st, seats L !! fd = Some st -> s_room st = id -> s_owner st = false) ->
  lobby_but id (l_promote id L) /\ has_owner (seats (l_promote id L)) id.
Proof.
  intros Hbut Ht Hne Hno. unfold l_promote. rewrite Ht. pose proof Hbut as (Hc & _ & _).
  destruct (t_live t) as [|o fds] eqn:El; [done|]. simpl.
  destruct (proj1 (tc_members _ _ _ (Hc id t Ht) o)) as (so & Hso & Hro).
  { rewrite El. apply elem_of_cons. by left. }
  rewrite (alter_is_insert _ _ _ so Hso). split.
  - eapply (reseat_but id t L o so); simpl; auto. by apply (Hc id t Ht) with o.
  - exists o, (seat_owner so). by rewrite lookup_insert_eq.
Qed.

(** What the seats may become when [fd] gets up: nothing else moves, and [fd] is
    gone or idle. *)
Definition seat_vacated (fd : Z) (S S' : gmap Z Seat) : Prop :=
  (forall f, f <> fd -> S' !! f = S !! f) /\ (forall st, S' !! fd = Some st -> st = idle_seat).

Lemma vacated_idle fd S : seat_vacated fd S (<[fd := idle_seat]> S).
Proof.
  split; [intros f Hf; by rewrite lookup_insert_ne|]. intros st. rewrite lookup_insert_eq. congruence.
Qed.

Lemma vacated_gone fd S : seat_vacated fd S (delete fd S).
Proof.
  split; [intros f Hf; by rewrite lookup_delete_ne|]. intros st. by rewrite lookup_delete_eq.
Qed.

Section depart.
Context (L : Lobby) (HL : lobby_ok L) (fd : Z) (st : Seat) (t : Table).
Context (Hst : seats L !! fd = Some st) (Ht : tables L !! s_room st = Some t).
Context (S' : gmap Z Seat) (Hv : seat_vacated fd (seats L) S').

Lemma depart_core : table_core (seats L) (s_room st) t.
Proof using All. by apply HL. Qed.

Lemma depart_room f sf i : 0 < i -> S' !! f = Some sf -> s_room sf = i -> f <> fd /\ seats L !! f = Some sf.
Proof using All.
  intros Hi Hf Hr. destruct Hv as [Hv1 Hv2]. destruct (decide (f = fd)) as [->|Hne].
  - apply Hv2 in Hf as ->. simpl in Hr. unfold ROOM_NONE in Hr. lia.
  - by rewrite <- Hv1.
Qed.

Lemma depart_other i : 0 < i -> i <> s_room st ->
  forall f sf, s_room sf = i -> seats L !! f = Some sf <-> S' !! f = Some sf.
Proof using All.
  intros Hi Hne f sf Hr. split.
  - intros Hf. destruct Hv as [Hv1 _]. rewrite Hv1; [done|]. intros ->. congruence.
  - intros Hf. by destruct (depart_room f sf i Hi Hf Hr).
Qed.

Lemma depart_members f :
  f ∈ swap_remove fd (t_live t) <-> exists sf, S' !! f = Some sf /\ s_room sf = s_room st.
Proof using All.
  pose proof depart_core as Hc. pose proof (tc_id _ _ _ Hc) as Hid.
  assert (Hin : fd ∈ t_live t) by (apply (tc_members _ _ _ Hc); eauto).
  destruct (swap_remove_spec fd (t_live t) (tc_nodup _ _ _ Hc) Hin) as [_ ->].
  rewrite (tc_members _ _ _ Hc). destruct Hv as [Hv1 _]. split.
  - intros [(sf & Hf & Hr) Hne]. exists sf. by rewrite Hv1.
  - intros (sf & Hf & Hr). destruct (depart_room f sf _ Hid Hf Hr). eauto.
Qed.

Lemma depart_but :
  lobby_but (s_room st) (mkLobby S'
    (<[s_room st := mkTable (swap_remove fd (t_live t)) (t_next t) (t_phase t)]> (tables L))).
Proof using All.
  pose proof depart_core as Hc. pose proof (tc_id _ _ _ Hc) as Hid.
  destruct HL as (Hcs & Hs & Ho). split_and!; simpl.
  - intros i t'. destruct (decide (i = s_room st)) as [->|Hne].
    2: { rewrite lookup_insert_ne by done. intros Hi. specialize (Hcs i t' Hi).
         exact (table_core_ext _ _ i t' (depart_other i (tc_id _ _ _ Hcs) Hne) Hcs). }
    rewrite lookup_insert_eq. intros [= <-].
    assert (Hr : forall f sf, S' !! f = Some sf -> s_room sf = s_room st -> seats L !! f = Some sf)
      by (intros; by eapply depart_room).
    assert (Hin : fd ∈ t_live t) by (apply (tc_members _ _ _ Hc); eauto).
    destruct Hc. split; simpl; try done.
    + by apply swap_remove_spec.
    + apply depart_members.
    + intros f sf Hf He. apply (tc_players0 f sf); auto.
    + intros f f' sf sf' Hf Hf' He He'. apply tc_distinct0; auto.
    + intros f f' sf sf' Hf Hf' He He'. apply tc_owner0; auto.
    + intros f sf Hf He. apply (tc_phases0 f sf); auto.
  - intros f sf Hf. destruct Hv as [Hv1 Hv2]. destruct (decide (f = fd)) as [->|Hne].
    + apply Hv2 in Hf as ->. split; [by eapply Hs|by left].
    + rewrite Hv1 in Hf by done. destruct (Hs f sf Hf) as [? [?|?]]; (split; [done|]); [by left|right].
      destruct (decide (s_room sf = s_room st)) as [->|];
        [by rewrite lookup_insert_eq|by rewrite lookup_insert_ne].
  - intros i t' Hi Hne. rewrite lookup_insert_ne in Hi by done.
    pose proof (tc_id _ _ _ (Hcs i t' Hi)) as Hip. destruct (Ho i t' Hi) as [Ha Hb]. split.
    + eapply has_owner_ext; [|done]. intros. by apply (depart_other i Hip Hne).
    + eapply has_player_ext; [|done]. intros. by apply (depart_other i Hip Hne).
Qed.
End depart.

(** Getting up from a room leaves every room in order. *)
Lemma l_depart_ok fd st S' L :
  lobby_ok L -> seats L !! fd = Some st ->
  seat_vacated fd (seats L) S' -> lobby_ok (l_depart fd st S' L).
Proof.
  intros HL Hst Hv. unfold l_depart.
  pose proof HL as (Hcs & Hs & Ho).
  destruct (Hs fd st Hst) as [Hfd Hseat]. destruct (tables L !! s_room st) as [t|] eqn:Ht.
  2: { destruct Hseat as [Hneg|[t Ht']]; [|congruence]. destruct Hv as [Hv1 Hv2].
       apply (outside_ok fd); [done..| |done|].
       - intros st'. rewrite Hst. by intros [= <-].
       - intros st' ->%Hv2. done. }
  pose proof (Hcs _ t Ht) as Hc. pose proof (tc_id _ _ _ Hc) as Hid.
  assert (Hin : fd ∈ t_live t) by (apply (tc_members _ _ _ Hc); eauto).
  pose proof (depart_but L HL fd st t Hst Ht S' Hv) as Hbut.
  pose proof (depart_members L HL fd st t Hst Ht S' Hv) as Hmem.
  pose proof (depart_room L HL fd st t Hst Ht S' Hv) as Hroom.
  case_bool_decide as Hemp.
  - rewrite Hemp in *. destruct Hbut as (Hc' & Hs' & Ho'). simpl in *.
    assert (Hnone : forall f sf, S' !! f = Some sf -> s_room sf <> s_room st).
    { intros f sf Hf He. assert (f ∈ []) as ?%elem_of_nil by (apply Hmem; eauto). done. }
    split_and!; simpl.
    + intros i t' [Hne Hi]%lookup_delete_Some. apply Hc'. by rewrite lookup_insert_ne.
    + intros f sf Hf. destruct (Hs' f sf Hf) as [? [?|He]]; (split; [done|]); [by left|right].
      pose proof (Hnone f sf Hf). rewrite lookup_insert_ne in He by done. by rewrite lookup_delete_ne.
    + intros i t' [Hne Hi]%lookup_delete_Some. apply Ho'; [by rewrite lookup_insert_ne|done].
  - set (L' := mkLobby S' _) in *. fold L'.
    assert (Hprom : s_owner st = true ->
      lobby_but (s_room st) (l_promote (s_room st) L') /\
      has_owner (seats (l_promote (s_room st) L')) (s_room st)).
    { intros Hown. eapply l_promote_ok; [done|apply lookup_insert_eq|done|].
      intros f sf Hf He. destruct (Hroom f sf _ Hid Hf He) as [Hne Hf'].
      destruct (s_owner sf) eqn:Hof; [|done]. destruct Hne.
      by eapply (tc_owner _ _ _ Hc f fd sf st). }
    unfold l_settle. apply l_round_end_ok; [|intros _ _];
      (destruct (s_owner st) eqn:Hown; [by apply Hprom|]); [done|].
    destruct (Ho _ t Ht) as [(f & sf & Hf & He & Hof) _]. exists f, sf.
    split; [|done]. destruct Hv as [Hv1 _]. unfold L'. simpl. rewrite Hv1; [done|].
    intros ->. congruence.
Qed.

Lemma l_leave_ok fd L : lobby_ok L -> lobby_ok (l_leave fd L).
Proof.
  intros HL. unfold l_leave. destruct (seats L !! fd) as [st|] eqn:E; [|done].
  case_match eqn:Hr; [done|]. bool_arith. apply l_depart_ok; auto using vacated_idle.
Qed.

Lemma l_close_ok fd L : lobby_ok L -> lobby_ok (l_close fd L).
Proof.
  intros HL. unfold l_close. destruct (seats L !! fd) as [st|] eqn:E; [|done].
  case_match eqn:Hr; bool_arith; [|apply l_depart_ok; auto using vacated_gone].
  pose proof HL as (_ & Hs & _). destruct (Hs fd st E) as [Hfd _]. apply (outside_ok fd); [done..| | |].
  - intros st'. rewrite E. intros [= <-]. by rewrite Hr.
  - intros f Hne. by rewrite lookup_delete_ne.
  - intros st'. by rewrite lookup_delete_eq.
Qed.

Lemma l_start_ok id L : lobby_ok L -> lobby_ok (l_start id L).
Proof.
  intros HL. unfold l_start. destruct (tables L !! id) as [t|] eqn:Ht; [|done].
  pose proof HL as (_ & _ & Ho). destruct (Ho id t Ht) as [Hown _].
  destruct (phase_all_but SESSION_PLAYING id t L (lobby_ok_but id L HL) Ht) as (H1 & H2 & H3); [by right|].
  apply (lobby_but_ok id); [done|]. simpl. intros t'. rewrite lookup_insert_eq. intros [= <-].
  specialize (H2 Hown). split; [done|]. intros _. destruct H2 as (fd & st & Hf & Hr & _).
  exists fd, st. split_and!; [done..|]. by eapply H3.
Qed.

Lemma l_gameover_ok fd L : lobby_ok L -> lobby_ok (l_gameover fd L).
Proof.
  intros HL. unfold l_gameover. destruct (seats L !! fd) as [st|] eqn:E; [|done].
  case_match eqn:Hr; [done|]. bool_arith. pose proof HL as (Hc & Hs & Ho).
  rewrite (alter_is_insert _ _ _ st E). destruct (Hs fd st E) as [Hfd Hseat].
  destruct (tables L !! s_room st) as [t|] eqn:Ht.
  2: { destruct Hseat as [Hneg|[t Ht']]; [|congruence]. unfold l_round_end. cbn [tables]. rewrite Ht.
       apply outside_insert_ok; [done..| |done]. intros st'. rewrite E. by intros [= <-]. }
  apply l_round_end_ok.
  - eapply (reseat_but _ t L fd st); simpl; auto using lobby_ok_but. by left.
  - intros t' _. destruct (Ho _ t Ht) as [(f & sf & Hf & He & Hw) _]. simpl.
    destruct (decide (f = fd)) as [->|Hne].
    + simplify_eq. exists fd, (seat_phase SESSION_GAME_OVER st). by rewrite lookup_insert_eq.
    + exists f, sf. by rewrite lookup_insert_ne.
Qed.

(** ** Dropping a connection and settling its old room commute *)

Definition drop_seat (fd : Z) (L : Lobby) : Lobby := mkLobby (delete fd (seats L)) (tables L).

Lemma phase_all_delete p fds fd S : fd ∉ fds -> phase_all p fds (delete fd S) = delete fd (phase_all p fds S).
Proof.
  intros Hni. apply map_eq. intros k. rewrite phase_all_lookup.
  destruct (decide (k = fd)) as [->|Hne].
  - rewrite !lookup_delete_eq. by case_decide.
  - by rewrite !lookup_delete_ne, phase_all_lookup.
Qed.

Lemma all_over_delete fds fd S : fd ∉ fds -> all_over (delete fd S) fds = all_over S fds.
Proof.
  intros Hni. apply eq_true_iff_eq. rewrite !all_over_spec.
  split; intros H f st Hf Hst; apply (H f st Hf); destruct (decide (f = fd)) as [->|]; try done.
  - by rewrite lookup_delete_ne.
  - by rewrite lookup_delete_ne in Hst.
Qed.

Lemma l_round_end_drop id fd t L :
  tables L !! id = Some t -> fd ∉ t_live t ->
  l_round_end id (drop_seat fd L) = drop_seat fd (l_round_end id L).
Proof.
  intros Ht Hni. unfold l_round_end, drop_seat. simpl. rewrite Ht, all_over_delete by done.
  destruct (_ && _); simpl; [|done]. by rewrite phase_all_delete.
Qed.

Lemma l_settle_drop id w fd t L :
  tables L !! id = Some t -> fd ∉ t_live t -> t_live t <> [] ->
  l_settle id w (drop_seat fd L) = drop_seat fd (l_settle id w L).
Proof.
  intros Ht Hni Hne. unfold l_settle. destruct w; [|by eapply l_round_end_drop].
  assert (l_promote id (drop_seat fd L) = drop_seat fd (l_promote id L)) as ->.
  { unfold l_promote, drop_seat. simpl. rewrite Ht. simpl. f_equal.
    destruct (t_live t) as [|o fds]; [done|]. simpl.
    apply map_eq. intros k. destruct (decide (k = fd)) as [->|].
    - assert (fd <> o) by (intros ->; apply Hni, elem_of_cons; by left).
      rewrite lookup_alter_ne, !lookup_delete_eq by done. done.
    - rewrite lookup_delete_ne by done. destruct (decide (k = o)) as [->|].
      + by rewrite !lookup_alter_eq, lookup_delete_ne.
      + by rewrite !lookup_alter_ne, lookup_delete_ne. }
  apply (l_round_end_drop _ _ t); [|done]. unfold l_promote. by rewrite Ht.
Qed.
