(* ===== verification/Room.v ===== *)
(** * Room: the admin thread's table of rooms and its message routing

    Models tetriSH/src/tetrisd/room.c.  A [Client *] or [Room *] is the index of
    its slot; the tables, the send queue's outcome and the random source are one
    state record threaded through the handlers.  Two things come from outside:
    the status each [adminmsg_write] call ends with (a function of what was sent
    before) and the values [rand] yields. *)

From stdpp Require Import pretty options.
From S2P Require Import Prelude Piece AdminMsg.

(** ** Data *)

Definition set_phase (v : SessionPhase) (s : SessionState) : SessionState :=
  mkSession v (room_id s) (player_id s) (is_owner s) (roster s) (roster_count s).
Definition set_room_id (v : Z) (s : SessionState) : SessionState := mkSession (phase
  s) v (player_id s) (is_owner s) (roster s) (roster_count s).
Definition set_player_id (v : Z) (s : SessionState) : SessionState := mkSession
  (phase s) (room_id s) v (is_owner s) (roster s) (roster_count s).
Definition set_is_owner (v : bool) (s : SessionState) : SessionState := mkSession
  (phase s) (room_id s) (player_id s) v (roster s) (roster_count s).
Definition set_roster (v : list RoomMember) (s : SessionState) : SessionState :=
  mkSession (phase s) (room_id s) (player_id s) (is_owner s) v (roster_count s).
Definition set_roster_count (v : Z) (s : SessionState) : SessionState := mkSession
  (phase s) (room_id s) (player_id s) (is_owner s) (roster s) v.

Record Client := mkClient {
  c_fd : Z;
  c_pid : Z;
  c_state : SessionState;
  c_score : Z;
  c_lines : Z;
  c_name : string
}.

Definition set_c_fd (v : Z) (c : Client) : Client := mkClient v (c_pid c) (c_state
  c) (c_score c) (c_lines c) (c_name c).
Definition set_c_pid (v : Z) (c : Client) : Client := mkClient (c_fd c) v (c_state
  c) (c_score c) (c_lines c) (c_name c).
Definition set_c_state (v : SessionState) (c : Client) : Client := mkClient (c_fd c)
  (c_pid c) v (c_score c) (c_lines c) (c_name c).
Definition set_c_score (v : Z) (c : Client) : Client := mkClient (c_fd c) (c_pid c)
  (c_state c) v (c_lines c) (c_name c).
Definition set_c_lines (v : Z) (c : Client) : Client := mkClient (c_fd c) (c_pid c)
  (c_state c) (c_score c) v (c_name c).
Definition set_c_name (v : string) (c : Client) : Client := mkClient (c_fd c) (c_pid
  c) (c_state c) (c_score c) (c_lines c) v.

(** Setting a field of the embedded [SessionState]. *)
Definition upd_state (f : SessionState -> SessionState) (c : Client) : Client :=
  set_c_state (f (c_state c)) c.

Record Room := mkRoom {
  r_id : Z;
  r_phase : SessionPhase;
  r_seed : Z;
  next_player_id : Z;
  members : list Z;
  count : Z;
  standings_dirty : bool;
  have_standings : bool;
  last_standings : AdminMsg
}.

Definition set_r_id (v : Z) (r : Room) : Room := mkRoom v (r_phase r) (r_seed r)
  (next_player_id r) (members r) (count r) (standings_dirty r) (have_standings r)
  (last_standings r).
Definition set_r_phase (v : SessionPhase) (r : Room) : Room := mkRoom (r_id r) v
  (r_seed r) (next_player_id r) (members r) (count r) (standings_dirty r)
  (have_standings r) (last_standings r).
Definition set_r_seed (v : Z) (r : Room) : Room := mkRoom (r_id r) (r_phase r) v
  (next_player_id r) (members r) (count r) (standings_dirty r) (have_standings r)
  (last_standings r).
Definition set_next_player_id (v : Z) (r : Room) : Room := mkRoom (r_id r) (r_phase
  r) (r_seed r) v (members r) (count r) (standings_dirty r) (have_standings r)
  (last_standings r).
Definition set_members (v : list Z) (r : Room) : Room := mkRoom (r_id r) (r_phase r)
  (r_seed r) (next_player_id r) v (count r) (standings_dirty r) (have_standings r)
  (last_standings r).
Definition set_count (v : Z) (r : Room) : Room := mkRoom (r_id r) (r_phase r)
  (r_seed r) (next_player_id r) (members r) v (standings_dirty r) (have_standings r)
  (last_standings r).
Definition set_standings_dirty (v : bool) (r : Room) : Room := mkRoom (r_id r)
  (r_phase r) (r_seed r) (next_player_id r) (members r) (count r) v (have_standings
  r) (last_standings r).
Definition set_have_standings (v : bool) (r : Room) : Room := mkRoom (r_id r)
  (r_phase r) (r_seed r) (next_player_id r) (members r) (count r) (standings_dirty
  r) v (last_standings r).
Definition set_last_standings (v : AdminMsg) (r : Room) : Room := mkRoom (r_id r)
  (r_phase r) (r_seed r) (next_player_id r) (members r) (count r) (standings_dirty
  r) (have_standings r) v.

(** What has been handed to [adminmsg_write], in order, and the queue of
    sessions whose socketpair was full. *)
Record Net := mkNet { sent : list (Z * AdminMsg); g_wedged : list Z }.

Record Admin := mkAdmin {
  g_clients : list Client;
  g_rooms : list Room;
  g_inited : bool;
  g_seeded : bool;
  g_rand : nat;
  g_net : Net
}.

Definition set_g_clients (v : list Client) (s : Admin) : Admin := mkAdmin v (g_rooms
  s) (g_inited s) (g_seeded s) (g_rand s) (g_net s).
Definition set_g_rooms (v : list Room) (s : Admin) : Admin := mkAdmin (g_clients s)
  v (g_inited s) (g_seeded s) (g_rand s) (g_net s).
Definition set_g_inited (v : bool) (s : Admin) : Admin := mkAdmin (g_clients s)
  (g_rooms s) v (g_seeded s) (g_rand s) (g_net s).
Definition set_g_seeded (v : bool) (s : Admin) : Admin := mkAdmin (g_clients s)
  (g_rooms s) (g_inited s) v (g_rand s) (g_net s).
Definition set_g_rand (v : nat) (s : Admin) : Admin := mkAdmin (g_clients s)
  (g_rooms s) (g_inited s) (g_seeded s) v (g_net s).
Definition set_g_net (v : Net) (s : Admin) : Admin := mkAdmin (g_clients s) (g_rooms
  s) (g_inited s) (g_seeded s) (g_rand s) v.

(** The static arrays before [ensure_init]. *)
Definition zero_client : Client := mkClient 0 0 zero_session 0 0 EmptyString.
Definition zero_room : Room :=
  mkRoom 0 SESSION_NONE 0 0 (replicate (Z.to_nat MAX_ROOM_MEMBERS) 0) 0 false false
    (zero_msg ADMIN_JOIN).
Definition static_admin : Admin :=
  mkAdmin (replicate (Z.to_nat MAX_SESSIONS) zero_client)
    (replicate (Z.to_nat MAX_ROOMS) zero_room) false false 0 (mkNet [] []).

(** Writes through a [Client *] or [Room *]. *)
Definition upd_client (ci : nat) (f : Client -> Client) (s : Admin) : Admin :=
  set_g_clients (alter f ci (g_clients s)) s.
Definition upd_room (ri : nat) (f : Room -> Room) (s : Admin) : Admin :=
  set_g_rooms (alter f ri (g_rooms s)) s.
Definition client_at (s : Admin) (ci : nat) : Client := default zero_client (g_clients s !! ci).
Definition room_at (s : Admin) (ri : nat) : Room := default zero_room (g_rooms s !! ri).

(** ** Setup *)

Definition ensure_init (s : Admin) : Admin :=
  if g_inited s then s
  else
    let s := set_g_clients (set_c_fd (-1) <$> g_clients s) s in
    let s := set_g_rooms ((fun r => set_count 0 (set_r_id 0 r)) <$> g_rooms s) s in
    set_g_inited true s.

(** ** Lookups *)

Definition client_find (s : Admin) (fd : Z) : option nat :=
  fst <$> list_find (fun c => c_fd c = fd) (g_clients s).

Definition client_alloc (s : Admin) (fd pid : Z) : option nat * Admin :=
  match list_find (fun c => c_fd c < 0) (g_clients s) with
  | Some (ci, _) =>
      (Some ci,
       upd_client ci (fun c =>
         set_c_score 0 (upd_state (fun st =>
           set_is_owner false (set_player_id 0 (set_room_id ROOM_NONE
             (set_phase SESSION_IDLE st)))) (set_c_pid pid (set_c_fd fd c)))) s)
  | None => (None, s)
  end.

Definition room_find (s : Admin) (id : Z) : option nat :=
  if id <=? 0 then None else fst <$> list_find (fun r => r_id r = id) (g_rooms s).

(** [for (int cand = 1;; cand++) if (!room_find(cand)) ...], [fuel] candidates
    at most. *)
Fixpoint free_room_id (fuel : nat) (s : Admin) (cand : Z) : option Z :=
  match fuel with
  | O => None
  | S fuel => match room_find s cand with
              | None => Some cand
              | Some _ => free_room_id fuel s (cand + 1)
              end
  end.

(** One candidate more than there are slots: see [free_room_id_total]. *)
Definition free_id_fuel : nat := S (Z.to_nat MAX_ROOMS).

Definition room_create (s : Admin) (id : Z) : option (option nat * Admin) :=
  id ← (if id =? 0 then free_room_id free_id_fuel s 1 else Some id);
  Some
    match list_find (fun r => r_id r = 0) (g_rooms s) with
    | Some (ri, _) =>
        (Some ri,
         upd_room ri (fun r =>
           set_have_standings false (set_standings_dirty false (set_count 0
             (set_next_player_id 0 (set_r_seed 0 (set_r_phase SESSION_WAITING
               (set_r_id id r))))))) s)
    | None => (None, s)
    end.

(** ** Room membership *)

Definition room_add_member (r : Room) (fd : Z) : bool * Room :=
  if MAX_ROOM_MEMBERS <=? count r then (false, r)
  else (true, set_count (count r + 1) (set_members (aset (members r) (count r) fd) r)).

(** The members in use, [members[0 .. count-1]]. *)
Definition live (r : Room) : list Z := take (Z.to_nat (count r)) (members r).

Definition room_del_member (r : Room) (fd : Z) : Room :=
  match list_find (fun x => x = fd) (live r) with
  | Some (i, _) =>
      let r := set_count (count r - 1) r in
      set_members (aset (members r) (Z.of_nat i) (aget 0 (members r) (count r))) r
  | None => r
  end.

(** ** Bounded insertion

    The loop body shared by the roster and the scoreboard: [acc] is the array and
    how many entries are in use; the new entry goes after those that come before
    it, the tail moves down one and the last entry of a full array is dropped. *)

Fixpoint insert_pos {A} (before : A -> A -> bool) (l : list A) (x : A) : Z :=
  match l with
  | y :: l => if before y x then 1 + insert_pos before l x else 0
  | [] => 0
  end.

Definition bounded_insert {A} (before : A -> A -> bool) (acc : list A * Z) (x : A)
    : list A * Z :=
  let '(arr, n) := acc in
  let pos := insert_pos before (take (Z.to_nat n) arr) x in
  if MAX_STANDINGS <=? pos then (arr, n)
  else
    let last := if n <? MAX_STANDINGS then n else MAX_STANDINGS - 1 in
    let arr := foldl (fun arr k => aset arr k (aget x arr (k - 1))) arr
                 (reverse (seqZ (pos + 1) (last - pos))) in
    (aset arr pos x, if n <? MAX_STANDINGS then n + 1 else n).

(** ** Sending *)

Definition WEDGED_MAX : Z := 16.

Definition mark_wedged (n : Net) (fd : Z) : Net :=
  if bool_decide (fd ∈ g_wedged n) then n
  else if Z.of_nat (length (g_wedged n)) <? WEDGED_MAX
       then mkNet (sent n) (g_wedged n ++ [fd])
       else n.

Definition client_take_wedged (s : Admin) : Z * Admin :=
  match g_wedged (g_net s) with
  | [] => (-1, s)
  | fd :: rest => (fd, set_g_net (mkNet (sent (g_net s)) rest) s)
  end.

Section Admin.
(** The status the next [adminmsg_write] of a message to an fd ends with, after
    the writes so far. *)
Context (write_status : list (Z * AdminMsg) -> Z -> AdminMsg -> Z).
(** The values of successive [rand] calls. *)
Context (rand : nat -> Z).

(** The three calls taken left to right. *)
Definition gen_seed (s : Admin) : Z * Admin :=
  let s := set_g_seeded true s in
  let k := g_rand s in
  (Z.lxor (Z.lxor (u32 (Z.shiftl (u32 (rand k)) 17)) (u32 (Z.shiftl (u32 (rand (S k))) 2)))
     (u32 (rand (S (S k)))),
   set_g_rand (S (S (S k))) s).

Definition send_msg (n : Net) (fd : Z) (m : AdminMsg) : Net :=
  let status := write_status (sent n) fd m in
  let n := mkNet (sent n ++ [(fd, m)]) (g_wedged n) in
  if status =? ADMINMSG_WOULDBLOCK then mark_wedged n fd else n.

Definition send (s : Admin) (fd : Z) (m : AdminMsg) : Admin :=
  set_g_net (send_msg (g_net s) fd m) s.

Definition send_session_ex (s : Admin) (ci : nat) (created : bool) : Admin :=
  let c := client_at s ci in
  send s (c_fd c) (set_m_session (c_state c) created (zero_msg ADMIN_SESSION)).

Definition send_session (s : Admin) (ci : nat) : Admin := send_session_ex s ci false.

Definition send_reject (s : Admin) (ci : nat) (reason : Z) : Admin :=
  send s (c_fd (client_at s ci)) (set_m_reason reason (zero_msg ADMIN_REJECT)).

Definition room_broadcast (s : Admin) (ri : nat) (m : AdminMsg) : Admin :=
  foldl (fun s fd => send s fd m) s (live (room_at s ri)).

(** The row of the roster that describes a client. *)
Definition roster_row (c : Client) : RoomMember :=
  mkMember (player_id (c_state c)) (snprintf_s MAX_USER_NAME (c_name c)) (is_owner (c_state c)).

Definition roster_before (a b : RoomMember) : bool := rm_player_id a <? rm_player_id b.

Definition room_push_sessions_ex (s : Admin) (ri : nat) (creator_fd : Z) : Admin :=
  let r := room_at s ri in
  if (r_id r =? 0) || (count r =? 0) then s
  else
    let '(ros, n) :=
      foldl (fun acc fd =>
        match client_find s fd with
        | None => acc
        | Some ci => bounded_insert roster_before acc (roster_row (client_at s ci))
        end) (replicate (Z.to_nat MAX_STANDINGS) zero_member, 0) (live r) in
    foldl (fun s fd =>
      match client_find s fd with
      | None => s
      | Some ci =>
          let s := upd_client ci (upd_state (fun st =>
            set_roster_count n (set_roster (take (Z.to_nat n) ros ++
              drop (Z.to_nat n) (roster st)) st))) s in
          send_session_ex s ci (c_fd (client_at s ci) =? creator_fd)
      end) s (live r).

Definition room_push_sessions (s : Admin) (ri : nat) : Admin := room_push_sessions_ex s ri (-1).

(** ** Standings *)

Definition standing_ranks_before (a b : PlayerStanding) : bool :=
  if negb (st_score a =? st_score b) then st_score b <? st_score a
  else st_player_id a <? st_player_id b.

Definition standing_row (c : Client) : PlayerStanding :=
  mkStanding (player_id (c_state c)) (snprintf_s MAX_USER_NAME (c_name c)) (c_score c)
    (c_lines c) (bool_decide (phase (c_state c) = SESSION_GAME_OVER)).

(** The message room_push_standings assembles. *)
Definition standings_msg (s : Admin) (r : Room) : AdminMsg :=
  let '(st, n) :=
    foldl (fun acc fd =>
      match client_find s fd with
      | None => acc
      | Some ci => bounded_insert standing_ranks_before acc (standing_row (client_at s ci))
      end) (replicate (Z.to_nat MAX_STANDINGS) zero_standing, 0) (live r) in
  set_m_standings st n (zero_msg ADMIN_STANDINGS).

Definition room_push_standings (s : Admin) (ri : nat) : Admin :=
  let r := room_at s ri in
  if (r_id r =? 0) || (count r =? 0) then s
  else
    let m := standings_msg s r in
    if have_standings r && bool_decide (last_standings r = m) then s
    else
      let s := upd_room ri (fun r => set_have_standings true (set_last_standings m r)) s in
      room_broadcast s ri m.

Definition room_mark_standings_dirty (s : Admin) (ri : option nat) : Admin :=
  match ri with
  | Some ri => upd_room ri (set_standings_dirty true) s
  | None => s
  end.

Definition room_flush_updates (s : Admin) : Admin :=
  let s := ensure_init s in
  foldl (fun s i =>
    let ri := Z.to_nat i in
    if negb (standings_dirty (room_at s ri)) then s
    else
      let s := upd_room ri (set_standings_dirty false) s in
      if negb (r_id (room_at s ri) =? 0) then room_push_standings s ri else s)
    s (range MAX_ROOMS).

(** ** The end of a round *)

(** A loop over a room's members that writes through each [client_find]. *)
Definition for_members (f : Client -> Client) (s : Admin) (fds : list Z) : Admin :=
  foldl (fun s fd =>
    match client_find s fd with
    | None => s
    | Some ci => upd_client ci f s
    end) s fds.

(** The scan for the winner: [acc] is [(winner, best)]. *)
Definition winner_step (s : Admin) (acc : Z * Z) (fd : Z) : Z * Z :=
  let '(winner, best) := acc in
  match client_find s fd with
  | None => acc
  | Some ci =>
      let m := client_at s ci in
      if (best <? c_score m) ||
         ((c_score m =? best) && (player_id (c_state m) <? winner))
      then (player_id (c_state m), c_score m) else acc
  end.

Definition round_over (s : Admin) (r : Room) : bool :=
  forallb (fun fd =>
    match client_find s fd with
    | None => true
    | Some ci => bool_decide (phase (c_state (client_at s ci)) = SESSION_GAME_OVER)
    end) (live r).

Definition room_check_round_end (s : Admin) (ri : option nat) : bool * Admin :=
  match ri with
  | None => (false, s)
  | Some ri =>
      let r := room_at s ri in
      if negb (bool_decide (r_phase r = SESSION_PLAYING)) then (false, s)
      else if count r =? 0 then (false, s)
      else if negb (round_over s r) then (false, s)
      else
        let '(winner, best) := foldl (winner_step s) (-1, -1) (live r) in
        let s := upd_room ri (set_standings_dirty false) s in
        let s := room_push_standings s ri in
        let s := room_broadcast s ri (set_m_winner winner (zero_msg ADMIN_RESULT)) in
        let s := upd_room ri (set_r_phase SESSION_WAITING) s in
        let s := for_members (fun c =>
                   set_c_lines 0 (set_c_score 0 (upd_state (set_phase SESSION_WAITING) c)))
                   s (live r) in
        (true, s)
  end.

(** ** Operation handlers *)

Definition join_name (msg : AdminMsg) (player : Z) : string :=
  if bool_decide (m_name msg = EmptyString)
  then snprintf_s MAX_USER_NAME ("Player " +:+ pretty player)
  else snprintf_s MAX_USER_NAME (m_name msg).

(** The end of handle_join: [room] is the chosen room's slot with the client
    already among its members. *)
Definition join_room (s : Admin) (ri ci : nat) (room : Room) (msg : AdminMsg) (created : bool)
    : Admin :=
  let fd := c_fd (client_at s ci) in
  let s := upd_room ri (fun _ => room) s in
  let player := next_player_id room in
  let s := upd_room ri (set_next_player_id (player + 1)) s in
  let s := upd_client ci (upd_state (fun st =>
    set_phase SESSION_WAITING (set_is_owner (count room =? 1)
      (set_player_id player (set_room_id (r_id room) st))))) s in
  let s := upd_client ci (fun c =>
    set_c_lines 0 (set_c_score 0 (set_c_name (join_name msg player) c))) s in
  let s := room_push_sessions_ex s ri (if created then fd else -1) in
  let s := upd_room ri (set_have_standings false) s in
  room_mark_standings_dirty s (Some ri).

Definition handle_join (s : Admin) (ci : nat) (msg : AdminMsg) : option (Z * Admin) :=
  let c := client_at s ci in
  if negb (room_id (c_state c) =? ROOM_NONE)
  then Some (REJECT_CONFLICT, send_reject s ci REJECT_CONFLICT)
  else
    let want := m_room_id msg in
    let r := if want =? 0 then None else room_find s want in
    let created := bool_decide (r = None) in
    if match r with
       | Some ri => bool_decide (r_phase (room_at s ri) = SESSION_PLAYING)
       | None => false
       end
    then Some (REJECT_CONFLICT, send_reject s ci REJECT_CONFLICT)
    else
      '(r, s) ← (match r with Some ri => Some (Some ri, s) | None => room_create s want end);
      match r with
      | None => Some (REJECT_FULL, send_reject s ci REJECT_FULL)
      | Some ri =>
          let '(added, room) := room_add_member (room_at s ri) (c_fd c) in
          if negb added then Some (REJECT_FULL, send_reject s ci REJECT_FULL)
          else Some (0, join_room s ri ci room msg created)
      end.

(** What leaving and closing have in common once the member is out of a room
    that still has members: promote, end the round, tell the room. *)
Definition room_member_left (s : Admin) (ri : nat) (was_owner : bool) : Admin :=
  let s :=
    if was_owner then
      match client_find s (aget 0 (members (room_at s ri)) 0) with
      | Some o => upd_client o (upd_state (set_is_owner true)) s
      | None => s
      end
    else s in
  let '(round_ended, s) := room_check_round_end s (Some ri) in
  let s := room_push_sessions s ri in
  if negb round_ended then room_mark_standings_dirty s (Some ri) else s.

Definition handle_leave (s : Admin) (ci : nat) : Admin :=
  let c := client_at s ci in
  let was_owner := is_owner (c_state c) in
  if room_id (c_state c) =? ROOM_NONE then send_session s ci
  else
    let r := room_find s (room_id (c_state c)) in
    let s := match r with
             | Some ri => upd_room ri (fun r => room_del_member r (c_fd c)) s
             | None => s
             end in
    let s := upd_client ci (fun c =>
      set_c_score 0 (upd_state (fun st =>
        set_roster_count 0 (set_phase SESSION_IDLE (set_is_owner false (set_player_id 0
          (set_room_id ROOM_NONE st))))) c)) s in
    let s := send_session s ci in
    match r with
    | Some ri =>
        if count (room_at s ri) =? 0 then upd_room ri (set_r_id 0) s
        else room_member_left s ri was_owner
    | None => s
    end.

Definition handle_start (s : Admin) (ci : nat) : Z * Admin :=
  let c := client_at s ci in
  if room_id (c_state c) =? ROOM_NONE
  then (REJECT_CONFLICT, send_reject s ci REJECT_CONFLICT)
  else if negb (is_owner (c_state c))
  then (REJECT_NOT_OWNER, send_reject s ci REJECT_NOT_OWNER)
  else
    match room_find s (room_id (c_state c)) with
    | None => (REJECT_CONFLICT, send_reject s ci REJECT_CONFLICT)
    | Some ri =>
        if bool_decide (r_phase (room_at s ri) = SESSION_PLAYING)
        then (REJECT_CONFLICT, send_reject s ci REJECT_CONFLICT)
        else
          let '(sd, s) := gen_seed s in
          let s := upd_room ri (set_r_seed sd) s in
          let s := upd_room ri (set_r_phase SESSION_PLAYING) s in
          let s := for_members (upd_state (set_phase SESSION_PLAYING)) s
                     (live (room_at s ri)) in
          let s := room_broadcast s ri (set_m_seed (r_seed (room_at s ri)) (zero_msg ADMIN_SEED)) in
          (0, room_mark_standings_dirty s (Some ri))
    end.

(** The scan for a target: how many were eligible, the target and its score. *)
Definition target_step (s : Admin) (sender : Z) (acc : Z * Z * Z) (fd : Z) : Z * Z * Z :=
  let '(n, target, score_m) := acc in
  if fd =? sender then acc
  else
    match client_find s fd with
    | None => acc
    | Some ti =>
        let t := client_at s ti in
        if negb (bool_decide (phase (c_state t) = SESSION_PLAYING)) then acc
        else if (score_m =? -1) || (score_m <? c_score t)
             then (n + 1, fd, c_score t)
             else (n + 1, target, score_m)
    end.

Definition handle_garbage (s : Admin) (ci : nat) (msg : AdminMsg) : Admin :=
  let c := client_at s ci in
  if room_id (c_state c) =? ROOM_NONE then s
  else if m_lines msg <=? 0 then s
  else
    match room_find s (room_id (c_state c)) with
    | None => s
    | Some ri =>
        let '(n, target, _) :=
          foldl (target_step s (c_fd c)) (0, -1, -1) (live (room_at s ri)) in
        if n =? 0 then s
        else send s target (set_m_lines (m_lines msg) (zero_msg ADMIN_RECV_GARBAGE))
    end.

Definition handle_score (s : Admin) (ci : nat) (msg : AdminMsg) : Admin :=
  let c := client_at s ci in
  if room_id (c_state c) =? ROOM_NONE then s
  else if (c_score c =? m_score msg) && (c_lines c =? m_lines msg) then s
  else
    let s := upd_client ci (fun c => set_c_lines (m_lines msg) (set_c_score (m_score msg) c)) s in
    room_mark_standings_dirty s (room_find s (room_id (c_state c))).

Definition handle_gameover (s : Admin) (ci : nat) (msg : AdminMsg) : Admin :=
  let c := client_at s ci in
  if room_id (c_state c) =? ROOM_NONE then s
  else
    let s := upd_client ci (fun c =>
      set_c_score (m_score msg) (upd_state (set_phase SESSION_GAME_OVER) c)) s in
    let r := room_find s (room_id (c_state c)) in
    let s := room_mark_standings_dirty s r in
    (room_check_round_end s r).2.

(** ** Public API *)

Definition client_add (s : Admin) (fd pid : Z) : Admin :=
  let s := ensure_init s in
  match client_alloc s fd pid with
  | (Some _, s) => s
  | (None, s) => send s fd (set_m_reason REJECT_FULL (zero_msg ADMIN_REJECT))
  end.

Definition client_handle (s : Admin) (fd : Z) (msg : AdminMsg) : option Admin :=
  match client_find s fd with
  | None => Some s
  | Some ci =>
      match m_type msg with
      | ADMIN_JOIN => snd <$> handle_join s ci msg
      | ADMIN_LEAVE => Some (handle_leave s ci)
      | ADMIN_START => Some (handle_start s ci).2
      | ADMIN_GARBAGE => Some (handle_garbage s ci msg)
      | ADMIN_GAMEOVER => Some (handle_gameover s ci msg)
      | ADMIN_SCORE => Some (handle_score s ci msg)
      | _ => Some s
      end
  end.

Definition client_close (s : Admin) (fd : Z) : Admin :=
  match client_find s fd with
  | None => s
  | Some ci =>
      let c := client_at s ci in
      let was_owner := is_owner (c_state c) in
      let s :=
        if negb (room_id (c_state c) =? ROOM_NONE) then
          match room_find s (room_id (c_state c)) with
          | Some ri =>
              let s := upd_room ri (fun r => room_del_member r fd) s in
              if count (room_at s ri) =? 0 then upd_room ri (set_r_id 0) s
              else room_member_left s ri was_owner
          | None => s
          end
        else s in
      upd_client ci (set_c_fd (-1)) s
  end.
End Admin.

(** ** Read-only views *)

Definition client_count (s : Admin) : Z * Admin :=
  let s := ensure_init s in
  (Z.of_nat (length (filter (fun c => 0 <= c_fd c) (g_clients s))), s).

Definition room_count (s : Admin) : Z * Admin :=
  let s := ensure_init s in
  (Z.of_nat (length (filter (fun r => r_id r <> 0) (g_rooms s))), s).

Record RoomInfo := mkRoomInfo { ri_id : Z; ri_phase : Z; ri_members : Z; ri_owner_player : Z }.

Record PlayerInfo := mkPlayerInfo {
  pi_room : Z; pi_player : Z; pi_pid : Z; pi_is_owner : Z; pi_score : Z; pi_lines : Z;
  pi_name : string
}.

(** The inner loop of room_snapshot: the first member that is an owner. *)
Fixpoint owner_player (s : Admin) (fds : list Z) : Z :=
  match fds with
  | [] => -1
  | fd :: fds =>
      match client_find s fd with
      | Some ci =>
          if is_owner (c_state (client_at s ci)) then player_id (c_state (client_at s ci))
          else owner_player s fds
      | None => owner_player s fds
      end
  end.

Definition room_info (s : Admin) (r : Room) : RoomInfo :=
  mkRoomInfo (r_id r) (phase_code (r_phase r)) (count r) (owner_player s (live r)).

(** The entries written, at most [max] of them. *)
Definition room_snapshot (s : Admin) (max : Z) : list RoomInfo * Admin :=
  let s := ensure_init s in
  (take (Z.to_nat max) (room_info s <$> filter (fun r => r_id r <> 0) (g_rooms s)), s).

Definition player_info (c : Client) : PlayerInfo :=
  mkPlayerInfo (room_id (c_state c)) (player_id (c_state c)) (c_pid c)
    (if is_owner (c_state c) then 1 else 0) (c_score c) (c_lines c)
    (snprintf_s MAX_USER_NAME (c_name c)).

Definition player_snapshot (s : Admin) (max : Z) : list PlayerInfo * Admin :=
  let s := ensure_init s in
  (take (Z.to_nat max) (player_info <$> filter (fun c => 0 <= c_fd c) (g_clients s)), s).

Definition client_fd_by_player (s : Admin) (room player : Z) : Z * Admin :=
  let s := ensure_init s in
  (match list_find (fun c => 0 <= c_fd c /\ room_id (c_state c) = room /\
                             player_id (c_state c) = player) (g_clients s) with
   | Some (_, c) => c_fd c
   | None => -1
   end, s).

Definition client_pid_of (s : Admin) (fd : Z) : Z * Admin :=
  let s := ensure_init s in
  (match client_find s fd with Some ci => c_pid (client_at s ci) | None => -1 end, s).
