(* ===== verification/RoomInv.v ===== *)
(** * RoomInv: the room module implements the abstract lobby

    The slots of [Room] are read as the finite maps of [Lobby], and each handler
    of tetriSH/src/tetrisd/room.c is shown to perform the abstract operation it
    stands for; the lobby's invariant then holds of every state the admin thread
    can reach. *)

From stdpp Require Import options.
From S2P Require Import Prelude Piece AdminMsg Keyed Lobby Room.
#[local] Open Scope Z_scope.

(** ** The abstraction *)

Definition seat_of (c : Client) : Seat :=
  mkSeat (room_id (c_state c)) (player_id (c_state c)) (is_owner (c_state c)) (phase (c_state c)).

Definition table_of (r : Room) : Table := mkTable (live r) (next_player_id r) (r_phase r).

Definition fd_ok (z : Z) : Prop := 0 <= z.
(** A slot whose number is negative is in no table: [room_find] never returns it. *)
Definition id_ok (z : Z) : Prop := 0 < z.
#[global] Instance fd_ok_dec z : Decision (fd_ok z).
Proof. unfold fd_ok. apply _. Defined.
#[global] Instance id_ok_dec z : Decision (id_ok z).
Proof. unfold id_ok. apply _. Defined.

Definition abs (s : Admin) : Lobby :=
  mkLobby (slot_map c_fd fd_ok seat_of (g_clients s)) (slot_map r_id id_ok table_of (g_rooms s)).

(** The member array has its declared size and a count within it. *)
Definition room_shape (r : Room) : Prop :=
  length (members r) = Z.to_nat MAX_ROOM_MEMBERS /\ 0 <= count r <= MAX_ROOM_MEMBERS.

Record slots_ok (s : Admin) : Prop := {
  so_init : g_inited s = true;
  so_clients : length (g_clients s) = Z.to_nat MAX_SESSIONS;
  so_rooms : length (g_rooms s) = Z.to_nat MAX_ROOMS;
  so_fds : slot_uniq c_fd fd_ok (g_clients s);
  so_ids : slot_uniq r_id id_ok (g_rooms s);
  so_shape : Forall room_shape (g_rooms s)
}.

#[export] Hint Resolve so_init so_clients so_rooms so_fds so_ids so_shape : corestack.

(** A step that keeps the slots in order and that the lobby does not see. *)
Definition quiet (s s' : Admin) : Prop :=
  slots_ok s -> slots_ok s' /\ abs s' = abs s /\
    r_id <$> g_rooms s' = r_id <$> g_rooms s /\ c_fd <$> g_clients s' = c_fd <$> g_clients s.

Lemma quiet_refl s : quiet s s.
Proof. by intros ?. Qed.

Lemma quiet_trans s1 s2 s3 : quiet s1 s2 -> quiet s2 s3 -> quiet s1 s3.
Proof. intros H1 H2 Hs. destruct (H1 Hs) as (Hs2 & <- & <- & <-). by apply H2. Qed.

Lemma quiet_foldl {A} (f : Admin -> A -> Admin) l s :
  (forall s x, quiet s (f s x)) -> quiet s (foldl f s l).
Proof.
  intros Hf. revert s. induction l as [|x l IH]; intros s; [apply quiet_refl|].
  eapply quiet_trans; [apply Hf|apply IH].
Qed.

#[export] Hint Resolve quiet_refl : corestack.

(** ** Slots *)

Lemma Forall_alter_shape f i (l : list Room) :
  (forall r, room_shape r -> room_shape (f r)) -> Forall room_shape l ->
  Forall room_shape (alter f i l).
Proof. intros Hf Hl. apply Forall_alter; [done|]. intros x _ Hx. auto. Qed.

Lemma upd_client_quiet ci f s :
  (forall c, c_fd (f c) = c_fd c) -> (forall c, seat_of (f c) = seat_of c) ->
  quiet s (upd_client ci f s).
Proof.
  intros Hk Hv [].
  destruct (slot_map_alter_id c_fd fd_ok seat_of (g_clients s) ci f) as [Hu Hm]; [done..|].
  split; [split; simpl; rewrite ?length_alter; done|]. unfold abs. simpl. rewrite Hm.
  by rewrite fmap_key_alter.
Qed.

Lemma upd_room_quiet ri f s :
  (forall r, r_id (f r) = r_id r) -> (forall r, table_of (f r) = table_of r) ->
  (forall r, room_shape r -> room_shape (f r)) -> quiet s (upd_room ri f s).
Proof.
  intros Hk Hv Hsh [].
  destruct (slot_map_alter_id r_id id_ok table_of (g_rooms s) ri f) as [Hu Hm]; [done..|].
  split; [|unfold abs; simpl; rewrite Hm; by rewrite fmap_key_alter].
  split; simpl; rewrite ?length_alter; try done. by apply Forall_alter_shape.
Qed.

Lemma set_net_quiet n s : quiet s (set_g_net n s).
Proof. intros []. by split. Qed.

Lemma upd_client_ok s ci c f :
  slots_ok s -> g_clients s !! ci = Some c -> 0 <= c_fd c -> c_fd (f c) = c_fd c ->
  slots_ok (upd_client ci f s) /\
  abs (upd_client ci f s) =
    mkLobby (<[c_fd c := seat_of (f c)]> (seats (abs s))) (tables (abs s)).
Proof.
  intros [] Hc Hfd Hk. split.
  - split; simpl; rewrite ?length_alter; try done. by eapply slot_uniq_alter.
  - unfold abs. simpl. by rewrite (slot_map_alter c_fd fd_ok seat_of _ ci c) by done.
Qed.

Lemma upd_room_ok s ri r f :
  slots_ok s -> g_rooms s !! ri = Some r -> 0 < r_id r -> r_id (f r) = r_id r ->
  (room_shape r -> room_shape (f r)) ->
  slots_ok (upd_room ri f s) /\
  abs (upd_room ri f s) =
    mkLobby (seats (abs s)) (<[r_id r := table_of (f r)]> (tables (abs s))).
Proof.
  intros [] Hr Hid Hk Hsh. split.
  - split; simpl; rewrite ?length_alter; try done; [by eapply slot_uniq_alter|].
    apply Forall_alter; [done|]. intros x Hx. simplify_eq. auto.
  - unfold abs. simpl. by rewrite (slot_map_alter r_id id_ok table_of _ ri r) by done.
Qed.

Lemma client_at_eq s ci c : g_clients s !! ci = Some c -> client_at s ci = c.
Proof. unfold client_at. by intros ->. Qed.

Lemma room_at_eq s ri r : g_rooms s !! ri = Some r -> room_at s ri = r.
Proof. unfold room_at. by intros ->. Qed.

(** A write to a slot whose number no lookup finds. *)
Lemma upd_room_out s ri r f :
  slots_ok s -> g_rooms s !! ri = Some r -> r_id r <= 0 -> r_id (f r) <= 0 ->
  (forall r, room_shape r -> room_shape (f r)) ->
  slots_ok (upd_room ri f s) /\ abs (upd_room ri f s) = abs s.
Proof.
  intros [] Hr Hid Hk Hsh.
  destruct (slot_map_alter_out r_id id_ok table_of (g_rooms s) ri r f) as [Hu Hm];
    [done|done|unfold id_ok; lia..|].
  split; [|unfold abs; simpl; by rewrite Hm].
  split; simpl; rewrite ?length_alter; try done. by apply Forall_alter_shape.
Qed.

(** Lookups, related to the maps. *)
Lemma client_find_Some s fd ci :
  slots_ok s -> 0 <= fd -> client_find s fd = Some ci ->
  exists c, g_clients s !! ci = Some c /\ client_at s ci = c /\ c_fd c = fd /\
    seats (abs s) !! fd = Some (seat_of c).
Proof.
  intros Hs Hfd Hf. unfold client_find in Hf. apply fmap_Some in Hf as ([i c] & Hf & ->).
  apply (slot_find_Some c_fd fd_ok) in Hf as [Hc <-]; [|by apply so_fds|done].
  exists c. unfold client_at. simpl. rewrite Hc. split_and!; try done.
  apply (slot_map_lookup_1 c_fd fd_ok seat_of _ i); [by apply so_fds|done|done].
Qed.

Lemma client_find_None s fd :
  slots_ok s -> 0 <= fd -> client_find s fd = None <-> seats (abs s) !! fd = None.
Proof.
  intros Hs Hfd. unfold client_find. rewrite fmap_None.
  apply (slot_find_None c_fd fd_ok seat_of); [by apply so_fds|done].
Qed.

Lemma room_find_Some s id ri :
  slots_ok s -> room_find s id = Some ri ->
  exists r, g_rooms s !! ri = Some r /\ room_at s ri = r /\ r_id r = id /\ 0 < id /\
    tables (abs s) !! id = Some (table_of r) /\ room_shape r.
Proof.
  intros Hs Hf. unfold room_find in Hf. case_match eqn:Hid; [done|]. bool_arith.
  apply fmap_Some in Hf as ([i r] & Hf & ->).
  apply (slot_find_Some r_id id_ok) in Hf as [Hr <-]; [|by apply so_ids|unfold id_ok; lia].
  exists r. unfold room_at. simpl. rewrite Hr. split_and!; try done.
  - apply (slot_map_lookup_1 r_id id_ok table_of _ i); [by apply so_ids|done|unfold id_ok; lia].
  - by eapply Forall_lookup_1; [apply so_shape|].
Qed.

Lemma room_find_None s id :
  slots_ok s -> 0 < id -> room_find s id = None <-> tables (abs s) !! id = None.
Proof.
  intros Hs Hid. unfold room_find. rewrite (proj2 (Z.leb_gt _ _)) by lia. rewrite fmap_None.
  apply (slot_find_None r_id id_ok table_of); [by apply so_ids|unfold id_ok; lia].
Qed.

Lemma room_find_table s id t :
  slots_ok s -> 0 < id -> tables (abs s) !! id = Some t -> exists ri, room_find s id = Some ri.
Proof.
  intros Hs Hid Ht. destruct (room_find s id) as [ri|] eqn:E; [eauto|].
  apply (room_find_None s id Hs Hid) in E. congruence.
Qed.

(** ** The member array *)

Lemma length_live r : room_shape r -> Z.of_nat (length (live r)) = count r.
Proof.
  intros [Hl Hc]. unfold live. rewrite length_take, Hl. unfold MAX_ROOM_MEMBERS in *. lia.
Qed.

Lemma live_nil r : room_shape r -> live r = [] <-> count r = 0.
Proof.
  intros Hsh. pose proof (length_live r Hsh). split; [intros E; rewrite E in *; done|].
  intros E. apply length_zero_iff_nil. lia.
Qed.

Lemma live_head r : room_shape r -> live r <> [] -> aget 0 (members r) 0 = default 0 (head (live r)).
Proof.
  intros [Hl Hc] Hne. unfold live in *. destruct (members r) as [|x l]; [by rewrite take_nil in Hne|].
  destruct (Z.to_nat (count r)); done.
Qed.

Lemma room_add_member_ok r fd :
  room_shape r -> count r < MAX_ROOM_MEMBERS ->
  exists r', room_add_member r fd = (true, r') /\ room_shape r' /\ live r' = live r ++ [fd] /\
    count r' = count r + 1 /\ r_id r' = r_id r /\ next_player_id r' = next_player_id r /\
    r_phase r' = r_phase r.
Proof.
  intros [Hl Hc] Hlt. unfold room_add_member. rewrite (proj2 (Z.leb_gt _ _)) by done.
  eexists. split; [reflexivity|]. simpl. split_and!; try done.
  - split; simpl; [by rewrite length_aset|lia].
  - unfold live. simpl. unfold aset. rewrite (proj2 (Z.ltb_ge _ _)) by lia.
    rewrite Z2Nat.inj_add by lia. change (Z.to_nat 1) with 1%nat. rewrite Nat.add_1_r.
    rewrite (take_S_r _ _ fd).
    + by rewrite take_insert_ge by lia.
    + apply list_lookup_insert_eq. rewrite Hl. lia.
Qed.

Lemma room_del_member_ok r fd :
  room_shape r ->
  let r' := room_del_member r fd in
  room_shape r' /\ live r' = swap_remove fd (live r) /\ r_id r' = r_id r /\
  next_player_id r' = next_player_id r /\ r_phase r' = r_phase r.
Proof.
  intros Hsh r'. subst r'. pose proof (length_live r Hsh) as Hlen. destruct Hsh as [Hl Hc].
  unfold room_del_member, swap_remove.
  destruct (list_find _ (live r)) as [[i x]|] eqn:E; [|by split_and!].
  apply list_find_Some in E as (Hi & _ & _). apply lookup_lt_Some in Hi as Hlt.
  simpl. split_and!; try done.
  - split; simpl; [by rewrite length_aset|lia].
  - unfold live at 1. simpl. rewrite aset_nat.
    replace (length (live r) - 1)%nat with (Z.to_nat (count r - 1)) by lia.
    apply list_eq. intros j. destruct (decide (j < Z.to_nat (count r - 1))%nat) as [Hj|Hj].
    2: { rewrite !lookup_take_ge by lia. done. }
    rewrite !lookup_take_lt by lia. unfold live in *.
    destruct (decide (i = j)) as [<-|Hne].
    + rewrite !list_lookup_insert_eq by lia. f_equal.
      rewrite last_lookup. rewrite length_take, Hl.
      replace (Nat.pred (Z.to_nat (count r) `min` Z.to_nat MAX_ROOM_MEMBERS)) with (Z.to_nat (count r - 1))
        by (unfold MAX_ROOM_MEMBERS in *; lia).
      rewrite lookup_take_lt by lia. unfold aget. by rewrite (proj2 (Z.ltb_ge _ _)) by lia.
    + rewrite !list_lookup_insert_ne by done. rewrite lookup_take_lt by lia. done.
Qed.

(** ** Sends and pushes are invisible to the lobby *)

Section handlers.
Context (write_status : list (Z * AdminMsg) -> Z -> AdminMsg -> Z).

Lemma send_quiet s fd m : quiet s (send write_status s fd m).
Proof. apply set_net_quiet. Qed.

Lemma room_broadcast_quiet s ri m : quiet s (room_broadcast write_status s ri m).
Proof. apply quiet_foldl. intros. apply send_quiet. Qed.

Lemma upd_roster_quiet ci f s :
  (forall st, phase (f st) = phase st /\ room_id (f st) = room_id st /\
     player_id (f st) = player_id st /\ is_owner (f st) = is_owner st) ->
  quiet s (upd_client ci (upd_state f) s).
Proof.
  intros Hf. apply upd_client_quiet; [done|]. intros c. unfold seat_of. simpl.
  by destruct (Hf (c_state c)) as (-> & -> & -> & ->).
Qed.

Lemma room_push_sessions_ex_quiet s ri cfd : quiet s (room_push_sessions_ex write_status s ri cfd).
Proof.
  unfold room_push_sessions_ex. case_match; [apply quiet_refl|].
  destruct (foldl _ _ _) as [ros n]. apply quiet_foldl. intros s1 fd.
  case_match; [|apply quiet_refl]. eapply quiet_trans; [|apply send_quiet]. by apply upd_roster_quiet.
Qed.

Lemma room_push_standings_quiet s ri : quiet s (room_push_standings write_status s ri).
Proof.
  unfold room_push_standings. case_match; [apply quiet_refl|]. case_match; [apply quiet_refl|].
  eapply quiet_trans; [|apply room_broadcast_quiet]. by apply upd_room_quiet.
Qed.

Lemma mark_dirty_quiet s ri : quiet s (room_mark_standings_dirty s ri).
Proof. destruct ri; [by apply upd_room_quiet|apply quiet_refl]. Qed.

Lemma ensure_init_id s : g_inited s = true -> ensure_init s = s.
Proof. unfold ensure_init. by intros ->. Qed.

Lemma room_flush_updates_quiet s : quiet s (room_flush_updates write_status s).
Proof.
  intros Hs. unfold room_flush_updates. rewrite ensure_init_id by auto with corestack.
  revert Hs. apply quiet_foldl. intros s1 i. case_match; [apply quiet_refl|].
  apply (quiet_trans _ (upd_room (Z.to_nat i) (set_standings_dirty false) s1));
    [by apply upd_room_quiet|].
  case_match; [apply room_push_standings_quiet|apply quiet_refl].
Qed.

Lemma handle_garbage_quiet s ci msg : quiet s (handle_garbage write_status s ci msg).
Proof.
  unfold handle_garbage. repeat (case_match; try apply quiet_refl). apply send_quiet.
Qed.

Lemma handle_score_quiet s ci msg : quiet s (handle_score s ci msg).
Proof.
  unfold handle_score. case_match; [apply quiet_refl|]. case_match; [apply quiet_refl|].
  eapply quiet_trans; [|apply mark_dirty_quiet]. by apply upd_client_quiet.
Qed.

(** A chain of a visible step and quiet ones. *)
Lemma after_quiet s s' L : quiet s s' -> slots_ok s -> abs s = L -> slots_ok s' /\ abs s' = L.
Proof. intros H Hs <-. by destruct (H Hs) as (? & ? & _). Qed.

(** The slot of a room keeps its number and what the lobby sees of it. *)
Lemma quiet_room s s' ri r :
  quiet s s' -> slots_ok s -> g_rooms s !! ri = Some r -> 0 < r_id r ->
  exists r', g_rooms s' !! ri = Some r' /\ r_id r' = r_id r /\ table_of r' = table_of r.
Proof.
  intros Hq Hs Hr Hid. destruct (Hq Hs) as (Hs' & Ha & Hk & _).
  apply (f_equal (fun l => l !! ri)) in Hk. rewrite !list_lookup_fmap, Hr in Hk. simpl in Hk.
  destruct (g_rooms s' !! ri) as [r'|] eqn:Hr'; [|done]. simpl in Hk. injection Hk as Hk.
  exists r'. split_and!; [done..|].
  assert (H1 : tables (abs s) !! r_id r = Some (table_of r))
    by (apply (slot_map_lookup_1 r_id id_ok table_of _ ri); auto with corestack).
  assert (H2 : tables (abs s') !! r_id r' = Some (table_of r')).
  { apply (slot_map_lookup_1 r_id id_ok table_of _ ri); auto with corestack.
    unfold id_ok. congruence. }
  rewrite Ha in H2. congruence.
Qed.

Lemma quiet_client s s' ci c :
  quiet s s' -> slots_ok s -> g_clients s !! ci = Some c -> 0 <= c_fd c ->
  exists c', g_clients s' !! ci = Some c' /\ c_fd c' = c_fd c /\ seat_of c' = seat_of c.
Proof.
  intros Hq Hs Hc Hfd. destruct (Hq Hs) as (Hs' & Ha & _ & Hk).
  apply (f_equal (fun l => l !! ci)) in Hk. rewrite !list_lookup_fmap, Hc in Hk. simpl in Hk.
  destruct (g_clients s' !! ci) as [c'|] eqn:Hc'; [|done]. simpl in Hk. injection Hk as Hk.
  exists c'. split_and!; [done..|].
  assert (H1 : seats (abs s) !! c_fd c = Some (seat_of c))
    by (apply (slot_map_lookup_1 c_fd fd_ok seat_of _ ci); auto with corestack).
  assert (H2 : seats (abs s') !! c_fd c' = Some (seat_of c')).
  { apply (slot_map_lookup_1 c_fd fd_ok seat_of _ ci); auto with corestack.
    unfold fd_ok. congruence. }
  rewrite Ha in H2. congruence.
Qed.

(** ** Visible steps *)

Lemma alter_none (f : Seat -> Seat) (S : gmap Z Seat) (fd : Z) : S !! fd = None -> alter f fd S = S.
Proof.
  intros H. apply map_eq. intros k. destruct (decide (k = fd)) as [->|].
  - by rewrite lookup_alter_eq, H.
  - by rewrite lookup_alter_ne.
Qed.

Lemma for_members_ok p f s fds :
  slots_ok s -> Forall (fun fd => 0 <= fd) fds ->
  (forall c, c_fd (f c) = c_fd c) -> (forall c, seat_of (f c) = seat_phase p (seat_of c)) ->
  slots_ok (for_members f s fds) /\
  abs (for_members f s fds) = mkLobby (phase_all p fds (seats (abs s))) (tables (abs s)).
Proof.
  intros Hs Hfds Hk Hv. revert s Hs. induction Hfds as [|fd fds Hfd _ IH]; intros s Hs.
  { split; [done|]. reflexivity. }
  unfold for_members, phase_all. simpl. fold (for_members f).
  destruct (client_find s fd) as [ci|] eqn:Ef.
  - destruct (client_find_Some s fd ci Hs Hfd Ef) as (c & Hc & _ & Hcf & Hseat).
    destruct (upd_client_ok s ci c f Hs Hc) as [Hs1 Ha1]; [by rewrite Hcf|done|].
    destruct (IH _ Hs1) as [Hs2 Ha2]. split; [done|]. unfold for_members in Ha2. rewrite Ha2, Ha1.
    simpl. f_equal. unfold phase_all. f_equal. rewrite Hv, Hcf.
    by rewrite (alter_is_insert _ _ _ _ Hseat).
  - apply client_find_None in Ef; [|done..].
    destruct (IH _ Hs) as [Hs2 Ha2]. split; [done|]. unfold for_members in Ha2. rewrite Ha2.
    f_equal. unfold phase_all. f_equal. by rewrite alter_none.
Qed.

Lemma for_members_fds f s fds :
  (forall c, c_fd (f c) = c_fd c) ->
  c_fd <$> g_clients (for_members f s fds) = c_fd <$> g_clients s.
Proof.
  intros Hf. unfold for_members. revert s. induction fds as [|fd fds IH]; intros s; simpl; [done|].
  rewrite IH. case_match; [|done]. simpl. by apply fmap_key_alter.
Qed.

(** The facts about a member's room that a lobby in order gives. *)
Lemma live_fds s id t :
  lobby_ok (abs s) -> tables (abs s) !! id = Some t -> Forall (fun fd => 0 <= fd) (t_live t).
Proof.
  intros (Hc & Hs & _) Ht. apply list.Forall_forall. intros fd Hfd.
  apply (tc_members _ _ _ (Hc id t Ht)) in Hfd as (st & Hst & _). by destruct (Hs fd st Hst).
Qed.

Lemma round_over_ok s r :
  slots_ok s -> Forall (fun fd => 0 <= fd) (live r) ->
  round_over s r = all_over (seats (abs s)) (live r).
Proof.
  intros Hs Hfds. unfold round_over, all_over. induction Hfds as [|fd fds Hfd _ IH]; [done|].
  cbn [forallb]. rewrite IH. f_equal. destruct (client_find s fd) as [ci|] eqn:Ef.
  - destruct (client_find_Some s fd ci Hs Hfd Ef) as (c & _ & -> & _ & ->). done.
  - apply client_find_None in Ef as ->; done.
Qed.

(** Writing back a table that is already there. *)
Lemma tables_insert_id L id t :
  tables L !! id = Some t -> mkLobby (seats L) (<[id := t]> (tables L)) = L.
Proof. intros H. rewrite insert_id by done. by destruct L. Qed.

Lemma room_check_round_end_ok s ri r :
  slots_ok s -> g_rooms s !! ri = Some r -> 0 < r_id r -> live r <> [] ->
  Forall (fun fd => 0 <= fd) (live r) ->
  let s' := (room_check_round_end write_status s (Some ri)).2 in
  slots_ok s' /\ abs s' = l_round_end (r_id r) (abs s) /\
  c_fd <$> g_clients s' = c_fd <$> g_clients s.
Proof.
  intros Hs Hr Hid Hne Hfds. cbv zeta. unfold room_check_round_end, room_at. rewrite Hr. simpl.
  assert (Hsh : room_shape r) by (by eapply Forall_lookup_1; [apply so_shape|]).
  assert (Ht : tables (abs s) !! r_id r = Some (table_of r)).
  { apply (slot_map_lookup_1 r_id id_ok table_of _ ri); auto with corestack. }
  unfold l_round_end. rewrite Ht. simpl.
  case_bool_decide as Hp; simpl; [|by eauto 10].
  destruct (count r =? 0) eqn:Hcnt; [bool_arith; by apply (live_nil r Hsh) in Hcnt|].
  rewrite (round_over_ok s r Hs Hfds).
  destruct (all_over _ _) eqn:Ho; simpl; [|by eauto 10].
  destruct (foldl _ _ _) as [winner best]. cbv beta iota.
  match goal with |- context [upd_room ri (set_r_phase _) ?x] => set (s3 := x) end.
  assert (Hq : quiet s s3).
  { unfold s3. eapply quiet_trans; [|apply room_broadcast_quiet].
    eapply quiet_trans; [|apply room_push_standings_quiet]. by apply upd_room_quiet. }
  clearbody s3. destruct (quiet_room s s3 ri r Hq Hs Hr Hid) as (r3 & Hr3 & Hid3 & Ht3).
  destruct (Hq Hs) as (Hs3 & Ha3 & _ & Hk3).
  destruct (upd_room_ok s3 ri r3 (set_r_phase SESSION_WAITING) Hs3 Hr3) as [Hs4 Ha4];
    [congruence|done|done|].
  match goal with |- context [for_members ?f _ _] => set (reset := f) end.
  destruct (for_members_ok SESSION_WAITING reset _ (live r) Hs4 Hfds) as [Hs5 Ha5]; [done|done|].
  cbn [snd]. injection Ht3 as Hl3 Hn3 Hp3. split; [exact Hs5|]. split.
  - rewrite Ha5, Ha4, Ha3, Hid3. cbn [seats tables]. do 2 f_equal.
    unfold table_of, table_phase. simpl. f_equal; done.
  - rewrite for_members_fds by done. done.
Qed.

Lemma room_member_left_ok s ri r was_owner :
  slots_ok s -> g_rooms s !! ri = Some r -> 0 < r_id r -> live r <> [] ->
  Forall (fun fd => 0 <= fd) (live r) ->
  let s' := room_member_left write_status s ri was_owner in
  slots_ok s' /\ abs s' = l_settle (r_id r) was_owner (abs s) /\
  c_fd <$> g_clients s' = c_fd <$> g_clients s.
Proof.
  intros Hs Hr Hid Hne Hfds. cbv zeta. unfold room_member_left, l_settle.
  match goal with |- context [room_check_round_end _ ?x _] => set (s1 := x) end.
  assert (H1 : slots_ok s1 /\ abs s1 = (if was_owner then l_promote (r_id r) (abs s) else abs s) /\
    g_rooms s1 = g_rooms s /\ c_fd <$> g_clients s1 = c_fd <$> g_clients s).
  { unfold s1. destruct was_owner; [|done].
    assert (Hsh : room_shape r) by (by eapply Forall_lookup_1; [apply so_shape|]).
    unfold room_at. rewrite Hr. simpl. rewrite (live_head r Hsh Hne).
    destruct (live r) as [|o fds] eqn:El; [done|]. simpl.
    assert (Ht : tables (abs s) !! r_id r = Some (table_of r))
      by (apply (slot_map_lookup_1 r_id id_ok table_of _ ri); auto with corestack).
    unfold l_promote. rewrite Ht. unfold table_of at 1. cbn [t_live]. rewrite El. cbn [head default].
    apply Forall_cons in Hfds as [Ho _].
    destruct (client_find s o) as [oi|] eqn:Ef.
    - destruct (client_find_Some s o oi Hs Ho Ef) as (c & Hc & _ & Hcf & Hseat).
      destruct (upd_client_ok s oi c (upd_state (set_is_owner true)) Hs Hc) as [Hs1 Ha1];
        [by rewrite Hcf|done|].
      split; [done|]. rewrite Ha1. split; [|split; [done|by apply fmap_key_alter]].
      f_equal. rewrite Hcf. symmetry. exact (alter_is_insert _ _ _ _ Hseat).
    - split; [done|]. apply client_find_None in Ef; [|done..].
      split; [|done]. rewrite (alter_none _ _ _ Ef). by destruct (abs s). }
  clearbody s1. destruct H1 as (Hs1 & Ha1 & Hr1 & Hk1).
  destruct (room_check_round_end_ok s1 ri r Hs1) as (Hs2 & Ha2 & Hk2); [by rewrite Hr1|done..|].
  destruct (room_check_round_end write_status s1 (Some ri)) as [ended s2]. simpl in Hs2, Ha2, Hk2.
  assert (Hq : quiet s2 (if negb ended
    then room_mark_standings_dirty (room_push_sessions write_status s2 ri) (Some ri)
    else room_push_sessions write_status s2 ri)).
  { destruct ended; [apply room_push_sessions_ex_quiet|].
    eapply quiet_trans; [apply room_push_sessions_ex_quiet|apply mark_dirty_quiet]. }
  destruct (Hq Hs2) as (Hs3 & Ha3 & _ & Hk3). split; [exact Hs3|]. split; [|congruence].
  rewrite Ha3, Ha2, Ha1. done.
Qed.

(** The room of a client that has one: found, in order and holding it - or a room
    with a negative number, which no lookup finds and the lobby does not have. *)
Lemma client_room s ci c :
  slots_ok s -> lobby_ok (abs s) -> g_clients s !! ci = Some c -> 0 <= c_fd c ->
  room_id (c_state c) <> ROOM_NONE ->
  (exists ri r, room_find s (room_id (c_state c)) = Some ri /\ g_rooms s !! ri = Some r /\
    r_id r = room_id (c_state c) /\ 0 < r_id r /\ room_shape r /\
    tables (abs s) !! r_id r = Some (table_of r) /\
    seats (abs s) !! c_fd c = Some (seat_of c) /\ Forall (fun fd => 0 <= fd) (live r)) \/
  (room_find s (room_id (c_state c)) = None /\ room_id (c_state c) < 0 /\
    tables (abs s) !! room_id (c_state c) = None).
Proof.
  intros Hs HL Hc Hfd Hr. pose proof HL as (Hcs & Hss & _).
  assert (Hseat : seats (abs s) !! c_fd c = Some (seat_of c))
    by (apply (slot_map_lookup_1 c_fd fd_ok seat_of _ ci); auto with corestack).
  destruct (Hss _ _ Hseat) as [_ [Hneg|[t Ht]]].
  - right. cbn [seat_of s_room] in Hneg. unfold room_find.
    rewrite (proj2 (Z.leb_le _ _)) by lia. split_and!; [done..|].
    destruct (tables (abs s) !! room_id (c_state c)) as [t|] eqn:Ht; [|done].
    apply Hcs in Ht. pose proof (tc_id _ _ _ Ht). lia.
  - left. cbn [seat_of s_room] in Ht. pose proof (tc_id _ _ _ (Hcs _ t Ht)) as Hid.
    destruct (room_find_table s _ t Hs Hid Ht) as [ri Hf].
    destruct (room_find_Some s _ ri Hs Hf) as (r & Hri & _ & Hrid & _ & Htr & Hsh).
    exists ri, r. rewrite Hrid. split_and!; try done. exact (live_fds s _ _ HL Htr).
Qed.

(** Taking a member out of its room's slot. *)
Lemma upd_room_del s ri r fd :
  slots_ok s -> g_rooms s !! ri = Some r -> 0 < r_id r -> room_shape r ->
  let r' := room_del_member r fd in
  let s' := upd_room ri (fun r => room_del_member r fd) s in
  slots_ok s' /\ g_rooms s' !! ri = Some r' /\ r_id r' = r_id r /\ room_shape r' /\
  live r' = swap_remove fd (live r) /\
  abs s' = mkLobby (seats (abs s))
    (<[r_id r := mkTable (swap_remove fd (live r)) (next_player_id r) (r_phase r)]> (tables (abs s))).
Proof.
  intros Hs Hr Hid Hsh. cbv zeta.
  destruct (room_del_member_ok r fd Hsh) as (Hsh' & Hl & Hid' & Hn & Hp).
  destruct (upd_room_ok s ri r (fun r => room_del_member r fd) Hs Hr Hid) as [Hs' Ha']; [done..|].
  split_and!; try done.
  - simpl. by rewrite list_lookup_alter_eq, Hr.
  - rewrite Ha'. do 2 f_equal. unfold table_of. by rewrite Hl, Hn, Hp.
Qed.

(** Freeing the slot of a room nobody is left in. *)
Lemma upd_room_free s ri r :
  slots_ok s -> g_rooms s !! ri = Some r -> 0 < r_id r ->
  slots_ok (upd_room ri (set_r_id 0) s) /\
  abs (upd_room ri (set_r_id 0) s) = mkLobby (seats (abs s)) (delete (r_id r) (tables (abs s))).
Proof.
  intros [] Hr Hid. split.
  - split; simpl; rewrite ?length_alter; try done.
    + eapply slot_uniq_del; [done..|]. by intros H.
    + by apply Forall_alter_shape.
  - unfold abs. simpl.
    rewrite (slot_map_del r_id id_ok table_of _ ri r); [done..|]. by intros H.
Qed.

Lemma swap_remove_Forall (P : Z -> Prop) fd l :
  NoDup l -> fd ∈ l -> Forall P l -> Forall P (swap_remove fd l).
Proof.
  intros Hnd Hin Hl. rewrite (swap_remove_perm fd l Hnd Hin) in Hl. by inversion Hl.
Qed.

Lemma handle_leave_ok s ci c :
  slots_ok s -> lobby_ok (abs s) -> g_clients s !! ci = Some c -> 0 <= c_fd c ->
  slots_ok (handle_leave write_status s ci) /\
  abs (handle_leave write_status s ci) = l_leave (c_fd c) (abs s).
Proof.
  intros Hs HL Hc Hfd. unfold handle_leave. rewrite (client_at_eq s ci c Hc).
  assert (Hseat : seats (abs s) !! c_fd c = Some (seat_of c))
    by (apply (slot_map_lookup_1 c_fd fd_ok seat_of _ ci); auto with corestack).
  unfold l_leave. rewrite Hseat. cbn [seat_of s_room].
  destruct (_ =? ROOM_NONE) eqn:Hrn.
  { by eapply after_quiet; [apply send_quiet|..]. }
  bool_arith.
  destruct (client_room s ci c Hs HL Hc Hfd Hrn)
    as [(ri & r & -> & Hr & Hrid & Hid & Hsh & Ht & _ & Hfds)|(-> & _ & Hnt)].
  2: { unfold l_depart. cbn [seat_of s_room]. rewrite Hnt.
       match goal with |- context [upd_client ci ?f s] =>
         destruct (upd_client_ok s ci c f Hs Hc Hfd) as [Hs2 Ha2]; [done|] end.
       eapply after_quiet; [apply send_quiet|done|]. rewrite Ha2. done. }
  destruct (upd_room_del s ri r (c_fd c) Hs Hr Hid Hsh) as (Hs1 & Hr1 & Hid1 & Hsh1 & Hl1 & Ha1).
  set (s1 := upd_room ri _ s) in *.
  match goal with |- context [upd_client ci ?f s1] => set (idle := f) end.
  destruct (upd_client_ok s1 ci c idle Hs1 Hc Hfd) as [Hs2 Ha2]; [done|].
  set (s2 := upd_client ci idle s1) in *.
  assert (Hr2 : g_rooms s2 !! ri = Some (room_del_member r (c_fd c))) by done. clearbody s2.
  pose proof (send_quiet s2 (c_fd (client_at s2 ci)) (set_m_session (c_state (client_at s2 ci)) false
    (zero_msg ADMIN_SESSION))) as Hq.
  unfold send_session, send_session_ex. set (s3 := send _ s2 _ _) in *.
  destruct (Hq Hs2) as (Hs3 & Ha3 & _).
  assert (Hr3 : g_rooms s3 !! ri = Some (room_del_member r (c_fd c))) by done.
  rewrite (room_at_eq s3 ri _ Hr3).
  unfold l_depart. cbn [seat_of s_room s_owner]. rewrite <- Hrid, Ht. cbn [t_live table_of].
  pose proof HL as (Hcs & _ & _). specialize (Hcs _ _ Ht).
  assert (Hin : c_fd c ∈ live r) by (apply (tc_members _ _ _ Hcs); exists (seat_of c); done).
  assert (Ha : abs s3 = mkLobby (<[c_fd c := idle_seat]> (seats (abs s)))
    (<[r_id r := mkTable (swap_remove (c_fd c) (live r)) (next_player_id r) (r_phase r)]>
       (tables (abs s)))).
  { rewrite Ha3, Ha2, Ha1. done. }
  destruct (count _ =? 0) eqn:Hcnt; bool_arith.
  - apply (live_nil _ Hsh1) in Hcnt. rewrite Hl1 in Hcnt. rewrite bool_decide_true by done.
    destruct (upd_room_free s3 ri _ Hs3 Hr3) as [Hs4 Ha4]; [congruence|]. split; [done|].
    rewrite Ha4, Ha, Hid1. cbn [seats tables]. by rewrite delete_insert_eq.
  - assert (Hne : live (room_del_member r (c_fd c)) <> []) by (by rewrite (live_nil _ Hsh1)).
    rewrite Hl1 in Hne. rewrite bool_decide_false by done.
    destruct (room_member_left_ok s3 ri _ (is_owner (c_state c)) Hs3 Hr3) as (Hs4 & Ha4 & _);
      [congruence|by rewrite Hl1| |].
    { rewrite Hl1. apply swap_remove_Forall; [apply Hcs|done|done]. }
    split; [done|]. rewrite Ha4, Hid1, Ha. done.
Qed.

(** Freeing a client's slot. *)
Lemma upd_client_free s ci c :
  slots_ok s -> g_clients s !! ci = Some c -> 0 <= c_fd c ->
  slots_ok (upd_client ci (set_c_fd (-1)) s) /\
  abs (upd_client ci (set_c_fd (-1)) s) = drop_seat (c_fd c) (abs s).
Proof.
  intros [] Hc Hfd. assert (Hno : ~ fd_ok (-1)) by (unfold fd_ok; lia). split.
  - split; simpl; rewrite ?length_alter; try done. by eapply slot_uniq_del.
  - unfold abs, drop_seat. simpl. by rewrite (slot_map_del c_fd fd_ok seat_of _ ci c).
Qed.

Lemma client_close_ok s fd :
  slots_ok s -> lobby_ok (abs s) -> 0 <= fd ->
  slots_ok (client_close write_status s fd) /\
  abs (client_close write_status s fd) = l_close fd (abs s).
Proof.
  intros Hs HL Hfd. unfold client_close, l_close. destruct (client_find s fd) as [ci|] eqn:Ef.
  2: { apply client_find_None in Ef; [|done..]. by rewrite Ef. }
  destruct (client_find_Some s fd ci Hs Hfd Ef) as (c & Hc & Hat & <- & Hseat).
  rewrite Hat, Hseat. cbn [seat_of s_room]. destruct (_ =? ROOM_NONE) eqn:Hrn; cbn [negb].
  { by apply upd_client_free. }
  bool_arith.
  destruct (client_room s ci c Hs HL Hc Hfd Hrn)
    as [(ri & r & -> & Hr & Hrid & Hid & Hsh & Ht & _ & Hfds)|(-> & _ & Hnt)].
  2: { unfold l_depart. cbn [seat_of s_room]. rewrite Hnt. by apply upd_client_free. }
  destruct (upd_room_del s ri r (c_fd c) Hs Hr Hid Hsh) as (Hs1 & Hr1 & Hid1 & Hsh1 & Hl1 & Ha1).
  set (s1 := upd_room ri _ s) in *. rewrite (room_at_eq s1 ri _ Hr1).
  assert (Hc1 : g_clients s1 !! ci = Some c) by done. clearbody s1.
  pose proof HL as (Hcs & _ & _). specialize (Hcs _ _ Ht).
  assert (Hin : c_fd c ∈ live r) by (apply (tc_members _ _ _ Hcs); exists (seat_of c); done).
  destruct (swap_remove_spec _ _ (tc_nodup _ _ _ Hcs) Hin) as [_ Hmem].
  unfold l_depart. cbn [seat_of s_room s_owner]. rewrite <- Hrid, Ht. cbn [t_live table_of].
  destruct (count _ =? 0) eqn:Hcnt; bool_arith.
  - apply (live_nil _ Hsh1) in Hcnt. rewrite Hl1 in Hcnt. rewrite bool_decide_true by done.
    destruct (upd_room_free s1 ri _ Hs1 Hr1) as [Hs4 Ha4]; [congruence|].
    destruct (upd_client_free _ ci c Hs4 Hc1 Hfd) as [Hs5 ->]. split; [done|].
    rewrite Ha4, Ha1, Hid1. unfold drop_seat. cbn [seats tables]. by rewrite delete_insert_eq.
  - assert (Hne : live (room_del_member r (c_fd c)) <> []) by (by rewrite (live_nil _ Hsh1)).
    rewrite Hl1 in Hne. rewrite bool_decide_false by done.
    destruct (room_member_left_ok s1 ri _ (is_owner (c_state c)) Hs1 Hr1) as (Hs4 & Ha4 & Hk4);
      [congruence|by rewrite Hl1| |].
    { rewrite Hl1. apply swap_remove_Forall; [apply Hcs|done|done]. }
    set (s4 := room_member_left _ _ _ _) in *. clearbody s4.
    apply (f_equal (fun l => l !! ci)) in Hk4. rewrite !list_lookup_fmap, Hc1 in Hk4.
    destruct (g_clients s4 !! ci) as [c4|] eqn:Hc4; [|done]. injection Hk4 as Hk4.
    destruct (upd_client_free s4 ci c4 Hs4 Hc4) as [Hs5 ->]; [by rewrite Hk4|]. split; [done|].
    rewrite Ha4, Hid1, Ha1, Hk4. symmetry.
    match goal with |- _ = drop_seat _ (l_settle _ _ ?L') => set (L1 := L') end.
    exact (l_settle_drop (r_id r) (is_owner (c_state c)) (c_fd c) _ L1
      (lookup_insert_eq _ _ _) ltac:(cbn [t_live]; rewrite Hmem; tauto) Hne).
Qed.

Lemma handle_start_ok (rand : nat -> Z) s ci c :
  slots_ok s -> lobby_ok (abs s) -> g_clients s !! ci = Some c -> 0 <= c_fd c ->
  let '(status, s') := handle_start write_status rand s ci in
  slots_ok s' /\
  (abs s' = abs s /\ status <> 0 \/
   abs s' = l_start (room_id (c_state c)) (abs s) /\ status = 0 /\
   is_owner (c_state c) = true).
Proof.
  intros Hs HL Hc Hfd. unfold handle_start. rewrite (client_at_eq s ci c Hc).
  assert (Hrej : forall reason, slots_ok (send_reject write_status s ci reason) /\
    abs (send_reject write_status s ci reason) = abs s)
    by (intros; by eapply after_quiet; [apply send_quiet|..]).
  destruct (_ =? ROOM_NONE) eqn:Hrn; [by destruct (Hrej REJECT_CONFLICT); auto|]. bool_arith.
  destruct (is_owner (c_state c)) eqn:Hown; cbn [negb];
    [|by destruct (Hrej REJECT_NOT_OWNER); auto].
  destruct (client_room s ci c Hs HL Hc Hfd Hrn)
    as [(ri & r & -> & Hr & Hrid & Hid & Hsh & Ht & _ & Hfds)|(-> & _)];
    [|by destruct (Hrej REJECT_CONFLICT); auto].
  case_bool_decide; [by destruct (Hrej REJECT_CONFLICT); auto|].
  unfold gen_seed. cbv zeta. set (sd := Z.lxor _ _). set (s1 := set_g_rand _ _).
  assert (Hq1 : quiet s s1) by (intros []; by split).
  assert (Hr1 : g_rooms s1 !! ri = Some r) by done. destruct (Hq1 Hs) as (Hs1 & Ha1 & _). clearbody s1.
  destruct (upd_room_ok s1 ri r (set_r_seed sd) Hs1 Hr1 Hid) as [Hs2 Ha2]; [done|done|].
  set (s2 := upd_room ri (set_r_seed sd) s1) in *.
  assert (Hr2 : g_rooms s2 !! ri = Some (set_r_seed sd r)) by (simpl; by rewrite list_lookup_alter_eq, Hr1).
  clearbody s2.
  destruct (upd_room_ok s2 ri _ (set_r_phase SESSION_PLAYING) Hs2 Hr2) as [Hs3 Ha3]; [done..|].
  set (s3 := upd_room ri (set_r_phase SESSION_PLAYING) s2) in *.
  assert (Hr3 : g_rooms s3 !! ri = Some (set_r_phase SESSION_PLAYING (set_r_seed sd r)))
    by (simpl; by rewrite list_lookup_alter_eq, Hr2).
  clearbody s3. rewrite (room_at_eq s3 ri _ Hr3).
  change (live (set_r_phase SESSION_PLAYING (set_r_seed sd r))) with (live r).
  destruct (for_members_ok SESSION_PLAYING (upd_state (set_phase SESSION_PLAYING)) s3 (live r) Hs3 Hfds)
    as [Hs4 Ha4]; [done|done|].
  set (s4 := for_members _ s3 _) in *. clearbody s4.
  match goal with |- slots_ok ?x /\ _ => assert (Hq : quiet s4 x) end.
  { eapply quiet_trans; [apply room_broadcast_quiet|apply mark_dirty_quiet]. }
  destruct (Hq Hs4) as (Hs5 & Ha5 & _). split; [done|]. right. split; [|done].
  rewrite Ha5, Ha4, Ha3, Ha2, Ha1. unfold l_start. rewrite <- Hrid, Ht. cbn [seats tables t_live table_of].
  f_equal. apply insert_insert_eq.
Qed.

Lemma handle_gameover_ok s ci c msg :
  slots_ok s -> lobby_ok (abs s) -> g_clients s !! ci = Some c -> 0 <= c_fd c ->
  slots_ok (handle_gameover write_status s ci msg) /\
  abs (handle_gameover write_status s ci msg) = l_gameover (c_fd c) (abs s).
Proof.
  intros Hs HL Hc Hfd. unfold handle_gameover, l_gameover. rewrite (client_at_eq s ci c Hc).
  assert (Hseat : seats (abs s) !! c_fd c = Some (seat_of c))
    by (apply (slot_map_lookup_1 c_fd fd_ok seat_of _ ci); auto with corestack).
  rewrite Hseat. cbn [seat_of s_room]. destruct (_ =? ROOM_NONE) eqn:Hrn; [done|]. bool_arith.
  destruct (client_room s ci c Hs HL Hc Hfd Hrn)
    as [(ri & r & Hf & Hr & Hrid & Hid & Hsh & Ht & _ & Hfds)|(Hf & _ & Hnt)];
  match goal with |- context [upd_client ci ?f s] => set (over := f) end;
  (destruct (upd_client_ok s ci c over Hs Hc Hfd) as [Hs1 Ha1]; [done|]);
  set (s1 := upd_client ci over s) in *.
  2: { assert (room_find s1 (room_id (c_state c)) = None) as -> by done. split; [done|]. cbn [snd].
       unfold l_round_end. cbn [tables]. rewrite Hnt, (alter_is_insert _ _ _ _ Hseat). exact Ha1. }
  assert (room_find s1 (room_id (c_state c)) = Some ri) as -> by done.
  assert (Hr1 : g_rooms s1 !! ri = Some r) by done. clearbody s1.
  destruct (quiet_room s1 _ ri r (mark_dirty_quiet s1 (Some ri)) Hs1 Hr1 Hid) as (r2 & Hr2 & Hid2 & Ht2).
  destruct (mark_dirty_quiet s1 (Some ri) Hs1) as (Hs2 & Ha2 & _).
  set (s2 := room_mark_standings_dirty s1 (Some ri)) in *. clearbody s2.
  injection Ht2 as Hl2 _ _.
  destruct (room_check_round_end_ok s2 ri r2 Hs2 Hr2) as (Hs3 & Ha3 & _).
  - congruence.
  - rewrite Hl2. intros E. pose proof HL as (Hcs & _ & _). specialize (Hcs _ _ Ht).
    assert (c_fd c ∈ live r) as Hin by (apply (tc_members _ _ _ Hcs); exists (seat_of c); done).
    rewrite E in Hin. by apply elem_of_nil in Hin.
  - by rewrite Hl2.
  - split; [done|]. rewrite Ha3, Ha2, Ha1, Hid2, Hrid. do 2 f_equal.
    symmetry. exact (alter_is_insert _ _ _ _ Hseat).
Qed.

(** ** Counting slots *)

Lemma keys_bound {V} (M : gmap Z V) (l : list Z) :
  NoDup l -> (forall k, k ∈ l -> is_Some (M !! k)) -> (length l <= size M)%nat.
Proof.
  intros Hnd Hin. rewrite <- (size_list_to_set (C := gset Z) l Hnd), <- size_dom.
  apply subseteq_size. intros k Hk%elem_of_list_to_set. apply elem_of_dom. eauto.
Qed.

Lemma tables_size s : slots_ok s -> Z.of_nat (size (tables (abs s))) <= MAX_ROOMS.
Proof.
  intros []. unfold abs. simpl. rewrite slot_map_size by done.
  pose proof (length_filter (fun x => id_ok (r_id x)) (g_rooms s)). unfold MAX_ROOMS in *. lia.
Qed.

Lemma seats_size s : slots_ok s -> Z.of_nat (size (seats (abs s))) <= MAX_SESSIONS.
Proof.
  intros []. unfold abs. simpl. rewrite slot_map_size by done.
  pose proof (length_filter (fun x => fd_ok (c_fd x)) (g_clients s)). unfold MAX_SESSIONS in *. lia.
Qed.

Lemma free_room_id_spec fuel s cand :
  match free_room_id fuel s cand with
  | Some id => cand <= id /\ room_find s id = None /\
      forall j, cand <= j < id -> room_find s j <> None
  | None => forall j, cand <= j < cand + Z.of_nat fuel -> room_find s j <> None
  end.
Proof.
  revert cand. induction fuel as [|fuel IH]; intros cand; simpl; [lia|].
  destruct (room_find s cand) as [ri|] eqn:E.
  - specialize (IH (cand + 1)). destruct (free_room_id _ _ _) as [id|].
    + destruct IH as (? & ? & IH). split_and!; [lia|done|]. intros j Hj.
      destruct (decide (j = cand)) as [->|]; [congruence|apply IH; lia].
    + intros j Hj. destruct (decide (j = cand)) as [->|]; [congruence|apply IH; lia].
  - split_and!; [lia|done|lia].
Qed.

(** The search for a free room number ends: there are more candidates than
    rooms. *)
Lemma free_room_id_total s :
  slots_ok s -> exists id, free_room_id free_id_fuel s 1 = Some id /\ 0 < id /\
    tables (abs s) !! id = None.
Proof.
  intros Hs. pose proof (free_room_id_spec free_id_fuel s 1) as Hspec.
  destruct (free_room_id _ _ _) as [id|].
  - destruct Hspec as (? & Hn & _). exists id. split_and!; [done|lia|].
    apply room_find_None; [done|lia|done].
  - exfalso. pose proof (tables_size s Hs) as Hsz.
    assert ((length (seqZ 1 (Z.of_nat free_id_fuel)) <= size (tables (abs s)))%nat) as Hb.
    { apply keys_bound; [apply NoDup_seqZ|]. intros k Hk%elem_of_seqZ.
      destruct (tables (abs s) !! k) as [t|] eqn:E; [done|].
      apply room_find_None in E; [|done|lia]. by destruct (Hspec k). }
    rewrite length_seqZ in Hb. unfold free_id_fuel, MAX_ROOMS in *. lia.
Qed.

(** A room never fills before the session table does. *)
Lemma room_not_full s r fd :
  slots_ok s -> lobby_ok (abs s) -> tables (abs s) !! r_id r = Some (table_of r) -> room_shape r ->
  is_Some (seats (abs s) !! fd) -> fd ∉ live r -> count r < MAX_ROOM_MEMBERS.
Proof.
  intros Hs (Hc & _ & _) Ht Hsh Hfd Hni. specialize (Hc _ _ Ht).
  pose proof (seats_size s Hs). pose proof (length_live r Hsh).
  assert ((length (fd :: live r) <= size (seats (abs s)))%nat) as Hb.
  { apply keys_bound; [apply NoDup_cons; split; [done|apply Hc]|].
    intros k [->|Hk]%elem_of_cons; [done|].
    apply (tc_members _ _ _ Hc) in Hk as (st & -> & _). eauto. }
  cbn [length] in Hb. unfold MAX_SESSIONS, MAX_ROOM_MEMBERS in *. lia.
Qed.

(** ** Joining *)

Lemma join_room_ok s ri ci r c msg created :
  slots_ok s -> g_rooms s !! ri = Some r -> 0 < r_id r -> room_shape r ->
  count r < MAX_ROOM_MEMBERS -> g_clients s !! ci = Some c -> 0 <= c_fd c ->
  let room := (room_add_member r (c_fd c)).2 in
  slots_ok (join_room write_status s ri ci room msg created) /\
  abs (join_room write_status s ri ci room msg created) = l_join (c_fd c) (r_id r) (abs s).
Proof.
  intros Hs Hr Hid Hsh Hlt Hc Hfd. cbv zeta.
  destruct (room_add_member_ok r (c_fd c) Hsh Hlt)
    as (r1 & -> & Hsh1 & Hl1 & Hc1 & Hid1 & Hn1 & Hp1). cbn [snd].
  assert (Ht : tables (abs s) !! r_id r = Some (table_of r))
    by (apply (slot_map_lookup_1 r_id id_ok table_of _ ri); auto with corestack).
  unfold join_room. rewrite (client_at_eq s ci c Hc). cbv zeta.
  destruct (upd_room_ok s ri r (fun _ => r1) Hs Hr Hid Hid1) as [Hs1 Ha1]; [done|].
  set (s1 := upd_room ri (fun _ => r1) s) in *.
  assert (Hr1 : g_rooms s1 !! ri = Some r1) by (simpl; by rewrite list_lookup_alter_eq, Hr).
  assert (Hcl1 : g_clients s1 !! ci = Some c) by done. clearbody s1.
  destruct (upd_room_ok s1 ri r1 (set_next_player_id (next_player_id r1 + 1)) Hs1 Hr1)
    as [Hs2 Ha2]; [congruence|done|done|].
  set (s2 := upd_room ri (set_next_player_id _) s1) in *.
  assert (Hcl2 : g_clients s2 !! ci = Some c) by done. clearbody s2.
  match goal with |- context [upd_client ci (upd_state ?f) s2] => set (sit := f) end.
  destruct (upd_client_ok s2 ci c (upd_state sit) Hs2 Hcl2 Hfd) as [Hs3 Ha3]; [done|].
  set (s3 := upd_client ci (upd_state sit) s2) in *. clearbody s3.
  match goal with |- slots_ok ?x /\ _ => assert (Hq : quiet s3 x) end.
  { eapply quiet_trans; [|apply mark_dirty_quiet]. eapply quiet_trans; [|by apply upd_room_quiet].
    eapply quiet_trans; [|apply room_push_sessions_ex_quiet]. by apply upd_client_quiet. }
  destruct (Hq Hs3) as (Hs4 & Ha4 & _). split; [done|]. rewrite Ha4, Ha3, Ha2, Ha1.
  unfold l_join. rewrite Ht. cbn [seats tables t_live t_next t_phase table_of]. rewrite Hid1.
  f_equal.
  - f_equal. unfold seat_of, sit. simpl. rewrite Hid1, Hn1, Hc1. f_equal.
    apply eq_true_iff_eq. rewrite bool_decide_eq_true, (live_nil r Hsh), Z.eqb_eq. lia.
  - rewrite insert_insert_eq. f_equal. unfold table_of. simpl. by rewrite Hn1, Hp1, <- Hl1.
Qed.

(** The JOIN that opens a room under a negative number. *)
Lemma join_stray_ok s ri ci r c msg created :
  slots_ok s -> g_rooms s !! ri = Some r -> r_id r < 0 -> room_shape r ->
  count r = 0 -> next_player_id r = 0 -> g_clients s !! ci = Some c -> 0 <= c_fd c ->
  let room := (room_add_member r (c_fd c)).2 in
  slots_ok (join_room write_status s ri ci room msg created) /\
  abs (join_room write_status s ri ci room msg created) = l_stray (c_fd c) (r_id r) (abs s).
Proof.
  intros Hs Hr Hid Hsh Hcnt Hnp Hc Hfd. cbv zeta.
  destruct (room_add_member_ok r (c_fd c) Hsh) as (r1 & -> & Hsh1 & _ & Hc1 & Hid1 & Hn1 & _);
    [by rewrite Hcnt|]. cbn [snd].
  unfold join_room. rewrite (client_at_eq s ci c Hc). cbv zeta.
  destruct (upd_room_out s ri r (fun _ => r1) Hs Hr) as [Hs1 Ha1]; [lia|lia|done|].
  set (s1 := upd_room ri (fun _ => r1) s) in *.
  assert (Hr1 : g_rooms s1 !! ri = Some r1) by (simpl; by rewrite list_lookup_alter_eq, Hr).
  assert (Hcl1 : g_clients s1 !! ci = Some c) by done. clearbody s1.
  destruct (upd_room_out s1 ri r1 (set_next_player_id (next_player_id r1 + 1)) Hs1 Hr1)
    as [Hs2 Ha2]; [lia|simpl; lia|done|].
  set (s2 := upd_room ri (set_next_player_id _) s1) in *.
  assert (Hcl2 : g_clients s2 !! ci = Some c) by done. clearbody s2.
  match goal with |- context [upd_client ci (upd_state ?f) s2] => set (sit := f) end.
  destruct (upd_client_ok s2 ci c (upd_state sit) Hs2 Hcl2 Hfd) as [Hs3 Ha3]; [done|].
  set (s3 := upd_client ci (upd_state sit) s2) in *. clearbody s3.
  match goal with |- slots_ok ?x /\ _ => assert (Hq : quiet s3 x) end.
  { eapply quiet_trans; [|apply mark_dirty_quiet]. eapply quiet_trans; [|by apply upd_room_quiet].
    eapply quiet_trans; [|apply room_push_sessions_ex_quiet]. by apply upd_client_quiet. }
  destruct (Hq Hs3) as (Hs4 & Ha4 & _). split; [done|]. rewrite Ha4, Ha3, Ha2, Ha1.
  unfold l_stray, seat_of, sit. simpl. by rewrite Hid1, Hn1, Hc1, Hcnt, Hnp.
Qed.

(** Every slot of the room table is in use - under whatever number. *)
Definition rooms_full (s : Admin) : Prop := Forall (fun r => r_id r <> 0) (g_rooms s).

(** The slot room_create fills. *)
Definition fresh_room (id : Z) (r : Room) : Room :=
  set_have_standings false (set_standings_dirty false (set_count 0
    (set_next_player_id 0 (set_r_seed 0 (set_r_phase SESSION_WAITING (set_r_id id r)))))).

Lemma fresh_room_shape id r : room_shape r -> room_shape (fresh_room id r).
Proof. intros [? ?]. split; simpl; [done|unfold MAX_ROOM_MEMBERS; lia]. Qed.

Lemma room_create_slot s id :
  slots_ok s -> id <> 0 ->
  (exists ri r0, g_rooms s !! ri = Some r0 /\ r_id r0 = 0 /\
     room_create s id = Some (Some ri, upd_room ri (fresh_room id) s)) \/
  (room_create s id = Some (None, s) /\ rooms_full s).
Proof.
  intros Hs Hid. unfold room_create. rewrite (proj2 (Z.eqb_neq _ _) Hid). cbn [mbind option_bind].
  destruct (list_find (fun r => r_id r = 0) (g_rooms s)) as [[ri r0]|] eqn:Ef; [left|right].
  - apply list_find_Some in Ef as (Hr0 & Hz & _). by exists ri, r0.
  - split; [done|]. apply list_find_None in Ef. eapply Forall_impl; [exact Ef|]. done.
Qed.

(** The number a room is created under. *)
Lemma room_create_id s want :
  slots_ok s -> want = 0 \/ 0 < want /\ tables (abs s) !! want = None ->
  exists id, room_create s want = room_create s id /\ 0 < id /\ tables (abs s) !! id = None /\
    (want <> 0 -> id = want).
Proof.
  intros Hs Hw. destruct (Z.eqb_spec want 0) as [->|Hne].
  - destruct (free_room_id_total s Hs) as (id & Hf & Hid & Hn). exists id. split_and!; try done.
    unfold room_create at 1. cbn [Z.eqb]. rewrite Hf. unfold room_create.
    by rewrite (proj2 (Z.eqb_neq id 0)) by lia.
  - exists want. destruct Hw as [?|[? ?]]; [done|]. by split_and!.
Qed.

Lemma room_create_ok s want :
  slots_ok s -> want = 0 \/ 0 < want /\ tables (abs s) !! want = None ->
  (exists ri s', room_create s want = Some (Some ri, s') /\ slots_ok s' /\
     g_clients s' = g_clients s /\
     exists r id, g_rooms s' !! ri = Some r /\ r_id r = id /\ 0 < id /\ count r = 0 /\
       room_shape r /\ tables (abs s) !! id = None /\ abs s' = l_open id (abs s) /\
       (want <> 0 -> id = want)) \/
  (room_create s want = Some (None, s) /\ rooms_full s).
Proof.
  intros Hs Hw. destruct (room_create_id s want Hs Hw) as (id & -> & Hid & Hn & Hwant).
  destruct (room_create_slot s id Hs) as [(ri & r0 & Hr0 & Hz & ->)|[-> Hfull]]; [lia|left|by right].
  exists ri, (upd_room ri (fresh_room id) s). split; [done|].
  assert (Hfree : ~ id_ok (r_id r0)) by (unfold id_ok; lia).
  assert (Hok : id_ok (r_id (fresh_room id r0))) by (unfold id_ok; simpl; lia).
  pose proof Hs as []. split; [split; simpl; rewrite ?length_alter; try done|].
  - eapply (slot_uniq_add r_id id_ok table_of); done.
  - apply Forall_alter; [done|]. intros. by apply fresh_room_shape.
  - split; [done|]. exists (fresh_room id r0), id. simpl. rewrite list_lookup_alter_eq, Hr0.
    split_and!; try done.
    + by apply fresh_room_shape, (Forall_lookup_1 _ _ _ _ so_shape0 Hr0).
    + unfold abs, l_open. simpl. f_equal.
      rewrite (slot_map_add r_id id_ok table_of _ ri r0) by done. done.
Qed.

Lemma room_create_stray_ok s want :
  slots_ok s -> want < 0 ->
  (exists ri s', room_create s want = Some (Some ri, s') /\ slots_ok s' /\ abs s' = abs s /\
     g_clients s' = g_clients s /\
     exists r, g_rooms s' !! ri = Some r /\ r_id r = want /\ count r = 0 /\ next_player_id r = 0 /\
       room_shape r) \/
  (room_create s want = Some (None, s) /\ rooms_full s).
Proof.
  intros Hs Hw. destruct (room_create_slot s want Hs) as [(ri & r0 & Hr0 & Hz & ->)|[-> Hfull]];
    [lia|left|by right].
  exists ri, (upd_room ri (fresh_room want) s).
  destruct (upd_room_out s ri r0 (fresh_room want) Hs Hr0) as [Hs' Ha];
    [lia|simpl; lia|apply fresh_room_shape|].
  split_and!; [done..|]. exists (fresh_room want r0). simpl. rewrite list_lookup_alter_eq, Hr0.
  split_and!; try done. by apply fresh_room_shape, (Forall_lookup_1 _ _ _ _ (so_shape s Hs) Hr0).
Qed.
End handlers.
