(* ===== verification/RoomSpec.v ===== *)
(** * RoomSpec: the admin thread as a transition system, and its contract

    The public entry points of tetriSH/src/tetrisd/room.c put together as the
    admin loop of tetrisd.c calls them (a session registers, a message arrives,
    a session goes, the batch is flushed), and the theorems about every state
    that can be reached and every message that is sent. *)

From stdpp Require Import options.
From S2P Require Import Prelude Piece AdminMsg Keyed Lobby Room RoomInv.
#[local] Open Scope Z_scope.

Section contract.
Context (write_status : list (Z * AdminMsg) -> Z -> AdminMsg -> Z) (rand : nat -> Z).

(** ** Joining, on every branch *)

(** The abstract outcome of a JOIN that was accepted: the room of that number is
    joined when there is one and opened otherwise, number 0 asks for any new room,
    and a negative number is a room that is in no table. *)
Definition joins (fd want : Z) (L L' : Lobby) : Prop :=
  (want < 0 /\ L' = l_stray fd want L) \/
  (exists id, 0 < id /\ (want <> 0 -> id = want) /\
    ((exists t, tables L !! id = Some t /\ t_phase t <> SESSION_PLAYING /\ want <> 0 /\
        L' = l_join fd id L) \/
     (tables L !! id = None /\ L' = l_join fd id (l_open id L)))).

Lemma outside_seat_of s ci c :
  slots_ok s -> g_clients s !! ci = Some c -> 0 <= c_fd c ->
  room_id (c_state c) = ROOM_NONE ->
  seats (abs s) !! c_fd c = Some (seat_of c) /\ s_room (seat_of c) < 0.
Proof.
  intros Hs Hc Hfd Hr. split; [|simpl; by rewrite Hr].
  apply (slot_map_lookup_1 c_fd fd_ok seat_of _ ci); auto with corestack.
Qed.

Lemma handle_join_ok s ci c msg :
  slots_ok s -> lobby_ok (abs s) -> g_clients s !! ci = Some c -> 0 <= c_fd c ->
  exists status s', handle_join write_status s ci msg = Some (status, s') /\ slots_ok s' /\
    ((status = REJECT_CONFLICT /\ abs s' = abs s /\
        (room_id (c_state c) <> ROOM_NONE \/
         exists t, tables (abs s) !! m_room_id msg = Some t /\ t_phase t = SESSION_PLAYING)) \/
     (status = REJECT_FULL /\ abs s' = abs s /\ rooms_full s) \/
     (status = 0 /\ room_id (c_state c) = ROOM_NONE /\
        joins (c_fd c) (m_room_id msg) (abs s) (abs s'))).
Proof.
  intros Hs HL Hc Hfd. unfold handle_join. rewrite (client_at_eq s ci c Hc).
  assert (Hrej : forall reason, slots_ok (send_reject write_status s ci reason) /\
    abs (send_reject write_status s ci reason) = abs s)
    by (intros; by eapply after_quiet; [apply send_quiet|..]).
  destruct (Z.eqb_spec (room_id (c_state c)) ROOM_NONE) as [Hrn|Hrn]; cbn [negb].
  2: { destruct (Hrej REJECT_CONFLICT). eexists _, _. split; [done|]. eauto 10. }
  destruct (outside_seat_of s ci c Hs Hc Hfd Hrn) as [Hseat Hout].
  destruct (if m_room_id msg =? 0 then None else room_find s (m_room_id msg)) as [ri|] eqn:Er.
  - case_match eqn:Hw; [done|]. bool_arith.
    destruct (room_find_Some s _ ri Hs Er) as (r & Hr & -> & Hrid & Hid & Ht & Hsh).
    case_bool_decide as Hplay.
    { destruct (Hrej REJECT_CONFLICT). eexists _, _. split; [done|]. split; [done|]. left.
      split_and!; [done..|]. right. by exists (table_of r). }
    cbn [mbind option_bind].
    assert (Hlt : count r < MAX_ROOM_MEMBERS).
    { apply (room_not_full s r (c_fd c) Hs HL); [by rewrite Hrid|done|eauto|].
      intros Hin. destruct HL as (Hcs & _ & _). rewrite <- Hrid in Ht.
      apply (tc_members _ _ _ (Hcs _ _ Ht)) in Hin as (st & Hst & Hroom).
      rewrite Hseat in Hst. injection Hst as <-. lia. }
    rewrite (room_at_eq s ri r Hr).
    destruct (join_room_ok write_status s ri ci r c msg (bool_decide (Some ri = None)))
      as [Hs' Ha']; [done|done|lia|done..|].
    destruct (room_add_member_ok r (c_fd c) Hsh Hlt) as (r' & Hadd & _).
    rewrite Hadd in *. cbn [negb snd] in *. eexists _, _. split; [done|]. split; [done|].
    right. right. split_and!; [done..|]. right. exists (r_id r). rewrite Hrid in *.
    split_and!; [done..|]. left. exists (table_of r). by split_and!.
  - destruct (decide (m_room_id msg < 0)) as [Hneg|Hwant].
    { destruct (room_create_stray_ok s (m_room_id msg) Hs Hneg)
        as [(ri & s1 & -> & Hs1 & Ha1 & Hcl & r & Hr & Hrid & Hcnt & Hnp & Hsh)|[-> Hfull]];
        cbn [mbind option_bind]; [|by destruct (Hrej REJECT_FULL); eexists _, _; split; eauto 10].
      rewrite (room_at_eq s1 ri r Hr). rewrite <- Hcl in Hc.
      match goal with |- context [join_room _ _ _ _ _ _ ?cr] =>
        destruct (join_stray_ok write_status s1 ri ci r c msg cr)
          as [Hs' Ha']; [done|done|lia|done..|] end.
      destruct (room_add_member_ok r (c_fd c) Hsh) as (r' & Hadd & _); [by rewrite Hcnt|].
      rewrite Hadd in *. cbn [negb snd] in *. eexists _, _. split; [done|]. split; [done|].
      right. right. split_and!; [done..|]. left. split; [done|]. by rewrite Ha', Ha1, Hrid. }
    assert (Hcase : m_room_id msg = 0 \/ 0 < m_room_id msg /\ tables (abs s) !! m_room_id msg = None).
    { destruct (Z.eqb_spec (m_room_id msg) 0); [by left|right]. split; [lia|].
      apply room_find_None; [done|lia|done]. }
    destruct (room_create_ok s (m_room_id msg) Hs Hcase)
      as [(ri & s1 & -> & Hs1 & Hcl & r & id & Hr & Hrid & Hid & Hcnt & Hsh & Hn & Ha1 & Hw)|[-> Hfull]];
      cbn [mbind option_bind].
    + rewrite (room_at_eq s1 ri r Hr). rewrite <- Hcl in Hc.
      assert (Hlt : count r < MAX_ROOM_MEMBERS) by (rewrite Hcnt; done).
      match goal with |- context [join_room _ _ _ _ _ _ ?cr] =>
        destruct (join_room_ok write_status s1 ri ci r c msg cr)
          as [Hs' Ha']; [done|done|lia|done..|] end.
      destruct (room_add_member_ok r (c_fd c) Hsh Hlt) as (r' & Hadd & _).
      rewrite Hadd in *. cbn [negb snd] in *. eexists _, _. split; [done|]. split; [done|].
      right. right. split_and!; [done..|]. right. exists id. split_and!; [done..|]. right.
      rewrite Ha', Ha1, Hrid. done.
    + destruct (Hrej REJECT_FULL). eexists _, _. split; [done|]. eauto 10.
Qed.

Lemma joins_ok fd old want L L' :
  lobby_ok L -> seats L !! fd = Some old -> s_room old < 0 -> joins fd want L L' -> lobby_ok L'.
Proof.
  intros HL Hfd Hold [[Hneg ->]|(id & Hid & _ & [(t & Ht & Hp & _ & ->)|[Hn ->]])].
  - by eapply l_stray_ok.
  - pose proof HL as (Hcs & _ & Ho). eapply (l_join_ok fd old id t); [by apply lobby_ok_but|done| | |done..].
    + by destruct (tc_phase _ _ _ (Hcs id t Ht)).
    + right. by apply (Ho id t Ht).
  - eapply (l_join_ok fd old id _); [by apply l_open_but|by apply lookup_insert_eq|done|by left|done..].
Qed.

(** ** The transition system *)

Definition admin_ok (s : Admin) : Prop := slots_ok s /\ lobby_ok (abs s).

Inductive admin_step : Admin -> Admin -> Prop :=
| step_add s fd pid :
    0 <= fd -> client_find s fd = None -> admin_step s (client_add write_status s fd pid)
| step_msg s fd msg s' :
    0 <= fd -> client_handle write_status rand s fd msg = Some s' ->
    admin_step s s'
| step_close s fd : 0 <= fd -> admin_step s (client_close write_status s fd)
| step_flush s : admin_step s (room_flush_updates write_status s)
| step_wedged s : admin_step s (client_take_wedged s).2.

Definition admin_start : Admin := ensure_init static_admin.

Lemma client_add_ok s fd pid :
  admin_ok s -> 0 <= fd -> client_find s fd = None ->
  admin_ok (client_add write_status s fd pid) /\
  (abs (client_add write_status s fd pid) = l_connect fd (abs s) \/
   abs (client_add write_status s fd pid) = abs s /\
   Z.of_nat (size (seats (abs s))) = MAX_SESSIONS).
Proof.
  intros [Hs HL] Hfd Hn. apply client_find_None in Hn; [|done..].
  unfold client_add. rewrite ensure_init_id by auto with corestack. unfold client_alloc.
  destruct (list_find (fun c => c_fd c < 0) (g_clients s)) as [[ci c]|] eqn:Ef.
  - apply list_find_Some in Ef as (Hc & Hneg & _).
    match goal with |- context [upd_client ci ?f s] => set (mk := f) end.
    assert (Hfree : ~ fd_ok (c_fd c)) by (unfold fd_ok; lia).
    assert (Ha : abs (upd_client ci mk s) = l_connect fd (abs s)).
    { unfold abs, l_connect. simpl. f_equal.
      rewrite (slot_map_add c_fd fd_ok seat_of _ ci c); auto with corestack. }
    split; [|by left]. split; [|rewrite Ha; by apply l_connect_ok].
    destruct Hs. split; simpl; rewrite ?length_alter; try done.
    by eapply (slot_uniq_add c_fd fd_ok seat_of).
  - destruct (send_quiet write_status s fd (set_m_reason REJECT_FULL (zero_msg ADMIN_REJECT)) Hs)
      as (Hs' & Ha' & _).
    split; [split; [done|by rewrite Ha']|]. right. split; [done|].
    unfold abs. simpl. rewrite slot_map_size by auto with corestack.
    apply list_find_None in Ef. rewrite length_filter_all.
    + by rewrite (so_clients s Hs).
    + eapply Forall_impl; [exact Ef|]. intros x Hx. unfold fd_ok. simpl in Hx. lia.
Qed.

Lemma client_handle_ok s fd msg :
  admin_ok s -> 0 <= fd ->
  exists s', client_handle write_status rand s fd msg = Some s' /\ admin_ok s'.
Proof.
  intros [Hs HL] Hfd. unfold client_handle. destruct (client_find s fd) as [ci|] eqn:Ef;
    [|by exists s].
  destruct (client_find_Some s fd ci Hs Hfd Ef) as (c & Hc & _ & <- & Hseat).
  assert (Hquiet : forall s', quiet s s' -> exists s0, Some s' = Some s0 /\ admin_ok s0).
  { intros s' Hq. exists s'. split; [done|]. destruct (Hq Hs) as (? & Ha & _). split; [done|by rewrite Ha]. }
  destruct (m_type msg); try (by exists s).
  - destruct (handle_join_ok s ci c msg Hs HL Hc Hfd) as (status & s' & -> & Hs' & Hcase).
    exists s'. split; [done|]. split; [done|].
    destruct Hcase as [(_ & -> & _)|[(_ & -> & _)|(_ & Hrn & Hj)]]; [done..|].
    destruct (outside_seat_of s ci c Hs Hc Hfd Hrn). by eapply joins_ok.
  - destruct (handle_leave_ok write_status s ci c Hs HL Hc Hfd) as [? Ha]. eexists. split; [done|].
    split; [done|]. rewrite Ha. by apply l_leave_ok.
  - pose proof (handle_start_ok write_status rand s ci c Hs HL Hc Hfd) as Hst.
    destruct (handle_start _ _ _ _) as [status s']. exists s'. split; [done|].
    destruct Hst as [? [[Ha _]|[Ha _]]]; (split; [done|]); rewrite Ha; [done|by apply l_start_ok].
  - apply Hquiet, handle_garbage_quiet.
  - destruct (handle_gameover_ok write_status s ci c msg Hs HL Hc Hfd) as [? Ha]. eexists. split; [done|].
    split; [done|]. rewrite Ha. by apply l_gameover_ok.
  - apply Hquiet, handle_score_quiet.
Qed.

Lemma admin_start_tables :
  g_clients admin_start = replicate (Z.to_nat MAX_SESSIONS) (set_c_fd (-1) zero_client) /\
  g_rooms admin_start = replicate (Z.to_nat MAX_ROOMS) zero_room.
Proof.
  unfold admin_start, ensure_init, static_admin.
  cbn [g_inited g_clients g_rooms set_g_clients set_g_rooms set_g_inited].
  by rewrite !fmap_replicate.
Qed.

Lemma zero_room_shape : room_shape zero_room.
Proof.
  unfold room_shape, zero_room. cbn [members count]. split; [exact (length_replicate _ _)|].
  unfold MAX_ROOM_MEMBERS. lia.
Qed.

Lemma admin_start_ok : admin_ok admin_start.
Proof.
  destruct admin_start_tables as [Hc Hr].
  assert (Habs : abs admin_start = mkLobby ∅ ∅).
  { unfold abs. rewrite Hc, Hr. unfold slot_map.
    assert (Hnil : forall {A} (P : A -> Prop) `{forall x, Decision (P x)} n x,
      ~ P x -> filter P (replicate n x) = []).
    { intros A P ? n x Hx. induction n; [done|]. simpl. by rewrite filter_cons_False. }
    rewrite !Hnil; [done| |]; unfold id_ok, fd_ok; simpl; lia. }
  split.
  - split.
    + done.
    + by rewrite Hc, length_replicate.
    + by rewrite Hr, length_replicate.
    + intros i j x y Hi _ Hok. rewrite Hc in Hi. apply lookup_replicate in Hi as [-> _].
      by destruct Hok.
    + intros i j x y Hi _ Hok. rewrite Hr in Hi. apply lookup_replicate in Hi as [-> _].
      unfold id_ok, zero_room in Hok. cbn [r_id] in Hok. lia.
    + rewrite Hr. apply Forall_replicate. exact zero_room_shape.
  - rewrite Habs. split_and!; simpl; intros ??; by rewrite lookup_empty.
Qed.

Lemma admin_step_ok s s' : admin_ok s -> admin_step s s' -> admin_ok s'.
Proof.
  intros Hok Hstep. destruct Hstep as [s fd pid Hfd Hn|s fd msg s' Hfd Heq|s fd Hfd|s|s].
  - by apply client_add_ok.
  - destruct (client_handle_ok s fd msg Hok Hfd) as (s1 & Heq1 & ?). congruence.
  - destruct Hok as [Hs HL]. destruct (client_close_ok write_status s fd Hs HL Hfd) as [? Ha].
    split; [done|]. rewrite Ha. by apply l_close_ok.
  - destruct Hok as [Hs HL]. destruct (room_flush_updates_quiet write_status s Hs) as (? & Ha & _).
    split; [done|by rewrite Ha].
  - destruct Hok as [Hs HL]. unfold client_take_wedged. destruct (g_wedged _); [done|].
    by destruct Hs.
Qed.

Lemma admin_steps_ok s : rtc admin_step admin_start s -> admin_ok s.
Proof.
  cut (forall s0, rtc admin_step s0 s -> admin_ok s0 -> admin_ok s); [eauto using admin_start_ok|].
  induction 1 as [s0|s0 s1 s2 Hstep _ IH]; [done|]. intros Hok. by eapply IH, admin_step_ok.
Qed.
End contract.
