(* ===== verification/Standings.v ===== *)
(** * Standings: the scoreboard and the winner

    The bounded insertion of tetriSH/src/tetrisd/room.c computes the first eight
    rows of the sorted list of all members, and the winner announced at the end
    of a round is the player on top of it. *)

From stdpp Require Import sorting options.
From S2P Require Import Prelude Piece AdminMsg Keyed Lobby Room RoomInv.
#[local] Open Scope Z_scope.

(** ** Bounded insertion keeps the first eight of an insertion sort *)

Fixpoint insert_by {A} (before : A -> A -> bool) (x : A) (l : list A) : list A :=
  match l with
  | [] => [x]
  | y :: l => if before y x then y :: insert_by before x l else x :: y :: l
  end.

(** Insertion sort in the order the members are visited. *)
Definition isort {A} (before : A -> A -> bool) (l : list A) : list A :=
  foldl (fun acc x => insert_by before x acc) [] l.

Section insertion.
Context {A : Type} (before : A -> A -> bool).

Lemma insert_pos_bounds l x : 0 <= insert_pos before l x <= Z.of_nat (length l).
Proof. induction l as [|y l IH]; simpl; [lia|]. destruct (before y x); lia. Qed.

Lemma insert_by_pos x l :
  insert_by before x l =
  take (Z.to_nat (insert_pos before l x)) l ++ x :: drop (Z.to_nat (insert_pos before l x)) l.
Proof.
  induction l as [|y l IH]; [done|]. simpl. destruct (before y x); [|done].
  pose proof (insert_pos_bounds l x). rewrite Z2Nat.inj_add by lia.
  change (Z.to_nat 1) with 1%nat. simpl. by rewrite IH at 1.
Qed.

Lemma insert_by_perm x l : insert_by before x l ≡ₚ x :: l.
Proof.
  induction l as [|y l IH]; [done|]. simpl. destruct (before y x); [|done].
  rewrite IH. apply Permutation_swap.
Qed.

Lemma isort_snoc l x : isort before (l ++ [x]) = insert_by before x (isort before l).
Proof. unfold isort. by rewrite foldl_app. Qed.

Lemma isort_perm l : isort before l ≡ₚ l.
Proof.
  induction l as [|x l IH] using rev_ind; [done|].
  by rewrite isort_snoc, insert_by_perm, IH, Permutation_cons_append.
Qed.

(** Cutting off before an insertion loses nothing that the cut would keep. *)
Lemma take_insert_by k x l :
  take k (insert_by before x (take k l)) = take k (insert_by before x l).
Proof.
  revert l. induction k as [|k IH]; intros [|y l]; try done. simpl. destruct (before y x).
  - simpl. by rewrite IH.
  - simpl. f_equal. destruct k; [done|]. simpl. f_equal. rewrite take_take. f_equal. lia.
Qed.

(** Shifting the tail of an eight-entry array down and writing the gap. *)
Lemma shift_down (arr : list A) n pos x :
  length arr = 8%nat -> 0 <= pos <= n -> n <= 8 -> pos < 8 ->
  let last := if n <? MAX_STANDINGS then n else MAX_STANDINGS - 1 in
  let n' := if n <? MAX_STANDINGS then n + 1 else n in
  let arr' := aset (foldl (fun arr k => aset arr k (aget x arr (k - 1))) arr
                (reverse (seqZ (pos + 1) (last - pos)))) pos x in
  length arr' = 8%nat /\ 0 <= n' <= 8 /\
  take (Z.to_nat n') arr' =
    take 8 (take (Z.to_nat pos) (take (Z.to_nat n) arr) ++ x :: drop (Z.to_nat pos) (take (Z.to_nat n) arr)).
Proof.
  intros Hl Hp Hn Hp8.
  do 8 (destruct arr as [|? arr]; [done|]). destruct arr; [|done].
  assert (Hin : n = 0 \/ n = 1 \/ n = 2 \/ n = 3 \/ n = 4 \/ n = 5 \/ n = 6 \/ n = 7 \/ n = 8) by lia.
  assert (Hpin : pos = 0 \/ pos = 1 \/ pos = 2 \/ pos = 3 \/ pos = 4 \/ pos = 5 \/ pos = 6 \/ pos = 7)
    by lia.
  clear Hl Hn Hp8. destruct_or! Hin; subst n; destruct_or! Hpin; subst pos; try lia;
    (split; [reflexivity|]); (split; [simpl; lia|]); reflexivity.
Qed.

Lemma bounded_insert_spec arr n x :
  length arr = 8%nat -> 0 <= n <= 8 ->
  let '(arr', n') := bounded_insert before (arr, n) x in
  length arr' = 8%nat /\ 0 <= n' <= 8 /\
  take (Z.to_nat n') arr' = take 8 (insert_by before x (take (Z.to_nat n) arr)).
Proof.
  intros Hl Hn. unfold bounded_insert. set (l := take (Z.to_nat n) arr).
  pose proof (insert_pos_bounds l x) as Hp.
  assert (Hll : length l = Z.to_nat n) by (unfold l; rewrite length_take; lia).
  rewrite (insert_by_pos x l). destruct (MAX_STANDINGS <=? _) eqn:Hfull; bool_arith.
  - split; [done|]. split; [done|]. unfold MAX_STANDINGS in *.
    assert (insert_pos before l x = 8) as -> by lia. assert (n = 8) as -> by lia.
    rewrite take_app_le by (rewrite length_take; lia).
    rewrite (take_ge (take _ l)) by (rewrite length_take; lia).
    unfold l. rewrite take_take. done.
  - unfold MAX_STANDINGS in Hfull. apply shift_down; lia.
Qed.

(** The whole loop, from the empty array. *)
Lemma bounded_insert_loop d rows :
  let '(arr, n) := foldl (bounded_insert before) (replicate (Z.to_nat MAX_STANDINGS) d, 0) rows in
  length arr = 8%nat /\ 0 <= n <= 8 /\ take (Z.to_nat n) arr = take 8 (isort before rows).
Proof.
  induction rows as [|x rows IH] using rev_ind; [by split_and!|].
  rewrite foldl_app, isort_snoc. destruct (foldl _ _ rows) as [arr n]. destruct IH as (Hl & Hn & Ht).
  cbn [foldl]. pose proof (bounded_insert_spec arr n x Hl Hn) as Hspec.
  destruct (bounded_insert before (arr, n) x) as [arr' n'].
  destruct Hspec as (Hl' & Hn' & Ht'). split_and!; try done; try lia.
  by rewrite Ht', Ht, take_insert_by.
Qed.
End insertion.

(** ** The ranking *)

Definition ranks_before (a b : PlayerStanding) : Prop := standing_ranks_before a b = true.

Lemma ranks_before_spec a b :
  ranks_before a b <->
  st_score b < st_score a \/ st_score a = st_score b /\ st_player_id a < st_player_id b.
Proof.
  unfold ranks_before, standing_ranks_before.
  destruct (Z.eqb_spec (st_score a) (st_score b)); simpl; rewrite Z.ltb_lt; lia.
Qed.

Lemma ranks_total a b :
  st_player_id a <> st_player_id b -> standing_ranks_before a b = false -> ranks_before b a.
Proof.
  intros Hne Hf. rewrite ranks_before_spec.
  assert (~ ranks_before a b) as Hn by (unfold ranks_before; congruence).
  rewrite ranks_before_spec in Hn. lia.
Qed.

Lemma insert_sorted x l :
  st_player_id x ∉ st_player_id <$> l -> StronglySorted ranks_before l ->
  StronglySorted ranks_before (insert_by standing_ranks_before x l).
Proof.
  intros Hni Hs. induction Hs as [|y l Hs IH Hy]; simpl; [repeat constructor|].
  rewrite fmap_cons, elem_of_cons in Hni.
  destruct (standing_ranks_before y x) eqn:E.
  - constructor; [apply IH; tauto|]. rewrite insert_by_perm. by constructor.
  - assert (ranks_before x y) as Hxy by (apply ranks_total; [intros Heq; apply Hni; left; congruence|done]).
    constructor; [by constructor|]. constructor; [done|].
    eapply Forall_impl; [exact Hy|]. intros z Hz. rewrite ranks_before_spec in *. lia.
Qed.

Lemma isort_sorted l :
  NoDup (st_player_id <$> l) -> StronglySorted ranks_before (isort standing_ranks_before l).
Proof.
  induction l as [|x l IH] using rev_ind; [constructor|].
  rewrite fmap_app, NoDup_app. intros (Hl & Hx & _). rewrite isort_snoc. apply insert_sorted; [|by apply IH].
  rewrite isort_perm. intros Hin. apply (Hx _ Hin). by apply list_elem_of_singleton.
Qed.

(** ** The rows of a room *)

(** The clients a room's loop visits. *)
Definition room_clients (s : Admin) (r : Room) : list Client :=
  omap (fun fd => client_at s <$> client_find s fd) (live r).

Lemma foldl_members {B} (s : Admin) (f : B -> Client -> B) b fds :
  foldl (fun acc fd => match client_find s fd with
                       | None => acc
                       | Some ci => f acc (client_at s ci)
                       end) b fds =
  foldl f b (omap (fun fd => client_at s <$> client_find s fd) fds).
Proof.
  revert b. induction fds as [|fd fds IH]; intros b; [done|]. simpl.
  destruct (client_find s fd); simpl; by rewrite IH.
Qed.

(** The connected clients whose state names the room. *)
Definition in_room (id : Z) (cs : list Client) : list Client :=
  filter (fun c => room_id (c_state c) = id /\ 0 <= c_fd c) cs.

Lemma in_room_NoDup s id : slots_ok s -> NoDup (in_room id (g_clients s)).
Proof.
  intros Hs. unfold in_room.
  rewrite <- (list_filter_filter (fun c => room_id (c_state c) = id) (fun c => 0 <= c_fd c)).
  apply NoDup_filter, (NoDup_fmap_1 c_fd). exact (slot_uniq_NoDup c_fd fd_ok _ (so_fds s Hs)).
Qed.

(** The loop visits exactly those. *)
Lemma room_clients_perm s id r :
  slots_ok s -> lobby_but id (abs s) -> tables (abs s) !! id = Some (table_of r) ->
  room_clients s r ≡ₚ in_room id (g_clients s).
Proof.
  intros Hs (Hcs & Hss & _) Ht. specialize (Hcs id _ Ht).
  assert (Hfind : forall fd, fd ∈ live r -> exists ci c, client_find s fd = Some ci /\
    g_clients s !! ci = Some c /\ client_at s ci = c /\ c_fd c = fd /\ 0 <= fd /\ room_id (c_state c) = id).
  { intros fd Hin. apply (tc_members _ _ _ Hcs) in Hin as (st & Hst & Hroom).
    destruct (Hss fd st Hst) as [Hfd _].
    destruct (client_find s fd) as [ci|] eqn:Ef;
      [|apply client_find_None in Ef; [congruence|done..]].
    destruct (client_find_Some s fd ci Hs Hfd Ef) as (c & Hc & Hat & Hcf & Hst').
    exists ci, c. rewrite Hst in Hst'. injection Hst' as ->. done. }
  apply NoDup_Permutation.
  - unfold room_clients. apply (NoDup_fmap_1 c_fd).
    assert (Heq : c_fd <$> omap (fun fd => client_at s <$> client_find s fd) (live r) = live r).
    { generalize (live r) as l, Hfind. intros l Hf. induction l as [|fd l IH]; [done|]. simpl.
      destruct (Hf fd) as (ci & c & -> & _ & Hat & Hcf & _); [apply elem_of_cons; by left|].
      simpl. rewrite Hat, Hcf. f_equal. apply IH. intros fd' Hin. apply Hf, elem_of_cons. by right. }
    rewrite Heq. apply Hcs.
  - by apply in_room_NoDup.
  - intros c. unfold room_clients, in_room. rewrite list_elem_of_omap, list_elem_of_filter. split.
    + intros (fd & Hin & Hfm). destruct (Hfind fd Hin) as (ci & c' & Hf & Hc & Hat & Hcf & Hfd & Hroom).
      rewrite Hf in Hfm. simpl in Hfm. injection Hfm as <-. rewrite Hat, Hcf. split; [done|].
      by eapply list_elem_of_lookup_2.
    + intros [[Hroom Hfd] [i Hi]%list_elem_of_lookup].
      assert (Hseat : seats (abs s) !! c_fd c = Some (seat_of c))
        by (apply (slot_map_lookup_1 c_fd fd_ok seat_of _ i); auto with corestack).
      assert (Hin : c_fd c ∈ live r) by (apply (tc_members _ _ _ Hcs); exists (seat_of c); done).
      exists (c_fd c). split; [done|].
      destruct (Hfind _ Hin) as (ci & c' & Hf & Hc & Hat & Hcf & _). rewrite Hf. simpl. f_equal.
      assert (i = ci) as -> by (eapply (so_fds s Hs i ci c c'); done). congruence.
Qed.

Lemma room_rows_NoDup s id r :
  slots_ok s -> lobby_but id (abs s) -> tables (abs s) !! id = Some (table_of r) ->
  NoDup (st_player_id <$> (standing_row <$> room_clients s r)).
Proof.
  intros Hs HL Ht. rewrite <- list_fmap_compose. rewrite (room_clients_perm s id r Hs HL Ht).
  destruct HL as (Hcs & _ & _). specialize (Hcs id _ Ht).
  assert (Hc : forall c, c ∈ in_room id (g_clients s) ->
    exists i, g_clients s !! i = Some c /\ 0 <= c_fd c /\ room_id (c_state c) = id /\
      seats (abs s) !! c_fd c = Some (seat_of c)).
  { intros c [[Hr Hfd] [i Hi]%list_elem_of_lookup]%list_elem_of_filter. exists i. split_and!; try done.
    apply (slot_map_lookup_1 c_fd fd_ok seat_of _ i); auto with corestack. }
  apply NoDup_fmap_2_strong.
  - intros c c' (i & Hi & Hfd & Hr & Hst)%Hc (j & Hj & Hfd' & Hr' & Hst')%Hc Heq. simpl in Heq.
    assert (c_fd c = c_fd c') as Hf by (eapply (tc_distinct _ _ _ Hcs); eauto).
    assert (i = j) as -> by (eapply (so_fds s Hs i j c c'); done). congruence.
  - by apply in_room_NoDup.
Qed.

(** ** The published message *)

Lemma standings_msg_spec s id r :
  slots_ok s -> lobby_but id (abs s) -> tables (abs s) !! id = Some (table_of r) ->
  let m := standings_msg s r in
  let l := isort standing_ranks_before (standing_row <$> room_clients s r) in
  StronglySorted ranks_before l /\ l ≡ₚ standing_row <$> in_room id (g_clients s) /\
  take (Z.to_nat (m_standing_count m)) (m_standings m) = take 8 l /\
  m_standing_count m = Z.min 8 (Z.of_nat (length l)).
Proof.
  intros Hs HL Ht. cbv zeta. unfold standings_msg.
  rewrite (foldl_members s (fun acc c => bounded_insert standing_ranks_before acc (standing_row c))).
  fold (room_clients s r). split; [by eapply isort_sorted, room_rows_NoDup|].
  split. { rewrite isort_perm. by rewrite (room_clients_perm s id r Hs HL Ht). }
  pose proof (bounded_insert_loop standing_ranks_before zero_standing
    (standing_row <$> room_clients s r)) as Hloop.
  assert (Hmap : forall acc, foldl (fun acc c => bounded_insert standing_ranks_before acc (standing_row c))
    acc (room_clients s r) = foldl (bounded_insert standing_ranks_before) acc
    (standing_row <$> room_clients s r)).
  { generalize (room_clients s r) as cs. induction cs as [|c cs IH]; intros acc; [done|]. apply IH. }
  rewrite Hmap. destruct (foldl _ _ _) as [arr n]. destruct Hloop as (Hl & Hn & Htake).
  cbn [m_standings m_standing_count set_m_standings]. split; [done|].
  apply (f_equal length) in Htake. rewrite !length_take in Htake. lia.
Qed.

(** ** The winner *)

(** The scan keeps the best row seen: see [winner_scan]. *)
Definition best_of (acc : Z * Z) (c : Client) : Z * Z :=
  let '(winner, best) := acc in
  if (best <? c_score c) || ((c_score c =? best) && (player_id (c_state c) <? winner))
  then (player_id (c_state c), c_score c) else acc.

Lemma winner_step_best s fds acc :
  foldl (winner_step s) acc fds =
  foldl best_of acc (omap (fun fd => client_at s <$> client_find s fd) fds).
Proof.
  revert acc. induction fds as [|fd fds IH]; intros [w b]; [done|]. simpl.
  destruct (client_find s fd); simpl; by rewrite IH.
Qed.

Lemma winner_scan cs :
  cs <> [] -> Forall (fun c => 0 <= c_score c) cs ->
  NoDup (st_player_id <$> (standing_row <$> cs)) ->
  exists c, c ∈ cs /\ foldl best_of (-1, -1) cs = (player_id (c_state c), c_score c) /\
    forall c', c' ∈ cs -> c' = c \/ ranks_before (standing_row c) (standing_row c').
Proof.
  induction cs as [|x cs IH] using rev_ind; [done|]. intros _ [Hsc Hx]%Forall_app Hnd.
  rewrite Forall_singleton in Hx. rewrite !fmap_app, NoDup_app in Hnd. destruct Hnd as (Hnd & Hni & _).
  rewrite foldl_app. cbn [foldl].
  destruct cs as [|y cs'] eqn:Ecs.
  { exists x. split; [apply elem_of_app; right; by apply list_elem_of_singleton|]. simpl.
    rewrite (proj2 (Z.ltb_lt _ _)) by lia. split; [done|].
    intros c' ->%list_elem_of_singleton. by left. }
  rewrite <- Ecs in *. destruct IH as (c & Hc & Heq & Hbest); [by rewrite Ecs|done|done|].
  rewrite Heq. unfold best_of.
  assert (Hneq : player_id (c_state x) <> player_id (c_state c)).
  { intros E. apply (Hni (player_id (c_state c))).
    - apply list_elem_of_fmap. exists (standing_row c). split; [done|]. by apply list_elem_of_fmap_2.
    - simpl. apply list_elem_of_singleton. done. }
  destruct (_ || _) eqn:Hb.
  - exists x. split; [apply elem_of_app; right; by apply list_elem_of_singleton|]. split; [done|].
    assert (Hxc : ranks_before (standing_row x) (standing_row c)).
    { rewrite ranks_before_spec. simpl.
      apply orb_true_iff in Hb as [?|[? ?]%andb_true_iff]; bool_arith; lia. }
    intros c' [Hc'|Hc'%list_elem_of_singleton]%elem_of_app; [|by left]. right.
    destruct (Hbest c' Hc') as [->|Hcc]; [done|]. rewrite ranks_before_spec in *. lia.
  - exists c. split; [apply elem_of_app; by left|]. split; [done|].
    intros c' [Hc'|Hc'%list_elem_of_singleton]%elem_of_app; [by apply Hbest|]. subst c'. right.
    apply orb_false_iff in Hb as [Hb1 Hb2]. apply andb_false_iff in Hb2.
    rewrite ranks_before_spec. simpl. destruct Hb2; bool_arith; lia.
Qed.
