(* ===== verification/RoomTheorems.v ===== *)
(** * RoomTheorems: what the room module guarantees

    The theorems about tetriSH/src/tetrisd/room.c, stated over every state the
    admin thread can reach, with the short runs that exercise them. *)

From stdpp Require Import sorting options.
From S2P Require Import Prelude Piece AdminMsg Keyed Lobby Room RoomInv RoomSpec Standings.
#[local] Open Scope Z_scope.

(** ** Running the admin thread *)

Inductive admin_event :=
| EvAdd (fd pid : Z) | EvMsg (fd : Z) (msg : AdminMsg) | EvClose (fd : Z) | EvFlush | EvWedged.

(** What the admin loop guarantees of an event: fds are descriptors, and a
    registered one is new. *)
Definition event_valid (s : Admin) (e : admin_event) : bool :=
  match e with
  | EvAdd fd _ => (0 <=? fd) && bool_decide (client_find s fd = None)
  | EvMsg fd _ => 0 <=? fd
  | EvClose fd => 0 <=? fd
  | EvFlush | EvWedged => true
  end.

Section run.
Context (write_status : list (Z * AdminMsg) -> Z -> AdminMsg -> Z) (rand : nat -> Z).

Definition admin_exec (s : Admin) (e : admin_event) : option Admin :=
  match e with
  | EvAdd fd pid => Some (client_add write_status s fd pid)
  | EvMsg fd msg => client_handle write_status rand s fd msg
  | EvClose fd => Some (client_close write_status s fd)
  | EvFlush => Some (room_flush_updates write_status s)
  | EvWedged => Some (client_take_wedged s).2
  end.

Fixpoint admin_run (s : Admin) (es : list admin_event) : option Admin :=
  match es with
  | [] => Some s
  | e :: es => if event_valid s e then s ← admin_exec s e; admin_run s es else None
  end.

Lemma admin_run_reach s es s' : admin_run s es = Some s' -> rtc (admin_step write_status rand) s s'.
Proof.
  revert s. induction es as [|e es IH]; intros s Hrun; simpl in Hrun.
  { simplify_eq. apply rtc_refl. }
  destruct (event_valid s e) eqn:Hv; [|done].
  destruct (admin_exec s e) as [s1|] eqn:He; [|done]. simpl in Hrun.
  eapply rtc_l; [|by apply IH]. destruct e as [fd pid|fd msg|fd| |]; cbn [admin_exec event_valid] in Hv, He.
  - apply andb_true_iff in Hv as [H1 H2%bool_decide_eq_true]. apply (inj Some) in He as <-.
    apply step_add; [by apply Z.leb_le|done].
  - apply Z.leb_le in Hv. exact (step_msg _ _ s fd msg s1 Hv He).
  - apply (inj Some) in He as <-. apply step_close. by apply Z.leb_le.
  - apply (inj Some) in He as <-. apply step_flush.
  - apply (inj Some) in He as <-. apply step_wedged.
Qed.
End run.

(** A network that accepts everything, and a counter for [rand]. *)
Definition quiet_net (_ : list (Z * AdminMsg)) (_ : Z) (_ : AdminMsg) : Z := 0.
Definition count_rand (n : nat) : Z := Z.of_nat n + 1.

Definition join_msg (room : Z) (name : string) : AdminMsg :=
  mkMsg ADMIN_JOIN room name 0 0 0 0 0 zero_session false [] 0.
Definition score_msg (ty : AdminMsgType) (score lines : Z) : AdminMsg :=
  mkMsg ty 0 EmptyString lines 0 score 0 0 zero_session false [] 0.

Lemma some_default {A} (d : A) (o : option A) :
  (match o with Some _ => true | None => false end) = true -> o = Some (default d o).
Proof. by destruct o. Qed.

(** Two players meet in room 7 and play a round up to the first game over. *)
Definition two_player_events : list admin_event :=
  [EvAdd 10 100; EvAdd 11 101;
   EvMsg 10 (join_msg 7 "ann"); EvMsg 11 (join_msg 7 EmptyString);
   EvMsg 10 (zero_msg ADMIN_START);
   EvMsg 11 (score_msg ADMIN_SCORE 300 2); EvFlush;
   EvMsg 11 (score_msg ADMIN_GAMEOVER 400 3)].

Definition two_players : Admin :=
  default admin_start (admin_run quiet_net count_rand admin_start two_player_events).

Lemma two_players_reach : rtc (admin_step quiet_net count_rand) admin_start two_players.
Proof.
  apply (admin_run_reach quiet_net count_rand admin_start two_player_events).
  apply some_default. vm_compute. reflexivity.
Qed.

(** ** The tables *)

(** C6: The two views of the room table agree in every state the admin thread can
    reach, JOINs of negative room numbers included: fds and room numbers are distinct,
    every room's member list is exactly the connected clients whose state names it,
    player ids are distinct within a room, a room has exactly one owner, and a client
    names a room that exists, no room, or a negative number, which is no room of the
    lobby's - however joins, leaves, crashes and rounds interleave. *)
Theorem room_tables_agree ws rd s :
  rtc (admin_step ws rd) admin_start s -> slots_ok s /\ lobby_ok (abs s).
Proof. apply admin_steps_ok. Qed.

Lemma room_tables_agree_witness : lobby_ok (abs two_players).
Proof. exact (proj2 (room_tables_agree quiet_net count_rand two_players two_players_reach)). Defined.

(** Every message is handled: the search for a free room number always ends
    (there are more candidates than room slots), so no message from a session
    can hang the admin thread. *)
Theorem client_handle_total ws rd s fd msg :
  rtc (admin_step ws rd) admin_start s -> 0 <= fd ->
  exists s', client_handle ws rd s fd msg = Some s'.
Proof.
  intros Hr Hfd. pose proof (admin_steps_ok ws rd s Hr) as Hok.
  destruct (client_handle_ok ws rd s fd msg Hok Hfd) as (s' & ? & _). eauto.
Qed.

Lemma client_handle_total_witness :
  exists s', client_handle quiet_net count_rand two_players 10 (join_msg 0 EmptyString) = Some s'.
Proof.
  refine (client_handle_total quiet_net count_rand two_players 10 _ two_players_reach _); lia.
Defined.

(** C20: The handlers implement the abstract lobby: a departure, a crash, a
    start and a game over do to the slots, the arrays and the client records
    exactly what the lobby's operation says, an accepted JOIN seats the client in
    the room it asked for (or a new one) while a refused one changes nothing, and
    scores, garbage and flushing change nothing of who sits where.  A room with a
    negative number is in no table of the lobby: a client that joined one is
    seated outside every table, and its departure takes it from none. *)
Theorem handlers_refine_lobby ws rd s fd ci :
  rtc (admin_step ws rd) admin_start s -> 0 <= fd -> client_find s fd = Some ci ->
  abs (handle_leave ws s ci) = l_leave fd (abs s) /\
  abs (client_close ws s fd) = l_close fd (abs s) /\
  (forall msg, abs (handle_gameover ws s ci msg) = l_gameover fd (abs s)) /\
  (let '(status, s') := handle_start ws rd s ci in
   if status =? 0 then abs s' = l_start (room_id (c_state (client_at s ci))) (abs s)
   else abs s' = abs s) /\
  (forall msg, abs (handle_score s ci msg) = abs s) /\
  (forall msg, abs (handle_garbage ws s ci msg) = abs s) /\
  (forall msg, exists status s', handle_join ws s ci msg = Some (status, s') /\
     if status =? 0 then joins fd (m_room_id msg) (abs s) (abs s') else abs s' = abs s) /\
  abs (room_flush_updates ws s) = abs s.
Proof.
  intros Hr Hfd Hf. destruct (admin_steps_ok ws rd s Hr) as [Hs HL].
  destruct (client_find_Some s fd ci Hs Hfd Hf) as (c & Hc & Hat & <- & _). rewrite Hat.
  split_and!.
  - by apply handle_leave_ok.
  - by apply client_close_ok.
  - intros msg. by apply handle_gameover_ok.
  - pose proof (handle_start_ok ws rd s ci c Hs HL Hc Hfd) as Hst.
    destruct (handle_start ws rd s ci) as [status s'].
    destruct Hst as [_ [[Ha Hne]|(Ha & -> & _)]]; [|done].
    by rewrite (proj2 (Z.eqb_neq _ _) Hne).
  - intros msg. by apply (handle_score_quiet s ci msg Hs).
  - intros msg. by apply (handle_garbage_quiet ws s ci msg Hs).
  - intros msg. destruct (handle_join_ok ws s ci c msg Hs HL Hc Hfd) as (status & s' & -> & _ & Hj).
    exists status, s'. split; [done|]. by destruct Hj as [(-> & ? & _)|[(-> & ? & _)|(-> & _ & ?)]].
  - by apply (room_flush_updates_quiet ws s Hs).
Qed.

Lemma handlers_refine_lobby_witness :
  abs (client_close quiet_net two_players 10) = l_close 10 (abs two_players).
Proof.
  assert (Hf : client_find two_players 10 = Some 0%nat) by (vm_compute; reflexivity).
  exact (proj1 (proj2 (handlers_refine_lobby quiet_net count_rand two_players 10 0
    two_players_reach ltac:(lia) Hf))).
Defined.

(** C37: A running round can always end: a room that a lookup finds and that is in
    [SESSION_PLAYING] has a member that is still playing, so a game over or a
    departure to come will settle it; no interleaving of joins (of any room number),
    leaves, closes and rounds leaves finished players waiting for a result that nobody
    can trigger. *)
Theorem running_round_has_player ws rd s id ri :
  rtc (admin_step ws rd) admin_start s -> room_find s id = Some ri ->
  r_phase (room_at s ri) = SESSION_PLAYING ->
  exists ci c, g_clients s !! ci = Some c /\ c_fd c ∈ live (room_at s ri) /\
    room_id (c_state c) = id /\ phase (c_state c) = SESSION_PLAYING.
Proof.
  intros Hr Hf Hp. destruct (admin_steps_ok ws rd s Hr) as [Hs HL].
  destruct (room_find_Some s id ri Hs Hf) as (r & _ & Hat & Hrid & _ & Ht & _). rewrite Hat in *.
  destruct HL as (Hcs & _ & Ho). destruct (Ho id _ Ht) as [_ Hplay].
  destruct (Hplay Hp) as (fd & st & Hst & Hroom & Hph).
  pose proof Hst as Hseat. apply (slot_map_lookup c_fd fd_ok seat_of) in Hst as (ci & c & Hc & _ & <- & <-);
    [|by apply so_fds].
  exists ci, c. split_and!; try done. apply (tc_members _ _ _ (Hcs id _ Ht)). by exists (seat_of c).
Qed.

Lemma running_round_has_player_witness :
  exists ci c, g_clients two_players !! ci = Some c /\ phase (c_state c) = SESSION_PLAYING.
Proof.
  assert (Hf : room_find two_players 7 = Some 0%nat) by (vm_compute; reflexivity).
  assert (Hp : r_phase (room_at two_players 0) = SESSION_PLAYING) by (vm_compute; reflexivity).
  destruct (running_round_has_player quiet_net count_rand two_players 7 0 two_players_reach Hf Hp)
    as (ci & c & Hc & _ & _ & Hph).
  exists ci, c. split; [exact Hc|exact Hph].
Defined.

(** ** The scoreboard *)

(** The scoreboard is the genuine top eight: its rows are the first eight of
    the list of all the room's members sorted by score and then join order, each
    with its name, score, lines and whether it has finished, whatever the order
    of the member array. *)
Theorem standings_are_top_eight ws rd s id ri :
  rtc (admin_step ws rd) admin_start s -> room_find s id = Some ri ->
  let m := standings_msg s (room_at s ri) in
  exists l, StronglySorted ranks_before l /\
    l ≡ₚ standing_row <$> in_room id (g_clients s) /\
    take (Z.to_nat (m_standing_count m)) (m_standings m) = take 8 l /\
    m_standing_count m = Z.min 8 (Z.of_nat (length l)).
Proof.
  intros Hr Hf. destruct (admin_steps_ok ws rd s Hr) as [Hs HL].
  destruct (room_find_Some s id ri Hs Hf) as (r & _ & -> & _ & _ & Ht & _). eexists.
  exact (standings_msg_spec s id r Hs (lobby_ok_but id _ HL) Ht).
Qed.

Lemma standings_are_top_eight_witness :
  let m := standings_msg two_players (room_at two_players 0) in
  m_standing_count m = 2 /\ st_player_id <$> head (m_standings m) = Some 1.
Proof.
  assert (Hf : room_find two_players 7 = Some 0%nat) by (vm_compute; reflexivity).
  destruct (standings_are_top_eight quiet_net count_rand two_players 7 0 two_players_reach Hf)
    as (l & _ & Hp & _ & Hn).
  split; [|vm_compute; reflexivity].
  rewrite Hn, Hp. vm_compute. reflexivity.
Defined.
