(* ===== verification/Handlers.v ===== *)
(** * Handlers: what no message changes

    The handlers of tetriSH/src/tetrisd/room.c are built from a few writes: a message
    sent, a room updated, a client updated with its descriptor left alone.  What
    those writes keep, every handler keeps.  Used for the set of descriptors in the
    client table, for the bound on the queue of stuck sessions and for the slots
    that hold a negative room number. *)

From stdpp Require Import options.
From S2P Require Import Prelude Piece AdminMsg Lobby Room RoomInv.
#[local] Open Scope Z_scope.

(** A write to a room slot that leaves a negative number in place. *)
Definition keeps_negative (s : Admin) (ri : nat) (f : Room -> Room) : Prop :=
  forall r, g_rooms s !! ri = Some r -> r_id r < 0 -> r_id (f r) = r_id r.

Lemma room_find_pos s id ri : room_find s id = Some ri -> 0 < r_id (room_at s ri).
Proof.
  unfold room_find. case_match eqn:Hid; [done|]. intros ([i r] & Hf & ->)%fmap_Some. bool_arith.
  apply list_find_Some in Hf as (Hr & Hk & _). unfold room_at. simpl. rewrite Hr. simpl. lia.
Qed.

Lemma keeps_positive s ri f : 0 < r_id (room_at s ri) -> keeps_negative s ri f.
Proof. intros Hp r Hr Hneg. unfold room_at in Hp. rewrite Hr in Hp. simpl in Hp. lia. Qed.

Lemma room_id_upd s ri ri' f :
  (forall r, r_id (f r) = r_id r) -> r_id (room_at (upd_room ri f s) ri') = r_id (room_at s ri').
Proof.
  intros Hf. unfold room_at. simpl. rewrite list_lookup_alter. case_decide as Hd; [|done].
  rewrite Hd. destruct (g_rooms s !! ri'); simpl; [apply Hf|done].
Qed.

Lemma room_del_id r fd : r_id (room_del_member r fd) = r_id r.
Proof. unfold room_del_member. by repeat case_match. Qed.

Lemma room_add_id r fd b r' : room_add_member r fd = (b, r') -> r_id r' = r_id r.
Proof. unfold room_add_member. intros. by case_match; simplify_eq. Qed.

Section frame.
#[local] Set Default Proof Using "All".
Context (ws : list (Z * AdminMsg) -> Z -> AdminMsg -> Z) (rd : nat -> Z).
Context (R : relation Admin) `{!PreOrder R}.
Context (R_send : forall s fd m, R s (send ws s fd m)).
Context (R_room : forall s ri f, keeps_negative s ri f -> R s (upd_room ri f s)).
Context (R_client : forall s ci f, (forall c, c_fd (f c) = c_fd c) -> R s (upd_client ci f s)).
Context (R_seed : forall s n, R s (set_g_rand n (set_g_seeded true s))).

Lemma R_id s ri f : (forall r, r_id (f r) = r_id r) -> R s (upd_room ri f s).
Proof. intros Hf. apply R_room. intros r _ _. apply Hf. Qed.

Lemma frame_foldl {A} (f : Admin -> A -> Admin) l s : (forall s x, R s (f s x)) -> R s (foldl f s l).
Proof. intros Hf. revert s. induction l as [|x l IH]; intros s; simpl; [done|]. etrans; [apply Hf|apply IH]. Qed.

Lemma frame_broadcast s ri m : R s (room_broadcast ws s ri m).
Proof. apply frame_foldl. intros. apply R_send. Qed.

Lemma frame_push_sessions s ri cfd : R s (room_push_sessions_ex ws s ri cfd).
Proof.
  unfold room_push_sessions_ex. case_match; [done|]. case_match. apply frame_foldl. intros s1 fd. case_match; [|done].
  etrans; [|apply R_send]. by apply R_client.
Qed.

Lemma frame_push_standings s ri : R s (room_push_standings ws s ri).
Proof. unfold room_push_standings. do 2 (case_match; [done|]). etrans; [|apply frame_broadcast]. by apply R_id. Qed.

Lemma frame_mark_dirty s ri : R s (room_mark_standings_dirty s ri).
Proof. destruct ri; simpl; [by apply R_id|done]. Qed.

Lemma frame_members s f fds : (forall c, c_fd (f c) = c_fd c) -> R s (for_members f s fds).
Proof. intros Hf. apply frame_foldl. intros s1 fd. case_match; [by apply R_client|done]. Qed.

Lemma frame_round_end s ri : R s (room_check_round_end ws s ri).2.
Proof.
  unfold room_check_round_end. destruct ri as [ri|]; [|done]. do 3 (case_match; [done|]). case_match. cbn [snd].
  etrans; [|by apply frame_members]. etrans; [|by apply R_id]. etrans; [|apply frame_broadcast].
  etrans; [|apply frame_push_standings]. by apply R_id.
Qed.

Lemma frame_member_left s ri was_owner : R s (room_member_left ws s ri was_owner).
Proof.
  unfold room_member_left.
  match goal with |- context [room_check_round_end ws ?s1 (Some ri)] => assert (H1 : R s s1);
    [|pose proof (frame_round_end s1 (Some ri)) as H2; destruct (room_check_round_end ws s1 (Some ri)) as [ended s2]] end.
  { destruct was_owner; [|done]. case_match; [by apply R_client|done]. }
  cbn [snd] in H2. assert (H3 : R s (room_push_sessions ws s2 ri)) by (etrans; [done|]; etrans; [done|apply frame_push_sessions]).
  destruct ended; simpl; [done|]. etrans; [done|by apply R_id].
Qed.

Lemma frame_del s ri fd : R s (upd_room ri (fun r => room_del_member r fd) s).
Proof. apply R_id. intros. apply room_del_id. Qed.

Lemma frame_leave s ci : R s (handle_leave ws s ci).
Proof.
  unfold handle_leave. case_match; [apply R_send|].
  match goal with |- context [send_session ws ?s1 ci] => assert (H1 : R s (send_session ws s1 ci)) end.
  { etrans; [|apply R_send]. etrans; [|by apply R_client]. case_match; [apply frame_del|done]. }
  destruct (room_find s (room_id (c_state (client_at s ci)))) as [ri|] eqn:Hf; [|done].
  case_match; (etrans; [exact H1|]); [|apply frame_member_left]. apply R_room, keeps_positive.
  apply room_find_pos in Hf. rewrite <- (room_id_upd s ri ri _ (fun r => room_del_id r (c_fd (client_at s ci)))) in Hf.
  exact Hf.
Qed.

Lemma frame_start s ci : R s (handle_start ws rd s ci).2.
Proof.
  unfold handle_start, send_reject. do 2 (case_match; [apply R_send|]). case_match; [|apply R_send].
  case_match; [apply R_send|]. unfold gen_seed. cbn [snd].
  etrans; [|apply frame_mark_dirty]. etrans; [|apply frame_broadcast]. etrans; [|by apply frame_members].
  etrans; [|by apply R_id]. etrans; [|by apply R_id]. apply R_seed.
Qed.

Lemma frame_create s want r s' : room_create s want = Some (r, s') -> R s s'.
Proof.
  unfold room_create. intros H. apply bind_Some in H as (id & _ & H). apply (inj Some) in H.
  destruct (list_find _ _) as [[ri r0]|] eqn:Hf; [|by simplify_eq]. simplify_eq. apply R_room.
  intros r1 Hr Hneg. apply list_find_Some in Hf as (Hr' & Hz & _). simplify_eq. lia.
Qed.

Lemma frame_join s ci msg v s' : handle_join ws s ci msg = Some (v, s') -> R s s'.
Proof.
  unfold handle_join, send_reject. do 2 (case_match; [intros; simplify_eq; apply R_send|]).
  intros Hj. apply bind_Some in Hj as ([r s1] & Hr & Hj). assert (H1 : R s s1).
  { clear Hj. destruct (if m_room_id msg =? 0 then None else room_find s (m_room_id msg)); [by simplify_eq|by eapply frame_create]. }
  destruct r as [ri|]; [|simplify_eq; etrans; [done|apply R_send]].
  destruct (room_add_member _ _) as [[|] room] eqn:Hadd; simpl in Hj; simplify_eq; (etrans; [exact H1|]); [|apply R_send].
  apply room_add_id in Hadd.
  unfold join_room. etrans; [|apply frame_mark_dirty]. etrans; [|by apply R_id]. etrans; [|apply frame_push_sessions].
  etrans; [|by apply R_client]. etrans; [|by apply R_client]. etrans; [|by apply R_id]. apply R_room.
  intros r Hr0 _. by rewrite Hadd, (room_at_eq _ _ _ Hr0).
Qed.

Lemma frame_gameover s ci msg : R s (handle_gameover ws s ci msg).
Proof.
  unfold handle_gameover. case_match; [done|]. etrans; [|apply frame_round_end]. etrans; [|apply frame_mark_dirty]. by apply R_client.
Qed.

Lemma frame_handle s fd msg s' : client_handle ws rd s fd msg = Some s' -> R s s'.
Proof.
  unfold client_handle. case_match; [|by intros; simplify_eq]. destruct (m_type msg); intros Hh; simplify_eq; try done.
  - apply fmap_Some in Hh as ([v s1] & Hh & ->). by eapply frame_join.
  - apply frame_leave.
  - apply frame_start.
  - unfold handle_garbage. do 2 (case_match; [done|]). case_match; [|done]. do 2 case_match. case_match; [done|apply R_send].
  - apply frame_gameover.
  - unfold handle_score. do 2 (case_match; [done|]). etrans; [|apply frame_mark_dirty]. by apply R_client.
Qed.

Lemma frame_flush s : g_inited s = true -> R s (room_flush_updates ws s).
Proof.
  intros Hi. unfold room_flush_updates. rewrite ensure_init_id by done. apply frame_foldl. intros s1 i. case_match; [done|].
  case_match; [|by apply R_id]. etrans; [|apply frame_push_standings]. by apply R_id.
Qed.

(** Closing, up to the slot it frees at the end. *)
Lemma frame_close s fd ci :
  client_find s fd = Some ci -> exists s1, R s s1 /\ client_close ws s fd = upd_client ci (set_c_fd (-1)) s1.
Proof.
  intros Hf. unfold client_close. rewrite Hf. eexists. split; [|reflexivity].
  case_match; [|done].
  destruct (room_find s (room_id (c_state (client_at s ci)))) as [ri|] eqn:Hr; [|done].
  case_match; (etrans; [apply (frame_del s ri fd)|]); [|apply frame_member_left].
  apply R_room, keeps_positive. rewrite room_id_upd by (intros; apply room_del_id). by eapply room_find_pos.
Qed.
End frame.
