(* ===== verification/RoomMessages.v ===== *)
(** * RoomMessages: who is told what

    Theorems about the messages tetriSH/src/tetrisd/room.c sends: the shared seed,
    the target of an attack, the result of a round, and the queue of sessions that
    stopped reading. *)

From stdpp Require Import sorting options.
From S2P Require Import Prelude Piece AdminMsg Keyed Lobby Room RoomInv RoomSpec Standings RoomTheorems Handlers.
#[local] Open Scope Z_scope.

(** ** The log of messages *)

Definition log (s : Admin) : list (Z * AdminMsg) := sent (g_net s).

Section log.
Context (ws : list (Z * AdminMsg) -> Z -> AdminMsg -> Z).

Lemma log_send s fd m : log (send ws s fd m) = log s ++ [(fd, m)].
Proof. unfold log, send, send_msg, mark_wedged. simpl. by repeat case_match. Qed.

Lemma log_sends s fds m : log (foldl (fun s fd => send ws s fd m) s fds) = log s ++ ((., m) <$> fds).
Proof.
  revert s. induction fds as [|fd fds IH]; intros s; simpl; [by rewrite app_nil_r|].
  by rewrite IH, log_send, <- app_assoc.
Qed.

Lemma log_broadcast s ri m : log (room_broadcast ws s ri m) = log s ++ ((., m) <$> live (room_at s ri)).
Proof. apply log_sends. Qed.

Lemma log_for_members f s fds : log (for_members f s fds) = log s.
Proof.
  unfold for_members. revert s. induction fds as [|fd fds IH]; intros s; simpl; [done|].
  rewrite IH. by case_match.
Qed.

Lemma rooms_broadcast s ri m : g_rooms (room_broadcast ws s ri m) = g_rooms s.
Proof.
  unfold room_broadcast. generalize (live (room_at s ri)) as fds. intros fds. revert s.
  induction fds as [|fd fds IH]; intros s; simpl; [done|]. by rewrite IH.
Qed.

Lemma rooms_for_members f s fds : g_rooms (for_members f s fds) = g_rooms s.
Proof.
  unfold for_members. revert s. induction fds as [|fd fds IH]; intros s; simpl; [done|].
  rewrite IH. by case_match.
Qed.
End log.

(** ** The shared seed *)

Lemma lxor_u32 x y : 0 <= Z.lxor (u32 x) (u32 y) <= UINT32_MAX.
Proof.
  pose proof (u32_range x) as Hx. pose proof (u32_range y) as Hy.
  split; [apply Z.lxor_nonneg; lia|].
  assert (Z.lxor (u32 x) (u32 y) < 2 ^ 32); [|unfold UINT32_MAX; lia].
  destruct (Z.eq_dec (Z.lxor (u32 x) (u32 y)) 0) as [->|Hne]; [lia|].
  assert (0 < Z.lxor (u32 x) (u32 y)) by (pose proof (proj2 (Z.lxor_nonneg (u32 x) (u32 y))); lia).
  apply Z.log2_lt_pow2; [done|]. eapply Z.le_lt_trans; [apply Z.log2_lxor; lia|].
  assert (Hlog : forall z, 0 <= z <= UINT32_MAX -> Z.log2 z < 32).
  { intros z Hz. destruct (Z.eq_dec z 0) as [->|]; [done|].
    apply Z.log2_lt_pow2; unfold UINT32_MAX in Hz; lia. }
  apply Z.max_lub_lt; by apply Hlog.
Qed.

Lemma gen_seed_range rd s : 0 <= (gen_seed rd s).1 <= UINT32_MAX.
Proof.
  unfold gen_seed. cbn [fst]. rewrite <- (u32_small (Z.lxor (u32 _) (u32 _))) by apply lxor_u32.
  apply lxor_u32.
Qed.

(** START.  Only the room's owner can start a round and only when none is
    running; everybody else hears 403 or 409 and nothing changes.  When it starts,
    one 32-bit seed is drawn and the same seed message goes to every member, once
    each, and to nobody else. *)
Theorem start_shares_one_seed ws rd s fd ci s' msg :
  rtc (admin_step ws rd) admin_start s -> 0 <= fd -> client_find s fd = Some ci ->
  m_type msg = ADMIN_START -> client_handle ws rd s fd msg = Some s' ->
  let c := client_at s ci in
  match room_find s (room_id (c_state c)) with
  | Some ri =>
      if is_owner (c_state c) then
        if bool_decide (r_phase (room_at s ri) = SESSION_PLAYING)
        then abs s' = abs s /\ log s' = log s ++ [(fd, set_m_reason REJECT_CONFLICT (zero_msg ADMIN_REJECT))]
        else exists sd, 0 <= sd <= UINT32_MAX /\ r_seed (room_at s' ri) = sd /\
          r_phase (room_at s' ri) = SESSION_PLAYING /\
          log s' = log s ++ ((., set_m_seed sd (zero_msg ADMIN_SEED)) <$> live (room_at s ri))
      else abs s' = abs s /\ log s' = log s ++ [(fd, set_m_reason REJECT_NOT_OWNER (zero_msg ADMIN_REJECT))]
  | None => exists reason, (reason = REJECT_CONFLICT \/ reason = REJECT_NOT_OWNER) /\
      abs s' = abs s /\ log s' = log s ++ [(fd, set_m_reason reason (zero_msg ADMIN_REJECT))]
  end.
Proof.
  intros Hreach Hfd Hf Hty Heq. destruct (admin_steps_ok ws rd s Hreach) as [Hs HL].
  destruct (client_find_Some s fd ci Hs Hfd Hf) as (c & Hc & Hat & Hcf & _). cbv zeta. rewrite Hat.
  unfold client_handle in Heq. rewrite Hf, Hty in Heq. apply (inj Some) in Heq as <-.
  unfold handle_start. rewrite Hat.
  assert (Hrej : forall reason, abs (send_reject ws s ci reason) = abs s /\
    log (send_reject ws s ci reason) = log s ++ [(fd, set_m_reason reason (zero_msg ADMIN_REJECT))]).
  { intros reason. unfold send_reject. rewrite log_send, Hat, Hcf. split; [|done].
    by apply (send_quiet ws s fd _ Hs). }
  destruct (Z.eqb_spec (room_id (c_state c)) ROOM_NONE) as [Hrn|Hrn].
  { rewrite Hrn. change (room_find s ROOM_NONE) with (@None nat). eexists. split; [by left|apply Hrej]. }
  destruct (client_room s ci c Hs HL Hc ltac:(by rewrite Hcf) Hrn)
    as [(ri & r & -> & Hr & Hrid & Hid & Hsh & Ht & _ & Hfds)|(-> & _)].
  2: { destruct (is_owner (c_state c)); cbn [negb]; eexists; (split; [|apply Hrej]); auto. }
  destruct (is_owner (c_state c)); cbn [negb]; [|apply Hrej].
  rewrite (room_at_eq s ri r Hr). case_bool_decide; [apply Hrej|].
  pose proof (gen_seed_range rd s) as Hsd. destruct (gen_seed rd s) as [sd s1] eqn:Egen.
  assert (Hs1 : g_rooms s1 = g_rooms s /\ log s1 = log s).
  { unfold gen_seed in Egen. injection Egen as _ <-. done. }
  clear Egen. destruct Hs1 as [Hr1 Hl1]. cbn [fst] in Hsd. exists sd. cbn [snd].
  set (s2 := upd_room ri (set_r_seed sd) s1).
  set (s3 := upd_room ri (set_r_phase SESSION_PLAYING) s2).
  assert (Hr3 : g_rooms s3 !! ri = Some (set_r_phase SESSION_PLAYING (set_r_seed sd r))).
  { unfold s3, s2. cbn [g_rooms upd_room set_g_rooms]. by rewrite !list_lookup_alter_eq, Hr1, Hr. }
  assert (Hl3 : log s3 = log s) by done. clearbody s2 s3.
  rewrite (room_at_eq s3 ri _ Hr3).
  set (s4 := for_members _ s3 _).
  assert (Hr4 : g_rooms s4 = g_rooms s3) by apply rooms_for_members.
  assert (Hl4 : log s4 = log s) by (unfold s4; by rewrite log_for_members). clearbody s4.
  assert (Hat4 : room_at s4 ri = set_r_phase SESSION_PLAYING (set_r_seed sd r)).
  { apply room_at_eq. by rewrite Hr4. }
  set (s5 := room_broadcast ws s4 ri _).
  assert (Hr5 : g_rooms s5 !! ri = Some (set_r_phase SESSION_PLAYING (set_r_seed sd r))).
  { unfold s5. by rewrite rooms_broadcast, Hr4. }
  assert (Hl5 : log s5 = log s ++ ((., set_m_seed sd (zero_msg ADMIN_SEED)) <$> live r)).
  { unfold s5. by rewrite log_broadcast, Hl4, Hat4. }
  clearbody s5.
  assert (Hfin : room_at (room_mark_standings_dirty s5 (Some ri)) ri =
    set_standings_dirty true (set_r_phase SESSION_PLAYING (set_r_seed sd r))).
  { apply room_at_eq. simpl. by rewrite list_lookup_alter_eq, Hr5. }
  rewrite Hfin. split; [exact Hsd|]. by split_and!.
Qed.

Lemma start_shares_one_seed_witness :
  let lobby := default admin_start (admin_run quiet_net count_rand admin_start
                 (take 4 two_player_events)) in
  let s' := default admin_start (client_handle quiet_net count_rand lobby 10 (zero_msg ADMIN_START)) in
  exists sd, log s' = log lobby ++ [(10, set_m_seed sd (zero_msg ADMIN_SEED));
                                    (11, set_m_seed sd (zero_msg ADMIN_SEED))].
Proof.
  intros lobby s'.
  assert (Hreach : rtc (admin_step quiet_net count_rand) admin_start lobby).
  { apply (admin_run_reach quiet_net count_rand admin_start (take 4 two_player_events)).
    apply some_default. vm_compute. reflexivity. }
  assert (Hf : client_find lobby 10 = Some 0%nat) by (vm_compute; reflexivity).
  assert (Hh : client_handle quiet_net count_rand lobby 10 (zero_msg ADMIN_START) = Some s')
    by (apply some_default; vm_compute; reflexivity).
  pose proof (start_shares_one_seed quiet_net count_rand lobby 10 0 s' (zero_msg ADMIN_START)
    Hreach ltac:(lia) Hf eq_refl Hh) as H.
  cbv zeta in H.
  assert (Hc : room_id (c_state (client_at lobby 0)) = 7) by (vm_compute; reflexivity).
  assert (Ho : is_owner (c_state (client_at lobby 0)) = true) by (vm_compute; reflexivity).
  assert (Hr : room_find lobby 7 = Some 0%nat) by (vm_compute; reflexivity).
  assert (Hp : bool_decide (r_phase (room_at lobby 0) = SESSION_PLAYING) = false) by (vm_compute; reflexivity).
  assert (Hl : live (room_at lobby 0) = [10; 11]) by (vm_compute; reflexivity).
  rewrite Hc, Hr, Ho, Hp, Hl in H. destruct H as (sd & _ & _ & _ & H). exists sd. exact H.
Defined.

(** ** Attacks *)

(** The members an attack may hit. *)
Definition targets (s : Admin) (sender : Z) (fds : list Z) : list Client :=
  filter (fun c => c_fd c <> sender /\ phase (c_state c) = SESSION_PLAYING)
    (omap (fun fd => client_at s <$> client_find s fd) fds).

Lemma client_find_fd s fd ci : client_find s fd = Some ci -> c_fd (client_at s ci) = fd.
Proof.
  intros Hf. unfold client_find in Hf. apply fmap_Some in Hf as ([i c] & Hf & ->).
  apply list_find_Some in Hf as (Hc & Hfd & _). simpl. by rewrite (client_at_eq s i c Hc).
Qed.

Lemma target_scan s sender fds :
  Forall (fun c => 0 <= c_score c) (targets s sender fds) ->
  let '(n, target, score_m) := foldl (target_step s sender) (0, -1, -1) fds in
  n = Z.of_nat (length (targets s sender fds)) /\
  (targets s sender fds = [] -> score_m = -1) /\
  (targets s sender fds <> [] -> exists t, t ∈ targets s sender fds /\ target = c_fd t /\
     score_m = c_score t /\ forall c, c ∈ targets s sender fds -> c_score c <= c_score t).
Proof.
  induction fds as [|fd fds IH] using rev_ind; [done|]. unfold targets in *.
  rewrite omap_app, list.filter_app, foldl_app, Forall_app. intros [Hsc Hx].
  specialize (IH Hsc). set (E := filter _ (omap _ fds)) in *.
  destruct (foldl _ _ fds) as [[n target] score_m]. destruct IH as (-> & Hnil & Hbest). cbn [foldl].
  unfold target_step. simpl omap in *.
  destruct (client_find s fd) as [ci|] eqn:Ef; simpl in *.
  2: { rewrite filter_nil, app_nil_r. destruct (fd =? sender); done. }
  pose proof (client_find_fd s fd ci Ef) as Hfd. set (t := client_at s ci) in *. clearbody t.
  rewrite filter_cons, filter_nil in *.
  destruct (Z.eqb_spec fd sender) as [He|He].
  { rewrite decide_False by (rewrite Hfd; tauto). by rewrite app_nil_r. }
  case_bool_decide as Hp; simpl.
  2: { rewrite decide_False by tauto. by rewrite app_nil_r. }
  rewrite decide_True in * by (rewrite Hfd; tauto). apply Forall_singleton in Hx.
  destruct (_ || _) eqn:Hb.
  - rewrite length_app. simpl. split_and!; [lia|by destruct E|]. intros _. exists t.
    split_and!; [apply elem_of_app; right; by apply list_elem_of_singleton|done..|].
    intros c [Hc|Hc%list_elem_of_singleton]%elem_of_app; [|by subst c].
    destruct (decide (E = [])) as [HE|HE]; [rewrite HE in Hc; by apply elem_of_nil in Hc|].
    destruct (Hbest HE) as (b & Hb1 & _ & Hb3 & Hb4). specialize (Hb4 c Hc).
    rewrite list.Forall_forall in Hsc. specialize (Hsc b Hb1). simpl in Hsc.
    apply orb_true_iff in Hb as [?|?]; bool_arith; lia.
  - apply orb_false_iff in Hb as [Hb1 Hb2]. bool_arith.
    assert (HE : E <> []) by (intros HE; by apply Hb1, Hnil).
    rewrite length_app. simpl. split_and!; [lia|by destruct E|]. intros _.
    destruct (Hbest HE) as (b & Hin & Ht & Hs & Hall). exists b.
    split_and!; [apply elem_of_app; by left|done..|].
    intros c [Hc|Hc%list_elem_of_singleton]%elem_of_app; [by apply Hall|]. subst c. lia.
Qed.

(** An attack goes to the leader.  A positive number of garbage rows from a
    player in a room is forwarded, unchanged and once, to one other member that
    is still playing and whose score no other such member exceeds; the sender and
    players who have topped out are never hit, and when nobody is left to hit
    nothing is sent. *)
Theorem garbage_hits_the_leader ws rd s fd ci ri msg s' :
  rtc (admin_step ws rd) admin_start s -> 0 <= fd -> client_find s fd = Some ci ->
  room_find s (room_id (c_state (client_at s ci))) = Some ri ->
  Forall (fun c => 0 <= c_score c) (g_clients s) ->
  m_type msg = ADMIN_GARBAGE -> 0 < m_lines msg -> client_handle ws rd s fd msg = Some s' ->
  let ts := targets s fd (live (room_at s ri)) in
  (ts = [] /\ log s' = log s) \/
  (exists t, t ∈ ts /\ (forall c, c ∈ ts -> c_score c <= c_score t) /\
     log s' = log s ++ [(c_fd t, set_m_lines (m_lines msg) (zero_msg ADMIN_RECV_GARBAGE))]).
Proof.
  intros Hreach Hfd Hf Hr Hsc Hty Hlines Heq. destruct (admin_steps_ok ws rd s Hreach) as [Hs HL].
  pose proof (client_find_fd s fd ci Hf) as Hcf. cbv zeta.
  unfold client_handle in Heq. rewrite Hf, Hty in Heq. apply (inj Some) in Heq as <-.
  unfold handle_garbage. rewrite Hcf, Hr.
  destruct (Z.eqb_spec (room_id (c_state (client_at s ci))) ROOM_NONE) as [E|_];
    [by rewrite E in Hr|].
  rewrite (proj2 (Z.leb_gt _ _)) by done.
  pose proof (target_scan s fd (live (room_at s ri))) as Hscan.
  destruct (foldl _ _ _) as [[n target] score_m]. destruct Hscan as (-> & _ & Hbest).
  { rewrite list.Forall_forall in Hsc |- *.
    intros c [_ (x & _ & Hx)%list_elem_of_omap]%list_elem_of_filter.
    destruct (client_find s x) as [cx|] eqn:Ex; [|done]. simpl in Hx. injection Hx as <-.
    apply Hsc. unfold client_find in Ex. apply fmap_Some in Ex as ([i c0] & Ex & ->).
    apply list_find_Some in Ex as (Hc0 & _). simpl. rewrite (client_at_eq s i c0 Hc0).
    by eapply list_elem_of_lookup_2. }
  destruct (Z.eqb_spec (Z.of_nat (length (targets s fd (live (room_at s ri))))) 0) as [Hz|Hz].
  - left. split; [|done]. apply length_zero_iff_nil. lia.
  - right. destruct Hbest as (t & Ht & -> & _ & Hall); [intros E; by rewrite E in Hz|].
    exists t. rewrite log_send. done.
Qed.

(** The two players of [two_player_events], both still playing. *)
Definition both_playing : Admin :=
  default admin_start (admin_run quiet_net count_rand admin_start (take 6 two_player_events)).

Lemma both_playing_reach : rtc (admin_step quiet_net count_rand) admin_start both_playing.
Proof.
  apply (admin_run_reach quiet_net count_rand admin_start (take 6 two_player_events)).
  apply some_default. vm_compute. reflexivity.
Qed.

Lemma garbage_hits_the_leader_witness :
  let s' := default admin_start
    (client_handle quiet_net count_rand both_playing 10 (score_msg ADMIN_GARBAGE 0 2)) in
  exists t, c_score t = 300 /\
    log s' = log both_playing ++ [(c_fd t, set_m_lines 2 (zero_msg ADMIN_RECV_GARBAGE))].
Proof.
  intros s'.
  assert (Hf : client_find both_playing 10 = Some 0%nat) by (vm_compute; reflexivity).
  assert (Hr : room_find both_playing (room_id (c_state (client_at both_playing 0))) = Some 0%nat)
    by (vm_compute; reflexivity).
  assert (Hsc : Forall (fun c => 0 <= c_score c) (g_clients both_playing))
    by (refine (bool_decide_unpack _ _); vm_compute; exact I).
  assert (Hh : client_handle quiet_net count_rand both_playing 10 (score_msg ADMIN_GARBAGE 0 2) = Some s')
    by (apply some_default; vm_compute; reflexivity).
  destruct (garbage_hits_the_leader quiet_net count_rand both_playing 10 0 0 (score_msg ADMIN_GARBAGE 0 2) s'
    both_playing_reach
    ltac:(lia) Hf Hr Hsc eq_refl ltac:(simpl; lia) Hh) as [[Hnil _]|(t & Ht & _ & Hl)].
  - exfalso. apply (f_equal length) in Hnil. vm_compute in Hnil. discriminate.
  - exists t. split; [|exact Hl].
    assert (Hts : c_score <$> targets both_playing 10 (live (room_at both_playing 0)) = [300])
      by (vm_compute; reflexivity).
    apply (list_elem_of_fmap_2 c_score) in Ht. rewrite Hts in Ht. by apply list_elem_of_singleton in Ht.
Defined.

(** ** The result of a round *)

Lemma sorted_head w rows l :
  StronglySorted ranks_before l -> l ≡ₚ rows -> w ∈ rows ->
  (forall x, x ∈ rows -> x = w \/ ranks_before w x) -> head l = Some w.
Proof.
  intros Hs Hp Hw Hbest. rewrite <- Hp in Hw. setoid_rewrite <- Hp in Hbest.
  destruct Hs as [|h l Hs Hh]; [by apply elem_of_nil in Hw|]. simpl.
  destruct (Hbest h) as [->|Hwh]; [apply elem_of_cons; by left|done|].
  apply elem_of_cons in Hw as [->|Hw]; [done|]. exfalso.
  rewrite list.Forall_forall in Hh. specialize (Hh w Hw). rewrite ranks_before_spec in *. lia.
Qed.

Section result.
Context (ws : list (Z * AdminMsg) -> Z -> AdminMsg -> Z).

Lemma log_push_standings s ri :
  r_id (room_at s ri) <> 0 -> count (room_at s ri) <> 0 ->
  log (room_push_standings ws s ri) = log s \/
  log (room_push_standings ws s ri) =
    log s ++ ((., standings_msg s (room_at s ri)) <$> live (room_at s ri)).
Proof.
  intros Hid Hc. unfold room_push_standings.
  rewrite (proj2 (Z.eqb_neq _ _) Hid), (proj2 (Z.eqb_neq _ _) Hc). cbn [orb].
  destruct (have_standings _ && _); [by left|right].
  rewrite log_broadcast. f_equal. f_equal. unfold room_at. simpl.
  destruct (g_rooms s !! ri) as [r|] eqn:Hr.
  - by rewrite list_lookup_alter_eq, Hr.
  - exfalso. apply Hc. unfold room_at. by rewrite Hr.
Qed.

(** A room all of whose members have finished. *)
Section finished.
Context (s : Admin) (ri : nat) (r : Room).
Context (Hs : slots_ok s) (HL : lobby_but (r_id r) (abs s)) (Hr : g_rooms s !! ri = Some r).
Context (Hid : 0 < r_id r) (Hne : live r <> []).
Context (Hover : Forall (fun c => phase (c_state c) = SESSION_GAME_OVER /\ 0 <= c_score c)
                   (in_room (r_id r) (g_clients s))).

Lemma finished_table : tables (abs s) !! r_id r = Some (table_of r).
Proof using All. apply (slot_map_lookup_1 r_id id_ok table_of _ ri); auto with corestack. Qed.

Lemma finished_clients : room_clients s r ≡ₚ in_room (r_id r) (g_clients s).
Proof using All. apply room_clients_perm; auto using finished_table. Qed.

Lemma finished_round_over : round_over s r = true.
Proof using All.
  unfold round_over. apply forallb_forall. intros fd Hfd%list_elem_of_In.
  destruct (client_find s fd) as [ci|] eqn:Ef; [|done]. apply bool_decide_eq_true.
  pose proof Hover as Ho. rewrite <- finished_clients, list.Forall_forall in Ho.
  apply (Ho (client_at s ci)). apply list_elem_of_omap. exists fd. by rewrite Ef.
Qed.

Lemma finished_nonempty : room_clients s r <> [].
Proof using All.
  intros E. pose proof HL as (Hcs & _ & _). specialize (Hcs _ _ finished_table).
  pose proof finished_clients as Hperm. destruct (live r) as [|f l] eqn:El; [done|].
  destruct (proj1 (tc_members _ _ _ Hcs f)) as (st & Hst & Hroom);
    [simpl; rewrite El; apply elem_of_cons; by left|].
  apply (slot_map_lookup c_fd fd_ok seat_of) in Hst as (ci & c & Hc & Hok & <- & <-); [|by apply so_fds].
  assert (c ∈ room_clients s r) as Hin.
  { rewrite Hperm. apply list_elem_of_filter. split; [done|]. by eapply list_elem_of_lookup_2. }
  rewrite E in Hin. by apply elem_of_nil in Hin.
Qed.

(** The scan and the scoreboard agree on who is first. *)
Lemma finished_winner :
  exists w, w ∈ in_room (r_id r) (g_clients s) /\
    foldl (winner_step s) (-1, -1) (live r) = (player_id (c_state w), c_score w) /\
    (forall c, c ∈ in_room (r_id r) (g_clients s) ->
       c = w \/ ranks_before (standing_row w) (standing_row c)) /\
    head (m_standings (standings_msg s r)) = Some (standing_row w).
Proof using All.
  pose proof finished_clients as Hperm. pose proof finished_table as Ht.
  destruct (winner_scan (room_clients s r) finished_nonempty) as (w & Hw & Hscan & Hbest).
  { rewrite Hperm. eapply Forall_impl; [exact Hover|]. by intros c []. }
  { exact (room_rows_NoDup s (r_id r) r Hs HL Ht). }
  exists w. rewrite winner_step_best. rewrite <- Hperm. setoid_rewrite <- Hperm.
  split_and!; try done.
  destruct (standings_msg_spec s (r_id r) r Hs HL Ht) as (Hsort & Hl & Htake & Hcnt).
  set (l := isort _ _) in *.
  assert (head l = Some (standing_row w)) as Hhl.
  { eapply sorted_head; [exact Hsort|exact Hl| |].
    - rewrite <- Hperm. by apply list_elem_of_fmap_2.
    - intros x (c & -> & Hc)%list_elem_of_fmap. rewrite <- Hperm in Hc.
      destruct (Hbest c Hc) as [->|]; auto. }
  destruct l as [|h l']; [done|]. cbn [head] in *.
  destruct (m_standings _) as [|h' arr']; [by rewrite take_nil in Htake|].
  destruct (Z.to_nat (m_standing_count (standings_msg s r))) as [|n]; [done|].
  injection Htake as -> _. done.
Qed.

(** The round is over: the final board, unless it was published already, and then
    the winner, to every member. *)
Lemma round_end_announces :
  r_phase r = SESSION_PLAYING ->
  exists w pre,
    w ∈ in_room (r_id r) (g_clients s) /\
    (forall c, c ∈ in_room (r_id r) (g_clients s) ->
       c = w \/ ranks_before (standing_row w) (standing_row c)) /\
    head (m_standings (standings_msg s r)) = Some (standing_row w) /\
    (pre = [] \/ pre = (., standings_msg s r) <$> live r) /\
    let '(ended, s') := room_check_round_end ws s (Some ri) in
    ended = true /\ r_phase (room_at s' ri) = SESSION_WAITING /\
    log s' = log s ++ pre ++
      ((., set_m_winner (player_id (c_state w)) (zero_msg ADMIN_RESULT)) <$> live r).
Proof using All.
  intros Hp. destruct finished_winner as (w & Hw & Hscan & Hbest & Hhead).
  assert (Hsh : room_shape r) by (by eapply Forall_lookup_1; [apply so_shape|]).
  assert (Hcz : count r <> 0) by (by rewrite <- (live_nil r Hsh)).
  assert (Hnz : r_id r <> 0) by lia.
  set (s1 := upd_room ri (set_standings_dirty false) s).
  assert (Hr1 : g_rooms s1 !! ri = Some (set_standings_dirty false r))
    by (simpl; by rewrite list_lookup_alter_eq, Hr).
  assert (Hlog : exists pre, (pre = [] \/ pre = (., standings_msg s r) <$> live r) /\
    log (room_push_standings ws s1 ri) = log s ++ pre).
  { destruct (log_push_standings s1 ri) as [E|E]; rewrite ?(room_at_eq s1 ri _ Hr1) in *; try done; rewrite E.
    - exists []. split; [by left|]. by rewrite app_nil_r.
    - eexists. split; [by right|done]. }
  destruct Hlog as (pre & Hpre & Hlog). exists w, pre. split_and!; try done.
  unfold room_check_round_end. rewrite (room_at_eq s ri r Hr), bool_decide_true by done.
  rewrite (proj2 (Z.eqb_neq _ _) Hcz), finished_round_over. cbn [negb]. rewrite Hscan.
  cbv beta iota zeta. fold s1. set (s2 := room_push_standings ws s1 ri) in *.
  assert (Hs1 : slots_ok s1) by (by apply upd_room_quiet).
  destruct (quiet_room s1 s2 ri _ (room_push_standings_quiet ws s1 ri) Hs1 Hr1 Hid)
    as (r2 & Hr2 & _ & Ht2).
  injection Ht2 as Hlive2 _ _. change (live (set_standings_dirty false r)) with (live r) in Hlive2.
  clearbody s2. set (s3 := room_broadcast ws s2 ri _).
  assert (Hr3 : g_rooms s3 !! ri = Some r2) by (unfold s3; by rewrite rooms_broadcast).
  assert (Hl3 : log s3 = (log s ++ pre) ++
    ((., set_m_winner (player_id (c_state w)) (zero_msg ADMIN_RESULT)) <$> live r)).
  { unfold s3. by rewrite log_broadcast, Hlog, (room_at_eq s2 ri r2 Hr2), Hlive2. }
  clearbody s3. split_and!; [done| |].
  - rewrite (room_at_eq _ ri (set_r_phase SESSION_WAITING r2)); [done|].
    rewrite rooms_for_members. simpl. by rewrite list_lookup_alter_eq, Hr3.
  - rewrite log_for_members. change (log (upd_room ri (set_r_phase SESSION_WAITING) s3)) with (log s3).
    by rewrite Hl3, app_assoc.
Qed.
End finished.
End result.

(** The last report of a round: [s] with the reporting client's final figures. *)
Definition reported (s : Admin) (ci : nat) (score : Z) : Admin :=
  upd_client ci (fun c => set_c_score score (upd_state (set_phase SESSION_GAME_OVER) c)) s.

(** The scoreboard names the winner.  When the last player of a round reports
    its game over, every member is sent the same result, its winner is the player
    on top of the final scoreboard (the best score, the earlier join on a tie),
    the scoreboard of these final figures has been published to them before it,
    and the room is back to waiting. *)
Theorem round_result_is_the_leader ws rd s fd ci ri msg s' :
  rtc (admin_step ws rd) admin_start s -> 0 <= fd -> client_find s fd = Some ci ->
  let id := room_id (c_state (client_at s ci)) in
  let final := reported s ci (m_score msg) in
  room_find s id = Some ri -> r_phase (room_at s ri) = SESSION_PLAYING ->
  Forall (fun c => phase (c_state c) = SESSION_GAME_OVER /\ 0 <= c_score c)
    (in_room id (g_clients final)) ->
  m_type msg = ADMIN_GAMEOVER -> client_handle ws rd s fd msg = Some s' ->
  exists w pre,
    w ∈ in_room id (g_clients final) /\
    (forall c, c ∈ in_room id (g_clients final) ->
       c = w \/ ranks_before (standing_row w) (standing_row c)) /\
    head (m_standings (standings_msg final (room_at s ri))) = Some (standing_row w) /\
    (pre = [] \/ pre = (., standings_msg final (room_at s ri)) <$> live (room_at s ri)) /\
    log s' = log s ++ pre ++
      ((., set_m_winner (player_id (c_state w)) (zero_msg ADMIN_RESULT)) <$> live (room_at s ri)) /\
    r_phase (room_at s' ri) = SESSION_WAITING.
Proof.
  intros Hreach Hfd Hf id final Hr Hp Hover Hty Heq. destruct (admin_steps_ok ws rd s Hreach) as [Hs HL].
  destruct (client_find_Some s fd ci Hs Hfd Hf) as (c & Hc & Hat & Hcf & Hseat).
  destruct (room_find_Some s id ri Hs Hr) as (r & Hri & Hratr & Hrid & Hidp & Ht & Hsh).
  rewrite Hratr in *. unfold client_handle in Heq. rewrite Hf, Hty in Heq. apply (inj Some) in Heq as <-.
  unfold handle_gameover. fold id.
  rewrite (proj2 (Z.eqb_neq id ROOM_NONE)) by (unfold ROOM_NONE; lia).
  fold (reported s ci (m_score msg)). fold final.
  assert (room_find final id = Some ri) as -> by exact Hr. cbn [room_mark_standings_dirty].
  set (s2 := upd_room ri (set_standings_dirty true) final).
  assert (Hr2 : g_rooms s2 !! ri = Some (set_standings_dirty true r))
    by (simpl; by rewrite list_lookup_alter_eq, Hri).
  assert (Hroom : room_id (c_state c) = id) by (unfold id; by rewrite Hat).
  destruct (upd_client_ok s ci c
    (fun c => set_c_score (m_score msg) (upd_state (set_phase SESSION_GAME_OVER) c)) Hs Hc)
    as [Hsf Haf]; [by rewrite Hcf|done|]. fold (reported s ci (m_score msg)) in Hsf, Haf. fold final in Hsf, Haf.
  destruct (mark_dirty_quiet final (Some ri) Hsf) as (Hs2 & Ha2 & _).
  cbn [room_mark_standings_dirty] in Hs2, Ha2. fold s2 in Hs2, Ha2.
  assert (Hbut : lobby_but id (abs s2)).
  { rewrite Ha2, Haf, Hcf. eapply (reseat_but id (table_of r) (abs s) fd (seat_of c));
      auto using lobby_ok_but. by left. }
  destruct (round_end_announces ws s2 ri (set_standings_dirty true r)) as (w & pre & H);
    [done|by rewrite <- Hrid in Hbut|done|simpl; lia| | |done|].
  - intros E. change (live (set_standings_dirty true r)) with (live r) in E.
    destruct HL as (Hcs & _ & _). specialize (Hcs _ _ Ht).
    assert (fd ∈ live r) as Hin by (apply (tc_members _ _ _ Hcs); exists (seat_of c); done).
    rewrite E in Hin. by apply elem_of_nil in Hin.
  - simpl. rewrite Hrid. exact Hover.
  - exists w, pre. simpl r_id in H. rewrite Hrid in H.
    destruct (room_check_round_end ws s2 (Some ri)) as [ended s3]. cbn [snd].
    destruct H as (H1 & H2 & H3 & H4 & _ & H5 & H6). split_and!; done.
Qed.

Lemma round_result_is_the_leader_witness :
  let s' := default admin_start
    (client_handle quiet_net count_rand two_players 10 (score_msg ADMIN_GAMEOVER 400 3)) in
  exists w pre, player_id (c_state w) = 0 /\
    log s' = log two_players ++ pre ++
      [(10, set_m_winner 0 (zero_msg ADMIN_RESULT)); (11, set_m_winner 0 (zero_msg ADMIN_RESULT))].
Proof.
  intros s'.
  assert (Hf : client_find two_players 10 = Some 0%nat) by (vm_compute; reflexivity).
  assert (Hr : room_find two_players (room_id (c_state (client_at two_players 0))) = Some 0%nat)
    by (vm_compute; reflexivity).
  assert (Hp : r_phase (room_at two_players 0) = SESSION_PLAYING) by (vm_compute; reflexivity).
  assert (Hover : Forall (fun c => phase (c_state c) = SESSION_GAME_OVER /\ 0 <= c_score c)
    (in_room (room_id (c_state (client_at two_players 0))) (g_clients (reported two_players 0 400))))
    by (refine (bool_decide_unpack _ _); vm_compute; exact I).
  assert (Hh : client_handle quiet_net count_rand two_players 10 (score_msg ADMIN_GAMEOVER 400 3) = Some s')
    by (apply some_default; vm_compute; reflexivity).
  destruct (round_result_is_the_leader quiet_net count_rand two_players 10 0 0
    (score_msg ADMIN_GAMEOVER 400 3) s' two_players_reach ltac:(lia) Hf Hr Hp Hover eq_refl Hh)
    as (w & pre & _ & _ & Hhead & _ & Hlog & _).
  assert (Hw : player_id (c_state w) = 0).
  { assert (Hrow : st_player_id <$> head (m_standings (standings_msg
      (reported two_players 0 (m_score (score_msg ADMIN_GAMEOVER 400 3))) (room_at two_players 0))) = Some 0)
      by (vm_compute; reflexivity).
    rewrite Hhead in Hrow. simpl in Hrow. congruence. }
  assert (Hl : live (room_at two_players 0) = [10; 11]) by (vm_compute; reflexivity).
  rewrite Hw, Hl in Hlog. exists w, pre. split; [exact Hw|exact Hlog].
Defined.

(** ** Sessions that stopped reading *)

Lemma wedge_all ws s fds m :
  (forall h fd, fd ∈ fds -> ws h fd m = ADMINMSG_WOULDBLOCK) ->
  NoDup (g_wedged (g_net s) ++ fds) -> (length (g_wedged (g_net s)) <= 16)%nat ->
  g_wedged (g_net (foldl (fun s fd => send ws s fd m) s fds)) =
  take 16 (g_wedged (g_net s) ++ fds).
Proof.
  revert s. induction fds as [|fd fds IH]; intros s Hws Hnd Hlen; cbn [foldl].
  { rewrite app_nil_r. by rewrite take_ge by lia. }
  set (q := g_wedged (g_net s)) in *.
  assert (Hq : g_wedged (g_net (send ws s fd m)) = if decide (length q < 16)%nat then q ++ [fd] else q).
  { unfold send, send_msg. simpl. rewrite Hws by (apply elem_of_cons; by left). simpl.
    unfold mark_wedged. simpl. fold q. rewrite bool_decide_false.
    - unfold WEDGED_MAX. destruct (Z.ltb_spec (Z.of_nat (length q)) 16); case_decide; simpl; try lia; done.
    - intros Hin. apply NoDup_app in Hnd as (_ & Hd & _). apply (Hd fd Hin), elem_of_cons. by left. }
  rewrite IH; rewrite ?Hq.
  - case_decide; [by rewrite <- app_assoc|].
    rewrite !take_app_le by lia. done.
  - intros h f Hf. apply Hws, elem_of_cons. by right.
  - case_decide; [by rewrite <- app_assoc|].
    apply NoDup_app in Hnd as (H1 & H2 & H3). apply NoDup_app. apply NoDup_cons in H3 as [_ H3].
    split_and!; [done| |done]. intros x Hx Hx'. apply (H2 x Hx), elem_of_cons. by right.
  - case_decide; rewrite ?length_app; simpl; lia.
Qed.

(** A broadcast that finds sessions not reading queues them for the admin to
    close, each once and in order - but only the first sixteen: in a room with
    more stuck members than that, a member whose stream was left torn in the
    middle of a message is not queued. *)
Theorem broadcast_queues_sixteen ws s ri m :
  (forall h fd, fd ∈ live (room_at s ri) -> ws h fd m = ADMINMSG_WOULDBLOCK) ->
  NoDup (live (room_at s ri)) -> g_wedged (g_net s) = [] ->
  g_wedged (g_net (room_broadcast ws s ri m)) = take 16 (live (room_at s ri)).
Proof.
  intros Hws Hnd Hq. unfold room_broadcast. rewrite wedge_all; rewrite ?Hq; simpl; try done. lia.
Qed.

(** A room of seventeen members none of whom reads: member 17 is not queued. *)
Lemma broadcast_queues_sixteen_witness :
  let r := set_count 17 (set_members (seqZ 100 1024) (set_r_id 1 zero_room)) in
  let s := set_g_rooms [r] static_admin in
  let s' := room_broadcast (fun _ _ _ => ADMINMSG_WOULDBLOCK) s 0 (zero_msg ADMIN_RESULT) in
  g_wedged (g_net s') = seqZ 100 16 /\ 116 ∈ live r /\ 116 ∉ g_wedged (g_net s').
Proof.
  intros r s s'.
  assert (Hl : live (room_at s 0) = seqZ 100 17) by (vm_compute; reflexivity).
  assert (Hq : g_wedged (g_net s') = take 16 (live (room_at s 0))).
  { apply (broadcast_queues_sixteen (fun _ _ _ => ADMINMSG_WOULDBLOCK)).
    - intros. reflexivity.
    - rewrite Hl. apply NoDup_seqZ.
    - reflexivity. }
  rewrite Hq, Hl. change (take 16 (seqZ 100 17)) with (seqZ 100 16).
  split; [reflexivity|]. split.
  - change (live r) with (live (room_at s 0)). rewrite Hl. apply elem_of_seqZ. lia.
  - rewrite elem_of_seqZ. lia.
Defined.

(** ** Rooms with negative numbers *)

(** The room slots in use. *)
Definition used_rooms (s : Admin) : nat := length (filter (fun id => id <> 0) (r_id <$> g_rooms s)).

Lemma filter_insert_nonzero (l : list Z) i v :
  l !! i = Some 0 -> v <> 0 ->
  length (filter (fun id => id <> 0) (<[i := v]> l)) = S (length (filter (fun id => id <> 0) l)).
Proof.
  revert i. induction l as [|x l IH]; intros [|i] Hi Hv; simplify_eq/=.
  - by rewrite filter_cons_True, filter_cons_False by tauto.
  - rewrite !filter_cons. specialize (IH i Hi Hv). case_decide; simpl; congruence.
Qed.

Section negative.
Context (ws : list (Z * AdminMsg) -> Z -> AdminMsg -> Z).

Lemma push_sessions_tables s ri cfd :
  g_rooms (room_push_sessions_ex ws s ri cfd) = g_rooms s /\
  (fun c => room_id (c_state c)) <$> g_clients (room_push_sessions_ex ws s ri cfd) =
  (fun c => room_id (c_state c)) <$> g_clients s.
Proof.
  unfold room_push_sessions_ex. case_match; [done|]. destruct (foldl _ _ _) as [ros n].
  generalize (live (room_at s ri)) as fds. clear H. intros fds. revert s.
  induction fds as [|fd fds IH]; intros s; cbn [foldl]; [done|].
  destruct (client_find s fd) as [ci|]; [|by apply IH].
  match goal with |- context [foldl _ ?x fds] => set (s1 := x) end.
  destruct (IH s1) as [-> ->]. split; [done|]. unfold s1. simpl. by rewrite fmap_key_alter.
Qed.

Lemma join_room_tables s ri ci room msg created :
  r_id <$> g_rooms (join_room ws s ri ci room msg created) =
    <[ri := r_id room]> (r_id <$> g_rooms s) /\
  (fun c => room_id (c_state c)) <$> g_clients (join_room ws s ri ci room msg created) =
    alter (fun _ => r_id room) ci ((fun c => room_id (c_state c)) <$> g_clients s).
Proof.
  unfold join_room. cbv zeta.
  match goal with |- context [room_push_sessions_ex ws ?x ri ?f] =>
    pose proof (push_sessions_tables x ri f) as [Hr Hc]; set (s5 := room_push_sessions_ex ws x ri f) in * end.
  cbn [room_mark_standings_dirty upd_room set_g_rooms g_rooms g_clients].
  rewrite !fmap_key_alter, Hr, Hc by done. simpl. split.
  - rewrite fmap_key_alter by done. apply list_eq. intros j. rewrite list_lookup_fmap.
    destruct (decide (ri = j)) as [<-|Hne].
    + rewrite list_lookup_alter_eq. destruct (g_rooms s !! ri) as [r|] eqn:E; simpl.
      * rewrite list_lookup_insert_eq; [done|]. rewrite length_fmap. by eapply lookup_lt_Some.
      * symmetry. apply lookup_ge_None_2. rewrite length_insert, length_fmap. by apply lookup_ge_None.
    + by rewrite list_lookup_alter_ne, list_lookup_insert_ne, list_lookup_fmap.
  - rewrite fmap_key_alter by done. apply list_eq. intros j. rewrite list_lookup_fmap.
    destruct (decide (ci = j)) as [<-|Hne].
    + rewrite !list_lookup_alter_eq, list_lookup_fmap. by destruct (g_clients s !! ci).
    + by rewrite !list_lookup_alter_ne, list_lookup_fmap.
Qed.

(** A JOIN for a negative number, given a free slot: the slot is filled under that
    number. *)
Lemma negative_join s ci c msg ri r0 :
  g_clients s !! ci = Some c -> room_id (c_state c) = ROOM_NONE -> m_room_id msg < 0 ->
  list_find (fun r => r_id r = 0) (g_rooms s) = Some (ri, r0) ->
  exists s1, handle_join ws s ci msg = Some (0, s1) /\
    r_id <$> g_rooms s1 = <[ri := m_room_id msg]> (r_id <$> g_rooms s).
Proof.
  intros Hc Hrn Hneg Hfree. set (want := m_room_id msg) in *.
  pose proof Hfree as (Hr0 & Hz & _)%list_find_Some.
  unfold handle_join. rewrite (client_at_eq s ci c Hc), Hrn. cbn [negb Z.eqb ROOM_NONE Pos.eqb]. fold want.
  assert (Hnf : forall s', room_find s' want = None).
  { intros s'. unfold room_find. by rewrite (proj2 (Z.leb_le _ _)) by lia. }
  rewrite Hnf, (proj2 (Z.eqb_neq want 0)) by lia. unfold room_create.
  rewrite (proj2 (Z.eqb_neq want 0)) by lia. cbn [mbind option_bind]. rewrite Hfree.
  set (s0 := upd_room ri _ s).
  assert (Hat0 : room_at s0 ri = set_have_standings false (set_standings_dirty false (set_count 0
    (set_next_player_id 0 (set_r_seed 0 (set_r_phase SESSION_WAITING (set_r_id want r0))))))).
  { apply room_at_eq. simpl. by rewrite list_lookup_alter_eq, Hr0. }
  rewrite Hat0. unfold room_add_member. cbn [count set_have_standings set_standings_dirty set_count].
  change (MAX_ROOM_MEMBERS <=? 0) with false. cbn [negb]. eexists. split; [reflexivity|].
  match goal with |- context [join_room ws s0 ri ci ?room msg ?cr] =>
    pose proof (join_room_tables s0 ri ci room msg cr) as [Hr1 Hc1]; set (s1 := join_room ws s0 ri ci room msg cr) in * end.
  { rewrite Hr1. simpl. apply list_eq. intros j. destruct (decide (ri = j)) as [<-|Hne].
    - rewrite !list_lookup_insert_eq; [done|..]; rewrite ?length_fmap, ?length_alter; by eapply lookup_lt_Some.
    - by rewrite !list_lookup_insert_ne, !list_lookup_fmap, list_lookup_alter_ne. }
Qed.

(** What every step of the admin thread keeps: the slots with negative numbers. *)
Definition leaks_on (s s' : Admin) : Prop :=
  forall ri r, g_rooms s !! ri = Some r -> r_id r < 0 ->
    exists r', g_rooms s' !! ri = Some r' /\ r_id r' = r_id r.

#[export] Instance leaks_on_preorder : PreOrder leaks_on.
Proof.
  split; [intros s ri r Hr _; by exists r|]. intros s1 s2 s3 H1 H2 ri r Hr Hneg.
  destruct (H1 ri r Hr Hneg) as (r2 & Hr2 & Hid). rewrite <- Hid in *. by apply H2.
Qed.

Lemma leaks_on_rooms s s' : g_rooms s' = g_rooms s -> leaks_on s s'.
Proof. intros E ri r Hr _. exists r. by rewrite E. Qed.

Lemma leaks_on_room s ri f : keeps_negative s ri f -> leaks_on s (upd_room ri f s).
Proof.
  intros Hf rj r Hr Hneg. simpl. rewrite list_lookup_alter. case_decide as Hd; [|by exists r].
  subst. rewrite Hr. simpl. exists (f r). split; [done|]. by apply Hf.
Qed.

Lemma leaks_on_step rd s s' : admin_ok s -> admin_step ws rd s s' -> leaks_on s s'.
Proof.
  intros [Hs _] Hstep.
  assert (Hfr : forall s fd m, leaks_on s (send ws s fd m)) by (intros; by apply leaks_on_rooms).
  assert (Hfc : forall s ci f, leaks_on s (upd_client ci f s)) by (intros; by apply leaks_on_rooms).
  assert (Hfs : forall s n, leaks_on s (set_g_rand n (set_g_seeded true s))) by (intros; by apply leaks_on_rooms).
  destruct Hstep as [s fd pid _ _|s fd msg s' _ Heq|s fd _|s|s].
  - unfold client_add. rewrite ensure_init_id by auto with corestack.
    unfold client_alloc. destruct (list_find _ _) as [[ci c]|]; by apply leaks_on_rooms.
  - eapply (frame_handle ws rd leaks_on); eauto using leaks_on_room.
  - destruct (client_find s fd) as [ci|] eqn:Hf; [|unfold client_close; by rewrite Hf].
    destruct (frame_close ws rd leaks_on Hfr leaks_on_room (fun s ci f _ => Hfc s ci f) Hfs s fd ci Hf)
      as (s1 & H1 & ->). etrans; [exact H1|]. apply Hfc.
  - apply (frame_flush ws rd leaks_on); eauto using leaks_on_room with corestack.
  - apply leaks_on_rooms. unfold client_take_wedged. by case_match.
Qed.

Lemma leaks_on_steps rd s s' : admin_ok s -> rtc (admin_step ws rd) s s' -> leaks_on s s'.
Proof.
  intros Hok Hst. induction Hst as [s|s1 s2 s3 H1 _ IH]; [done|].
  etrans; [by eapply leaks_on_step|]. apply IH. by eapply admin_step_ok.
Qed.

(** C38: A JOIN for a negative room number - the session forwards [/room/-1] - is
    accepted as long as a slot is free, and takes that slot for ever: in every
    later state, whoever leaves, closes or joins, the slot still holds the number,
    no lookup finds it, and it is never among the free ones. *)
Theorem negative_room_leaks_slot rd s fd ci msg :
  rtc (admin_step ws rd) admin_start s -> 0 <= fd -> client_find s fd = Some ci ->
  room_id (c_state (client_at s ci)) = ROOM_NONE -> m_room_id msg < 0 -> ~ rooms_full s ->
  exists s1 ri, handle_join ws s ci msg = Some (0, s1) /\ used_rooms s1 = S (used_rooms s) /\
    forall s2, rtc (admin_step ws rd) s1 s2 ->
      r_id (room_at s2 ri) = m_room_id msg /\
      (forall id, room_find s2 id <> Some ri) /\
      (forall r, list_find (fun r => r_id r = 0) (g_rooms s2) <> Some (ri, r)).
Proof.
  intros Hreach Hfd Hf Hrn Hneg Hfull. destruct (admin_steps_ok ws rd s Hreach) as [Hs HL].
  destruct (client_find_Some s fd ci Hs Hfd Hf) as (c & Hc & Hat & Hcf & _). rewrite Hat in Hrn.
  destruct (list_find (fun r => r_id r = 0) (g_rooms s)) as [[ri r0]|] eqn:Hfree.
  2: { destruct Hfull. apply list_find_None in Hfree. eapply Forall_impl; [exact Hfree|]. done. }
  destruct (negative_join s ci c msg ri r0 Hc Hrn Hneg Hfree) as (s1 & Hj & Hids).
  apply list_find_Some in Hfree as (Hr0 & Hz & _).
  destruct (handle_join_ok ws s ci c msg Hs HL Hc) as (v & s1' & Hj' & Hs1 & Hcase); [by rewrite Hcf|].
  assert (v = 0 /\ s1' = s1) as [-> ->] by (rewrite Hj in Hj'; by injection Hj').
  assert (Hok1 : admin_ok s1).
  { split; [done|]. destruct Hcase as [[? _]|[[? _]|(_ & _ & Hjs)]]; [done..|].
    destruct (outside_seat_of s ci c Hs Hc) as [Hseat Hout]; [by rewrite Hcf|done|]. by eapply joins_ok. }
  exists s1, ri. split; [done|]. split.
  { unfold used_rooms. rewrite Hids. apply filter_insert_nonzero; [|lia].
    by rewrite list_lookup_fmap, Hr0, <- Hz. }
  assert (Hr1 : exists r1, g_rooms s1 !! ri = Some r1 /\ r_id r1 = m_room_id msg).
  { apply (f_equal (fun l => l !! ri)) in Hids. rewrite list_lookup_fmap, list_lookup_insert_eq in Hids.
    - destruct (g_rooms s1 !! ri) as [r1|]; [|done]. injection Hids as Hids. by exists r1.
    - rewrite length_fmap. by eapply lookup_lt_Some. }
  destruct Hr1 as (r1 & Hr1 & Hid1). intros s2 H2.
  destruct (leaks_on_steps rd s1 s2 Hok1 H2 ri r1 Hr1) as (r2 & Hr2 & Hid2); [lia|].
  assert (Hat2 : r_id (room_at s2 ri) = m_room_id msg) by (by rewrite (room_at_eq _ _ _ Hr2), Hid2).
  split_and!; [done| |].
  - intros id Hfind%room_find_pos. lia.
  - intros r (Hr & Hz' & _)%list_find_Some. rewrite Hr2 in Hr. injection Hr as <-. lia.
Qed.
End negative.

(** A client opens room -1, leaves it, asks for it again and hangs up. *)
Definition stray_events : list admin_event :=
  [EvMsg 10 (zero_msg ADMIN_LEAVE); EvMsg 10 (join_msg (-1) EmptyString); EvClose 10; EvFlush].

Lemma negative_room_leaks_slot_witness :
  let s := client_add quiet_net admin_start 10 100 in
  exists s1 s2 ri, handle_join quiet_net s 0 (join_msg (-1) EmptyString) = Some (0, s1) /\
    admin_run quiet_net count_rand s1 stray_events = Some s2 /\
    r_id (room_at s2 ri) = -1 /\ forall id, room_find s2 id <> Some ri.
Proof.
  intros s.
  assert (Hreach : rtc (admin_step quiet_net count_rand) admin_start s).
  { apply (admin_run_reach quiet_net count_rand admin_start [EvAdd 10 100]). vm_compute. reflexivity. }
  assert (Hf : client_find s 10 = Some 0%nat) by (vm_compute; reflexivity).
  assert (Hrn : room_id (c_state (client_at s 0)) = ROOM_NONE) by (vm_compute; reflexivity).
  assert (Hfull : ~ rooms_full s) by (refine (bool_decide_unpack _ _); vm_compute; exact I).
  destruct (negative_room_leaks_slot quiet_net count_rand s 10 0 (join_msg (-1) EmptyString) Hreach
    ltac:(lia) Hf Hrn ltac:(simpl; lia) Hfull) as (s1 & ri & Hj & _ & Hlater).
  destruct (admin_run quiet_net count_rand s1 stray_events) as [s2|] eqn:Hrun.
  - destruct (Hlater s2 (admin_run_reach _ _ _ _ _ Hrun)) as (Hid & Hnf & _).
    exists s1, s2, ri. split; [exact Hj|]. split; [exact Hrun|]. split; [exact Hid|exact Hnf].
  - exfalso. apply (f_equal (fun o => match o with Some (_, s1) => negb (bool_decide
      (admin_run quiet_net count_rand s1 stray_events = None)) | None => false end)) in Hj.
    rewrite Hrun in Hj. vm_compute in Hj. discriminate.
Defined.
