(* ===== verification/Text.v ===== *)
(** * Text: C strings as lists of bytes

    A C string is the list of the bytes before its terminator, a byte a number from
    0 to 255.  The standard library calls the sources make on them: string
    literals, [snprintf] of a number and of a string into a fixed array, [strcmp]. *)

From Stdlib Require Import Ascii String.
From stdpp Require Import options.
From S2P Require Import Prelude.
#[local] Open Scope Z_scope.

(** A string literal's bytes. *)
Definition bytes (s : string) : list Z :=
  (fun a => Z.of_nat (nat_of_ascii a)) <$> list_ascii_of_string s.

(** [snprintf(.., "%u", n)]: the decimal digits, most significant first. *)
Fixpoint decimal_loop (fuel : nat) (n : Z) (acc : list Z) : list Z :=
  match fuel with
  | O => acc
  | S fuel => if n <? 10 then (48 + n) :: acc
              else decimal_loop fuel (n / 10) ((48 + n mod 10) :: acc)
  end.

(** Ten digits hold any 32-bit number. *)
Definition decimal (n : Z) : list Z := decimal_loop 10 n [].

(** The number a string of digits denotes, after [v]. *)
Definition digits_value (v : Z) (s : list Z) : Z := foldl (fun v c => v * 10 + (c - 48)) v s.

Definition is_digit (c : Z) : bool := (48 <=? c) && (c <=? 57).

Lemma digits_value_mono s v : 0 <= v -> forallb is_digit s = true -> v <= digits_value v s.
Proof.
  revert v. induction s as [|c s IH]; intros v Hv Hs; simpl in *; [lia|]. unfold is_digit in *.
  bool_arith. etransitivity; [|apply IH; [lia|done]]. lia.
Qed.

Lemma decimal_loop_value fuel n acc :
  0 <= n < 10 ^ Z.of_nat fuel -> (0 < fuel)%nat ->
  digits_value 0 (decimal_loop fuel n acc) = digits_value n acc /\
  (forallb is_digit acc = true -> forallb is_digit (decimal_loop fuel n acc) = true) /\
  (length acc < length (decimal_loop fuel n acc) <= fuel + length acc)%nat.
Proof.
  revert n acc. induction fuel as [|fuel IH]; intros n acc Hn Hf; [lia|]. cbn [decimal_loop].
  destruct (Z.ltb_spec n 10) as [Hlt|Hge].
  - split_and!; simpl; try lia.
    + f_equal. lia.
    + intros ->. unfold is_digit. rewrite (proj2 (Z.leb_le _ _)), (proj2 (Z.leb_le _ _)) by lia. done.
  - pose proof (Z.mod_pos_bound n 10 ltac:(lia)). pose proof (Z.div_mod n 10 ltac:(lia)).
    assert (Hpow : 10 ^ Z.of_nat (S fuel) = 10 * 10 ^ Z.of_nat fuel)
      by (rewrite Nat2Z.inj_succ, Z.pow_succ_r; lia).
    assert (0 < fuel)%nat by (destruct fuel; [simpl in Hn; lia|lia]).
    destruct (IH (n / 10) ((48 + n mod 10) :: acc)) as (Hv & Hd & Hl); [|done|].
    { split; [apply Z.div_pos; lia|]. apply Z.div_lt_upper_bound; lia. }
    split_and!.
    + rewrite Hv. simpl. f_equal. lia.
    + intros Hacc. apply Hd. simpl. rewrite Hacc. unfold is_digit.
      rewrite (proj2 (Z.leb_le _ _)), (proj2 (Z.leb_le _ _)) by lia. done.
    + simpl in Hl. lia.
    + simpl in Hl. lia.
Qed.

Lemma decimal_digits n :
  0 <= n <= UINT32_MAX ->
  digits_value 0 (decimal n) = n /\ forallb is_digit (decimal n) = true /\
  (1 <= length (decimal n) <= 10)%nat.
Proof.
  intros Hn. destruct (decimal_loop_value 10 n []) as (Hv & Hd & Hl); [|lia|].
  { unfold UINT32_MAX in Hn. change (10 ^ Z.of_nat 10) with 10000000000. lia. }
  unfold decimal. rewrite Hv, Hd by done. cbn [length] in Hl. split_and!; [done..|lia|lia].
Qed.

(** [snprintf(dst, cap, "%s", s)]: as much as fits before the terminator. *)
Definition trunc (cap : nat) (s : list Z) : list Z := take (cap - 1) s.

(** The sign of [strcmp]: bytes compare as [unsigned char]. *)
Fixpoint strcmp (a b : list Z) : Z :=
  match a, b with
  | [], [] => 0
  | [], _ :: _ => -1
  | _ :: _, [] => 1
  | x :: a, y :: b => if x =? y then strcmp a b else if x <? y then -1 else 1
  end.

Lemma trunc_idem cap s : trunc cap (trunc cap s) = trunc cap s.
Proof. unfold trunc. rewrite take_take. f_equal. lia. Qed.

Lemma trunc_id cap s : (length s < cap)%nat -> trunc cap s = s.
Proof. intros. apply take_ge. lia. Qed.

Lemma length_trunc cap s : (0 < cap)%nat -> (length (trunc cap s) < cap)%nat.
Proof. intros. unfold trunc. rewrite length_take. lia. Qed.

Lemma strcmp_eq a b : strcmp a b = 0 <-> a = b.
Proof.
  revert b. induction a as [|x a IH]; intros [|y b]; simpl; try done.
  destruct (Z.eqb_spec x y) as [->|Hne]; [rewrite IH; naive_solver|].
  case_match; split; (done || naive_solver).
Qed.

(** [strtol(s, &end, 10)]: the value and the rest of the string; with no digits the
    value is 0 and [end] is [s].  Saturation at [LONG_MAX] is left out: the strings
    it is applied to hold fewer digits than a [long]. *)
Definition is_space (c : Z) : bool := (c =? 32) || ((9 <=? c) && (c <=? 13)).

Fixpoint skip_spaces (s : list Z) : list Z :=
  match s with c :: s' => if is_space c then skip_spaces s' else s | [] => [] end.

Fixpoint strtol_digits (s : list Z) (v : Z) : Z * list Z :=
  match s with
  | c :: s' => if is_digit c then strtol_digits s' (v * 10 + (c - 48)) else (v, s)
  | [] => (v, [])
  end.

Definition strtol (s : list Z) : Z * list Z :=
  let t := skip_spaces s in
  let '(sign, t) := match t with
                    | 45 :: t => (-1, t)
                    | 43 :: t => (1, t)
                    | _ => (1, t)
                    end in
  match t with
  | c :: _ => if is_digit c then let '(v, rest) := strtol_digits t 0 in (sign * v, rest) else (0, s)
  | [] => (0, s)
  end.

(** The conversion of a [long] to [int]. *)
Definition to_int (v : Z) : Z := (v + 2147483648) mod 4294967296 - 2147483648.

(** What follows the last ['-'], [strrchr(s, '-') + 1]. *)
Fixpoint after_last_dash (s : list Z) : option (list Z) :=
  match s with
  | [] => None
  | c :: s =>
      match after_last_dash s with
      | Some t => Some t
      | None => if c =? 45 then Some s else None
      end
  end.

(** [snprintf(.., "%d", n)]. *)
Definition decimal_int (n : Z) : list Z := if n <? 0 then 45 :: decimal (- n) else decimal n.

(** ** Reading numbers out of text *)

(** What a C function sees of a buffer: the bytes before the first terminator. *)
Fixpoint cstr (s : list Z) : list Z :=
  match s with
  | [] => []
  | c :: s => if c =? 0 then [] else c :: cstr s
  end.

Definition LONG_MAX : Z := 9223372036854775807.

(** [strtol] stops at the ends of [long], and its result is cut to an [int]. *)
Definition long_to_int (v : Z) : Z := to_int (Z.max (- LONG_MAX - 1) (Z.min LONG_MAX v)).

Definition atoi (s : list Z) : Z := long_to_int (fst (strtol s)).

(** [%d] of [sscanf]: the number and what follows it; [None] when there is none. *)
Definition scan_int (s : list Z) : option (Z * list Z) :=
  let '(v, rest) := strtol s in
  if bool_decide (rest = s) then None else Some (long_to_int v, rest).

(** A literal of a [sscanf] format. *)
Fixpoint scan_lit (lit s : list Z) : option (list Z) :=
  match lit, s with
  | [], _ => Some s
  | c :: lit, d :: s => if c =? d then scan_lit lit s else None
  | _ :: _, [] => None
  end.

Definition INT_MIN : Z := -2147483648.

Lemma cstr_id s : 0 ∉ s -> cstr s = s.
Proof.
  induction s as [|c s IH]; [done|]. rewrite not_elem_of_cons. intros [Hc Hs]. simpl.
  rewrite (proj2 (Z.eqb_neq c 0)) by done. by rewrite IH.
Qed.

Lemma cstr_no_nul s : 0 ∉ cstr s.
Proof.
  induction s as [|c s IH]; simpl; [apply not_elem_of_nil|].
  destruct (Z.eqb_spec c 0); [apply not_elem_of_nil|]. rewrite not_elem_of_cons. split; [congruence|done].
Qed.

Lemma length_cstr s : (length (cstr s) <= length s)%nat.
Proof. induction s as [|c s IH]; simpl; [lia|]. case_match; simpl; lia. Qed.

Lemma long_to_int_id n : INT_MIN <= n <= INT_MAX -> long_to_int n = n.
Proof.
  unfold INT_MIN, INT_MAX, long_to_int, to_int, LONG_MAX. intros Hn.
  rewrite Z.min_r, Z.max_r, Z.mod_small by lia. lia.
Qed.

Lemma strtol_digits_app s v rest :
  forallb is_digit s = true -> (forall c, head rest = Some c -> is_digit c = false) ->
  strtol_digits (s ++ rest) v = (digits_value v s, rest).
Proof.
  revert v. induction s as [|c s IH]; intros v Hs Hr; simpl in *.
  - destruct rest as [|c rest]; [done|]. simpl. by rewrite Hr.
  - apply andb_true_iff in Hs as [-> Hs]. by apply IH.
Qed.

(** Reading back a printed number. *)
Lemma strtol_decimal_int n rest :
  INT_MIN <= n <= INT_MAX -> (forall c, head rest = Some c -> is_digit c = false) ->
  strtol (decimal_int n ++ rest) = (n, rest).
Proof.
  unfold INT_MIN, INT_MAX. intros Hn Hr. unfold decimal_int.
  destruct (decimal_digits (Z.abs n)) as (Hv & Hd & Hl); [unfold UINT32_MAX; lia|].
  destruct (decimal (Z.abs n)) as [|c s] eqn:Hc; [simpl in Hl; lia|].
  assert (Hdig : is_digit c = true) by (simpl in Hd; by apply andb_true_iff in Hd as [? _]).
  assert (48 <= c <= 57) by (unfold is_digit in Hdig; bool_arith; lia).
  unfold strtol. destruct (Z.ltb_spec n 0).
  - replace (- n) with (Z.abs n) by lia. rewrite Hc. cbn -[strtol_digits is_digit].
    rewrite Hdig. change (c :: s ++ rest) with ((c :: s) ++ rest).
    rewrite strtol_digits_app by (done || exact Hr). rewrite Hv. f_equal; lia.
  - rewrite <- (Z.abs_eq n), Hc by lia. transitivity (let '(v, r) := strtol_digits ((c :: s) ++ rest) 0 in (1 * v, r)).
    + assert (Hcs : c ∈ seqZ 48 10) by (apply elem_of_seqZ; lia). clear -Hcs. change (seqZ 48 10) with [48; 49; 50; 51; 52; 53; 54; 55; 56; 57] in Hcs.
      repeat (apply elem_of_cons in Hcs as [->|Hcs]; [reflexivity|]). by apply elem_of_nil in Hcs.
    + rewrite strtol_digits_app by (done || exact Hr). rewrite Hv. f_equal; lia.
Qed.

Lemma decimal_int_nonempty n : INT_MIN <= n <= INT_MAX -> decimal_int n <> [].
Proof.
  unfold INT_MIN, INT_MAX, decimal_int. intros Hn. case_match; [done|]. bool_arith.
  destruct (decimal_digits n) as (_ & _ & Hl); [unfold UINT32_MAX; lia|]. intros E. rewrite E in Hl. simpl in Hl. lia.
Qed.

Lemma atoi_decimal_int n rest :
  INT_MIN <= n <= INT_MAX -> (forall c, head rest = Some c -> is_digit c = false) ->
  atoi (decimal_int n ++ rest) = n.
Proof. intros Hn Hr. unfold atoi. rewrite strtol_decimal_int by (done || exact Hr). by apply long_to_int_id. Qed.

Lemma scan_int_decimal_int n rest :
  INT_MIN <= n <= INT_MAX -> (forall c, head rest = Some c -> is_digit c = false) ->
  scan_int (decimal_int n ++ rest) = Some (n, rest).
Proof.
  intros Hn Hr. unfold scan_int. rewrite strtol_decimal_int by (done || exact Hr). rewrite bool_decide_false.
  - by rewrite long_to_int_id.
  - intros E. apply (f_equal length) in E. rewrite length_app in E.
    pose proof (decimal_int_nonempty n Hn). destruct (decimal_int n); [done|]. simpl in E. lia.
Qed.

(** [%lld]: twenty digits hold any 64-bit number. *)
Definition decimal_ll (n : Z) : list Z :=
  if n <? 0 then 45 :: decimal_loop 20 (- n) [] else decimal_loop 20 n [].

(** The fields that a separator delimits, empty ones included. *)
Fixpoint split_on (sep : Z) (l : list Z) : list (list Z) :=
  match l with
  | [] => [[]]
  | c :: l =>
      if c =? sep then [] :: split_on sep l
      else match split_on sep l with f :: fs => (c :: f) :: fs | [] => [[c]] end
  end.

Lemma split_on_field sep f r : sep ∉ f -> split_on sep (f ++ sep :: r) = f :: split_on sep r.
Proof.
  induction f as [|c f IH]; [by simpl; rewrite Z.eqb_refl|]. intros [Hc Hf]%not_elem_of_cons. simpl.
  rewrite (proj2 (Z.eqb_neq c sep)) by done. by rewrite IH.
Qed.

Lemma split_on_last sep f : sep ∉ f -> split_on sep f = [f].
Proof.
  induction f as [|c f IH]; [done|]. intros [Hc Hf]%not_elem_of_cons. simpl.
  rewrite (proj2 (Z.eqb_neq c sep)) by done. by rewrite IH.
Qed.

(** The fields put together again. *)
Fixpoint join_on (sep : Z) (fs : list (list Z)) : list Z :=
  match fs with
  | [] => []
  | [f] => f
  | f :: fs => f ++ sep :: join_on sep fs
  end.

Lemma split_on_not_nil sep l : split_on sep l <> [].
Proof. destruct l as [|c l]; [done|]. simpl. case_match; [done|]. by case_match. Qed.

Lemma join_split sep l : join_on sep (split_on sep l) = l.
Proof.
  induction l as [|c l IH]; [done|]. cbn [split_on]. destruct (Z.eqb_spec c sep) as [->|Hc].
  - destruct (split_on sep l) eqn:E; [by apply split_on_not_nil in E|]. rewrite <- IH. done.
  - destruct (split_on sep l) as [|f fs] eqn:E; [by apply split_on_not_nil in E|].
    rewrite <- IH. by destruct fs.
Qed.
