(* ===== verification/Name.v ===== *)
(** * Name: the rule for player and voter names

    Models core/src/libtetrisutil/name.c, which the game server, the client and
    BallotBox share. *)

From stdpp Require Import options.
From S2P Require Import Prelude.
#[local] Open Scope Z_scope.

Definition MAX_NAME : nat := 16.
Definition USER_NAME_MAX : nat := MAX_NAME - 1.

Definition user_name_char_ok (c : Z) : bool :=
  ((97 <=? c) && (c <=? 122)) || ((65 <=? c) && (c <=? 90)) || ((48 <=? c) && (c <=? 57)) || (c =? 95) || (c =? 45).

Definition user_name_ok (s : list Z) : bool :=
  negb ((length s <? 1)%nat || (USER_NAME_MAX <? length s)%nat) && forallb user_name_char_ok s.

Definition fold_char (c : Z) : Z := if (65 <=? c) && (c <=? 90) then c - 65 + 97 else c.

Definition user_name_fold (cap : nat) (s : list Z) : option (list Z) :=
  if (cap <? MAX_NAME)%nat || negb (user_name_ok s) then None else Some (fold_char <$> s).
