(* ===== verification/Layout.v ===== *)
(** * Layout: the C structs as the bytes they occupy

    A session pushes its [SessionState] and its [GameState] to the client by sending
    the bytes of the struct, and the client copies them back into a struct of its
    own (tetriSH/src/tetrisd/session.c, tetriSH/src/tetrisu/net.c); the session and
    the admin thread exchange whole [AdminMsg] records the same way.  This file
    gives the image of each of these structs in memory and what reading an image
    yields.  Both programs are built from the same headers for one machine: 4-byte
    little-endian [int], 1-byte [bool], members at their natural alignment.  The
    bytes nobody reads - padding, and what follows a name's terminator - are 0.  An
    enumerator code outside the enumeration is read as the first enumerator. *)

From Stdlib Require Import Ascii String.
From stdpp Require Import options.
From S2P Require Import Prelude Piece AdminMsg Text.
#[local] Open Scope Z_scope.

(** ** Layouts *)

(** What a C type is in memory: its size, its image and what an image holds; [lok]
    says which values the type can hold. *)
Record layout (A : Type) := mkLayout {
  sizeof : nat;
  image : A -> list Z;
  load : list Z -> A;
  lok : A -> Prop
}.
Arguments mkLayout {A}.
Arguments sizeof {A}.
Arguments image {A}.
Arguments load {A}.
Arguments lok {A}.

(** Every image has the type's size, consists of bytes, and is read back. *)
Class Lawful {A} (l : layout A) : Prop := {
  length_image : forall a, lok l a -> length (image l a) = sizeof l;
  image_bytes : forall a, lok l a -> Forall (fun c => 0 <= c <= 255) (image l a);
  load_image : forall a, lok l a -> load l (image l a) = a
}.

(** Two members, the second right after the first. *)
Definition pair_layout {A B} (la : layout A) (lb : layout B) : layout (A * B) :=
  mkLayout (sizeof la + sizeof lb)
    (fun '(a, b) => image la a ++ image lb b)
    (fun m => (load la (take (sizeof la) m), load lb (drop (sizeof la) m)))
    (fun '(a, b) => lok la a /\ lok lb b).

(** [T a[n]]. *)
Fixpoint load_array {A} (l : layout A) (n : nat) (m : list Z) : list A :=
  match n with
  | O => []
  | S n => load l (take (sizeof l) m) :: load_array l n (drop (sizeof l) m)
  end.

Definition array_layout {A} (n : nat) (l : layout A) : layout (list A) :=
  mkLayout (n * sizeof l) (fun a => concat (image l <$> a)) (load_array l n)
    (fun a => length a = n /\ Forall (lok l) a).

(** [pad] bytes that nobody reads. *)
Definition padded_layout {A} (pad : nat) (l : layout A) : layout A :=
  mkLayout (sizeof l + pad) (fun a => image l a ++ replicate pad 0)
    (fun m => load l (take (sizeof l) m)) (lok l).

(** A struct is the sequence of its members. *)
Definition struct_layout {A B} (mk : A -> B) (fields : B -> A) (l : layout A) : layout B :=
  mkLayout (sizeof l) (fun b => image l (fields b)) (fun m => mk (load l m)) (fun b => lok l (fields b)).

#[export] Instance pair_lawful {A B} (la : layout A) (lb : layout B) :
  Lawful la -> Lawful lb -> Lawful (pair_layout la lb).
Proof.
  intros Ha Hb. split; intros [a b] [Hoa Hob]; simpl.
  - by rewrite length_app, !length_image.
  - apply Forall_app. split; by apply image_bytes.
  - rewrite <- (length_image (l := la) a Hoa), take_app_length, drop_app_length. by rewrite !load_image.
Qed.

#[export] Instance array_lawful {A} n (l : layout A) : Lawful l -> Lawful (array_layout n l).
Proof.
  intros Hl. split; intros a [<- Ha]; cbn [image load sizeof array_layout];
    induction Ha as [|x a Hx _ IH]; try done; rewrite fmap_cons; cbn [concat length Nat.mul load_array].
  - by rewrite length_app, IH, length_image.
  - apply Forall_app. split; [by apply image_bytes|done].
  - rewrite take_app_length' by (symmetry; by apply length_image). rewrite drop_app_length' by (symmetry; by apply length_image).
    by rewrite load_image, IH.
Qed.

#[export] Instance padded_lawful {A} pad (l : layout A) : Lawful l -> Lawful (padded_layout pad l).
Proof.
  intros Hl. split; intros a Ha; simpl.
  - by rewrite length_app, length_image, length_replicate.
  - apply Forall_app. split; [by apply image_bytes|]. apply Forall_replicate. lia.
  - rewrite <- (length_image (l := l) a Ha), take_app_length. by apply load_image.
Qed.

Lemma struct_lawful {A B} (mk : A -> B) (fields : B -> A) (l : layout A) :
  (forall b, mk (fields b) = b) -> Lawful l -> Lawful (struct_layout mk fields l).
Proof.
  intros Hinv Hl. split; intros b Hb; simpl.
  - by apply length_image.
  - by apply image_bytes.
  - by rewrite load_image, Hinv.
Qed.

(** ** Scalars *)

Fixpoint le_bytes (n : nat) (v : Z) : list Z :=
  match n with O => [] | S n => v mod 256 :: le_bytes n (v / 256) end.

Fixpoint le_value (m : list Z) : Z :=
  match m with [] => 0 | b :: m => b + 256 * le_value m end.

Lemma length_le_bytes n v : length (le_bytes n v) = n.
Proof. revert v. induction n; intros; simpl; by f_equal. Qed.

Lemma le_bytes_range n v : Forall (fun c => 0 <= c <= 255) (le_bytes n v).
Proof.
  revert v. induction n; intros; simpl; constructor; [|done].
  pose proof (Z.mod_pos_bound v 256 ltac:(lia)). lia.
Qed.

Lemma le_value_bytes n v : 0 <= v < 256 ^ Z.of_nat n -> le_value (le_bytes n v) = v.
Proof.
  revert v. induction n as [|n IH]; intros v Hv; [simpl in *; lia|]. cbn [le_bytes le_value].
  assert (256 ^ Z.of_nat (S n) = 256 * 256 ^ Z.of_nat n) by (rewrite Nat2Z.inj_succ, Z.pow_succ_r; lia).
  pose proof (Z.div_mod v 256 ltac:(lia)). rewrite IH; [lia|].
  split; [apply Z.div_pos; lia|apply Z.div_lt_upper_bound; lia].
Qed.

Definition unsigned_layout : layout Z :=
  mkLayout 4 (fun v => le_bytes 4 (u32 v)) le_value (fun v => 0 <= v <= UINT32_MAX).

Definition int_layout : layout Z :=
  mkLayout 4 (fun v => le_bytes 4 (u32 v)) (fun m => to_int (le_value m))
    (fun v => INT_MIN <= v <= INT_MAX).

#[export] Instance unsigned_lawful : Lawful unsigned_layout.
Proof.
  split; intros v Hv; cbn [image load sizeof lok unsigned_layout] in *.
  - apply length_le_bytes.
  - apply le_bytes_range.
  - unfold UINT32_MAX in Hv. rewrite le_value_bytes; [|pose proof (u32_range v); unfold UINT32_MAX in *; simpl; lia].
    unfold u32. apply Z.mod_small. unfold UINT32_MAX in *. lia.
Qed.

#[export] Instance int_lawful : Lawful int_layout.
Proof.
  split; intros v Hv; cbn [image load sizeof lok int_layout] in *.
  - apply length_le_bytes.
  - apply le_bytes_range.
  - unfold INT_MIN, INT_MAX in Hv. rewrite le_value_bytes; [|pose proof (u32_range v); unfold UINT32_MAX in *; simpl; lia].
    unfold to_int, u32. rewrite Z.add_mod_idemp_l by lia. rewrite Z.mod_small by lia. lia.
Qed.

Definition bool_layout : layout bool :=
  mkLayout 1 (fun b : bool => [if b then 1 else 0]) (fun m => negb (aget 0 m 0 =? 0)) (fun _ => True).

#[export] Instance bool_lawful : Lawful bool_layout.
Proof. split; intros []; intros _; simpl; repeat constructor; lia. Qed.

(** An enum is an [int] with the enumerator's code. *)
Definition enum_layout {A} (code : A -> Z) (of_code : Z -> A) : layout A :=
  mkLayout 4 (fun a => image int_layout (code a)) (fun m => of_code (load int_layout m))
    (fun a => lok int_layout (code a) /\ of_code (code a) = a).

#[export] Instance enum_lawful {A} (code : A -> Z) (of_code : Z -> A) : Lawful (enum_layout code of_code).
Proof.
  split; intros a [Ha Hinv]; cbn [image load sizeof enum_layout].
  - by apply (length_image (l := int_layout)).
  - by apply (image_bytes (l := int_layout)).
  - by rewrite (load_image (l := int_layout)).
Qed.

(** The characters of a string held in an array. *)
Definition text (m : list Z) : string :=
  string_of_list_ascii ((fun c => ascii_of_nat (Z.to_nat c)) <$> m).

Lemma text_bytes s : text (bytes s) = s.
Proof.
  unfold text, bytes. rewrite <- list_fmap_compose.
  rewrite (list_fmap_ext _ id (list_ascii_of_string s)).
  - by rewrite list_fmap_id, string_of_list_ascii_of_string.
  - intros i a _. cbn. by rewrite Nat2Z.id, ascii_nat_embedding.
Qed.

(** A name fits in [char name[n]] with its terminator. *)
Definition name_fits (n : nat) (s : string) : Prop := (length (bytes s) < n)%nat /\ 0 ∉ bytes s.

Definition name_layout (n : nat) : layout string :=
  mkLayout n (fun s => bytes s ++ replicate (n - length (bytes s)) 0) (fun m => text (cstr m))
    (name_fits n).

Lemma cstr_app_zeros s k : 0 ∉ s -> cstr (s ++ replicate k 0) = s.
Proof.
  induction s as [|c s IH]; intros Hs; [by destruct k|]. apply not_elem_of_cons in Hs as [Hc Hs].
  simpl. rewrite (proj2 (Z.eqb_neq c 0)) by done. by rewrite IH.
Qed.

Lemma bytes_are_bytes s : Forall (fun c => 0 <= c <= 255) (bytes s).
Proof.
  unfold bytes. apply Forall_fmap, Forall_forall. intros a _. cbn. pose proof (nat_ascii_bounded a). lia.
Qed.

#[export] Instance name_lawful n : Lawful (name_layout n).
Proof.
  split; intros s [Hl Hz]; cbn [image load sizeof name_layout].
  - rewrite length_app, length_replicate. lia.
  - apply Forall_app. split; [apply bytes_are_bytes|]. apply Forall_replicate. lia.
  - by rewrite cstr_app_zeros, text_bytes.
Qed.

(** ** sessionstate.h *)

Definition phase_of_code (n : Z) : SessionPhase :=
  match n with
  | 1 => SESSION_IDLE | 2 => SESSION_WAITING | 3 => SESSION_PLAYING | 4 => SESSION_GAME_OVER
  | 5 => SESSION_DISCONNECTED | _ => SESSION_NONE
  end.

#[local] Infix ";;;" := pair_layout (at level 60, right associativity).

Definition RoomMember_layout : layout RoomMember :=
  struct_layout (fun '(p, (n, o)) => mkMember p n o)
    (fun m => (rm_player_id m, (rm_name m, rm_is_owner m)))
    (int_layout ;;; name_layout (Z.to_nat MAX_USER_NAME) ;;; padded_layout 3 bool_layout).

Definition SessionState_layout : layout SessionState :=
  struct_layout (fun '(ph, (r, (p, (o, (ro, n))))) => mkSession ph r p o ro n)
    (fun s => (phase s, (room_id s, (player_id s, (is_owner s, (roster s, roster_count s))))))
    (enum_layout phase_code phase_of_code ;;; int_layout ;;; int_layout ;;; padded_layout 3 bool_layout ;;;
     array_layout (Z.to_nat MAX_STANDINGS) RoomMember_layout ;;; int_layout).

(** ** gamestate.h *)

Definition Piece_layout : layout Piece :=
  struct_layout (fun '(k, (r, (x, y))) => mkPiece k r x y)
    (fun p => (kind p, (rot p, (px p, py p))))
    (enum_layout kind_code kind_of_code ;;; int_layout ;;; int_layout ;;; int_layout).

Definition PlayerStanding_layout : layout PlayerStanding :=
  struct_layout (fun '(p, (n, (s, (l, o)))) => mkStanding p n s l o)
    (fun r => (st_player_id r, (st_name r, (st_score r, (st_lines r, st_game_over r)))))
    (int_layout ;;; name_layout (Z.to_nat MAX_USER_NAME) ;;; int_layout ;;; int_layout ;;;
     padded_layout 3 bool_layout).

Definition GameState_layout : layout GameState :=
  struct_layout
    (fun '(b, (a, (nx, (h, (hu, (sc, (li, (le, (tc, (tr, (sd, (pc, (go, (ga, (st, (n, me)))))))))))))))) =>
       mkGame b a nx h hu sc li le tc tr sd pc go ga st n me)
    (fun g => (board g, (active g, (next g, (hold g, (hold_used g, (score g, (lines g, (level g,
       (tick_count g, (tick_trigger g, (seed g, (piece_generated_counter g, (game_over g, (garbage_out g,
       (standings g, (standing_count g, my_player_id g)))))))))))))))))
    (array_layout (Z.to_nat BOARD_HEIGHT) (array_layout (Z.to_nat BOARD_WIDTH) int_layout) ;;; Piece_layout ;;;
     array_layout 5 (enum_layout kind_code kind_of_code) ;;; enum_layout kind_code kind_of_code ;;;
     padded_layout 3 bool_layout ;;; int_layout ;;; int_layout ;;; int_layout ;;; int_layout ;;; int_layout ;;;
     unsigned_layout ;;; unsigned_layout ;;; padded_layout 3 bool_layout ;;; int_layout ;;;
     array_layout (Z.to_nat MAX_STANDINGS) PlayerStanding_layout ;;; int_layout ;;; int_layout).

(** ** adminmsg.h *)

Definition msg_type_code (t : AdminMsgType) : Z :=
  match t with
  | ADMIN_JOIN => 0 | ADMIN_LEAVE => 1 | ADMIN_START => 2 | ADMIN_GARBAGE => 3 | ADMIN_GAMEOVER => 4
  | ADMIN_SESSION => 5 | ADMIN_SEED => 6 | ADMIN_RECV_GARBAGE => 7 | ADMIN_RESULT => 8 | ADMIN_REJECT => 9
  | ADMIN_SCORE => 10 | ADMIN_STANDINGS => 11
  end.
Definition msg_type_of_code (n : Z) : AdminMsgType :=
  match n with
  | 1 => ADMIN_LEAVE | 2 => ADMIN_START | 3 => ADMIN_GARBAGE | 4 => ADMIN_GAMEOVER | 5 => ADMIN_SESSION
  | 6 => ADMIN_SEED | 7 => ADMIN_RECV_GARBAGE | 8 => ADMIN_RESULT | 9 => ADMIN_REJECT | 10 => ADMIN_SCORE
  | 11 => ADMIN_STANDINGS | _ => ADMIN_JOIN
  end.

Definition AdminMsg_layout : layout AdminMsg :=
  struct_layout
    (fun '(t, (r, (n, (l, (sd, (sc, (w, (re, (se, (c, (st, k))))))))))) => mkMsg t r n l sd sc w re se c st k)
    (fun m => (m_type m, (m_room_id m, (m_name m, (m_lines m, (m_seed m, (m_score m, (m_winner m, (m_reason m,
       (m_session m, (m_created m, (m_standings m, m_standing_count m))))))))))))
    (enum_layout msg_type_code msg_type_of_code ;;; int_layout ;;; name_layout (Z.to_nat MAX_USER_NAME) ;;;
     int_layout ;;; unsigned_layout ;;; int_layout ;;; int_layout ;;; int_layout ;;; SessionState_layout ;;;
     padded_layout 3 bool_layout ;;; array_layout (Z.to_nat MAX_STANDINGS) PlayerStanding_layout ;;; int_layout).

#[local] Ltac struct := apply struct_lawful; [by intros []|typeclasses eauto].

#[export] Instance RoomMember_lawful : Lawful RoomMember_layout.
Proof. struct. Qed.
#[export] Instance SessionState_lawful : Lawful SessionState_layout.
Proof. struct. Qed.
#[export] Instance Piece_lawful : Lawful Piece_layout.
Proof. struct. Qed.
#[export] Instance PlayerStanding_lawful : Lawful PlayerStanding_layout.
Proof. struct. Qed.
#[export] Instance GameState_lawful : Lawful GameState_layout.
Proof. struct. Qed.
#[export] Instance AdminMsg_lawful : Lawful AdminMsg_layout.
Proof. struct. Qed.

