(* ===== verification/DbRows.v ===== *)
(** * DbRows: libtetrisdb's reply text and the line protocol under it

    Models core/src/libtetrisdb/socket/rows.c (the rows of a select reply), the
    line protocol of core/src/libtetrisdb/wire.c, [db_quote] of schema.c and
    [db_socket_exec] of socket/socket.c.  A pointer into a C string is the suffix it
    points at, [NULL] is [None].  The runner's end of a connection is the sequence
    of results the reader's waits and reads give. *)

From Stdlib Require Import String.
From stdpp Require Import options.
From S2P Require Import Prelude Text.
#[local] Open Scope Z_scope.

Definition NL : Z := 10.
Definition TAB : Z := 9.
Definition DASH : Z := 45.
Definition QUOTE : Z := 39.

(** ** rows.c *)

Fixpoint next_line (p : list Z) : option (list Z) :=
  match p with
  | [] => None
  | c :: p => if c =? NL then Some p else next_line p
  end.

(** The line at [p], its first [line_len(p)] characters. *)
Fixpoint line_at (p : list Z) : list Z :=
  match p with
  | [] => []
  | c :: p => if c =? NL then [] else c :: line_at p
  end.

Definition line_len (p : list Z) : nat := length (line_at p).

Definition is_rule (p : list Z) : bool :=
  negb (line_len p =? 0)%nat && forallb (fun c => c =? DASH) (line_at p).

(** [for (p = ..; p != NULL && *p != '\0'; p = next_line(p))]: every line ends
    closer to the end, so [length p] rounds are enough. *)
Fixpoint rows_scan (fuel : nat) (p : option (list Z)) : option (list Z) :=
  match fuel, p with
  | S fuel, Some (c :: p') =>
      let p := c :: p' in if is_rule p then next_line p else rows_scan fuel (next_line p)
  | _, _ => None
  end.

Definition rows_begin (body : list Z) : option (list Z) := rows_scan (length body) (next_line body).

Fixpoint skip_blanks (t : list Z) : list Z :=
  match t with c :: t' => if c =? 32 then skip_blanks t' else t | [] => [] end.

(** The digits at [t]: the number, how many digits and what follows; [None] when
    the number does not fit in an [int]. *)
Fixpoint said_loop (t : list Z) (said : Z) (digits : nat) : option (Z * nat * list Z) :=
  match t with
  | c :: t' =>
      if is_digit c then
        let digit := c - 48 in
        if (INT_MAX - digit) / 10 <? said then None else said_loop t' (said * 10 + digit) (S digits)
      else Some (said, digits, t)
  | [] => Some (said, digits, [])
  end.

Definition trailer_count (t : list Z) (n : Z) : Z :=
  match said_loop (skip_blanks t) 0 0 with
  | None => -1
  | Some (said, digits, t) =>
      if (digits =? 0)%nat || negb (bool_decide (take 6 t = bytes " rows.")) then -1
      else if said =? n then n else -1
  end.

Fixpoint block_loop (fuel : nat) (p : option (list Z)) (n : Z) : Z :=
  match fuel, p with
  | S fuel, Some (c :: p') =>
      let p := c :: p' in
      if (0 <? line_len p)%nat then block_loop fuel (next_line p) (n + 1)
      else match next_line p with
           | None => -1
           | Some t => trailer_count t n
           end
  | _, _ => -1
  end.

Definition block_count (rows : list Z) : Z := block_loop (length rows) (Some rows) 0.

Definition db_row_count (body : list Z) : Z :=
  match rows_begin body with Some rows => block_count rows | None => -1 end.

(** What tabs separate, empty fields included. *)
Definition split_tabs (l : list Z) : list (list Z) := split_on TAB l.

Fixpoint skip_lines (row : nat) (p : list Z) : option (list Z) :=
  match row with
  | O => Some p
  | S row => p ← next_line p; skip_lines row p
  end.

(** The number of fields, and the [max] first of them; [None] is -1. *)
Definition db_row_fields (body : list Z) (row : Z) (max : nat) : option (Z * list (list Z)) :=
  let count := db_row_count body in
  if (count <? 0) || (row <? 0) || (count <=? row) then None
  else
    p ← rows_begin body;
    p ← skip_lines (Z.to_nat row) p;
    let fs := split_tabs (line_at p) in
    Some (Z.of_nat (length fs), take max fs).

Definition LLONG_MAX : Z := LONG_MAX.
Definition clamp_ll (v : Z) : Z := Z.max (- LLONG_MAX - 1) (Z.min LLONG_MAX v).

Definition db_next_id (body : list Z) : Z :=
  let rows := db_row_count body in
  if rows <? 0 then -1
  else if rows =? 0 then 1
  else
    match db_row_fields body 0 1 with
    | Some (_, f :: _) =>
        if (length f =? 0)%nat || (32 <=? length f)%nat then -1
        else
          let '(v, rest) := strtol f in
          if negb (bool_decide (rest = [])) then -1
          else if clamp_ll v <? 0 then 1 else clamp_ll v + 1
    | _ => -1
    end.

(** ** schema.c: quoting *)

Fixpoint quote_loop (cap : nat) (src dst : list Z) : list Z :=
  match src with
  | [] => dst
  | c :: src =>
      if (length dst + (if Z.eqb c QUOTE then 2 else 1) + 2 <=? cap)%nat
      then quote_loop cap src (dst ++ (if c =? QUOTE then [QUOTE; QUOTE] else [c]))
      else dst
  end.

Definition db_quote (cap : nat) (src : list Z) : list Z :=
  if (cap <? 3)%nat then [] else quote_loop cap src [QUOTE] ++ [QUOTE].

(** ** wire.c *)

Inductive db_status := DB_OK | DB_RETRY | DB_ERROR | DB_IO | DB_TIMEOUT.

#[global] Instance db_status_eq_dec : EqDecision db_status.
Proof. solve_decision. Defined.

(** What waiting for the fd and reading it comes to: bytes, another try (EINTR,
    EAGAIN), a broken fd, the peer's close, the deadline. *)
Inductive wire_event := WData (chunk : list Z) | WAgain | WBroken | WClosed | WLate.

(** The reader: what is left of its buffer, and what its reads will give. *)
Record db_wire := mkWire { w_buf : list Z; w_reads : list wire_event }.

Inductive wire_line_res := DB_WIRE_LINE (line : list Z) | DB_WIRE_EOF | DB_WIRE_IO | DB_WIRE_LATE.

(** The inner loop: copy the buffer up to a newline, keeping what fits in
    [out[cap]]. *)
Fixpoint copy_line (cap : nat) (buf out : list Z) : bool * list Z * list Z :=
  match buf with
  | [] => (false, out, [])
  | c :: buf =>
      if c =? NL then (true, out, buf)
      else copy_line cap buf (if (length out + 1 <? cap)%nat then out ++ [c] else out)
  end.

(** [None]: the reads ended while the loop still waits for one. *)
Fixpoint wire_line (cap : nat) (out buf : list Z) (reads : list wire_event)
    : option (wire_line_res * db_wire) :=
  match copy_line cap buf out with
  | (true, out, buf) => Some (DB_WIRE_LINE out, mkWire buf reads)
  | (false, out, _) =>
      match reads with
      | [] => None
      | WData chunk :: reads => wire_line cap out chunk reads
      | WAgain :: reads => wire_line cap out [] reads
      | WBroken :: reads => Some (DB_WIRE_IO, mkWire [] reads)
      | WClosed :: reads => Some (DB_WIRE_EOF, mkWire [] reads)
      | WLate :: reads => Some (DB_WIRE_LATE, mkWire [] reads)
      end
  end.

Definition db_wire_line (w : db_wire) (cap : nat) : option (wire_line_res * db_wire) :=
  wire_line cap [] (w_buf w) (w_reads w).

Definition DB_MARK_END : list Z := bytes "<<END ".
Definition DB_MARK_OK : list Z := bytes "<<END ok>>".
Definition DB_MARK_RETRY : list Z := bytes "<<END retry>>".
Definition DB_BODY_MAX : nat := 1024.

Definition classify (line : list Z) : db_status :=
  if strcmp line DB_MARK_OK =? 0 then DB_OK
  else if strcmp line DB_MARK_RETRY =? 0 then DB_RETRY
  else DB_ERROR.

(** [body] is what has been kept of a buffer of [cap] bytes, [None] when the
    caller wants no body. *)
Definition keep_line (cap : nat) (body line : list Z) : list Z :=
  if (length body + 1 <? cap)%nat
  then body ++ trunc (cap - length body) ((if (0 <? length body)%nat then [NL] else []) ++ line)
  else body.

(** One round per line. *)
Fixpoint wire_response (fuel cap : nat) (w : db_wire) (body : option (list Z))
    : option (db_status * option (list Z) * db_wire) :=
  match fuel with
  | O => None
  | S fuel =>
      '(r, w) ← db_wire_line w DB_BODY_MAX;
      match r with
      | DB_WIRE_LATE => Some (DB_TIMEOUT, body, w)
      | DB_WIRE_EOF | DB_WIRE_IO => Some (DB_IO, body, w)
      | DB_WIRE_LINE line =>
          if bool_decide (take 6 line = DB_MARK_END) then Some (classify line, body, w)
          else wire_response fuel cap w ((fun b => keep_line cap b line) <$> body)
      end
  end.

(** A line takes at least its newline off the buffer or the reads. *)
Definition wire_left (w : db_wire) : nat :=
  length (w_buf w) +
  foldr (fun e n => match e with WData chunk => length chunk + n | _ => n end)%nat O (w_reads w).

Definition db_wire_response (w : db_wire) (body : option (list Z)) (cap : nat)
    : option (db_status * option (list Z) * db_wire) :=
  wire_response (S (wire_left w)) cap w ((fun _ => []) <$> body).

(** ** socket.c *)

(** [failed] is the terminal status the connection is stuck on; [writes] the results
    of the exchanges' writes: [None] when every byte went out, otherwise the status. *)
Record db_socket := mkDbSocket { ds_wire : db_wire; ds_failed : db_status; ds_writes : list (option db_status) }.

Definition has_newline (sql : list Z) : bool := existsb (fun c => (c =? 10) || (c =? 13)) sql.

Definition db_socket_exec (c : db_socket) (sql : list Z) (cap : option nat)
    : option (db_status * list Z * db_socket) :=
  if negb (bool_decide (ds_failed c = DB_OK)) then Some (ds_failed c, [], c)
  else if has_newline sql then Some (DB_ERROR, [], c)
  else
    match ds_writes c with
    | [] => None
    | Some st :: ws => Some (st, [], mkDbSocket (ds_wire c) st ws)
    | None :: ws =>
        '(st, body, w) ← db_wire_response (ds_wire c) ((fun _ => []) <$> cap) (default 0%nat cap);
        Some (st, default [] body,
              mkDbSocket w (if bool_decide (st = DB_TIMEOUT) || bool_decide (st = DB_IO) then st
                            else ds_failed c) ws)
    end.
