(* ===== verification/DbRowsTheorems.v ===== *)
(** * DbRowsTheorems: a reply is read back, or not at all

    What the runner prints for a select, what rows.c makes of it, also after
    [db_wire_response] has cut it to the caller's buffer, and that the line
    protocol delivers it however the reads are cut. *)

From Stdlib Require Import String.
From stdpp Require Import options.
From S2P Require Import Prelude Text DbRows.
#[local] Open Scope Z_scope.

(** ** What the runner prints *)

(** [lines], each with its newline, above [rest]. *)
Definition above (lines : list (list Z)) (rest : list Z) : list Z :=
  foldr (fun l acc => l ++ NL :: acc) rest lines.

(** A tuple: its fields with tabs between them. *)
Definition row_line (fields : list (list Z)) : list Z := join_on TAB fields.

(** Whatever comes before the table and its header, the rule, the rows, a blank
    line and the trailer, and whatever follows. *)
Definition trailer (n : Z) : list Z := 32 :: decimal n ++ bytes " rows.".

Definition reply (pre : list (list Z)) (dashes : nat) (rows : list (list (list Z))) (post : list Z) : list Z :=
  above (pre ++ [replicate dashes DASH] ++ (row_line <$> rows) ++ [[]]) (trailer (Z.of_nat (length rows)) ++ post).

Definition no_newline (l : list Z) : Prop := NL ∉ l.

Record reply_ok (pre : list (list Z)) (dashes : nat) (rows : list (list (list Z))) : Prop := {
  ro_header : pre <> [];
  ro_lines : Forall no_newline pre;
  ro_no_rule : Forall (fun l => is_rule l = false) (tail pre);
  ro_rule : (0 < dashes)%nat;
  ro_fields : Forall (Forall (fun f => NL ∉ f /\ TAB ∉ f)) rows;
  ro_rows : Forall (fun r => row_line r <> []) rows;
  ro_count : Z.of_nat (length rows) <= INT_MAX
}.

(** ** Lines *)

Lemma Forall_forallb {A} (f : A -> bool) (P : A -> Prop) l :
  (forall x, f x = true -> P x) -> forallb f l = true -> Forall P l.
Proof.
  intros Hf. induction l as [|x l IH]; simpl; [by constructor|]. intros [? ?]%andb_true_iff.
  constructor; [by apply Hf|by apply IH].
Qed.

Lemma not_in_bytes (x : Z) l : existsb (Z.eqb x) l = false -> x ∉ l.
Proof.
  intros H%not_true_iff_false Hin. apply H, existsb_exists. exists x.
  split; [by apply list_elem_of_In|by apply Z.eqb_refl].
Qed.

Lemma line_at_app l r : no_newline l -> line_at (l ++ NL :: r) = l.
Proof.
  unfold no_newline. induction l as [|c l IH]; [done|]. intros [Hc Hl]%not_elem_of_cons. simpl.
  rewrite (proj2 (Z.eqb_neq c NL)) by done. by rewrite IH.
Qed.

Lemma line_at_id l : no_newline l -> line_at l = l.
Proof.
  unfold no_newline. induction l as [|c l IH]; [done|]. intros [Hc Hl]%not_elem_of_cons. simpl.
  rewrite (proj2 (Z.eqb_neq c NL)) by done. by rewrite IH.
Qed.

Lemma next_line_app l r : no_newline l -> next_line (l ++ NL :: r) = Some r.
Proof.
  unfold no_newline. induction l as [|c l IH]; [done|]. intros [Hc Hl]%not_elem_of_cons. simpl.
  rewrite (proj2 (Z.eqb_neq c NL)) by done. by rewrite IH.
Qed.

Lemma next_line_None l : no_newline l -> next_line l = None.
Proof.
  unfold no_newline. induction l as [|c l IH]; [done|]. intros [Hc Hl]%not_elem_of_cons. simpl.
  rewrite (proj2 (Z.eqb_neq c NL)) by done. by rewrite IH.
Qed.

Lemma no_newline_take k l : no_newline l -> no_newline (take k l).
Proof. unfold no_newline. intros Hl Hin. apply Hl. rewrite <- (take_drop k l). apply elem_of_app. by left. Qed.

Lemma take_line k l r :
  take k (l ++ NL :: r) = if (k <=? length l)%nat then take k l else l ++ NL :: take (k - length l - 1) r.
Proof.
  destruct (Nat.leb_spec k (length l)); [by rewrite take_app_le|].
  rewrite take_app_ge by lia. replace (k - length l)%nat with (S (k - length l - 1)) at 1 by lia. done.
Qed.

Lemma is_rule_app l r : no_newline l -> is_rule (l ++ NL :: r) = is_rule l.
Proof. intros Hl. unfold is_rule, line_len. by rewrite line_at_app, line_at_id. Qed.

Lemma length_above lines rest : length (above lines rest) = (length (above lines []) + length rest)%nat.
Proof. induction lines as [|l lines IH]; [done|]. simpl. rewrite !length_app. simpl. rewrite IH. lia. Qed.

Lemma above_app l1 l2 rest : above (l1 ++ l2) rest = above l1 (above l2 rest).
Proof. unfold above. by rewrite foldr_app. Qed.

Lemma above_cons l lines rest : above (l :: lines) rest = l ++ NL :: above lines rest.
Proof. done. Qed.

Lemma above_nil rest : above [] rest = rest.
Proof. done. Qed.

(** ** The scans, on a text cut after [k] characters *)

Lemma rows_scan_None fuel : rows_scan fuel None = None.
Proof. by destruct fuel. Qed.

(** One round on a whole line. *)
Lemma rows_scan_line fuel l r :
  no_newline l ->
  rows_scan (S fuel) (Some (l ++ NL :: r)) = if is_rule l then Some r else rows_scan fuel (Some r).
Proof.
  intros Hl. assert (Hr := is_rule_app l r Hl). assert (Hn := next_line_app l r Hl).
  destruct (l ++ NL :: r) as [|c t] eqn:E; [by destruct l|]. cbn [rows_scan]. rewrite Hr, Hn. done.
Qed.

Lemma rows_scan_last fuel l : no_newline l -> rows_scan fuel (Some l) = None.
Proof.
  intros Hl. destruct fuel as [|fuel]; [done|]. destruct l as [|c l]; [done|]. cbn [rows_scan].
  rewrite next_line_None by done. rewrite rows_scan_None. by destruct (is_rule _).
Qed.

Lemma rows_scan_cut pre rule rest k fuel :
  Forall no_newline pre -> Forall (fun l => is_rule l = false) pre ->
  no_newline rule -> is_rule rule = true ->
  (length (take k (above pre (rule ++ NL :: rest))) <= fuel)%nat ->
  rows_scan fuel (Some (take k (above pre (rule ++ NL :: rest)))) =
  if (length (above pre (rule ++ [NL])) <=? k)%nat
  then Some (take (k - length (above pre (rule ++ [NL]))) rest) else None.
Proof.
  revert k fuel. induction pre as [|l pre IH]; intros k fuel Hnl Hnr Hru Hr; rewrite ?above_nil, ?above_cons.
  - rewrite take_line, length_app. cbn [length]. destruct (Nat.leb_spec k (length rule)).
    + intros _. rewrite rows_scan_last by by apply no_newline_take.
      rewrite (proj2 (Nat.leb_gt _ _)) by lia. done.
    + rewrite length_app. cbn [length]. intros Hf. destruct fuel as [|fuel]; [lia|].
      rewrite rows_scan_line by done. rewrite Hr, (proj2 (Nat.leb_le _ _)) by lia. do 2 f_equal. lia.
  - apply Forall_cons in Hnl as [Hl Hnl]. apply Forall_cons in Hnr as [Hlr Hnr].
    rewrite take_line, length_app. cbn [length]. destruct (Nat.leb_spec k (length l)).
    + intros _. rewrite rows_scan_last by by apply no_newline_take.
      rewrite (proj2 (Nat.leb_gt _ _)) by lia. done.
    + rewrite length_app. cbn [length]. intros Hf. destruct fuel as [|fuel]; [lia|].
      rewrite rows_scan_line, Hlr by done. rewrite IH by (done || lia).
      destruct (Nat.leb_spec (length (above pre (rule ++ [NL]))) (k - length l - 1)).
      * rewrite (proj2 (Nat.leb_le _ _)) by lia. do 2 f_equal. lia.
      * by rewrite (proj2 (Nat.leb_gt _ _)) by lia.
Qed.

Lemma line_len_app l r : no_newline l -> line_len (l ++ NL :: r) = length l.
Proof. intros. unfold line_len. by rewrite line_at_app. Qed.

Lemma block_loop_line fuel l r n :
  no_newline l -> l <> [] ->
  block_loop (S fuel) (Some (l ++ NL :: r)) n = block_loop fuel (Some r) (n + 1).
Proof.
  intros Hl Hne. assert (Hr := line_len_app l r Hl). assert (Hn := next_line_app l r Hl).
  destruct (l ++ NL :: r) as [|c t] eqn:E; [by destruct l|]. cbn [block_loop]. rewrite Hr, Hn.
  by rewrite (proj2 (Nat.ltb_lt _ _)) by (destruct l; simpl; [done|lia]).
Qed.

Lemma block_loop_last fuel l n : no_newline l -> block_loop fuel (Some l) n = -1.
Proof.
  intros Hl. destruct fuel as [|fuel]; [done|]. destruct l as [|c l]; [done|]. cbn [block_loop].
  rewrite next_line_None by done. destruct (0 <? _)%nat; [by destruct fuel|done].
Qed.

Lemma block_loop_cut rows T k fuel n :
  Forall no_newline rows -> Forall (fun l => l <> []) rows ->
  (length (take k (above rows (NL :: T))) <= fuel)%nat ->
  block_loop fuel (Some (take k (above rows (NL :: T)))) n =
  if (length (above rows [NL]) <=? k)%nat
  then trailer_count (take (k - length (above rows [NL])) T) (n + Z.of_nat (length rows)) else -1.
Proof.
  revert k fuel n. induction rows as [|l rows IH]; intros k fuel n Hnl Hne; rewrite ?above_nil, ?above_cons.
  - rewrite Z.add_0_r. destruct k as [|k]; cbn [take length]; intros Hf; [by destruct fuel|].
    destruct fuel as [|fuel]; [lia|]. cbn. by rewrite Nat.sub_0_r.
  - apply Forall_cons in Hnl as [Hl Hnl]. apply Forall_cons in Hne as [Hl0 Hne].
    rewrite take_line, length_app. cbn [length]. destruct (Nat.leb_spec k (length l)).
    + intros _. rewrite block_loop_last by by apply no_newline_take. by rewrite (proj2 (Nat.leb_gt _ _)) by lia.
    + rewrite length_app. cbn [length]. intros Hf. destruct fuel as [|fuel]; [lia|].
      rewrite block_loop_line by done. rewrite IH by (done || lia).
      destruct (Nat.leb_spec (length (above rows [NL])) (k - length l - 1)).
      * rewrite (proj2 (Nat.leb_le _ _)) by lia. f_equal; [f_equal; lia|lia].
      * by rewrite (proj2 (Nat.leb_gt _ _)) by lia.
Qed.

(** ** The trailer *)

Lemma said_loop_digits s r v d :
  forallb is_digit s = true -> (forall c, head r = Some c -> is_digit c = false) ->
  0 <= v -> digits_value v s <= INT_MAX ->
  said_loop (s ++ r) v d = Some (digits_value v s, (d + length s)%nat, r).
Proof.
  revert v d. induction s as [|c s IH]; intros v d Hs Hr Hv Hmax; simpl in *.
  - rewrite Nat.add_0_r. destruct r as [|c r]; [done|]. simpl. by rewrite Hr.
  - apply andb_true_iff in Hs as [Hc Hs]. rewrite Hc.
    assert (48 <= c <= 57) by (unfold is_digit in Hc; bool_arith; lia).
    pose proof (digits_value_mono s (v * 10 + (c - 48)) ltac:(lia) Hs).
    rewrite (proj2 (Z.ltb_ge _ _)) by (apply Z.div_le_lower_bound; lia).
    rewrite IH by (done || lia). do 2 f_equal. f_equal. lia.
Qed.

Lemma skip_blanks_decimal n r : 0 <= n <= INT_MAX -> skip_blanks (decimal n ++ r) = decimal n ++ r.
Proof.
  intros Hn. destruct (decimal_digits n) as (_ & Hd & Hl); [unfold UINT32_MAX, INT_MAX in *; lia|].
  destruct (decimal n) as [|c s]; [simpl in Hl; lia|]. simpl in Hd |- *.
  apply andb_true_iff in Hd as [Hc _]. unfold is_digit in Hc. bool_arith.
  by rewrite (proj2 (Z.eqb_neq c 32)) by lia.
Qed.

Lemma forallb_take {A} (P : A -> bool) k l : forallb P l = true -> forallb P (take k l) = true.
Proof.
  revert k. induction l as [|x l IH]; intros [|k] H; simpl in *; try done.
  apply andb_true_iff in H as [-> H]. by apply IH.
Qed.

(** The digits alone, all or some of them, are no trailer. *)
Lemma trailer_digits s n : forallb is_digit s = true -> trailer_count s n = -1.
Proof.
  intros Hs. unfold trailer_count.
  assert (skip_blanks s = s) as ->.
  { destruct s as [|c s]; [done|]. simpl in Hs |- *. apply andb_true_iff in Hs as [Hc _].
    unfold is_digit in Hc. bool_arith. by rewrite (proj2 (Z.eqb_neq c 32)) by lia. }
  assert (Hgen : forall v d, said_loop s v d = None \/ exists v' d', said_loop s v d = Some (v', d', [])).
  { clear n. induction s as [|c s IH]; intros v d; simpl; [eauto|]. apply andb_true_iff in Hs as [-> Hs].
    case_match; [by left|]. by apply IH. }
  destruct (Hgen 0 0%nat) as [->|(v & d & ->)]; [done|]. by rewrite orb_true_r.
Qed.

Lemma trailer_count_cut n post j :
  0 <= n <= INT_MAX ->
  trailer_count (take j (trailer n ++ post)) n = if (length (trailer n) <=? j)%nat then n else -1.
Proof.
  intros Hn. destruct (decimal_digits n) as (Hv & Hd & Hl); [unfold UINT32_MAX, INT_MAX in *; lia|].
  unfold trailer. destruct j as [|j]; [done|].
  change (take (S j) ((32 :: decimal n ++ bytes " rows.") ++ post))
    with (32 :: take j ((decimal n ++ bytes " rows.") ++ post)).
  change (trailer_count (32 :: ?x) n) with (trailer_count x n).
  cbn [length]. rewrite length_app. change (length (bytes " rows.")) with 6%nat. rewrite <- app_assoc.
  destruct (Nat.le_gt_cases j (length (decimal n))) as [Hj|Hj].
  { rewrite take_app_le by done. rewrite trailer_digits by by apply forallb_take.
    by rewrite (proj2 (Nat.leb_gt _ _)) by lia. }
  rewrite take_app_ge by lia. set (i := (j - length (decimal n))%nat).
  unfold trailer_count. rewrite skip_blanks_decimal by done.
  assert (Hh : forall c, head (take i (bytes " rows." ++ post)) = Some c -> is_digit c = false).
  { intros c. destruct i as [|i'] eqn:Ei; [done|]. cbn. intros [= <-]. done. }
  rewrite said_loop_digits by (done || lia). rewrite Hv, Z.eqb_refl.
  rewrite (proj2 (Nat.eqb_neq _ _)) by lia. rewrite orb_false_l.
  destruct (Nat.leb_spec (S (length (decimal n) + 6)) (S j)) as [Hge|Hlt].
  - rewrite take_take, Nat.min_l by lia. rewrite take_app_le by (simpl; lia). done.
  - rewrite bool_decide_false; [done|]. intros E%(f_equal length).
    rewrite !length_take in E. change (length (bytes " rows.")) with 6%nat in E. lia.
Qed.

(** ** Fields *)

Lemma split_row_line fs : fs <> [] -> Forall (fun f => NL ∉ f /\ TAB ∉ f) fs -> split_tabs (row_line fs) = fs.
Proof.
  induction fs as [|f fs IH]; [done|]. intros _ [[_ Hf] Hfs]%Forall_cons. destruct fs as [|g fs].
  - by apply split_on_last.
  - unfold row_line, split_tabs. cbn [join_on]. rewrite split_on_field by done. f_equal. by apply IH.
Qed.

Lemma row_line_no_newline fs : Forall (fun f => NL ∉ f /\ TAB ∉ f) fs -> no_newline (row_line fs).
Proof.
  unfold no_newline. induction fs as [|f fs IH]; [intros _; apply not_elem_of_nil|].
  intros [[Hf _] Hfs]%Forall_cons. destruct fs as [|g fs]; [done|]. unfold row_line. cbn [join_on].
  rewrite elem_of_app, elem_of_cons. intros [?|[?|?]]; [done|done|by apply IH].
Qed.

Lemma skip_lines_above i rows X :
  Forall no_newline rows -> (i <= length rows)%nat -> skip_lines i (above rows X) = Some (above (drop i rows) X).
Proof.
  revert rows. induction i as [|i IH]; intros rows Hnl Hi; [done|].
  destruct rows as [|l rows]; [simpl in Hi; lia|]. apply Forall_cons in Hnl as [Hl Hnl]. cbn [skip_lines drop].
  rewrite above_cons, next_line_app by done. cbn. apply IH; [done|simpl in Hi; lia].
Qed.

Lemma take_above j rows X :
  (length (above rows []) <= j)%nat -> take j (above rows X) = above rows (take (j - length (above rows [])) X).
Proof.
  revert j. induction rows as [|l rows IH]; intros j Hj; [by rewrite Nat.sub_0_r|].
  rewrite !above_cons, length_app in *. cbn [length] in *. rewrite take_line.
  rewrite (proj2 (Nat.leb_gt _ _)) by lia. rewrite IH by lia. do 3 f_equal. f_equal. lia.
Qed.

(** ** A reply, whole or cut *)

Lemma dashes_no_newline d : no_newline (replicate d DASH).
Proof. intros [? _]%elem_of_replicate. done. Qed.

Lemma dashes_rule d : (0 < d)%nat -> is_rule (replicate d DASH) = true.
Proof.
  intros Hd. unfold is_rule, line_len. rewrite line_at_id by apply dashes_no_newline.
  rewrite length_replicate, (proj2 (Nat.eqb_neq _ _)) by lia. simpl. clear Hd. by induction d.
Qed.

Section reply.
Context (pre : list (list Z)) (dashes : nat) (rows : list (list (list Z))) (post : list Z).
Context (Hok : reply_ok pre dashes rows).

Let lines := row_line <$> rows.
Let T := trailer (Z.of_nat (length rows)) ++ post.
Let head := above pre (replicate dashes DASH ++ [NL]).

Lemma reply_shape : reply pre dashes rows post = above pre (replicate dashes DASH ++ NL :: above lines (NL :: T)).
Proof. unfold reply, T, lines. by rewrite !above_app. Qed.

Lemma reply_lines : Forall no_newline lines /\ Forall (fun l => l <> []) lines.
Proof using Hok.
  split; apply Forall_fmap; [|apply (ro_rows _ _ _ Hok)].
  eapply Forall_impl; [apply (ro_fields _ _ _ Hok)|]. apply row_line_no_newline.
Qed.

Lemma rows_begin_cut k :
  rows_begin (take k (reply pre dashes rows post)) =
  if (length head <=? k)%nat then Some (take (k - length head) (above lines (NL :: T))) else None.
Proof using Hok.
  destruct Hok as [Hne Hnl Hnr Hd _ _ _]. rewrite reply_shape. unfold rows_begin.
  destruct pre as [|l p]; [done|]. apply Forall_cons in Hnl as [Hl Hnl]. unfold head.
  rewrite !above_cons, take_line, length_app. cbn [length].
  destruct (Nat.leb_spec k (length l)).
  - rewrite next_line_None by by apply no_newline_take. rewrite rows_scan_None.
    by rewrite (proj2 (Nat.leb_gt _ _)) by lia.
  - rewrite next_line_app by done.
    rewrite rows_scan_cut; [|done|done|apply dashes_no_newline|by apply dashes_rule|rewrite length_app; simpl; lia].
    destruct (Nat.leb_spec (length (above p (replicate dashes DASH ++ [NL]))) (k - length l - 1)).
    + rewrite (proj2 (Nat.leb_le _ _)) by lia. do 2 f_equal. lia.
    + by rewrite (proj2 (Nat.leb_gt _ _)) by lia.
Qed.

(** How much of the reply has to be there. *)
Definition reply_needs : nat := length (reply pre dashes rows []).

Lemma reply_needs_eq :
  reply_needs = (length head + length (above lines [NL]) + length (trailer (Z.of_nat (length rows))))%nat.
Proof using pre dashes rows.
  unfold reply_needs, reply, head, lines. rewrite !above_app, app_nil_r.
  rewrite (length_above pre (replicate dashes DASH ++ [NL])), (length_above pre (above _ _)).
  rewrite above_cons, above_nil, !length_app. cbn [length].
  rewrite (length_above (row_line <$> rows) [NL]), (length_above (row_line <$> rows) (above _ _)).
  rewrite above_cons, above_nil. cbn [length app]. lia.
Qed.

Lemma row_count_cut k :
  db_row_count (take k (reply pre dashes rows post)) =
  if (reply_needs <=? k)%nat then Z.of_nat (length rows) else -1.
Proof using Hok.
  rewrite reply_needs_eq. unfold db_row_count. rewrite rows_begin_cut.
  destruct (Nat.leb_spec (length head) k); [|by rewrite (proj2 (Nat.leb_gt _ _)) by lia].
  destruct reply_lines as [Hnl Hne]. unfold block_count. rewrite block_loop_cut by done.
  destruct (Nat.leb_spec (length (above lines [NL])) (k - length head));
    [|by rewrite (proj2 (Nat.leb_gt _ _)) by lia].
  rewrite Z.add_0_l. unfold lines at 2. rewrite length_fmap. unfold T.
  rewrite trailer_count_cut by (pose proof (ro_count _ _ _ Hok); lia).
  destruct (Nat.leb_spec (length (trailer (Z.of_nat (length rows)))) (k - length head - length (above lines [NL]))).
  - by rewrite (proj2 (Nat.leb_le _ _)) by lia.
  - by rewrite (proj2 (Nat.leb_gt _ _)) by lia.
Qed.

Lemma row_fields_cut k i fs max :
  (reply_needs <= k)%nat -> rows !! i = Some fs ->
  db_row_fields (take k (reply pre dashes rows post)) (Z.of_nat i) max =
  Some (Z.of_nat (length fs), take max fs).
Proof using Hok.
  intros Hk Hi. pose proof (lookup_lt_Some _ _ _ Hi). destruct reply_lines as [Hnl _].
  unfold db_row_fields. rewrite row_count_cut, (proj2 (Nat.leb_le _ _) Hk).
  rewrite !(proj2 (Z.ltb_ge _ _)), (proj2 (Z.leb_gt _ _)) by lia. cbn [orb].
  rewrite rows_begin_cut. rewrite reply_needs_eq in Hk. rewrite (proj2 (Nat.leb_le _ _)) by lia. cbn [mbind option_bind].
  rewrite (length_above lines [NL]) in Hk. cbn [length] in Hk.
  rewrite take_above by lia. rewrite Nat2Z.id, skip_lines_above by (unfold lines; rewrite ?length_fmap; done || lia).
  assert (Hdrop : drop i lines = row_line fs :: drop (S i) lines).
  { apply drop_S. unfold lines. by rewrite list_lookup_fmap, Hi. }
  rewrite Hdrop, above_cons. cbn [mbind option_bind].
  assert (Hfs : Forall (fun f => NL ∉ f /\ TAB ∉ f) fs) by exact (Forall_lookup_1 _ _ _ _ (ro_fields _ _ _ Hok) Hi).
  rewrite line_at_app by by apply row_line_no_newline.
  rewrite split_row_line; [done| |done].
  intros ->. by apply (Forall_lookup_1 _ _ _ _ (ro_rows _ _ _ Hok) Hi).
Qed.
End reply.

(** A select reply is read back exactly, or not at all.  However much of it
    the caller's buffer cut off, [db_row_count] gives the number of rows the runner
    printed when the trailer is there and -1 otherwise, and then every row has
    exactly the fields it was printed with, empty ones included. *)
Theorem reply_read_back pre dashes rows post k :
  reply_ok pre dashes rows ->
  let body := take k (reply pre dashes rows post) in
  if (reply_needs pre dashes rows <=? k)%nat then
    db_row_count body = Z.of_nat (length rows) /\
    forall i fs max, rows !! i = Some fs ->
      db_row_fields body (Z.of_nat i) max = Some (Z.of_nat (length fs), take max fs)
  else db_row_count body = -1 /\ (forall i max, db_row_fields body i max = None) /\ db_next_id body = -1.
Proof.
  intros Hok. cbv zeta. destruct (Nat.leb_spec (reply_needs pre dashes rows) k) as [Hk|Hk].
  - split; [|intros; by apply row_fields_cut]. by rewrite row_count_cut, (proj2 (Nat.leb_le _ _)).
  - assert (E : db_row_count (take k (reply pre dashes rows post)) = -1)
      by (by rewrite row_count_cut, (proj2 (Nat.leb_gt _ _))).
    unfold db_row_fields, db_next_id. by rewrite E.
Qed.

Definition two_rows : list (list (list Z)) :=
  [[bytes "ann"; bytes "1200"]; [bytes "bob"; []]].

Lemma reply_read_back_witness :
  let body := reply [bytes "name"] 9 two_rows [NL] in
  db_row_fields body 1 2 = Some (2, [bytes "bob"; []]) /\ db_row_count (take 30 body) = -1.
Proof.
  assert (Hok : reply_ok [bytes "name"] 9 two_rows).
  { split; try done; try (vm_compute; lia);
      repeat (apply Forall_cons; split); try apply Forall_nil; try done; try split; apply not_in_bytes; reflexivity. }
  pose proof (reply_read_back [bytes "name"] 9 two_rows [NL] 100 Hok) as H1.
  pose proof (reply_read_back [bytes "name"] 9 two_rows [NL] 30 Hok) as H2.
  split; [exact (proj2 H1 1%nat _ 2%nat eq_refl)|exact (proj1 H2)].
Defined.

(** ** The line protocol *)

Definition chunk_of (e : wire_event) : list Z := match e with WData chunk => chunk | _ => [] end.

(** The bytes the runner sent that have not been consumed. *)
Definition w_bytes (w : db_wire) : list Z := w_buf w ++ concat (chunk_of <$> w_reads w).

(** Reads that only bring bytes or ask for another try. *)
Definition brings (e : wire_event) : Prop := match e with WData _ | WAgain => True | _ => False end.
Definition w_open (w : db_wire) : Prop := Forall brings (w_reads w).

Lemma copy_line_none cap buf out :
  no_newline buf -> (length out < cap)%nat -> copy_line cap buf out = (false, trunc cap (out ++ buf), []).
Proof.
  unfold no_newline, trunc. revert out. induction buf as [|c buf IH]; intros out Hn Hl.
  { simpl. rewrite app_nil_r, take_ge by lia. done. }
  apply not_elem_of_cons in Hn as [Hc Hn]. simpl. rewrite (proj2 (Z.eqb_neq c NL)) by done.
  destruct (Nat.ltb_spec (length out + 1) cap) as [Hlt|Hge].
  - rewrite IH by (try done; rewrite length_app; simpl; lia). by rewrite <- app_assoc.
  - rewrite IH by done. rewrite !take_app_le by lia. done.
Qed.

Lemma copy_line_some cap l rest out :
  no_newline l -> (length out < cap)%nat ->
  copy_line cap (l ++ NL :: rest) out = (true, trunc cap (out ++ l), rest).
Proof.
  unfold no_newline, trunc. revert out. induction l as [|c l IH]; intros out Hn Hl.
  { simpl. rewrite app_nil_r, take_ge by lia. done. }
  apply not_elem_of_cons in Hn as [Hc Hn]. simpl. rewrite (proj2 (Z.eqb_neq c NL)) by done.
  destruct (Nat.ltb_spec (length out + 1) cap) as [Hlt|Hge].
  - rewrite IH by (try done; rewrite length_app; simpl; lia). by rewrite <- app_assoc.
  - rewrite IH by done. rewrite !take_app_le by lia. done.
Qed.

Lemma newline_split (s : list Z) : no_newline s \/ exists a b, s = a ++ NL :: b /\ no_newline a.
Proof.
  induction s as [|c s [IH|(a & b & -> & Ha)]]; [by left; apply not_elem_of_nil| |];
    destruct (decide (c = NL)) as [->|Hc].
  - right. exists [], s. split; [done|apply not_elem_of_nil].
  - left. by apply not_elem_of_cons.
  - right. exists [], (a ++ NL :: b). split; [done|apply not_elem_of_nil].
  - right. exists (c :: a), b. split; [done|]. by apply not_elem_of_cons.
Qed.

Lemma newline_unique l a r b : no_newline l -> no_newline a -> l ++ NL :: r = a ++ NL :: b -> l = a /\ r = b.
Proof.
  intros Hl Ha E. pose proof (f_equal line_at E) as E1. pose proof (f_equal next_line E) as E2.
  rewrite !line_at_app in E1 by done. rewrite !next_line_app in E2 by done. by simplify_eq.
Qed.

Lemma newline_prefix b t l r :
  no_newline b -> b ++ t = l ++ NL :: r -> exists l', l = b ++ l' /\ t = l' ++ NL :: r.
Proof.
  unfold no_newline. revert l. induction b as [|c b IH]; intros l Hb E; [by exists l|].
  apply not_elem_of_cons in Hb as [Hc Hb]. destruct l as [|x l]; simpl in E; [simplify_eq|].
  injection E as <- E. destruct (IH l Hb E) as (l' & -> & ->). by exists l'.
Qed.

Lemma trunc_app cap a b : trunc cap (trunc cap a ++ b) = trunc cap (a ++ b).
Proof.
  unfold trunc. destruct (Nat.le_gt_cases (cap - 1) (length a)).
  - rewrite take_app_le by (rewrite length_take; lia). rewrite take_take, Nat.min_id. by rewrite take_app_le.
  - by rewrite (take_ge a) by lia.
Qed.

Lemma wire_line_eq cap out buf reads :
  wire_line cap out buf reads =
  match copy_line cap buf out with
  | (true, out, buf) => Some (DB_WIRE_LINE out, mkWire buf reads)
  | (false, out, _) =>
      match reads with
      | [] => None
      | WData chunk :: reads => wire_line cap out chunk reads
      | WAgain :: reads => wire_line cap out [] reads
      | WBroken :: reads => Some (DB_WIRE_IO, mkWire [] reads)
      | WClosed :: reads => Some (DB_WIRE_EOF, mkWire [] reads)
      | WLate :: reads => Some (DB_WIRE_LATE, mkWire [] reads)
      end
  end.
Proof. by destruct reads. Qed.

(** A line arrives whole, whatever pieces it comes in. *)
Lemma wire_line_delivers cap reads : forall l rest out buf,
  Forall brings reads -> no_newline l -> (length out < cap)%nat ->
  buf ++ concat (chunk_of <$> reads) = l ++ NL :: rest ->
  exists w, wire_line cap out buf reads = Some (DB_WIRE_LINE (trunc cap (out ++ l)), w) /\
    w_open w /\ w_bytes w = rest.
Proof.
  induction reads as [|e reads IH]; intros l rest out buf Hq Hl Hout E; rewrite wire_line_eq;
    destruct (newline_split buf) as [Hb|(a & b & -> & Ha)].
  2, 4: rewrite <- app_assoc in E; cbn [app] in E; destruct (newline_unique _ _ _ _ Ha Hl E) as [-> <-];
    rewrite copy_line_some by done; eexists; split_and!; done.
  - cbn in E. rewrite app_nil_r in E. subst buf. exfalso. apply Hb, elem_of_app. right. by left.
  - apply Forall_cons in Hq as [He Hq]. apply newline_prefix in E as (l' & -> & E); [|done].
    assert (Hl' : no_newline l') by (intros Hin; apply Hl, elem_of_app; by right).
    rewrite copy_line_none by done.
    replace (trunc cap (out ++ buf ++ l')) with (trunc cap (trunc cap (out ++ buf) ++ l'))
      by (by rewrite trunc_app, <- app_assoc).
    assert ((length (trunc cap (out ++ buf)) < cap)%nat) by (apply length_trunc; lia).
    destruct e; try done; by apply IH.
Qed.

(** ** A whole response *)

(** The marker line that ends a response; the lines above it do not start one. *)
Definition marker (l : list Z) : Prop := take 6 l = DB_MARK_END.

Definition line_ok (l : list Z) : Prop := no_newline l /\ (length l < DB_BODY_MAX)%nat.

Lemma wire_response_delivers cap lines mark rest : forall fuel w body,
  Forall line_ok lines -> Forall (fun l => ~ marker l) lines -> line_ok mark -> marker mark ->
  w_open w -> w_bytes w = above lines (mark ++ NL :: rest) -> (length lines < fuel)%nat ->
  exists w', wire_response fuel cap w body =
      Some (classify mark, (fun b => foldl (keep_line cap) b lines) <$> body, w') /\
    w_open w' /\ w_bytes w' = rest.
Proof.
  induction lines as [|l lines IH]; intros [|fuel] w body Hl Hm Hmark Hm' Ho Hb Hf; simpl in Hf; try lia.
  - destruct Hmark as [Hnl Hlen]. rewrite above_nil in Hb.
    destruct (wire_line_delivers DB_BODY_MAX (w_reads w) mark rest [] (w_buf w)) as (w' & E & Hw');
      [done|done|cbv; lia|done|].
    exists w'. split; [|done]. cbn [wire_response]. unfold db_wire_line. rewrite E, trunc_id by done. cbn [mbind option_bind app].
    rewrite bool_decide_true by done. by destruct body.
  - apply Forall_cons in Hl as [[Hnl Hlen] Hl]. apply Forall_cons in Hm as [Hnm Hm]. rewrite above_cons in Hb.
    destruct (wire_line_delivers DB_BODY_MAX (w_reads w) l (above lines (mark ++ NL :: rest)) [] (w_buf w))
      as (w1 & E & Ho1 & Hb1); [done|done|cbv; lia|done|].
    destruct (IH fuel w1 ((fun b => keep_line cap b l) <$> body)) as (w' & E' & Hw'); try done; [lia|].
    exists w'. split; [|done]. cbn [wire_response]. unfold db_wire_line. rewrite E, trunc_id by done. cbn [mbind option_bind app].
    rewrite bool_decide_false by done. rewrite E'. by destruct body.
Qed.

(** The lines kept are the text they make, as much as fits. *)
Lemma keep_lines cap lines : forall b,
  b <> [] -> (length b < cap)%nat ->
  foldl (keep_line cap) b lines = trunc cap (b ++ concat ((NL ::.) <$> lines)).
Proof.
  unfold trunc. induction lines as [|l lines IH]; intros b Hb Hl.
  - cbn. rewrite app_nil_r, take_ge by lia. done.
  - cbn [foldl]. assert (E : keep_line cap b l = trunc cap (b ++ NL :: l)).
    { unfold keep_line, trunc. rewrite (proj2 (Nat.ltb_lt 0 (length b))) by (destruct b; simpl; [done|lia]).
      destruct (Nat.ltb_spec (length b + 1) cap).
      - rewrite (take_app_ge b) by lia. do 2 f_equal. lia.
      - rewrite take_app_le by lia. by rewrite take_ge by lia. }
    rewrite IH; rewrite E.
    + rewrite fmap_cons. cbn [concat]. change (take (cap - 1) ?x) with (trunc cap x). rewrite trunc_app.
      by rewrite <- app_assoc.
    + unfold trunc. destruct b as [|x b]; [done|]. simpl in Hl.
      destruct (cap - 1)%nat eqn:Ec; [lia|]. done.
    + apply length_trunc. lia.
Qed.

Lemma above_joined ls : forall a x y,
  above (a :: ls) (x ++ y) = a ++ concat ((NL ::.) <$> (ls ++ [x])) ++ y.
Proof.
  induction ls as [|l ls IH]; intros a x y; rewrite above_cons.
  - cbn. by rewrite app_nil_r.
  - rewrite IH. rewrite <- app_comm_cons, fmap_cons. cbn [concat app]. by rewrite <- app_assoc.
Qed.

Lemma wire_left_bytes w : wire_left w = length (w_bytes w).
Proof.
  unfold wire_left, w_bytes. rewrite length_app. f_equal. induction (w_reads w) as [|e reads IH]; [done|].
  rewrite fmap_cons. cbn [foldr concat]. rewrite length_app, <- IH. by destruct e.
Qed.

Lemma length_above_lines lines rest : (length lines + length rest <= length (above lines rest))%nat.
Proof. induction lines as [|l lines IH]; [done|]. rewrite above_cons, length_app. simpl. lia. Qed.

Lemma classify_no_loss mark : classify mark <> DB_TIMEOUT /\ classify mark <> DB_IO.
Proof. unfold classify. by repeat case_match. Qed.

(** The lines of a response to a select: the table and its trailer, then [plines]. *)
Definition reply_text (pre : list (list Z)) (dashes : nat) (rows : list (list (list Z)))
    (plines : list (list Z)) : list (list Z) :=
  pre ++ [replicate dashes DASH] ++ (row_line <$> rows) ++ [[]; trailer (Z.of_nat (length rows))] ++ plines.

Lemma keep_reply cap pre dashes rows plines :
  head pre <> Some [] -> pre <> [] -> (1 < cap)%nat ->
  foldl (keep_line cap) [] (reply_text pre dashes rows plines) =
  trunc cap (reply pre dashes rows (concat ((NL ::.) <$> plines))).
Proof.
  intros Hh Hne Hcap. destruct pre as [|l0 pre]; [done|]. unfold reply_text. cbn [app foldl].
  assert (E0 : keep_line cap [] l0 = trunc cap l0)
    by (unfold keep_line; cbn [length]; rewrite (proj2 (Nat.ltb_lt _ _)) by lia; by rewrite Nat.sub_0_r).
  rewrite E0, keep_lines.
  - rewrite trunc_app. f_equal. unfold reply.
    replace ((l0 :: pre) ++ [replicate dashes DASH] ++ (row_line <$> rows) ++ [[]])
      with (l0 :: (pre ++ [replicate dashes DASH] ++ (row_line <$> rows) ++ [[]])) by done.
    rewrite above_joined. f_equal. rewrite <- concat_app, <- fmap_app. do 2 f_equal.
    rewrite <- !app_assoc. done.
  - unfold trunc. destruct l0 as [|x l0]; [done|]. destruct (cap - 1)%nat eqn:Ec; [lia|]. done.
  - apply length_trunc. lia.
Qed.

(** C32: A select is answered over the line protocol. However the runner's answer is
    cut into reads and however often they are interrupted, [db_socket_exec] returns
    the status of the marker - success for <<END ok>> only - with the reply's text, as
    much of it as the buffer holds, leaves the stream at the first byte after the
    marker and the connection usable; the reply's rows then are, field by field, those
    the runner printed if the buffer held them all, and the reply is refused
    otherwise. The rows printed have no tab or line break inside a field, none of them
    prints as an empty line, every line of the reply is shorter than 1024 characters,
    and none of them reads like a marker. *)
Theorem select_delivers c sql cap ws pre dashes rows plines mark rest :
  reply_ok pre dashes rows -> head pre <> Some [] ->
  Forall line_ok (reply_text pre dashes rows plines) ->
  Forall (fun l => ~ marker l) (reply_text pre dashes rows plines) ->
  line_ok mark -> marker mark -> has_newline sql = false -> (1 < cap)%nat ->
  ds_failed c = DB_OK -> ds_writes c = None :: ws -> w_open (ds_wire c) ->
  w_bytes (ds_wire c) = above (reply_text pre dashes rows plines) (mark ++ NL :: rest) ->
  exists body c', db_socket_exec c sql (Some cap) = Some (classify mark, body, c') /\
    ds_failed c' = DB_OK /\ ds_writes c' = ws /\ w_open (ds_wire c') /\ w_bytes (ds_wire c') = rest /\
    if (reply_needs pre dashes rows <? cap)%nat then
      db_row_count body = Z.of_nat (length rows) /\
      (forall i fs max, rows !! i = Some fs ->
         db_row_fields body (Z.of_nat i) max = Some (Z.of_nat (length fs), take max fs))
    else db_row_count body = -1 /\ (forall i max, db_row_fields body i max = None).
Proof.
  intros Hok Hh Hl Hm Hmark Hm' Hsql Hcap Hf Hw Ho Hb.
  destruct (wire_response_delivers cap (reply_text pre dashes rows plines) mark rest
    (S (wire_left (ds_wire c))) (ds_wire c) (Some [])) as (w' & E & Ho' & Hb'); try done.
  { rewrite wire_left_bytes, Hb.
    pose proof (length_above_lines (reply_text pre dashes rows plines) (mark ++ NL :: rest)). lia. }
  unfold db_socket_exec. rewrite bool_decide_true, Hsql, Hw by done. cbn [negb fmap option_fmap option_map].
  change (default 0%nat (Some cap)) with cap. unfold db_wire_response. cbn [fmap option_fmap option_map]. rewrite E. cbn [mbind option_bind fmap option_fmap option_map].
  destruct (classify_no_loss mark) as [H1 H2]. rewrite !bool_decide_false by done. cbn [orb].
  eexists _, _. split_and!; try done. cbn [from_option id].
  rewrite keep_reply by (done || apply (ro_header _ _ _ Hok)). unfold trunc.
  replace (reply_needs pre dashes rows <? cap)%nat with (reply_needs pre dashes rows <=? cap - 1)%nat
    by (apply eq_true_iff_eq; rewrite Nat.ltb_lt, Nat.leb_le; lia).
  pose proof (reply_read_back pre dashes rows (concat ((NL ::.) <$> plines)) (cap - 1) Hok) as Hrb.
  cbv zeta in Hrb. destruct (_ <=? _)%nat; [done|]. by destruct Hrb as (? & ? & _).
Qed.

(** An answer that comes in three pieces with an interruption. *)
Definition answer : list Z :=
  above (reply_text [bytes "name"] 9 two_rows [bytes "Transaction 4 committed."]) (DB_MARK_OK ++ [NL]).
Definition answering : db_socket :=
  mkDbSocket (mkWire (take 3 answer)
    [WAgain; WData (take 20 (drop 3 answer)); WAgain; WData (drop 23 answer)]) DB_OK [None].

Lemma select_delivers_witness :
  exists body c', db_socket_exec answering (bytes "select name, score from history;") (Some 200%nat) =
      Some (DB_OK, body, c') /\ db_row_fields body 1 2 = Some (2, [bytes "bob"; []]).
Proof.
  assert (Hok : reply_ok [bytes "name"] 9 two_rows).
  { split; try done; try (vm_compute; lia);
      repeat (apply Forall_cons; split); try apply Forall_nil; try done; try split; apply not_in_bytes; reflexivity. }
  destruct (select_delivers answering (bytes "select name, score from history;") 200%nat []
    [bytes "name"] 9 two_rows [bytes "Transaction 4 committed."] DB_MARK_OK [] Hok)
    as (body & c' & E & _ & _ & _ & _ & H).
  - discriminate.
  - apply (Forall_forallb (fun l => negb (existsb (Z.eqb NL) l) && (length l <? DB_BODY_MAX)%nat)); [|vm_compute; reflexivity].
    intros l [H1%negb_true_iff H2%Nat.ltb_lt]%andb_true_iff. split; [by apply not_in_bytes|done].
  - apply (Forall_forallb (fun l => negb (bool_decide (take 6 l = DB_MARK_END)))); [|vm_compute; reflexivity].
    intros l H%negb_true_iff%bool_decide_eq_false. exact H.
  - split; [apply not_in_bytes; reflexivity|vm_compute; lia].
  - reflexivity.
  - vm_compute. reflexivity.
  - lia.
  - reflexivity.
  - reflexivity.
  - repeat (apply Forall_cons; split); try apply Forall_nil; exact I.
  - vm_compute. reflexivity.
  - exists body, c'. split; [exact E|].
    assert (Hn : (reply_needs [bytes "name"] 9 two_rows <? 200)%nat = true) by (vm_compute; reflexivity).
    rewrite Hn in H. exact (proj2 H 1%nat _ 2%nat eq_refl).
Defined.
