(* ===== verification/DbQueue.v ===== *)
(** * DbQueue: the queue in front of the pipe database

    Models core/src/libtetrisdb/pipe/queue.c, through which tetrislogd hands its
    records to the database: a ring of statements filled by callers that never wait
    and emptied by one worker thread, which restarts the child process when it dies.
    What the child answers, and whether it can be restarted, come from outside.
    Memory for [db_start] and starting its thread do not fail.  The mutex makes
    [db_submit] and [dequeue] atomic; [execute] touches what the threads share in one
    critical section. *)

From stdpp Require Import options.
From S2P Require Import Prelude.
#[local] Open Scope Z_scope.

Definition DB_RESPAWN_MAX : nat := 3.

Notation Sql := (list Z) (only parsing).

Record db := mkDb {
  q_items : list Sql; q_cap : nat; q_head : nat; q_tail : nat; q_count : nat;
  q_stopping : bool; q_dead : bool; q_dropped : Z; q_errors : Z }.

Definition add_dropped (d : db) : db :=
  mkDb (q_items d) (q_cap d) (q_head d) (q_tail d) (q_count d) (q_stopping d) (q_dead d) (u64 (q_dropped d + 1)) (q_errors d).
Definition add_error (d : db) : db :=
  mkDb (q_items d) (q_cap d) (q_head d) (q_tail d) (q_count d) (q_stopping d) (q_dead d) (q_dropped d) (u64 (q_errors d + 1)).
Definition set_dead (d : db) : db :=
  mkDb (q_items d) (q_cap d) (q_head d) (q_tail d) (q_count d) (q_stopping d) true (q_dropped d) (q_errors d).
Definition set_stopping (d : db) : db :=
  mkDb (q_items d) (q_cap d) (q_head d) (q_tail d) (q_count d) true (q_dead d) (q_dropped d) (q_errors d).

(** The slot the oldest statement leaves. *)
Definition pop (d : db) : db :=
  mkDb (q_items d) (q_cap d) ((q_head d + 1) mod q_cap d) (q_tail d) (q_count d - 1) (q_stopping d) (q_dead d) (q_dropped d) (q_errors d).

(** [None] while the worker waits for a statement; otherwise what it returns, no
    statement only when the queue is closed and empty. *)
Definition dequeue (d : db) : option (option Sql * db) :=
  if (q_count d =? 0)%nat then if q_stopping d then Some (None, d) else None
  else Some (q_items d !! q_head d, pop d).

(** What [db_proc_exec] makes of a statement. *)
Inductive reply := Done | Rejected | Gone.

(** [exec i] and [spawn i] are the outcomes in attempt [i], and [k] attempts are
    left; the replies of the child that was asked, in order, come with the state. *)
Fixpoint attempts (exec : nat -> reply) (spawn : nat -> bool) (i k : nat) (d : db) : list reply * db :=
  if q_dead d then ([], add_dropped d)
  else
    match exec i with
    | Done => ([Done], d)
    | Rejected => ([Rejected], add_error d)
    | Gone =>
        match k with
        | O => ([Gone], add_dropped (set_dead d))
        | S k => if spawn i then let '(rs, d) := attempts exec spawn (S i) k d in (Gone :: rs, d)
                 else ([Gone], add_dropped (set_dead d))
        end
    end.

Definition execute (exec : nat -> reply) (spawn : nat -> bool) (d : db) : list reply * db :=
  attempts exec spawn 0 DB_RESPAWN_MAX d.

(** [queue_cap] as given, the child and its probe as they went; [None] is [NULL]. *)
Definition db_start (queue_cap : nat) (spawned : bool) (probe : option reply) : option db :=
  let cap := if (0 <? queue_cap)%nat then queue_cap else 256%nat in
  if negb spawned then None
  else match probe with
       | Some Gone => None
       | _ => Some (mkDb (replicate cap []) cap 0 0 0 false false 0 0)
       end.

(** [copied]: the statement could be duplicated. *)
Definition db_submit (copied : bool) (d : option db) (sql : Sql) : Z * option db :=
  match d with
  | None => (-1, None)
  | Some d =>
      if negb copied then (-1, Some (add_dropped d))
      else if (q_count d =? q_cap d)%nat || q_stopping d || q_dead d then (-1, Some (add_dropped d))
      else (0, Some (mkDb (<[q_tail d := sql]> (q_items d)) (q_cap d) (q_head d) ((q_tail d + 1) mod q_cap d) (q_count d + 1)
                       (q_stopping d) (q_dead d) (q_dropped d) (q_errors d)))
  end.

Definition get_db_dropped (d : option db) : Z := match d with None => 0 | Some d => q_dropped d end.
Definition get_db_errors (d : option db) : Z := match d with None => 0 | Some d => q_errors d end.

(** The worker: [run n] are the outcomes of its [n]-th statement.  The loop ends when
    [dequeue] has nothing more; [None] when the fuel does. *)
Fixpoint worker_main (fuel : nat) (run : nat -> (nat -> reply) * (nat -> bool)) (n : nat) (d : db) : option db :=
  match fuel with
  | O => None
  | S fuel =>
      match dequeue d with
      | None => None
      | Some (None, d) => Some d
      | Some (Some sql, d) => worker_main fuel run (S n) (execute (run n).1 (run n).2 d).2
      end
  end.

(** The statements left behind, each one dropped. *)
Fixpoint discard (k : nat) (d : db) : db :=
  match k with O => d | S k => discard k (add_dropped (pop d)) end.

(** After the worker has been joined; the counters handed to the caller. *)
Definition db_stop (run : nat -> (nat -> reply) * (nat -> bool)) (n : nat) (d : option db) : option (Z * Z) :=
  match d with
  | None => Some (0, 0)
  | Some d =>
      d ← worker_main (S (q_count d)) run n (set_stopping d);
      let d := discard (q_count d) d in Some (q_dropped d, q_errors d)
  end.
