(* ===== verification/DbQueueTheorems.v ===== *)
(** * DbQueueTheorems: every statement is accounted for

    core/src/libtetrisdb/pipe/queue.c under any interleaving of its callers, its
    worker thread and the call that stops it. *)

From stdpp Require Import options.
From S2P Require Import Prelude DbQueue.
#[local] Open Scope Z_scope.

(** ** The ring *)

Record ring_ok (d : db) : Prop := {
  ring_len : length (q_items d) = q_cap d;
  ring_head : (q_head d < q_cap d)%nat;
  ring_count : (q_count d <= q_cap d)%nat;
  ring_tail : q_tail d = ((q_head d + q_count d) mod q_cap d)%nat
}.

(** The statements in the ring, oldest first. *)
Definition contents (d : db) : list Sql :=
  (fun i => default [] (q_items d !! ((q_head d + i) mod q_cap d)%nat)) <$> seq 0 (q_count d).

Lemma wrap_mod a c : (a < 2 * c)%nat -> (a mod c = if (a <? c)%nat then a else a - c)%nat.
Proof.
  intros H. destruct (Nat.ltb_spec a c); [by apply Nat.mod_small|].
  replace a with ((a - c) + 1 * c)%nat at 1 by lia. rewrite Nat.Div0.mod_add. apply Nat.mod_small. lia.
Qed.

Lemma length_contents d : length (contents d) = q_count d.
Proof. unfold contents. by rewrite length_fmap, length_seq. Qed.

Lemma pop_ok d : ring_ok d -> (0 < q_count d)%nat ->
  exists sql, q_items d !! q_head d = Some sql /\ contents d = sql :: contents (pop d) /\ ring_ok (pop d).
Proof.
  intros [Hl Hh Hc Ht] Hn. destruct (lookup_lt_is_Some_2 (q_items d) (q_head d)) as [sql Hs]; [lia|]. exists sql.
  assert (Hm : (forall i, (i < q_count d)%nat -> ((q_head d + 1) mod q_cap d + i) mod q_cap d = (q_head d + S i) mod q_cap d)%nat).
  { intros i Hi. rewrite Nat.Div0.add_mod_idemp_l. f_equal. lia. }
  split_and!; [done| |].
  - unfold contents at 1. destruct (q_count d) as [|n] eqn:E; [lia|]. cbn [seq]. rewrite fmap_cons. f_equal.
    + rewrite Nat.add_0_r, Nat.mod_small by lia. by rewrite Hs.
    + unfold contents, pop. cbn. rewrite E, <- fmap_S_seq, <- list_fmap_compose; replace (S n - 1)%nat with n by lia. apply list_fmap_ext.
      intros i x Hx. apply lookup_seq in Hx as [-> Hx]. cbn. by rewrite Hm by lia.
  - split; unfold pop; cbn; try lia; [apply Nat.mod_upper_bound; lia|].
    rewrite Ht, Nat.Div0.add_mod_idemp_l. f_equal. lia.
Qed.

Lemma push_ok d sql d' :
  ring_ok d -> db_submit true (Some d) sql = (0, Some d') -> ring_ok d' /\ contents d' = contents d ++ [sql] /\
    q_dropped d' = q_dropped d /\ q_errors d' = q_errors d /\ q_stopping d = false /\ q_dead d = false.
Proof.
  intros [Hl Hh Hc Ht]. unfold db_submit. cbn [negb]. destruct (Nat.eqb_spec (q_count d) (q_cap d)); [done|].
  destruct (q_stopping d), (q_dead d); try done. cbn [orb]. intros [= <-]. cbn. split_and!; try done.
  - split; cbn; [by rewrite length_insert|done|lia|]. rewrite Ht, Nat.Div0.add_mod_idemp_l. f_equal. lia.
  - unfold contents. cbn. rewrite Nat.add_1_r, seq_S, fmap_app. cbn. f_equal.
    + apply list_fmap_ext. intros i x Hx. apply lookup_seq in Hx as [-> Hx]. cbn. rewrite list_lookup_insert_ne; [done|].
      rewrite Ht, !wrap_mod by lia. do 2 case_match; rewrite ?Nat.ltb_lt, ?Nat.ltb_ge in *; lia.
    + rewrite Ht, list_lookup_insert_eq; [done|]. rewrite Hl. apply Nat.mod_upper_bound. lia.
Qed.

(** ** The threads *)

Inductive outcome := Executed | Failed | Lost.

#[global] Instance outcome_eq_dec : EqDecision outcome.
Proof. solve_decision. Defined.

(** What became of a statement, from the child's replies. *)
Definition outcome_of (rs : list reply) : outcome :=
  match last rs with Some Done => Executed | Some Rejected => Failed | _ => Lost end.

(** The queue, the statement its worker holds and whether it has returned; what
    callers were told ([y_accepted], [y_refused]) and what became of the statements
    the worker took. *)
Record sys := mkSys {
  y_db : db; y_cur : option Sql; y_exited : bool;
  y_accepted : list Sql; y_refused : Z; y_finished : list (Sql * outcome) }.

Definition start_sys (d : db) : sys := mkSys d None false [] 0 [].

Inductive qstep : sys -> sys -> Prop :=
| SAccept y sql d : db_submit true (Some (y_db y)) sql = (0, Some d) ->
    qstep y (mkSys d (y_cur y) (y_exited y) (y_accepted y ++ [sql]) (y_refused y) (y_finished y))
| SRefuse y copied sql d : db_submit copied (Some (y_db y)) sql = (-1, Some d) ->
    qstep y (mkSys d (y_cur y) (y_exited y) (y_accepted y) (y_refused y + 1) (y_finished y))
| STake y sql d : y_cur y = None -> y_exited y = false -> dequeue (y_db y) = Some (Some sql, d) ->
    qstep y (mkSys d (Some sql) false (y_accepted y) (y_refused y) (y_finished y))
| SExec y sql exec spawn rs d : y_cur y = Some sql -> execute exec spawn (y_db y) = (rs, d) ->
    qstep y (mkSys d None (y_exited y) (y_accepted y) (y_refused y) (y_finished y ++ [(sql, outcome_of rs)]))
| SExit y d : y_cur y = None -> dequeue (y_db y) = Some (None, d) ->
    qstep y (mkSys d None true (y_accepted y) (y_refused y) (y_finished y))
| SStop y : qstep y (mkSys (set_stopping (y_db y)) (y_cur y) (y_exited y) (y_accepted y) (y_refused y) (y_finished y)).

Definition tally (o : outcome) (l : list (Sql * outcome)) : Z := Z.of_nat (length (filter (fun x => x.2 = o) l)).

Lemma tally_snoc o l x p : tally o (l ++ [(x, p)]) = tally o l + (if bool_decide (p = o) then 1 else 0).
Proof.
  unfold tally. rewrite filter_app, length_app, filter_cons, filter_nil. cbn [snd].
  case_decide; [rewrite bool_decide_true by done|rewrite bool_decide_false by done]; simpl; lia.
Qed.

Lemma outcome_gone rs : outcome_of (Gone :: rs) = outcome_of rs.
Proof. unfold outcome_of. destruct rs as [|r rs]; done. Qed.

(** One run of a statement settles one outcome and counts it; the ring is left alone. *)
Lemma execute_counts exec spawn d rs d' :
  execute exec spawn d = (rs, d') ->
  q_items d' = q_items d /\ q_cap d' = q_cap d /\ q_head d' = q_head d /\ q_tail d' = q_tail d /\ q_count d' = q_count d /\
  q_stopping d' = q_stopping d /\
  q_dropped d' = (if bool_decide (outcome_of rs = Lost) then u64 (q_dropped d + 1) else q_dropped d) /\
  q_errors d' = (if bool_decide (outcome_of rs = Failed) then u64 (q_errors d + 1) else q_errors d) /\ (length rs <= 4)%nat.
Proof.
  unfold execute. assert (Hgen : forall k i d rs d', attempts exec spawn i k d = (rs, d') ->
    q_items d' = q_items d /\ q_cap d' = q_cap d /\ q_head d' = q_head d /\ q_tail d' = q_tail d /\ q_count d' = q_count d /\
    q_stopping d' = q_stopping d /\
    q_dropped d' = (if bool_decide (outcome_of rs = Lost) then u64 (q_dropped d + 1) else q_dropped d) /\
    q_errors d' = (if bool_decide (outcome_of rs = Failed) then u64 (q_errors d + 1) else q_errors d) /\ (length rs <= S k)%nat);
    [|apply Hgen].
  clear. induction k as [|k IH]; intros i d rs d'; cbn [attempts]; destruct (q_dead d) eqn:Hd; try (intros [= <- <-]; by split_and!; try (simpl; lia)).
  - destruct (exec i); intros [= <- <-]; by split_and!; try (simpl; lia).
  - destruct (exec i); [intros [= <- <-]; by split_and!; try (simpl; lia)..|].
    destruct (spawn i); [|intros [= <- <-]; by split_and!; try (simpl; lia)].
    destruct (attempts exec spawn (S i) k d) as [rs1 d1] eqn:E. intros [= <- <-]. apply IH in E.
    rewrite outcome_gone. destruct E as (?&?&?&?&?&?&?&?&?). by split_and!; try (simpl; lia).
Qed.

Record queue_ok (y : sys) : Prop := {
  qo_ring : ring_ok (y_db y);
  qo_order : y_accepted y = (y_finished y).*1 ++ option_list (y_cur y) ++ contents (y_db y);
  qo_dropped : q_dropped (y_db y) = u64 (y_refused y + tally Lost (y_finished y));
  qo_errors : q_errors (y_db y) = u64 (tally Failed (y_finished y));
  qo_exited : y_exited y = true -> y_cur y = None /\ q_stopping (y_db y) = true /\ q_count (y_db y) = 0%nat
}.

Lemma start_ok queue_cap spawned probe d : db_start queue_cap spawned probe = Some d -> queue_ok (start_sys d).
Proof.
  unfold db_start. destruct spawned; [|done]. cbn [negb]. set (cap := if (0 <? queue_cap)%nat then _ else _).
  assert (Hc : (0 < cap)%nat) by (unfold cap; destruct (Nat.ltb_spec 0 queue_cap); lia).
  intros H. assert (d = mkDb (replicate cap []) cap 0 0 0 false false 0 0) as -> by (destruct probe as [[]|]; congruence).
  split; cbn; try done. split; cbn; [apply length_replicate|lia|lia|]. by rewrite Nat.Div0.mod_0_l.
Qed.

Lemma refuse_counts copied d sql d' : db_submit copied (Some d) sql = (-1, Some d') -> d' = add_dropped d.
Proof. unfold db_submit. repeat case_match; congruence. Qed.

Lemma ring_same d d' :
  q_items d' = q_items d -> q_cap d' = q_cap d -> q_head d' = q_head d -> q_tail d' = q_tail d -> q_count d' = q_count d ->
  (ring_ok d -> ring_ok d') /\ contents d' = contents d.
Proof.
  intros H1 H2 H3 H4 H5. unfold contents. rewrite H1, H2, H3, H5. split; [|done]. intros []. split; congruence.
Qed.

Ltac ysimp := cbn [y_db y_cur y_exited y_accepted y_refused y_finished option_list app].

Lemma qstep_ok y y' : qstep y y' -> queue_ok y -> queue_ok y'.
Proof.
  intros Hst [Hr Ho Hd He Hx]. destruct Hst as [y sql d H|y copied sql d H|y sql d Hc Hx' H|y sql exec spawn rs d Hc H|y d Hc H|y].
  - destruct (push_ok _ _ _ Hr H) as (Hr' & Hcon & Hdr & Her & Hs & _). split; ysimp; try congruence.
    + by rewrite Hcon, Ho, <- !app_assoc.
    + intros E. destruct (Hx E) as (? & ? & ?). congruence.
  - apply refuse_counts in H as ->. destruct (ring_same (y_db y) (add_dropped (y_db y))) as [Hr' Hcon]; [done..|].
    split; ysimp; [by apply Hr'|by rewrite Hcon| |done|done]. cbn [add_dropped q_dropped]; rewrite Hd, u64_add_l. f_equal. lia.
  - unfold dequeue in H. destruct (Nat.eqb_spec (q_count (y_db y)) 0); [by repeat case_match|].
    destruct (pop_ok (y_db y) Hr ltac:(lia)) as (sql' & Hl & Hcon & Hr'). rewrite Hl in H. injection H as <- <-.
    split; ysimp; try done. by rewrite Ho, Hc, Hcon.
  - destruct (execute_counts _ _ _ _ _ H) as (H1 & H2 & H3 & H4 & H5 & H6 & H7 & H8 & _).
    destruct (ring_same (y_db y) d) as [Hr' Hcon]; [done..|]. split; ysimp.
    + by apply Hr'.
    + by rewrite Ho, Hc, Hcon, fmap_app, <- !app_assoc.
    + rewrite tally_snoc, H7, Hd. destruct (bool_decide_reflect (outcome_of rs = Lost)); rewrite ?u64_add_l; f_equal; lia.
    + rewrite tally_snoc, H8, He. destruct (bool_decide_reflect (outcome_of rs = Failed)); rewrite ?u64_add_l; f_equal; lia.
    + intros E. destruct (Hx E) as (? & ? & ?). congruence.
  - unfold dequeue in H. destruct (Nat.eqb_spec (q_count (y_db y)) 0) as [E|]; [|by repeat case_match; destruct (pop_ok (y_db y) Hr ltac:(lia)) as (? & ? & _); congruence].
    destruct (q_stopping (y_db y)) eqn:Hs; [|done]. injection H as <-. split; ysimp; try done. by rewrite Ho, Hc.
  - destruct (ring_same (y_db y) (set_stopping (y_db y))) as [Hr' Hcon]; [done..|].
    split; ysimp; try done; [by apply Hr'|]. intros E. by destruct (Hx E) as (? & ? & ?).
Qed.

Lemma qsteps_ok y y' : rtc qstep y y' -> queue_ok y -> queue_ok y'.
Proof. induction 1; eauto using qstep_ok. Qed.

(** Under every interleaving of callers, worker and shutdown, statements leave in the order they were
    accepted; every one that was accepted is settled once - executed, refused by the
    database, or lost with a dead child - or is still held or queued; and the counters
    the log daemon reports are exactly the statements that did not make it (modulo the
    width of an unsigned long).  Once the worker has returned nothing is left behind. *)
Theorem queue_accounts queue_cap spawned probe d y :
  db_start queue_cap spawned probe = Some d -> rtc qstep (start_sys d) y ->
  y_accepted y = (y_finished y).*1 ++ option_list (y_cur y) ++ contents (y_db y) /\
  get_db_dropped (Some (y_db y)) = u64 (y_refused y + tally Lost (y_finished y)) /\
  get_db_errors (Some (y_db y)) = u64 (tally Failed (y_finished y)) /\
  (length (contents (y_db y)) <= q_cap (y_db y))%nat /\
  (y_exited y = true -> y_accepted y = (y_finished y).*1).
Proof.
  intros Hs Hr. pose proof (qsteps_ok _ _ Hr (start_ok _ _ _ _ Hs)) as H. destruct H as [Hring Ho Hd He Hx]. split_and!; try done; [rewrite length_contents; by destruct Hring|].
  intros E. destruct (Hx E) as (Hc & _ & Hn). rewrite Ho, Hc. cbn. unfold contents. rewrite Hn. apply app_nil_r.
Qed.

(** ** Stopping *)

Lemma worker_ends run d : ring_ok d -> q_stopping d = true -> forall fuel n, (q_count d < fuel)%nat ->
  exists d', worker_main fuel run n d = Some d' /\ ring_ok d' /\ q_count d' = 0%nat.
Proof.
  remember (q_count d) as c eqn:Hc. revert d Hc. induction c as [|c IH]; intros d Hc Hr Hs fuel n Hf;
    (destruct fuel as [|fuel]; [lia|]); cbn [worker_main]; unfold dequeue.
  - rewrite <- Hc. cbn [Nat.eqb]. rewrite Hs. eauto.
  - rewrite <- Hc. cbn [Nat.eqb]. destruct (pop_ok d Hr ltac:(lia)) as (sql & -> & _ & Hr').
    destruct (execute (run n).1 (run n).2 (pop d)) as [rs d1] eqn:E. apply execute_counts in E as (H1 & H2 & H3 & H4 & H5 & H6 & _).
    destruct (ring_same (pop d) d1) as [Hr1 _]; [done..|]. cbn [snd]. apply IH; [rewrite H5; cbn; lia|by apply Hr1|by rewrite H6|lia].
Qed.

(** Stopping returns: whatever the child
    answers and however often it dies, the worker drains what is queued and exits, and
    the caller gets the counters; nothing is left for the final sweep to drop. *)
Theorem db_stop_returns run n d :
  ring_ok d -> exists d', worker_main (S (q_count d)) run n (set_stopping d) = Some d' /\ q_count d' = 0%nat /\
    db_stop run n (Some d) = Some (q_dropped d', q_errors d').
Proof.
  intros Hr. destruct (worker_ends run (set_stopping d) (proj1 (ring_same d (set_stopping d) eq_refl eq_refl eq_refl eq_refl eq_refl) Hr)
    eq_refl (S (q_count d)) n ltac:(cbn; lia)) as (d' & Hw & _ & Hc).
  exists d'. split_and!; [done|done|]. unfold db_stop. rewrite Hw. cbn [mbind option_bind]. by rewrite Hc.
Qed.
