(* ===== verification/History.v ===== *)
(** * History: the match history table

    Models tetriSH/src/tetrisd/history.c over libtetrisdb: what it asks the
    database, how it reads the replies and what view it gives the player.  The
    connection is an interface, [DbConn], which the socket client of DbRows.v
    implements; a [script] is a connection whose answers are given.  Times are
    arguments, so are the outcomes of opening the semaphore and the connection. *)

From Stdlib Require Import String.
From stdpp Require Import options.
From S2P Require Import Prelude Text AdminMsg DbRows.
#[local] Open Scope Z_scope.

(** ** The connection *)

(** One statement and its reply, into a buffer of [cap] bytes (or none); [None]
    while the reply is still awaited. *)
Class DbConn (W : Type) := db_exec : W -> list Z -> option nat -> option (db_status * list Z * W).

#[export] Instance socket_conn : DbConn db_socket := db_socket_exec.

(** A connection by the answers it will give, and what was asked on it. *)
Record script := mkScript { answers : list (db_status * list Z); asked : list (list Z) }.

#[export] Instance script_conn : DbConn script := fun c sql cap =>
  match answers c with
  | (st, text) :: rest =>
      Some (st, match cap with Some cap => trunc cap text | None => [] end, mkScript rest (asked c ++ [sql]))
  | [] => Some (DB_IO, [], mkScript [] (asked c ++ [sql]))
  end.

(** ** A turn at a named semaphore: [sem_acquire], and [reg_acquire] of account.c *)

Definition SEM_POLL_MIN_US : Z := 1000.
Definition SEM_POLL_SPAN_US : Z := 4000.

Definition poll_delay_us (pid : Z) : Z := SEM_POLL_MIN_US + u32 pid mod SEM_POLL_SPAN_US.

(** [tries] are the successive [sem_trywait] results; past them it is still taken. *)
Fixpoint sem_wait (fuel : nat) (limit_us nap waited_us : Z) (tries : list bool) : bool :=
  match fuel with
  | O => false
  | S fuel =>
      if waited_us <? limit_us then
        if default false (head tries) then true
        else sem_wait fuel limit_us nap (waited_us + nap) (tail tries)
      else false
  end.

(** A nap is at least a millisecond. *)
Definition sem_acquire (opened : bool) (wait_ms pid : Z) (tries : list bool) : bool :=
  opened && sem_wait (Z.to_nat wait_ms) (wait_ms * 1000) (poll_delay_us pid) 0 tries.

(** ** Numbers in statements and replies *)

Definition field_to_ll (f : list Z) : option Z :=
  if (length f =? 0)%nat || (32 <=? length f)%nat then None
  else let '(v, rest) := strtol f in if bool_decide (rest = []) then Some (clamp_ll v) else None.

Definition field_to_str (f : list Z) (cap : nat) : list Z := trunc cap f.

(** ** historyview.h *)

Inductive history_view_status := HISTORY_VIEW_OK | HISTORY_VIEW_EMPTY | HISTORY_VIEW_GUEST | HISTORY_VIEW_UNAVAILABLE.

#[global] Instance history_view_status_eq_dec : EqDecision history_view_status.
Proof. solve_decision. Defined.

Definition HISTORY_VIEW_ROUNDS : nat := 5.

Record history_round := mkRound { hr_score : Z; hr_lines : Z; hr_ts_start : Z; hr_ts_end : Z }.

#[global] Instance history_round_eq_dec : EqDecision history_round.
Proof. solve_decision. Defined.

Definition zero_round : history_round := mkRound 0 0 0 0.

Record player_history := mkHistory {
  h_status : history_view_status;
  h_recent : list history_round;
  h_recent_count : Z;
  h_best_score : Z;
  h_best_lines : Z;
  h_games_played : Z
}.

#[global] Instance player_history_eq_dec : EqDecision player_history.
Proof. solve_decision. Defined.

(** [memset(out, 0, sizeof *out); out->status = st;] *)
Definition blank_history (st : history_view_status) : player_history :=
  mkHistory st (replicate HISTORY_VIEW_ROUNDS zero_round) 0 0 0 0.

(** ** Recording a round *)

Definition BODY_MAX : nat := 4096.
Definition QUOTED_MAX : nat := 36.
Definition TXN_ATTEMPTS : nat := 3.

Definition sql_begin : list Z := bytes "set transaction read write;".
Definition sql_commit : list Z := bytes "commit;".
Definition sql_max_id : list Z := bytes "select max(id) from history;".

Definition sql_insert (id player_id : Z) (quoted : list Z) (score lines ts_start ts_end : Z) : list Z :=
  trunc 512 (bytes "insert into history values (" ++ decimal_ll id ++ bytes ", " ++ decimal_int player_id ++
    bytes ", " ++ quoted ++ bytes ", " ++ decimal_int score ++ bytes ", " ++ decimal_int lines ++ bytes ", " ++
    decimal_ll ts_start ++ bytes ", " ++ decimal_ll ts_end ++ bytes ");").

Section history.
Context {W : Type} `{!DbConn W}.

Definition history_insert_txn (conn : W) (quoted : list Z) (player_id score lines ts_start ts_end : Z)
    : option (db_status * W) :=
  '(st, _, conn) ← db_exec conn sql_begin None;
  if negb (bool_decide (st = DB_OK)) then Some (st, conn) else
  '(st, body, conn) ← db_exec conn sql_max_id (Some BODY_MAX);
  if negb (bool_decide (st = DB_OK)) then Some (st, conn) else
  let id := db_next_id body in
  if id <? 0 then Some (DB_ERROR, conn) else
  '(st, _, conn) ← db_exec conn (sql_insert id player_id quoted score lines ts_start ts_end) None;
  if negb (bool_decide (st = DB_OK)) then Some (st, conn) else
  '(st, _, conn) ← db_exec conn sql_commit None;
  Some (st, conn).

(** The attempts left: another one only after [DB_RETRY]. *)
Fixpoint insert_attempts (attempts : nat) (st : db_status) (conn : W) (quoted : list Z)
    (player_id score lines ts_start ts_end : Z) : option (db_status * W) :=
  match attempts with
  | O => Some (st, conn)
  | S attempts =>
      '(st, conn) ← history_insert_txn conn quoted player_id score lines ts_start ts_end;
      if negb (bool_decide (st = DB_RETRY)) then Some (st, conn)
      else insert_attempts attempts st conn quoted player_id score lines ts_start ts_end
  end.

(** [turn]: a semaphore turn was had; [conn]: the connection, if it opened.  The
    status is what the log line reports. *)
Definition history_db_insert (turn : bool) (conn : option W) (player_id : Z) (user_name : list Z)
    (score lines ts_start ts_end : Z) : option (db_status * option W) :=
  let quoted := db_quote QUOTED_MAX user_name in
  if negb turn then Some (DB_TIMEOUT, conn)
  else
    match conn with
    | None => Some (DB_IO, None)
    | Some conn =>
        '(st, conn) ← insert_attempts TXN_ATTEMPTS DB_IO conn quoted player_id score lines ts_start ts_end;
        Some (st, Some conn)
    end.

(** ** Reading the table back *)

Definition read_scalar (conn : W) (sql : list Z) : option (Z * W) :=
  '(st, body, conn) ← db_exec conn sql (Some BODY_MAX);
  Some (if negb (bool_decide (st = DB_OK)) then -1
        else if negb (db_row_count body =? 1) then -1
        else match db_row_fields body 0 1 with
             | Some (1, f :: _) => default (-1) (field_to_ll f)
             | _ => -1
             end, conn).

Definition sql_rounds (quoted : list Z) : list Z :=
  trunc 256 (bytes "select score, lines, ts_start, ts_end from history where user_name = " ++ quoted ++
    bytes " order by id desc;").
Definition sql_scalar (what : list Z) (quoted : list Z) : list Z :=
  trunc 256 (bytes "select " ++ what ++ bytes " from history where user_name = " ++ quoted ++ bytes ";").

(** One row of the rounds query. *)
Definition read_round (body : list Z) (i : Z) : option history_round :=
  '(n, fs) ← db_row_fields body i 4;
  if negb (n =? 4) then None
  else
    match fs with
    | [f0; f1; f2; f3] =>
        score ← field_to_ll f0; lines ← field_to_ll f1; ts_start ← field_to_ll f2; ts_end ← field_to_ll f3;
        Some (mkRound (to_int score) (to_int lines) (to_int ts_start) (to_int ts_end))
    | _ => None
    end.

(** The loop over [n] rows: whether it got to the end, and what it has written. *)
Fixpoint read_rounds (body : list Z) (todo : list Z) (recent : list history_round) : bool * list history_round :=
  match todo with
  | [] => (true, recent)
  | i :: todo =>
      match read_round body i with
      | None => (false, recent)
      | Some r => read_rounds body todo (aset recent i r)
      end
  end.

Definition history_db_read_player (conn : option W) (user_name : list Z) : option (player_history * option W) :=
  let out := blank_history HISTORY_VIEW_UNAVAILABLE in
  let quoted := db_quote QUOTED_MAX user_name in
  match conn with
  | None => Some (out, None)
  | Some conn =>
      '(st, body, conn) ← db_exec conn (sql_rounds quoted) (Some BODY_MAX);
      if negb (bool_decide (st = DB_OK)) then Some (out, Some conn) else
      let rows := db_row_count body in
      if rows <? 0 then Some (out, Some conn)
      else if rows =? 0 then Some (blank_history HISTORY_VIEW_EMPTY, Some conn)
      else
        let n := Z.min rows (Z.of_nat HISTORY_VIEW_ROUNDS) in
        match read_rounds body (range n) (h_recent out) with
        | (false, recent) => Some (mkHistory HISTORY_VIEW_UNAVAILABLE recent 0 0 0 0, Some conn)
        | (true, recent) =>
            '(best_score, conn) ← read_scalar conn (sql_scalar (bytes "max(score)") quoted);
            '(best_lines, conn) ← read_scalar conn (sql_scalar (bytes "max(lines)") quoted);
            '(games_played, conn) ← read_scalar conn (sql_scalar (bytes "count(id)") quoted);
            if (best_score <? 0) || (best_lines <? 0) || (games_played <? 0)
            then Some (mkHistory HISTORY_VIEW_UNAVAILABLE recent n 0 0 0, Some conn)
            else Some (mkHistory HISTORY_VIEW_OK recent n (to_int best_score) (to_int best_lines)
                         (to_int games_played), Some conn)
        end
  end.

(** ** The operator's tables *)

Record history_row := mkHistoryRow {
  hw_user_name : list Z; hw_score : Z; hw_lines : Z; hw_ts_start : Z; hw_ts_end : Z
}.

Definition WIDE_BODY_MAX : nat := 16384.
Definition sql_recent : list Z :=
  bytes "select user_name, score, lines, ts_start, ts_end from history order by id desc;".
Definition sql_best : list Z := bytes "select user_name, max(score) from history group by user_name;".

Definition read_recent_row (body : list Z) (i : Z) : option history_row :=
  '(n, fs) ← db_row_fields body i 5;
  if negb (n =? 5) then None
  else
    match fs with
    | [f0; f1; f2; f3; f4] =>
        score ← field_to_ll f1; lines ← field_to_ll f2; ts_start ← field_to_ll f3; ts_end ← field_to_ll f4;
        Some (mkHistoryRow (field_to_str f0 (Z.to_nat MAX_USER_NAME)) (to_int score) (to_int lines) ts_start ts_end)
    | _ => None
    end.

Definition read_best_row (body : list Z) (i : Z) : option history_row :=
  '(n, fs) ← db_row_fields body i 2;
  if negb (n =? 2) then None
  else
    match fs with
    | [f0; f1] =>
        score ← field_to_ll f1;
        Some (mkHistoryRow (field_to_str f0 (Z.to_nat MAX_USER_NAME)) (to_int score) 0 0 0)
    | _ => None
    end.

(** The rows both queries write to the caller's array, [max] at most; [None] is -1,
    and what the array holds then is not modelled. *)
Definition read_table (conn : option W) (sql : list Z) (row : list Z -> Z -> option history_row) (max : Z)
    : option (option (list history_row) * option W) :=
  match conn with
  | None => Some (None, None)
  | Some conn =>
      '(st, body, conn) ← db_exec conn sql (Some WIDE_BODY_MAX);
      if negb (bool_decide (st = DB_OK)) then Some (None, Some conn) else
      let rows := db_row_count body in
      if rows <? 0 then Some (None, Some conn)
      else Some (mapM (row body) (range (Z.min rows max)), Some conn)
  end.

Definition history_db_read_recent (conn : option W) (max : Z) := read_table conn sql_recent read_recent_row max.
Definition history_db_read_best_scores (conn : option W) (max : Z) := read_table conn sql_best read_best_row max.
End history.
