(* ===== verification/HistoryTheorems.v ===== *)
(** * HistoryTheorems: the view of the match history

    What [history_db_read_player] shows a player, against the table the database
    holds. *)

From Stdlib Require Import String.
From stdpp Require Import sorting options.
From S2P Require Import Prelude Text Name DbRows DbRowsTheorems History.
#[local] Open Scope Z_scope.

(** ** Numbers in replies *)

Definition int_range (n : Z) : Prop := INT_MIN <= n <= INT_MAX.

Lemma digit_not x s : forallb is_digit s = true -> is_digit x = false -> x ∉ s.
Proof.
  induction s as [|c s IH]; intros Hs Hx; [apply not_elem_of_nil|]. simpl in Hs.
  apply andb_true_iff in Hs as [Hc Hs]. apply not_elem_of_cons. split; [congruence|by apply IH].
Qed.

Lemma decimal_int_length n : int_range n -> (1 <= length (decimal_int n) <= 11)%nat.
Proof.
  unfold int_range, INT_MIN, INT_MAX, decimal_int. intros Hn. destruct (Z.ltb_spec n 0).
  - destruct (decimal_digits (- n)) as (_ & _ & Hl); [unfold UINT32_MAX; lia|]. simpl. lia.
  - destruct (decimal_digits n) as (_ & _ & Hl); [unfold UINT32_MAX; lia|]. lia.
Qed.

Lemma decimal_int_avoids n x : int_range n -> is_digit x = false -> x <> 45 -> x ∉ decimal_int n.
Proof.
  unfold int_range, INT_MIN, INT_MAX, decimal_int. intros Hn Hx Hd. destruct (Z.ltb_spec n 0).
  - destruct (decimal_digits (- n)) as (_ & Hd' & _); [unfold UINT32_MAX; lia|].
    apply not_elem_of_cons. split; [done|by apply digit_not].
  - destruct (decimal_digits n) as (_ & Hd' & _); [unfold UINT32_MAX; lia|]. by apply digit_not.
Qed.

Lemma field_to_ll_int n : int_range n -> field_to_ll (decimal_int n) = Some n.
Proof.
  intros Hn. pose proof (decimal_int_length n Hn). unfold field_to_ll.
  rewrite (proj2 (Nat.eqb_neq _ _)), (proj2 (Nat.leb_gt _ _)) by lia. cbn [orb].
  pose proof (strtol_decimal_int n [] Hn) as E. rewrite app_nil_r in E. rewrite E by done.
  rewrite bool_decide_true by done. f_equal. unfold clamp_ll, LLONG_MAX, LONG_MAX.
  unfold int_range, INT_MIN, INT_MAX in Hn. lia.
Qed.

Lemma to_int_id n : int_range n -> to_int n = n.
Proof. unfold int_range, INT_MIN, INT_MAX, to_int. intros. rewrite Z.mod_small by lia. lia. Qed.

(** ** Names in statements *)

Lemma quote_loop_plain cap src : forall dst,
  QUOTE ∉ src -> (length dst + length src + 2 <= cap)%nat -> quote_loop cap src dst = dst ++ src.
Proof.
  induction src as [|c src IH]; intros dst Hq Hl; [by rewrite app_nil_r|]. cbn [length] in Hl.
  apply not_elem_of_cons in Hq as [Hc Hq]. cbn [quote_loop]. rewrite (proj2 (Z.eqb_neq c QUOTE)) by done.
  rewrite (proj2 (Nat.leb_le _ _)) by lia. rewrite IH by (done || (rewrite length_app; simpl; lia)).
  by rewrite <- app_assoc.
Qed.

(** A name that follows the rule has no quote in it and is short. *)
Lemma user_name_plain name : user_name_ok name = true -> QUOTE ∉ name /\ (1 <= length name <= USER_NAME_MAX)%nat.
Proof.
  unfold user_name_ok. intros [Hl Hc]%andb_true_iff. apply negb_true_iff, orb_false_iff in Hl as [H1 H2].
  apply Nat.ltb_ge in H1, H2. split; [|lia]. intros Hin. rewrite forallb_forall in Hc.
  by specialize (Hc QUOTE (proj1 (list_elem_of_In _ _) Hin)).
Qed.

Lemma db_quote_name name :
  user_name_ok name = true -> db_quote QUOTED_MAX name = QUOTE :: name ++ [QUOTE].
Proof.
  intros [Hq Hl]%user_name_plain. unfold db_quote. cbn [Nat.ltb QUOTED_MAX Nat.leb].
  rewrite quote_loop_plain; [done|done|]. unfold USER_NAME_MAX, MAX_NAME, QUOTED_MAX in *. simpl. lia.
Qed.

(** ** What the database answers *)

(** A finished round as the table holds it. *)
Definition round_ok (r : history_round) : Prop :=
  0 <= hr_score r <= INT_MAX /\ 0 <= hr_lines r <= INT_MAX /\ int_range (hr_ts_start r) /\ int_range (hr_ts_end r).

Definition round_fields (r : history_round) : list (list Z) :=
  [decimal_int (hr_score r); decimal_int (hr_lines r); decimal_int (hr_ts_start r); decimal_int (hr_ts_end r)].

Definition best (f : history_round -> Z) (rounds : list history_round) : Z := foldr (fun r m => Z.max (f r) m) 0 rounds.

(** The view the player should get of their rounds, newest first. *)
Definition view_of (rounds : list history_round) : player_history :=
  match rounds with
  | [] => blank_history HISTORY_VIEW_EMPTY
  | _ =>
      mkHistory HISTORY_VIEW_OK
        (take HISTORY_VIEW_ROUNDS (rounds ++ replicate HISTORY_VIEW_ROUNDS zero_round))
        (Z.min (Z.of_nat (length rounds)) (Z.of_nat HISTORY_VIEW_ROUNDS))
        (best hr_score rounds) (best hr_lines rounds) (Z.of_nat (length rounds))
  end.

Lemma number_field n : int_range n -> NL ∉ decimal_int n /\ TAB ∉ decimal_int n.
Proof. intros Hn. split; by apply decimal_int_avoids. Qed.

Lemma row_line_nonempty f fs : f <> [] -> row_line (f :: fs) <> [].
Proof. unfold row_line. destruct fs; [done|]. cbn. by destruct f. Qed.

Lemma round_fields_ok r : round_ok r -> Forall (fun f => NL ∉ f /\ TAB ∉ f) (round_fields r).
Proof.
  intros (H1 & H2 & H3 & H4). unfold int_range, INT_MIN, INT_MAX in *.
  repeat constructor; apply number_field; unfold int_range, INT_MIN, INT_MAX; lia.
Qed.

Lemma decimal_int_not_nil n : int_range n -> decimal_int n <> [].
Proof. intros Hn E. pose proof (decimal_int_length n Hn) as H. rewrite E in H. simpl in H. lia. Qed.

Section answers.
(** The header line and the length of the rule in each of the four replies. *)
Context (header : nat -> list Z) (dashes : nat -> nat).
Context (Hheader : forall i, no_newline (header i)) (Hdashes : forall i, (0 < dashes i)%nat).

Definition rounds_reply (rounds : list history_round) : list Z :=
  reply [header 0] (dashes 0) (round_fields <$> rounds) [].
Definition scalar_reply (i : nat) (n : Z) : list Z := reply [header i] (dashes i) [[decimal_int n]] [].

Lemma rounds_reply_ok rounds :
  Forall round_ok rounds -> Z.of_nat (length rounds) <= INT_MAX ->
  reply_ok [header 0] (dashes 0) (round_fields <$> rounds).
Proof using Hdashes Hheader.
  intros Hr Hn. split; try done.
  - by repeat constructor.
  - apply Forall_fmap. eapply Forall_impl; [exact Hr|]. apply round_fields_ok.
  - apply Forall_fmap. eapply Forall_impl; [exact Hr|]. intros r (H & _). apply row_line_nonempty, decimal_int_not_nil.
    unfold int_range, INT_MIN in *. lia.
  - by rewrite length_fmap.
Qed.

Lemma scalar_reply_ok i n : int_range n -> reply_ok [header i] (dashes i) [[decimal_int n]].
Proof using Hdashes Hheader.
  intros Hn. split; try done.
  - by repeat constructor.
  - repeat constructor; by apply number_field.
  - repeat constructor. by apply decimal_int_not_nil.
Qed.

(** A scalar's reply is far shorter than the buffer. *)
Definition short (i : nat) : Prop := (length (header i) + dashes i <= 4000)%nat.

Lemma scalar_needs i n : int_range n -> short i -> (reply_needs [header i] (dashes i) [[decimal_int n]] < BODY_MAX)%nat.
Proof.
  intros Hn Hs. unfold reply_needs, reply. unfold row_line. cbn [app fmap list_fmap join_on length].
  rewrite !above_cons, above_nil, app_nil_r. repeat (rewrite ?length_app, ?length_replicate; cbn [length app]).
  change (length (trailer (Z.of_nat 1))) with 8%nat. pose proof (decimal_int_length n Hn). unfold short, BODY_MAX in *.
  lia.
Qed.

(** Reading the rounds of a reply that arrived whole. *)
Lemma read_round_whole rounds k i r :
  Forall round_ok rounds -> Z.of_nat (length rounds) <= INT_MAX ->
  (reply_needs [header 0] (dashes 0) (round_fields <$> rounds) <= k)%nat -> rounds !! i = Some r ->
  read_round (take k (rounds_reply rounds)) (Z.of_nat i) = Some r.
Proof using Hdashes Hheader.
  intros Hr Hn Hk Hi. pose proof (reply_read_back _ _ _ [] k (rounds_reply_ok rounds Hr Hn)) as H. cbv zeta in H.
  rewrite (proj2 (Nat.leb_le _ _)) in H by done. destruct H as [_ Hf].
  unfold read_round, rounds_reply. rewrite (Hf i (round_fields r)) by (by rewrite list_lookup_fmap, Hi).
  pose proof (Forall_lookup_1 _ _ _ _ Hr Hi) as (H1 & H2 & H3 & H4). unfold round_fields. cbn -[field_to_ll].
  rewrite !field_to_ll_int by (done || unfold int_range, INT_MIN, INT_MAX in *; lia). cbn.
  rewrite !to_int_id by (done || unfold int_range, INT_MIN, INT_MAX in *; lia). by destruct r.
Qed.

Lemma read_rounds_all body todo (f : Z -> history_round) recent :
  (forall i, i ∈ todo -> read_round body i = Some (f i)) ->
  read_rounds body todo recent = (true, foldl (fun rs i => aset rs i (f i)) recent todo).
Proof.
  revert recent. induction todo as [|i todo IH]; intros recent H; [done|]. cbn [read_rounds foldl].
  rewrite (H i) by by left. apply IH. intros j Hj. apply H. by right.
Qed.

Lemma recent_filled rounds :
  foldl (fun rs i => aset rs i (default zero_round (rounds !! Z.to_nat i))) (replicate HISTORY_VIEW_ROUNDS zero_round)
    (range (Z.min (Z.of_nat (length rounds)) (Z.of_nat HISTORY_VIEW_ROUNDS))) =
  take HISTORY_VIEW_ROUNDS (rounds ++ replicate HISTORY_VIEW_ROUNDS zero_round).
Proof.
  do 5 (destruct rounds as [|? rounds]; [reflexivity|]).
  rewrite Z.min_r by (unfold HISTORY_VIEW_ROUNDS; cbn [length]; lia). reflexivity.
Qed.

Lemma best_range f rounds :
  (forall r, r ∈ rounds -> 0 <= f r <= INT_MAX) -> 0 <= best f rounds <= INT_MAX.
Proof.
  intros H. induction rounds as [|r rounds IH]; [unfold INT_MAX; simpl; lia|]. cbn [best foldr]. fold (best f rounds).
  pose proof (H r ltac:(by left)). pose proof (IH (fun r' Hr' => H r' ltac:(by right))). lia.
Qed.
End answers.

(** ** The table behind the queries *)

Record entry := mkEntry { en_id : Z; en_user : list Z; en_round : history_round }.

Definition newer (a b : entry) : Prop := en_id b <= en_id a.
#[global] Instance newer_dec a b : Decision (newer a b).
Proof. unfold newer. apply _. Defined.

(** A player's rounds, newest first. *)
Definition rounds_of (name : list Z) (table : list entry) : list history_round :=
  en_round <$> merge_sort newer (filter (fun e => en_user e = name) table).

Inductive history_query := QRounds | QMaxScore | QMaxLines | QCount.

(** The queries a player's view is made of, in SQL. *)
Definition query_sql (q : history_query) (name : list Z) : list Z :=
  match q with
  | QRounds =>
      bytes "select score, lines, ts_start, ts_end from history where user_name = '" ++ name ++ bytes "' order by id desc;"
  | QMaxScore => bytes "select max(score) from history where user_name = '" ++ name ++ bytes "';"
  | QMaxLines => bytes "select max(lines) from history where user_name = '" ++ name ++ bytes "';"
  | QCount => bytes "select count(id) from history where user_name = '" ++ name ++ bytes "';"
  end.

(** What they mean, for a player with rounds. *)
Definition query_rows (q : history_query) (rounds : list history_round) : list (list (list Z)) :=
  match q with
  | QRounds => round_fields <$> rounds
  | QMaxScore => [[decimal_int (best hr_score rounds)]]
  | QMaxLines => [[decimal_int (best hr_lines rounds)]]
  | QCount => [[decimal_int (Z.of_nat (length rounds))]]
  end.

Definition query_no (q : history_query) : nat :=
  match q with QRounds => 0 | QMaxScore => 1 | QMaxLines => 2 | QCount => 3 end.

(** What a connection promises: a query is answered from the table it sees, under
    some header.  (Of an aggregate over no rows nothing is promised.) *)
Class HistoryTable {W : Type} `{!DbConn W} (table : W -> list entry) (header : nat -> list Z) (dashes : nat -> nat) :=
  table_answers : forall w q name cap, user_name_ok name = true ->
    q = QRounds \/ rounds_of name (table w) <> [] ->
    exists w', db_exec w (query_sql q name) (Some cap) =
      Some (DB_OK, trunc cap (reply [header (query_no q)] (dashes (query_no q))
                                (query_rows q (rounds_of name (table w))) []), w') /\ table w' = table w.

(** The code asks these queries. *)
Lemma sql_asks q name : user_name_ok name = true ->
  query_sql q name =
  match q with
  | QRounds => sql_rounds (db_quote QUOTED_MAX name)
  | QMaxScore => sql_scalar (bytes "max(score)") (db_quote QUOTED_MAX name)
  | QMaxLines => sql_scalar (bytes "max(lines)") (db_quote QUOTED_MAX name)
  | QCount => sql_scalar (bytes "count(id)") (db_quote QUOTED_MAX name)
  end.
Proof.
  intros Hn. rewrite db_quote_name by done. apply user_name_plain in Hn as [_ Hl]. unfold USER_NAME_MAX, MAX_NAME in Hl.
  destruct q; unfold sql_rounds, sql_scalar, trunc; rewrite take_ge by (rewrite !length_app; simpl; rewrite length_app; simpl; lia);
    cbn; by rewrite <- app_assoc.
Qed.

Section view.
Context {W : Type} `{!DbConn W} (table : W -> list entry) (header : nat -> list Z) (dashes : nat -> nat).
Context `{Htable : !HistoryTable table header dashes}.
Context (Hh : forall i, no_newline (header i)) (Hd : forall i, (0 < dashes i)%nat) (Hs : forall i, short header dashes i).

(** An aggregate comes back as the number it is. *)
Lemma read_scalar_table w q name n :
  user_name_ok name = true -> rounds_of name (table w) <> [] ->
  query_rows q (rounds_of name (table w)) = [[decimal_int n]] -> int_range n ->
  exists w', read_scalar w (query_sql q name) = Some (n, w') /\ table w' = table w.
Proof using Hd Hh Hs Htable.
  intros Hname Hne Hq Hn. destruct (table_answers w q name BODY_MAX Hname (or_intror Hne)) as (w' & E & Ht).
  exists w'. split; [|done]. unfold read_scalar. rewrite E. cbn [mbind option_bind]. rewrite Hq. unfold trunc.
  pose proof (reply_read_back _ _ _ [] (BODY_MAX - 1) (scalar_reply_ok header dashes Hh Hd (query_no q) n Hn)) as H.
  cbv zeta in H. pose proof (scalar_needs header dashes (query_no q) n Hn (Hs _)).
  rewrite (proj2 (Nat.leb_le _ _)) in H by lia. destruct H as [Hc Hf].
  rewrite Hc, bool_decide_true by done. cbn [negb length Z.of_nat Z.eqb].
  pose proof (Hf 0%nat [decimal_int n] 1%nat eq_refl) as Hf0. change (Z.of_nat 0) with 0 in Hf0.
  change (Z.of_nat (length [decimal_int n])) with 1 in Hf0. rewrite Hf0. cbn [take]. by rewrite field_to_ll_int.
Qed.
End view.


(** *** A small database *)

Definition plain_header (i : nat) : list Z := bytes "score".
Definition plain_dashes (i : nat) : nat := 9.

(** Everything up to the first quote. *)
Fixpoint unquoted (s : list Z) : list Z :=
  match s with c :: s => if c =? QUOTE then [] else c :: unquoted s | [] => [] end.

Lemma unquoted_app a b : QUOTE ∉ a -> unquoted (a ++ QUOTE :: b) = a.
Proof.
  induction a as [|c a IH]; [done|]. intros [Hc Ha]%not_elem_of_cons. simpl.
  rewrite (proj2 (Z.eqb_neq c QUOTE)) by done. by rewrite IH.
Qed.

Definition query_start (q : history_query) : nat :=
  match q with QRounds => 70 | QMaxScore | QMaxLines => 50 | QCount => 49 end.

(** It knows the four queries, and answers them from a list of entries. *)
#[local] Instance entries_conn : DbConn (list entry) := fun t sql cap =>
  match list_find (fun q => sql = query_sql q (unquoted (drop (query_start q) sql))) [QRounds; QMaxScore; QMaxLines; QCount] with
  | Some (_, q) =>
      let name := unquoted (drop (query_start q) sql) in
      Some (DB_OK, trunc (default 0%nat cap) (reply [plain_header (query_no q)] (plain_dashes (query_no q))
        (query_rows q (rounds_of name t)) []), t)
  | None => Some (DB_ERROR, [], t)
  end.

#[local] Instance entries_table : HistoryTable (W := list entry) id plain_header plain_dashes.
Proof.
  intros t q name cap [Hq _]%user_name_plain _. exists t. split; [|done]. unfold db_exec, entries_conn.
  assert (Hown : unquoted (drop (query_start q) (query_sql q name)) = name).
  { destruct q; exact (unquoted_app name _ Hq). }
  assert (Hf : exists i, list_find (fun q' => query_sql q name = query_sql q' (unquoted (drop (query_start q') (query_sql q name))))
    [QRounds; QMaxScore; QMaxLines; QCount] = Some (i, q)).
  { exists (query_no q). apply list_find_Some. split; [by destruct q|]. split; [by rewrite Hown|].
    intros j q' Hj Hlt E. destruct q, j as [|[|[|j]]]; simpl in Hj, Hlt; simplify_eq; try lia; discriminate E. }
  destruct Hf as [i ->]. by rewrite Hown.
Qed.

(** Seven rounds of ann's, one of bob's among them with a better score. *)
Definition a_table (n : nat) : list entry :=
  mkEntry 3 (bytes "bob") (mkRound 9999 99 1 2) :: ((fun i => mkEntry i (bytes "ann") (mkRound (1000 + i) 14 (1700000000 + i) (1700000240 + i))) <$> seqZ 10 (Z.of_nat n)).

Lemma a_table_ok n : (n <= 150)%nat ->
  Forall round_ok (rounds_of (bytes "ann") (a_table n)) /\ Z.of_nat (length (rounds_of (bytes "ann") (a_table n))) <= INT_MAX.
Proof.
  intros Hn. unfold rounds_of.
  assert (Hp : merge_sort newer (filter (fun e => en_user e = bytes "ann") (a_table n)) ≡ₚ
    filter (fun e => en_user e = bytes "ann") (a_table n)) by apply merge_sort_Permutation.
  split.
  - rewrite Hp. unfold a_table. rewrite filter_cons_False by done. apply Forall_fmap, Forall_forall.
    intros e [_ (i & -> & Hi%elem_of_seqZ)%list_elem_of_fmap]%list_elem_of_filter.
    unfold round_ok, int_range, INT_MIN, INT_MAX. simpl. lia.
  - rewrite Hp, length_fmap. etrans; [apply Nat2Z.inj_le, length_filter|]. unfold a_table. cbn [length].
    rewrite length_fmap, length_seqZ, Nat2Z.id. unfold INT_MAX. lia.
Qed.

