(* ===== verification/Token.v ===== *)
(** * Token: the signed tokens libtetrisauth hands out

    Models core/src/libtetrisauth/lib/token.c and hex.c.  [HMAC] is OpenSSL's: a
    parameter that yields a MAC or fails.  A token and a secret are lists of bytes,
    the clock is an argument; what a failed call leaves in the caller's buffers is not
    modelled. *)

From Stdlib Require Import String.
From stdpp Require Import options.
From S2P Require Import Prelude Text DbRows.
#[local] Open Scope Z_scope.

(** ** hex.c *)

Definition HEX : list Z := bytes "0123456789abcdef".

Definition hex_encode (m : list Z) : list Z :=
  concat ((fun b => [aget 0 HEX (Z.shiftr b 4); aget 0 HEX (Z.land b 15)]) <$> m).

Definition hex_nibble (c : Z) : Z :=
  if (48 <=? c) && (c <=? 57) then c - 48
  else if (97 <=? c) && (c <=? 102) then c - 97 + 10
  else -1.

Fixpoint hex_pairs (s : list Z) : option (list Z) :=
  match s with
  | a :: b :: s =>
      let hi := hex_nibble a in
      let lo := hex_nibble b in
      if (hi <? 0) || (lo <? 0) then None
      else m ← hex_pairs s; Some (Z.lor (Z.shiftl hi 4) lo :: m)
  | _ => Some []
  end.

Definition hex_decode (s : list Z) (cap : nat) : option (list Z) :=
  if negb (length s mod 2 =? 0)%nat || (cap <? length s / 2)%nat then None else hex_pairs s.

(** ** Claims *)

Definition TOKEN_SECRET_MIN_LEN : nat := 32.
Definition TOKEN_NAME_MAX : nat := 15.
Definition TOKEN_SIG_LEN : nat := 32.
Definition TOKEN_SIG_HEX_LEN : nat := 64.
Definition TOKEN_MAX_LEN : nat := 256.
Definition TOKEN_FIELD_SEP : Z := 10.
Definition TOKEN_FIELD_COUNT : nat := 5.

Record token_claims := mkClaims { sub : Z; claim_name : list Z; iat : Z; exp : Z }.

#[global] Instance token_claims_eq_dec : EqDecision token_claims.
Proof. solve_decision. Defined.

Inductive token_result :=
| TOKEN_OK (c : token_claims) | TOKEN_E_MALFORMED | TOKEN_E_SIGNATURE | TOKEN_E_CLAIMS | TOKEN_E_EXPIRED.

Definition name_char (c : Z) : bool :=
  ((65 <=? c) && (c <=? 90)) || ((97 <=? c) && (c <=? 122)) || ((48 <=? c) && (c <=? 57)) || (c =? 95) || (c =? 45).

Definition is_name_ok (s : list Z) : bool :=
  negb ((length s =? 0)%nat || (TOKEN_NAME_MAX <? length s)%nat) && forallb name_char s.

Definition secret_ok (secret : list Z) : bool :=
  (TOKEN_SECRET_MIN_LEN <=? length secret)%nat && (Z.of_nat (length secret) <=? INT_MAX).

Definition claims_text (c : token_claims) : list Z :=
  decimal_ll (sub c) ++ [TOKEN_FIELD_SEP] ++ claim_name c ++ [TOKEN_FIELD_SEP] ++
  decimal_ll (iat c) ++ [TOKEN_FIELD_SEP] ++ decimal_ll (exp c) ++ [TOKEN_FIELD_SEP].

Definition write_claims (cap : nat) (c : token_claims) : option (list Z) :=
  if negb (is_name_ok (claim_name c)) then None
  else if (cap <=? length (claims_text c))%nat then None
  else Some (claims_text c).

Section token.
(** [HMAC(EVP_sha256(), secret, .., msg, ..)]: the MAC, or a failure. *)
Context (HMAC : list Z -> list Z -> option (list Z)).

Definition hmac_sha256 (secret msg : list Z) : option (list Z) :=
  mac ← HMAC secret msg; if (length mac =? TOKEN_SIG_LEN)%nat then Some mac else None.

(** ** Minting *)

Definition write_token (cap : nat) (c : token_claims) (secret : list Z) : option (list Z) :=
  text ← write_claims cap c;
  if (cap <? length text + TOKEN_SIG_HEX_LEN + 1)%nat then None
  else mac ← hmac_sha256 secret text; Some (text ++ hex_encode mac).

Definition token_mint (out_len : nat) (c : token_claims) (secret : list Z) : option (list Z) :=
  if (out_len =? 0)%nat || negb (secret_ok secret) then None
  else
    tok ← write_token TOKEN_MAX_LEN c secret;
    if (out_len <? length tok + 1)%nat then None else Some tok.

(** ** Verifying *)

Record token_parts := mkParts {
  t_sub : list Z; t_name : list Z; t_iat : list Z; t_exp : list Z; t_sig : list Z; t_signing : list Z
}.

Definition split_token (token : list Z) : option token_parts :=
  match split_on TOKEN_FIELD_SEP token with
  | [f0; f1; f2; f3; f4] =>
      if negb (length f4 =? TOKEN_SIG_HEX_LEN)%nat then None
      else Some (mkParts f0 f1 f2 f3 f4 (take (length token - length f4) token))
  | _ => None
  end.

Definition check_signature (signing sig secret : list Z) : bool :=
  match hmac_sha256 secret signing with
  | None => false
  | Some mac => bool_decide (hex_encode mac = sig)
  end.

Fixpoint pos_ll_loop (s : list Z) (acc : Z) : option Z :=
  match s with
  | [] => Some acc
  | c :: s =>
      if negb (is_digit c) then None
      else
        let d := c - 48 in
        if (LLONG_MAX - d) / 10 <? acc then None else pos_ll_loop s (acc * 10 + d)
  end.

Definition parse_pos_ll (s : list Z) : option Z :=
  if (length s =? 0)%nat then None
  else if (aget 0 s 0 =? 48) && (1 <? length s)%nat then None
  else pos_ll_loop s 0.

Definition read_claims (p : token_parts) : option token_claims :=
  s ← parse_pos_ll (t_sub p);
  i ← parse_pos_ll (t_iat p);
  e ← parse_pos_ll (t_exp p);
  if negb (is_name_ok (t_name p)) then None else Some (mkClaims s (t_name p) i e).

Definition token_verify (token secret : list Z) (now : Z) : token_result :=
  if negb (secret_ok secret) then TOKEN_E_MALFORMED
  else if (TOKEN_MAX_LEN <=? length token)%nat then TOKEN_E_MALFORMED
  else
    match split_token token with
    | None => TOKEN_E_MALFORMED
    | Some p =>
        if negb (check_signature (t_signing p) (t_sig p) secret) then TOKEN_E_SIGNATURE
        else
          match read_claims p with
          | None => TOKEN_E_CLAIMS
          | Some c => if exp c <=? now then TOKEN_E_EXPIRED else TOKEN_OK c
          end
    end.
End token.
