(* ===== verification/TokenTheorems.v ===== *)
(** * TokenTheorems: exactly the tokens that were minted are accepted *)

From Stdlib Require Import String.
From stdpp Require Import options.
From S2P Require Import Prelude Text DbRows DbRowsTheorems Token.
#[local] Open Scope Z_scope.

(** ** Decimal numbers have one spelling *)

Lemma digits_value_app a b v : digits_value v (a ++ b) = digits_value (digits_value v a) b.
Proof. unfold digits_value. by rewrite foldl_app. Qed.

Lemma digits_value_lower s v : 0 <= v -> forallb is_digit s = true -> v * 10 ^ Z.of_nat (length s) <= digits_value v s.
Proof.
  revert v. induction s as [|c s IH]; intros v Hv Hs; [simpl; lia|]. simpl in Hs.
  apply andb_true_iff in Hs as [Hc Hs]. unfold is_digit in Hc. bool_arith. cbn [digits_value foldl length].
  fold (digits_value (v * 10 + (c - 48)) s). pose proof (IH (v * 10 + (c - 48)) ltac:(lia) Hs).
  rewrite Nat2Z.inj_succ, Z.pow_succ_r by lia. pose proof (Z.pow_pos_nonneg 10 (Z.of_nat (length s))). nia.
Qed.

(** A number without a leading zero. *)
Definition canonical (s : list Z) : Prop :=
  forallb is_digit s = true /\ s <> [] /\ (head s = Some 48 -> s = [48]).

Lemma decimal_loop_canonical s : forall fuel acc,
  canonical s -> (length s <= fuel)%nat -> decimal_loop fuel (digits_value 0 s) acc = s ++ acc.
Proof.
  induction s as [|c s IH] using rev_ind; intros fuel acc (Hd & Hne & Hz) Hf; [done|].
  rewrite length_app in Hf. simpl in Hf. destruct fuel as [|fuel]; [lia|]. cbn [decimal_loop].
  rewrite forallb_app in Hd. apply andb_true_iff in Hd as [Hs Hc]. simpl in Hc. rewrite andb_true_r in Hc.
  unfold is_digit in Hc. bool_arith. rewrite digits_value_app. cbn [digits_value foldl]. fold (digits_value 0 s).
  destruct s as [|x s'] eqn:Es.
  - cbn [digits_value foldl]. rewrite (proj2 (Z.ltb_lt _ _)) by lia. simpl. f_equal. lia.
  - assert (Hx : x <> 48) by (intros ->; specialize (Hz eq_refl); by destruct s').
    assert (1 <= digits_value 0 (x :: s')).
    { simpl in Hs. apply andb_true_iff in Hs as [Hx' Hs']. unfold is_digit in Hx'. bool_arith.
      cbn [digits_value foldl]. fold (digits_value (0 * 10 + (x - 48)) s').
      pose proof (digits_value_lower s' (0 * 10 + (x - 48)) ltac:(lia) Hs').
      pose proof (Z.pow_pos_nonneg 10 (Z.of_nat (length s'))). nia. }
    rewrite (proj2 (Z.ltb_ge _ _)) by lia.
    rewrite Z.div_add_l, Z.div_small, Z.add_0_r by lia.
    replace ((digits_value 0 (x :: s') * 10 + (c - 48)) mod 10) with (c - 48)
      by (rewrite Z.add_comm, Z.mod_add, Z.mod_small; lia).
    rewrite IH; [|split_and!; [done|done|]|simpl; simpl in Hf; lia].
    + rewrite <- app_assoc. do 2 f_equal. simpl. f_equal. lia.
    + simpl. congruence.
Qed.

Lemma canonical_length s : canonical s -> digits_value 0 s <= LLONG_MAX -> (length s <= 19)%nat.
Proof.
  intros (Hd & Hne & Hz) Hm. destruct s as [|c s]; [done|]. destruct (decide (c = 48)) as [->|Hc].
  { rewrite (Hz eq_refl). simpl. lia. }
  simpl in Hd. apply andb_true_iff in Hd as [Hc' Hs]. unfold is_digit in Hc'. bool_arith.
  cbn [digits_value foldl] in Hm. fold (digits_value (0 * 10 + (c - 48)) s) in Hm.
  pose proof (digits_value_lower s (0 * 10 + (c - 48)) ltac:(lia) Hs).
  destruct (Nat.le_gt_cases (length (c :: s)) 19) as [?|Hgt]; [done|]. exfalso. simpl in Hgt.
  assert (10 ^ 19 <= 10 ^ Z.of_nat (length s)) by (apply Z.pow_le_mono_r; lia).
  change (10 ^ 19) with 10000000000000000000 in *. unfold LLONG_MAX, LONG_MAX in Hm. nia.
Qed.

Lemma pos_ll_loop_spec s : forall acc n,
  0 <= acc <= LLONG_MAX ->
  pos_ll_loop s acc = Some n <-> forallb is_digit s = true /\ n = digits_value acc s /\ n <= LLONG_MAX.
Proof.
  induction s as [|c s IH]; intros acc n Ha; cbn [pos_ll_loop].
  - unfold digits_value. simpl. split; [intros; simplify_eq; lia|]. intros (_ & -> & _). done.
  - simpl. destruct (is_digit c) eqn:Hc; simpl; [|by split; [|intros (? & _)]].
    assert (48 <= c <= 57) by (unfold is_digit in Hc; bool_arith; lia).
    destruct (Z.ltb_spec ((LLONG_MAX - (c - 48)) / 10) acc) as [Hlt|Hge].
    + split; [done|]. intros (Hs & -> & Hm).
      pose proof (digits_value_mono s (acc * 10 + (c - 48)) ltac:(lia) Hs).
      assert (acc <= (LLONG_MAX - (c - 48)) / 10) by (apply Z.div_le_lower_bound; lia). lia.
    + apply IH. pose proof (Z.mul_div_le (LLONG_MAX - (c - 48)) 10 ltac:(lia)). lia.
Qed.

Definition ll_range (n : Z) : Prop := 0 <= n <= LLONG_MAX.

Lemma decimal_ll_pos n : ll_range n -> canonical (decimal_ll n) /\ digits_value 0 (decimal_ll n) = n.
Proof.
  unfold ll_range, decimal_ll, canonical. intros Hn. rewrite (proj2 (Z.ltb_ge _ _)) by lia.
  destruct (decimal_loop_value 20 n []) as (Hv & Hd & Hl);
    [unfold LLONG_MAX, LONG_MAX in Hn; change (10 ^ Z.of_nat 20) with 100000000000000000000; lia|lia|].
  split_and!; try done.
  - by apply Hd.
  - intros E. rewrite E in Hl. simpl in Hl. lia.
  - (* a leading zero only for zero itself *)
    clear Hl. revert Hv. assert (Hgen : forall fuel n acc, (0 < fuel)%nat -> 0 <= n < 10 ^ Z.of_nat fuel ->
      n <> 0 -> head (decimal_loop fuel n acc) <> Some 48).
    { clear. induction fuel as [|fuel IH]; intros n acc Hf Hn Hnz; [lia|]. cbn [decimal_loop].
      destruct (Z.ltb_spec n 10); [simpl; intros [= ?]; lia|].
      assert (10 ^ Z.of_nat (S fuel) = 10 * 10 ^ Z.of_nat fuel) by (rewrite Nat2Z.inj_succ, Z.pow_succ_r; lia).
      apply IH.
      - destruct fuel; [simpl in Hn; lia|lia].
      - split; [apply Z.div_pos; lia|apply Z.div_lt_upper_bound; lia].
      - pose proof (Z.div_le_lower_bound n 10 1 ltac:(lia) ltac:(lia)). lia. }
    intros _ Hz. destruct (decide (n = 0)) as [->|Hnz]; [done|]. exfalso.
    apply (Hgen 20%nat n []) in Hz; [done|lia| |done].
    unfold LLONG_MAX, LONG_MAX in Hn. change (10 ^ Z.of_nat 20) with 100000000000000000000. lia.
Qed.

Lemma decimal_ll_text n : ll_range n -> forallb is_digit (decimal_ll n) = true /\ (1 <= length (decimal_ll n) <= 20)%nat.
Proof.
  unfold ll_range, decimal_ll. intros Hn. rewrite (proj2 (Z.ltb_ge _ _)) by lia.
  destruct (decimal_loop_value 20 n []) as (_ & Hd & Hl);
    [unfold LLONG_MAX, LONG_MAX in Hn; change (10 ^ Z.of_nat 20) with 100000000000000000000; lia|lia|].
  split; [by apply Hd|cbn [length Nat.add] in Hl; lia].
Qed.

Lemma strtol_decimal_ll n rest :
  ll_range n -> (forall c, head rest = Some c -> is_digit c = false) -> strtol (decimal_ll n ++ rest) = (n, rest).
Proof.
  intros Hn Hr. destruct (decimal_ll_pos n Hn) as [(Hd & Hne & _) Hv]. destruct (decimal_ll n) as [|c s] eqn:E; [done|].
  transitivity (let '(v, r) := strtol_digits ((c :: s) ++ rest) 0 in (1 * v, r)).
  - assert (Hcs : c ∈ seqZ 48 10).
    { apply elem_of_seqZ. simpl in Hd. apply andb_true_iff in Hd as [Hd _]. unfold is_digit in Hd. bool_arith. lia. }
    clear -Hcs. change (seqZ 48 10) with [48; 49; 50; 51; 52; 53; 54; 55; 56; 57] in Hcs.
    repeat (apply elem_of_cons in Hcs as [->|Hcs]; [reflexivity|]). by apply elem_of_nil in Hcs.
  - rewrite strtol_digits_app by done. rewrite Hv. f_equal. lia.
Qed.

(** Parsing accepts one spelling of each number. *)
Lemma parse_pos_ll_spec s n : parse_pos_ll s = Some n <-> ll_range n /\ s = decimal_ll n.
Proof.
  unfold parse_pos_ll. split.
  - destruct s as [|c s]; [done|]. cbn [length Nat.eqb]. change (aget 0 (c :: s) 0) with c.
    destruct (Z.eqb_spec c 48) as [->|Hc]; cbn [andb].
    + destruct s as [|d s]; [|done]. intros H. vm_compute in H. simplify_eq. split; [split; vm_compute; discriminate|done].
    + rewrite pos_ll_loop_spec by (unfold LLONG_MAX, LONG_MAX; lia). intros (Hd & -> & Hm).
      assert (Hcan : canonical (c :: s)) by (split_and!; [done|done|intros [= ?]; done]).
      split; [split; [by apply (digits_value_mono (c :: s) 0)|done]|].
      pose proof (canonical_length _ Hcan Hm). unfold decimal_ll.
      rewrite (proj2 (Z.ltb_ge _ _)) by by apply (digits_value_mono (c :: s) 0).
      rewrite decimal_loop_canonical by (done || lia). by rewrite app_nil_r.
  - intros [Hn ->]. destruct (decimal_ll_pos n Hn) as [(Hd & Hne & Hz) Hv].
    destruct (decimal_ll n) as [|c s] eqn:E; [done|]. cbn [length Nat.eqb]. change (aget 0 (c :: s) 0) with c.
    assert (Hnz : (c =? 48) && (1 <? S (length s))%nat = false).
    { destruct (Z.eqb_spec c 48) as [->|]; [|done]. specialize (Hz eq_refl). by simplify_eq. }
    rewrite Hnz. apply pos_ll_loop_spec; [unfold LLONG_MAX, LONG_MAX; lia|]. rewrite Hv. split_and!; [done|done|apply Hn].
Qed.

Lemma parse_decimal_ll n : ll_range n -> parse_pos_ll (decimal_ll n) = Some n.
Proof. intros Hn. by apply parse_pos_ll_spec. Qed.

(** ** The parts of a token *)

Lemma no_sep_number n : ll_range n -> TOKEN_FIELD_SEP ∉ decimal_ll n.
Proof.
  intros Hn Hin. destruct (decimal_ll_pos n Hn) as [(Hd & _) _].
  rewrite forallb_forall in Hd. specialize (Hd TOKEN_FIELD_SEP (proj1 (list_elem_of_In _ _) Hin)). done.
Qed.

Lemma no_sep_name s : is_name_ok s = true -> TOKEN_FIELD_SEP ∉ s.
Proof.
  unfold is_name_ok. intros [_ Hd]%andb_true_iff Hin. rewrite forallb_forall in Hd.
  specialize (Hd TOKEN_FIELD_SEP (proj1 (list_elem_of_In _ _) Hin)). done.
Qed.

Lemma length_hex_encode m : length (hex_encode m) = (2 * length m)%nat.
Proof. unfold hex_encode. induction m as [|b m IH]; [done|]. rewrite fmap_cons. cbn [concat length app]. rewrite IH. lia. Qed.

(** The digits are those of the table. *)
Lemma hex_chars x m : existsb (Z.eqb x) (0 :: HEX) = false -> x ∉ hex_encode m.
Proof.
  intros Hx. assert (Hd : forall i, x <> aget 0 HEX i).
  { intros i E. apply (not_in_bytes _ _ Hx). unfold aget in E. case_match; [subst; by left|].
    destruct (HEX !! Z.to_nat i) as [y|] eqn:Ey; cbn in E; subst; [|by left].
    right. by eapply list_elem_of_lookup_2. }
  unfold hex_encode. induction m as [|b m IH]; [apply not_elem_of_nil|]. rewrite fmap_cons. cbn [concat app].
  by rewrite !not_elem_of_cons.
Qed.

Lemma no_sep_hex m : TOKEN_FIELD_SEP ∉ hex_encode m.
Proof. by apply hex_chars. Qed.

Definition claims_ok (c : token_claims) : Prop := ll_range (sub c) /\ ll_range (iat c) /\ ll_range (exp c).

Lemma claims_text_fields c sig :
  claims_text c ++ sig =
  decimal_ll (sub c) ++ TOKEN_FIELD_SEP :: claim_name c ++ TOKEN_FIELD_SEP :: decimal_ll (iat c) ++
  TOKEN_FIELD_SEP :: decimal_ll (exp c) ++ TOKEN_FIELD_SEP :: sig.
Proof. unfold claims_text. by rewrite <- !app_assoc, <- !app_comm_cons. Qed.

Section token.
Context (HMAC : list Z -> list Z -> option (list Z)).

Lemma hmac_length secret msg mac : hmac_sha256 HMAC secret msg = Some mac -> length mac = TOKEN_SIG_LEN.
Proof.
  unfold hmac_sha256. destruct (HMAC secret msg) as [m|]; [|done]. cbn. case_match eqn:E; [|done].
  intros. simplify_eq. by apply Nat.eqb_eq.
Qed.

(** What minting puts together. *)
Lemma token_mint_spec c secret tok :
  token_mint HMAC TOKEN_MAX_LEN c secret = Some tok <->
  secret_ok secret = true /\ is_name_ok (claim_name c) = true /\ (length (claims_text c) + 64 < TOKEN_MAX_LEN)%nat /\
  exists mac, hmac_sha256 HMAC secret (claims_text c) = Some mac /\ tok = claims_text c ++ hex_encode mac.
Proof.
  unfold token_mint, write_token, write_claims. change (TOKEN_MAX_LEN =? 0)%nat with false. cbn [orb].
  destruct (secret_ok secret); cbn [negb]; [|naive_solver].
  destruct (is_name_ok (claim_name c)); cbn [negb]; [|naive_solver].
  destruct (Nat.leb_spec TOKEN_MAX_LEN (length (claims_text c))); cbn [mbind option_bind].
  { split; [done|]. intros (_ & _ & ? & _). lia. }
  change TOKEN_SIG_HEX_LEN with 64%nat.
  destruct (Nat.ltb_spec TOKEN_MAX_LEN (length (claims_text c) + 64 + 1)); cbn [mbind option_bind].
  { split; [done|]. intros (_ & _ & ? & _). lia. }
  destruct (hmac_sha256 HMAC secret (claims_text c)) as [mac|] eqn:E; cbn [mbind option_bind];
    [|split; [done|intros (_ & _ & _ & ? & ? & _); done]].
  rewrite length_app, length_hex_encode, (hmac_length _ _ _ E). change (2 * TOKEN_SIG_LEN)%nat with 64%nat.
  rewrite (proj2 (Nat.ltb_ge _ _)) by lia. split.
  - intros. simplify_eq. split_and!; try done; [lia|]. eauto.
  - intros (_ & _ & _ & mac' & ? & ->). by simplify_eq.
Qed.

(** A token splits into the claims it was made of and its signature. *)
Lemma split_token_spec c mac :
  claims_ok c -> is_name_ok (claim_name c) = true -> length mac = TOKEN_SIG_LEN ->
  split_token (claims_text c ++ hex_encode mac) =
  Some (mkParts (decimal_ll (sub c)) (claim_name c) (decimal_ll (iat c)) (decimal_ll (exp c)) (hex_encode mac) (claims_text c)).
Proof.
  intros (H1 & H2 & H3) Hn Hm. unfold split_token. rewrite claims_text_fields.
  rewrite !split_on_field by (by apply no_sep_number || by apply no_sep_name).
  rewrite split_on_last by apply no_sep_hex. rewrite length_hex_encode, Hm.
  change (2 * TOKEN_SIG_LEN =? TOKEN_SIG_HEX_LEN)%nat with true. cbn [negb]. do 2 f_equal.
  rewrite <- claims_text_fields, length_app, length_hex_encode, Hm, Nat.add_sub. apply take_app_length.
Qed.

(** And a token that splits is its signed text and the signature. *)
Lemma split_token_inv tok p :
  split_token tok = Some p ->
  tok = t_signing p ++ t_sig p /\ length (t_sig p) = 64%nat /\
  t_signing p = t_sub p ++ TOKEN_FIELD_SEP :: t_name p ++ TOKEN_FIELD_SEP :: t_iat p ++
    TOKEN_FIELD_SEP :: t_exp p ++ [TOKEN_FIELD_SEP].
Proof.
  unfold split_token. pose proof (join_split TOKEN_FIELD_SEP tok) as Hj.
  destruct (split_on TOKEN_FIELD_SEP tok) as [|f0 [|f1 [|f2 [|f3 [|f4 [|? ?]]]]]]; try done.
  case_match eqn:E; [done|]. intros. simplify_eq. cbn [t_signing t_sig t_sub t_name t_iat t_exp].
  apply negb_false_iff, Nat.eqb_eq in E. cbn [join_on].
  replace (f0 ++ TOKEN_FIELD_SEP :: f1 ++ TOKEN_FIELD_SEP :: f2 ++ TOKEN_FIELD_SEP :: f3 ++ TOKEN_FIELD_SEP :: f4)
    with ((f0 ++ TOKEN_FIELD_SEP :: f1 ++ TOKEN_FIELD_SEP :: f2 ++ TOKEN_FIELD_SEP :: f3 ++ [TOKEN_FIELD_SEP]) ++ f4)
    by (rewrite <- !app_assoc, <- !app_comm_cons, <- !app_assoc, <- !app_comm_cons, <- !app_assoc,
          <- !app_comm_cons, <- !app_assoc; done).
  rewrite length_app, Nat.add_sub, take_app_length. done.
Qed.
End token.

(** C30: Exactly the tokens that were minted are accepted, each with the claims it
    was minted for.  [token_verify] answers [TOKEN_OK c] if and only if the token
    is, byte for byte, the one [token_mint] makes for [c] under this secret, and [c]
    has not expired: no second spelling of a number, no other split into fields, no
    other case of a hex digit passes. *)
Theorem token_verify_exact HMAC token secret now c :
  token_verify HMAC token secret now = TOKEN_OK c <->
  token_mint HMAC TOKEN_MAX_LEN c secret = Some token /\ claims_ok c /\ now < exp c.
Proof.
  rewrite token_mint_spec. unfold token_verify. split.
  - destruct (secret_ok secret) eqn:Hs; cbn [negb]; [|done].
    destruct (Nat.leb_spec TOKEN_MAX_LEN (length token)) as [?|Hlen]; [done|].
    destruct (split_token token) as [p|] eqn:Hp; [|done]. destruct (split_token_inv _ _ Hp) as (Ht & Hsig & Hsg).
    destruct (check_signature HMAC (t_signing p) (t_sig p) secret) eqn:Hc; cbn [negb]; [|done].
    unfold read_claims. destruct (parse_pos_ll (t_sub p)) as [s|] eqn:E1; [|done]. cbn [mbind option_bind].
    destruct (parse_pos_ll (t_iat p)) as [i|] eqn:E2; [|done]. cbn [mbind option_bind].
    destruct (parse_pos_ll (t_exp p)) as [e|] eqn:E3; [|done]. cbn [mbind option_bind].
    apply parse_pos_ll_spec in E1 as [R1 E1], E2 as [R2 E2], E3 as [R3 E3].
    destruct (is_name_ok (t_name p)) eqn:Hn; cbn [negb]; [|done].
    destruct (Z.leb_spec (Token.exp (mkClaims s (t_name p) i e)) now); [done|]. intros. simplify_eq.
    assert (Hct : claims_text (mkClaims s (t_name p) i e) = t_signing p).
    { rewrite Hsg, E1, E2, E3. unfold claims_text. cbn [sub claim_name iat Token.exp].
      by rewrite <- ?app_assoc. }
    rewrite Hct. cbn [claim_name]. split_and!; try done.
    + rewrite length_app in Hlen. lia.
    + unfold check_signature in Hc. destruct (hmac_sha256 HMAC secret (t_signing p)) as [mac|]; [|done].
      apply bool_decide_eq_true in Hc. exists mac. by rewrite Hc.
  - intros ((Hs & Hn & Hlen & mac & Hm & ->) & Hok & Hexp). rewrite Hs. cbn [negb].
    pose proof (hmac_length _ _ _ _ Hm) as Hl. rewrite length_app, length_hex_encode, Hl.
    change (2 * TOKEN_SIG_LEN)%nat with 64%nat. rewrite (proj2 (Nat.leb_gt _ _)) by done.
    rewrite split_token_spec by done. cbn [t_signing t_sig]. unfold check_signature. rewrite Hm, bool_decide_true by done.
    cbn [negb]. unfold read_claims. cbn [t_sub t_iat t_exp t_name]. destruct Hok as (R1 & R2 & R3).
    rewrite !parse_decimal_ll by done. cbn [mbind option_bind]. rewrite Hn. cbn [negb Token.exp].
    rewrite (proj2 (Z.leb_gt _ _)) by done. by destruct c.
Qed.

(** A stand-in MAC, to run the code. *)
Definition toy_hmac (secret msg : list Z) : option (list Z) :=
  Some (replicate 32 (foldl Z.add 0 (secret ++ msg) mod 256)).

Example minted_and_checked :
  let secret := replicate 32 7 in
  let c := mkClaims 42 (bytes "ann") 1700000000 1700604800 in
  match token_mint toy_hmac TOKEN_MAX_LEN c secret with
  | Some tok => token_verify toy_hmac tok secret 1700000001 = TOKEN_OK c /\
                token_verify toy_hmac tok secret 1700604800 = TOKEN_E_EXPIRED /\
                token_verify toy_hmac (48 :: tok) secret 1700000001 = TOKEN_E_SIGNATURE
  | None => False
  end.
Proof. vm_compute. done. Qed.
