(* ===== verification/Htttp.v ===== *)
(** * Htttp: the HTTTP/1.0 grammar

    Models core/src/libhtttp/htttp.c.  Bytes are numbers from 0 to 255, a buffer is
    the list of its bytes, a C string in a fixed array is the list of the bytes
    before its terminator, and a header array with its count is the list of its
    entries.  A parser returns the message or the error code; what a failed parse
    leaves in the caller's struct, or a failed serialization in its buffer, is not
    modelled. *)

From Stdlib Require Import String.
From stdpp Require Import options.
From S2P Require Import Prelude Text.
#[local] Open Scope Z_scope.

(** ** htttp.h *)

Inductive htttp_err := HTTTP_ERR_MALFORMED | HTTTP_ERR_TOOLONG | HTTTP_ERR_LENGTH | HTTTP_ERR_NOSPACE.

#[global] Instance htttp_err_eq_dec : EqDecision htttp_err.
Proof. solve_decision. Defined.

(** [HTTTP_OK] with a result, or an error. *)
Inductive res (A : Type) := Ok (a : A) | Err (e : htttp_err).
Arguments Ok {A} a.
Arguments Err {A} e.

#[global] Instance res_bind : MBind res :=
  fun A B f m => match m with Ok a => f a | Err e => Err e end.

(** The callers that map every failure to one code. *)
Definition or_err {A} (e : htttp_err) (m : res A) : res A :=
  match m with Ok a => Ok a | Err _ => Err e end.

Definition HTTTP_VERSION : list Z := bytes "HTTTP/1.0".
Definition VERSION_LEN : nat := length HTTTP_VERSION.
Definition HTTTP_MAX_METHOD : nat := 16.
Definition HTTTP_MAX_PATH : nat := 256.
Definition HTTTP_MAX_HEADERS : nat := 32.
Definition HTTTP_MAX_KEY : nat := 64.
Definition HTTTP_MAX_VALUE : nat := 256.

Record htttp_header := mkHeader { key : list Z; value : list Z }.

Record htttp_request := mkRequest {
  method : list Z;
  path : list Z;
  headers : list htttp_header;
  body : option (list Z);
  body_len : Z
}.

Record htttp_response := mkResponse {
  status : Z;
  res_headers : list htttp_header;
  res_body : option (list Z);
  res_body_len : Z
}.

Definition CR : Z := 13.
Definition LF : Z := 10.
Definition SP : Z := 32.
Definition COLON : Z := 58.
Definition CRLF : list Z := [CR; LF].

(** ** Static helpers *)

Definition lower (c : Z) : Z := if (65 <=? c) && (c <=? 90) then c - 65 + 97 else c.

Fixpoint ci_eq (a b : list Z) : bool :=
  match a, b with
  | [], [] => true
  | x :: a, y :: b => (lower x =? lower y) && ci_eq a b
  | _, _ => false
  end.

(** The scan of find_crlf over the bytes from [index] on. *)
Fixpoint find_crlf_at (l : list Z) (index : nat) : option nat :=
  match l with
  | a :: (b :: _) as l' =>
      if (a =? CR) && (b =? LF) then Some index else find_crlf_at l' (S index)
  | _ => None
  end.

Definition find_crlf (buf : list Z) (from : nat) : option nat := find_crlf_at (drop from buf) from.

(** The bytes [buf[a .. b-1]]. *)
Definition slice (buf : list Z) (a b : nat) : list Z := take (b - a) (drop a buf).

Definition copy_token (cap : nat) (src : list Z) : res (list Z) :=
  if (cap <=? length src)%nat then Err HTTTP_ERR_TOOLONG
  else if bool_decide (0 ∈ src) then Err HTTTP_ERR_MALFORMED
  else Ok src.

Fixpoint parse_uint_loop (src : list Z) (v : Z) : res Z :=
  match src with
  | [] => Ok v
  | c :: src =>
      if (c <? 48) || (57 <? c) then Err HTTTP_ERR_MALFORMED
      else
        let digit := c - 48 in
        if (UINT32_MAX - digit) / 10 <? v then Err HTTTP_ERR_TOOLONG
        else parse_uint_loop src (u32 (v * 10 + digit))
  end.

Definition parse_uint (src : list Z) : res Z :=
  if (length src =? 0)%nat then Err HTTTP_ERR_MALFORMED
  else if (32 <? length src)%nat then Err HTTTP_ERR_TOOLONG
  else parse_uint_loop src 0.

(** [while (i < stop && buf[i] != c) i++;] over the bytes from [i] to [stop]. *)
Fixpoint scan_for (c : Z) (l : list Z) (i : nat) : nat :=
  match l with
  | [] => i
  | x :: l => if x =? c then i else scan_for c l (S i)
  end.

Definition scan_to (buf : list Z) (c : Z) (i stop : nat) : nat := scan_for c (slice buf i stop) i.

Fixpoint htttp_header_get (hs : list htttp_header) (k : list Z) : option (list Z) :=
  match hs with
  | [] => None
  | h :: hs => if ci_eq (key h) k then Some (value h) else htttp_header_get hs k
  end.

(** ** Parsing *)

(** The header loop: [slots] entries of the array are still free. *)
Fixpoint parse_headers (slots : nat) (buf : list Z) (off : nat) (hs : list htttp_header)
    : res (nat * list htttp_header) :=
  match find_crlf buf off with
  | None => Err HTTTP_ERR_MALFORMED
  | Some eol =>
      if (eol =? off)%nat then Ok (off + 2, hs)%nat
      else
        let colon := scan_to buf COLON off eol in
        if (colon =? off)%nat || (eol <=? colon)%nat || (eol <=? colon + 1)%nat ||
           negb (aget 0 buf (Z.of_nat (colon + 1)) =? SP)
        then Err HTTTP_ERR_MALFORMED
        else
          match slots with
          | O => Err HTTTP_ERR_TOOLONG
          | S slots =>
              k ← copy_token HTTTP_MAX_KEY (slice buf off colon);
              v ← copy_token HTTTP_MAX_VALUE (slice buf (colon + 2) eol);
              parse_headers slots buf (eol + 2) (hs ++ [mkHeader k v])
          end
  end.

Definition CONTENT_LENGTH : list Z := bytes "Content-Length".

Definition parse_tail (buf : list Z) (off : nat) : res (list htttp_header * option (list Z) * Z) :=
  '(off, hs) ← parse_headers HTTTP_MAX_HEADERS buf off [];
  let remaining := (length buf - off)%nat in
  match htttp_header_get hs CONTENT_LENGTH with
  | None => if (remaining =? 0)%nat then Ok (hs, None, 0) else Err HTTTP_ERR_LENGTH
  | Some cl =>
      match parse_uint cl with
      | Err _ => Err HTTTP_ERR_MALFORMED
      | Ok declared =>
          if negb (declared =? Z.of_nat remaining) then Err HTTTP_ERR_LENGTH
          else Ok (hs, if (remaining =? 0)%nat then None else Some (drop off buf), declared)
      end
  end.

Definition htttp_parse_request (buf : list Z) : res htttp_request :=
  match find_crlf buf 0 with
  | None => Err HTTTP_ERR_MALFORMED
  | Some eol =>
      let sp1 := scan_to buf SP 0 eol in
      if (sp1 =? 0)%nat || (eol <=? sp1)%nat then Err HTTTP_ERR_MALFORMED
      else
        m ← or_err HTTTP_ERR_TOOLONG (copy_token HTTTP_MAX_METHOD (slice buf 0 sp1));
        let sp2 := scan_to buf SP (sp1 + 1) eol in
        if (sp2 =? sp1 + 1)%nat || (eol <=? sp2)%nat then Err HTTTP_ERR_MALFORMED
        else
          p ← or_err HTTTP_ERR_TOOLONG (copy_token HTTTP_MAX_PATH (slice buf (sp1 + 1) sp2));
          if negb (eol - sp2 - 1 =? VERSION_LEN)%nat ||
             negb (bool_decide (slice buf (sp2 + 1) (sp2 + 1 + VERSION_LEN) = HTTTP_VERSION))
          then Err HTTTP_ERR_MALFORMED
          else
            '(hs, b, n) ← parse_tail buf (eol + 2);
            Ok (mkRequest m p hs b n)
  end.

Definition htttp_parse_response (buf : list Z) : res htttp_response :=
  match find_crlf buf 0 with
  | None => Err HTTTP_ERR_MALFORMED
  | Some eol =>
      if (eol <=? VERSION_LEN)%nat ||
         negb (bool_decide (slice buf 0 VERSION_LEN = HTTTP_VERSION)) ||
         negb (aget 0 buf (Z.of_nat VERSION_LEN) =? SP)
      then Err HTTTP_ERR_MALFORMED
      else
        let sp1 := scan_to buf SP (VERSION_LEN + 1) eol in
        if (sp1 =? VERSION_LEN + 1)%nat || (eol <=? sp1)%nat then Err HTTTP_ERR_MALFORMED
        else
          match parse_uint (slice buf (VERSION_LEN + 1) sp1) with
          | Err _ => Err HTTTP_ERR_MALFORMED
          | Ok st =>
              if (st <? 100) || (599 <? st) then Err HTTTP_ERR_MALFORMED
              else
                '(hs, b, n) ← parse_tail buf (eol + 2);
                Ok (mkResponse st hs b n)
          end
  end.

(** ** Serializing *)

Definition valid_field (s : list Z) (allow_space : bool) : bool :=
  forallb (fun c => ((33 <=? c) && (c <=? 126)) || (allow_space && (c =? SP))) s.

(** [out] is what has been written of a buffer of [cap] bytes. *)
Definition buf_append (cap : nat) (out src : list Z) : res (list Z) :=
  if (length src =? 0)%nat then Ok out
  else if (cap - length out <? length src)%nat then Err HTTTP_ERR_NOSPACE
  else Ok (out ++ src).

Definition emit_header (cap : nat) (out k v : list Z) : res (list Z) :=
  out ← buf_append cap out k;
  out ← buf_append cap out [COLON; SP];
  out ← buf_append cap out v;
  buf_append cap out CRLF.

Definition DATE : list Z := bytes "Date".

Fixpoint emit_headers_loop (cap : nat) (out : list Z) (hs : list htttp_header) (skip_date : bool)
    : res (list Z) :=
  match hs with
  | [] => Ok out
  | h :: hs =>
      if ci_eq (key h) CONTENT_LENGTH then emit_headers_loop cap out hs skip_date
      else if skip_date && ci_eq (key h) DATE then emit_headers_loop cap out hs skip_date
      else if bool_decide (key h = []) then Err HTTTP_ERR_MALFORMED
      else if negb (valid_field (key h) false) || negb (valid_field (value h) true)
      then Err HTTTP_ERR_MALFORMED
      else out ← emit_header cap out (key h) (value h); emit_headers_loop cap out hs skip_date
  end.

Definition emit_headers (cap : nat) (out : list Z) (hs : list htttp_header) (skip_date : bool)
    : res (list Z) :=
  if (HTTTP_MAX_HEADERS <? length hs)%nat then Err HTTTP_ERR_TOOLONG
  else emit_headers_loop cap out hs skip_date.

Definition emit_body (cap : nat) (out : list Z) (b : option (list Z)) (blen : Z) : res (list Z) :=
  out ← (if 0 <? blen then
           let cl := decimal blen in
           if (16 <=? length cl)%nat then Err HTTTP_ERR_MALFORMED
           else emit_header cap out CONTENT_LENGTH cl
         else Ok out);
  out ← buf_append cap out CRLF;
  buf_append cap out (take (Z.to_nat blen) (default [] b)).

Definition htttp_serialize_request (req : htttp_request) (cap : nat) : res (list Z) :=
  if bool_decide (body req = None) && (0 <? body_len req) then Err HTTTP_ERR_MALFORMED
  else if bool_decide (method req = []) || bool_decide (path req = []) then Err HTTTP_ERR_MALFORMED
  else if negb (valid_field (method req) false) || negb (valid_field (path req) false)
  then Err HTTTP_ERR_MALFORMED
  else
    out ← buf_append cap [] (method req);
    out ← buf_append cap out [SP];
    out ← buf_append cap out (path req);
    out ← buf_append cap out [SP];
    out ← buf_append cap out HTTTP_VERSION;
    out ← buf_append cap out CRLF;
    out ← emit_headers cap out (headers req) false;
    emit_body cap out (body req) (body_len req).

Definition htttp_reason (st : Z) : option (list Z) :=
  if st =? 200 then Some (bytes "OK")
  else if st =? 201 then Some (bytes "Created")
  else if st =? 400 then Some (bytes "Bad Request")
  else if st =? 401 then Some (bytes "Unauthorized")
  else if st =? 403 then Some (bytes "Forbidden")
  else if st =? 404 then Some (bytes "Not Found")
  else if st =? 409 then Some (bytes "Conflict")
  else if st =? 413 then Some (bytes "Payload Too Large")
  else if st =? 429 then Some (bytes "Too Many Requests")
  else if st =? 500 then Some (bytes "Internal Server Error")
  else if st =? 501 then Some (bytes "Not Implemented")
  else None.

(** [date] is what [strftime] wrote for the current time, [None] when reading or
    formatting it failed. *)
Definition htttp_serialize_response (date : option (list Z)) (r : htttp_response) (cap : nat)
    : res (list Z) :=
  if bool_decide (res_body r = None) && (0 <? res_body_len r) then Err HTTTP_ERR_MALFORMED
  else
    match htttp_reason (status r) with
    | None => Err HTTTP_ERR_MALFORMED
    | Some reason =>
        let st := decimal (status r) in
        if (8 <=? length st)%nat then Err HTTTP_ERR_MALFORMED
        else
          match date with
          | None => Err HTTTP_ERR_MALFORMED
          | Some date =>
              out ← buf_append cap [] HTTTP_VERSION;
              out ← buf_append cap out [SP];
              out ← buf_append cap out st;
              out ← buf_append cap out [SP];
              out ← buf_append cap out reason;
              out ← buf_append cap out CRLF;
              out ← emit_header cap out DATE date;
              out ← emit_headers cap out (res_headers r) true;
              emit_body cap out (res_body r) (res_body_len r)
          end
    end.

(** ** Header helpers *)

Definition htttp_header_set (hs : list htttp_header) (k v : list Z) : res (list htttp_header) :=
  if bool_decide (k = []) then Err HTTTP_ERR_MALFORMED
  else if negb (valid_field k false) || negb (valid_field v true) then Err HTTTP_ERR_MALFORMED
  else if (HTTTP_MAX_HEADERS <=? length hs)%nat then Err HTTTP_ERR_TOOLONG
  else
    k ← or_err HTTTP_ERR_TOOLONG (copy_token HTTTP_MAX_KEY k);
    v ← or_err HTTTP_ERR_TOOLONG (copy_token HTTTP_MAX_VALUE v);
    Ok (hs ++ [mkHeader k v]).

(** ** Examples *)

Definition join_request : htttp_request :=
  mkRequest (bytes "JOIN") (bytes "/room/7") [mkHeader (bytes "Player-Id") (bytes "3")]
    (Some (bytes "ann")) 3.

Example join_request_wire :
  htttp_serialize_request join_request 65536 =
  Ok (bytes "JOIN /room/7 HTTTP/1.0" ++ CRLF ++ bytes "Player-Id: 3" ++ CRLF ++
      bytes "Content-Length: 3" ++ CRLF ++ CRLF ++ bytes "ann").
Proof. vm_compute. reflexivity. Qed.

Example join_request_parsed :
  match htttp_serialize_request join_request 65536 with
  | Ok w => htttp_parse_request w
  | Err e => Err e
  end =
  Ok (mkRequest (bytes "JOIN") (bytes "/room/7")
        [mkHeader (bytes "Player-Id") (bytes "3"); mkHeader CONTENT_LENGTH (bytes "3")]
        (Some (bytes "ann")) 3).
Proof. vm_compute. reflexivity. Qed.
