(* ===== verification/HtttpTheorems.v ===== *)
(** * HtttpTheorems: the grammar's contract

    What core/src/libhtttp/htttp.c guarantees: a parsed message respects every
    bound of its struct, whatever the bytes; numbers are parsed exactly; and a
    message that serializes parses back to itself, with nothing smuggled in. *)

From stdpp Require Import options.
From S2P Require Import Prelude Text Htttp.
#[local] Open Scope Z_scope.

(** ** Scanning *)

Lemma slice_app pre s rest : slice (pre ++ s ++ rest) (length pre) (length pre + length s) = s.
Proof.
  unfold slice. rewrite drop_app_length. replace (length pre + length s - length pre)%nat with (length s) by lia.
  apply take_app_length.
Qed.

Lemma find_crlf_at_app s rest i :
  CR ∉ s -> find_crlf_at (s ++ CRLF ++ rest) i = Some (i + length s)%nat.
Proof.
  revert i. induction s as [|x s IH]; intros i Hs.
  { simpl. f_equal. lia. }
  assert (Hx : x <> CR) by (intros ->; apply Hs, elem_of_cons; by left).
  assert (Hs' : CR ∉ s) by (intros H; apply Hs, elem_of_cons; by right).
  specialize (IH (S i) Hs').
  replace (i + length (x :: s))%nat with (S i + length s)%nat by (simpl; lia). rewrite <- IH.
  destruct s as [|y s]; cbn; by rewrite (proj2 (Z.eqb_neq _ _) Hx).
Qed.

(** A line without a carriage return ends where its CRLF is. *)
Lemma find_crlf_line pre s rest :
  CR ∉ s -> find_crlf (pre ++ s ++ CRLF ++ rest) (length pre) = Some (length pre + length s)%nat.
Proof. intros Hs. unfold find_crlf. rewrite drop_app_length. by apply find_crlf_at_app. Qed.

Lemma scan_for_app c s rest i : c ∉ s -> scan_for c (s ++ c :: rest) i = (i + length s)%nat.
Proof.
  revert i. induction s as [|x s IH]; intros i Hs; simpl.
  { rewrite Z.eqb_refl. lia. }
  rewrite (proj2 (Z.eqb_neq x c)) by (intros ->; apply Hs, elem_of_cons; by left).
  rewrite IH; [lia|]. intros H. apply Hs, elem_of_cons. by right.
Qed.

Lemma scan_to_app pre a c b rest stop :
  c ∉ a -> stop = (length pre + length a + 1 + length b)%nat ->
  scan_to (pre ++ a ++ c :: b ++ rest) c (length pre) stop = (length pre + length a)%nat.
Proof.
  intros Ha ->. unfold scan_to.
  replace (length pre + length a + 1 + length b)%nat with (length pre + length (a ++ c :: b))%nat
    by (rewrite length_app; simpl; lia).
  replace (pre ++ a ++ c :: b ++ rest) with (pre ++ (a ++ c :: b) ++ rest) by (by rewrite <- app_assoc).
  rewrite slice_app. by apply scan_for_app.
Qed.

Lemma copy_token_ok cap s : (length s < cap)%nat -> 0 ∉ s -> copy_token cap s = Ok s.
Proof.
  intros Hl Hs. unfold copy_token. rewrite (proj2 (Nat.leb_gt _ _)) by done.
  by rewrite bool_decide_false.
Qed.

Lemma copy_token_inv cap s t : copy_token cap s = Ok t -> t = s /\ (length t < cap)%nat /\ 0 ∉ t.
Proof.
  unfold copy_token. destruct (Nat.leb_spec cap (length s)); [done|]. case_bool_decide; [done|].
  intros [= ->]. done.
Qed.

(** ** Numbers *)

Lemma parse_uint_loop_ok s v :
  0 <= v -> forallb is_digit s = true -> digits_value v s <= UINT32_MAX ->
  parse_uint_loop s v = Ok (digits_value v s).
Proof.
  revert v. induction s as [|c s IH]; intros v Hv Hs Hb; [done|]. cbn [parse_uint_loop].
  cbn in Hs. apply andb_true_iff in Hs as [Hc Hs]. unfold is_digit in Hc. bool_arith.
  rewrite (proj2 (Z.ltb_ge c 48)), (proj2 (Z.ltb_ge 57 c)) by lia. cbn [orb].
  pose proof (digits_value_mono s (v * 10 + (c - 48)) ltac:(lia) Hs) as Hm.
  change (digits_value v (c :: s)) with (digits_value (v * 10 + (c - 48)) s) in *.
  assert (Hle : v * 10 + (c - 48) <= UINT32_MAX) by lia.
  rewrite (proj2 (Z.ltb_ge _ _)) by (apply Z.div_le_lower_bound; lia).
  rewrite u32_small by lia. apply IH; [lia|done|done].
Qed.

Lemma parse_uint_loop_inv s v n :
  0 <= v <= UINT32_MAX -> parse_uint_loop s v = Ok n ->
  forallb is_digit s = true /\ n = digits_value v s /\ n <= UINT32_MAX.
Proof.
  revert v. induction s as [|c s IH]; intros v Hv Heq; simpl in Heq.
  { simplify_eq. split_and!; [done..|lia]. }
  destruct (_ || _) eqn:Hd; [done|]. bool_arith.
  destruct (Z.ltb_spec ((UINT32_MAX - (c - 48)) / 10) v) as [|Hle]; [done|].
  assert (v * 10 + (c - 48) <= UINT32_MAX).
  { pose proof (Z.mul_div_le (UINT32_MAX - (c - 48)) 10 ltac:(lia)). lia. }
  rewrite u32_small in Heq by lia. apply IH in Heq as (Hs & -> & Hb); [|lia]. split_and!; [|done..].
  simpl. rewrite Hs. unfold is_digit. by rewrite (proj2 (Z.leb_le 48 c)), (proj2 (Z.leb_le c 57)) by lia.
Qed.

(** Numbers off the wire.  A field is accepted exactly when it is 1 to 32
    decimal digits whose value fits 32 bits, and the result is that value: no
    sign, no blank, no wrap-around. *)
Theorem parse_uint_exact s n :
  parse_uint s = Ok n <->
  (1 <= length s <= 32)%nat /\ forallb is_digit s = true /\ n = digits_value 0 s /\ n <= UINT32_MAX.
Proof.
  unfold parse_uint. destruct (Nat.eqb_spec (length s) 0) as [H0|H0].
  { split; [done|]. intros (? & _). lia. }
  destruct (Nat.ltb_spec 32 (length s)) as [H1|H1].
  { split; [done|]. intros (? & _). lia. }
  split.
  - intros (Hs & -> & Hb)%parse_uint_loop_inv; [|unfold UINT32_MAX; lia]. split_and!; [lia..|done|done|done].
  - intros (_ & Hs & -> & Hb). by apply parse_uint_loop_ok.
Qed.

Lemma parse_uint_decimal n : 0 <= n <= UINT32_MAX -> parse_uint (decimal n) = Ok n.
Proof.
  intros Hn. destruct (decimal_digits n Hn) as (Hv & Hd & Hl). unfold parse_uint.
  rewrite (proj2 (Nat.eqb_neq _ _)), (proj2 (Nat.ltb_ge _ _)) by lia.
  rewrite parse_uint_loop_ok by (try done; try lia). by rewrite Hv.
Qed.

(** ** What a valid field contains *)

Lemma valid_field_elem s sp c : valid_field s sp = true -> c ∈ s -> 32 <= c <= 126.
Proof.
  unfold valid_field. rewrite forallb_forall. intros H Hc%list_elem_of_In. specialize (H c Hc).
  apply orb_true_iff in H as [?|?]; unfold SP in *; bool_arith; lia.
Qed.

Lemma valid_field_nospace s c : valid_field s false = true -> c ∈ s -> 33 <= c <= 126.
Proof.
  unfold valid_field. rewrite forallb_forall. intros H Hc%list_elem_of_In. specialize (H c Hc).
  rewrite orb_false_r in H. bool_arith. lia.
Qed.

Lemma digits_valid s : forallb is_digit s = true -> valid_field s true = true.
Proof.
  unfold valid_field. rewrite !forallb_forall. intros H c Hc. specialize (H c Hc). unfold is_digit in H.
  bool_arith. rewrite (proj2 (Z.leb_le 33 c)), (proj2 (Z.leb_le c 126)) by lia. done.
Qed.

(** ** Header lines *)

Definition header_line (h : htttp_header) : list Z := key h ++ [COLON; SP] ++ value h ++ CRLF.
Definition header_block (hs : list htttp_header) : list Z := mjoin (header_line <$> hs).

(** A header this grammar can carry: it fits its arrays and its key can be told
    from its value. *)
Definition header_ok (h : htttp_header) : Prop :=
  key h <> [] /\ valid_field (key h) false = true /\ valid_field (value h) true = true /\
  (COLON ∉ key h) /\ (length (key h) < HTTTP_MAX_KEY)%nat /\ (length (value h) < HTTTP_MAX_VALUE)%nat.

Lemma header_line_app h : header_line h = (key h ++ COLON :: SP :: value h) ++ CRLF.
Proof. unfold header_line. by rewrite <- app_assoc. Qed.

Lemma not_in_visible c s sp : valid_field s sp = true -> c < 32 -> c ∉ s.
Proof. intros Hv Hc Hin. pose proof (valid_field_elem s sp c Hv Hin). lia. Qed.

(** Reading one header line. *)
Lemma parse_headers_step slots pre h rest acc :
  header_ok h ->
  parse_headers (S slots) (pre ++ header_line h ++ rest) (length pre) acc =
  parse_headers slots (pre ++ header_line h ++ rest) (length (pre ++ header_line h)) (acc ++ [h]).
Proof.
  intros (Hne & Hk & Hv & Hcol & Hkl & Hvl). set (buf := pre ++ header_line h ++ rest).
  cbn [parse_headers].
  assert (Hbuf : buf = pre ++ (key h ++ COLON :: SP :: value h) ++ CRLF ++ rest).
  { unfold buf. by rewrite header_line_app, <- app_assoc. }
  assert (Hcr : CR ∉ key h ++ COLON :: SP :: value h).
  { rewrite elem_of_app, !elem_of_cons. intros [H|[H|[H|H]]]; try done.
    - by apply (not_in_visible CR (key h) false).
    - by apply (not_in_visible CR (value h) true). }
  rewrite Hbuf at 1. rewrite (find_crlf_line pre _ rest Hcr). rewrite length_app. cbn [length].
  set (eol := (length pre + (length (key h) + S (S (length (value h)))))%nat).
  assert (Hkl0 : (0 < length (key h))%nat) by (destruct (key h); [done|simpl; lia]).
  rewrite (proj2 (Nat.eqb_neq eol (length pre))) by lia.
  assert (Hcolon : scan_to buf COLON (length pre) eol = (length pre + length (key h))%nat).
  { assert (buf = pre ++ key h ++ COLON :: (SP :: value h) ++ CRLF ++ rest) as ->
      by (rewrite Hbuf; by rewrite <- app_assoc).
    apply scan_to_app; [done|]. simpl. unfold eol. lia. }
  rewrite Hcolon.
  rewrite (proj2 (Nat.eqb_neq _ (length pre))) by lia.
  rewrite !(proj2 (Nat.leb_gt _ _)) by lia.
  assert (Hsp : aget 0 buf (Z.of_nat (length pre + length (key h) + 1)) = SP).
  { rewrite aget_nat, Hbuf. rewrite lookup_app_r, <- app_assoc, lookup_app_r by lia.
    replace (length pre + length (key h) + 1 - length pre - length (key h))%nat with 1%nat by lia. done. }
  rewrite Hsp. cbn [orb negb Z.eqb Pos.eqb SP].
  assert (Hks : slice buf (length pre) (length pre + length (key h)) = key h).
  { rewrite Hbuf, <- app_assoc. apply slice_app. }
  assert (Hvs : slice buf (length pre + length (key h) + 2) eol = value h).
  { replace buf with ((pre ++ key h ++ [COLON; SP]) ++ value h ++ CRLF ++ rest)
      by (rewrite Hbuf; repeat (rewrite <- app_assoc; simpl); done).
    replace (length pre + length (key h) + 2)%nat with (length (pre ++ key h ++ [COLON; SP]))
      by (rewrite !length_app; simpl; lia).
    replace eol with (length (pre ++ key h ++ [COLON; SP]) + length (value h))%nat
      by (rewrite !length_app; simpl; unfold eol; lia).
    apply slice_app. }
  rewrite Hks, Hvs.
  rewrite !copy_token_ok; [|done|by eapply not_in_visible|done|by eapply not_in_visible].
  cbn [mbind res_bind]. destruct h as [k v]. f_equal.
  unfold eol. rewrite header_line_app, !length_app. simpl. lia.
Qed.

Lemma parse_headers_block hs slots pre tail acc :
  Forall header_ok hs -> (length hs <= slots)%nat ->
  parse_headers slots (pre ++ header_block hs ++ CRLF ++ tail) (length pre) acc =
  Ok ((length pre + length (header_block hs) + 2)%nat, acc ++ hs).
Proof.
  intros Hhs. revert slots pre acc. induction Hhs as [|h hs Hh _ IH]; intros slots pre acc Hl.
  - assert (Hf : find_crlf (pre ++ CRLF ++ tail) (length pre) = Some (length pre)).
    { pose proof (find_crlf_line pre [] tail) as H. simpl in H. rewrite Nat.add_0_r in H. apply H. by intros ?%elem_of_nil. }
    unfold header_block. cbn [fmap list_fmap mjoin list_join app length]. rewrite app_nil_r, Nat.add_0_r.
    destruct slots; cbn [parse_headers]; rewrite Hf, Nat.eqb_refl; done.
  - destruct slots as [|slots]; [simpl in Hl; lia|]. simpl in Hl.
    change (header_block (h :: hs)) with (header_line h ++ header_block hs).
    rewrite <- !app_assoc. rewrite (parse_headers_step slots pre h _ acc Hh).
    replace (pre ++ header_line h ++ header_block hs ++ CRLF ++ tail) with
      ((pre ++ header_line h) ++ header_block hs ++ CRLF ++ tail) by (by rewrite <- !app_assoc).
    rewrite IH by lia. rewrite <- app_assoc. simpl. do 2 f_equal. rewrite !length_app. lia.
Qed.

(** ** The bytes the serializers produce *)

Lemma buf_append_inv cap out src out' : buf_append cap out src = Ok out' -> out' = out ++ src.
Proof.
  unfold buf_append. destruct (Nat.eqb_spec (length src) 0) as [Hz|_].
  - apply length_zero_iff_nil in Hz as ->. intros [= <-]. by rewrite app_nil_r.
  - case_match; [done|]. by intros [= <-].
Qed.

Lemma res_bind_Ok {A B} (m : res A) (f : A -> res B) b :
  (m ≫= f) = Ok b -> exists a, m = Ok a /\ f a = Ok b.
Proof. destruct m; [|done]. simpl. eauto. Qed.

(** Peel a chain of appends. *)
Ltac append_inv :=
  repeat match goal with
  | H : (_ ≫= _) = Ok _ |- _ =>
      let o := fresh "out" in let H1 := fresh "Hb" in
      apply res_bind_Ok in H as (o & H1 & H)
  | H : buf_append _ _ _ = Ok _ |- _ => apply buf_append_inv in H; subst
  end.

Lemma emit_header_inv cap out k v out' :
  emit_header cap out k v = Ok out' -> out' = out ++ header_line (mkHeader k v).
Proof. unfold emit_header. intros H. append_inv. unfold header_line. by rewrite <- !app_assoc. Qed.

(** The headers a serializer passes on: those it does not regenerate. *)
Definition kept (skip_date : bool) (h : htttp_header) : bool :=
  negb (ci_eq (key h) CONTENT_LENGTH) && negb (skip_date && ci_eq (key h) DATE).

Definition kept_headers (skip_date : bool) (hs : list htttp_header) : list htttp_header :=
  filter (fun h => kept skip_date h = true) hs.

Lemma emit_headers_inv cap out hs skip out' :
  emit_headers cap out hs skip = Ok out' ->
  out' = out ++ header_block (kept_headers skip hs) /\ (length hs <= HTTTP_MAX_HEADERS)%nat /\
  Forall (fun h => key h <> [] /\ valid_field (key h) false = true /\ valid_field (value h) true = true)
    (kept_headers skip hs).
Proof.
  unfold emit_headers. destruct (Nat.ltb_spec HTTTP_MAX_HEADERS (length hs)) as [|Hl]; [done|].
  intros H. cut (out' = out ++ header_block (kept_headers skip hs) /\
    Forall (fun h => key h <> [] /\ valid_field (key h) false = true /\ valid_field (value h) true = true)
      (kept_headers skip hs)); [tauto|].
  clear Hl. revert out H. unfold kept_headers. induction hs as [|h hs IH]; intros out H; cbn [emit_headers_loop] in H.
  { simplify_eq. rewrite filter_nil. split; [by rewrite app_nil_r|constructor]. }
  rewrite filter_cons. unfold kept.
  destruct (ci_eq (key h) CONTENT_LENGTH) eqn:Hcl; cbn [negb andb].
  { rewrite decide_False by done. by apply IH. }
  destruct (skip && ci_eq (key h) DATE) eqn:Hd; cbn [negb].
  { rewrite decide_False by done. by apply IH. }
  rewrite decide_True by done. case_bool_decide as Hne; [done|].
  destruct (negb _ || negb _) eqn:Hv; [done|]. bool_arith.
  apply res_bind_Ok in H as (o & Ho & H). apply emit_header_inv in Ho as ->. apply IH in H as [-> Hall].
  split; [|by constructor]. destruct h as [k v]. rewrite <- app_assoc. done.
Qed.

(** The generated header, when there is a body. *)
Definition length_header (n : Z) : list htttp_header :=
  if 0 <? n then [mkHeader CONTENT_LENGTH (decimal n)] else [].

Lemma emit_body_inv cap out b n out' :
  emit_body cap out b n = Ok out' ->
  out' = out ++ header_block (length_header n) ++ CRLF ++ take (Z.to_nat n) (default [] b).
Proof.
  unfold emit_body, length_header. intros H. apply res_bind_Ok in H as (o & Ho & H).
  assert (o = out ++ header_block (if 0 <? n then [mkHeader CONTENT_LENGTH (decimal n)] else [])) as ->.
  { destruct (0 <? n); [|simplify_eq; by rewrite app_nil_r]. case_match; [done|].
    apply emit_header_inv in Ho as ->. unfold header_block. simpl. by rewrite app_nil_r. }
  append_inv. by rewrite <- !app_assoc.
Qed.

Lemma header_block_app hs hs' : header_block (hs ++ hs') = header_block hs ++ header_block hs'.
Proof. unfold header_block. by rewrite fmap_app, join_app. Qed.

Lemma length_header_ok n : 0 <= n <= UINT32_MAX -> Forall header_ok (length_header n).
Proof.
  intros Hn. unfold length_header. destruct (0 <? n); [|constructor].
  destruct (decimal_digits n Hn) as (_ & Hd & Hl). apply Forall_singleton.
  unfold header_ok. cbn [key value]. split_and!.
  - done.
  - done.
  - by apply digits_valid.
  - apply (bool_decide_unpack (COLON ∉ CONTENT_LENGTH)). vm_compute. exact I.
  - unfold HTTTP_MAX_KEY. simpl. lia.
  - unfold HTTTP_MAX_VALUE. lia.
Qed.

(** ** Reading the tail back *)

Lemma header_get_app hs hs' k :
  Forall (fun h => ci_eq (key h) k = false) hs -> htttp_header_get (hs ++ hs') k = htttp_header_get hs' k.
Proof. induction 1 as [|h hs Hh _ IH]; simpl; [done|]. by rewrite Hh. Qed.

Lemma kept_no_length skip hs :
  Forall (fun h => ci_eq (key h) CONTENT_LENGTH = false) (kept_headers skip hs).
Proof.
  apply list.Forall_forall. intros h [Hk _]%list_elem_of_filter. unfold kept in Hk.
  by destruct (ci_eq (key h) CONTENT_LENGTH).
Qed.

(** The body as a parser hands it out: no pointer for no bytes. *)
Definition body_of (n : Z) (b : option (list Z)) : option (list Z) := if 0 <? n then b else None.

Lemma parse_tail_back pre hs n b :
  Forall header_ok hs -> Forall (fun h => ci_eq (key h) CONTENT_LENGTH = false) hs ->
  (length (hs ++ length_header n) <= HTTTP_MAX_HEADERS)%nat ->
  0 <= n <= UINT32_MAX -> Z.of_nat (length (default [] b)) = n -> (0 < n -> b <> None) ->
  parse_tail (pre ++ header_block (hs ++ length_header n) ++ CRLF ++ default [] b) (length pre) =
  Ok (hs ++ length_header n, body_of n b, n).
Proof.
  intros Hhs Hncl Hl Hn Hlen Hb. unfold parse_tail.
  rewrite parse_headers_block; [|by apply Forall_app; split; [|apply length_header_ok]|done].
  cbn [mbind res_bind app]. set (blk := header_block (hs ++ length_header n)).
  assert (Hrem : (length (pre ++ blk ++ CRLF ++ default [] b) - (length pre + length blk + 2))%nat =
    length (default [] b)) by (rewrite !length_app; simpl; lia).
  assert (Hdrop : drop (length pre + length blk + 2) (pre ++ blk ++ CRLF ++ default [] b) = default [] b).
  { replace (pre ++ blk ++ CRLF ++ default [] b) with ((pre ++ blk ++ CRLF) ++ default [] b)
      by (by rewrite <- !app_assoc).
    apply drop_app_length'. rewrite !length_app. simpl. lia. }
  rewrite Hrem, Hdrop, header_get_app by done. unfold length_header, body_of.
  destruct (Z.ltb_spec 0 n) as [Hpos|Hz].
  - cbn [htttp_header_get key value].
    change (ci_eq CONTENT_LENGTH CONTENT_LENGTH) with true. cbv iota.
    rewrite parse_uint_decimal by done. rewrite Hlen, Z.eqb_refl. cbn [negb].
    rewrite (proj2 (Nat.eqb_neq _ _)) by lia. destruct b; [done|]. by destruct Hb.
  - cbn [htttp_header_get]. rewrite (proj2 (Nat.eqb_eq _ 0)) by lia. do 2 f_equal. lia.
Qed.

(** ** The first lines *)

Definition request_line (m p : list Z) : list Z := m ++ SP :: p ++ SP :: HTTTP_VERSION.

Lemma version_no_cr : CR ∉ HTTTP_VERSION.
Proof. apply (bool_decide_unpack (CR ∉ HTTTP_VERSION)). vm_compute. exact I. Qed.

Lemma parse_request_line m p T :
  m <> [] -> p <> [] -> valid_field m false = true -> valid_field p false = true ->
  (length m < HTTTP_MAX_METHOD)%nat -> (length p < HTTTP_MAX_PATH)%nat ->
  htttp_parse_request (request_line m p ++ CRLF ++ T) =
  ('(hs, b, n) ← parse_tail (request_line m p ++ CRLF ++ T) (length (request_line m p ++ CRLF));
   Ok (mkRequest m p hs b n)).
Proof.
  intros Hm0 Hp0 Hm Hp Hml Hpl. set (buf := request_line m p ++ CRLF ++ T).
  assert (Hsp : forall s, valid_field s false = true -> SP ∉ s).
  { intros s Hs Hin. pose proof (valid_field_nospace s SP Hs Hin). unfold SP in *. lia. }
  assert (Hml0 : (0 < length m)%nat) by (destruct m; [done|simpl; lia]).
  assert (Hpl0 : (0 < length p)%nat) by (destruct p; [done|simpl; lia]).
  assert (Hcr : CR ∉ request_line m p).
  { unfold request_line. rewrite elem_of_app, elem_of_cons, elem_of_app, elem_of_cons.
    intros [H|[H|[H|[H|H]]]]; try done.
    - by apply (not_in_visible CR m false).
    - by apply (not_in_visible CR p false).
    - by apply version_no_cr. }
  set (eol := length (request_line m p)).
  assert (Heol : eol = (length m + 1 + (length p + 1 + VERSION_LEN))%nat).
  { unfold eol, request_line, VERSION_LEN. rewrite length_app. cbn [length]. rewrite length_app.
    cbn [length]. lia. }
  unfold htttp_parse_request.
  assert (find_crlf buf 0 = Some eol) as -> by exact (find_crlf_line [] (request_line m p) T Hcr).
  assert (scan_to buf SP 0 eol = length m) as ->.
  { pose proof (scan_to_app [] m SP (p ++ SP :: HTTTP_VERSION) (CRLF ++ T) eol (Hsp m Hm)) as H.
    unfold buf, request_line. repeat (rewrite <- app_assoc; simpl). rewrite <- app_assoc in H.
    apply H. cbn [length]. rewrite length_app. cbn [length]. unfold VERSION_LEN in Heol. lia. }
  rewrite (proj2 (Nat.eqb_neq _ 0)), (proj2 (Nat.leb_gt _ _)) by lia. cbn [orb].
  assert (slice buf 0 (length m) = m) as ->.
  { unfold buf, request_line. rewrite <- app_assoc. apply (slice_app [] m). }
  rewrite (copy_token_ok HTTTP_MAX_METHOD m) by (try done; by eapply not_in_visible). cbn [or_err mbind res_bind].
  assert (Hbuf2 : buf = (m ++ [SP]) ++ p ++ SP :: HTTTP_VERSION ++ CRLF ++ T).
  { unfold buf, request_line. repeat (rewrite <- app_assoc; simpl). done. }
  assert (Hm1 : (length m + 1)%nat = length (m ++ [SP])) by (rewrite length_app; done).
  assert (scan_to buf SP (length m + 1) eol = (length m + 1 + length p)%nat) as ->.
  { rewrite Hbuf2, Hm1. apply scan_to_app; [by apply Hsp|].
    rewrite Heol, length_app. unfold VERSION_LEN. cbn [length]. lia. }
  rewrite (proj2 (Nat.eqb_neq _ (length m + 1))), (proj2 (Nat.leb_gt _ _)) by lia. cbn [orb].
  assert (slice buf (length m + 1) (length m + 1 + length p) = p) as ->.
  { rewrite Hbuf2, Hm1. apply slice_app. }
  rewrite (copy_token_ok HTTTP_MAX_PATH p) by (try done; by eapply not_in_visible). cbn [or_err mbind res_bind].
  replace (eol - (length m + 1 + length p) - 1)%nat with VERSION_LEN by lia.
  rewrite Nat.eqb_refl.
  assert (slice buf (length m + 1 + length p + 1) (length m + 1 + length p + 1 + VERSION_LEN) = HTTTP_VERSION) as ->.
  { replace buf with ((m ++ SP :: p ++ [SP]) ++ HTTTP_VERSION ++ CRLF ++ T)
      by (rewrite Hbuf2; repeat (rewrite <- app_assoc; simpl); done).
    replace (length m + 1 + length p + 1)%nat with (length (m ++ SP :: p ++ [SP]))
      by (rewrite length_app; simpl; rewrite length_app; simpl; lia).
    apply slice_app. }
  rewrite bool_decide_true by done. cbn [negb orb].
  replace (length (request_line m p ++ CRLF)) with (eol + 2)%nat by (rewrite length_app; done).
  done.
Qed.

(** ** Round trips *)

(** A request as a caller builds it: its strings fit their arrays, its body is as
    long as it says. *)
Record request_wf (req : htttp_request) : Prop := {
  rq_method : (length (method req) < HTTTP_MAX_METHOD)%nat;
  rq_path : (length (path req) < HTTTP_MAX_PATH)%nat;
  rq_headers : Forall (fun h => (length (key h) < HTTTP_MAX_KEY)%nat /\
    (length (value h) < HTTTP_MAX_VALUE)%nat /\ (COLON ∉ key h)) (headers req);
  rq_len : 0 <= body_len req <= UINT32_MAX;
  rq_body : Z.of_nat (length (default [] (body req))) = body_len req
}.

Lemma kept_header_ok skip hs :
  Forall (fun h => key h <> [] /\ valid_field (key h) false = true /\ valid_field (value h) true = true)
    (kept_headers skip hs) ->
  Forall (fun h => (length (key h) < HTTTP_MAX_KEY)%nat /\
    (length (value h) < HTTTP_MAX_VALUE)%nat /\ (COLON ∉ key h)) hs ->
  Forall header_ok (kept_headers skip hs).
Proof.
  rewrite !list.Forall_forall. intros H1 H2 h Hh. destruct (H1 h Hh) as (? & ? & ?).
  apply list_elem_of_filter in Hh as [_ Hh]. destruct (H2 h Hh) as (? & ? & ?). by split_and!.
Qed.

Lemma serialized_request_parses req cap wire :
  request_wf req -> htttp_serialize_request req cap = Ok wire ->
  (length (kept_headers false (headers req) ++ length_header (body_len req)) <= HTTTP_MAX_HEADERS)%nat ->
  htttp_parse_request wire =
  Ok (mkRequest (method req) (path req)
        (kept_headers false (headers req) ++ length_header (body_len req))
        (body_of (body_len req) (body req)) (body_len req)).
Proof.
  intros [] Hser Hcount. unfold htttp_serialize_request in Hser.
  destruct (bool_decide (body req = None) && _) eqn:Hnull; [done|].
  destruct (bool_decide (method req = []) || _) eqn:Hne; [done|].
  destruct (negb _ || negb _) eqn:Hval; [done|].
  apply orb_false_iff in Hne as [Hm0%bool_decide_eq_false Hp0%bool_decide_eq_false].
  bool_arith. append_inv.
  apply emit_headers_inv in Hb5 as (-> & _ & Hval). apply emit_body_inv in Hser as ->.
  set (hs := kept_headers false (headers req)) in *. set (n := body_len req) in *.
  rewrite take_ge by lia.
  assert (Hwire : (((((((([] ++ method req) ++ [SP]) ++ path req) ++ [SP]) ++ HTTTP_VERSION) ++ CRLF) ++
    header_block hs) ++ header_block (length_header n) ++ CRLF ++ default [] (body req)) =
    request_line (method req) (path req) ++ CRLF ++
    header_block (hs ++ length_header n) ++ CRLF ++ default [] (body req)).
  { unfold request_line. rewrite header_block_app. repeat (rewrite <- app_assoc; simpl). done. }
  rewrite Hwire, parse_request_line by done.
  pose proof (parse_tail_back (request_line (method req) (path req) ++ CRLF) hs n (body req)) as Htail.
  rewrite <- app_assoc in Htail. rewrite Htail; [done| |apply kept_no_length|done|done|done|].
  - by apply kept_header_ok.
  - intros Hpos Hbn. rewrite Hbn, bool_decide_true, (proj2 (Z.ltb_lt _ _) Hpos) in Hnull by done. done.
Qed.

(** C14: A request that serializes parses back: the peer reads the same method and
    path, the same headers in the same order, with the library's own Content-Length,
    last, in place of any the caller gave, and the same body. Nothing in a field can
    forge a line, a header or a second message. The request's strings fit their arrays
    and its body is as long as it says; no header's key has a colon in it, and with
    the generated Content-Length there are at most 32 headers: beyond that a message
    serializes but does not parse. *)
Theorem request_roundtrip req cap wire :
  request_wf req -> htttp_serialize_request req cap = Ok wire ->
  (length (kept_headers false (headers req) ++ length_header (body_len req)) <= HTTTP_MAX_HEADERS)%nat ->
  htttp_parse_request wire =
  Ok (mkRequest (method req) (path req)
        (kept_headers false (headers req) ++ length_header (body_len req))
        (body_of (body_len req) (body req)) (body_len req)).
Proof. apply serialized_request_parses. Qed.

Lemma request_roundtrip_witness :
  exists wire, htttp_serialize_request join_request 65536 = Ok wire /\
    htttp_parse_request wire =
    Ok (mkRequest (bytes "JOIN") (bytes "/room/7")
          [mkHeader (bytes "Player-Id") (bytes "3"); mkHeader CONTENT_LENGTH (bytes "3")]
          (Some (bytes "ann")) 3).
Proof.
  destruct (htttp_serialize_request join_request 65536) as [wire|e] eqn:E; [|vm_compute in E; discriminate].
  exists wire. split; [reflexivity|].
  rewrite (request_roundtrip join_request 65536 wire); [reflexivity| |exact E|].
  - split.
    + vm_compute. lia.
    + unfold HTTTP_MAX_PATH. simpl. lia.
    + apply Forall_singleton. unfold HTTTP_MAX_VALUE. split_and!; [vm_compute; lia|simpl; lia|].
      apply (bool_decide_unpack (COLON ∉ bytes "Player-Id")). vm_compute. exact I.
    + simpl. unfold UINT32_MAX. lia.
    + reflexivity.
  - vm_compute. lia.
Defined.

Definition status_line (st reason : list Z) : list Z := HTTTP_VERSION ++ SP :: st ++ SP :: reason.

Lemma parse_response_line st v reason T :
  st <> [] -> forallb is_digit st = true -> parse_uint st = Ok v -> 100 <= v <= 599 -> CR ∉ reason ->
  htttp_parse_response (status_line st reason ++ CRLF ++ T) =
  ('(hs, b, n) ← parse_tail (status_line st reason ++ CRLF ++ T) (length (status_line st reason ++ CRLF));
   Ok (mkResponse v hs b n)).
Proof.
  intros Hst0 Hst Hv Hrange Hreason. set (buf := status_line st reason ++ CRLF ++ T).
  pose proof (digits_valid st Hst) as Hvis.
  assert (Hsp : SP ∉ st).
  { intros Hin. rewrite forallb_forall in Hst. apply list_elem_of_In in Hin. specialize (Hst _ Hin).
    unfold is_digit, SP in Hst. bool_arith. lia. }
  assert (Hl0 : (0 < length st)%nat) by (destruct st; [done|simpl; lia]).
  assert (Hcr : CR ∉ status_line st reason).
  { unfold status_line. rewrite elem_of_app, elem_of_cons, elem_of_app, elem_of_cons.
    intros [H|[H|[H|[H|H]]]]; try done.
    - by apply version_no_cr.
    - by apply (not_in_visible CR st true). }
  set (eol := length (status_line st reason)).
  assert (Heol : eol = (VERSION_LEN + 1 + (length st + 1 + length reason))%nat).
  { unfold eol, status_line, VERSION_LEN. rewrite length_app. cbn [length]. rewrite length_app.
    cbn [length]. lia. }
  unfold htttp_parse_response.
  assert (find_crlf buf 0 = Some eol) as -> by exact (find_crlf_line [] (status_line st reason) T Hcr).
  rewrite (proj2 (Nat.leb_gt eol VERSION_LEN)) by lia.
  assert (slice buf 0 VERSION_LEN = HTTTP_VERSION) as ->.
  { unfold buf, status_line. rewrite <- app_assoc. apply (slice_app [] HTTTP_VERSION). }
  rewrite bool_decide_true by done. cbn [orb negb].
  assert (Hbuf2 : buf = (HTTTP_VERSION ++ [SP]) ++ st ++ SP :: reason ++ CRLF ++ T).
  { unfold buf, status_line. repeat (rewrite <- app_assoc; simpl). done. }
  assert (aget 0 buf (Z.of_nat VERSION_LEN) = SP) as ->.
  { rewrite aget_nat, Hbuf2, <- app_assoc, lookup_app_r by (unfold VERSION_LEN; lia).
    unfold VERSION_LEN. by rewrite Nat.sub_diag. }
  cbn [Z.eqb Pos.eqb SP negb orb].
  assert (Hpre : (VERSION_LEN + 1)%nat = length (HTTTP_VERSION ++ [SP])) by (rewrite length_app; done).
  assert (scan_to buf SP (VERSION_LEN + 1) eol = (VERSION_LEN + 1 + length st)%nat) as ->.
  { rewrite Hbuf2, Hpre. apply scan_to_app; [done|]. rewrite Heol, <- Hpre. lia. }
  rewrite (proj2 (Nat.eqb_neq _ (VERSION_LEN + 1))), (proj2 (Nat.leb_gt _ _)) by lia. cbn [orb].
  assert (slice buf (VERSION_LEN + 1) (VERSION_LEN + 1 + length st) = st) as ->.
  { rewrite Hbuf2, Hpre. apply slice_app. }
  rewrite Hv, (proj2 (Z.ltb_ge v 100)), (proj2 (Z.ltb_ge 599 v)) by lia. cbn [orb].
  replace (length (status_line st reason ++ CRLF)) with (eol + 2)%nat by (rewrite length_app; done).
  done.
Qed.

Lemma reason_known st reason : htttp_reason st = Some reason -> 200 <= st <= 501 /\ CR ∉ reason.
Proof.
  unfold htttp_reason. intros H.
  repeat match type of H with
  | (if ?b then _ else _) = _ => destruct b eqn:?; [injection H as <-; bool_arith; split; [lia|];
      match goal with |- CR ∉ ?l => apply (bool_decide_unpack (CR ∉ l)); vm_compute; exact I end|]
  end. discriminate.
Qed.

Record response_wf (r : htttp_response) : Prop := {
  rs_headers : Forall (fun h => (length (key h) < HTTTP_MAX_KEY)%nat /\
    (length (value h) < HTTTP_MAX_VALUE)%nat /\ (COLON ∉ key h)) (res_headers r);
  rs_len : 0 <= res_body_len r <= UINT32_MAX;
  rs_body : Z.of_nat (length (default [] (res_body r))) = res_body_len r
}.

(** What [strftime] writes for a date: printable text that fits its buffer. *)
Definition date_ok (date : list Z) : Prop := valid_field date true = true /\ (length date < 48)%nat.

Lemma serialized_response_parses date r cap wire :
  response_wf r -> date_ok date -> htttp_serialize_response (Some date) r cap = Ok wire ->
  let hs := mkHeader DATE date :: kept_headers true (res_headers r) in
  (length (hs ++ length_header (res_body_len r)) <= HTTTP_MAX_HEADERS)%nat ->
  htttp_parse_response wire =
  Ok (mkResponse (status r) (hs ++ length_header (res_body_len r))
        (body_of (res_body_len r) (res_body r)) (res_body_len r)).
Proof.
  intros [] [Hdv Hdl] Hser hs Hcount. unfold htttp_serialize_response in Hser.
  destruct (bool_decide (res_body r = None) && _) eqn:Hnull; [done|].
  destruct (htttp_reason (status r)) as [reason|] eqn:Hreason; [|done].
  apply reason_known in Hreason as [Hst Hcr].
  destruct (decimal_digits (status r)) as (_ & Hdig & Hdlen); [unfold UINT32_MAX; lia|].
  case_match; [done|]. append_inv. apply emit_header_inv in Hb5 as ->.
  apply emit_headers_inv in Hb6 as (-> & _ & Hval). apply emit_body_inv in Hser as ->.
  set (n := res_body_len r) in *. rewrite take_ge by lia.
  match goal with |- htttp_parse_response ?w = _ => assert (Hwire : w =
    status_line (decimal (status r)) reason ++ CRLF ++
    header_block (hs ++ length_header n) ++ CRLF ++ default [] (res_body r)) end.
  { unfold status_line, hs. rewrite header_block_app. change (header_block (?h :: ?l)) with
      (header_line h ++ header_block l). repeat (rewrite <- app_assoc; simpl). done. }
  rewrite Hwire, (parse_response_line _ (status r)); [|intros E; rewrite E in Hdlen; simpl in Hdlen; lia|done|
    apply parse_uint_decimal; unfold UINT32_MAX; lia|lia|done].
  pose proof (parse_tail_back (status_line (decimal (status r)) reason ++ CRLF) hs n (res_body r)) as Htail.
  rewrite <- app_assoc in Htail. rewrite Htail; [done| | |done|done|done|].
  - constructor; [|by apply kept_header_ok]. unfold header_ok. cbn [key value]. split_and!; try done.
    + apply (bool_decide_unpack (COLON ∉ DATE)). vm_compute. exact I.
    + unfold HTTTP_MAX_KEY. simpl. lia.
    + unfold HTTTP_MAX_VALUE. lia.
  - constructor; [done|apply kept_no_length].
  - intros Hpos Hbn. rewrite Hbn, bool_decide_true, (proj2 (Z.ltb_lt _ _) Hpos) in Hnull by done. done.
Qed.

(** A response that serializes parses back: the client reads the same status
    and body, the generated Date first, and then the caller's headers in order
    without any Date or Content-Length of their own.  Only the statuses that have
    a phrase go out. *)
Theorem response_roundtrip date r cap wire :
  response_wf r -> date_ok date -> htttp_serialize_response (Some date) r cap = Ok wire ->
  let hs := mkHeader DATE date :: kept_headers true (res_headers r) in
  (length (hs ++ length_header (res_body_len r)) <= HTTTP_MAX_HEADERS)%nat ->
  htttp_parse_response wire =
  Ok (mkResponse (status r) (hs ++ length_header (res_body_len r))
        (body_of (res_body_len r) (res_body r)) (res_body_len r)).
Proof. apply serialized_response_parses. Qed.

Definition ok_response : htttp_response :=
  mkResponse 200 [mkHeader (bytes "Player-Id") (bytes "3")] (Some (bytes "joined")) 6.

Lemma response_roundtrip_witness :
  exists wire, htttp_serialize_response (Some (bytes "Mon, 01 Jan 2024 00:00:00 GMT")) ok_response 65536 = Ok wire /\
    htttp_parse_response wire =
    Ok (mkResponse 200 [mkHeader DATE (bytes "Mon, 01 Jan 2024 00:00:00 GMT");
          mkHeader (bytes "Player-Id") (bytes "3"); mkHeader CONTENT_LENGTH (bytes "6")]
          (Some (bytes "joined")) 6).
Proof.
  destruct (htttp_serialize_response (Some (bytes "Mon, 01 Jan 2024 00:00:00 GMT")) ok_response 65536)
    as [wire|e] eqn:E; [|vm_compute in E; discriminate].
  exists wire. split; [reflexivity|].
  rewrite (response_roundtrip (bytes "Mon, 01 Jan 2024 00:00:00 GMT") ok_response 65536 wire);
    [reflexivity| | |exact E|].
  - split.
    + apply Forall_singleton. unfold HTTTP_MAX_VALUE. split_and!; [vm_compute; lia|simpl; lia|].
      apply (bool_decide_unpack (COLON ∉ bytes "Player-Id")). vm_compute. exact I.
    + simpl. unfold UINT32_MAX. lia.
    + reflexivity.
  - split; [reflexivity|vm_compute; lia].
  - vm_compute. lia.
Defined.

(** ** What a parsed message can hold *)

(** A parsed header fits its arrays and ends at its terminator. *)
Definition header_fits (h : htttp_header) : Prop :=
  (0 < length (key h) < HTTTP_MAX_KEY)%nat /\ (length (value h) < HTTTP_MAX_VALUE)%nat /\
  (0 ∉ key h) /\ (0 ∉ value h).

Lemma find_crlf_at_bounds l i p :
  find_crlf_at l i = Some p -> (i <= p /\ p + 2 <= i + length l)%nat.
Proof.
  revert i. induction l as [|a l IH]; intros i; [done|]. destruct l as [|b l]; [done|].
  cbn [find_crlf_at]. case_match; [intros [= <-]; simpl; lia|]. intros H'%IH. simpl in *. lia.
Qed.

Lemma find_crlf_bounds buf from p :
  find_crlf buf from = Some p -> (from <= p /\ p + 2 <= length buf)%nat.
Proof. unfold find_crlf. intros H%find_crlf_at_bounds. rewrite length_drop in H. lia. Qed.

Lemma scan_for_bounds c l i : (i <= scan_for c l i <= i + length l)%nat.
Proof. revert i. induction l as [|x l IH]; intros i; simpl; [lia|]. case_match; [lia|]. specialize (IH (S i)). lia. Qed.

Lemma length_slice buf a b : (b <= length buf)%nat -> length (slice buf a b) = (b - a)%nat.
Proof. intros. unfold slice. rewrite length_take, length_drop. lia. Qed.

Lemma parse_headers_inv slots buf off hs off' hs' :
  parse_headers slots buf off hs = Ok (off', hs') ->
  (off' <= length buf)%nat /\
  exists new, hs' = hs ++ new /\ (length new <= slots)%nat /\ Forall header_fits new.
Proof.
  revert off hs. induction slots as [|slots IH]; intros off hs; cbn [parse_headers];
    (destruct (find_crlf buf off) as [eol|] eqn:Hcr; [|done]); apply find_crlf_bounds in Hcr;
    (case_match eqn:Heol; [intros [= <- <-]; apply Nat.eqb_eq in Heol; split; [lia|];
      exists []; rewrite app_nil_r; split_and!; [done|simpl; lia|constructor]|]);
    (case_match eqn:Hcolon; [done|]); [done|].
  intros (k & Hk & H)%res_bind_Ok. apply res_bind_Ok in H as (v & Hv & H).
  apply copy_token_inv in Hk as (-> & Hkl & Hk0). apply copy_token_inv in Hv as (-> & Hvl & Hv0).
  apply IH in H as (Hoff & new & -> & Hlen & Hnew). split; [done|].
  eexists (_ :: new). rewrite <- app_assoc. split_and!; [reflexivity|simpl; lia|].
  constructor; [|done]. unfold header_fits. cbn [key value]. split_and!; try done.
  apply orb_false_iff in Hcolon as [[[Hc0 Hc1]%orb_false_iff Hc2]%orb_false_iff _].
  apply Nat.eqb_neq in Hc0. apply Nat.leb_gt in Hc1.
  pose proof (scan_for_bounds COLON (slice buf off eol) off). unfold scan_to in *.
  rewrite length_slice by lia. lia.
Qed.

(** The tail's result: the headers fit, and the body is the rest of the buffer, as
    long as its declared length. *)
Definition tail_fits (hs : list htttp_header) (b : option (list Z)) (n : Z) (buf : list Z) : Prop :=
  (length hs <= HTTTP_MAX_HEADERS)%nat /\ Forall header_fits hs /\
  0 <= n <= UINT32_MAX /\ (exists pre, buf = pre ++ default [] b /\ n = Z.of_nat (length (default [] b))) /\
  (b = None <-> n = 0).

Lemma parse_uint_range s n : parse_uint s = Ok n -> 0 <= n <= UINT32_MAX.
Proof.
  unfold parse_uint. case_match; [done|]. case_match; [done|].
  intros (Hs & -> & Hb)%parse_uint_loop_inv; [|unfold UINT32_MAX; lia].
  split; [|done]. by apply (digits_value_mono s 0).
Qed.

Lemma parse_tail_inv buf off hs b n :
  parse_tail buf off = Ok (hs, b, n) -> tail_fits hs b n buf.
Proof.
  unfold parse_tail. intros ([off' hs'] & (Hoff & new & -> & Hlen & Hnew)%parse_headers_inv & H)%res_bind_Ok.
  set (rest := drop off' buf). assert (Hbuf : buf = take off' buf ++ rest) by (unfold rest; by rewrite take_drop).
  assert (Hrest : length rest = (length buf - off')%nat) by apply length_drop. rewrite <- Hrest in H.
  assert (Hnil : length rest = 0%nat -> buf = buf ++ []) by (by rewrite app_nil_r).
  destruct (htttp_header_get _ _) as [cl|].
  - destruct (parse_uint cl) as [d|] eqn:Hcl; [|done]. apply parse_uint_range in Hcl.
    destruct (Z.eqb_spec d (Z.of_nat (length rest))) as [Hd|]; [|done]. injection H as <- <- <-.
    unfold tail_fits. split_and!; try done; try lia; destruct (Nat.eqb_spec (length rest) 0) as [H0|H0].
    + exists buf. split; [by apply Hnil|]. simpl. lia.
    + by exists (take off' buf).
    + split; [intros _; lia|done].
    + split; [done|lia].
  - destruct (Nat.eqb_spec (length rest) 0) as [H0|H0]; [|done]. injection H as <- <- <-.
    unfold tail_fits. split_and!; try done; [unfold UINT32_MAX; lia..|].
    exists buf. split; [by apply Hnil|done].
Qed.

Lemma or_err_Ok {A} e (m : res A) a : or_err e m = Ok a -> m = Ok a.
Proof. destruct m; [|done]. done. Qed.

Lemma parsed_request_fits buf r :
  htttp_parse_request buf = Ok r ->
  (0 < length (method r) < HTTTP_MAX_METHOD)%nat /\ (0 < length (path r) < HTTTP_MAX_PATH)%nat /\
  (0 ∉ method r) /\ (0 ∉ path r) /\ tail_fits (headers r) (body r) (body_len r) buf.
Proof.
  unfold htttp_parse_request. destruct (find_crlf buf 0) as [eol|] eqn:Hcr; [|done].
  apply find_crlf_bounds in Hcr. case_match eqn:Hsp1; [done|].
  intros (m & Hm%or_err_Ok%copy_token_inv & H)%res_bind_Ok. destruct Hm as (-> & Hml & Hm0).
  case_match eqn:Hsp2; [done|].
  apply res_bind_Ok in H as (p & Hp%or_err_Ok%copy_token_inv & H). destruct Hp as (-> & Hpl & Hp0).
  case_match; [done|]. apply res_bind_Ok in H as ([[hs b] n] & Ht%parse_tail_inv & [= <-]).
  cbn [method path headers body body_len].
  apply orb_false_iff in Hsp1 as [Ha%Nat.eqb_neq Hb%Nat.leb_gt].
  apply orb_false_iff in Hsp2 as [Hc%Nat.eqb_neq Hd%Nat.leb_gt].
  pose proof (scan_for_bounds SP (slice buf (scan_to buf SP 0 eol + 1) eol) (scan_to buf SP 0 eol + 1)).
  set (s1 := scan_to buf SP 0 eol) in *. fold (scan_to buf SP (s1 + 1) eol) in *.
  rewrite !length_slice in * by lia. split_and!; (done || lia).
Qed.

Lemma parsed_response_fits buf r :
  htttp_parse_response buf = Ok r ->
  100 <= status r <= 599 /\ tail_fits (res_headers r) (res_body r) (res_body_len r) buf.
Proof.
  unfold htttp_parse_response. destruct (find_crlf buf 0) as [eol|]; [|done].
  case_match; [done|]. case_match; [done|]. destruct (parse_uint _) as [st|] eqn:Hst; [|done].
  destruct ((st <? 100) || (599 <? st)) eqn:Hr; [done|]. bool_arith.
  intros ([[hs b] n] & Ht%parse_tail_inv & [= <-])%res_bind_Ok. cbn. split; [lia|done].
Qed.

(** Whatever bytes arrive, a message the parser accepts fits the arrays it was
    copied into: the method, the path and every header key and value are shorter
    than their array and hold no terminator, there are at most 32 headers, and the
    body is the end of the buffer, exactly as long as the length it reports (absent
    when that is 0).  An accepted status is three digits. *)
Theorem parsed_messages_fit buf :
  (forall r, htttp_parse_request buf = Ok r ->
     (0 < length (method r) < HTTTP_MAX_METHOD)%nat /\ (0 < length (path r) < HTTTP_MAX_PATH)%nat /\
     (0 ∉ method r) /\ (0 ∉ path r) /\ tail_fits (headers r) (body r) (body_len r) buf) /\
  (forall r, htttp_parse_response buf = Ok r ->
     100 <= status r <= 599 /\ tail_fits (res_headers r) (res_body r) (res_body_len r) buf).
Proof. split; intros r; [apply parsed_request_fits|apply parsed_response_fits]. Qed.

(** The wire form of [join_request]. *)
Definition join_wire : list Z :=
  bytes "JOIN /room/7 HTTTP/1.0" ++ CRLF ++ bytes "Player-Id: 3" ++ CRLF ++
  bytes "Content-Length: 3" ++ CRLF ++ CRLF ++ bytes "ann".

Lemma parsed_messages_fit_witness :
  exists r, htttp_parse_request join_wire = Ok r /\ path r = bytes "/room/7" /\ (length (path r) < 256)%nat.
Proof.
  destruct (htttp_parse_request join_wire) as [r|] eqn:E; [|vm_compute in E; discriminate].
  exists r. split; [reflexivity|]. split; [|apply (proj1 (parsed_messages_fit join_wire) r E)].
  vm_compute in E. injection E as <-. reflexivity.
Defined.

(** ** Two messages that serialize but do not parse *)

Definition filler : htttp_header := mkHeader (bytes "X") (bytes "1").

Definition full_request : htttp_request :=
  mkRequest (bytes "JOIN") (bytes "/") (replicate 32 filler) (Some [97]) 1.
Definition full_response : htttp_response := mkResponse 200 (replicate 32 filler) None 0.
Definition colon_request : htttp_request :=
  mkRequest (bytes "JOIN") (bytes "/") [mkHeader [65; COLON; 66] (bytes "1")] None 0.

Definition send_request (req : htttp_request) : res htttp_request :=
  htttp_serialize_request req 65536 ≫= htttp_parse_request.

(** The serializers accept messages the parsers reject.  They check the
    caller's headers against the limit of 32 but not the line they add themselves
    (Content-Length, or Date in a response), and they accept a colon in a key, at
    which the parser ends the key. *)
Theorem serialized_but_unparsable :
  (exists w, htttp_serialize_request full_request 65536 = Ok w) /\
  send_request full_request = Err HTTTP_ERR_TOOLONG /\
  (htttp_serialize_response (Some (bytes "Mon, 01 Jan 2024 00:00:00 GMT")) full_response 65536
     ≫= htttp_parse_response) = Err HTTTP_ERR_TOOLONG /\
  (exists w, htttp_serialize_request colon_request 65536 = Ok w) /\
  send_request colon_request = Err HTTTP_ERR_MALFORMED.
Proof.
  assert (Hok : forall req, (if htttp_serialize_request req 65536 then true else false) = true ->
    exists w, htttp_serialize_request req 65536 = Ok w) by (intros req; case_match; [eauto|done]).
  split_and!; [apply Hok| | |apply Hok|]; vm_compute; reflexivity.
Qed.
