(* ===== verification/HtttpSends.v ===== *)
(** * HtttpSends: messages that do go out

    The serializers of core/src/libhtttp refuse nothing a peer could read: a message
    with printable fields that fits the buffer is sent, and read back. *)

From Stdlib Require Import String.
From stdpp Require Import options.
From S2P Require Import Prelude Text Htttp HtttpTheorems.
#[local] Open Scope Z_scope.

Lemma buf_append_ok cap out src : (length out + length src <= cap)%nat -> buf_append cap out src = Ok (out ++ src).
Proof.
  intros Hl. unfold buf_append. destruct (Nat.eqb_spec (length src) 0) as [E|E].
  - apply nil_length_inv in E as ->. by rewrite app_nil_r.
  - by rewrite (proj2 (Nat.ltb_ge _ _)) by lia.
Qed.

Lemma emit_header_ok cap out k v :
  (length out + length k + length v + 4 <= cap)%nat -> emit_header cap out k v = Ok (out ++ k ++ [COLON; SP] ++ v ++ CRLF).
Proof.
  intros Hl. unfold emit_header. rewrite buf_append_ok by lia. cbn [mbind res_bind].
  rewrite buf_append_ok by (rewrite length_app; simpl; lia). cbn [mbind res_bind].
  rewrite buf_append_ok by (rewrite !length_app; simpl; lia). cbn [mbind res_bind].
  rewrite buf_append_ok by (rewrite !length_app; simpl; lia). by rewrite <- !app_assoc.
Qed.

(** A header line the serializer writes as it is. *)
Definition header_goes (skip : bool) (h : htttp_header) : Prop :=
  ci_eq (key h) CONTENT_LENGTH = false /\ skip && ci_eq (key h) DATE = false /\
  key h <> [] /\ valid_field (key h) false = true /\ valid_field (value h) true = true.

Lemma emit_headers_ok cap out hs skip :
  Forall (header_goes skip) hs -> (length hs <= HTTTP_MAX_HEADERS)%nat -> (length out + length (header_block hs) <= cap)%nat ->
  emit_headers cap out hs skip = Ok (out ++ header_block hs).
Proof.
  intros Hhs Hn. unfold emit_headers. rewrite (proj2 (Nat.ltb_ge _ _)) by done. clear Hn. revert out.
  induction Hhs as [|h hs (Hcl & Hd & Hne & Hk & Hv) _ IH]; intros out Hl; cbn [emit_headers_loop]; [by rewrite app_nil_r|].
  assert (Hb : header_block (h :: hs) = header_line h ++ header_block hs) by done. rewrite Hb in *.
  rewrite Hcl, Hd, Hk, Hv, (bool_decide_false (key h = [])) by done. cbn [andb negb orb].
  unfold header_line in *. rewrite !length_app in Hl. simpl in Hl.
  rewrite emit_header_ok by lia. cbn [mbind res_bind].
  rewrite IH by (rewrite !length_app; simpl; lia). by rewrite <- !app_assoc.
Qed.

Lemma kept_all skip hs : Forall (header_goes skip) hs -> kept_headers skip hs = hs.
Proof.
  induction 1 as [|h hs (Hcl & Hd & _) _ IH]; [done|]. unfold kept_headers, kept in *. rewrite filter_cons_True; [by rewrite IH|].
  by rewrite Hcl, Hd.
Qed.

Lemma emit_body_goes cap out b n :
  0 <= n <= UINT32_MAX -> (length out + 36 + Z.to_nat n <= cap)%nat -> exists wire, emit_body cap out b n = Ok wire.
Proof.
  intros Hn Hl. unfold emit_body. pose proof (decimal_digits n Hn) as (_ & _ & Hd). destruct (Z.ltb_spec 0 n).
  - rewrite (proj2 (Nat.leb_gt _ _)) by lia.
    rewrite emit_header_ok by (change (length CONTENT_LENGTH) with 14%nat; lia). cbn [mbind res_bind].
    do 2 (rewrite buf_append_ok by (rewrite ?length_app, ?length_take; change (length CONTENT_LENGTH) with 14%nat; simpl; lia);
      cbn [mbind res_bind]). eauto.
  - cbn [mbind res_bind]. do 2 (rewrite buf_append_ok by (rewrite ?length_app, ?length_take; simpl; lia); cbn [mbind res_bind]). eauto.
Qed.

(** A request of printable fields goes out whole and is read back whole. *)
Lemma request_sends req cap :
  request_wf req -> Forall (header_goes false) (headers req) ->
  method req <> [] -> path req <> [] -> valid_field (method req) false = true -> valid_field (path req) false = true ->
  (length (headers req) < HTTTP_MAX_HEADERS)%nat ->
  (body req = None -> body_len req = 0) ->
  (Z.to_nat (body_len req) + length (method req) + length (path req) + length (header_block (headers req)) + 64 <= cap)%nat ->
  exists wire, htttp_serialize_request req cap = Ok wire /\
    htttp_parse_request wire = Ok (mkRequest (method req) (path req) (headers req ++ length_header (body_len req))
      (body_of (body_len req) (body req)) (body_len req)).
Proof.
  intros Hwf Hhs Hm0 Hp0 Hm Hp Hn Hnone Hl.
  assert (exists wire, htttp_serialize_request req cap = Ok wire) as [wire Hw].
  { unfold htttp_serialize_request. rewrite Hm, Hp, !(bool_decide_false (_ = [])) by done. cbn [negb orb].
    replace (bool_decide (body req = None) && (0 <? body_len req)) with false
      by (case_bool_decide as Hb; [by rewrite (Hnone Hb)|done]).
    do 6 (rewrite buf_append_ok by (rewrite ?length_app; simpl; lia); cbn [mbind res_bind]).
    rewrite emit_headers_ok by (done || (rewrite ?length_app; simpl; lia)). cbn [mbind res_bind].
    apply emit_body_goes; [by destruct Hwf|rewrite !length_app; simpl; lia]. }
  exists wire. split; [done|]. pose proof (serialized_request_parses req cap wire Hwf Hw) as Hpar.
  rewrite kept_all in Hpar by done. apply Hpar. rewrite length_app. unfold length_header. case_match; simpl; lia.
Qed.

(** So does a response with a status that has a phrase. *)
Lemma response_sends date r cap reason :
  response_wf r -> date_ok date -> Forall (header_goes true) (res_headers r) ->
  htttp_reason (status r) = Some reason -> (length reason <= 32)%nat -> (length (res_headers r) + 2 <= HTTTP_MAX_HEADERS)%nat ->
  (res_body r = None -> res_body_len r = 0) ->
  (Z.to_nat (res_body_len r) + length (header_block (res_headers r)) + 160 <= cap)%nat ->
  exists wire, htttp_serialize_response (Some date) r cap = Ok wire /\
    htttp_parse_response wire = Ok (mkResponse (status r) ((mkHeader DATE date :: res_headers r) ++ length_header (res_body_len r))
      (body_of (res_body_len r) (res_body r)) (res_body_len r)).
Proof.
  intros Hwf Hdate Hhs Hr Hrl Hn Hnone Hl. pose proof (reason_known _ _ Hr) as [Hst _].
  assert (Hlen : (length (decimal (status r)) <= 3)%nat).
  { unfold decimal. cbn [decimal_loop]. do 2 (case_match; [simpl; lia|]).
    rewrite (proj2 (Z.ltb_lt (status r / 10 / 10) 10)); [simpl; lia|]. do 2 (apply Z.div_lt_upper_bound; [lia|]). lia. }
  assert (exists wire, htttp_serialize_response (Some date) r cap = Ok wire) as [wire Hw].
  { unfold htttp_serialize_response. rewrite Hr. destruct Hdate as [_ Hdl].
    replace (bool_decide (res_body r = None) && (0 <? res_body_len r)) with false
      by (case_bool_decide as Hb; [by rewrite (Hnone Hb)|done]).
    rewrite (proj2 (Nat.leb_gt _ _)) by lia.
    do 6 (rewrite buf_append_ok by (rewrite ?length_app; simpl; lia); cbn [mbind res_bind]).
    rewrite emit_header_ok by (rewrite ?length_app; simpl; lia). cbn [mbind res_bind].
    rewrite emit_headers_ok by (done || lia || (rewrite ?length_app; simpl; lia)). cbn [mbind res_bind].
    apply emit_body_goes; [by destruct Hwf|rewrite !length_app; simpl; lia]. }
  exists wire. split; [done|]. pose proof (serialized_response_parses date r cap wire Hwf Hdate Hw) as Hpar.
  cbn zeta in Hpar. rewrite kept_all in Hpar by done. apply Hpar. rewrite length_app. unfold length_header. case_match; simpl; lia.
Qed.
