(* ===== verification/Rc.v ===== *)
(** * Rc: the configuration file

    Models core/src/libtetrisutil/rc.c: the lookup of a directive in .tetrishrc and
    its three readers.  The file's text is an input; reading it into memory and
    caching it are not modelled.  A reader's buffer is what was last written to it,
    if anything. *)

From Stdlib Require Import String.
From stdpp Require Import options.
From S2P Require Import Prelude Text Htttp.
#[local] Open Scope Z_scope.

Inductive rc_get_status := RC_VALUE_FOUND | RC_VALUE_ABSENT | RC_VALUE_INVALID | RC_NO_FILE | RC_OUT_NULL_POINTER.

#[global] Instance rc_get_status_eq_dec : EqDecision rc_get_status.
Proof. solve_decision. Defined.

(** ** Lines *)

Definition lstrip (s : list Z) : list Z := skip_spaces s.

Definition rstrip (s : list Z) : list Z := reverse (lstrip (reverse s)).

(** What comes before the first [c], and what after it if there is one. *)
Fixpoint cut_at (c : Z) (s : list Z) : list Z * option (list Z) :=
  match s with
  | [] => ([], None)
  | x :: s => if x =? c then ([], Some s) else let '(a, b) := cut_at c s in (x :: a, b)
  end.

(** [sizeof line]: PATH_MAX + 64. *)
Definition RC_LINE_MAX : nat := Z.to_nat 4160.

(** The assignment a line makes, if it is one. *)
Definition rc_line (at_ : list Z) : option (list Z * list Z) :=
  if (length at_ <? RC_LINE_MAX)%nat then
    let line := fst (cut_at 13 at_) in
    let name := lstrip line in
    match name, cut_at 61 name with
    | c :: _, (key, Some value) => if c =? 35 then None else Some (rstrip key, rstrip (lstrip value))
    | _, _ => None
    end
  else None.

(** [found] so far and the buffer of [cap] bytes. *)
Definition lookup_line (key : list Z) (cap : nat) (acc : rc_get_status * option (list Z)) (at_ : list Z)
    : rc_get_status * option (list Z) :=
  match rc_line at_ with
  | None => acc
  | Some (name, value) =>
      if negb (strcmp name key =? 0) then acc
      else if bool_decide (value = []) || (cap <=? length value)%nat then (RC_VALUE_INVALID, acc.2)
      else (RC_VALUE_FOUND, Some value)
  end.

(** The piece after a final line break, which the loop does not visit, is empty and
    assigns nothing. *)
Definition lookup (file : option (list Z)) (key : list Z) (cap : nat) (out : option (list Z)) : rc_get_status * option (list Z) :=
  match file with
  | None => (RC_NO_FILE, out)
  | Some content => foldl (lookup_line key cap) (RC_VALUE_ABSENT, out) (split_on 10 content)
  end.

(** ** Readers *)

(** The status and what the caller's buffer holds; [null] when there is none. *)
Definition rc_get (null : bool) (file : option (list Z)) (key : list Z) (fallback : option (list Z)) (cap : nat)
    (out : option (list Z)) : rc_get_status * option (list Z) :=
  if null then (RC_OUT_NULL_POINTER, out)
  else
    let '(found, out) := lookup file key cap out in
    match fallback with
    | Some f => if negb (bool_decide (found = RC_VALUE_FOUND)) then (found, Some (trunc cap f)) else (found, out)
    | None => (found, out)
    end.

Definition rc_get_int (null : bool) (file : option (list Z)) (key : list Z) (fallback lo hi : Z) (out : Z)
    : rc_get_status * Z :=
  if null then (RC_OUT_NULL_POINTER, out)
  else
    match lookup file key 64 None with
    | (RC_VALUE_FOUND, Some value) =>
        let '(n, rest) := strtol value in
        let n := Z.max (- LONG_MAX - 1) (Z.min LONG_MAX n) in
        if bool_decide (rest = value) || negb (bool_decide (rest = [])) || (n <? lo) || (hi <? n)
        then (RC_VALUE_INVALID, fallback)
        else (RC_VALUE_FOUND, long_to_int n)
    | (found, _) => (found, fallback)
    end.

(** [strcasecmp(a, b) == 0]. *)
Definition same_word (a b : list Z) : bool := ci_eq a b.

Definition yes : list (list Z) := [bytes "on"; bytes "yes"; bytes "true"; bytes "1"].
Definition no : list (list Z) := [bytes "off"; bytes "no"; bytes "false"; bytes "0"].

Fixpoint yes_or_no (words : list (list Z * list Z)) (value : list Z) : option Z :=
  match words with
  | [] => None
  | (y, n) :: words => if same_word value y then Some 1 else if same_word value n then Some 0 else yes_or_no words value
  end.

Definition rc_get_bool (null : bool) (file : option (list Z)) (key : list Z) (fallback out : Z) : rc_get_status * Z :=
  if null then (RC_OUT_NULL_POINTER, out)
  else
    match lookup file key 16 None with
    | (RC_VALUE_FOUND, Some value) =>
        match yes_or_no (zip yes no) value with
        | Some v => (RC_VALUE_FOUND, v)
        | None => (RC_VALUE_INVALID, fallback)
        end
    | (found, _) => (found, fallback)
    end.

(** ** What a reader is told *)

(** No line of [post] assigns [key]. *)
Definition silent (key : list Z) (post : list (list Z)) : Prop :=
  Forall (fun l => match rc_line l with Some (name, _) => name <> key | None => True end) post.

Lemma silent_foldl key cap post : forall acc, silent key post -> foldl (lookup_line key cap) acc post = acc.
Proof.
  induction post as [|l post IH]; intros acc H; [done|]. apply Forall_cons in H as [Hl Hp]. simpl. rewrite IH by done.
  unfold lookup_line. destruct (rc_line l) as [[name value]|]; [|done].
  destruct (Z.eqb_spec (strcmp name key) 0) as [E|]; [by apply strcmp_eq in E|done].
Qed.

(** The last line that assigns a directive decides, whatever came before it. *)
Lemma last_assignment_wins file pre l post key value cap out :
  split_on 10 file = pre ++ l :: post -> rc_line l = Some (key, value) -> silent key post ->
  value <> [] -> (length value < cap)%nat ->
  lookup (Some file) key cap out = (RC_VALUE_FOUND, Some value).
Proof.
  intros Hf Hl Hp Hv Hc. unfold lookup. rewrite Hf, foldl_app. cbn [foldl]. rewrite silent_foldl by done.
  unfold lookup_line. rewrite Hl, (proj2 (strcmp_eq key key)) by done. cbn [Z.eqb negb].
  by rewrite bool_decide_false, (proj2 (Nat.leb_gt _ _)) by done.
Qed.

(** A number read from the file is within the limits, or the fallback is used. *)
Lemma rc_get_int_range file key fallback lo hi out :
  INT_MIN <= lo -> hi <= INT_MAX ->
  let '(st, n) := rc_get_int false file key fallback lo hi out in
  st = RC_VALUE_FOUND /\ lo <= n <= hi \/ st <> RC_VALUE_FOUND /\ n = fallback.
Proof.
  intros Hlo Hhi. unfold rc_get_int. destruct (lookup file key 64 None) as [st [value|]] eqn:E.
  - destruct st; try (by right). destruct (strtol value) as [n rest].
    set (n' := Z.max _ _). destruct (_ || (hi <? n')) eqn:Eb; [by right|]. left. split; [done|].
    apply orb_false_iff in Eb as [[_ H1]%orb_false_iff H2]. bool_arith.
    unfold INT_MIN, INT_MAX in *. unfold long_to_int. rewrite Z.min_r, Z.max_r by (unfold LONG_MAX; lia).
    unfold to_int. rewrite Z.mod_small by lia. lia.
  - destruct st; try (by right). exfalso. unfold lookup in E. destruct file as [content|]; [|done].
    revert E. cut (forall ls acc, (acc.1 = RC_VALUE_FOUND -> is_Some acc.2) -> forall acc', foldl (lookup_line key 64) acc ls = acc' ->
      acc'.1 = RC_VALUE_FOUND -> is_Some acc'.2).
    { intros H E. destruct (H _ (RC_VALUE_ABSENT, None) ltac:(done) _ E eq_refl). done. }
    induction ls as [|l ls IH]; intros acc Hacc acc' <-; [done|]. simpl. intros H. eapply IH; [|reflexivity|done].
    unfold lookup_line. repeat case_match; simpl; eauto; done.
Qed.
