(* ===== verification/LogMsg.v ===== *)
(** * LogMsg: the sending end of the log

    Models core/src/libtetrisutil/logmsg.c: the record a process sends to tetrislogd
    over a datagram socket without ever waiting, and the count of what it had to drop,
    which travels with the next record that gets through.  Connecting and sending come
    from outside, and so does the text [vsnprintf] makes of a format.  Several threads
    share the sender: one holds its lock at a time, the others give up and count a
    drop; [others] is how many did while the lock was held. *)

From Stdlib Require Import String.
From stdpp Require Import options.
From S2P Require Import Prelude AdminMsg Text Layout Htttp Rc.
#[local] Open Scope Z_scope.

(** ** logmsg.h *)

Definition LOG_MSG_MAX : nat := 256.

(** [log_level_t]; a record from the wire may hold any code. *)
Definition LOG_INFO : Z := 0.
Definition LOG_WARN : Z := 1.
Definition LOG_ERROR : Z := 2.
Definition LOG_DEBUG : Z := 3.

(** [lm_msg] is the array. *)
Record log_msg := mkLogMsg { lm_pid : Z; lm_level : Z; lm_dropped : Z; lm_msg : list Z }.

(** [unsigned long] and [char a[n]]. *)
Definition ulong_layout : layout Z := mkLayout 8 (fun v => le_bytes 8 (u64 v)) le_value (fun v => 0 <= v <= ULONG_MAX).

Definition chars_layout (n : nat) : layout (list Z) :=
  mkLayout n (fun a => a) (take n) (fun a => length a = n /\ Forall (fun c => 0 <= c <= 255) a).

#[export] Instance ulong_lawful : Lawful ulong_layout.
Proof.
  split; intros v Hv; cbn [image load sizeof lok ulong_layout] in *; [apply length_le_bytes|apply le_bytes_range|].
  rewrite le_value_bytes; [by apply u64_small|]. pose proof (u64_range v). unfold ULONG_MAX in *.
  change (256 ^ Z.of_nat 8) with 18446744073709551616. lia.
Qed.

#[export] Instance chars_lawful n : Lawful (chars_layout n).
Proof. split; intros a [Hl Hb]; cbn [image load sizeof chars_layout]; [done|done|]. by rewrite take_ge by lia. Qed.

Definition log_msg_layout : layout log_msg :=
  struct_layout (fun '(p, (l, (d, m))) => mkLogMsg p l d m) (fun m => (lm_pid m, (lm_level m, (lm_dropped m, lm_msg m))))
    (pair_layout int_layout (pair_layout unsigned_layout (pair_layout ulong_layout (chars_layout LOG_MSG_MAX)))).

#[export] Instance log_msg_lawful : Lawful log_msg_layout.
Proof. apply struct_lawful; [by intros []|apply _]. Qed.

(** ** Levels *)

Definition log_level_rank (level : Z) : Z :=
  if level =? LOG_DEBUG then 0
  else if level =? LOG_INFO then 1
  else if level =? LOG_WARN then 2
  else if level =? LOG_ERROR then 3
  else 4.

Definition level_names : list (list Z * Z) :=
  [(bytes "info", LOG_INFO); (bytes "warn", LOG_WARN); (bytes "error", LOG_ERROR); (bytes "debug", LOG_DEBUG)].

(** [None] is the return value -1. *)
Definition log_level_parse (name : option (list Z)) : option Z :=
  name ← name; '(_, e) ← list_find (fun e => same_word name e.1 = true) level_names; Some e.2.

(** ** The sender *)

Record sender := mkSender {
  g_connected : bool; g_path : list Z; g_dropped : Z; g_unreported : Z; g_max_attempts : Z }.

Definition no_sender : sender := mkSender false [] 0 0 0.

Definition set_connected (b : bool) (s : sender) : sender :=
  mkSender b (g_path s) (g_dropped s) (g_unreported s) (g_max_attempts s).

(** [None] is the return value -1. *)
Definition sender_connect_socket (ok : bool) (s : sender) : option sender :=
  if bool_decide (g_path s = []) then None else if ok then Some (set_connected true s) else None.

Definition sender_disconnect_socket (s : sender) : sender := set_connected false s.

Definition drop_one (s : sender) : sender :=
  mkSender (g_connected s) (g_path s) (u64 (g_dropped s + 1))
    (if g_unreported s <? ULONG_MAX then g_unreported s + 1 else g_unreported s) (g_max_attempts s).

Fixpoint drop_many (n : nat) (s : sender) : sender :=
  match n with O => s | S n => drop_many n (drop_one s) end.

(** [atomic_fetch_sub(&glb_unreported, n)]. *)
Definition report_dropped (n : Z) (s : sender) : sender :=
  mkSender (g_connected s) (g_path s) (g_dropped s) (u64 (g_unreported s - n)) (g_max_attempts s).

(** A [send]: the whole record, the peer went away, any other failure. *)
Inductive send_result := SendWhole | SendGone | SendFails.

(** What a call finds: the lock, the outcomes of its connections and sends, and the
    calls of other threads that gave up meanwhile. *)
Record weather := mkWeather {
  w_locked : bool; w_connect : nat -> bool; w_send : nat -> send_result; w_others : nat }.

(** Attempts [i .. i + k - 1]; whether the record went out, and the sender. *)
Fixpoint send_loop (w : weather) (i k : nat) (s : sender) : bool * sender :=
  match k with
  | O => (false, s)
  | S k =>
      match w_send w i with
      | SendWhole => (true, s)
      | SendFails => (false, s)
      | SendGone =>
          match sender_connect_socket (w_connect w (S i)) (sender_disconnect_socket s) with
          | Some s => send_loop w (S i) k s
          | None => (false, sender_disconnect_socket s)
          end
      end
  end.

Definition log_record (pid level dropped : Z) (text : list Z) : log_msg :=
  let t := trunc LOG_MSG_MAX (cstr text) in mkLogMsg pid level dropped (t ++ replicate (LOG_MSG_MAX - length t) 0).

(** [text] is what the format yields, [None] for a format that is [NULL].  The return
    value, the record that went out and the sender. *)
Definition log_vsend (w : weather) (pid level : Z) (text : option (list Z)) (s : sender) : Z * option log_msg * sender :=
  match text with
  | None => (-1, None, drop_one s)
  | Some text =>
      if negb (w_locked w) then (-1, None, drop_one s)
      else
        let m := log_record pid level (g_unreported s) text in
        match (if g_connected s then Some s else sender_connect_socket (w_connect w 0%nat) s) with
        | None => (-1, None, drop_one (drop_many (w_others w) s))
        | Some s =>
            let '(sent, s) := send_loop w 0 (Z.to_nat (g_max_attempts s)) s in
            let s := drop_many (w_others w) s in
            if sent then (0, Some m, report_dropped (lm_dropped m) s) else (-1, None, drop_one s)
        end
  end.

Definition exit_text (n : Z) : list Z := bytes "sender exiting with " ++ decimal_ll n ++ bytes " dropped records".

Definition log_close (w : weather) (pid : Z) (s : sender) : option log_msg * sender :=
  let '(_, m, s) := if 0 <? g_unreported s then log_vsend w pid LOG_WARN (Some (exit_text (g_unreported s))) s else (0, None, s) in
  (m, sender_disconnect_socket s).

Definition SUN_PATH_MAX : nat := 108.

(** [rc] is the configuration file, [w] what the closing call of the previous
    connection finds, [ok] whether the new one can be made. *)
Definition log_open (w : weather) (pid : Z) (rc : option (list Z)) (path : list Z) (ok : bool) (s : sender)
    : Z * option log_msg * sender :=
  if bool_decide (path = []) then (-1, None, s)
  else if (SUN_PATH_MAX <=? length path)%nat then (-1, None, s)
  else
    let '(m, s) := log_close w pid s in
    let s := mkSender (g_connected s) path (g_dropped s) (g_unreported s)
               (rc_get_int false rc (bytes "log_send_attempts") 2 1 1000 (g_max_attempts s)).2 in
    match sender_connect_socket ok s with Some s => (0, m, s) | None => (-1, m, s) end.
