(* ===== verification/Logd.v ===== *)
(** * Logd: the log daemon

    Models core/src/tetrislogd/logger.c above its sockets and files, and config.c: a
    datagram becomes a line of the log file and a row of the database, or is counted;
    the counters are summarised.  From outside come what [recvfrom] yields, the clock
    and the text [strftime] makes of it, whether a line can be written, whether the log
    can be reopened, and what the database's worker thread does meanwhile.  The lines
    written since the daemon started are its output, whatever files they went to; the
    copies on stderr are not modelled. *)

From Stdlib Require Import String.
From stdpp Require Import options.
From S2P Require Import Prelude Text Layout Htttp Rc DbRows DbQueue LogMsg.
#[local] Open Scope Z_scope.

(** ** logger.h *)

Definition LOGD_DROP_CLAIM_MAX : Z := 16777216.
Definition LOGD_DRAIN_MAX : nat := Z.to_nat 100000.
Definition LOGD_DB_STRING_MAX : nat := 128.

Record logd_opts := mkOpts {
  o_socket_path : list Z; o_log_path : list Z; o_min_level : Z; o_summary_secs : Z;
  o_db_enable : bool; o_db_dir : list Z; o_queue_cap : nat }.

Record logd_stats := mkStats {
  n_received : Z; n_filtered : Z; n_malformed : Z; n_truncated : Z; n_dropped : Z; n_db_dropped : Z; n_db_errors : Z }.

Definition zero_stats : logd_stats := mkStats 0 0 0 0 0 0 0.

Definition inc_received (s : logd_stats) : logd_stats :=
  mkStats (u64 (n_received s + 1)) (n_filtered s) (n_malformed s) (n_truncated s) (n_dropped s) (n_db_dropped s) (n_db_errors s).
Definition inc_filtered (s : logd_stats) : logd_stats :=
  mkStats (n_received s) (u64 (n_filtered s + 1)) (n_malformed s) (n_truncated s) (n_dropped s) (n_db_dropped s) (n_db_errors s).
Definition inc_malformed (s : logd_stats) : logd_stats :=
  mkStats (n_received s) (n_filtered s) (u64 (n_malformed s + 1)) (n_truncated s) (n_dropped s) (n_db_dropped s) (n_db_errors s).
Definition inc_truncated (s : logd_stats) : logd_stats :=
  mkStats (n_received s) (n_filtered s) (n_malformed s) (u64 (n_truncated s + 1)) (n_dropped s) (n_db_dropped s) (n_db_errors s).
Definition add_claim (n : Z) (s : logd_stats) : logd_stats :=
  mkStats (n_received s) (n_filtered s) (n_malformed s) (n_truncated s) (u64 (n_dropped s + n)) (n_db_dropped s) (n_db_errors s).

Record logd_mirror := mkMirror { m_db : option db; m_next_id : Z }.

Record logd_summary_window := mkWindow { w_opened : Z; w_at_open : logd_stats }.

(** ** The database *)

Fixpoint seed_loop (after_rule : bool) (lines : list (list Z)) : Z :=
  match lines with
  | [] => 1
  | line :: lines =>
      let p := join_on NL (line :: lines) in
      if after_rule then
        let '(v, e) := strtol p in
        if negb (bool_decide (e = p)) && (0 <=? v) then Z.min LONG_MAX v + 1 else seed_loop true lines
      else seed_loop (bool_decide (take 3 line = [DASH; DASH; DASH])) lines
  end.

(** The loop looks at the text from each line's start on. *)
Definition db_seed_id (body : list Z) : Z := seed_loop false (split_on NL body).

(** [table] is the outcome of [db_ensure_table], the rest those of [db_start]. *)
Definition open_db (opts : logd_opts) (table spawned : bool) (probe : reply) (body : list Z) : logd_mirror :=
  if negb (o_db_enable opts) then mkMirror None 1
  else if negb table then mkMirror None 1
  else match db_start (o_queue_cap opts) spawned (Some probe) with
       | None => mkMirror None 1
       | Some d => mkMirror (Some d) (db_seed_id body)
       end.

Definition log_level_to_str (level : Z) : list Z :=
  if level =? LOG_INFO then bytes "INFO "
  else if level =? LOG_WARN then bytes "WARN "
  else if level =? LOG_ERROR then bytes "ERROR"
  else if level =? LOG_DEBUG then bytes "DEBUG"
  else bytes "?????".

Fixpoint strip_padding (s : list Z) : list Z :=
  match s with
  | [] => []
  | c :: s => match strip_padding s with [] => if c =? 32 then [] else [c] | t => c :: t end
  end.

Definition remove_level_word_padding (level : Z) (cap : nat) : list Z := strip_padding (trunc cap (log_level_to_str level)).

Definition insert_row (id pid now : Z) (q_status q_text : list Z) : list Z :=
  trunc (LOGD_DB_STRING_MAX * 2 + 256)
    (bytes "insert into log values (" ++ decimal_ll id ++ bytes ", " ++ decimal_int pid ++ bytes ", " ++ decimal_ll now ++
     bytes ", " ++ q_status ++ bytes ", " ++ q_text ++ bytes ");").

(** [copied]: [db_submit] could duplicate the statement. *)
Definition mirror_log_to_db (copied : bool) (mi : logd_mirror) (m : log_msg) (now : Z) : logd_mirror :=
  match m_db mi with
  | None => mi
  | Some d =>
      let status := remove_level_word_padding (lm_level m) 16 in
      let text := trunc (LOGD_DB_STRING_MAX + 1) (cstr (lm_msg m)) in
      let sql := insert_row (m_next_id mi) (lm_pid m) now (db_quote (16 * 2 + 3) status)
                   (db_quote ((LOGD_DB_STRING_MAX + 1) * 2 + 3) text) in
      mkMirror (db_submit copied (Some d) sql).2 (m_next_id mi + 1)
  end.

(** ** Writing *)

(** What a line finds: the time, the text of it, whether it can be written, and
    whether memory for its statement can be had. *)
Record moment := mkMoment { t_now : Z; t_stamp : list Z; t_written : bool; t_copied : bool }.

Definition log_line (stamp : list Z) (m : log_msg) : list Z :=
  bytes "[" ++ stamp ++ bytes "] [" ++ log_level_to_str (lm_level m) ++ bytes "] pid=" ++ decimal_int (lm_pid m) ++
  bytes ": " ++ cstr (lm_msg m) ++ [NL].

(** [None] is the return value -1; otherwise the line and the mirror. *)
Definition emit (t : moment) (mi : logd_mirror) (m : log_msg) : option (list Z * logd_mirror) :=
  if negb (t_written t) then None
  else Some (log_line (t_stamp t) m, mirror_log_to_db (t_copied t) mi m (t_now t)).

Definition emit_self (t : moment) (pid : Z) (mi : logd_mirror) (level : Z) (text : list Z) : option (list Z * logd_mirror) :=
  emit t mi (log_record pid level 0 text).

Definition sanitise_char (c : Z) : Z := if (c <? 32) || (c =? 127) then 46 else c.

(** The array, up to its terminator. *)
Fixpoint sanitise (s : list Z) : list Z :=
  match s with
  | [] => []
  | c :: s => if c =? 0 then c :: s else sanitise_char c :: sanitise s
  end.

(** ** Reading *)

Inductive received := RecvNothing | RecvFails | RecvData (datagram : list Z).

Record logd := mkLogd { l_mirror : logd_mirror; l_stats : logd_stats; l_lines : list (list Z) }.

Definition SIZEOF_LOG_MSG : nat := sizeof log_msg_layout.

(** [memchr(msg, '\0', sizeof msg)]: the terminator is put where there is none. *)
Definition terminate (m : log_msg) (s : logd_stats) : log_msg * logd_stats :=
  if bool_decide (0 ∈ lm_msg m) then (m, s)
  else (mkLogMsg (lm_pid m) (lm_level m) (lm_dropped m) (take (LOG_MSG_MAX - 1) (lm_msg m) ++ [0]), inc_truncated s).

(** The return value -1, 0 or 1, and the daemon.  The receiving buffer is one byte
    longer than a record. *)
Definition serve_one (opts : logd_opts) (t : moment) (r : received) (l : logd) : Z * logd :=
  match r with
  | RecvNothing => (0, l)
  | RecvFails => (-1, l)
  | RecvData d =>
      let raw := take (S SIZEOF_LOG_MSG) d in
      let st := l_stats l in
      if negb (length raw =? SIZEOF_LOG_MSG)%nat then (1, mkLogd (l_mirror l) (inc_malformed st) (l_lines l))
      else
        let m := load log_msg_layout raw in
        let st := if LOGD_DROP_CLAIM_MAX <? lm_dropped m then inc_malformed st else add_claim (lm_dropped m) st in
        let '(m, st) := terminate m st in
        let m := mkLogMsg (lm_pid m) (lm_level m) (lm_dropped m) (sanitise (lm_msg m)) in
        let unknown := log_level_rank LOG_ERROR <? log_level_rank (lm_level m) in
        let st := if unknown then inc_malformed st else st in
        if negb unknown && (log_level_rank (lm_level m) <? log_level_rank (o_min_level opts))
        then (1, mkLogd (l_mirror l) (inc_filtered st) (l_lines l))
        else
          match emit t (l_mirror l) m with
          | None => (-1, mkLogd (l_mirror l) st (l_lines l))
          | Some (line, mi) => (1, mkLogd mi (inc_received st) (l_lines l ++ [line]))
          end
  end.

(** ** Summaries *)

Definition db_snapshot (mi : logd_mirror) (s : logd_stats) : logd_stats :=
  mkStats (n_received s) (n_filtered s) (n_malformed s) (n_truncated s) (n_dropped s) (get_db_dropped (m_db mi)) (get_db_errors (m_db mi)).

Definition stats_sub (a b : logd_stats) : logd_stats :=
  mkStats (u64 (n_received a - n_received b)) (u64 (n_filtered a - n_filtered b)) (u64 (n_malformed a - n_malformed b))
    (u64 (n_truncated a - n_truncated b)) (u64 (n_dropped a - n_dropped b)) (u64 (n_db_dropped a - n_db_dropped b))
    (u64 (n_db_errors a - n_db_errors b)).

Definition stats_text (d : logd_stats) : list Z :=
  bytes "received=" ++ decimal_ll (n_received d) ++ bytes " filtered=" ++ decimal_ll (n_filtered d) ++ bytes " malformed=" ++
  decimal_ll (n_malformed d) ++ bytes " truncated=" ++ decimal_ll (n_truncated d) ++ bytes " dropped=" ++ decimal_ll (n_dropped d) ++
  bytes " db_dropped=" ++ decimal_ll (n_db_dropped d) ++ bytes " db_errors=" ++ decimal_ll (n_db_errors d).

Definition trouble (d : logd_stats) : bool :=
  negb (n_malformed d =? 0) || negb (n_truncated d =? 0) || negb (n_dropped d =? 0) || negb (n_db_dropped d =? 0) || negb (n_db_errors d =? 0).

(** The status -1 or 0, the daemon and the window; [now] is the clock at the call, [t]
    what its line finds. *)
Definition summarise (opts : logd_opts) (t : moment) (pid now : Z) (l : logd) (w : logd_summary_window)
    : Z * logd * logd_summary_window :=
  if o_summary_secs opts <=? 0 then (0, l, w)
  else if now - w_opened w <? o_summary_secs opts
  then (0, l, if now <? w_opened w then mkWindow now (w_at_open w) else w)
  else
    let cur := db_snapshot (l_mirror l) (l_stats l) in
    let d := stats_sub cur (w_at_open w) in
    let elapsed := to_int (now - w_opened w) in
    let w := mkWindow now cur in
    if (n_received d =? 0) && (n_filtered d =? 0) && negb (trouble d) then (0, l, w)
    else
      let level := if trouble d then LOG_WARN else LOG_INFO in
      match emit_self t pid (l_mirror l) level (trunc LOG_MSG_MAX (stats_text d ++ bytes " in last " ++ decimal_int elapsed ++ bytes "s")) with
      | None => (-1, l, w)
      | Some (line, mi) => (0, mkLogd mi (l_stats l) (l_lines l ++ [line]), w)
      end.

(** ** The daemon's life *)

(** The worker thread takes and runs statements, [runs] their outcomes. *)
Fixpoint work (runs : list ((nat -> reply) * (nat -> bool))) (d : db) : db :=
  match runs with
  | [] => d
  | r :: runs => match dequeue d with Some (Some _, d) => work runs (execute r.1 r.2 d).2 | _ => d end
  end.

Definition worked (runs : list ((nat -> reply) * (nat -> bool))) (l : logd) : logd :=
  mkLogd (mkMirror (work runs <$> m_db (l_mirror l)) (m_next_id (l_mirror l))) (l_stats l) (l_lines l).

Definition self_line (t : moment) (pid level : Z) (text : list Z) (l : logd) : logd :=
  match emit_self t pid (l_mirror l) level text with
  | None => l
  | Some (line, mi) => mkLogd mi (l_stats l) (l_lines l ++ [line])
  end.

(** One turn of the loop: what the worker did before it; a hangup signal, which has the
    configuration read again, with whether the file could be reopened; what was
    received; the clock. *)
Record turn := mkTurn {
  u_work : list ((nat -> reply) * (nat -> bool)); u_reopen : option (logd_opts * bool * moment);
  u_recv : received; u_moment : moment; u_now : Z; u_summary : moment }.

Definition reread (u : turn) (opts : logd_opts) : logd_opts := match u_reopen u with Some (o, _, _) => o | None => opts end.

(** Whether the loop goes on, with the daemon and the window. *)
Definition logd_turn (opts : logd_opts) (pid : Z) (u : turn) (l : logd) (w : logd_summary_window)
    : bool * logd * logd_summary_window :=
  let l := worked (u_work u) l in
  let l := match u_reopen u with
           | Some (_, true, t) => self_line t pid LOG_INFO (bytes "log file reopened (SIGHUP)") l
           | _ => l
           end in
  let '(r, l) := serve_one opts (u_moment u) (u_recv u) l in
  if r <? 0 then (false, l, w)
  else let '(r, l, w) := summarise opts (u_summary u) pid (u_now u) l w in (negb (r <? 0), l, w).

(** The turns up to the stop signal; whether the loop ended by it. *)
Fixpoint logd_loop (opts : logd_opts) (pid : Z) (us : list turn) (l : logd) (w : logd_summary_window) : bool * logd_opts * logd :=
  match us with
  | [] => (true, opts, l)
  | u :: us =>
      let opts := reread u opts in
      let '(go, l, w) := logd_turn opts pid u l w in if go then logd_loop opts pid us l w else (false, opts, l)
  end.

(** What is queued when the signal comes, at most [k] records; the status. *)
Fixpoint drain (opts : logd_opts) (k : nat) (rs : list (received * moment)) (l : logd) : Z * logd :=
  match k, rs with
  | O, _ | _, [] => (0, l)
  | S k, (r, t) :: rs =>
      let '(c, l) := serve_one opts t r l in
      if c =? 1 then drain opts k rs l else (if c <? 0 then -1 else 0, l)
  end.

Definition start_banner (opts : logd_opts) (on : bool) : list Z :=
  trunc LOG_MSG_MAX (bytes "tetrislogd started: socket=" ++ o_socket_path opts ++ bytes " level>=" ++
    remove_level_word_padding (o_min_level opts) 16 ++ bytes " summary=" ++ decimal_int (o_summary_secs opts) ++ bytes "s db=" ++
    (if on then o_db_dir opts else bytes "off")).

(** The socket and the file, the database, the first line, the turns, what is drained
    after them, the last line and the worker's end. *)
Record life := mkLife {
  f_bound : bool; f_opened : bool; f_table : bool; f_spawned : bool; f_probe : reply; f_body : list Z;
  f_first : moment; f_start : Z; f_turns : list turn; f_drain : list (received * moment); f_last : moment;
  f_end : nat -> (nat -> reply) * (nat -> bool) }.

(** The status, the counters handed back and the lines written. *)
Definition logd_run (opts : logd_opts) (pid : Z) (f : life) : option (Z * logd_stats * list (list Z)) :=
  if negb (f_bound f) then Some (-1, zero_stats, [])
  else if negb (f_opened f) then Some (-1, zero_stats, [])
  else
    let mi := open_db opts (f_table f) (f_spawned f) (f_probe f) (f_body f) in
    let l := self_line (f_first f) pid LOG_INFO (start_banner opts (bool_decide (is_Some (m_db mi)))) (mkLogd mi zero_stats []) in
    let w := mkWindow (f_start f) (db_snapshot (l_mirror l) (l_stats l)) in
    let '(stopped, opts, l) := logd_loop opts pid (f_turns f) l w in
    let '(rc, l) := if stopped then drain opts LOGD_DRAIN_MAX (f_drain f) l else (-1, l) in
    let st := db_snapshot (l_mirror l) (l_stats l) in
    let l := self_line (f_last f) pid LOG_INFO (trunc LOG_MSG_MAX (bytes "tetrislogd stopping: " ++ stats_text st)) l in
    '(dropped, errors) ← db_stop (f_end f) 0 (m_db (l_mirror l));
    Some (rc, mkStats (n_received st) (n_filtered st) (n_malformed st) (n_truncated st) (n_dropped st) dropped errors, l_lines l).

(** ** config.c *)

Definition PATH_MAX : nat := Z.to_nat 4096.
Definition MAX_IPC_PATH : nat := 108.

(** [rc] is the configuration file; the paths of the jar and of java are left out.
    [None] is the return value -1. *)
Definition config (rc : option (list Z)) : option logd_opts :=
  match rc_get false rc (bytes "log_path") None PATH_MAX None, rc_get false rc (bytes "log_ipc") None MAX_IPC_PATH None with
  | (RC_VALUE_FOUND, Some log_path), (RC_VALUE_FOUND, Some socket_path) =>
      let dir := default [] (rc_get false rc (bytes "log_db_dir") (Some (bytes "var/db_log")) PATH_MAX None).2 in
      let secs := (rc_get_int false rc (bytes "log_summary_secs") 30 0 3600 0).2 in
      let enable := (rc_get_bool false rc (bytes "db") 0 0).2 in
      let cap := (rc_get_int false rc (bytes "log_db_queue") 256 1 INT_MAX 0).2 in
      let level := (rc_get false rc (bytes "log_level") (Some (bytes "info")) 16 None).2 in
      Some (mkOpts socket_path log_path (match log_level_parse level with Some v => v | None => LOG_INFO end) secs
              (negb (enable =? 0)) dir (Z.to_nat cap))
  | _, _ => None
  end.
