(* ===== verification/LogTail.v ===== *)
(** * LogTail: the log on the operator's screen

    Models tetriSH/src/tetrisctl/ctl_logtail.c: a ring of the last lines of the log
    file, read a piece at each tick, across truncation and rotation.  The file system
    is what a tick finds: which file is at the path, and what each file holds; it does
    not change during the tick. *)

From Stdlib Require Import String.
From stdpp Require Import options.
From S2P Require Import Prelude Text.
#[local] Open Scope Z_scope.

Definition LOGTAIL_RING_LINES : nat := 200.
Definition LOGTAIL_LINE_LEN : nat := 256.
Definition LOGTAIL_SEEK_BACK : nat := Z.to_nat 65536.
Definition LOGTAIL_READ_CHUNK : nat := Z.to_nat 8192.

(** A file is named by its device and inode; [fs_file] has its bytes, [None] when
    [fstat] fails. *)
Record fs := mkFs { fs_path : option Z; fs_file : Z -> option (list Z) }.

(** [lt_open] is the identity of the open file.  [lt_partial] is the line being read,
    [lt_lines] the slots of the ring. *)
Record logtail := mkTail {
  lt_open : option Z; lt_offset : nat; lt_missing : bool; lt_partial : list Z;
  lt_lines : list (list Z); lt_count : nat; lt_next : nat }.

Definition ring_push (t : logtail) (line : list Z) : logtail :=
  mkTail (lt_open t) (lt_offset t) (lt_missing t) (lt_partial t)
    (<[lt_next t := trunc LOGTAIL_LINE_LEN line]> (lt_lines t))
    (if (lt_count t <? LOGTAIL_RING_LINES)%nat then lt_count t + 1 else lt_count t)
    ((lt_next t + 1) mod LOGTAIL_RING_LINES).

Definition set_partial (p : list Z) (t : logtail) : logtail :=
  mkTail (lt_open t) (lt_offset t) (lt_missing t) p (lt_lines t) (lt_count t) (lt_next t).

(** The file is closed and reported missing. *)
Definition lose (t : logtail) : logtail :=
  mkTail None (lt_offset t) true (lt_partial t) (lt_lines t) (lt_count t) (lt_next t).

(** [None] is the return value -1. *)
Definition open_at (f : fs) (start : nat) (t : logtail) : option logtail :=
  id ← fs_path f; _ ← fs_file f id;
  Some (mkTail (Some id) start false [] (lt_lines t) (lt_count t) (lt_next t)).

Definition try_open_log_file (f : fs) (t : logtail) : logtail :=
  match lt_open t with
  | Some _ => t
  | None =>
      let size := length (default [] (fs_path f ≫= fs_file f)) in
      let start := if (LOGTAIL_SEEK_BACK <? size)%nat then (size - LOGTAIL_SEEK_BACK)%nat else 0%nat in
      match open_at f start t with Some t => t | None => lose t end
  end.

Definition logtail_init_at : logtail :=
  mkTail None 0 true [] (replicate LOGTAIL_RING_LINES []) 0 0.

(** A character of the chunk. *)
Definition feed (t : logtail) (c : Z) : logtail :=
  if c =? 10 then set_partial [] (ring_push t (cstr (lt_partial t)))
  else if (length (lt_partial t) + 1 <? LOGTAIL_LINE_LEN)%nat then set_partial (lt_partial t ++ [c]) t
  else t.

(** [b] is what the open file holds, [ok] whether it can be read. *)
Definition read_more (ok : bool) (b : list Z) (t : logtail) : logtail :=
  if (length b <=? lt_offset t)%nat then t
  else if negb ok then lose t
  else
    let chunk := take LOGTAIL_READ_CHUNK (drop (lt_offset t) b) in
    foldl feed (mkTail (lt_open t) (lt_offset t + length chunk) (lt_missing t) (lt_partial t) (lt_lines t) (lt_count t) (lt_next t)) chunk.

Definition logtail_poll (f : fs) (ok : bool) (t : logtail) : logtail :=
  let t := try_open_log_file f t in
  match lt_open t with
  | None => t
  | Some id =>
      match fs_file f id with
      | None => lose t
      | Some b =>
          let file_truncated := (length b <? lt_offset t)%nat in
          let file_rotated := match fs_path f with Some id' => negb (id' =? id) | None => false end in
          if file_truncated || file_rotated then
            match open_at f 0 (lose t) with
            | None => lose t
            | Some t => match lt_open t ≫= fs_file f with None => lose t | Some b => read_more ok b t end
            end
          else read_more ok b t
      end
  end.

Definition is_logtail_missing (t : logtail) : bool := lt_missing t.

(** The lines handed to the caller, at most [max] of them, oldest first. *)
Definition logtail_lines (t : logtail) (max : nat) : list (list Z) :=
  let n := (if lt_count t <? max then lt_count t else max)%nat in
  let skip := (lt_count t - n)%nat in
  let start := (if lt_count t <? LOGTAIL_RING_LINES then 0 else lt_next t)%nat in
  (fun i => default [] (lt_lines t !! ((start + skip + i) mod LOGTAIL_RING_LINES)%nat)) <$> seq 0 n.
