(* ===== verification/LogTailTheorems.v ===== *)
(** * LogTailTheorems: the ring holds the last lines of the file *)

From Stdlib Require Import String.
From stdpp Require Import options.
From S2P Require Import Prelude Text DbQueueTheorems LogTail.
#[local] Open Scope Z_scope.

(** ** The ring *)

(** The last [n] elements. *)
Definition lastn {A} (n : nat) (l : list A) : list A := drop (length l - n) l.

(** [ls] is everything that was pushed. *)
Record ring_of (t : logtail) (ls : list (list Z)) : Prop := {
  rg_len : length (lt_lines t) = LOGTAIL_RING_LINES;
  rg_count : lt_count t = (length ls `min` LOGTAIL_RING_LINES)%nat;
  rg_next : lt_next t = (length ls mod LOGTAIL_RING_LINES)%nat;
  rg_slot : forall j, (length ls <= j + LOGTAIL_RING_LINES)%nat -> (j < length ls)%nat ->
    lt_lines t !! (j mod LOGTAIL_RING_LINES)%nat = ls !! j
}.

Lemma mod_between a b : (a < b)%nat -> (b < a + LOGTAIL_RING_LINES)%nat -> (a mod LOGTAIL_RING_LINES <> b mod LOGTAIL_RING_LINES)%nat.
Proof.
  intros H1 H2 E. pose proof (Nat.Div0.div_mod a LOGTAIL_RING_LINES). pose proof (Nat.Div0.div_mod b LOGTAIL_RING_LINES).
  unfold LOGTAIL_RING_LINES in *. nia.
Qed.

Lemma push_ring t ls line : ring_of t ls -> ring_of (ring_push t line) (ls ++ [trunc LOGTAIL_LINE_LEN line]).
Proof.
  intros [Hl Hc Hn Hs]. assert (Hm : (length ls mod LOGTAIL_RING_LINES < LOGTAIL_RING_LINES)%nat) by (by apply Nat.mod_upper_bound).
  split; unfold ring_push; cbn [lt_lines lt_count lt_next]; rewrite ?length_app; cbn [length].
  - by rewrite length_insert.
  - rewrite Hc. destruct (Nat.ltb_spec (length ls `min` LOGTAIL_RING_LINES) LOGTAIL_RING_LINES); lia.
  - by rewrite Hn, Nat.Div0.add_mod_idemp_l.
  - intros j H1 H2. rewrite Hn. destruct (decide (j = length ls)) as [->|Hj].
    + rewrite list_lookup_insert_eq by lia. by rewrite lookup_app_r, Nat.sub_diag.
    + rewrite list_lookup_insert_ne by (apply not_eq_sym, mod_between; lia). rewrite lookup_app_l by lia. apply Hs; lia.
Qed.

Lemma ring_shows t ls max : ring_of t ls -> logtail_lines t max = lastn (max `min` LOGTAIL_RING_LINES) ls.
Proof.
  intros [Hl Hc Hn Hs]. unfold logtail_lines, lastn.
  set (n := (if lt_count t <? max then lt_count t else max)%nat).
  assert (Hne : n = (length ls `min` (max `min` LOGTAIL_RING_LINES))%nat)
    by (unfold n; rewrite Hc; destruct (Nat.ltb_spec (length ls `min` LOGTAIL_RING_LINES) max); lia).
  set (start := (if lt_count t <? LOGTAIL_RING_LINES then 0 else lt_next t)%nat).
  apply list_eq. intros i. rewrite lookup_drop, list_lookup_fmap. destruct (decide (i < n)%nat) as [Hi|Hi].
  - rewrite lookup_seq_lt by done. cbn [fmap option_fmap option_map].
    replace (length ls - (max `min` LOGTAIL_RING_LINES) + i)%nat with (length ls - n + i)%nat by lia.
    destruct (lookup_lt_is_Some_2 ls (length ls - n + i)) as [x Hx]; [lia|]. rewrite Hx.
    assert (Hm : ((start + (lt_count t - n) + (0 + i)) mod LOGTAIL_RING_LINES = (length ls - n + i) mod LOGTAIL_RING_LINES)%nat).
    { unfold start. destruct (Nat.ltb_spec (lt_count t) LOGTAIL_RING_LINES).
      - f_equal. lia.
      - rewrite Hn, <- Nat.add_assoc, Nat.Div0.add_mod_idemp_l.
        replace (length ls + (lt_count t - n + (0 + i)))%nat with (length ls - n + i + 1 * LOGTAIL_RING_LINES)%nat by lia.
        by rewrite Nat.Div0.mod_add. }
    rewrite Hm, Hs by lia. by rewrite Hx.
  - rewrite (lookup_ge_None_2 (seq 0 n)) by (rewrite length_seq; lia). symmetry. apply lookup_ge_None_2. lia.
Qed.

(** ** Lines *)

Lemma split_snoc sep l c : forall ls r, split_on sep l = ls ++ [r] ->
  split_on sep (l ++ [c]) = if c =? sep then ls ++ [r; []] else ls ++ [r ++ [c]].
Proof.
  induction l as [|d l IH]; intros ls r H.
  - cbn [split_on app] in *. destruct ls as [|? [|]]; simplify_eq/=. by destruct (c =? sep).
  - cbn [split_on app] in *. destruct (d =? sep).
    + destruct ls as [|f ls]; simplify_eq/=; [exfalso; by eapply split_on_not_nil|].
      rewrite (IH ls r) by done. by destruct (c =? sep).
    + destruct (split_on sep l) as [|f fs] eqn:E; [by apply split_on_not_nil in E|].
      destruct ls as [|g ls]; simplify_eq/=.
      * rewrite (IH [] f) by done. by destruct (c =? sep).
      * rewrite (IH (f :: ls) r) by done. by destruct (c =? sep).
Qed.

(** A line as the ring keeps it: its first 255 bytes, up to a NUL. *)
Definition shown (line : list Z) : list Z := cstr (take (LOGTAIL_LINE_LEN - 1) line).

(** The tail has read exactly [b], a stretch of the file. *)
Definition has_read (t : logtail) (b : list Z) : Prop :=
  exists ls r, split_on 10 b = ls ++ [r] /\ ring_of t (shown <$> ls) /\ lt_partial t = take (LOGTAIL_LINE_LEN - 1) r.

Lemma shown_fits l : trunc LOGTAIL_LINE_LEN (shown l) = shown l.
Proof.
  apply trunc_id. unfold shown. pose proof (length_cstr (take (LOGTAIL_LINE_LEN - 1) l)) as H. rewrite length_take in H.
  unfold LOGTAIL_LINE_LEN in *. lia.
Qed.

Lemma ring_same_slots t t' ls :
  lt_lines t' = lt_lines t -> lt_count t' = lt_count t -> lt_next t' = lt_next t -> ring_of t ls -> ring_of t' ls.
Proof. intros H1 H2 H3 []. split; rewrite ?H1, ?H2, ?H3; done. Qed.

Lemma feed_reads t b c : has_read t b -> has_read (feed t c) (b ++ [c]).
Proof.
  intros (ls & r & Hs & Hr & Hp). unfold feed. pose proof (split_snoc 10 b c ls r Hs) as E. destruct (Z.eqb_spec c 10) as [->|Hc].
  - exists (ls ++ [r]), []. split_and!; [by rewrite E, <- app_assoc| |done].
    rewrite fmap_app. cbn [fmap list_fmap]. rewrite Hp. change (cstr (take _ r)) with (shown r). rewrite <- (shown_fits r).
    eapply ring_same_slots; [..|by apply push_ring]; by rewrite ?shown_fits.
  - exists ls, (r ++ [c]). split_and!; [done|by case_match; [eapply ring_same_slots; [..|exact Hr]|]|].
    rewrite Hp, length_take. unfold LOGTAIL_LINE_LEN. destruct (Nat.ltb_spec ((256 - 1) `min` length r + 1) 256) as [H|H].
    + cbn [lt_partial set_partial]. rewrite !take_ge by (rewrite ?length_app; simpl; lia). done.
    + rewrite take_app_le by lia. exact Hp.
Qed.

Lemma feeds_read cs : forall t b, has_read t b -> has_read (foldl feed t cs) (b ++ cs).
Proof.
  induction cs as [|c cs IH]; intros t b H; [by rewrite app_nil_r|]. cbn [foldl].
  replace (b ++ c :: cs) with ((b ++ [c]) ++ cs) by (by rewrite <- app_assoc). by apply IH, feed_reads.
Qed.

Lemma feeds_keep cs : forall t, lt_open (foldl feed t cs) = lt_open t /\ lt_offset (foldl feed t cs) = lt_offset t /\ lt_missing (foldl feed t cs) = lt_missing t.
Proof.
  induction cs as [|c cs IH]; intros t; [done|]. cbn [foldl]. destruct (IH (feed t c)) as (-> & -> & ->). unfold feed. by repeat case_match.
Qed.

(** ** A file that grows *)

(** [t] follows file [id], which holds [b], from byte [start] on. *)
Record following (id : Z) (start : nat) (b : list Z) (t : logtail) : Prop := {
  fo_open : lt_open t = Some id;
  fo_start : (start <= lt_offset t <= length b)%nat;
  fo_missing : is_logtail_missing t = false;
  fo_read : has_read t (take (lt_offset t - start) (drop start b))
}.

Definition log_at (id : Z) (b : list Z) : fs := mkFs (Some id) (fun i => if i =? id then Some b else None).

Lemma take_stretch (b : list Z) start o k : (start <= o)%nat ->
  take (o - start) (drop start b) ++ take k (drop o b) = take (o + k - start) (drop start b).
Proof.
  intros H. replace (drop o b) with (drop (o - start) (drop start b)) by (rewrite drop_drop; f_equal; lia).
  rewrite take_take_drop. f_equal. lia.
Qed.

Lemma read_more_follows id start b t :
  following id start b t ->
  following id start b (read_more true b t) /\ lt_offset (read_more true b t) = (length b `min` (lt_offset t + LOGTAIL_READ_CHUNK))%nat.
Proof.
  intros [Ho Hst Hm Hr]. unfold read_more. destruct (Nat.leb_spec (length b) (lt_offset t)).
  - split; [done|]. lia.
  - cbn [negb]. set (chunk := take LOGTAIL_READ_CHUNK (drop (lt_offset t) b)).
    assert (Hlen : (length chunk = LOGTAIL_READ_CHUNK `min` (length b - lt_offset t))%nat) by (unfold chunk; by rewrite length_take, length_drop).
    set (t' := mkTail _ _ _ _ _ _ _). destruct (feeds_keep chunk t') as (E1 & E2 & E3).
    change (lt_offset t') with (lt_offset t + length chunk)%nat in E2. split; [split|].
    + by rewrite E1.
    + rewrite E2. lia.
    + unfold is_logtail_missing. by rewrite E3.
    + rewrite E2. assert (Hr' : has_read t' (take (lt_offset t - start) (drop start b))).
      { destruct Hr as (ls & r & H1 & H2 & H3). exists ls, r. split_and!; [done|by eapply ring_same_slots; [..|exact H2]|done]. }
      apply (feeds_read chunk) in Hr'. unfold chunk in Hr' at 2. rewrite take_stretch in Hr' by lia.
      replace (take (lt_offset t + length chunk - start) (drop start b)) with (take (lt_offset t + LOGTAIL_READ_CHUNK - start) (drop start b)); [done|].
      destruct (decide (LOGTAIL_READ_CHUNK <= length b - lt_offset t)%nat); [f_equal; lia|]. rewrite !take_ge by (rewrite length_drop; lia). done.
    + rewrite E2. lia.
Qed.

Lemma grown_follows id start b b' t : b `prefix_of` b' -> following id start b t -> following id start b' t.
Proof.
  intros [k ->] [Ho Hst Hm Hr]. split; [done|rewrite length_app; lia|done|].
  rewrite drop_app_le, take_app_le by (rewrite ?length_drop; lia). done.
Qed.

Lemma poll_follows id start b t :
  following id start b t ->
  following id start b (logtail_poll (log_at id b) true t) /\
  lt_offset (logtail_poll (log_at id b) true t) = (length b `min` (lt_offset t + LOGTAIL_READ_CHUNK))%nat.
Proof.
  intros H. assert (E : logtail_poll (log_at id b) true t = read_more true b t); [|rewrite E; by apply read_more_follows].
  destruct H as [Ho Hst _ _]. unfold logtail_poll, try_open_log_file. rewrite !Ho. cbn [log_at fs_file fs_path]. rewrite Z.eqb_refl.
  rewrite (proj2 (Nat.ltb_ge _ _)) by lia. done.
Qed.

(** Where reading starts in a file of [size] bytes. *)
Definition seek_start (size : nat) : nat := size - LOGTAIL_SEEK_BACK.

Lemma first_poll_follows id b :
  following id (seek_start (length b)) b (logtail_poll (log_at id b) true logtail_init_at).
Proof.
  set (start := seek_start (length b)).
  set (t := mkTail (Some id) start false [] (replicate LOGTAIL_RING_LINES []) 0 0).
  assert (Hf : following id start b t).
  { split; try done; [unfold t, start, seek_start; cbn [lt_offset]; lia|]. exists [], []. split_and!; [|split; try done; simpl; lia|done].
    change (lt_offset t) with start. by rewrite Nat.sub_diag. }
  assert (Ho : try_open_log_file (log_at id b) logtail_init_at = t).
  { unfold try_open_log_file, open_at. cbn [logtail_init_at lt_open log_at fs_path fs_file mbind option_bind]. rewrite !Z.eqb_refl. cbn [default mbind option_bind].
    unfold t, start, seek_start, Datatypes.id. f_equal. destruct (Nat.ltb_spec LOGTAIL_SEEK_BACK (length b)); lia. }
  pose proof (poll_follows id start b t Hf) as [H _].
  replace (logtail_poll (log_at id b) true logtail_init_at) with (logtail_poll (log_at id b) true t); [done|].
  unfold logtail_poll. by rewrite Ho.
Qed.

(** Each of the contents extends the one before. *)
Fixpoint grows (b : list Z) (bs : list (list Z)) : Prop :=
  match bs with [] => True | b' :: bs => b `prefix_of` b' /\ grows b' bs end.

Definition polls (id : Z) (t : logtail) (bs : list (list Z)) : logtail :=
  foldl (fun t b => logtail_poll (log_at id b) true t) t bs.

Lemma polls_follow id start bs : forall b t, grows b bs -> following id start b t -> following id start (List.last bs b) (polls id t bs).
Proof.
  induction bs as [|b' bs IH]; intros b t Hg H; [done|]. destruct Hg as [Hp Hg]. cbn [polls foldl].
  apply (grown_follows _ _ _ _ _ Hp), poll_follows in H as [H _].
  replace (List.last (b' :: bs) b) with (List.last bs b'); [by apply IH|]. destruct bs as [|b2 bs]; [done|].
  clear. cbn [List.last]. revert b2. induction bs as [|b3 bs IH]; intros b2; [done|]. apply (IH b3).
Qed.

Lemma quiet_polls id start b n : forall t, following id start b t ->
  following id start b (polls id t (replicate n b)) /\
  lt_offset (polls id t (replicate n b)) = (length b `min` (lt_offset t + n * LOGTAIL_READ_CHUNK))%nat.
Proof.
  induction n as [|n IH]; intros t H; cbn [replicate polls foldl].
  - split; [done|]. destruct H as [_ Hst _ _]. lia.
  - apply poll_follows in H as [H Ho]. apply IH in H as [H E]. split; [done|]. etrans; [exact E|]. rewrite Ho. lia.
Qed.

(** The lines that are complete. *)
Definition complete_lines (b : list Z) : list (list Z) := take (length (split_on 10 b) - 1) (split_on 10 b).

Lemma read_shows t b max : has_read t b -> logtail_lines t max = lastn (max `min` LOGTAIL_RING_LINES) (shown <$> complete_lines b).
Proof.
  intros (ls & r & Hs & Hr & _). rewrite (ring_shows t (shown <$> ls)) by done. unfold complete_lines.
  rewrite Hs, length_app, Nat.add_sub, take_app_length. done.
Qed.

(** The view is the end of the file.  While the log grows behind it
    in any steps, and then rests for enough ticks to read the remainder at 8 KiB a
    tick, the view holds exactly the last lines of the file, in order, each cut to the
    width of the view, and never a line twice or in part; a file of more than 64 KiB is
    taken up 64 KiB before its end. *)
Lemma tail_follows id b0 bs n max :
  let b := List.last bs b0 in let start := seek_start (length b0) in
  grows b0 bs -> (length b <= start + n * LOGTAIL_READ_CHUNK)%nat ->
  let t := polls id logtail_init_at (b0 :: bs ++ replicate n b) in
  is_logtail_missing t = false /\
  logtail_lines t max = lastn (max `min` LOGTAIL_RING_LINES) (shown <$> complete_lines (drop start b)).
Proof.
  intros b start Hg Hn t.
  set (t1 := logtail_poll (log_at id b0) true logtail_init_at). set (t2 := polls id t1 bs).
  assert (H1 : following id start b0 t1) by apply first_poll_follows.
  assert (H2 : following id start b t2) by (by apply polls_follow).
  assert (Ht : t = polls id t2 (replicate n b)).
  { unfold t, t2, polls. cbn [foldl]. rewrite foldl_app. done. }
  destruct (quiet_polls id start b n t2 H2) as [[_ Hst Hm Hr] Ho]. rewrite <- Ht in *. split; [done|].
  rewrite (read_shows t (drop start b)); [done|]. replace (drop start b) with (take (lt_offset t - start) (drop start b)); [done|].
  apply take_ge. rewrite length_drop, Ho.
  destruct H2 as [_ Hs2 _ _]. lia.
Qed.
