(* ===== verification/LogTheorems.v ===== *)
(** * LogTheorems: what is logged, and what is counted instead

    core/src/libtetrisutil/logmsg.c against core/src/tetrislogd/logger.c: every record
    is a line of the log or is counted where the daemon reports it, whatever the
    senders send; and tetriSH/src/tetrisctl/ctl_logtail.c shows those lines. *)

From Stdlib Require Import String.
From stdpp Require Import options.
From S2P Require Import Prelude AdminMsg Text Layout Htttp HistoryTheorems Rc DbRows DbRowsTheorems DbQueue DbQueueTheorems LogMsg Logd LogTail LogTailTheorems.
#[local] Open Scope Z_scope.

(** ** The daemon, a datagram at a time *)

Inductive fate := WrongSize | Filtered | Logged.

#[global] Instance fate_eq_dec : EqDecision fate.
Proof. solve_decision. Defined.

(** What a datagram comes to. *)
Definition fate_of (opts : logd_opts) (d : list Z) : fate :=
  if negb (length d =? SIZEOF_LOG_MSG)%nat then WrongSize
  else let rank := log_level_rank (lm_level (load log_msg_layout d)) in
       if (rank <=? 3) && (rank <? log_level_rank (o_min_level opts)) then Filtered else Logged.

(** The text of a line: the record's, up to its terminator or its end, without control
    characters. *)
Definition clean_text (a : list Z) : list Z := sanitise_char <$> cstr (if bool_decide (0 ∈ a) then a else take (LOG_MSG_MAX - 1) a).

Definition record_line (stamp : list Z) (m : log_msg) : list Z :=
  bytes "[" ++ stamp ++ bytes "] [" ++ log_level_to_str (lm_level m) ++ bytes "] pid=" ++ decimal_int (lm_pid m) ++
  bytes ": " ++ clean_text (lm_msg m).

(** The drops a record reports, when it can be believed. *)
Definition claim_of (d : list Z) : Z :=
  let n := lm_dropped (load log_msg_layout d) in if LOGD_DROP_CLAIM_MAX <? n then 0 else n.

Lemma cstr_sanitise s : cstr (sanitise s) = sanitise_char <$> cstr s.
Proof.
  induction s as [|c s IH]; [done|]. cbn [sanitise cstr]. destruct (Z.eqb_spec c 0) as [->|Hc]; [done|]. rewrite fmap_cons.
  assert (Hs : sanitise_char c =? 0 = false) by (unfold sanitise_char; destruct (Z.ltb_spec c 32), (Z.eqb_spec c 127); cbn [orb]; try done; apply Z.eqb_neq; lia).
  cbn [cstr]. by rewrite Hs, IH.
Qed.

Lemma cstr_snoc_nul s : cstr (s ++ [0]) = cstr s.
Proof. induction s as [|c s IH]; [done|]. cbn [app cstr]. by rewrite IH. Qed.

Lemma rank_cases level : 0 <= log_level_rank level <= 4.
Proof. unfold log_level_rank. repeat case_match; lia. Qed.

(** A line the daemon logs, and what it leaves in the counters. *)
Lemma serve_datagram opts t d l :
  exists r l', serve_one opts t (RecvData d) l = (r, l') /\
  match fate_of opts d with
  | WrongSize => r = 1 /\ l_lines l' = l_lines l /\ n_received (l_stats l') = n_received (l_stats l) /\
      n_filtered (l_stats l') = n_filtered (l_stats l) /\ n_dropped (l_stats l') = n_dropped (l_stats l)
  | Filtered => r = 1 /\ l_lines l' = l_lines l /\ n_received (l_stats l') = n_received (l_stats l) /\
      n_filtered (l_stats l') = u64 (n_filtered (l_stats l) + 1) /\
      n_dropped (l_stats l') = if LOGD_DROP_CLAIM_MAX <? lm_dropped (load log_msg_layout d) then n_dropped (l_stats l) else u64 (n_dropped (l_stats l) + claim_of d)
  | Logged => r = (if t_written t then 1 else -1) /\
      (t_written t = true -> l_lines l' = l_lines l ++ [record_line (t_stamp t) (load log_msg_layout d) ++ [NL]] /\
         n_received (l_stats l') = u64 (n_received (l_stats l) + 1)) /\
      n_filtered (l_stats l') = n_filtered (l_stats l) /\
      n_dropped (l_stats l') = if LOGD_DROP_CLAIM_MAX <? lm_dropped (load log_msg_layout d) then n_dropped (l_stats l) else u64 (n_dropped (l_stats l) + claim_of d)
  end.
Proof.
  unfold serve_one, fate_of.
  assert (Hlen : (length (take (S SIZEOF_LOG_MSG) d) =? SIZEOF_LOG_MSG)%nat = (length d =? SIZEOF_LOG_MSG)%nat).
  { rewrite length_take. destruct (Nat.eqb_spec (length d) SIZEOF_LOG_MSG); [apply Nat.eqb_eq; lia|apply Nat.eqb_neq; lia]. }
  rewrite Hlen. destruct (Nat.eqb_spec (length d) SIZEOF_LOG_MSG) as [E|E]; cbn [negb]; [|by eauto 10].
  rewrite take_ge by lia. unfold claim_of. set (m := load log_msg_layout d).
  set (st := if LOGD_DROP_CLAIM_MAX <? lm_dropped m then _ else _).
  assert (Hst : n_received st = n_received (l_stats l) /\ n_filtered st = n_filtered (l_stats l) /\
    n_dropped st = if LOGD_DROP_CLAIM_MAX <? lm_dropped m then n_dropped (l_stats l) else u64 (n_dropped (l_stats l) + lm_dropped m))
    by (unfold st; by destruct (LOGD_DROP_CLAIM_MAX <? lm_dropped m)).
  destruct Hst as (S1 & S2 & S3).
  assert (Hterm : exists a s, terminate m st = (mkLogMsg (lm_pid m) (lm_level m) (lm_dropped m) a, s) /\
    sanitise_char <$> cstr a = clean_text (lm_msg m) /\ n_received s = n_received st /\ n_filtered s = n_filtered st /\ n_dropped s = n_dropped st).
  { unfold terminate, clean_text. destruct (bool_decide (0 ∈ lm_msg m)); [exists (lm_msg m), st; by destruct m|].
    eexists _, _. split; [reflexivity|]. by rewrite cstr_snoc_nul. }
  destruct Hterm as (a & s & -> & Ha & T1 & T2 & T3). cbn [lm_pid lm_level lm_dropped lm_msg].
  pose proof (rank_cases (lm_level m)) as Hrank. change (log_level_rank LOG_ERROR) with 3.
  set (s' := if 3 <? log_level_rank (lm_level m) then inc_malformed s else s).
  assert (Hs' : n_received s' = n_received s /\ n_filtered s' = n_filtered s /\ n_dropped s' = n_dropped s)
    by (unfold s'; by destruct (3 <? log_level_rank (lm_level m))).
  destruct Hs' as (U1 & U2 & U3).
  replace (negb (3 <? log_level_rank (lm_level m))) with (log_level_rank (lm_level m) <=? 3) by apply Z.leb_antisym.
  destruct ((log_level_rank (lm_level m) <=? 3) && _).
  - eexists _, _. split; [reflexivity|]. cbn [l_stats l_lines inc_filtered n_received n_filtered n_dropped].
    split_and!; try congruence. rewrite U3, T3, S3. by destruct (LOGD_DROP_CLAIM_MAX <? lm_dropped m).
  - unfold emit. destruct (t_written t); cbn [negb]; (eexists _, _; split; [reflexivity|]); cbn [l_stats l_lines inc_received n_received n_filtered n_dropped].
    + split_and!; [done| |congruence|rewrite U3, T3, S3; by destruct (LOGD_DROP_CLAIM_MAX <? lm_dropped m)].
      intros _. split; [|congruence]. unfold log_line, record_line. cbn [lm_level lm_pid lm_msg]. rewrite cstr_sanitise, Ha.
      by repeat (rewrite <- app_assoc; cbn [app]).
    + split_and!; [done|done|congruence|rewrite U3, T3, S3; by destruct (LOGD_DROP_CLAIM_MAX <? lm_dropped m)].
Qed.

(** Datagrams in the order they arrive; [None] once the log cannot be written. *)
Fixpoint serve_all (opts : logd_opts) (ds : list (moment * list Z)) (l : logd) : option logd :=
  match ds with
  | [] => Some l
  | (t, d) :: ds => let '(r, l) := serve_one opts t (RecvData d) l in if r <? 0 then None else serve_all opts ds l
  end.

Definition logged_lines (opts : logd_opts) (ds : list (moment * list Z)) : list (list Z) :=
  (fun x => record_line (t_stamp x.1) (load log_msg_layout x.2)) <$> filter (fun x => fate_of opts x.2 = Logged) ds.

Definition count_fate (opts : logd_opts) (f : fate) (ds : list (moment * list Z)) : Z :=
  Z.of_nat (length (filter (fun x => fate_of opts x.2 = f) ds)).

Definition claims (opts : logd_opts) (ds : list (moment * list Z)) : Z :=
  foldr (fun x n => (if decide (fate_of opts x.2 = WrongSize) then 0 else claim_of x.2) + n) 0 ds.

Lemma count_fate_cons opts f x ds :
  count_fate opts f (x :: ds) = (if decide (fate_of opts x.2 = f) then 1 else 0) + count_fate opts f ds.
Proof. unfold count_fate. rewrite filter_cons. case_decide; cbn [length]; lia. Qed.

Lemma serve_all_lines opts ds : forall l l',
  serve_all opts ds l = Some l' -> l_lines l' = l_lines l ++ ((fun t => t ++ [NL]) <$> logged_lines opts ds).
Proof.
  induction ds as [|[t d] ds IH]; intros l l' H; [injection H as <-; by rewrite app_nil_r|].
  cbn [serve_all] in H. destruct (serve_datagram opts t d l) as (r & l1 & E & Hf). rewrite E in H.
  destruct (Z.ltb_spec r 0) as [|Hr]; [done|]. rewrite (IH _ _ H). unfold logged_lines. rewrite filter_cons. cbn [snd].
  destruct (fate_of opts d); case_decide; try congruence; [by destruct Hf as (_ & -> & _)..|].
  destruct Hf as (-> & L & _). destruct (t_written t); [|lia]. rewrite (proj1 (L eq_refl)), <- app_assoc. done.
Qed.

Lemma serve_all_counts opts ds : forall l l' a b c,
  serve_all opts ds l = Some l' ->
  n_received (l_stats l) = u64 a -> n_filtered (l_stats l) = u64 b -> n_dropped (l_stats l) = u64 c ->
  n_received (l_stats l') = u64 (a + count_fate opts Logged ds) /\
  n_filtered (l_stats l') = u64 (b + count_fate opts Filtered ds) /\
  n_dropped (l_stats l') = u64 (c + claims opts ds).
Proof.
  induction ds as [|[t d] ds IH]; intros l l' a b c H Ha Hb Hc.
  - injection H as <-. unfold count_fate. cbn. rewrite !Z.add_0_r. done.
  - cbn [serve_all] in H. destruct (serve_datagram opts t d l) as (r & l1 & E & Hf). rewrite E in H.
    destruct (Z.ltb_spec r 0) as [|Hr]; [done|].
    rewrite !count_fate_cons. cbn [claims foldr snd fst].
    assert (Hclaim : forall n, n_dropped (l_stats l1) = (if LOGD_DROP_CLAIM_MAX <? lm_dropped (load log_msg_layout d) then n_dropped (l_stats l) else u64 (n_dropped (l_stats l) + claim_of d)) ->
      n = claim_of d -> n_dropped (l_stats l1) = u64 (c + n)).
    { intros n -> ->. rewrite Hc. unfold claim_of. destruct (LOGD_DROP_CLAIM_MAX <? lm_dropped _); [by rewrite Z.add_0_r|by rewrite u64_add_l]. }
    destruct (fate_of opts d) eqn:Ef; repeat (case_decide; [|try congruence]); try congruence; cbn [snd] in *.
    + destruct Hf as (_ & _ & R & F & D). destruct (IH l1 l' a b c H) as (IR & IF & ID); [congruence..|].
      rewrite IR, IF, ID, !Z.add_0_l. done.
    + destruct Hf as (_ & _ & R & F & D). destruct (IH l1 l' a (b + 1) (c + claim_of d) H) as (IR & IF & ID);
        [congruence|by rewrite F, Hb, u64_add_l|by apply Hclaim|].
      rewrite IR, IF, ID, Z.add_0_l, !Z.add_assoc. done.
    + destruct Hf as (-> & L & F & D). destruct (t_written t); [|lia]. destruct (L eq_refl) as [_ R].
      destruct (IH l1 l' (a + 1) b (c + claim_of d) H) as (IR & IF & ID);
        [by rewrite R, Ha, u64_add_l|congruence|by apply Hclaim|].
      rewrite IR, IF, ID, Z.add_0_l, !Z.add_assoc. done.
Qed.

(** ** The sender's count *)

(** [n] records were dropped and [r] of them reported. *)
Record counted (n r : Z) (s : sender) : Prop := {
  ct_total : g_dropped s = u64 n;
  ct_split : n = r + g_unreported s;
  ct_pos : 0 <= r /\ 0 <= g_unreported s
}.

Lemma drop_counted n r s : counted n r s -> n < ULONG_MAX -> counted (n + 1) r (drop_one s).
Proof.
  intros [Ht Hs Hp] Hn. unfold drop_one. split; cbn [g_dropped g_unreported].
  - by rewrite Ht, u64_add_l.
  - rewrite (proj2 (Z.ltb_lt _ _)) by lia. lia.
  - rewrite (proj2 (Z.ltb_lt _ _)) by lia. lia.
Qed.

Lemma drops_counted k : forall n r s, counted n r s -> n + Z.of_nat k <= ULONG_MAX -> counted (n + Z.of_nat k) r (drop_many k s).
Proof.
  induction k as [|k IH]; intros n r s H Hk; cbn [drop_many]; [by rewrite Z.add_0_r|].
  replace (n + Z.of_nat (S k)) with (n + 1 + Z.of_nat k) by lia. apply IH; [apply drop_counted; [done|lia]|lia].
Qed.

Lemma counted_same n r s s' : g_dropped s' = g_dropped s -> g_unreported s' = g_unreported s -> counted n r s -> counted n r s'.
Proof. intros H1 H2 []. split; congruence || (rewrite H2; lia). Qed.

Lemma connect_same ok s s' : sender_connect_socket ok s = Some s' -> g_dropped s' = g_dropped s /\ g_unreported s' = g_unreported s.
Proof. unfold sender_connect_socket. repeat case_match; intros; simplify_eq; done. Qed.

Lemma send_loop_same w k : forall i s, g_dropped (send_loop w i k s).2 = g_dropped s /\ g_unreported (send_loop w i k s).2 = g_unreported s.
Proof.
  induction k as [|k IH]; intros i s; [done|]. cbn [send_loop]. destruct (w_send w i); [done| |done].
  destruct (sender_connect_socket _ _) as [s1|] eqn:E; [|done]. apply connect_same in E as [E1 E2].
  destruct (IH (S i) s1) as [-> ->]. done.
Qed.

(** A call to the logger. *)
Record call := mkCall { k_weather : weather; k_pid : Z; k_level : Z; k_text : option (list Z) }.

(** The records a call stands for: its own, and those of the threads that gave up
    while it held the lock. *)
Definition records_of (k : call) : Z :=
  match k_text k with Some _ => if w_locked (k_weather k) then 1 + Z.of_nat (w_others (k_weather k)) else 1 | None => 1 end.

Lemma vsend_counted n r s k :
  counted n r s -> n + records_of k <= ULONG_MAX ->
  let '(rc, m, s') := log_vsend (k_weather k) (k_pid k) (k_level k) (k_text k) s in
  match m with
  | None => rc = -1 /\ counted (n + records_of k) r s'
  | Some m => rc = 0 /\ (exists t, k_text k = Some t /\ m = log_record (k_pid k) (k_level k) (g_unreported s) t) /\
      counted (n + records_of k - 1) (r + lm_dropped m) s'
  end.
Proof.
  intros H Hn. unfold records_of, log_vsend in *. destruct (k_text k) as [t|]; [|split; [done|]; apply drop_counted; [done|lia]].
  destruct (w_locked (k_weather k)); cbn [negb]; [|split; [done|]; apply drop_counted; [done|lia]].
  set (o := w_others (k_weather k)) in *.
  destruct (if g_connected s then Some s else sender_connect_socket _ s) as [s1|] eqn:E.
  - assert (H1 : counted n r s1 /\ g_unreported s1 = g_unreported s).
    { destruct (g_connected s); [injection E as <-; done|]. apply connect_same in E as [E1 E2]. split; [by eapply counted_same|done]. }
    destruct H1 as [H1 Hu]. destruct (send_loop_same (k_weather k) (Z.to_nat (g_max_attempts s1)) 0 s1) as [L1 L2].
    destruct (send_loop _ _ _ s1) as [sent s2]. cbn [snd] in L1, L2.
    assert (H2 : counted (n + Z.of_nat o) r (drop_many o s2)) by (apply drops_counted; [by eapply counted_same|lia]).
    destruct sent.
    + split_and!; [done|by eexists|]. cbn [log_record lm_dropped]. destruct H2 as [T2 S2 [P1 P2]], H as [_ S0 [_ P0]].
      assert (g_unreported (drop_many o s2) = n + Z.of_nat o - r) by lia.
      unfold report_dropped. split; cbn [g_dropped g_unreported]; [by rewrite T2; f_equal; lia| |]; rewrite u64_small; lia.
    + split; [done|]. replace (n + (1 + Z.of_nat o)) with (n + Z.of_nat o + 1) by lia. apply drop_counted; [done|lia].
  - split; [done|]. replace (n + (1 + Z.of_nat o)) with (n + Z.of_nat o + 1) by lia. apply drop_counted; [apply drops_counted; [done|]|]; lia.
Qed.

(** The records that went out, and the sender after the calls. *)
Fixpoint send_all (ks : list call) (s : sender) : list log_msg * sender :=
  match ks with
  | [] => ([], s)
  | k :: ks =>
      let '(_, m, s) := log_vsend (k_weather k) (k_pid k) (k_level k) (k_text k) s in
      let '(ms, s) := send_all ks s in (option_list m ++ ms, s)
  end.

Definition records (ks : list call) : Z := foldr (fun k n => records_of k + n) 0 ks.

Definition reported (ms : list log_msg) : Z := foldr (fun m n => lm_dropped m + n) 0 ms.

(** What a C caller passes. *)
Definition call_ok (k : call) : Prop :=
  int_range (k_pid k) /\ 0 <= k_level k <= UINT32_MAX /\ forall t, k_text k = Some t -> Forall (fun c => 0 <= c <= 255) t.

Lemma records_pos ks : 0 <= records ks.
Proof.
  induction ks as [|k ks IH]; [done|]. assert (0 <= records_of k) by (unfold records_of; repeat case_match; lia).
  cbn [records foldr]. fold (records ks). lia.
Qed.

Lemma cstr_bytes (t : list Z) : Forall (fun c => 0 <= c <= 255) t -> Forall (fun c => 0 <= c <= 255) (cstr t).
Proof. induction 1 as [|c t Hc _ IH]; [constructor|]. cbn [cstr]. case_match; by constructor. Qed.

(** A record that was sent fills the struct and is terminated. *)
Lemma record_sendable pid level d t :
  int_range pid -> 0 <= level <= UINT32_MAX -> 0 <= d <= ULONG_MAX -> Forall (fun c => 0 <= c <= 255) t ->
  lok log_msg_layout (log_record pid level d t) /\ 0 ∈ lm_msg (log_record pid level d t) /\
  cstr (lm_msg (log_record pid level d t)) = trunc LOG_MSG_MAX (cstr t).
Proof.
  intros Hp Hl Hd Ht. unfold log_record. cbn [lm_msg]. set (x := trunc LOG_MSG_MAX (cstr t)).
  assert (Hx : (length x < LOG_MSG_MAX)%nat) by (apply length_trunc; unfold LOG_MSG_MAX; lia).
  assert (H0 : 0 ∉ x).
  { intros Hin. apply (cstr_no_nul t). unfold x, trunc in Hin. apply list_elem_of_lookup in Hin as [i Hi].
    apply lookup_take_Some in Hi as [Hi _]. by eapply list_elem_of_lookup_2. }
  split_and!.
  - refine (conj Hp (conj Hl (conj Hd (conj _ _)))).
    + cbn [lm_msg]. rewrite length_app, length_replicate. unfold LOG_MSG_MAX in *. lia.
    + cbn [lm_msg]. apply Forall_app. split; [|apply Forall_replicate; lia]. unfold x, trunc. by apply Forall_take, cstr_bytes.
  - apply elem_of_app. right. apply elem_of_replicate. split; [done|lia].
  - destruct (LOG_MSG_MAX - length x)%nat as [|j] eqn:E; [lia|]. by apply cstr_app_zeros.
Qed.

Lemma send_all_counted ks : forall n r s ms s',
  counted n r s -> n + records ks <= ULONG_MAX -> Forall call_ok ks -> send_all ks s = (ms, s') ->
  counted (n + records ks - Z.of_nat (length ms)) (r + reported ms) s' /\
  Forall (fun m => exists p l d t, m = log_record p l d t /\ int_range p /\ 0 <= l <= UINT32_MAX /\ 0 <= d <= ULONG_MAX /\
    Forall (fun c => 0 <= c <= 255) t) ms.
Proof.
  induction ks as [|k ks IH]; intros n r s ms s' Hc Hn Hok H.
  - injection H as <- <-. cbn. rewrite !Z.add_0_r, Z.sub_0_r. split; [done|constructor].
  - apply list.Forall_cons in Hok as [(Hp & Hl & Ht) Hks]. cbn [records foldr] in Hn |- *. fold (records ks) in *.
    pose proof (records_pos ks) as Hpos.
    pose proof (vsend_counted n r s k Hc ltac:(lia)) as Hv. cbn [send_all] in H.
    destruct (log_vsend _ _ _ _ s) as [[rc m] s1]. destruct (send_all ks s1) as [ms1 s2] eqn:E. injection H as <- <-.
    destruct m as [m|]; [change (option_list (Some m) ++ ms1) with (m :: ms1)|change (option_list None ++ ms1) with ms1].
    + destruct Hv as (_ & (t & Et & Em) & Hc1). destruct (IH _ _ _ _ _ Hc1 ltac:(lia) Hks E) as [E1 E2].
      cbn [length reported foldr]. fold (reported ms1). split.
      * match goal with |- counted ?a ?b _ => replace a with (n + records_of k - 1 + records ks - Z.of_nat (length ms1)) by lia;
          replace b with (r + lm_dropped m + reported ms1) by lia end. exact E1.
      * constructor; [|done]. exists (k_pid k), (k_level k), (g_unreported s), t. split_and!; try done; try lia; [| |by apply Ht].
        -- destruct Hc as [_ _ []]. done.
        -- destruct Hc as [_ Hs []]. pose proof (records_pos [k]) as Hk. cbn [records foldr] in Hk. lia.
    + destruct Hv as (_ & Hc1). destruct (IH _ _ _ _ _ Hc1 ltac:(lia) Hks E) as [E1 E2]. split; [|done].
      replace (n + (records_of k + records ks)) with (n + records_of k + records ks) by lia. done.
Qed.

Lemma sent_fate opts p l d t tm :
  int_range p -> 0 <= l <= UINT32_MAX -> 0 <= d <= ULONG_MAX -> Forall (fun c => 0 <= c <= 255) t ->
  let m := log_record p l d t in
  fate_of opts (image log_msg_layout m) <> WrongSize /\ load log_msg_layout (image log_msg_layout m) = m /\
  record_line tm m = bytes "[" ++ tm ++ bytes "] [" ++ log_level_to_str l ++ bytes "] pid=" ++ decimal_int p ++
    bytes ": " ++ (sanitise_char <$> trunc LOG_MSG_MAX (cstr t)).
Proof.
  intros Hp Hl Hd Ht m. destruct (record_sendable p l d t Hp Hl Hd Ht) as (Hok & H0 & Hs). split_and!.
  - unfold fate_of. rewrite (length_image (l := log_msg_layout)) by done. unfold SIZEOF_LOG_MSG. rewrite Nat.eqb_refl. cbn [negb]. by case_match.
  - by apply load_image.
  - unfold record_line, clean_text. fold m in H0, Hs. rewrite bool_decide_true by done. by rewrite Hs.
Qed.

(** ** Together *)

Lemma fate_split opts ds : Forall (fun x => fate_of opts x.2 <> WrongSize) ds ->
  count_fate opts Logged ds + count_fate opts Filtered ds = Z.of_nat (length ds).
Proof.
  induction 1 as [|x ds Hx _ IH]; [done|]. rewrite !count_fate_cons. cbn [length].
  destruct (fate_of opts x.2) eqn:E; [done|..]; repeat (case_decide; try congruence); lia.
Qed.

Lemma sent_datagrams opts sent : forall ts, length ts = length sent ->
  Forall (fun m => exists p l d t, m = log_record p l d t /\ int_range p /\ 0 <= l <= UINT32_MAX /\ 0 <= d <= ULONG_MAX /\
    Forall (fun c => 0 <= c <= 255) t) sent ->
  Forall (fun m => lm_dropped m <= LOGD_DROP_CLAIM_MAX) sent ->
  let ds := zip ts (image log_msg_layout <$> sent) in
  Forall (fun x => fate_of opts x.2 <> WrongSize) ds /\ claims opts ds = reported sent /\ length ds = length sent.
Proof.
  induction sent as [|m sent IH]; intros [|t ts] Hl Hs Hc; try done; cbn zeta.
  apply list.Forall_cons in Hs as [(p & l & d & x & Em & Hp & Hv & Hd & Hx) Hs']. apply list.Forall_cons in Hc as [Hc1 Hc'].
  destruct (IH ts ltac:(by injection Hl) Hs' Hc') as (IF & IC & IL).
  destruct (sent_fate opts p l d x (t_stamp t) Hp Hv Hd Hx) as (Hf & Hld & _). rewrite <- Em in *.
  rewrite fmap_cons. cbn [zip zip_with]. fold (zip ts (image log_msg_layout <$> sent)). split_and!.
  - constructor; [exact Hf|exact IF].
  - cbn [claims foldr snd reported]. fold (claims opts (zip ts (image log_msg_layout <$> sent))) (reported sent).
    rewrite decide_False by done. unfold claim_of. rewrite Hld, (proj2 (Z.ltb_ge _ _)) by lia. lia.
  - cbn [length]. f_equal. exact IL.
Qed.

(** Whether a record's level passes the daemon's filter; a level it does not know
    does. *)
Definition passes (opts : logd_opts) (m : log_msg) : Prop :=
  3 < log_level_rank (lm_level m) \/ log_level_rank (o_min_level opts) <= log_level_rank (lm_level m).

#[global] Instance passes_dec opts m : Decision (passes opts m).
Proof. unfold passes. apply _. Defined.

(** The lines of records that were sent as they are. *)
Definition lines_of (opts : logd_opts) (sent : list (moment * log_msg)) : list (list Z) :=
  (fun x => record_line (t_stamp x.1) x.2 ++ [NL]) <$> filter (fun x => passes opts x.2) sent.

Lemma sent_lines opts sent : forall ts, length ts = length sent ->
  Forall (fun m => exists p l d t, m = log_record p l d t /\ int_range p /\ 0 <= l <= UINT32_MAX /\ 0 <= d <= ULONG_MAX /\
    Forall (fun c => 0 <= c <= 255) t) sent ->
  let ds := zip ts (image log_msg_layout <$> sent) in
  (fun t => t ++ [NL]) <$> logged_lines opts ds = lines_of opts (zip ts sent) /\
  count_fate opts Logged ds = Z.of_nat (length (lines_of opts (zip ts sent))).
Proof.
  induction sent as [|m sent IH]; intros [|t ts] Hl Hs; try done; cbn zeta.
  apply list.Forall_cons in Hs as [(p & l & d & x & Em & Hp & Hv & Hd & Hx) Hs'].
  destruct (IH ts ltac:(by injection Hl) Hs') as (IL & IC). cbn zeta in IL, IC.
  destruct (sent_fate opts p l d x (t_stamp t) Hp Hv Hd Hx) as (Hf & Hld & _). rewrite <- Em in *.
  assert (Hfate : fate_of opts (image log_msg_layout m) = Logged <-> passes opts m).
  { unfold fate_of in *. rewrite Hld in *. destruct (negb _); [done|]. unfold passes.
    destruct (Z.leb_spec (log_level_rank (lm_level m)) 3), (Z.ltb_spec (log_level_rank (lm_level m)) (log_level_rank (o_min_level opts)));
      cbn [andb]; split; intros; (done || lia || congruence || (exfalso; lia)). }
  rewrite fmap_cons. cbn [zip zip_with]. fold (zip ts (image log_msg_layout <$> sent)) (zip ts sent).
  unfold logged_lines, lines_of in *. rewrite count_fate_cons, IC, !filter_cons. cbn [snd].
  repeat case_decide; try tauto; cbn [length]; rewrite ?fmap_cons; cbn [length fst snd]; rewrite ?Hld, IL; (split; [done|lia]).
Qed.

(** C18: No record is lost without being counted.  However the calls of a process
    fare - contended by other threads, with the daemon gone, restarted, or its socket
    full - and whatever level the daemon filters by: the daemon has written, one line
    each and in order, exactly the records that got through and pass its filter; and
    those lines, the records it filtered, the drops it has counted and the drops the
    process has still to report add up to the records the process tried to log.
    (One run of the daemon receives every datagram the process sent and can always
    write its log; a record claims at most 2^24 drops, the daemon does not believe
    more.) *)
Theorem no_record_lost_silently opts ks s0 sent s' ts l0 l' :
  g_dropped s0 = 0 -> g_unreported s0 = 0 -> Forall call_ok ks -> records ks <= ULONG_MAX ->
  send_all ks s0 = (sent, s') -> length ts = length sent -> Forall (fun m => lm_dropped m <= LOGD_DROP_CLAIM_MAX) sent ->
  l_stats l0 = zero_stats -> serve_all opts (zip ts (image log_msg_layout <$> sent)) l0 = Some l' ->
  exists lines, l_lines l' = l_lines l0 ++ lines /\ lines = lines_of opts (zip ts sent) /\
    records ks = Z.of_nat (length lines) + n_filtered (l_stats l') + n_dropped (l_stats l') + g_unreported s' /\
    n_received (l_stats l') = Z.of_nat (length lines) /\ g_dropped s' = n_dropped (l_stats l') + g_unreported s'.
Proof.
  intros D0 U0 Hok Hn Hs Hts Hcl Hl0 Hd.
  assert (Hc : counted 0 0 s0) by (split; rewrite ?D0, ?U0; done || lia).
  destruct (send_all_counted ks 0 0 s0 sent s' Hc ltac:(lia) Hok Hs) as [[T S [P1 P2]] Hsent].
  destruct (sent_datagrams opts sent ts Hts Hsent Hcl) as (Hf & Hc1 & Hlen).
  destruct (sent_lines opts sent ts Hts Hsent) as [HL HN]. set (ds := zip ts (_ <$> _)) in *.
  destruct (serve_all_counts opts ds l0 l' 0 0 0 Hd) as (HR & HF & HD); [by rewrite Hl0..|].
  pose proof (fate_split opts ds Hf) as Hsplit. rewrite Hlen in Hsplit.
  assert (0 <= count_fate opts Logged ds /\ 0 <= count_fate opts Filtered ds) as [] by (unfold count_fate; lia).
  exists (lines_of opts (zip ts sent)). split; [by rewrite <- HL, (serve_all_lines _ _ _ _ Hd)|]. split; [done|].
  rewrite HR, HF, HD, Hc1, T, <- HN. rewrite !u64_small; lia.
Qed.

Lemma to_int_range v : int_range (to_int v).
Proof. unfold int_range, to_int, INT_MIN, INT_MAX. pose proof (Z.mod_pos_bound (v + 2147483648) 4294967296 ltac:(lia)). lia. Qed.

Definition printable (c : Z) : Prop := 32 <= c /\ c <> 127.

(** One line of printable characters, whatever was sent. *)
Lemma record_line_printable stamp d :
  Forall printable stamp -> Forall printable (record_line stamp (load log_msg_layout d)).
Proof.
  assert (Hlit : forall t, forallb (fun c => (32 <=? c) && negb (c =? 127)) t = true -> Forall printable t).
  { intros t. apply Forall_forallb. intros c [H1 H2]%andb_true_iff. unfold printable. bool_arith. lia. }
  intros Hst. unfold record_line. rewrite !Forall_app. split_and!; try done; try (by apply Hlit).
  - unfold log_level_to_str. repeat case_match; by apply Hlit.
  - pose proof (to_int_range (lm_pid (load log_msg_layout d))) as Hp.
    apply list.Forall_forall. intros c Hc. split.
    + destruct (decide (is_digit c = true)) as [Hdg|Hdg]; [unfold is_digit in Hdg; bool_arith; lia|].
      destruct (decide (c = 45)) as [->|]; [lia|]. destruct (decimal_int_avoids (lm_pid (load log_msg_layout d)) c); try done.
      * apply to_int_range.
      * by destruct (is_digit c).
    + intros ->. destruct (decimal_int_avoids (lm_pid (load log_msg_layout d)) 127); try done. apply to_int_range.
  - unfold clean_text. apply Forall_fmap, list.Forall_true. intros c. unfold printable, sanitise_char. cbn.
    destruct (Z.ltb_spec c 32), (Z.eqb_spec c 127); cbn [orb]; lia.
Qed.

Lemma printable_line l : Forall printable l -> 10 ∉ l.
Proof. rewrite list.Forall_forall. intros H Hin. destruct (H 10 Hin). lia. Qed.

Lemma complete_concat ls : Forall (fun l => 10 ∉ l) ls -> complete_lines (concat ((fun t => t ++ [NL]) <$> ls)) = ls.
Proof.
  intros H. assert (E : split_on 10 (concat ((fun t => t ++ [NL]) <$> ls)) = ls ++ [[]]).
  { induction H as [|l ls Hl _ IH]; [done|]. rewrite fmap_cons. cbn [concat]. rewrite <- app_assoc.
    change ([NL] ++ ?r) with (10 :: r). rewrite split_on_field by done. by rewrite IH. }
  unfold complete_lines. rewrite E, length_app, Nat.add_sub, take_app_length. done.
Qed.

(** C28: The operator sees what was logged.  Whatever datagrams reach the daemon -
    well-formed records or not - each that is logged is exactly one line of printable
    characters, so no sender can forge a second one or control the terminal; and the
    operator's view, opened while the file held at most 64 KiB, following it as it
    grows in any steps and then having enough ticks to read the rest, holds the last
    of these lines, in order, after those the file had before, each cut to the width
    of the view (255 characters).  (The clock's text is printable; the daemon writes
    no line of its own while these are logged.) *)
Theorem operator_reads_the_log opts ds mi st earlier l' id b0 bs n max :
  serve_all opts ds (mkLogd mi st ((fun t => t ++ [NL]) <$> earlier)) = Some l' -> Forall (fun t => 10 ∉ t) earlier ->
  Forall (fun x => Forall printable (t_stamp x.1)) ds ->
  let file := concat (l_lines l') in
  grows b0 bs -> List.last bs b0 = file -> (length b0 <= LOGTAIL_SEEK_BACK)%nat -> (length file <= n * LOGTAIL_READ_CHUNK)%nat ->
  let t := polls id logtail_init_at (b0 :: bs ++ replicate n file) in
  is_logtail_missing t = false /\ Forall (Forall printable) (logged_lines opts ds) /\
  logtail_lines t max = lastn (max `min` LOGTAIL_RING_LINES) (shown <$> earlier ++ logged_lines opts ds).
Proof.
  intros Hd He Hst file Hg Hlast Hb0 Hn t.
  assert (Hfile : file = concat ((fun t => t ++ [NL]) <$> earlier ++ logged_lines opts ds)).
  { unfold file. rewrite (serve_all_lines _ _ _ _ Hd). cbn [l_lines]. by rewrite fmap_app. }
  assert (Hprint : Forall (Forall printable) (logged_lines opts ds)).
  { unfold logged_lines. apply Forall_fmap, list.Forall_forall. intros x Hx. apply list_elem_of_filter in Hx as [_ Hx].
    rewrite list.Forall_forall in Hst. by apply record_line_printable, Hst. }
  assert (Hlines : Forall (fun l => 10 ∉ l) (earlier ++ logged_lines opts ds)).
  { apply Forall_app. split; [done|]. eapply list.Forall_impl; [exact Hprint|]. apply printable_line. }
  pose proof (tail_follows id b0 bs n max) as H. cbn zeta in H. rewrite Hlast in H.
  assert (Hs : seek_start (length b0) = 0%nat) by (unfold seek_start; lia). rewrite Hs, drop_0 in H.
  rewrite Hfile, complete_concat in H by done. rewrite <- Hfile in H.
  destruct (H Hg ltac:(lia)) as [H1 H2]. by split_and!.
Qed.

(** ** Examples *)

Definition plain_opts : logd_opts := mkOpts (bytes "var/run/tetrislogd.sock") (bytes "var/log/tetrisd.log") LOG_INFO 30 false (bytes "var/db_log") 256.

Definition noon : moment := mkMoment 1700000000 (bytes "2026-01-01 12:00:00") true true.

(** A sender that has been opened; a call that finds the daemon gone while two other
    threads give up, one that finds it back, and a record below the daemon's level. *)
Definition opened : sender := mkSender true (bytes "var/run/tetrislogd.sock") 0 0 2.

Definition good_weather : weather := mkWeather true (fun _ => true) (fun _ => SendWhole) 0.
Definition bad_weather : weather := mkWeather true (fun _ => false) (fun _ => SendGone) 2.

Definition three_calls : list call :=
  [mkCall bad_weather 41 LOG_INFO (Some (bytes "lost")); mkCall good_weather 41 LOG_WARN (Some (bytes "two" ++ [10] ++ bytes "lines"));
   mkCall good_weather 41 LOG_DEBUG (Some (bytes "quiet"))].

Lemma no_record_lost_silently_witness :
  exists l', serve_all plain_opts (zip [noon; noon] (image log_msg_layout <$> (send_all three_calls opened).1)) (mkLogd (mkMirror None 1) zero_stats []) = Some l' /\
  l_lines l' = [bytes "[2026-01-01 12:00:00] [WARN ] pid=41: two.lines" ++ [NL]] /\
  records three_calls = 5 /\ n_filtered (l_stats l') = 1 /\ n_dropped (l_stats l') = 3.
Proof.
  destruct (serve_all plain_opts (zip [noon; noon] (image log_msg_layout <$> (send_all three_calls opened).1))
    (mkLogd (mkMirror None 1) zero_stats [])) as [l'|] eqn:E; [|vm_compute in E; discriminate E].
  exists l'. split; [reflexivity|].
  destruct (no_record_lost_silently plain_opts three_calls opened (send_all three_calls opened).1 (send_all three_calls opened).2 [noon; noon]
    (mkLogd (mkMirror None 1) zero_stats []) l' eq_refl eq_refl) as (lines & Hl & El & _).
  - repeat (apply list.Forall_cons; split); try (apply list.Forall_nil; exact I); (split; [|split]); cbn;
      try (unfold int_range, INT_MIN, INT_MAX; lia); try (unfold UINT32_MAX, LOG_WARN, LOG_INFO, LOG_DEBUG; lia);
      intros t [= <-]; apply (bool_decide_unpack _); vm_compute; exact I.
  - vm_compute. discriminate.
  - reflexivity.
  - reflexivity.
  - apply (bool_decide_unpack _). vm_compute. exact I.
  - reflexivity.
  - exact E.
  - rewrite Hl, El. split; [vm_compute; reflexivity|].
    vm_compute in E. injection E as <-. split_and!; reflexivity.
Defined.

Definition forged : list Z := image log_msg_layout (log_record 41 LOG_WARN 0 (bytes "one" ++ [10] ++ bytes "[two]")).

(** The daemon's first line, then a forgery and something that is no record. *)
Lemma operator_reads_the_log_witness :
  exists l', serve_all plain_opts [(noon, forged); (noon, [1; 2; 3])]
      (mkLogd (mkMirror None 1) zero_stats [bytes "tetrislogd started" ++ [NL]]) = Some l' /\
  logtail_lines (polls 7 logtail_init_at ([] :: [concat (l_lines l')] ++ replicate 1 (concat (l_lines l')))) 10 =
  [bytes "tetrislogd started"; bytes "[2026-01-01 12:00:00] [WARN ] pid=41: one.[two]"].
Proof.
  destruct (serve_all plain_opts [(noon, forged); (noon, [1; 2; 3])]
    (mkLogd (mkMirror None 1) zero_stats [bytes "tetrislogd started" ++ [NL]])) as [l'|] eqn:E;
    [|vm_compute in E; discriminate E]. exists l'. split; [reflexivity|].
  pose proof (operator_reads_the_log plain_opts [(noon, forged); (noon, [1; 2; 3])] (mkMirror None 1) zero_stats
    [bytes "tetrislogd started"] l' 7 [] [concat (l_lines l')] 1 10 E) as H.
  cbn zeta in H. destruct H as (_ & _ & H).
  - apply Forall_singleton, not_in_bytes. reflexivity.
  - assert (Hst : Forall printable (t_stamp noon)).
    { apply (Forall_forallb (fun c => (32 <=? c) && negb (c =? 127)));
        [intros c [H1 H2]%andb_true_iff; unfold printable; bool_arith; lia|vm_compute; reflexivity]. }
    apply list.Forall_cons; split; [exact Hst|]. apply list.Forall_cons; split; [exact Hst|]. by apply list.Forall_nil.
  - split; [by apply prefix_nil|exact I].
  - reflexivity.
  - cbn [length]. lia.
  - assert (Hl : length (concat (l_lines l')) = 67%nat) by (vm_compute in E; injection E as <-; reflexivity).
    rewrite Hl. unfold LOGTAIL_READ_CHUNK. lia.
  - etransitivity; [exact H|]. vm_compute. reflexivity.
Defined.
