(* ===== verification/ControlPlane.v ===== *)
(** * ControlPlane: the operator's commands to a running server

    Models tetriSH/src/tetrisctl/control_plane.c above its sockets: what a frame from
    the operator asks for, what the admin thread does about it and answers, and the
    reports it writes.  Opening the control socket and waiting on it are not
    modelled. *)

From Stdlib Require Import String.
From stdpp Require Import pretty options.
From S2P Require Import Prelude Piece AdminMsg Room Text Htttp.
#[local] Open Scope Z_scope.

(** ** control_plane.h *)

Inductive CtlVerb :=
| CTL_VERB_STATUS | CTL_VERB_SHUTDOWN | CTL_VERB_ROOMS | CTL_VERB_PLAYERS | CTL_VERB_KICK | CTL_VERB_RELOAD | CTL_VERB_BAD.

Record CtlReq := mkCtlReq { cr_fd : Z; cr_verb : CtlVerb; cr_room : Z; cr_player : Z }.

Inductive CtlAfter := CTL_AFTER_NONE | CTL_AFTER_SHUTDOWN | CTL_AFTER_KICK.

Definition CTL_FRAME_CAP : nat := Z.to_nat 65536.

(** What the control plane does to a connection or a session. *)
Inductive ctl_action :=
| CtlWrite (fd : Z) (frame : list Z)
| CtlClose (fd : Z)
| CtlNotify (fd : Z) (m : AdminMsg).

(** ** JSON *)

Definition phase_name (phase : Z) : list Z :=
  if phase =? phase_code SESSION_WAITING then bytes "waiting"
  else if phase =? phase_code SESSION_PLAYING then bytes "playing"
  else if phase =? phase_code SESSION_GAME_OVER then bytes "game_over"
  else if phase =? phase_code SESSION_IDLE then bytes "idle"
  else bytes "none".

(** A digit of [%x]. *)
Definition hex_digit (v : Z) : Z := if v <? 10 then 48 + v else 87 + v.

(** What stands for a character; itself, or its escape. *)
Definition json_char (c : Z) : list Z :=
  if c =? 34 then [92; 34]
  else if c =? 92 then [92; 92]
  else if c =? 10 then [92; 110]
  else if c =? 13 then [92; 114]
  else if c =? 9 then [92; 116]
  else if c <? 32 then bytes "\u00" ++ [hex_digit (c / 16); hex_digit (c mod 16)]
  else [c].

(** [out] is what has been written; [None] is the return value -1. *)
Fixpoint json_loop (cap : nat) (out src : list Z) : option (list Z) :=
  match src with
  | [] => if (cap <=? length out)%nat then None else Some out
  | c :: src => if (cap <=? length out + length (json_char c))%nat then None else json_loop cap (out ++ json_char c) src
  end.

Definition json_escape (cap : nat) (src : list Z) : option (list Z) := json_loop cap [] src.

(** ["key":] *)
Definition json_key (k : string) : list Z := 34 :: bytes k ++ [34; 58].
Definition json_text (s : list Z) : list Z := 34 :: s ++ [34].

Definition json_error (what : string) : list Z := 123 :: json_key "error" ++ json_text (bytes what) ++ [125].
Definition json_true (k : string) : list Z := 123 :: json_key k ++ bytes "true" ++ [125].

(** ** Answering *)

(** [date] is what [htttp_serialize_response] puts in its Date line; the frame
    written, if there is one. *)
Definition ctl_frame (date : option (list Z)) (status : Z) (body : list Z) : option (list Z) :=
  let res :=
    if bool_decide (body = []) then mkResponse status [] None 0
    else mkResponse status (match htttp_header_set [] (bytes "Content-Type") (bytes "application/json") with Ok hs => hs | Err _ => [] end)
           (Some body) (Z.of_nat (length body)) in
  match htttp_serialize_response date res CTL_FRAME_CAP with
  | Ok frame => Some frame
  | Err _ =>
      if negb (status =? 500) then
        match htttp_serialize_response date (mkResponse 500 [] None 0) CTL_FRAME_CAP with
        | Ok frame => Some frame
        | Err _ => None
        end
      else None
  end.

Definition ctl_reply (date : option (list Z)) (fd status : Z) (body : list Z) : list ctl_action :=
  match ctl_frame date status body with Some f => [CtlWrite fd f] | None => [] end ++ [CtlClose fd].

(** ** Reading a command *)

(** What follows the second number is not looked at. *)
Definition parse_kick_path (path : list Z) : option (Z * Z) :=
  rest ← scan_lit (bytes "/room/") path;
  '(room, rest) ← scan_int rest;
  rest ← scan_lit (bytes "/player/") rest;
  '(player, _) ← scan_int rest;
  Some (room, player).

Definition classify (fd : Z) (req : htttp_request) : CtlReq :=
  let asks m := strcmp (method req) (bytes m) =? 0 in
  if asks "STATUS"%string then mkCtlReq fd CTL_VERB_STATUS 0 0
  else if asks "SHUTDOWN"%string then mkCtlReq fd CTL_VERB_SHUTDOWN 0 0
  else if asks "ROOMS"%string then mkCtlReq fd CTL_VERB_ROOMS 0 0
  else if asks "PLAYERS"%string then mkCtlReq fd CTL_VERB_PLAYERS 0 0
  else if asks "RELOAD"%string then mkCtlReq fd CTL_VERB_RELOAD 0 0
  else if asks "KICK"%string then
    match parse_kick_path (path req) with
    | Some (room, player) => mkCtlReq fd CTL_VERB_KICK room player
    | None => mkCtlReq fd CTL_VERB_BAD 0 0
    end
  else mkCtlReq fd CTL_VERB_BAD 0 0.

(** [frame] is what [ctl_frame_read] yields and [notified] whether the admin's pipe
    takes the command; the command that is then the admin's to answer. *)
Definition handle_conn (date : option (list Z)) (fd : Z) (frame : option (list Z)) (notified : bool)
    : list ctl_action * option CtlReq :=
  match frame with
  | None => ([CtlClose fd], None)
  | Some frame =>
      match htttp_parse_request frame with
      | Err _ => (ctl_reply date fd 400 (json_error "malformed request"), None)
      | Ok req =>
          let cr := classify fd req in
          match cr_verb cr with
          | CTL_VERB_BAD => (ctl_reply date fd 400 (json_error "unknown command"), None)
          | _ => if notified then ([], Some cr) else (ctl_reply date fd 500 (json_error "control plane busy"), None)
          end
      end
  end.

(** ** Reports *)

Definition BODY_CAP : nat := Z.to_nat 32768.

(** BODY_APPEND, to a buffer of [cap] bytes. *)
Definition body_add (cap : nat) (body : list Z) (s : list Z) : option (list Z) :=
  if (cap - length body <=? length s)%nat then None else Some (body ++ s).

Definition build_status (uptime : Z) (s : Admin) : option (list Z) * Admin :=
  let '(sessions, s) := client_count s in
  let '(rooms, s) := room_count s in
  (body_add BODY_CAP [] (123 :: json_key "uptime" ++ decimal_ll uptime ++ 44 :: json_key "sessions" ++ decimal_int sessions ++
     44 :: json_key "rooms" ++ decimal_int rooms ++ [125]), s).

Definition room_json (r : RoomInfo) : list Z :=
  123 :: json_key "id" ++ decimal_int (ri_id r) ++ 44 :: json_key "phase" ++ json_text (phase_name (ri_phase r)) ++
  44 :: json_key "members" ++ decimal_int (ri_members r) ++ 44 :: json_key "owner" ++ decimal_int (ri_owner_player r) ++ [125].

(** The loop over the rows; [first] is [i == 0]. *)
Fixpoint rows_loop {A} (cap : nat) (row : A -> option (list Z)) (first : bool) (body : list Z) (rs : list A) : option (list Z) :=
  match rs with
  | [] => body_add cap body [93]
  | r :: rs =>
      text ← row r;
      body ← body_add cap body ((if first then [] else [44]) ++ text);
      rows_loop cap row false body rs
  end.

Definition build_rooms (s : Admin) : option (list Z) * Admin :=
  let '(rooms, s) := room_snapshot s MAX_ROOMS in
  (body ← body_add BODY_CAP [] [91]; rows_loop BODY_CAP (fun r => Some (room_json r)) true body rooms, s).

Definition NAME_CAP : nat := Z.to_nat (MAX_USER_NAME * 6).

Definition player_json (p : PlayerInfo) (name : list Z) : list Z :=
  123 :: json_key "room" ++ decimal_int (pi_room p) ++ 44 :: json_key "player" ++ decimal_int (pi_player p) ++
  44 :: json_key "pid" ++ decimal_int (pi_pid p) ++ 44 :: json_key "owner" ++
  (if negb (pi_is_owner p =? 0) then bytes "true" else bytes "false") ++
  44 :: json_key "score" ++ decimal_int (pi_score p) ++ 44 :: json_key "lines" ++ decimal_int (pi_lines p) ++
  44 :: json_key "name" ++ json_text name ++ [125].

Definition player_row (p : PlayerInfo) : option (list Z) :=
  name ← json_escape NAME_CAP (bytes (pi_name p)); Some (player_json p name).

Definition build_players (s : Admin) : option (list Z) * Admin :=
  let '(players, s) := player_snapshot s MAX_SESSIONS in
  (body ← body_add BODY_CAP [] [91]; rows_loop BODY_CAP player_row true body players, s).

(** ** Carrying a command out *)

(** A report, or 500 when it does not fit. *)
Definition report (date : option (list Z)) (fd : Z) (body : option (list Z)) : list ctl_action :=
  match body with Some b => ctl_reply date fd 200 b | None => ctl_reply date fd 500 [] end.

(** [uptime] is the clock's; [signalled] whether the process could signal itself. *)
Definition ctl_dispatch (date : option (list Z)) (uptime : Z) (signalled : bool) (s : Admin) (req : CtlReq)
    : list ctl_action * CtlAfter * Z * Admin :=
  let fd := cr_fd req in
  match cr_verb req with
  | CTL_VERB_STATUS => let '(b, s) := build_status uptime s in (report date fd b, CTL_AFTER_NONE, -1, s)
  | CTL_VERB_ROOMS => let '(b, s) := build_rooms s in (report date fd b, CTL_AFTER_NONE, -1, s)
  | CTL_VERB_PLAYERS => let '(b, s) := build_players s in (report date fd b, CTL_AFTER_NONE, -1, s)
  | CTL_VERB_KICK =>
      let '(victim, s) := client_fd_by_player s (cr_room req) (cr_player req) in
      if victim <? 0 then (ctl_reply date fd 404 (json_error "no such player"), CTL_AFTER_NONE, -1, s)
      else (ctl_reply date fd 200 (json_true "kicked") ++ [CtlNotify victim (set_m_reason REJECT_NOT_OWNER (zero_msg ADMIN_REJECT))],
            CTL_AFTER_KICK, victim, s)
  | CTL_VERB_SHUTDOWN => (ctl_reply date fd 200 (json_true "shutdown"), CTL_AFTER_SHUTDOWN, -1, s)
  | CTL_VERB_RELOAD =>
      if negb signalled then (ctl_reply date fd 500 (json_error "could not signal self"), CTL_AFTER_NONE, -1, s)
      else (ctl_reply date fd 200 (json_true "reload"), CTL_AFTER_NONE, -1, s)
  | CTL_VERB_BAD => (ctl_reply date fd 400 (json_error "unknown command"), CTL_AFTER_NONE, -1, s)
  end.
