(* ===== verification/ControlTheorems.v ===== *)
(** * ControlTheorems: what the operator is told, and who is kicked

    Theorems about tetriSH/src/tetrisctl/control_plane.c over the room table: names
    survive the JSON they are written in, a report is complete or refused, a kick
    finds its player, and every connection is answered once. *)

From Stdlib Require Import String.
From stdpp Require Import options.
From S2P Require Import Prelude Piece AdminMsg Keyed Lobby Room RoomInv RoomSpec RoomTheorems Text Htttp ControlPlane.
#[local] Open Scope Z_scope.

(** ** JSON strings *)

Definition unhex (c : Z) : option Z :=
  if (48 <=? c) && (c <=? 57) then Some (c - 48) else if (97 <=? c) && (c <=? 102) then Some (c - 87) else None.

(** How a JSON reader takes a string, up to its closing quote: the characters and
    what follows. *)
Fixpoint json_read (s : list Z) : option (list Z * list Z) :=
  match s with
  | [] => None
  | 34 :: s => Some ([], s)
  | 92 :: 34 :: s => '(t, r) ← json_read s; Some (34 :: t, r)
  | 92 :: 92 :: s => '(t, r) ← json_read s; Some (92 :: t, r)
  | 92 :: 110 :: s => '(t, r) ← json_read s; Some (10 :: t, r)
  | 92 :: 114 :: s => '(t, r) ← json_read s; Some (13 :: t, r)
  | 92 :: 116 :: s => '(t, r) ← json_read s; Some (9 :: t, r)
  | 92 :: 117 :: 48 :: 48 :: a :: b :: s =>
      a ← unhex a; b ← unhex b; '(t, r) ← json_read s; Some (16 * a + b :: t, r)
  | c :: s => if (c =? 92) || (c <? 32) then None else '(t, r) ← json_read s; Some (c :: t, r)
  end.

Lemma unhex_digit v : 0 <= v < 16 -> unhex (hex_digit v) = Some v.
Proof.
  intros Hv. unfold unhex, hex_digit. destruct (Z.ltb_spec v 10).
  - rewrite !(proj2 (Z.leb_le _ _)) by lia. cbn [andb]. f_equal. lia.
  - rewrite (proj2 (Z.leb_gt (87 + v) 57)), andb_false_r by lia. rewrite !(proj2 (Z.leb_le _ _)) by lia. cbn [andb]. f_equal. lia.
Qed.

Lemma json_read_plain c s : 32 <= c -> c <> 34 -> c <> 92 -> json_read (c :: s) = '(t, r) ← json_read s; Some (c :: t, r).
Proof.
  intros H1 H2 H3. cbn [json_read].
  transitivity (if (c =? 92) || (c <? 32) then None else '(t, r) ← json_read s; Some (c :: t, r)).
  - clear H1. repeat match goal with |- context [match ?x with _ => _ end] => is_var x; destruct x; try congruence end; try congruence; done.
  - rewrite (proj2 (Z.eqb_neq c 92)), (proj2 (Z.ltb_ge c 32)) by lia. done.
Qed.

Lemma json_read_char c s t r :
  0 <= c -> json_read s = Some (t, r) -> json_read (json_char c ++ s) = Some (c :: t, r).
Proof.
  intros Hc Hs. unfold json_char.
  destruct (Z.eqb_spec c 34) as [->|]; [cbn; by rewrite Hs|]. destruct (Z.eqb_spec c 92) as [->|]; [cbn; by rewrite Hs|].
  destruct (Z.eqb_spec c 10) as [->|]; [cbn; by rewrite Hs|]. destruct (Z.eqb_spec c 13) as [->|]; [cbn; by rewrite Hs|].
  destruct (Z.eqb_spec c 9) as [->|]; [cbn; by rewrite Hs|]. destruct (Z.ltb_spec c 32).
  - change ((bytes "\u00" ++ [hex_digit (c / 16); hex_digit (c mod 16)]) ++ s)
      with (92 :: 117 :: 48 :: 48 :: hex_digit (c / 16) :: hex_digit (c mod 16) :: s). cbn [json_read].
    rewrite !unhex_digit; [|split; [apply Z.div_pos; lia|apply Z.div_lt_upper_bound; lia]|apply Z.mod_pos_bound; lia].
    cbn [mbind option_bind]. rewrite Hs. cbn [mbind option_bind]. do 3 f_equal. pose proof (Z.div_mod c 16). lia.
  - cbn [app]. rewrite json_read_plain by lia. by rewrite Hs.
Qed.

(** What [json_escape] writes when it fits. *)
Definition escaped (src : list Z) : list Z := mjoin (json_char <$> src).

Lemma json_loop_spec cap src : forall out,
  json_loop cap out src = if (length out + length (escaped src) <? cap)%nat then Some (out ++ escaped src) else None.
Proof.
  induction src as [|c src IH]; intros out; cbn [json_loop].
  - unfold escaped. simpl. rewrite app_nil_r, Nat.add_0_r. destruct (Nat.leb_spec cap (length out)).
    + by rewrite (proj2 (Nat.ltb_ge _ _)).
    + by rewrite (proj2 (Nat.ltb_lt _ _)).
  - assert (He : escaped (c :: src) = json_char c ++ escaped src) by done. rewrite He, length_app.
    destruct (Nat.leb_spec cap (length out + length (json_char c))).
    + by rewrite (proj2 (Nat.ltb_ge _ _)) by lia.
    + rewrite IH, length_app, <- app_assoc. by rewrite Nat.add_assoc.
Qed.

Lemma escaped_reads src rest : Forall (fun c => 0 <= c) src -> json_read (escaped src ++ 34 :: rest) = Some (src, rest).
Proof.
  induction 1 as [|c src Hc _ IH]; [done|]. change (escaped (c :: src)) with (json_char c ++ escaped src).
  rewrite <- app_assoc. by apply json_read_char.
Qed.

Lemma length_json_char c : (1 <= length (json_char c) <= 6)%nat.
Proof. unfold json_char. repeat case_match; simpl; lia. Qed.

Lemma length_escaped src : (length src <= length (escaped src) <= 6 * length src)%nat.
Proof.
  induction src as [|c src IH]; [done|]. change (escaped (c :: src)) with (json_char c ++ escaped src).
  rewrite length_app. pose proof (length_json_char c). simpl. lia.
Qed.

(** ** Reports *)

Definition json_array (rows : list (list Z)) : list Z := 91 :: join_on 44 rows ++ [93].

(** A report that fits its buffer, or none. *)
Definition whole (cap : nat) (b : list Z) : option (list Z) := if (length b <? cap)%nat then Some b else None.

Definition comma_rows (rows : list (list Z)) : list Z := mjoin ((cons 44) <$> rows).

Lemma join_comma r rs : join_on 44 (r :: rs) = r ++ comma_rows rs.
Proof.
  revert r. induction rs as [|r' rs IH]; intros r; [by rewrite app_nil_r|].
  change (join_on 44 (r :: r' :: rs)) with (r ++ 44 :: join_on 44 (r' :: rs)). by rewrite IH.
Qed.

Lemma body_add_spec cap body s : body_add cap body s = if (length body + length s <? cap)%nat then Some (body ++ s) else None.
Proof.
  unfold body_add. destruct (Nat.leb_spec (cap - length body) (length s)).
  - by rewrite (proj2 (Nat.ltb_ge _ _)) by lia.
  - by rewrite (proj2 (Nat.ltb_lt _ _)) by lia.
Qed.

Lemma rows_loop_rest {A} cap (row : A -> option (list Z)) (text : A -> list Z) rs :
  Forall (fun r => row r = Some (text r)) rs ->
  forall body, rows_loop cap row false body rs = whole cap (body ++ comma_rows (text <$> rs) ++ [93]).
Proof.
  induction 1 as [|r rs Hr _ IH]; intros body; cbn [rows_loop]; unfold whole.
  - by rewrite body_add_spec, length_app.
  - rewrite Hr. cbn [mbind option_bind]. rewrite body_add_spec.
    assert (Hc : comma_rows (text <$> r :: rs) = (44 :: text r) ++ comma_rows (text <$> rs)) by done. rewrite Hc.
    destruct (Nat.ltb_spec (length body + length ([44] ++ text r)) cap) as [Hlt|Hge]; cbn [mbind option_bind].
    + rewrite IH. unfold whole. by rewrite <- !app_assoc.
    + rewrite (proj2 (Nat.ltb_ge _ _)); [done|]. rewrite !length_app in *. simpl in *. lia.
Qed.

Lemma rows_loop_whole {A} cap (row : A -> option (list Z)) (text : A -> list Z) rs :
  (1 < cap)%nat -> Forall (fun r => row r = Some (text r)) rs ->
  (body ← body_add cap [] [91]; rows_loop cap row true body rs) = whole cap (json_array (text <$> rs)).
Proof.
  intros Hcap Hrs. rewrite (body_add_spec cap [] [91]), (proj2 (Nat.ltb_lt _ _)) by (simpl length; lia).
  cbn [mbind option_bind app]. unfold json_array.
  destruct Hrs as [|r rs Hr Hrs]; cbn [rows_loop]; [by rewrite body_add_spec|]. rewrite Hr. cbn [mbind option_bind app]. rewrite body_add_spec.
  rewrite fmap_cons, join_comma. destruct (Nat.ltb_spec (length [91] + length (text r)) cap) as [Hlt|Hge]; cbn [mbind option_bind].
  - rewrite (rows_loop_rest cap row text) by done. by rewrite <- !app_assoc.
  - unfold whole. rewrite (proj2 (Nat.ltb_ge _ _)); [done|]. cbn [length app]. rewrite !length_app in *. simpl in *. lia.
Qed.

(** The clients that are connected, and the rows that describe them. *)
Definition connected (s : Admin) : list Client := filter (fun c => 0 <= c_fd c) (g_clients s).
Definition open_rooms (s : Admin) : list Room := filter (fun r => r_id r <> 0) (g_rooms s).

Definition player_text (c : Client) : list Z := player_json (player_info c) (escaped (bytes (snprintf_s MAX_USER_NAME (c_name c)))).

Lemma short_name n : (length (bytes (snprintf_s MAX_USER_NAME n)) < 16)%nat.
Proof.
  unfold bytes. rewrite length_fmap. unfold snprintf_s. change (Z.to_nat (MAX_USER_NAME - 1)) with 15%nat.
  assert (H : forall k n, (length (list_ascii_of_string (String.substring 0 k n)) <= k)%nat).
  { induction k as [|k IH]; intros [|a m]; simpl; try lia. specialize (IH m). lia. }
  specialize (H 15%nat n). lia.
Qed.

Lemma player_row_text c : player_row (player_info c) = Some (player_text c).
Proof.
  unfold player_row, json_escape. cbn [pi_name player_info]. rewrite json_loop_spec. cbn [length app].
  pose proof (short_name (c_name c)). pose proof (length_escaped (bytes (snprintf_s MAX_USER_NAME (c_name c)))).
  rewrite (proj2 (Nat.ltb_lt _ _)); [done|]. change NAME_CAP with 96%nat. lia.
Qed.

Lemma players_report ws rd s :
  rtc (admin_step ws rd) admin_start s -> build_players s = (whole BODY_CAP (json_array (player_text <$> connected s)), s).
Proof.
  intros Hr. pose proof (admin_steps_ok ws rd s Hr) as [Hs _]. unfold build_players, player_snapshot.
  rewrite ensure_init_id by (by destruct Hs). f_equal.
  rewrite take_ge; [|rewrite length_fmap; etrans; [apply length_filter|]; destruct Hs; lia].
  rewrite (rows_loop_whole BODY_CAP player_row (fun p => default [] (player_row p))).
  - do 2 f_equal. unfold connected. rewrite <- list_fmap_compose. apply list_fmap_ext. intros i c _.
    transitivity (default [] (player_row (player_info c))); [done|by rewrite player_row_text].
  - unfold BODY_CAP. lia.
  - apply Forall_fmap, list.Forall_forall. intros c _.
    change (player_row (player_info c) = Some (default [] (player_row (player_info c)))). by rewrite player_row_text.
Qed.

Lemma rooms_report ws rd s :
  rtc (admin_step ws rd) admin_start s ->
  build_rooms s = (whole BODY_CAP (json_array (room_json <$> (room_info s <$> open_rooms s))), s).
Proof.
  intros Hr. pose proof (admin_steps_ok ws rd s Hr) as [Hs _]. unfold build_rooms, room_snapshot.
  rewrite ensure_init_id by (by destruct Hs). f_equal.
  rewrite take_ge; [|rewrite length_fmap; etrans; [apply length_filter|]; destruct Hs; lia].
  rewrite (rows_loop_whole BODY_CAP _ room_json); [done|unfold BODY_CAP; lia|]. by apply list.Forall_forall.
Qed.

(** a report is complete or it is refused.  In every state the admin thread can
    reach, the list of players has one row per connected client and the list of rooms
    one per open room, in table order; the answer carries the whole of it, or is 500
    when it does not fit the 32 KiB body - never a list that was cut off.  Every row
    gives the name as JSON that any reader reads back as that very name. *)
Theorem reports_whole_or_refused ws rd s :
  rtc (admin_step ws rd) admin_start s ->
  (build_players s).1 = whole BODY_CAP (json_array (player_text <$> connected s)) /\
  (build_rooms s).1 = whole BODY_CAP (json_array (room_json <$> (room_info s <$> open_rooms s))) /\
  Forall (fun c => forall rest, json_read (escaped (bytes (snprintf_s MAX_USER_NAME (c_name c))) ++ 34 :: rest) =
    Some (bytes (snprintf_s MAX_USER_NAME (c_name c)), rest)) (connected s).
Proof.
  intros Hr. split_and!; [by rewrite (players_report ws rd)|by rewrite (rooms_report ws rd)|].
  apply list.Forall_forall. intros c _ rest. apply escaped_reads. unfold bytes. apply Forall_fmap, list.Forall_forall.
  intros a _. cbn. lia.
Qed.

(** ** A report that cannot fit *)

Lemma length_comma rows k : Forall (fun r => (k <= length r)%nat) rows -> (k * length rows <= length (comma_rows rows))%nat.
Proof.
  induction 1 as [|r rows Hr _ IH]; [simpl; lia|]. change (comma_rows (r :: rows)) with ((44 :: r) ++ comma_rows rows).
  rewrite length_app. cbn [length]. lia.
Qed.

Lemma length_array rows k : Forall (fun r => (k <= length r)%nat) rows -> (k * length rows <= length (json_array rows))%nat.
Proof.
  intros H. unfold json_array. cbn [length]. rewrite length_app. destruct H as [|r rows Hr H]; [simpl; lia|].
  rewrite join_comma, length_app. pose proof (length_comma rows k H). simpl. lia.
Qed.

Lemma length_player c : (67 <= length (player_text c))%nat.
Proof.
  unfold player_text, player_json, json_text.
  assert (Hk : forall k l, length (json_key k ++ l) = (3 + length (bytes k) + length l)%nat)
    by (intros k l; unfold json_key; cbn [length app]; rewrite !length_app; cbn [length]; lia).
  assert (Ho : (4 <= length (if negb (pi_is_owner (player_info c) =? 0)%Z then bytes "true" else bytes "false"))%nat)
    by (case_match; vm_compute; lia).
  repeat (cbn [length]; first [rewrite Hk|rewrite length_app]).
  change (length (bytes "room")) with 4%nat. change (length (bytes "player")) with 6%nat. change (length (bytes "pid")) with 3%nat.
  change (length (bytes "owner")) with 5%nat. change (length (bytes "score")) with 5%nat. change (length (bytes "lines")) with 5%nat.
  change (length (bytes "name")) with 4%nat. cbn [length]. lia.
Qed.

(** C40: the operator's view is smaller than the server.  With 490 clients or more,
    fewer than half of the 1024 the server takes, the list of players never fits and
    the command is answered with 500. *)
Theorem crowded_server_is_not_listed date uptime signalled s fd room player :
  g_inited s = true -> (490 <= length (connected s))%nat -> (length (connected s) <= Z.to_nat MAX_SESSIONS)%nat ->
  ctl_dispatch date uptime signalled s (mkCtlReq fd CTL_VERB_PLAYERS room player) =
  (ctl_reply date fd 500 [], CTL_AFTER_NONE, -1, s).
Proof.
  intros Hi Hn Hmax. unfold ctl_dispatch. cbn [cr_fd cr_verb].
  assert (Hb : build_players s = (None, s)); [|by rewrite Hb].
  unfold build_players, player_snapshot. rewrite ensure_init_id by done.
  rewrite take_ge by (rewrite length_fmap; exact Hmax). f_equal.
  rewrite (rows_loop_whole BODY_CAP player_row (fun p => default [] (player_row p))).
  - unfold whole. rewrite (proj2 (Nat.ltb_ge _ _)); [done|]. etrans; [|apply (length_array _ 67)].
    + rewrite !length_fmap. change (length (filter _ _)) with (length (connected s)). unfold BODY_CAP. lia.
    + apply Forall_fmap, Forall_fmap, list.Forall_forall. intros c _.
      change (67 <= length (default [] (player_row (player_info c))))%nat. rewrite player_row_text. apply length_player.
  - unfold BODY_CAP. lia.
  - apply Forall_fmap, list.Forall_forall. intros c _.
    change (player_row (player_info c) = Some (default [] (player_row (player_info c)))). by rewrite player_row_text.
Qed.

(** ** Kicking *)

Definition sits (room player : Z) (st : Seat) : Prop := s_room st = room /\ s_player st = player.

Lemma fd_by_player s room player :
  slots_ok s -> let fd := (client_fd_by_player s room player).1 in
  (fd < 0 /\ forall fd' st, seats (abs s) !! fd' = Some st -> ~ sits room player st) \/
  (0 <= fd /\ exists st, seats (abs s) !! fd = Some st /\ sits room player st).
Proof.
  intros Hs. unfold client_fd_by_player. rewrite ensure_init_id by (by destruct Hs). cbn [fst].
  destruct (list_find _ (g_clients s)) as [[i c]|] eqn:E.
  - apply list_find_Some in E as (Hi & (Hfd & Hr & Hp) & _). right. split; [done|]. exists (seat_of c). split; [|done].
    apply (slot_map_lookup_1 c_fd fd_ok seat_of _ i); auto with corestack.
  - left. split; [done|]. intros fd' st Hst [Hr Hp]. apply list_find_None in E. rewrite list.Forall_forall in E.
    unfold abs in Hst. simpl in Hst. apply slot_map_lookup in Hst as (i & c & Hi & Hok & Hk & <-); [|by destruct Hs].
    apply (E c); [by eapply list_elem_of_lookup_2|]. simpl in Hr, Hp. subst fd'. done.
Qed.

(** a kick removes the player it names and no other.  In every state the admin
    thread can reach, a kick of a player in a room is answered 404 when nobody sits
    there under that number; otherwise the victim handed to the daemon is the one
    client who does - there is no second one - and it is the one told why; the tables
    are as they were. *)
Theorem kick_finds_its_player ws rd s date uptime signalled fd room player :
  rtc (admin_step ws rd) admin_start s -> 0 < room ->
  let '(acts, next, victim, s') := ctl_dispatch date uptime signalled s (mkCtlReq fd CTL_VERB_KICK room player) in
  s' = s /\
  ((next = CTL_AFTER_NONE /\ acts = ctl_reply date fd 404 (json_error "no such player") /\
    forall fd' st, seats (abs s) !! fd' = Some st -> ~ sits room player st) \/
   (next = CTL_AFTER_KICK /\
    acts = ctl_reply date fd 200 (json_true "kicked") ++ [CtlNotify victim (set_m_reason REJECT_NOT_OWNER (zero_msg ADMIN_REJECT))] /\
    (exists st, seats (abs s) !! victim = Some st /\ sits room player st) /\
    forall fd' st, seats (abs s) !! fd' = Some st -> sits room player st -> fd' = victim)).
Proof.
  intros Hreach Hroom. pose proof (admin_steps_ok ws rd s Hreach) as [Hs (Hcore & Hseats & _)].
  unfold ctl_dispatch. cbn [cr_fd cr_verb cr_room cr_player]. pose proof (fd_by_player s room player Hs) as Hf.
  assert (Hst : (client_fd_by_player s room player).2 = s) by (unfold client_fd_by_player; cbn; apply ensure_init_id; by destruct Hs).
  destruct (client_fd_by_player s room player) as [victim s']. cbn [fst snd] in *. subst s'.
  destruct Hf as [[Hneg Hno]|[Hpos (st & Hv & Hsits)]].
  - rewrite (proj2 (Z.ltb_lt _ _)) by done. auto.
  - rewrite (proj2 (Z.ltb_ge _ _)) by done. split; [done|]. right. split_and!; [done|done|eauto|].
    intros fd' st' Hst' Hs'. destruct (Hseats _ _ Hv) as [_ [Hneg|[t Ht]]].
    { destruct Hsits as [Hr _]. lia. }
    destruct Hsits as [Hr Hp], Hs' as [Hr' Hp']. apply (tc_distinct _ _ _ (Hcore _ _ Ht) _ _ st' st); congruence.
Qed.

(** ** One answer per connection *)

(** At most one frame to the operator, then its connection is closed, and after that
    only sessions are written to. *)
Definition answered (fd : Z) (acts : list ctl_action) : Prop :=
  exists reply post, acts = reply ++ CtlClose fd :: post /\ (reply = [] \/ exists f, reply = [CtlWrite fd f]) /\
    Forall (fun a => exists fd' m, a = CtlNotify fd' m) post.

Lemma reply_answers date fd st body post :
  Forall (fun a => exists fd' m, a = CtlNotify fd' m) post -> answered fd (ctl_reply date fd st body ++ post).
Proof.
  intros Hp. unfold ctl_reply, answered. eexists _, post. split; [by rewrite <- app_assoc|]. split; [|done].
  case_match; eauto.
Qed.

(** Whatever the operator sends, its connection is answered and closed once: by the
    thread that read it, or, when that thread hands the command over, by the admin
    thread that carries it out. *)
Lemma connection_answered_once date fd frame notified uptime signalled s :
  match handle_conn date fd frame notified with
  | (acts, None) => answered fd acts
  | (acts, Some req) => acts = [] /\ cr_fd req = fd /\ answered fd (ctl_dispatch date uptime signalled s req).1.1.1
  end.
Proof.
  assert (H0 : forall st body, answered fd (ctl_reply date fd st body)).
  { intros st body. rewrite <- (app_nil_r (ctl_reply _ _ _ _)). by apply reply_answers. }
  unfold handle_conn. destruct frame as [frame|]; [|by exists [], []; auto].
  destruct (htttp_parse_request frame) as [req|]; [|done].
  assert (Hfd : cr_fd (classify fd req) = fd) by (unfold classify; repeat case_match; done).
  assert (Hd : answered fd (ctl_dispatch date uptime signalled s (classify fd req)).1.1.1).
  { unfold ctl_dispatch. rewrite Hfd. destruct (cr_verb (classify fd req)); unfold report; repeat case_match; cbn [fst]; simplify_eq; auto.
    apply reply_answers. by repeat econstructor. }
  destruct (cr_verb (classify fd req)), notified; auto.
Qed.

(** ** Examples *)

Lemma reports_whole_or_refused_witness :
  (build_players two_players).1 = whole BODY_CAP (json_array (player_text <$> connected two_players)) /\
  length (connected two_players) = 2%nat.
Proof.
  split; [apply (reports_whole_or_refused quiet_net count_rand two_players two_players_reach)|vm_compute; reflexivity].
Defined.

Lemma kick_finds_its_player_witness :
  (ctl_dispatch None 0 true two_players (mkCtlReq 5 CTL_VERB_KICK 7 1)).1.2 = 11 /\
  forall fd' st, seats (abs two_players) !! fd' = Some st -> sits 7 1 st -> fd' = 11.
Proof.
  assert (Hv : (ctl_dispatch None 0 true two_players (mkCtlReq 5 CTL_VERB_KICK 7 1)).1.2 = 11) by (vm_compute; reflexivity).
  assert (Hk : (ctl_dispatch None 0 true two_players (mkCtlReq 5 CTL_VERB_KICK 7 1)).1.1.2 = CTL_AFTER_KICK) by (vm_compute; reflexivity).
  split; [exact Hv|].
  pose proof (kick_finds_its_player quiet_net count_rand two_players None 0 true 5 7 1 two_players_reach ltac:(lia)) as H.
  destruct (ctl_dispatch None 0 true two_players (mkCtlReq 5 CTL_VERB_KICK 7 1)) as [[[acts next] victim] s'].
  cbn [fst snd] in Hv, Hk. subst victim next. destruct H as [_ [H|H]]; [destruct H as [H _]; discriminate H|].
  destruct H as (_ & _ & _ & H). exact H.
Defined.

(** 490 clients in the lobby. *)
Definition crowd : Admin :=
  foldl (fun s fd => client_add quiet_net s fd fd) admin_start (seqZ 10 490).

Lemma crowded_server_is_not_listed_witness :
  length (connected crowd) = 490%nat /\
  ctl_dispatch None 0 true crowd (mkCtlReq 5 CTL_VERB_PLAYERS 0 0) = (ctl_reply None 5 500 [], CTL_AFTER_NONE, -1, crowd).
Proof.
  assert (Hn : length (connected crowd) = 490%nat) by (vm_compute; reflexivity).
  assert (Hi : g_inited crowd = true) by (vm_compute; reflexivity).
  assert (H1 : (490 <= length (connected crowd))%nat) by (rewrite Hn; lia).
  assert (H2 : (length (connected crowd) <= Z.to_nat MAX_SESSIONS)%nat) by (rewrite Hn; unfold MAX_SESSIONS; lia).
  split; [exact Hn|]. exact (crowded_server_is_not_listed None 0 true crowd 5 0 0 Hi H1 H2).
Defined.
