(* ===== verification/Daemon.v ===== *)
(** * Daemon: the admin thread of the game server

    Models tetriSH/src/tetrisd/tetrisd.c from the poll of the admin thread to its
    teardown: the poll set beside the room table, registrations, the operator's
    commands, a reload, the scan of the sessions, and the loop that drops the ones
    that stopped reading.  What poll and the pipes deliver in one turn is the turn's
    input.  Accepting, forking and signal delivery are not modelled; log lines have no
    effect, and with them the state dump. *)

From Stdlib Require Import String.
From stdpp Require Import options.
From S2P Require Import Prelude Piece AdminMsg Room Text Htttp Rc ControlPlane.
#[local] Open Scope Z_scope.

(** ** State *)

(** A session in the poll set; [e_ready] is what the last poll found: nothing, a
    message, or a session that is gone. *)
Record entry := mkEntry { e_fd : Z; e_pid : Z; e_ready : option (option AdminMsg) }.

(** What the daemon does to descriptors and processes. *)
Inductive dact :=
| DCtl (a : ctl_action)
| DClose (fd : Z)
| DTerm (pid : Z)
| DKill (pid : Z)
| DReaped (pid : Z)
| DQuit
| DRelisten (port : Z).

Record Daemon := mkDaemon {
  d_set : list entry;
  d_admin : Admin;
  d_stop : bool;
  d_port : Z;
  d_acts : list dact
}.

Definition set_d_set (v : list entry) (d : Daemon) : Daemon := mkDaemon v (d_admin d) (d_stop d) (d_port d) (d_acts d).
Definition set_d_admin (v : Admin) (d : Daemon) : Daemon := mkDaemon (d_set d) v (d_stop d) (d_port d) (d_acts d).
Definition set_d_port (v : Z) (d : Daemon) : Daemon := mkDaemon (d_set d) (d_admin d) (d_stop d) v (d_acts d).
Definition act (a : list dact) (d : Daemon) : Daemon := mkDaemon (d_set d) (d_admin d) (d_stop d) (d_port d) (d_acts d ++ a).

(** Asks the accepting threads to stop, once. *)
Definition request_stop (d : Daemon) : Daemon :=
  if d_stop d then d else mkDaemon (d_set d) (d_admin d) true (d_port d) (d_acts d ++ [DQuit]).

(** ** Configuration *)

Definition PATH_CAP : nat := Z.to_nat 4096.

(** Whether every directive the server needs is there, and the port. *)
Definition rc_config (file : option (list Z)) : bool * Z :=
  let '(st, port) := rc_get_int false file (bytes "listen_port") 0 1 65535 0 in
  let has k := bool_decide ((rc_get false file (bytes k) None PATH_CAP None).1 = RC_VALUE_FOUND) in
  (bool_decide (st = RC_VALUE_FOUND) && has "cert_path"%string && has "key_path"%string && has "ca_path"%string &&
   has "log_path"%string && has "log_ipc"%string, port).

(** [bound] is whether the new port could be bound, [handed] whether the listener's
    pipe took the socket. *)
Definition reload_config (file : option (list Z)) (bound handed : bool) (d : Daemon) : Daemon :=
  let '(_, new_port) := rc_get_int false file (bytes "listen_port") (d_port d) 1 65535 (d_port d) in
  if new_port =? d_port d then d
  else if negb bound then d
  else if negb handed then d
  else set_d_port new_port (act [DRelisten new_port] d).

(** ** Sessions *)

Definition REAP_TIMEOUT_MS : Z := 500.
Definition step_ms : Z := 10.

Section daemon.
Context (ws : list (Z * AdminMsg) -> Z -> AdminMsg -> Z) (rd : nat -> Z).
(** Whether the [k]-th look finds the child gone. *)
Context (exits : Z -> Z -> bool).
(** For the answers to the operator: the Date line, the uptime, whether the process
    could signal itself. *)
Context (date : option (list Z)) (uptime : Z) (signalled : bool).

Definition reap_bounded (pid timeout_ms : Z) : list dact :=
  if existsb (exits pid) (range (timeout_ms / step_ms)) then [DReaped pid] else [DKill pid; DReaped pid].

Definition session_index (d : Daemon) (fd : Z) : option nat := fst <$> list_find (fun e => e_fd e = fd) (d_set d).

(** [g_fds[i] = g_fds[g_nfds - 1]; g_nfds--]. *)
Definition compact (i : nat) (l : list entry) : list entry :=
  match last l with
  | Some e => take (length l - 1) (<[i := e]> l)
  | None => l
  end.

Definition drop_session (i : nat) (d : Daemon) : Daemon :=
  match d_set d !! i with
  | None => d
  | Some e =>
      let d := set_d_admin (client_close ws (d_admin d) (e_fd e)) d in
      let d := act (DClose (e_fd e) :: reap_bounded (e_pid e) REAP_TIMEOUT_MS) d in
      set_d_set (compact i (d_set d)) d
  end.

Definition handle_ctl (d : Daemon) (req : CtlReq) : Daemon :=
  let '(acts, next, kick_fd, a) := ctl_dispatch date uptime signalled (d_admin d) req in
  let d := act (DCtl <$> acts) (set_d_admin a d) in
  match next with
  | CTL_AFTER_SHUTDOWN => request_stop d
  | CTL_AFTER_KICK =>
      match session_index d kick_fd with
      | Some i => drop_session i (act (match d_set d !! i with Some e => [DTerm (e_pid e)] | None => [] end) d)
      | None => d
      end
  | CTL_AFTER_NONE => d
  end.

(** One announcement of the listener: a process and the admin's end of its
    socketpair. *)
Definition register (d : Daemon) (ns : Z * Z) : Daemon :=
  let '(pid, fd) := ns in
  if Z.of_nat (length (d_set d)) <=? MAX_SESSIONS - 1
  then set_d_admin (client_add ws (d_admin d) fd pid) (set_d_set (d_set d ++ [mkEntry fd pid None]) d)
  else act [DClose fd] d.

(** The scan of the poll set from slot [i]; a dropped session's slot holds another one
    and is looked at again. *)
Fixpoint scan (fuel : nat) (i : nat) (d : Daemon) : option Daemon :=
  match fuel with
  | O => None
  | S fuel =>
      match d_set d !! i with
      | None => Some d
      | Some e =>
          match e_ready e with
          | None => scan fuel (S i) d
          | Some (Some m) => a ← client_handle ws rd (d_admin d) (e_fd e) m; scan fuel (S i) (set_d_admin a d)
          | Some None => scan fuel i (drop_session i d)
          end
      end
  end.

(** The do-while over the queue of stuck sessions. *)
Fixpoint drop_wedged (fuel : nat) (fd : Z) (d : Daemon) : option Daemon :=
  match fuel with
  | O => None
  | S fuel =>
      let d := match session_index d fd with Some i => drop_session i d | None => d end in
      let '(fd, a) := client_take_wedged (d_admin d) in
      let d := set_d_admin a d in
      if fd <? 0 then Some d else drop_wedged fuel fd d
  end.

Definition drop_fuel (d : Daemon) : nat := (Z.to_nat WEDGED_MAX + 1) * S (length (d_set d)).

Fixpoint settle (fuel : nat) (d : Daemon) : option Daemon :=
  match fuel with
  | O => None
  | S fuel =>
      let d := set_d_admin (room_flush_updates ws (d_admin d)) d in
      let '(fd, a) := client_take_wedged (d_admin d) in
      let d := set_d_admin a d in
      if fd <? 0 then Some d else d ← drop_wedged (drop_fuel d) fd d; settle fuel d
  end.

(** What one turn finds. *)
Record round := mkRound {
  rn_new : list (Z * Z);
  rn_ctl : list CtlReq;
  rn_reload : option (option (list Z) * bool * bool);
  rn_ready : Z -> option (option AdminMsg)
}.

(** What [poll] writes into the set. *)
Definition polled (r : round) (d : Daemon) : Daemon :=
  set_d_set ((fun e => mkEntry (e_fd e) (e_pid e) (rn_ready r (e_fd e))) <$> d_set d) d.

(** One turn of the loop; the fuels are enough, see [admin_turn_total]. *)
Definition admin_turn (d : Daemon) (r : round) : option Daemon :=
  let d := polled r d in
  let d := foldl register d (rn_new r) in
  let d := foldl handle_ctl d (rn_ctl r) in
  let d := match rn_reload r with Some (file, bound, handed) => reload_config file bound handed d | None => d end in
  d ← scan (S (length (d_set d))) 0 d;
  settle (S (S (length (d_set d)))) d.

(** The turns until the thread is told to stop; an interrupted poll does nothing. *)
Fixpoint admin_turns (d : Daemon) (rs : list (option round)) : option Daemon :=
  match rs with
  | [] => Some d
  | None :: rs => admin_turns d rs
  | Some r :: rs => d ← admin_turn d r; admin_turns d rs
  end.

(** ** Teardown *)

(** [late] are announcements and commands nobody took. *)
Definition admin_teardown (late_new : list (Z * Z)) (late_ctl : list CtlReq) (d : Daemon) : Daemon :=
  let d := act (late_new ≫= fun '(pid, fd) => DClose fd :: DTerm pid :: reap_bounded pid REAP_TIMEOUT_MS) d in
  let d := act ((fun r => DClose (cr_fd r)) <$> late_ctl) d in
  let d := act (reverse (d_set d) ≫= fun e => DClose (e_fd e) :: DTerm (e_pid e) :: reap_bounded (e_pid e) REAP_TIMEOUT_MS) d in
  set_d_set [] d.
End daemon.

(** The thread's first state. *)
Definition daemon_start (port : Z) : Daemon := mkDaemon [] static_admin false port [].
