(* ===== verification/DaemonTheorems.v ===== *)
(** * DaemonTheorems: the poll set and the room table

    The admin thread of tetriSH/src/tetrisd/tetrisd.c keeps two tables of sessions,
    its own poll set and the room module's clients.  Every turn ends, keeps the two
    in step, and goes to sleep with nothing left to do. *)

From Stdlib Require Import String.
From stdpp Require Import options.
From S2P Require Import Prelude Piece AdminMsg Keyed Lobby Room RoomInv RoomSpec RoomTheorems RoomMessages Handlers.
From S2P Require Import Text Htttp Rc ControlPlane ControlTheorems Daemon.
#[local] Open Scope Z_scope.

(** ** The descriptors in the client table *)

Definition live_fds (l : list Z) : list Z := filter (fun fd => 0 <= fd) l.
Definition fds (s : Admin) : list Z := c_fd <$> g_clients s.
Definition conn (s : Admin) : list Z := live_fds (fds s).

Lemma live_fds_app l l' : live_fds (l ++ l') = live_fds l ++ live_fds l'.
Proof. apply filter_app. Qed.


Lemma live_fds_insert l i x y : l !! i = Some x ->
  exists A B, live_fds l = A ++ live_fds [x] ++ B /\ live_fds (<[i := y]> l) = A ++ live_fds [y] ++ B.
Proof.
  intros Hi. exists (live_fds (take i l)), (live_fds (drop (S i) l)). split.
  - rewrite <- (take_drop_middle l i x Hi) at 1. by rewrite <- !live_fds_app.
  - rewrite insert_take_drop by (by eapply lookup_lt_Some). by rewrite <- !live_fds_app.
Qed.

Lemma fds_upd s ci c f : g_clients s !! ci = Some c -> fds (upd_client ci f s) = <[ci := c_fd (f c)]> (fds s).
Proof.
  intros Hc. unfold fds, upd_client. cbn [g_clients set_g_clients].
  apply list_eq. intros j. rewrite list_lookup_fmap, list_lookup_alter.
  destruct (decide (ci = j)) as [->|Hne].
  - rewrite Hc. rewrite list_lookup_insert_eq by (rewrite length_fmap; by eapply lookup_lt_Some). done.
  - rewrite list_lookup_insert_ne, list_lookup_fmap by done. done.
Qed.

Lemma fds_at s ci c : g_clients s !! ci = Some c -> fds s !! ci = Some (c_fd c).
Proof. intros Hc. unfold fds. by rewrite list_lookup_fmap, Hc. Qed.

Lemma conn_clients s : conn s = c_fd <$> filter (fun c => fd_ok (c_fd c)) (g_clients s).
Proof.
  unfold conn, live_fds, fds. induction (g_clients s) as [|c l IH]; [done|]. rewrite fmap_cons, !filter_cons.
  unfold fd_ok in *. case_decide; [by rewrite fmap_cons, IH|done].
Qed.

Lemma conn_NoDup s : slots_ok s -> NoDup (conn s).
Proof. intros Hs. rewrite conn_clients. apply (slot_uniq_NoDup c_fd fd_ok). by destruct Hs. Qed.

Lemma conn_length s : slots_ok s -> Z.of_nat (length (conn s)) <= MAX_SESSIONS.
Proof.
  intros Hs. unfold conn, live_fds, fds. pose proof (length_filter (fun fd => 0 <= fd) (c_fd <$> g_clients s)) as H.
  rewrite length_fmap, (so_clients s Hs) in H. unfold MAX_SESSIONS in *. lia.
Qed.

(** With room for one more there is a free slot. *)
Lemma conn_slot s : slots_ok s -> Z.of_nat (length (conn s)) < MAX_SESSIONS ->
  exists ci c, list_find (fun c => c_fd c < 0) (g_clients s) = Some (ci, c).
Proof.
  intros Hs Hl. destruct (list_find (fun c => c_fd c < 0) (g_clients s)) as [[ci c]|] eqn:E; [eauto|].
  apply list_find_None in E. exfalso. rewrite conn_clients, length_fmap in Hl. rewrite length_filter_all in Hl.
  - rewrite (so_clients s Hs) in Hl. unfold MAX_SESSIONS in *. lia.
  - eapply Forall_impl; [exact E|]. intros x Hx. unfold fd_ok. simpl in Hx. lia.
Qed.

(** ** What the handlers leave alone *)

Definition same_fds (s s' : Admin) : Prop := fds s' = fds s.
(** The queue of stuck sessions: at most sixteen, all of them descriptors. *)
Definition queue_ok (n : Net) : Prop := Z.of_nat (length (g_wedged n)) <= WEDGED_MAX /\ Forall (fun fd => 0 <= fd) (g_wedged n).
Definition keeps_queue (s s' : Admin) : Prop := queue_ok (g_net s) -> queue_ok (g_net s').

Definition kept (s s' : Admin) : Prop := same_fds s s' /\ keeps_queue s s'.

#[export] Instance kept_preorder : PreOrder kept.
Proof.
  split; [intros s; split; [done|by intros H]|]. intros s1 s2 s3 [H1 H2] [H3 H4]. unfold kept, same_fds, keeps_queue in *. split; [congruence|auto].
Qed.

Lemma same_fds_client s ci f : (forall c, c_fd (f c) = c_fd c) -> same_fds s (upd_client ci f s).
Proof.
  intros Hf. unfold same_fds, fds, upd_client. cbn [g_clients set_g_clients]. apply list_eq. intros j.
  rewrite !list_lookup_fmap, list_lookup_alter. case_decide; [subst|done]. destruct (g_clients s !! j); simpl; [by rewrite Hf|done].
Qed.

Lemma mark_wedged_ok n fd : 0 <= fd -> queue_ok n -> queue_ok (mark_wedged n fd).
Proof.
  intros Hfd [Hl Hp]. unfold mark_wedged. case_match; [done|]. destruct (Z.ltb_spec (Z.of_nat (length (g_wedged n))) WEDGED_MAX); [|done].
  split; simpl; [rewrite length_app; simpl; lia|]. apply Forall_app. by split; [|constructor].
Qed.

Section handlers.
#[local] Set Default Proof Using "All".
Context (ws : list (Z * AdminMsg) -> Z -> AdminMsg -> Z) (rd : nat -> Z).
(** A write to what is not a descriptor fails; it does not block. *)
Context (bad_fd : forall log fd m, fd < 0 -> ws log fd m <> ADMINMSG_WOULDBLOCK).

Lemma kept_send s fd m : kept s (send ws s fd m).
Proof.
  split; [done|]. intros H. unfold send, send_msg. cbn [g_net set_g_net].
  destruct (Z.eqb_spec (ws (sent (g_net s)) fd m) ADMINMSG_WOULDBLOCK) as [E|]; [|done]. apply mark_wedged_ok; [|done].
  destruct (Z.lt_ge_cases fd 0) as [Hneg|]; [by destruct (bad_fd _ _ _ Hneg E)|done].
Qed.

Lemma kept_room s ri f : keeps_negative s ri f -> kept s (upd_room ri f s).
Proof. intros _. split; [done|by intros H]. Qed.

Lemma kept_client s ci f : (forall c, c_fd (f c) = c_fd c) -> kept s (upd_client ci f s).
Proof. intros Hf. split; [by apply same_fds_client|by intros H]. Qed.

Lemma kept_seed s n : kept s (set_g_rand n (set_g_seeded true s)).
Proof. split; [done|by intros H]. Qed.

Lemma kept_handle s fd msg s' : client_handle ws rd s fd msg = Some s' -> kept s s'.
Proof. apply (frame_handle ws rd kept kept_send kept_room kept_client kept_seed). Qed.

Lemma kept_flush s : g_inited s = true -> kept s (room_flush_updates ws s).
Proof. apply (frame_flush ws rd kept kept_send kept_room kept_client kept_seed). Qed.

Lemma kept_close s fd ci : client_find s fd = Some ci ->
  exists s1, kept s s1 /\ client_close ws s fd = upd_client ci (set_c_fd (-1)) s1.
Proof. apply (frame_close ws rd kept kept_send kept_room kept_client kept_seed). Qed.
End handlers.

(** ** The two tables *)

(** The poll set holds exactly the connected clients.  Until the first call the room
    module is as the loader left it. *)
Record daemon_ok (d : Daemon) : Prop := mkDaemonOk {
  dk_admin : admin_ok (ensure_init (d_admin d));
  dk_static : g_inited (d_admin d) = false -> d_admin d = static_admin;
  dk_fds : (e_fd <$> d_set d) ≡ₚ conn (ensure_init (d_admin d));
  dk_queue : queue_ok (g_net (d_admin d))
}.

Lemma init_init s : ensure_init (ensure_init s) = ensure_init s.
Proof. apply ensure_init_id. unfold ensure_init. by case_match. Qed.

Lemma init_inited s : g_inited (ensure_init s) = true.
Proof. unfold ensure_init. by case_match. Qed.

Lemma init_keeps_net s : g_net (ensure_init s) = g_net s.
Proof. unfold ensure_init. by case_match. Qed.

Lemma conn_start : conn admin_start = [].
Proof.
  unfold conn, live_fds, fds. destruct admin_start_tables as [-> _]. rewrite fmap_replicate. simpl c_fd.
  generalize (Z.to_nat MAX_SESSIONS). induction n as [|n IH]; [done|]. cbn [replicate]. rewrite filter_cons_False by lia. exact IH.
Qed.

Lemma set_inited d : daemon_ok d -> d_set d <> [] -> g_inited (d_admin d) = true.
Proof.
  intros [_ Hst Hf _] Hne. destruct (g_inited (d_admin d)) eqn:E; [done|]. exfalso. rewrite (Hst eq_refl) in Hf.
  change (ensure_init static_admin) with admin_start in Hf. rewrite conn_start in Hf. apply Permutation_nil_r in Hf.
  by destruct (d_set d).
Qed.

Lemma daemon_start_ok port : daemon_ok (daemon_start port).
Proof.
  split; cbn [daemon_start d_admin d_set]; try change (ensure_init static_admin) with admin_start.
  - exact admin_start_ok.
  - done.
  - by rewrite conn_start.
  - by split; [|constructor].
Qed.

(** Changes that concern neither table. *)
Lemma ok_same d d' : d_set d' = d_set d -> d_admin d' = d_admin d -> daemon_ok d -> daemon_ok d'.
Proof. intros Hs Ha []. split; by rewrite ?Hs, ?Ha. Qed.

Lemma ok_init d : daemon_ok d -> daemon_ok (set_d_admin (ensure_init (d_admin d)) d).
Proof.
  intros []. split; cbn [d_admin d_set set_d_admin]; rewrite ?init_init, ?init_keeps_net; try done. by rewrite init_inited.
Qed.

Section ops.
#[local] Set Default Proof Using "All".
Context (ws : list (Z * AdminMsg) -> Z -> AdminMsg -> Z) (rd : nat -> Z) (exits : Z -> Z -> bool).
Context (date : option (list Z)) (uptime : Z) (signalled : bool).
Context (bad_fd : forall log fd m, fd < 0 -> ws log fd m <> ADMINMSG_WOULDBLOCK).

(** A handler's work on the room table. *)
Lemma ok_kept d a : daemon_ok d -> g_inited (d_admin d) = true -> admin_ok a -> kept (d_admin d) a -> daemon_ok (set_d_admin a d).
Proof.
  intros [Ha Hst Hf Hq] Hi Hok [Hk1 Hk2]. pose proof Hok as [Hs _].
  assert (Hia : ensure_init a = a) by (apply ensure_init_id; by destruct Hs).
  split; cbn [d_admin d_set set_d_admin]; rewrite ?Hia; try done.
  - intros E. by rewrite (so_init a Hs) in E.
  - rewrite ensure_init_id in Hf by done. unfold conn in *. by rewrite Hk1.
  - by apply Hk2.
Qed.

Lemma compact_perm i e l : l !! i = Some e -> l ≡ₚ e :: compact i l.
Proof.
  intros Hi. unfold compact. destruct (exists_last (l := l)) as (k & z & ->); [by intros ->|].
  rewrite last_snoc, length_app. simpl. rewrite Nat.add_sub.
  destruct (decide (i = length k)) as [->|Hne].
  - rewrite lookup_app_r, Nat.sub_diag in Hi by lia. simplify_eq/=.
    rewrite insert_app_r_alt, Nat.sub_diag, take_app_length by lia. by rewrite Permutation_app_comm.
  - assert (Hlt : (i < length k)%nat) by (apply lookup_lt_Some in Hi; rewrite length_app in Hi; simpl in Hi; lia).
    rewrite lookup_app_l in Hi by done.
    rewrite insert_app_l, take_app_le, take_ge by (rewrite ?length_insert; lia).
    rewrite <- (take_drop_middle k i e Hi) at 1.
    rewrite insert_take_drop by done. rewrite <- app_assoc. simpl.
    rewrite <- Permutation_middle. f_equiv. f_equiv. by rewrite <- Permutation_cons_append.
Qed.

Lemma find_conn s fd : 0 <= fd -> fd ∈ conn s -> is_Some (client_find s fd).
Proof.
  intros Hfd Hin. rewrite conn_clients in Hin. apply list_elem_of_fmap in Hin as (c & -> & [_ Hc]%list_elem_of_filter).
  unfold client_find. destruct (list_find (fun c0 => c_fd c0 = c_fd c) (g_clients s)) eqn:E; [simpl; eauto|].
  apply list_find_None in E. rewrite list.Forall_forall in E. by destruct (E c Hc).
Qed.

Lemma set_fd d e : daemon_ok d -> e ∈ d_set d -> 0 <= e_fd e /\ e_fd e ∈ conn (d_admin d).
Proof.
  intros Hok He. assert (Hi : g_inited (d_admin d) = true) by (apply (set_inited d Hok); intros E; rewrite E in He; by apply not_elem_of_nil in He).
  assert (Hin : e_fd e ∈ conn (d_admin d)).
  { destruct Hok as [_ _ Hf _]. rewrite ensure_init_id in Hf by done. rewrite <- Hf. by apply list_elem_of_fmap_2. }
  split; [|done]. unfold conn, live_fds in Hin. by apply list_elem_of_filter in Hin as [? _].
Qed.

Lemma ok_drop d i e : daemon_ok d -> d_set d !! i = Some e ->
  daemon_ok (drop_session ws exits i d) /\ d_set (drop_session ws exits i d) = compact i (d_set d).
Proof.
  intros Hok Hi. unfold drop_session. rewrite Hi. split; [|done].
  assert (He : e ∈ d_set d) by (by eapply list_elem_of_lookup_2).
  destruct (set_fd d e Hok He) as [Hfd Hin].
  assert (Hin0 : g_inited (d_admin d) = true) by (apply (set_inited d Hok); intros E; by rewrite E in Hi).
  destruct Hok as [Ha Hst Hf Hq]. rewrite ensure_init_id in Ha, Hf by done. destruct Ha as [Hs HL].
  destruct (find_conn (d_admin d) (e_fd e) Hfd Hin) as [ci Hci].
  destruct (client_close_ok ws (d_admin d) (e_fd e) Hs HL Hfd) as [Hs' Ha'].
  destruct (kept_close ws rd bad_fd (d_admin d) (e_fd e) ci Hci) as (s1 & [Hk1 Hk2] & Hclose).
  destruct (client_find_Some _ _ _ Hs Hfd Hci) as (c & Hc & _ & Hcfd & _).
  assert (Hconn : conn (d_admin d) ≡ₚ e_fd e :: conn (client_close ws (d_admin d) (e_fd e))).
  { rewrite Hclose. pose proof (fds_at _ _ _ Hc) as Hat. rewrite <- Hk1 in Hat. unfold conn. rewrite <- Hk1.
    assert (exists c1, g_clients s1 !! ci = Some c1) as [c1 Hc1].
    { unfold fds in Hat. rewrite list_lookup_fmap in Hat. destruct (g_clients s1 !! ci); [eauto|done]. }
    rewrite (fds_upd s1 ci c1) by done. cbn [c_fd set_c_fd].
    destruct (live_fds_insert (fds s1) ci (c_fd c) (-1) Hat) as (A & B & E1 & E2). rewrite E1, E2, Hcfd.
    unfold live_fds. rewrite filter_cons_True by done. rewrite filter_cons_False by lia. cbn [app filter].
    symmetry. apply Permutation_middle. }
  assert (Hclosed : admin_ok (client_close ws (d_admin d) (e_fd e))) by (split; [done|]; rewrite Ha'; by apply l_close_ok).
  assert (Hinit : ensure_init (client_close ws (d_admin d) (e_fd e)) = client_close ws (d_admin d) (e_fd e))
    by (apply ensure_init_id; by destruct Hs').
  split; cbn [d_admin d_set set_d_admin set_d_set act]; rewrite ?Hinit; try done.
  - intros E. by rewrite (so_init _ Hs') in E.
  - apply (Permutation_cons_inv (a := e_fd e)). rewrite <- Hconn, <- Hf, <- fmap_cons. apply fmap_Permutation. symmetry.
    by apply compact_perm.
  - rewrite Hclose. apply Hk2, Hq.
Qed.

(** A descriptor the listener announces is a new one. *)
Lemma ok_register d pid fd :
  daemon_ok d -> 0 <= fd -> fd ∉ e_fd <$> d_set d ->
  daemon_ok (register ws d (pid, fd)) /\
  (d_set (register ws d (pid, fd)) = d_set d \/ d_set (register ws d (pid, fd)) = d_set d ++ [mkEntry fd pid None]).
Proof.
  intros Hok Hfd Hnew. unfold register. destruct (Z.leb_spec (Z.of_nat (length (d_set d))) (MAX_SESSIONS - 1)) as [Hl|_];
    [|split; [by apply (ok_same d)|by left]].
  split; [|by right]. destruct Hok as [Ha Hst Hf Hq]. set (a := ensure_init (d_admin d)) in *.
  assert (Hadd : client_add ws (d_admin d) fd pid = client_add ws a fd pid) by (unfold client_add, a; by rewrite init_init).
  pose proof Ha as [Hs HL]. assert (Hnone : client_find a fd = None).
  { destruct (client_find a fd) as [ci|] eqn:E; [|done]. destruct Hnew. rewrite Hf.
    destruct (client_find_Some _ _ _ Hs Hfd E) as (c & Hc & _ & <- & _). rewrite conn_clients. apply list_elem_of_fmap_2.
    apply list_elem_of_filter. split; [done|by eapply list_elem_of_lookup_2]. }
  destruct (client_add_ok ws a fd pid Ha Hfd Hnone) as [Hok' _].
  assert (Hlen : Z.of_nat (length (conn a)) < MAX_SESSIONS) by (rewrite <- Hf, length_fmap; lia).
  destruct (conn_slot a Hs Hlen) as (ci & c & Hfind). pose proof Hfind as (Hc & Hneg & _)%list_find_Some.
  pose proof (so_init _ (proj1 Hok')) as Hi'.
  assert (Hconn : conn (client_add ws a fd pid) ≡ₚ fd :: conn a).
  { unfold client_add, client_alloc. rewrite (ensure_init_id a) by apply init_inited. rewrite Hfind. unfold conn.
    rewrite (fds_upd a ci c) by done. cbn. destruct (live_fds_insert (fds a) ci (c_fd c) fd (fds_at _ _ _ Hc)) as (A & B & E1 & E2).
    rewrite E1, E2. unfold live_fds. rewrite filter_cons_True by done. rewrite filter_cons_False by lia. cbn [app filter].
    symmetry. apply Permutation_middle. }
  split; cbn [d_admin d_set set_d_admin set_d_set]; rewrite Hadd, ?(ensure_init_id (client_add ws a fd pid)) by done; try done.
  - intros E. by rewrite Hi' in E.
  - rewrite Hconn, fmap_app, Hf. by rewrite Permutation_app_comm.
  - unfold client_add, client_alloc. rewrite (ensure_init_id a) by apply init_inited. rewrite Hfind. cbn.
    unfold a. by rewrite init_keeps_net.
Qed.

(** The operator's commands read the tables, or drop one session. *)
Lemma dispatch_tables d req :
  (ctl_dispatch date uptime signalled (d_admin d) req).2 = d_admin d \/
  (ctl_dispatch date uptime signalled (d_admin d) req).2 = ensure_init (d_admin d).
Proof.
  unfold ctl_dispatch. destruct (cr_verb req); try (by left); try (left; by case_match); right.
  - unfold build_status, client_count, room_count. cbn. by rewrite init_init.
  - done.
  - done.
  - unfold client_fd_by_player. cbn. by case_match.
Qed.

Definition shrunk (d d' : Daemon) : Prop := d_set d' = d_set d \/ exists i e, d_set d !! i = Some e /\ d_set d' = compact i (d_set d).

Lemma ok_ctl d req : daemon_ok d -> daemon_ok (handle_ctl ws exits date uptime signalled d req) /\
  shrunk d (handle_ctl ws exits date uptime signalled d req).
Proof.
  intros Hok. unfold handle_ctl. pose proof (dispatch_tables d req) as Ht.
  destruct (ctl_dispatch date uptime signalled (d_admin d) req) as [[[acts next] kick] a]. cbn [snd] in Ht.
  assert (Hok1 : daemon_ok (act (DCtl <$> acts) (set_d_admin a d))).
  { destruct Ht as [->| ->]; [by apply (ok_same d)|]. by apply (ok_same (set_d_admin (ensure_init (d_admin d)) d)), ok_init. }
  set (d1 := act (DCtl <$> acts) (set_d_admin a d)) in *. assert (Hset : d_set d1 = d_set d) by done.
  destruct next.
  - split; [done|by left].
  - split; [|left; unfold request_stop; by case_match]. unfold request_stop. case_match; [done|]. by apply (ok_same d1).
  - destruct (session_index d1 kick) as [i|] eqn:Ei; [|by split; [|left]].
    unfold session_index in Ei. apply fmap_Some in Ei as ([j e] & (Hj & _)%list_find_Some & ->). cbn [fst]. rewrite Hj.
    destruct (ok_drop (act [DTerm (e_pid e)] d1) j e) as [H1 H2]; [by apply (ok_same d1)|done|].
    split; [done|]. right. exists j, e. by rewrite H2.
Qed.

(** *** The scan *)

Lemma compact_length i e (l : list entry) : l !! i = Some e -> length (compact i l) = (length l - 1)%nat.
Proof. intros Hi. pose proof (compact_perm i e l Hi) as Hp%Permutation_length. simpl in Hp. lia. Qed.

Lemma scan_total fuel : forall i d,
  daemon_ok d -> (length (d_set d) - i < fuel)%nat ->
  exists d', scan ws rd exits fuel i d = Some d' /\ daemon_ok d'.
Proof.
  induction fuel as [|fuel IH]; intros i d Hok Hf; [lia|]. cbn [scan].
  destruct (d_set d !! i) as [e|] eqn:Hi; [|eauto]. pose proof (lookup_lt_Some _ _ _ Hi) as Hlt.
  destruct (e_ready e) as [[m|]|] eqn:Er.
  - assert (Hin : e ∈ d_set d) by (by eapply list_elem_of_lookup_2). destruct (set_fd d e Hok Hin) as [Hfd _].
    assert (Hi0 : g_inited (d_admin d) = true) by (apply (set_inited d Hok); intros E; by rewrite E in Hi).
    destruct (client_handle_ok ws rd (d_admin d) (e_fd e) m) as (a & Ha & Hoka); [|done|].
    { pose proof (dk_admin d Hok) as H. by rewrite ensure_init_id in H. }
    rewrite Ha. cbn [mbind option_bind]. apply IH; [|cbn [d_set set_d_admin]; lia].
    apply ok_kept; [done|done|done|]. by eapply (kept_handle ws rd bad_fd).
  - destruct (ok_drop d i e Hok Hi) as [Hok' Hset]. pose proof (compact_length i e _ Hi) as Hl'.
    apply IH; [done|rewrite Hset, Hl'; lia].
  - apply IH; [done|lia].
Qed.

(** *** Stuck sessions *)

Definition queue (d : Daemon) : list Z := g_wedged (g_net (d_admin d)).

Lemma take_wedged d :
  daemon_ok d -> g_inited (d_admin d) = true ->
  let '(fd, a) := client_take_wedged (d_admin d) in
  daemon_ok (set_d_admin a d) /\ g_inited a = true /\ g_rooms a = g_rooms (d_admin d) /\
  (fd < 0 /\ queue d = [] /\ a = d_admin d \/ 0 <= fd /\ S (length (queue (set_d_admin a d))) = length (queue d)).
Proof.
  intros Hok Hi. pose proof (dk_admin d Hok) as Ha. rewrite ensure_init_id in Ha by done.
  pose proof (admin_step_ok ws rd _ _ Ha (step_wedged ws rd (d_admin d))) as Ha'. destruct (dk_queue d Hok) as [Hq Hp].
  unfold client_take_wedged, queue in *. destruct (g_wedged (g_net (d_admin d))) as [|fd rest] eqn:Eq; cbn [snd] in Ha'.
  - split; [by apply (ok_same d)|]. split_and!; [done|done|]. left. by split_and!.
  - apply Forall_cons in Hp as [Hfd Hrest]. split.
    + apply ok_kept; [done|done|done|]. split; [done|]. intros _. split; [simpl in *; lia|done].
    + split_and!; [done|done|]. by right.
Qed.

Lemma drop_wedged_total fuel : forall fd d,
  daemon_ok d -> g_inited (d_admin d) = true ->
  (length (queue d) + (Z.to_nat WEDGED_MAX + 1) * length (d_set d) < fuel)%nat ->
  exists d', drop_wedged ws exits fuel fd d = Some d' /\ daemon_ok d' /\ g_inited (d_admin d') = true /\ queue d' = [] /\
    (d_set d' = d_set d /\ g_rooms (d_admin d') = g_rooms (d_admin d) \/ (length (d_set d') < length (d_set d))%nat).
Proof.
  induction fuel as [|fuel IH]; intros fd d Hok Hi Hf; [lia|]. cbn [drop_wedged].
  set (d1 := match session_index d fd with Some i => drop_session ws exits i d | None => d end).
  assert (H1 : daemon_ok d1 /\ g_inited (d_admin d1) = true /\
    (d1 = d \/ (length (d_set d1) < length (d_set d) /\ length (queue d1) <= Z.to_nat WEDGED_MAX)%nat)).
  { unfold d1. destruct (session_index d fd) as [i|] eqn:Ei; [|by auto].
    unfold session_index in Ei. apply fmap_Some in Ei as ([j e] & (Hj & _)%list_find_Some & ->). cbn [fst].
    destruct (ok_drop d j e Hok Hj) as [Hok1 Hset]. split; [done|]. pose proof (compact_perm j e _ Hj) as Hperm%Permutation_length.
    pose proof (lookup_lt_Some _ _ _ Hj). destruct (dk_queue _ Hok1) as [Hq _]. split.
    - unfold drop_session in *. rewrite Hj in *. cbn [d_admin set_d_set set_d_admin act] in *.
      destruct (set_fd d e Hok ltac:(by eapply list_elem_of_lookup_2)) as [Hfd _]. pose proof (dk_admin d Hok) as [Hs HL].
      rewrite ensure_init_id in Hs, HL by done. destruct (client_close_ok ws (d_admin d) (e_fd e) Hs HL Hfd) as [Hs' _].
      by destruct Hs'.
    - right. rewrite Hset. simpl in Hperm. unfold queue. unfold WEDGED_MAX in *. lia. }
  destruct H1 as (Hok1 & Hi1 & Hd1). pose proof (take_wedged d1 Hok1 Hi1) as Ht.
  destruct (client_take_wedged (d_admin d1)) as [fd' a]. destruct Ht as (Hok2 & Hi2 & Hr2 & [(Hneg & Hq & ->)|(Hpos & Hq)]).
  - rewrite (proj2 (Z.ltb_lt _ _)) by done. eexists. split; [done|]. split_and!; [done|done|done|].
    destruct Hd1 as [->|[]]; [left|right]; done.
  - rewrite (proj2 (Z.ltb_ge _ _)) by done. destruct (IH fd' (set_d_admin a d1) Hok2 Hi2) as (d' & E & Hok' & Hi' & Hq' & Hd').
    { cbn [d_set set_d_admin]. destruct Hd1 as [->|[H1 H2]]; [lia|]. nia. }
    exists d'. split_and!; [done|done|done|done|]. cbn [d_set d_admin set_d_admin] in Hd'. rewrite Hr2 in Hd'.
    destruct Hd1 as [->|[H1 H2]]; [done|]. right. destruct Hd' as [[-> _]|]; lia.
Qed.

(** *** Standings *)

Definition published (s : Admin) : Prop := Forall (fun r => standings_dirty r = false) (g_rooms s).
Definition dirty (s : Admin) : list bool := standings_dirty <$> g_rooms s.

Lemma dirty_room s ri f : (forall r, standings_dirty (f r) = standings_dirty r) -> dirty (upd_room ri f s) = dirty s.
Proof.
  intros Hf. unfold dirty, upd_room. cbn [g_rooms set_g_rooms]. apply list_eq. intros j.
  rewrite !list_lookup_fmap, list_lookup_alter. case_decide; [subst|done]. destruct (g_rooms s !! j); simpl; [by rewrite Hf|done].
Qed.

Lemma dirty_clear s ri : dirty (upd_room ri (set_standings_dirty false) s) = <[ri := false]> (dirty s).
Proof.
  unfold dirty, upd_room. cbn [g_rooms set_g_rooms]. apply list_eq. intros j.
  rewrite list_lookup_fmap, list_lookup_alter. case_decide as Hj.
  - subst. destruct (g_rooms s !! j) as [r|] eqn:E.
    + rewrite list_lookup_insert_eq by (rewrite length_fmap; by eapply lookup_lt_Some). done.
    + rewrite (lookup_ge_None_2 (<[j:=false]> _)); [done|]. rewrite length_insert, length_fmap. by apply lookup_ge_None.
  - by rewrite list_lookup_insert_ne, list_lookup_fmap by done.
Qed.

Lemma dirty_push s ri : dirty (room_push_standings ws s ri) = dirty s.
Proof.
  unfold room_push_standings. do 2 (case_match; [done|]). unfold dirty. rewrite rooms_broadcast. by apply (dirty_room s ri).
Qed.

(** One slot of the flush. *)
Definition flush_one (s : Admin) (i : Z) : Admin :=
  let ri := Z.to_nat i in
  if negb (standings_dirty (room_at s ri)) then s
  else
    let s := upd_room ri (set_standings_dirty false) s in
    if negb (r_id (room_at s ri) =? 0) then room_push_standings ws s ri else s.

Lemma dirty_flush_one s i : dirty (flush_one s i) = <[Z.to_nat i := false]> (dirty s).
Proof.
  unfold flush_one. destruct (standings_dirty (room_at s (Z.to_nat i))) eqn:E; cbn [negb].
  - rewrite <- dirty_clear. case_match; [by rewrite dirty_push|done].
  - unfold room_at in E. destruct (g_rooms s !! Z.to_nat i) as [r|] eqn:Hr; simpl in E.
    + symmetry. apply list_insert_id. unfold dirty. by rewrite list_lookup_fmap, Hr, <- E.
    + symmetry. apply list_insert_ge. unfold dirty. rewrite length_fmap. by apply lookup_ge_None.
Qed.

Lemma length_dirty_flush l : forall s, length (dirty (foldl flush_one s l)) = length (dirty s).
Proof. induction l as [|x l IH]; intros s; simpl; [done|]. by rewrite IH, dirty_flush_one, length_insert. Qed.

Lemma dirty_flush l : forall s j b,
  dirty (foldl flush_one s l) !! j = Some b -> Z.of_nat j ∈ l \/ dirty s !! j = Some false -> b = false.
Proof.
  induction l as [|i l IH]; intros s j b Hb Hj; simpl in Hb.
  { destruct Hj as [Hj|Hj]; [by apply not_elem_of_nil in Hj|congruence]. }
  apply (IH _ _ _ Hb). rewrite dirty_flush_one. destruct (decide (Z.to_nat i = j)) as [<-|Hne].
  - destruct (decide (Z.to_nat i < length (dirty s))%nat) as [Hlt|Hge]; [right; by apply list_lookup_insert_eq|].
    exfalso. apply lookup_lt_Some in Hb. rewrite length_dirty_flush, dirty_flush_one, length_insert in Hb. lia.
  - rewrite list_lookup_insert_ne by done. destruct Hj as [[E|Hj]%elem_of_cons|Hj]; [lia|by left|by right].
Qed.

Lemma rooms_flush l s : length (g_rooms (foldl flush_one s l)) = length (g_rooms s).
Proof. pose proof (length_dirty_flush l s) as H. unfold dirty in H. by rewrite !length_fmap in H. Qed.

Lemma flush_published s : slots_ok s -> published (room_flush_updates ws s).
Proof.
  intros Hs. unfold room_flush_updates. rewrite ensure_init_id by (by destruct Hs). fold flush_one. unfold published.
  apply Forall_lookup. intros j r Hr. apply (dirty_flush (range MAX_ROOMS) s j); [unfold dirty; by rewrite list_lookup_fmap, Hr|]. left.
  apply lookup_lt_Some in Hr. rewrite rooms_flush, (so_rooms s Hs) in Hr. unfold range. apply elem_of_seqZ. unfold MAX_ROOMS in *. lia.
Qed.

Lemma flush_idle s : g_inited s = true -> published s -> room_flush_updates ws s = s.
Proof.
  intros Hi Hp. unfold room_flush_updates. rewrite ensure_init_id by done. fold flush_one.
  induction (range MAX_ROOMS) as [|i l IH]; [done|]. simpl. assert (Hone : flush_one s i = s); [|by rewrite Hone].
  unfold flush_one, room_at. destruct (g_rooms s !! Z.to_nat i) as [r|] eqn:Hr; simpl; [|done].
  rewrite (proj1 (Forall_lookup _ _) Hp _ _ Hr). done.
Qed.

(** *** The end of a turn *)

(** Nothing left to do: no stuck session and no standings to publish. *)
Definition settled (d : Daemon) : Prop := queue d = [] /\ published (d_admin d).

Lemma settle_idle fuel d : g_inited (d_admin d) = true -> settled d -> settle ws exits (S fuel) d = Some d.
Proof.
  intros Hi [Hq Hp]. cbn [settle]. rewrite flush_idle by done. unfold client_take_wedged, queue in *. cbn [d_admin set_d_admin].
  rewrite Hq. cbn. by destruct d.
Qed.

Lemma ok_flush d : daemon_ok d -> let d' := set_d_admin (room_flush_updates ws (d_admin d)) d in
  daemon_ok d' /\ g_inited (d_admin d') = true /\ published (d_admin d').
Proof.
  intros Hok. cbn zeta. pose proof (dk_admin _ Hok) as Ha.
  assert (Hfl : room_flush_updates ws (d_admin d) = room_flush_updates ws (ensure_init (d_admin d)))
    by (unfold room_flush_updates; by rewrite init_init).
  pose proof (admin_step_ok ws rd _ _ Ha (step_flush ws rd (ensure_init (d_admin d)))) as Ha'.
  cbn [d_admin set_d_admin]. rewrite Hfl. split; [|split].
  - pose proof (ok_kept (set_d_admin (ensure_init (d_admin d)) d) (room_flush_updates ws (ensure_init (d_admin d)))
      (ok_init d Hok) (init_inited _) Ha' (kept_flush ws rd bad_fd _ (init_inited _))) as H.
    by apply (ok_same (set_d_admin (room_flush_updates ws (ensure_init (d_admin d))) (set_d_admin (ensure_init (d_admin d)) d))).
  - by destruct Ha' as [[] _].
  - apply flush_published. by destruct Ha.
Qed.

Lemma settle_total fuel : forall d, daemon_ok d -> (S (length (d_set d)) < fuel)%nat ->
  exists d', settle ws exits fuel d = Some d' /\ daemon_ok d' /\ settled d'.
Proof.
  induction fuel as [|fuel IH]; intros d Hok Hf; [lia|]. cbn [settle].
  destruct (ok_flush d Hok) as (Hok1 & Hi1 & Hp1). set (d1 := set_d_admin (room_flush_updates ws (d_admin d)) d) in *.
  pose proof (take_wedged d1 Hok1 Hi1) as Ht. destruct (client_take_wedged (d_admin d1)) as [fd a].
  destruct Ht as (Hok2 & Hi2 & Hr2 & [(Hneg & Hq & ->)|(Hpos & Hq)]).
  - rewrite (proj2 (Z.ltb_lt _ _)) by done. eexists. split_and!; [done|done|]. by split.
  - rewrite (proj2 (Z.ltb_ge _ _)) by done. set (d2 := set_d_admin a d1) in *.
    destruct (drop_wedged_total (drop_fuel d2) fd d2 Hok2 Hi2) as (d3 & -> & Hok3 & Hi3 & Hq3 & Hd3).
    { unfold drop_fuel. destruct (dk_queue _ Hok2) as [Hlen _]. unfold queue. unfold WEDGED_MAX in *. lia. }
    cbn [mbind option_bind]. destruct Hd3 as [[_ Hr3]|Hlt].
    + assert (Hset : settled d3) by (split; [done|]; unfold published in *; rewrite Hr3; unfold d2; cbn [d_admin set_d_admin]; by rewrite Hr2).
      destruct fuel as [|fuel]; [simpl in Hf; lia|]. rewrite settle_idle by done. eauto.
    + apply IH; [done|]. change (d_set d2) with (d_set d) in Hlt. lia.
Qed.

(** *** Turns *)

(** What the kernel and the other threads guarantee of a turn: an announced
    descriptor is open, and not one that already was.  What the sessions send is
    arbitrary. *)
Record round_ok (d : Daemon) (r : round) : Prop := {
  ro_pos : Forall (fun ns => 0 <= ns.2) (rn_new r);
  ro_new : NoDup (rn_new r).*2;
  ro_fresh : Forall (fun ns => ns.2 ∉ e_fd <$> d_set d) (rn_new r)
}.

Lemma register_all ns : forall d,
  daemon_ok d ->
  Forall (fun n => 0 <= n.2) ns -> NoDup ns.*2 -> Forall (fun n => n.2 ∉ e_fd <$> d_set d) ns ->
  daemon_ok (foldl (register ws) d ns).
Proof.
  induction ns as [|[pid fd] ns IH]; intros d Hok Hpos Hnd Hfr; [done|]. cbn [foldl].
  apply Forall_cons in Hpos as [Hp Hpos]. apply Forall_cons in Hfr as [Hn Hfr]. rewrite fmap_cons in Hnd. apply NoDup_cons in Hnd as [Hnot Hnd]. cbn [snd] in *.
  destruct (ok_register d pid fd Hok Hp Hn) as [Hok1 Hset1]. apply IH; [done..|].
  rewrite list.Forall_forall in Hfr |- *. intros n Hn1. destruct Hset1 as [->| ->]; [by apply Hfr|].
  rewrite fmap_app, not_elem_of_app. split; [by apply Hfr|]. simpl. rewrite list_elem_of_singleton. intros E.
  apply Hnot. rewrite <- E. by apply list_elem_of_fmap_2.
Qed.

Lemma ctl_all reqs : forall d, daemon_ok d ->
  daemon_ok (foldl (handle_ctl ws exits date uptime signalled) d reqs).
Proof.
  induction reqs as [|req reqs IH]; intros d Hok; [done|]. cbn [foldl]. destruct (ok_ctl d req Hok) as [Hok1 _].
  by apply IH.
Qed.

Lemma admin_turn_total d r : daemon_ok d -> round_ok d r ->
  exists d', admin_turn ws rd exits date uptime signalled d r = Some d' /\ daemon_ok d' /\ settled d'.
Proof.
  intros Hok [Hp Hn Hf]. unfold admin_turn. set (d0 := polled r d).
  assert (Hfds : e_fd <$> d_set d0 = e_fd <$> d_set d) by (unfold d0, polled; cbn [d_set set_d_set]; by rewrite <- list_fmap_compose).
  assert (Hok0 : daemon_ok d0) by (destruct Hok; split; try done; by rewrite Hfds).
  pose proof (register_all (rn_new r) d0 Hok0 Hp Hn) as Hok1. rewrite Hfds in Hok1. specialize (Hok1 Hf).
  pose proof (ctl_all (rn_ctl r) _ Hok1) as Hok2. set (d2 := foldl (handle_ctl _ _ _ _ _) _ (rn_ctl r)) in *.
  set (d3 := match rn_reload r with Some (file, bound, handed) => reload_config file bound handed d2 | None => d2 end).
  assert (H3 : d_set d3 = d_set d2 /\ d_admin d3 = d_admin d2).
  { unfold d3. destruct (rn_reload r) as [[[file bound] handed]|]; [|done]. unfold reload_config.
    destruct (rc_get_int _ _ _ _ _ _ _) as [st port]. repeat case_match; done. }
  destruct H3 as [Hset3 Ha3]. assert (Hok3 : daemon_ok d3) by (by apply (ok_same d2)).
  destruct (scan_total (S (length (d_set d3))) 0 d3 Hok3) as (d4 & -> & Hok4); [lia|].
  cbn [mbind option_bind]. apply settle_total; [done|lia].
Qed.
End ops.

(** ** Runs of the admin thread *)

(** The states the thread can be in when it goes to poll. *)
Inductive serves (ws : list (Z * AdminMsg) -> Z -> AdminMsg -> Z) (rd : nat -> Z) (exits : Z -> Z -> bool) (port : Z) : Daemon -> Prop :=
| serves_start : serves ws rd exits port (daemon_start port)
| serves_turn d r date uptime signalled d' :
    serves ws rd exits port d -> round_ok d r -> admin_turn ws rd exits date uptime signalled d r = Some d' ->
    serves ws rd exits port d'.

Section runs.
Context (ws : list (Z * AdminMsg) -> Z -> AdminMsg -> Z) (rd : nat -> Z) (exits : Z -> Z -> bool) (port : Z).
Context (bad_fd : forall log fd m, fd < 0 -> ws log fd m <> ADMINMSG_WOULDBLOCK).

Lemma serves_ok d : serves ws rd exits port d -> daemon_ok d.
Proof using bad_fd.
  induction 1 as [|d r date uptime signalled d' _ IH Hr Ht]; [apply daemon_start_ok|].
  destruct (admin_turn_total ws rd exits date uptime signalled bad_fd d r IH Hr) as (d1 & E & Hok & _). congruence.
Qed.
End runs.

Lemma seats_conn s fd : slots_ok s -> fd ∈ conn s <-> is_Some (seats (abs s) !! fd).
Proof.
  intros Hs. rewrite conn_clients. split.
  - intros (c & -> & [Hok [i Hi]%list_elem_of_lookup]%list_elem_of_filter)%list_elem_of_fmap. eexists.
    apply (slot_map_lookup_1 c_fd fd_ok seat_of _ i); auto with corestack.
  - intros [st Hst]. unfold abs in Hst. simpl in Hst. apply slot_map_lookup in Hst as (i & c & Hi & Hok & Hk & _); [|by destruct Hs].
    subst. apply list_elem_of_fmap_2, list_elem_of_filter. split; [done|by eapply list_elem_of_lookup_2].
Qed.

(** C17: The daemon's two tables of sessions are one. Whenever the admin thread goes to
    poll, whatever was accepted, kicked, dropped or hung up before and whatever the
    sessions sent, its poll set holds exactly the sessions the room module knows as
    connected, each once, and no more than the poll set has slots for. (The kernel
    announces a new session's descriptor once and not while it is open, and a write to
    a descriptor that is not one fails rather than blocks.) *)
Theorem poll_set_is_client_table ws rd exits port d :
  (forall log fd m, fd < 0 -> ws log fd m <> ADMINMSG_WOULDBLOCK) -> serves ws rd exits port d ->
  (forall fd, fd ∈ e_fd <$> d_set d <-> is_Some (seats (abs (ensure_init (d_admin d))) !! fd)) /\
  NoDup (e_fd <$> d_set d) /\ Z.of_nat (length (d_set d)) <= MAX_SESSIONS.
Proof.
  intros Hbad Hd. pose proof (serves_ok ws rd exits port Hbad d Hd) as [[Hs HL] _ Hf _]. split_and!.
  - intros fd. rewrite Hf. by apply seats_conn.
  - rewrite Hf. by apply conn_NoDup.
  - rewrite <- (length_fmap e_fd), Hf. by apply conn_length.
Qed.

(** C23: The admin thread never hangs and never sleeps on unfinished work. From every
    state it can reach, a turn ends, whatever the sessions send in it - the scan that
    revisits the slots it refills, and the nested loops that drop stuck sessions while
    dropping makes more of them stuck - and when it goes back to poll no stuck session
    is left in the queue and every room's standings are published. (The kernel
    announces a new session's descriptor once and not while it is open, and a write to
    a descriptor that is not one fails rather than blocks.) *)
Theorem admin_turn_ends_settled ws rd exits port d r date uptime signalled :
  (forall log fd m, fd < 0 -> ws log fd m <> ADMINMSG_WOULDBLOCK) -> serves ws rd exits port d -> round_ok d r ->
  exists d', admin_turn ws rd exits date uptime signalled d r = Some d' /\
    g_wedged (g_net (d_admin d')) = [] /\ Forall (fun rm => standings_dirty rm = false) (g_rooms (d_admin d')).
Proof.
  intros Hbad Hd Hr. pose proof (serves_ok ws rd exits port Hbad d Hd) as Hok.
  destruct (admin_turn_total ws rd exits date uptime signalled Hbad d r Hok Hr) as (d' & E & _ & Hq & Hp). by exists d'.
Qed.

(** ** Examples *)

(** A network on which session 11 has stopped reading. *)
Definition stuck_net (_ : list (Z * AdminMsg)) (fd : Z) (_ : AdminMsg) : Z := if fd =? 11 then ADMINMSG_WOULDBLOCK else 0.

Lemma stuck_net_bad log fd m : fd < 0 -> stuck_net log fd m <> ADMINMSG_WOULDBLOCK.
Proof. intros Hfd. unfold stuck_net. rewrite (proj2 (Z.eqb_neq fd 11)) by lia. done. Qed.

(** Two sessions are accepted; then they join the same room. *)
Definition arrivals : round := mkRound [(100, 10); (101, 11)] [] None (fun _ => None).
Definition joins_both : round := mkRound [] [] None
  (fun fd => if fd =? 10 then Some (Some (join_msg 7 "ann")) else if fd =? 11 then Some (Some (join_msg 7 "bob")) else None).

Definition turn_of (d : Daemon) (r : round) : Daemon :=
  default d (admin_turn stuck_net count_rand (fun _ _ => false) None 0 true d r).

Definition arrived : Daemon := turn_of (daemon_start 4000) arrivals.

Lemma turn_some d r :
  bool_decide (is_Some (admin_turn stuck_net count_rand (fun _ _ => false) None 0 true d r)) = true ->
  admin_turn stuck_net count_rand (fun _ _ => false) None 0 true d r = Some (turn_of d r).
Proof. unfold turn_of. intros H. apply bool_decide_eq_true in H as [d' ->]. done. Qed.

Lemma arrived_serves : serves stuck_net count_rand (fun _ _ => false) 4000 arrived.
Proof.
  apply (serves_turn _ _ _ _ (daemon_start 4000) arrivals None 0 true); [apply serves_start| |apply turn_some; vm_compute; reflexivity].
  split; [by apply (bool_decide_unpack _)| |by apply (bool_decide_unpack _)].
  simpl. apply NoDup_cons. split; [rewrite list_elem_of_singleton; lia|apply NoDup_singleton].
Qed.

Lemma joins_both_ok d : round_ok d joins_both.
Proof.
  split; [by apply Forall_nil|by apply NoDup_nil|by apply Forall_nil].
Qed.

Lemma poll_set_is_client_table_witness :
  e_fd <$> d_set arrived = [10; 11] /\
  (forall fd, fd ∈ e_fd <$> d_set arrived <-> is_Some (seats (abs (ensure_init (d_admin arrived))) !! fd)).
Proof.
  split; [vm_compute; reflexivity|].
  exact (proj1 (poll_set_is_client_table stuck_net count_rand (fun _ _ => false) 4000 arrived stuck_net_bad arrived_serves)).
Defined.

(** The second one never reads: by the end of the turn it has been dropped. *)
Lemma admin_turn_ends_settled_witness :
  e_fd <$> d_set (turn_of arrived joins_both) = [10] /\
  exists d', admin_turn stuck_net count_rand (fun _ _ => false) None 0 true arrived joins_both = Some d' /\
    g_wedged (g_net (d_admin d')) = [] /\ Forall (fun rm => standings_dirty rm = false) (g_rooms (d_admin d')).
Proof.
  split; [vm_compute; reflexivity|].
  exact (admin_turn_ends_settled stuck_net count_rand (fun _ _ => false) 4000 arrived joins_both None 0 true
    stuck_net_bad arrived_serves (joins_both_ok arrived)).
Defined.
