(* ===== verification/CtlClient.v ===== *)
(** * CtlClient: the operator's end of the control plane

    Models tetriSH/src/tetrisctl/ctl_client.c: one command and its reply, the small
    reader of the daemon's JSON, and the snapshot the dashboard holds between ticks.
    The socket comes from outside: an [exchange] is what became of a frame that was
    to be sent.  Log lines have no effect. *)

From Stdlib Require Import String.
From stdpp Require Import options.
From S2P Require Import Prelude AdminMsg Room Text Htttp ControlPlane.
#[local] Open Scope Z_scope.

(** ** ctl_client.h *)

Definition CTL_ERR_CONNECT : Z := -1.
Definition CTL_ERR_IO : Z := -2.
Definition CTL_ERR_TIMEOUT : Z := -3.
Definition CTL_ERR_PROTO : Z := -4.

Definition CTL_BODY_MAX : nat := Z.to_nat 32768.

Record CtlStatus := mkCtlStatus { st_uptime : Z; st_sessions : Z; st_rooms : Z }.

Record CtlRoom := mkCtlRoom { cr_id : Z; cr_members : Z; cr_owner : Z; cr_phase : list Z }.

Record CtlPlayer := mkCtlPlayer {
  cp_room : Z; cp_player : Z; cp_pid : Z; cp_score : Z; cp_lines : Z; cp_is_owner : bool; cp_name : list Z }.

Record CtlSnapshot := mkCtlSnapshot {
  sn_status : CtlStatus; sn_rooms : list CtlRoom; sn_players : list CtlPlayer; sn_have : bool; sn_stale : bool; sn_taken : Z }.

Definition set_stale (snap : CtlSnapshot) : CtlSnapshot :=
  mkCtlSnapshot (sn_status snap) (sn_rooms snap) (sn_players snap) (sn_have snap) true (sn_taken snap).

(** ** The JSON reader *)

(** What follows the first occurrence of [pat], [strstr(s, pat) + strlen(pat)]. *)
Fixpoint after_str (pat s : list Z) : option (list Z) :=
  match scan_lit pat s with
  | Some rest => Some rest
  | None => match s with [] => None | _ :: s => after_str pat s end
  end.

Definition find_key (json : list Z) (k : string) : option (list Z) := after_str (trunc 64 (json_key k)) json.

(** The end of [long] that [strtol] stops at. *)
Definition clamp_long (v : Z) : Z := Z.max (- LONG_MAX - 1) (Z.min LONG_MAX v).

Definition json_int (json : list Z) (k : string) (fallback : Z) : Z :=
  match find_key json k with Some p => clamp_long (fst (strtol p)) | None => fallback end.

Fixpoint skip_blanks (s : list Z) : list Z :=
  match s with 32 :: s => skip_blanks s | _ => s end.

(** At most [room] characters are copied. *)
Fixpoint str_loop (room : nat) (p : list Z) : list Z :=
  match room, p with
  | O, _ | _, [] => []
  | S room, c :: p =>
      if c =? 34 then []
      else if c =? 92 then match p with [] => [c] | d :: p => d :: str_loop room p end
      else c :: str_loop room p
  end.

Definition json_str (json : list Z) (k : string) (cap : nat) : option (list Z) :=
  p ← find_key json k;
  match skip_blanks p with 34 :: p => Some (str_loop (cap - 1) p) | _ => None end.

Definition json_bool (json : list Z) (k : string) : bool :=
  match find_key json k with
  | Some p => bool_decide (is_Some (scan_lit (bytes "true") (skip_blanks p)))
  | None => false
  end.

(** The loop of [json_each] and the elements it hands to its callback, in order;
    [start] is the text from [start] up to here. *)
Fixpoint each_loop (depth : Z) (start : option (list Z)) (p : list Z) : list (list Z) :=
  match p with
  | [] => []
  | c :: p =>
      let more := (fun t => t ++ [c]) <$> start in
      if c =? 123 then each_loop (depth + 1) (if depth =? 0 then Some [c] else more) p
      else if c =? 125 then
        match more with
        | Some item => if depth - 1 =? 0 then take 1023 item :: each_loop (depth - 1) None p else each_loop (depth - 1) more p
        | None => each_loop (depth - 1) None p
        end
      else if (c =? 93) && (depth =? 0) then []
      else each_loop depth more p
  end.

(** [strchr(s, c)]. *)
Fixpoint from_char (c : Z) (s : list Z) : option (list Z) :=
  match s with [] => None | d :: s' => if d =? c then Some s else from_char c s' end.

Definition json_each (json : list Z) : list (list Z) :=
  match from_char 91 json with Some p => each_loop 0 None p | None => [] end.

(** ** One command *)

Inductive exchange := XNoConnection | XWriteFails | XTimesOut | XBreaks | XReply (frame : list Z).

(** [serve] is what becomes of the frame; the result is the status and the body, as
    the C string its reader sees. *)
Definition ctl_request (serve : list Z -> exchange) (m p : string) (body_cap : nat) : Z * list Z :=
  let req := mkRequest (trunc HTTTP_MAX_METHOD (bytes m)) (trunc HTTTP_MAX_PATH (bytes p)) [] None 0 in
  match htttp_serialize_request req CTL_FRAME_CAP with
  | Err _ => (CTL_ERR_PROTO, [])
  | Ok frame =>
      match serve frame with
      | XNoConnection => (CTL_ERR_CONNECT, [])
      | XWriteFails | XBreaks => (CTL_ERR_IO, [])
      | XTimesOut => (CTL_ERR_TIMEOUT, [])
      | XReply frame =>
          match htttp_parse_response frame with
          | Err _ => (CTL_ERR_PROTO, [])
          | Ok res =>
              let n := Z.to_nat (Z.min (res_body_len res) (Z.of_nat body_cap - 1)) in
              (status res, match res_body res with Some b => cstr (take n b) | None => [] end)
          end
      end
  end.

Definition ctl_strerror (rc : Z) : list Z :=
  if rc =? CTL_ERR_CONNECT then bytes "cannot reach tetrisd (is it running?)"
  else if rc =? CTL_ERR_IO then bytes "connection to tetrisd broke mid-exchange"
  else if rc =? CTL_ERR_TIMEOUT then bytes "tetrisd accepted but did not answer in time"
  else if rc =? CTL_ERR_PROTO then bytes "malformed reply from tetrisd"
  else match htttp_reason rc with Some reason => reason | None => bytes "refused" end.

(** [%02ld]. *)
Definition pad2 (n : Z) : list Z :=
  let s := decimal_ll n in (if (length s <? 2)%nat then [48] else []) ++ s.

Definition ctl_fmt_uptime (cap : nat) (secs : Z) : list Z :=
  trunc cap
    (if secs <? 60 then decimal_ll secs ++ bytes "s"
     else if secs <? 3600 then decimal_ll (Z.quot secs 60) ++ bytes "m" ++ pad2 (Z.rem secs 60) ++ bytes "s"
     else decimal_ll (Z.quot secs 3600) ++ bytes "h" ++ pad2 (Z.quot (Z.rem secs 3600) 60) ++ bytes "m").

(** ** Decoding *)

(** [None] is the return value -1. *)
Definition ctl_decode_status (body : list Z) : option CtlStatus :=
  _ ← find_key body "uptime";
  Some (mkCtlStatus (json_int body "uptime" 0) (to_int (json_int body "sessions" 0)) (to_int (json_int body "rooms" 0))).

Definition room_item (item : list Z) : CtlRoom :=
  mkCtlRoom (to_int (json_int item "id" 0)) (to_int (json_int item "members" 0)) (to_int (json_int item "owner" (-1)))
    (default (bytes "?") (json_str item "phase" 16)).

Definition player_item (item : list Z) : CtlPlayer :=
  mkCtlPlayer (to_int (json_int item "room" (-1))) (to_int (json_int item "player" 0)) (to_int (json_int item "pid" 0))
    (to_int (json_int item "score" 0)) (to_int (json_int item "lines" 0)) (json_bool item "owner")
    (default [] (json_str item "name" (Z.to_nat MAX_USER_NAME))).

(** The elements decoded, at most [cap] of them; [None] is the return value -1. *)
Definition ctl_decode_rooms (body : list Z) (cap : nat) : option (list CtlRoom) :=
  _ ← from_char 91 body; Some (take cap (room_item <$> json_each body)).

Definition ctl_decode_players (body : list Z) (cap : nat) : option (list CtlPlayer) :=
  _ ← from_char 91 body; Some (take cap (player_item <$> json_each body)).

(** ** The snapshot *)

(** [s1], [s2] and [s3] are what becomes of the three commands, [now] the clock at
    the end. *)
Definition ctl_refresh (s1 s2 s3 : list Z -> exchange) (now : Z) (snap : CtlSnapshot) : Z * CtlSnapshot :=
  let '(rc, body) := ctl_request s1 "STATUS" "/" CTL_BODY_MAX in
  if negb (rc =? 200) then (rc, set_stale snap) else
  match ctl_decode_status body with
  | None => (CTL_ERR_PROTO, set_stale snap)
  | Some st =>
      let '(rc, body) := ctl_request s2 "ROOMS" "/" CTL_BODY_MAX in
      if negb (rc =? 200) then (rc, set_stale snap) else
      match ctl_decode_rooms body (Z.to_nat MAX_ROOMS) with
      | None => (CTL_ERR_PROTO, set_stale snap)
      | Some rooms =>
          let '(rc, body) := ctl_request s3 "PLAYERS" "/" CTL_BODY_MAX in
          if negb (rc =? 200) then (rc, set_stale snap) else
          match ctl_decode_players body (Z.to_nat MAX_SESSIONS) with
          | None => (CTL_ERR_PROTO, set_stale snap)
          | Some players => (0, mkCtlSnapshot st rooms players true false now)
          end
      end
  end.
