(* ===== verification/CtlClientTheorems.v ===== *)
(** * CtlClientTheorems: what the operator sees is what the server holds

    tetriSH/src/tetrisctl/ctl_client.c against tetriSH/src/tetrisctl/control_plane.c:
    the frames one writes and the other reads, the reports and their decoding. *)

From Stdlib Require Import String.
From stdpp Require Import options.
From S2P Require Import Prelude Piece AdminMsg Keyed Lobby Room RoomInv RoomSpec RoomTheorems Text Htttp HtttpTheorems HtttpSends.
From S2P Require Import Name ControlPlane ControlTheorems DbRows HistoryTheorems Token TokenTheorems CtlClient.
#[local] Open Scope Z_scope.

(** ** Finding a key *)

Lemma after_skip k l s : 34 ∉ l -> after_str (34 :: k) (l ++ s) = after_str (34 :: k) s.
Proof.
  induction l as [|c l IH]; [done|]. rewrite not_elem_of_cons. intros [Hc Hl]. cbn [app after_str scan_lit].
  rewrite (proj2 (Z.eqb_neq 34 c)) by done. by apply IH.
Qed.

Lemma no_quote_int n : int_range n -> 34 ∉ decimal_int n.
Proof. intros Hn. by apply decimal_int_avoids. Qed.

(** Concrete keys and the search for them. *)
Ltac show_keys :=
  repeat match goal with
  | |- context [trunc 64 (json_key ?k)] => let v := eval vm_compute in (trunc 64 (json_key k)) in change (trunc 64 (json_key k)) with v
  end;
  repeat match goal with
  | |- context [json_key ?k] => let v := eval vm_compute in (json_key k) in change (json_key k) with v
  | |- context [bytes (String ?a ?k)] => let v := eval vm_compute in (bytes (String a k)) in change (bytes (String a k)) with v
  end.

Ltac seek := repeat (cbn [after_str scan_lit app Z.eqb Pos.eqb]; rewrite after_skip by (apply no_quote_int; done)); cbn [after_str scan_lit app Z.eqb Pos.eqb].

Lemma json_number json k n rest :
  find_key json k = Some (decimal_int n ++ rest) -> int_range n -> (forall c, head rest = Some c -> is_digit c = false) ->
  forall d, to_int (json_int json k d) = n.
Proof.
  intros Hf Hn Hr d. unfold json_int. rewrite Hf, strtol_decimal_int by done. cbn [fst]. exact (long_to_int_id n Hn).
Qed.

(** ** Names *)

(** A name whose characters the reader takes literally. *)
Definition plain_char (c : Z) : Prop := 32 <= c /\ c <> 123 /\ c <> 125.

Lemma str_loop_escaped n : Forall plain_char n -> forall room rest, (length n <= room)%nat -> str_loop room (escaped n ++ 34 :: rest) = n.
Proof.
  induction 1 as [|c n (Hc & _) _ IH]; intros room rest Hl; [by destruct room|]. destruct room as [|room]; [simpl in Hl; lia|].
  change (escaped (c :: n)) with (json_char c ++ escaped n). rewrite <- app_assoc. simpl in Hl. unfold json_char.
  destruct (Z.eqb_spec c 34) as [->|H1]; [cbn; f_equal; apply IH; lia|].
  destruct (Z.eqb_spec c 92) as [->|H2]; [cbn; f_equal; apply IH; lia|].
  rewrite !(proj2 (Z.eqb_neq c _)), (proj2 (Z.ltb_ge c 32)) by lia. cbn [app str_loop].
  rewrite (proj2 (Z.eqb_neq c 34)), (proj2 (Z.eqb_neq c 92)) by done. f_equal. apply IH. lia.
Qed.

(** ** Elements of an array *)

(** Text that does not end a C string and holds no brace. *)
Definition braceless (s : list Z) : Prop := Forall (fun c => c <> 0 /\ c <> 123 /\ c <> 125) s.

Lemma braceless_app a b : braceless (a ++ b) <-> braceless a /\ braceless b.
Proof. apply Forall_app. Qed.

Lemma braceless_int n : int_range n -> braceless (decimal_int n).
Proof.
  intros Hn. apply list.Forall_forall. intros c Hc. split_and!; intros ->; revert Hc; by apply decimal_int_avoids.
Qed.

Lemma braceless_escaped n : Forall plain_char n -> braceless (escaped n).
Proof.
  induction 1 as [|c n (H1 & H2 & H3) _ IH]; [constructor|]. apply braceless_app. split; [|done]. unfold json_char.
  repeat case_match; bool_arith; try lia; repeat constructor; lia.
Qed.

(** A row: an object without inner objects that fits the reader's buffer. *)
Definition row_ok (r : list Z) : Prop := exists mid, r = 123 :: mid ++ [125] /\ braceless mid /\ (length r <= 1023)%nat.

Lemma each_inside mid : forall t p, braceless mid -> each_loop 1 (Some t) (mid ++ p) = each_loop 1 (Some (t ++ mid)) p.
Proof.
  induction mid as [|c mid IH]; intros t p Hm; [by rewrite app_nil_r|]. inversion_clear Hm as [|?? (H0 & H1 & H2) Hmid].
  cbn [app each_loop]. rewrite !(proj2 (Z.eqb_neq c _)) by done. cbn [andb fmap option_fmap option_map].
  rewrite andb_false_r, IH, <- app_assoc by done. done.
Qed.

Lemma each_row r p : row_ok r -> each_loop 0 None (r ++ p) = r :: each_loop 0 None p.
Proof.
  intros (mid & -> & Hm & Hl). cbn [app each_loop Z.eqb Pos.eqb]. rewrite <- app_assoc.
  change (0 + 1) with 1. rewrite each_inside by done. cbn [app each_loop Z.eqb Pos.eqb fmap option_fmap option_map].
  rewrite take_ge; [done|]. exact Hl.
Qed.

Lemma each_rows rows : Forall row_ok rows -> each_loop 0 None (comma_rows rows ++ [93]) = rows.
Proof.
  induction 1 as [|r rows Hr _ IH]; [done|]. change (comma_rows (r :: rows)) with (44 :: r ++ comma_rows rows).
  cbn [app each_loop Z.eqb Pos.eqb andb fmap option_fmap option_map]. rewrite <- app_assoc, each_row by done. by rewrite IH.
Qed.

Lemma json_each_array rows : Forall row_ok rows -> json_each (json_array rows) = rows.
Proof.
  intros H. unfold json_each, json_array. cbn [from_char Z.eqb Pos.eqb each_loop andb fmap option_fmap option_map].
  destruct H as [|r rows Hr H]; [done|]. by rewrite join_comma, <- app_assoc, each_row, each_rows by done.
Qed.

Lemma row_no_nul r : row_ok r -> 0 ∉ r.
Proof.
  intros (mid & -> & Hm & _). rewrite not_elem_of_cons, not_elem_of_app. split_and!; [done| |by rewrite list_elem_of_singleton].
  intros H. unfold braceless in Hm. rewrite list.Forall_forall in Hm. by destruct (Hm 0 H).
Qed.

Lemma array_no_nul rows : Forall row_ok rows -> cstr (json_array rows) = json_array rows.
Proof.
  intros H. apply cstr_id. unfold json_array. rewrite not_elem_of_cons, not_elem_of_app, list_elem_of_singleton. split_and!; [done| |done].
  destruct H as [|r rows Hr H]; [apply not_elem_of_nil|]. rewrite join_comma, not_elem_of_app. split; [by apply row_no_nul|].
  induction H as [|r' rows Hr' _ IH]; [apply not_elem_of_nil|]. change (comma_rows (r' :: rows)) with (44 :: r' ++ comma_rows rows).
  rewrite not_elem_of_cons, not_elem_of_app. split_and!; [done|by apply row_no_nul|done].
Qed.

(** ** Rows *)

Definition player_ints (p : PlayerInfo) : Prop :=
  int_range (pi_room p) /\ int_range (pi_player p) /\ int_range (pi_pid p) /\ int_range (pi_score p) /\ int_range (pi_lines p).

Definition room_ints (r : RoomInfo) : Prop := int_range (ri_id r) /\ int_range (ri_members r) /\ int_range (ri_owner_player r).

(** What the operator reads of a player and of a room. *)
Definition player_view (p : PlayerInfo) (name : list Z) : CtlPlayer :=
  mkCtlPlayer (pi_room p) (pi_player p) (pi_pid p) (pi_score p) (pi_lines p) (negb (pi_is_owner p =? 0)) name.

Definition room_view (r : RoomInfo) : CtlRoom := mkCtlRoom (ri_id r) (ri_members r) (ri_owner_player r) (phase_name (ri_phase r)).

(** The text between the braces. *)
Definition player_fields (p : PlayerInfo) (name : list Z) : list Z :=
  json_key "room" ++ decimal_int (pi_room p) ++ 44 :: json_key "player" ++ decimal_int (pi_player p) ++
  44 :: json_key "pid" ++ decimal_int (pi_pid p) ++ 44 :: json_key "owner" ++
  (if negb (pi_is_owner p =? 0) then bytes "true" else bytes "false") ++
  44 :: json_key "score" ++ decimal_int (pi_score p) ++ 44 :: json_key "lines" ++ decimal_int (pi_lines p) ++
  44 :: json_key "name" ++ json_text name.

Definition room_fields (r : RoomInfo) : list Z :=
  json_key "id" ++ decimal_int (ri_id r) ++ 44 :: json_key "phase" ++ json_text (phase_name (ri_phase r)) ++
  44 :: json_key "members" ++ decimal_int (ri_members r) ++ 44 :: json_key "owner" ++ decimal_int (ri_owner_player r).

Lemma player_row_ok p name :
  player_ints p -> Forall plain_char name -> (length name <= 15)%nat -> row_ok (player_json p (escaped name)).
Proof.
  intros (Hr & Hp & Hi & Hs & Hn) Hname Hl. exists (player_fields p (escaped name)). split; [|split].
  - unfold player_json, player_fields, json_text. repeat (rewrite <- app_assoc; cbn [app]). reflexivity.
  - unfold player_fields, json_text. show_keys.
    repeat first [apply braceless_app; split|apply braceless_int; done|apply braceless_escaped; done|case_match|
      apply list.Forall_cons; split; [lia|]|apply list.Forall_nil; done].
  - pose proof (decimal_int_length _ Hr). pose proof (decimal_int_length _ Hp). pose proof (decimal_int_length _ Hi).
    pose proof (decimal_int_length _ Hs). pose proof (decimal_int_length _ Hn). pose proof (length_escaped name).
    unfold player_json, json_text. show_keys. repeat first [progress cbn [length app]|rewrite length_app]. case_match; simpl; lia.
Qed.

Lemma player_item_row p name :
  player_ints p -> Forall plain_char name -> (length name <= 15)%nat -> player_item (player_json p (escaped name)) = player_view p name.
Proof.
  intros (Hr & Hp & Hi & Hs & Hn) Hname Hl. unfold player_item, player_view, player_json, json_text.
  set (o := if negb (pi_is_owner p =? 0) then bytes "true" else bytes "false").
  assert (Ho : 34 ∉ o) by (unfold o; case_match; by apply (bool_decide_unpack _)).
  f_equal; try (eapply json_number; [unfold find_key; show_keys; seek; try (rewrite after_skip by exact Ho; seek); reflexivity|done|by intros ? [= <-]]).
  - unfold json_bool, find_key. show_keys. seek. unfold o. by destruct (negb (pi_is_owner p =? 0)).
  - unfold json_str, find_key. show_keys. seek. rewrite after_skip by exact Ho. seek. cbn [mbind option_bind skip_blanks default].
    rewrite <- app_assoc. apply str_loop_escaped; [done|exact Hl].
Qed.

Lemma phase_plain ph : 34 ∉ phase_name ph /\ braceless (phase_name ph) /\ (length (phase_name ph) <= 9)%nat /\
  forall rest, str_loop 15 (phase_name ph ++ 34 :: rest) = phase_name ph.
Proof.
  unfold phase_name. repeat case_match; (split_and!; [by apply (bool_decide_unpack _)| |vm_compute; lia|reflexivity]);
    show_keys; repeat (apply list.Forall_cons; split; [lia|]); by apply list.Forall_nil.
Qed.

Lemma room_row_ok r : room_ints r -> row_ok (room_json r).
Proof.
  intros (Hi & Hm & Ho). destruct (phase_plain (ri_phase r)) as (_ & Hb & Hl & _). exists (room_fields r). split; [|split].
  - unfold room_json, room_fields, json_text. repeat (rewrite <- app_assoc; cbn [app]). reflexivity.
  - unfold room_fields, json_text. show_keys.
    repeat first [apply braceless_app; split|apply braceless_int; done|exact Hb|apply list.Forall_cons; split; [lia|]|apply list.Forall_nil; done].
  - pose proof (decimal_int_length _ Hi). pose proof (decimal_int_length _ Hm). pose proof (decimal_int_length _ Ho).
    unfold room_json, json_text. show_keys. repeat first [progress cbn [length app]|rewrite length_app]. lia.
Qed.

Lemma room_item_row r : room_ints r -> room_item (room_json r) = room_view r.
Proof.
  intros (Hi & Hm & Ho). unfold room_item, room_view, room_json, json_text, phase_name. repeat case_match;
  (f_equal; [..|unfold json_str, find_key; by show_keys; seek];
   (eapply json_number; [unfold find_key; show_keys; seek; reflexivity|done|by intros ? [= <-]])).
Qed.

(** ** Replies *)

Lemma reply_sent date st b reason :
  date_ok date -> htttp_reason st = Some reason -> (length reason <= 32)%nat -> (length b < BODY_CAP)%nat ->
  exists frame r, ctl_frame (Some date) st b = Some frame /\ htttp_parse_response frame = Ok r /\ status r = st /\
    res_body_len r = Z.of_nat (length b) /\ default [] (res_body r) = b.
Proof.
  intros Hd Hr Hrl Hb. unfold ctl_frame, BODY_CAP in *.
  set (hs := match htttp_header_set [] (bytes "Content-Type") (bytes "application/json") with Ok hs => hs | Err _ => [] end).
  change hs with [mkHeader (bytes "Content-Type") (bytes "application/json")]. clear hs.
  set (res := if bool_decide (b = []) then _ else _).
  destruct (response_sends date res CTL_FRAME_CAP reason) as (frame & -> & Hpar).
  - unfold res. case_bool_decide as E; split; cbn [res_headers res_body res_body_len default]; unfold UINT32_MAX; try lia; try done.
    constructor; [|constructor]. cbn [key value]. split_and!; [vm_compute; lia|vm_compute; lia|by apply (bool_decide_unpack _)].
  - done.
  - unfold res. case_bool_decide; cbn [res_headers]; [constructor|]. constructor; [|constructor]. by split_and!.
  - unfold res. by case_bool_decide.
  - done.
  - unfold res. case_bool_decide; cbn [res_headers length]; unfold HTTTP_MAX_HEADERS; lia.
  - unfold res. by case_bool_decide.
  - unfold CTL_FRAME_CAP, res. case_bool_decide as E; cbn [res_headers res_body_len]; [change (length (header_block [])) with 0%nat; lia|].
    change (length (header_block _)) with 32%nat. lia.
  - exists frame, (mkResponse (status res) ((mkHeader DATE date :: res_headers res) ++ length_header (res_body_len res))
      (body_of (res_body_len res) (res_body res)) (res_body_len res)).
    split_and!; [done|done| | |]; cbn [status res_body res_body_len]; unfold res, body_of; case_bool_decide as E; try done; [by subst b..|].
    cbn [res_body_len res_body]. rewrite (proj2 (Z.ltb_lt 0 _)); [done|]. destruct b; [done|simpl; lia].
Qed.

(** The daemon behind the socket: its control thread reads the frame and the admin
    thread, whose table is [s], answers it. *)
Definition answer (acts : list ctl_action) : exchange :=
  match acts with CtlWrite _ frame :: _ => XReply frame | _ => XBreaks end.

Definition daemon (date : option (list Z)) (uptime : Z) (s : Admin) (frame : list Z) : exchange :=
  match handle_conn date 0 (Some frame) true with
  | (acts, None) => answer acts
  | (_, Some cr) => answer (ctl_dispatch date uptime true s cr).1.1.1
  end.

(** A report is read by the client as it was written, or as 500. *)
Lemma report_read date fd b req m p cap frame :
  date_ok date -> (forall t, b = Some t -> (length t < BODY_CAP)%nat) -> cap = BODY_CAP ->
  htttp_serialize_request (mkRequest (trunc HTTTP_MAX_METHOD (bytes m)) (trunc HTTTP_MAX_PATH (bytes p)) [] None 0) CTL_FRAME_CAP = Ok frame ->
  req frame = answer (report (Some date) fd b) ->
  ctl_request req m p cap = match b with Some t => (200, cstr t) | None => (500, []) end.
Proof.
  intros Hd Hb -> Hs Hreq. unfold ctl_request. rewrite Hs, Hreq. unfold report, answer, ctl_reply. destruct b as [t|].
  - destruct (reply_sent date 200 t (bytes "OK") Hd) as (f & r & -> & Hpar & Hst & Hn & Hbody); [done|vm_compute; lia|by apply Hb|].
    cbn [app]. rewrite Hpar, Hst, Hn. specialize (Hb t eq_refl). f_equal.
    destruct (res_body r) as [b|]; cbn in Hbody; subst; [|done]. by rewrite take_ge by (unfold BODY_CAP in *; lia).
  - destruct (reply_sent date 500 [] (bytes "Internal Server Error") Hd) as (f & r & -> & Hpar & Hst & Hn & Hbody);
      [done|vm_compute; lia|unfold BODY_CAP; simpl; lia|].
    cbn [app]. rewrite Hpar, Hst. f_equal. destruct (res_body r) as [b|]; cbn in Hbody; subst; [|done]. by rewrite take_nil.
Qed.

(** ** Status *)

Definition status_text (uptime sessions rooms : Z) : list Z :=
  123 :: json_key "uptime" ++ decimal_ll uptime ++ 44 :: json_key "sessions" ++ decimal_int sessions ++
  44 :: json_key "rooms" ++ decimal_int rooms ++ [125].

Lemma status_read up n m :
  ll_range up -> int_range n -> int_range m ->
  cstr (status_text up n m) = status_text up n m /\ (length (status_text up n m) < BODY_CAP)%nat /\
  ctl_decode_status (status_text up n m) = Some (mkCtlStatus up n m).
Proof.
  intros Hu Hn Hm. destruct (decimal_ll_text up Hu) as [Hd Hl]. unfold status_text.
  assert (Hq : 34 ∉ decimal_ll up) by (by apply digit_not).
  pose proof (decimal_int_length _ Hn). pose proof (decimal_int_length _ Hm). split_and!.
  - apply cstr_id. assert (0 ∉ decimal_ll up) by (by apply digit_not).
    assert (0 ∉ decimal_int n /\ 0 ∉ decimal_int m) as [] by (split; by apply decimal_int_avoids).
    show_keys. repeat first [rewrite not_elem_of_cons; split; [done|]|rewrite not_elem_of_app; split]; try done; apply not_elem_of_nil.
  - show_keys. repeat first [progress cbn [length app]|rewrite length_app]. unfold BODY_CAP. lia.
  - unfold ctl_decode_status.
    assert (Hk : find_key (123 :: json_key "uptime" ++ decimal_ll up ++ 44 :: json_key "sessions" ++ decimal_int n ++
      44 :: json_key "rooms" ++ decimal_int m ++ [125]) "uptime" =
      Some (decimal_ll up ++ 44 :: json_key "sessions" ++ decimal_int n ++ 44 :: json_key "rooms" ++ decimal_int m ++ [125])).
    { unfold find_key. show_keys. by seek. }
    rewrite Hk. cbn [mbind option_bind]. do 2 f_equal.
    + unfold json_int. rewrite Hk, strtol_decimal_ll; [|done|by intros ? [= <-]]. cbn [fst]. unfold clamp_long, ll_range, LLONG_MAX, LONG_MAX in *. lia.
    + eapply json_number; [unfold find_key; show_keys; seek; rewrite after_skip by exact Hq; seek; reflexivity|done|by intros ? [= <-]].
    + eapply json_number; [unfold find_key; show_keys; seek; rewrite after_skip by exact Hq; seek; reflexivity|done|by intros ? [= <-]].
Qed.

(** ** The dashboard *)

(** The rows of the server's tables as the dashboard shows them. *)
Definition client_view (c : Client) : CtlPlayer := player_view (player_info c) (bytes (snprintf_s MAX_USER_NAME (c_name c))).

(** The numbers in the tables are C ints, and a name holds neither a control
    character nor a brace. *)
Definition showable (s : Admin) : Prop :=
  Forall (fun r => room_ints (room_info s r)) (open_rooms s) /\
  Forall (fun c => player_ints (player_info c) /\ Forall plain_char (bytes (snprintf_s MAX_USER_NAME (c_name c)))) (connected s).

Lemma whole_length cap b t : whole cap b = Some t -> (length t < cap)%nat /\ t = b.
Proof. unfold whole. destruct (Nat.ltb_spec (length b) cap); [by intros [= <-]|done]. Qed.

Lemma status_asked date up ws rd s :
  date_ok date -> ll_range up -> rtc (admin_step ws rd) admin_start s ->
  let n := Z.of_nat (length (connected s)) in let m := Z.of_nat (length (open_rooms s)) in
  exists body, ctl_request (daemon (Some date) up s) "STATUS" "/" CTL_BODY_MAX = (200, body) /\
    ctl_decode_status body = Some (mkCtlStatus up n m).
Proof.
  intros Hd Hu Hr n m. pose proof (admin_steps_ok ws rd s Hr) as [Hs _].
  assert (Hn : int_range n /\ int_range m).
  { pose proof (length_filter (fun c => 0 <= c_fd c) (g_clients s)) as H1. pose proof (length_filter (fun r => r_id r <> 0) (g_rooms s)) as H2.
    unfold n, m, connected, open_rooms, int_range, INT_MIN, INT_MAX. destruct Hs. unfold MAX_SESSIONS, MAX_ROOMS in *. lia. }
  destruct Hn as [Hn Hm]. destruct (status_read up n m Hu Hn Hm) as (Hc & Hl & Hdec). exists (status_text up n m). split; [|done].
  assert (Hb : build_status up s = (Some (status_text up n m), s)).
  { unfold build_status, client_count, room_count. rewrite !ensure_init_id by (by destruct Hs).
    fold (connected s) (open_rooms s) n m. rewrite body_add_spec. fold (status_text up n m). cbn [length Nat.add app].
    by rewrite (proj2 (Nat.ltb_lt _ _)). }
  erewrite (report_read date 0 (Some (status_text up n m))); [by rewrite Hc|done|by intros ? [= <-]|done|vm_compute; reflexivity|].
  unfold daemon. match goal with |- context [handle_conn ?d ?f ?r ?b] => change (handle_conn d f r b) with (@nil ctl_action, Some (mkCtlReq 0 CTL_VERB_STATUS 0 0)) end.
  unfold ctl_dispatch. cbn [cr_verb cr_fd]. by rewrite Hb.
Qed.

Lemma rooms_asked date up ws rd s :
  date_ok date -> rtc (admin_step ws rd) admin_start s -> showable s ->
  match whole BODY_CAP (json_array (room_json <$> (room_info s <$> open_rooms s))) with
  | Some t => exists body, ctl_request (daemon (Some date) up s) "ROOMS" "/" CTL_BODY_MAX = (200, body) /\
      ctl_decode_rooms body (Z.to_nat MAX_ROOMS) = Some (room_view <$> (room_info s <$> open_rooms s))
  | None => ctl_request (daemon (Some date) up s) "ROOMS" "/" CTL_BODY_MAX = (500, [])
  end.
Proof.
  intros Hd Hr [Hrooms _]. pose proof (admin_steps_ok ws rd s Hr) as [Hs _].
  set (rows := room_info s <$> open_rooms s). assert (Hok : Forall room_ints rows) by (by apply Forall_fmap).
  assert (Hrow : Forall row_ok (room_json <$> rows)) by (apply Forall_fmap; eapply Forall_impl; [exact Hok|]; apply room_row_ok).
  pose proof (report_read date 0 (build_rooms s).1 (daemon (Some date) up s) "ROOMS" "/" CTL_BODY_MAX) as H.
  rewrite (rooms_report ws rd) in H by done. cbn [fst] in H. fold rows in H. erewrite H; clear H;
    [|done|intros t Ht; by apply whole_length in Ht as []|done|vm_compute; reflexivity|].
  - destruct (whole _ _) as [t|] eqn:Ht; [|done]. apply whole_length in Ht as [_ ->]. eexists. split; [reflexivity|].
    rewrite array_no_nul by done. unfold ctl_decode_rooms. rewrite json_each_array by done.
    change (from_char 91 (json_array (room_json <$> rows))) with (Some (json_array (room_json <$> rows))).
    cbn [mbind option_bind]. f_equal. rewrite <- list_fmap_compose, take_ge.
    + apply list_fmap_ext. intros i r Hi. cbn. apply room_item_row. by eapply (proj1 (Forall_lookup _ _) Hok).
    + rewrite length_fmap. unfold rows, open_rooms. rewrite length_fmap. etrans; [apply length_filter|]. destruct Hs. lia.
  - unfold daemon. match goal with |- context [handle_conn ?d ?f ?r ?b] => change (handle_conn d f r b) with (@nil ctl_action, Some (mkCtlReq 0 CTL_VERB_ROOMS 0 0)) end.
    unfold ctl_dispatch. cbn [cr_verb cr_fd]. by rewrite (rooms_report ws rd).
Qed.

Lemma players_asked date up ws rd s :
  date_ok date -> rtc (admin_step ws rd) admin_start s -> showable s ->
  match whole BODY_CAP (json_array (player_text <$> connected s)) with
  | Some t => exists body, ctl_request (daemon (Some date) up s) "PLAYERS" "/" CTL_BODY_MAX = (200, body) /\
      ctl_decode_players body (Z.to_nat MAX_SESSIONS) = Some (client_view <$> connected s)
  | None => ctl_request (daemon (Some date) up s) "PLAYERS" "/" CTL_BODY_MAX = (500, [])
  end.
Proof.
  intros Hd Hr [_ Hcs]. pose proof (admin_steps_ok ws rd s Hr) as [Hs _].
  assert (Hrow : Forall row_ok (player_text <$> connected s)).
  { apply Forall_fmap. eapply Forall_impl; [exact Hcs|]. intros c [Hi Hn]. apply player_row_ok; [done|done|].
    pose proof (short_name (c_name c)). lia. }
  pose proof (report_read date 0 (build_players s).1 (daemon (Some date) up s) "PLAYERS" "/" CTL_BODY_MAX) as H.
  rewrite (players_report ws rd) in H by done. cbn [fst] in H. erewrite H; clear H;
    [|done|intros t Ht; by apply whole_length in Ht as []|done|vm_compute; reflexivity|].
  - destruct (whole _ _) as [t|] eqn:Ht; [|done]. apply whole_length in Ht as [_ ->]. eexists. split; [reflexivity|].
    rewrite array_no_nul by done. unfold ctl_decode_players. rewrite json_each_array by done.
    change (from_char 91 (json_array (player_text <$> connected s))) with (Some (json_array (player_text <$> connected s))).
    cbn [mbind option_bind]. f_equal. rewrite <- list_fmap_compose, take_ge.
    + apply list_fmap_ext. intros i c Hi. cbn. destruct (proj1 (Forall_lookup _ _) Hcs i c Hi) as [Hints Hn].
      apply player_item_row; [done|done|]. pose proof (short_name (c_name c)). lia.
    + rewrite length_fmap. unfold connected. etrans; [apply length_filter|]. destruct Hs. lia.
  - unfold daemon. match goal with |- context [handle_conn ?d ?f ?r ?b] => change (handle_conn d f r b) with (@nil ctl_action, Some (mkCtlReq 0 CTL_VERB_PLAYERS 0 0)) end.
    unfold ctl_dispatch. cbn [cr_verb cr_fd]. by rewrite (players_report ws rd).
Qed.

(** A name the daemons accept is shown as it is. *)
Lemma account_names_plain n : user_name_ok n = true -> Forall plain_char n.
Proof.
  unfold user_name_ok. intros [_ H]%andb_true_iff. rewrite forallb_forall in H. apply list.Forall_forall.
  intros c Hc. apply list_elem_of_In, H in Hc. unfold user_name_char_ok, plain_char in *.
  repeat match type of Hc with context [?a || ?b] => destruct (orb_prop _ _ Hc) as [Hc'|Hc']; clear Hc; rename Hc' into Hc end; bool_arith; lia.
Qed.

(** C15: The operator's dashboard shows the server, from the tables of the admin thread
    through its reports, the HTTTP frames and the client's JSON reader. A refresh
    whose three commands find the admin thread in three reachable states - they may
    differ - holds afterwards the uptime and the true number of sessions and rooms of
    the first, exactly one row per open room of the second and one per connected
    client of the third, with every number, flag and name as it is there. If a report
    is too large, the snapshot keeps what it held and is marked stale: never half of
    one instant and half of another. The numbers reported fit a C int, the uptime a
    long long, and names hold neither control characters nor braces, as every accepted
    account name does: the reader ends an object at the first closing brace. *)
Theorem refresh_shows_the_server ws rd s1 s2 s3 d1 d2 d3 up up2 up3 now snap :
  rtc (admin_step ws rd) admin_start s1 -> rtc (admin_step ws rd) admin_start s2 -> rtc (admin_step ws rd) admin_start s3 ->
  showable s2 -> showable s3 -> date_ok d1 -> date_ok d2 -> date_ok d3 -> ll_range up ->
  ctl_refresh (daemon (Some d1) up s1) (daemon (Some d2) up2 s2) (daemon (Some d3) up3 s3) now snap =
  match whole BODY_CAP (json_array (room_json <$> (room_info s2 <$> open_rooms s2))),
        whole BODY_CAP (json_array (player_text <$> connected s3)) with
  | Some _, Some _ =>
      (0, mkCtlSnapshot (mkCtlStatus up (Z.of_nat (length (connected s1))) (Z.of_nat (length (open_rooms s1))))
            (room_view <$> (room_info s2 <$> open_rooms s2)) (client_view <$> connected s3) true false now)
  | _, _ => (500, set_stale snap)
  end.
Proof.
  intros R1 R2 R3 S2 S3 D1 D2 D3 Hu. unfold ctl_refresh.
  destruct (status_asked d1 up ws rd s1 D1 Hu R1) as (b1 & -> & ->). cbn [Z.eqb Pos.eqb negb].
  pose proof (rooms_asked d2 up2 ws rd s2 D2 R2 S2) as H2. destruct (whole BODY_CAP (json_array (room_json <$> _))) as [t2|]; [|by rewrite H2].
  destruct H2 as (b2 & -> & ->). cbn [Z.eqb Pos.eqb negb].
  pose proof (players_asked d3 up3 ws rd s3 D3 R3 S3) as H3. destruct (whole BODY_CAP (json_array (player_text <$> _))) as [t3|]; [|by rewrite H3].
  by destruct H3 as (b3 & -> & ->).
Qed.

Definition blank_snapshot : CtlSnapshot := mkCtlSnapshot (mkCtlStatus 0 0 0) [] [] false false 0.

Definition any_date : list Z := bytes "Mon, 01 Jan 2024 00:00:00 GMT".

Lemma two_players_showable : showable two_players.
Proof.
  unfold showable, player_ints, room_ints, plain_char, int_range. apply (bool_decide_unpack _). vm_compute. exact I.
Qed.

Lemma refresh_shows_the_server_witness :
  exists snap, ctl_refresh (daemon (Some any_date) 75 two_players) (daemon (Some any_date) 75 two_players)
    (daemon (Some any_date) 75 two_players) 5 blank_snapshot = (0, snap) /\
  sn_players snap = client_view <$> connected two_players /\ length (sn_players snap) = 2%nat.
Proof.
  assert (Hd : date_ok any_date) by (split; [reflexivity|vm_compute; lia]).
  pose proof (refresh_shows_the_server quiet_net count_rand two_players two_players two_players any_date any_date any_date 75 75 75 5
    blank_snapshot two_players_reach two_players_reach two_players_reach two_players_showable two_players_showable Hd Hd Hd
    ltac:(unfold ll_range, LLONG_MAX, LONG_MAX; lia)) as H.
  rewrite H. eexists. split; [vm_compute; reflexivity|]. split; vm_compute; reflexivity.
Defined.
