(* ===== verification/BallotTypes.v ===== *)
(** * BallotTypes: BallotBox's domain model and its pure rules

    Models ballotbox/include/libballotbrain/types.h and the pure parts of
    ballotbox/src/libballotbrain: config.c (what an election must have), the
    transition table of lifecycle.c, the eligibility check of handlers.c, and the
    placeholder cryptography of crypto.c.  A fixed array with its count keeps both,
    as the struct does: the count is not known to be in range. *)

From Stdlib Require Import String.
From stdpp Require Import options.
From S2P Require Import Prelude Text.
#[local] Open Scope Z_scope.

(** ** types.h *)

Definition BB_ID_LEN : nat := 16.
Definition BB_TITLE_LEN : nat := 64.
Definition BB_OPTION_LEN : nat := 32.
Definition BB_CERT_LEN : nat := 32.
Definition BB_TIME_LEN : nat := 32.
Definition BB_HASH_LEN : nat := 65.
Definition BB_NONCE_LEN : nat := 33.
Definition BB_MAX_OPTIONS : Z := 16.
Definition BB_MAX_VOTERS : Z := 64.

Inductive bb_state := BB_STATE_DRAFT | BB_STATE_OPEN | BB_STATE_CLOSED | BB_STATE_PUBLISHED.

#[global] Instance bb_state_eq_dec : EqDecision bb_state.
Proof. solve_decision. Defined.

Inductive bb_cert_status := BB_CERT_INVALID | BB_CERT_EXPIRED | BB_CERT_NOT_ELIGIBLE | BB_CERT_VALID.

#[global] Instance bb_cert_status_eq_dec : EqDecision bb_cert_status.
Proof. solve_decision. Defined.

(** The codes of [bb_result_t] other than [BB_OK]. *)
Inductive bb_err :=
  | BB_ERR_CONFIG_TITLE | BB_ERR_CONFIG_OPTIONS | BB_ERR_CONFIG_TIME | BB_ERR_CONFIG_ID_TAKEN
  | BB_ERR_ILLEGAL_TRANSITION | BB_ERR_NOT_OPEN | BB_ERR_CLOSED | BB_ERR_NOT_PUBLISHED
  | BB_ERR_NOT_ELIGIBLE | BB_ERR_CERT_INVALID | BB_ERR_CERT_EXPIRED
  | BB_ERR_BAD_OPTION | BB_ERR_REPLAY | BB_ERR_DECRYPT
  | BB_ERR_NOT_FOUND | BB_ERR_NOT_JOINED | BB_ERR_DB | BB_ERR_NOT_IMPLEMENTED | BB_ERR_RETRY.

#[global] Instance bb_err_eq_dec : EqDecision bb_err.
Proof. solve_decision. Defined.

(** What a fallible function gives its caller: [BB_OK] with what it wrote to its
    out-parameters, or a code. *)
Inductive bb_result (A : Type) := BB_OK (a : A) | BB_ERR (e : bb_err).
Arguments BB_OK {A} a.
Arguments BB_ERR {A} e.

Record bb_config := mkConfig {
  cfg_title : list Z;
  cfg_options : list (list Z);
  cfg_option_count : Z;
  cfg_eligible : list (list Z);
  cfg_eligible_count : Z;
  cfg_open_time : list Z;
  cfg_close_time : list Z
}.

Record bb_election := mkElection {
  e_id : list Z;
  e_title : list Z;
  e_state : bb_state;
  e_options : list (list Z);
  e_option_count : Z;
  e_eligible : list (list Z);
  e_eligible_count : Z;
  e_open_time : list Z;
  e_close_time : list Z
}.

Record bb_ballot := mkBallot {
  b_cert_name : list Z;
  b_nonce : list Z;
  b_payload : list Z;
  b_payload_len : Z
}.

Record bb_ballot_hash := mkRow {
  h_hash : list Z;
  h_option_index : Z;
  h_version : Z;
  h_superseded : Z
}.

#[global] Instance bb_ballot_hash_eq_dec : EqDecision bb_ballot_hash.
Proof. solve_decision. Defined.

Record bb_results := mkResults {
  rs_title : list Z;
  rs_tally : list Z;
  rs_option_count : Z;
  rs_options : list (list Z);
  rs_hashes : list bb_ballot_hash
}.

Record bb_receipt := mkReceipt { rc_hash : list Z; rc_issued_at : list Z }.

(** ** lifecycle.c, the table *)

Definition bb_is_legal_transition (from to : bb_state) : bool :=
  match from with
  | BB_STATE_DRAFT => bool_decide (to = BB_STATE_OPEN)
  | BB_STATE_OPEN => bool_decide (to = BB_STATE_CLOSED)
  | BB_STATE_CLOSED => bool_decide (to = BB_STATE_PUBLISHED)
  | BB_STATE_PUBLISHED => false
  end.

(** ** config.c *)

Definition bb_validate_config (config : option bb_config) : bb_result unit :=
  match config with
  | None => BB_ERR BB_ERR_CONFIG_TITLE
  | Some c =>
      if bool_decide (cfg_title c = []) then BB_ERR BB_ERR_CONFIG_TITLE
      else if cfg_option_count c <? 2 then BB_ERR BB_ERR_CONFIG_OPTIONS
      else if strcmp (cfg_close_time c) (cfg_open_time c) <=? 0 then BB_ERR BB_ERR_CONFIG_TIME
      else BB_OK tt
  end.

(** ** handlers.c, the eligibility check *)

(** The entries the loop visits: [i < eligible_count && i < BB_MAX_VOTERS]. *)
Definition bb_check_eligibility (e : bb_election) (cert_name : list Z) : bool :=
  existsb (fun i => bool_decide (aget [] (e_eligible e) i = cert_name))
    (range (Z.min (e_eligible_count e) BB_MAX_VOTERS)).

(** ** crypto.c *)

(** The loop of hash_from_seed, [n] digits to go. *)
Fixpoint hash_digits (n : nat) (state : Z) : list Z :=
  match n with
  | O => []
  | S n =>
      let state := u32 (state * 1103515245 + 12345) in
      aget 0 (bytes "0123456789abcdef") (Z.land (Z.shiftr state 16) 15) :: hash_digits n state
  end.

Definition hash_from_seed (seed : Z) : list Z :=
  hash_digits (BB_HASH_LEN - 1) (u32 (seed * 2654435761 + 1)).

Definition fold (s : list Z) : Z := foldl (fun h c => u32 (h * 33 + c)) 5381 s.

Definition bb_verify_cert (cert_name : list Z) : bb_cert_status :=
  if bool_decide (cert_name = []) then BB_CERT_INVALID else BB_CERT_VALID.

Definition bb_decrypt_ballot (ballot : bb_ballot) : bb_result Z :=
  BB_OK (if 0 <? b_payload_len ballot then aget 0 (b_payload ballot) 0 else 0).

Definition bb_issue_receipt (ballot : bb_ballot) (version : Z) : bb_result bb_receipt :=
  let seed := Z.lxor (fold (b_nonce ballot)) (u32 (version * 2246822519)) in
  BB_OK (mkReceipt (hash_from_seed seed) (trunc BB_TIME_LEN (bytes "1970-01-01T00:00:00Z"))).

Lemma length_hash_digits n state : length (hash_digits n state) = n.
Proof. revert state. induction n as [|n IH]; intros state; simpl; [done|]. by rewrite IH. Qed.

(** A receipt's hash fills its array. *)
Lemma receipt_hash_length ballot version rc :
  bb_issue_receipt ballot version = BB_OK rc -> length (rc_hash rc) = (BB_HASH_LEN - 1)%nat.
Proof. intros [= <-]. apply length_hash_digits. Qed.

Lemma check_eligibility_spec e cert :
  bb_check_eligibility e cert = true <->
  exists i, 0 <= i < Z.min (e_eligible_count e) BB_MAX_VOTERS /\ aget [] (e_eligible e) i = cert.
Proof.
  unfold bb_check_eligibility. rewrite existsb_exists. split.
  - intros (i & Hi%list_elem_of_In%elem_of_range & Hc%bool_decide_eq_true). eauto.
  - intros (i & Hi & Hc). exists i. rewrite <- list_elem_of_In, elem_of_range, bool_decide_eq_true. done.
Qed.

Lemma legal_transition_irreflexive s : bb_is_legal_transition s s = false.
Proof. by destruct s. Qed.
