(* ===== verification/BallotDb.v ===== *)
(** * BallotDb: BallotBox's store, as its handlers rely on it

    The contract of ballotbox/include/libballotbrain/db.h.  [bdb] is the content of
    the six tables, [cmd_run] is what each command means on it, and the classes are
    the seam: [DbExec] the commands (db.c), [DbTxn] the transactions (txn.c),
    [IdAlloc] the id allocation (ballotbrain.c), and [StoreLaws] what the handlers
    may assume of the three.  A select's rows are the ones rows.c makes of the
    printed reply ([reply_rows]; [reply_count_text] shows the count to be
    [db_row_count]'s); no string here has a line break, which the codec leaves in no
    field and [db_socket_exec] would refuse in a statement.  The laws leave room for
    every fault: any call may fail, a transaction that failed is only good for a
    rollback, and a commit whose reply is lost may or may not have happened.  BallotSql discharges them for the
    real db.c and txn.c. *)

From Stdlib Require Import String.
From stdpp Require Import options.
From S2P Require Import Prelude Text DbRows DbRowsTheorems BallotTypes.
#[local] Open Scope Z_scope.

(** ** Commands and their results *)

Inductive bb_db_cmd :=
  | BB_DB_INSERT_ELECTION (election_id : list Z) (config : bb_config)
  | BB_DB_UPDATE_STATE (election_id : list Z) (new_state : bb_state)
  | BB_DB_APPEND_BALLOT (election_id : list Z) (hash_row : bb_ballot_hash)
  | BB_DB_MARK_SUPERSEDED (election_id hash : list Z)
  | BB_DB_NONCE_MARK (election_id nonce : list Z)
  | BB_DB_SET_OWNER (election_id cert_name hash : list Z) (version : Z)
  | BB_DB_GET_ELECTION (election_id : list Z)
  | BB_DB_GET_TALLY (election_id : list Z)
  | BB_DB_GET_HASHES (election_id : list Z)
  | BB_DB_FIND_HASH (election_id hash : list Z)
  | BB_DB_NONCE_SEEN (election_id nonce : list Z)
  | BB_DB_GET_PRIOR_BALLOT (election_id cert_name : list Z).

Record bb_db_result := mkDbResult {
  r_election : bb_election;
  r_tally : list Z;
  r_hashes : list bb_ballot_hash;
  r_found : bool;
  r_row : bb_ballot_hash
}.

(** The structs after their [memset]. *)
Definition zero_election : bb_election :=
  mkElection [] [] BB_STATE_DRAFT (replicate 16 []) 0 (replicate 64 []) 0 [] [].
Definition zero_row : bb_ballot_hash := mkRow [] 0 0 0.
Definition zero_result : bb_db_result := mkDbResult zero_election (replicate 16 0) [] false zero_row.

Definition with_election (e : bb_election) : bb_db_result := mkDbResult e (replicate 16 0) [] true zero_row.
Definition with_tally (t : list Z) : bb_db_result := mkDbResult zero_election t [] false zero_row.
Definition with_hashes (hs : list bb_ballot_hash) : bb_db_result :=
  mkDbResult zero_election (replicate 16 0) hs false zero_row.
Definition with_found (b : bool) : bb_db_result :=
  mkDbResult zero_election (replicate 16 0) [] b zero_row.
Definition with_row (r : bb_ballot_hash) : bb_db_result :=
  mkDbResult zero_election (replicate 16 0) [] true r.

(** ** The six tables of db.c *)

Record election_row := mkElectionRow {
  er_seq : Z; er_id : list Z; er_title : list Z; er_state : list Z; er_open : list Z; er_close : list Z
}.
Record option_row := mkOptionRow { op_election : list Z; op_idx : Z; op_name : list Z }.
Record eligible_row := mkEligibleRow { el_election : list Z; el_cert : list Z }.
Record ballot_row := mkBallotRow { ba_election : list Z; ba_hash : bb_ballot_hash }.
Record owner_row := mkOwnerRow { ow_election : list Z; ow_cert : list Z; ow_hash : list Z; ow_version : Z }.
Record nonce_row := mkNonceRow { no_election : list Z; no_nonce : list Z }.

Record bdb := mkDb {
  t_election : list election_row;
  t_option : list option_row;
  t_eligible : list eligible_row;
  t_ballot : list ballot_row;
  t_owner : list owner_row;
  t_nonce : list nonce_row
}.

Definition bb_state_str (s : bb_state) : list Z :=
  match s with
  | BB_STATE_DRAFT => bytes "DRAFT"
  | BB_STATE_OPEN => bytes "OPEN"
  | BB_STATE_CLOSED => bytes "CLOSED"
  | BB_STATE_PUBLISHED => bytes "PUBLISHED"
  end.

Definition parse_state (text : list Z) : option bb_state :=
  if bool_decide (text = bytes "DRAFT") then Some BB_STATE_DRAFT
  else if bool_decide (text = bytes "OPEN") then Some BB_STATE_OPEN
  else if bool_decide (text = bytes "CLOSED") then Some BB_STATE_CLOSED
  else if bool_decide (text = bytes "PUBLISHED") then Some BB_STATE_PUBLISHED
  else None.

Lemma parse_state_str s : parse_state (trunc 16 (bb_state_str s)) = Some s.
Proof. by destruct s. Qed.

Definition unsafe (s : list Z) : bool := existsb (fun c => (c =? 9) || (c =? 10) || (c =? 13)) s.

Definition id_seq (id : list Z) : Z :=
  match after_last_dash id with
  | None => 0
  | Some t => let '(v, rest) := strtol t in
              if negb (bool_decide (rest = [])) || (v <? 0) then 0 else to_int v
  end.

(** ** The rows of a reply *)

Definition BODY_MAX : nat := 16384.
Definition QUOTE_MAX : nat := 512.

(** A column of a row as the runner prints it: a string is stored with at most 128
    characters (Type.STRING_LEN). *)
Definition print_string (s : list Z) : list Z := take 128 s.
Definition print_int (v : Z) : list Z := decimal_int (to_int v).

(** What SimpleDB prints above the first row of a select: the plan, the header and
    the rule.  Its text depends on the statement; only its length matters here, and
    that it leaves the reply's buffer three quarters free. *)
Class Runner := {
  preface : list Z -> nat;
  preface_small sql : (preface sql <= 4096)%nat
}.

(** [block_count] on the lines printed under the rule: each row's, a blank one and
    the trailer with the number of rows.  A row that prints as an empty line, which
    only a single empty string does, is taken for the blank one. *)
Fixpoint count_lines (lines : list (list Z)) (n : Z) : Z :=
  match lines with
  | [] => n
  | [] :: rest => trailer_count (default [] (head rest)) n
  | _ :: rest => count_lines rest (n + 1)
  end.

(** The length of a reply up to the end of [" N rows."]. *)
Definition reply_length `{Runner} (sql : list Z) (lines : list (list Z)) : nat :=
  preface sql + foldr (fun l n => S (length l) + n)%nat O lines + 1 +
  (7 + length (decimal (Z.of_nat (length lines)))).

(** [db_row_count]: a reply cut short by its buffer has no trailer left. *)
Definition reply_count `{Runner} (sql : list Z) (lines : list (list Z)) : Z :=
  if (reply_length sql lines <? BODY_MAX)%nat then count_lines lines 0 else -1.

(** The rows [db_row_fields] can be asked for, [None] when the count is negative. *)
Definition reply_rows `{Runner} {R} (sql : list Z) (show : R -> list (list Z)) (found : list R) : option (list R) :=
  let n := reply_count sql (join_on TAB ∘ show <$> found) in
  if n <? 0 then None else Some (take (Z.to_nat n) found).

(** [if (rows < 0) rows = 0] *)
Definition rows_or_none {R} (reply : option (list R)) : list R := default [] reply.

(** [if (rows <= 0)], otherwise the first row. *)
Definition first_row {R} (reply : option (list R)) : option R := reply ≫= head.

(** ** The selects of db.c: their text and their columns *)

Definition quoted (s : list Z) : list Z := db_quote QUOTE_MAX s.

Definition sql_election (id : list Z) : list Z :=
  bytes "select seq, id, title, state, open_time, close_time from election where id = " ++ quoted id ++ bytes ";".
Definition show_election (r : election_row) : list (list Z) :=
  [print_int (er_seq r); print_string (er_id r); print_string (er_title r); print_string (er_state r);
   print_string (er_open r); print_string (er_close r)].

Definition sql_old_state (id : list Z) : list Z :=
  bytes "select seq, title, open_time, close_time from election where id = " ++ quoted id ++ bytes ";".
Definition show_old_state (r : election_row) : list (list Z) :=
  [print_int (er_seq r); print_string (er_title r); print_string (er_open r); print_string (er_close r)].

Definition sql_options (id : list Z) : list Z :=
  bytes "select idx, name from election_option where election_id = " ++ quoted id ++ bytes ";".
Definition show_option (r : option_row) : list (list Z) := [print_int (op_idx r); print_string (op_name r)].

Definition sql_eligible (id : list Z) : list Z :=
  bytes "select cert_name from election_eligible where election_id = " ++ quoted id ++ bytes ";".
Definition show_eligible (r : eligible_row) : list (list Z) := [print_string (el_cert r)].

Definition sql_old_ballot (id hash : list Z) : list Z :=
  bytes "select option_index, version from ballot where election_id = " ++ quoted id ++
  bytes " and hash = " ++ quoted hash ++ bytes ";".
Definition show_old_ballot (r : bb_ballot_hash) : list (list Z) := [print_int (h_option_index r); print_int (h_version r)].

Definition sql_tally (id : list Z) : list Z :=
  bytes "select option_index from ballot where election_id = " ++ quoted id ++ bytes " and superseded = 0;".
Definition show_tally (r : bb_ballot_hash) : list (list Z) := [print_int (h_option_index r)].

Definition sql_hashes (id : list Z) : list Z :=
  bytes "select hash, option_index, version, superseded from ballot where election_id = " ++ quoted id ++
  bytes " and superseded = 0;".
Definition sql_find_hash (id hash : list Z) : list Z :=
  bytes "select hash, option_index, version, superseded from ballot where election_id = " ++ quoted id ++
  bytes " and hash = " ++ quoted hash ++ bytes " and superseded = 0;".
Definition show_hash (r : bb_ballot_hash) : list (list Z) :=
  [print_string (h_hash r); print_int (h_option_index r); print_int (h_version r); print_int (h_superseded r)].

Definition sql_nonce (id nonce : list Z) : list Z :=
  bytes "select nonce from nonce where election_id = " ++ quoted id ++ bytes " and nonce = " ++ quoted nonce ++ bytes ";".
Definition show_nonce (r : nonce_row) : list (list Z) := [print_string (no_nonce r)].

Definition sql_owner (id cert : list Z) : list Z :=
  bytes "select hash, version from ballot_owner where election_id = " ++ quoted id ++
  bytes " and cert_name = " ++ quoted cert ++ bytes ";".
Definition show_owner (r : owner_row) : list (list Z) := [print_string (ow_hash r); print_int (ow_version r)].

(** ** What each command means *)

Section meaning.
Context `{!Runner}.

Definition elections_of (d : bdb) (id : list Z) : list election_row :=
  filter (fun r => er_id r = id) (t_election d).
(** The lists of an election as GET_ELECTION reads them. *)
Definition options_of (d : bdb) (id : list Z) : list option_row :=
  rows_or_none (reply_rows (sql_options id) show_option (filter (fun r => op_election r = id) (t_option d))).
Definition eligible_of (d : bdb) (id : list Z) : list eligible_row :=
  rows_or_none (reply_rows (sql_eligible id) show_eligible (filter (fun r => el_election r = id) (t_eligible d))).
Definition ballots_of (d : bdb) (id : list Z) : list bb_ballot_hash :=
  ba_hash <$> filter (fun r => ba_election r = id) (t_ballot d).
Definition live (rows : list bb_ballot_hash) : list bb_ballot_hash :=
  filter (fun r => h_superseded r = 0) rows.
Definition owner_of (d : bdb) (id cert : list Z) : option owner_row :=
  first_row (reply_rows (sql_owner id cert) show_owner
               (filter (fun r => ow_election r = id /\ ow_cert r = cert) (t_owner d))).
Definition nonce_seen (d : bdb) (id nonce : list Z) : bool :=
  bool_decide (is_Some (first_row (reply_rows (sql_nonce id nonce) show_nonce
    (filter (fun r => no_election r = id /\ no_nonce r = nonce) (t_nonce d))))).

(** [options[idx]] filled from rows in any order. *)
Definition fill_options (rows : list option_row) : list (list Z) :=
  foldl (fun o r => if (0 <=? op_idx r) && (op_idx r <? BB_MAX_OPTIONS)
                    then aset o (op_idx r) (trunc BB_OPTION_LEN (op_name r)) else o)
    (replicate 16 []) rows.

(** The first 64 entries, padded with empty ones. *)
Definition fill_eligible (rows : list eligible_row) : list (list Z) :=
  let l := take 64 (trunc BB_CERT_LEN ∘ el_cert <$> rows) in l ++ replicate (64 - length l) [].

Definition count_to (cap : Z) {A} (l : list A) : Z := Z.min (Z.of_nat (length l)) cap.

(** The election a row and its two lists stand for. *)
Definition make_election (d : bdb) (id : list Z) (r : election_row) (st : bb_state) : bb_election :=
  mkElection (trunc BB_ID_LEN (er_id r)) (trunc BB_TITLE_LEN (er_title r)) st
    (fill_options (options_of d id)) (count_to BB_MAX_OPTIONS (options_of d id))
    (fill_eligible (eligible_of d id)) (count_to BB_MAX_VOTERS (eligible_of d id))
    (trunc BB_TIME_LEN (er_open r)) (trunc BB_TIME_LEN (er_close r)).

Definition clip_row (r : bb_ballot_hash) : bb_ballot_hash :=
  mkRow (trunc BB_HASH_LEN (h_hash r)) (h_option_index r) (h_version r) (h_superseded r).

Definition tally_rows (rows : list bb_ballot_hash) : list Z :=
  foldl (fun t r => if (0 <=? h_option_index r) && (h_option_index r <? BB_MAX_OPTIONS)
                    then aset t (h_option_index r) (aget 0 t (h_option_index r) + 1) else t)
    (replicate 16 0) rows.

Definition config_option_rows (id : list Z) (c : bb_config) : list option_row :=
  (fun i => mkOptionRow id i (aget [] (cfg_options c) i)) <$> range (Z.min (cfg_option_count c) BB_MAX_OPTIONS).
Definition config_eligible_rows (id : list Z) (c : bb_config) : list eligible_row :=
  (fun i => mkEligibleRow id (aget [] (cfg_eligible c) i)) <$> range (Z.min (cfg_eligible_count c) BB_MAX_VOTERS).

Definition config_safe (id : list Z) (c : bb_config) : bool :=
  negb (unsafe id || unsafe (cfg_title c) || unsafe (cfg_open_time c) || unsafe (cfg_close_time c)) &&
  forallb (fun r => negb (unsafe (op_name r))) (config_option_rows id c) &&
  forallb (fun r => negb (unsafe (el_cert r))) (config_eligible_rows id c).

(** The result of a command on a store that does not fail, and the store after it. *)
Definition cmd_run (c : bb_db_cmd) (d : bdb) : bb_result (bb_db_result * bdb) :=
  match c with
  | BB_DB_INSERT_ELECTION id cfg =>
      if config_safe id cfg then
        BB_OK (zero_result,
          mkDb (t_election d ++ [mkElectionRow (id_seq id) id (cfg_title cfg) (bb_state_str BB_STATE_DRAFT)
                                   (cfg_open_time cfg) (cfg_close_time cfg)])
            (t_option d ++ config_option_rows id cfg) (t_eligible d ++ config_eligible_rows id cfg)
            (t_ballot d) (t_owner d) (t_nonce d))
      else BB_ERR BB_ERR_DB
  | BB_DB_UPDATE_STATE id st =>
      match first_row (reply_rows (sql_old_state id) show_old_state (elections_of d id)) with
      | None => BB_ERR BB_ERR_DB
      | Some r =>
          BB_OK (zero_result,
            mkDb (filter (fun r => er_id r <> id) (t_election d) ++
                  [mkElectionRow (er_seq r) id (trunc BB_TITLE_LEN (er_title r)) (bb_state_str st)
                     (trunc BB_TIME_LEN (er_open r)) (trunc BB_TIME_LEN (er_close r))])
              (t_option d) (t_eligible d) (t_ballot d) (t_owner d) (t_nonce d))
      end
  | BB_DB_APPEND_BALLOT id row =>
      BB_OK (zero_result, mkDb (t_election d) (t_option d) (t_eligible d)
        (t_ballot d ++ [mkBallotRow id row]) (t_owner d) (t_nonce d))
  | BB_DB_MARK_SUPERSEDED id h =>
      match first_row (reply_rows (sql_old_ballot id h) show_old_ballot
                         (filter (fun r => h_hash r = h) (ballots_of d id))) with
      | None => BB_ERR BB_ERR_DB
      | Some r =>
          BB_OK (zero_result, mkDb (t_election d) (t_option d) (t_eligible d)
            (filter (fun r => ~ (ba_election r = id /\ h_hash (ba_hash r) = h)) (t_ballot d) ++
             [mkBallotRow id (mkRow h (h_option_index r) (h_version r) 1)]) (t_owner d) (t_nonce d))
      end
  | BB_DB_NONCE_MARK id n =>
      BB_OK (zero_result, mkDb (t_election d) (t_option d) (t_eligible d) (t_ballot d) (t_owner d)
        (t_nonce d ++ [mkNonceRow id n]))
  | BB_DB_SET_OWNER id cert h v =>
      BB_OK (zero_result, mkDb (t_election d) (t_option d) (t_eligible d) (t_ballot d)
        (filter (fun r => ~ (ow_election r = id /\ ow_cert r = cert)) (t_owner d) ++ [mkOwnerRow id cert h v])
        (t_nonce d))
  | BB_DB_GET_ELECTION id =>
      match reply_rows (sql_election id) show_election (elections_of d id) with
      | None => BB_ERR BB_ERR_DB
      | Some [] => BB_OK (zero_result, d)
      | Some (r :: _) =>
          match parse_state (trunc 16 (er_state r)) with
          | None => BB_ERR BB_ERR_DB
          | Some st => BB_OK (with_election (make_election d id r st), d)
          end
      end
  | BB_DB_GET_TALLY id =>
      BB_OK (with_tally (tally_rows (rows_or_none (reply_rows (sql_tally id) show_tally (live (ballots_of d id))))), d)
  | BB_DB_GET_HASHES id =>
      BB_OK (with_hashes (clip_row <$> take 64
               (rows_or_none (reply_rows (sql_hashes id) show_hash (live (ballots_of d id))))), d)
  | BB_DB_FIND_HASH id h =>
      match first_row (reply_rows (sql_find_hash id h) show_hash
                         (filter (fun r => h_hash r = h) (live (ballots_of d id)))) with
      | None => BB_OK (zero_result, d)
      | Some r => BB_OK (with_row (clip_row r), d)
      end
  | BB_DB_NONCE_SEEN id n => BB_OK (with_found (nonce_seen d id n), d)
  | BB_DB_GET_PRIOR_BALLOT id cert =>
      match owner_of d id cert with
      | None => BB_OK (zero_result, d)
      | Some r => BB_OK (with_row (mkRow (trunc BB_HASH_LEN (ow_hash r)) 0 (ow_version r) 0), d)
      end
  end.
End meaning.

(** ** The seam *)

(** A call over a world [W]: its result, and the world after it. *)
Definition M (W A : Type) : Type := W -> bb_result A * W.

#[global] Instance M_ret W : MRet (M W) := fun A a w => (BB_OK a, w).
#[global] Instance M_bind W : MBind (M W) := fun A B f m w =>
  match m w with
  | (BB_OK a, w') => f a w'
  | (BB_ERR e, w') => (BB_ERR e, w')
  end.
Definition fail {W A} (e : bb_err) : M W A := fun w => (BB_ERR e, w).
Definition lift {W A} (r : bb_result A) : M W A := fun w => (r, w).

Class DbExec (W : Type) := db_exec : bb_db_cmd -> M W bb_db_result.

Class DbTxn (W : Type) := {
  bb_db_begin : M W unit;
  bb_db_commit : M W unit;
  bb_db_rollback : W -> W
}.

Class IdAlloc (W : Type) := bb_alloc_id : W -> list Z * W.

(** The store itself, without connections and faults, is one instance of the
    commands: the specification the handlers are compared with. *)
#[global] Instance pure_exec `{!Runner} : DbExec bdb := fun c d =>
  match cmd_run c d with
  | BB_OK (a, d') => (BB_OK a, d')
  | BB_ERR e => (BB_ERR e, d)
  end.

Definition store_fault (e : bb_err) : Prop := e = BB_ERR_DB \/ e = BB_ERR_RETRY.

(** What an implementation of the seam guarantees.  [committed] is what a new
    connection sees; [txn_open] says that a transaction is open on the context and
    [txn] what it sees, when it is still alive; a [reliable] world has no fault
    ahead. *)
Class StoreLaws (W : Type) `{!Runner, !DbExec W, !DbTxn W, !IdAlloc W} := {
  committed : W -> bdb;
  txn_open : W -> bool;
  txn : W -> option bdb;
  reliable : W -> bool;
  begin_law w : txn_open w = false ->
    match bb_db_begin w with
    | (BB_OK _, w') => txn_open w' = true /\ txn w' = Some (committed w) /\ committed w' = committed w
    | (BB_ERR e, w') => store_fault e /\ reliable w = false /\ txn_open w' = false /\ committed w' = committed w
    end /\ (reliable w = true -> reliable (bb_db_begin w).2 = true);
  txn_exec_law w c d : txn_open w = true -> txn w = Some d ->
    match db_exec c w with
    | (BB_OK a, w') => exists d', cmd_run c d = BB_OK (a, d') /\ txn w' = Some d' /\
                         txn_open w' = true /\ committed w' = committed w
    | (BB_ERR e, w') => store_fault e /\ (reliable w = true -> cmd_run c d = BB_ERR e) /\
                         txn_open w' = true /\ committed w' = committed w
    end /\ (reliable w = true -> reliable (db_exec c w).2 = true);
  exec_law w c : txn_open w = false ->
    match db_exec c w with
    | (BB_OK a, w') => cmd_run c (committed w) = BB_OK (a, committed w') /\ txn_open w' = false
    | (BB_ERR e, w') => e = BB_ERR_DB /\ (reliable w = true -> cmd_run c (committed w) = BB_ERR e) /\
        txn_open w' = false /\
        (committed w' = committed w \/ exists a, cmd_run c (committed w) = BB_OK (a, committed w'))
    end /\ (reliable w = true -> reliable (db_exec c w).2 = true);
  commit_law w d : txn_open w = true -> txn w = Some d ->
    match bb_db_commit w with
    | (BB_OK _, w') => txn_open w' = false /\ committed w' = d
    | (BB_ERR e, w') => store_fault e /\ reliable w = false /\ txn_open w' = false /\
        (committed w' = committed w \/ e = BB_ERR_DB /\ committed w' = d)
    end /\ (reliable w = true -> reliable (bb_db_commit w).2 = true);
  rollback_law w : txn_open w = true ->
    txn_open (bb_db_rollback w) = false /\ committed (bb_db_rollback w) = committed w /\
    (reliable w = true -> reliable (bb_db_rollback w) = true);
  alloc_law w : txn_open w = false ->
    txn_open (bb_alloc_id w).2 = false /\ committed (bb_alloc_id w).2 = committed w /\
    (reliable w = true -> reliable (bb_alloc_id w).2 = true)
}.

(** ** When the rows of a reply can be read

    A reply whose rows all print something gives either all of its rows or, cut short
    by the buffer, none; sixty-four rows of a hundred and seventy characters always
    fit. *)

Lemma count_lines_full lines n :
  Forall (fun l => l <> []) lines -> count_lines lines n = n + Z.of_nat (length lines).
Proof.
  intros H. revert n. induction H as [|[|c l] lines Hl _ IH]; intros n; [simpl; lia|done|].
  cbn [count_lines length]. rewrite IH. lia.
Qed.

(** An empty line stops the count: only what reads like the right trailer may follow. *)
Lemma count_lines_blank lines rest n :
  Forall (fun l => l <> []) lines ->
  count_lines (lines ++ [] :: rest) n = trailer_count (default [] (head rest)) (n + Z.of_nat (length lines)).
Proof.
  intros H. revert n. induction H as [|[|c l] lines Hl _ IH]; intros n; [cbn; f_equal; lia|done|].
  cbn [count_lines app length]. rewrite IH. f_equal. lia.
Qed.

Lemma length_print_string s : (length (print_string s) <= 128)%nat.
Proof. unfold print_string. rewrite length_take. lia. Qed.

Lemma length_decimal_loop fuel : forall n acc, (length (decimal_loop fuel n acc) <= fuel + length acc)%nat.
Proof.
  induction fuel as [|fuel IH]; intros n acc; cbn [decimal_loop]; [lia|]. case_match; cbn [length]; [lia|].
  etransitivity; [apply IH|]. cbn [length]. lia.
Qed.

Lemma length_decimal n : (length (decimal n) <= 10)%nat.
Proof. unfold decimal. etransitivity; [apply length_decimal_loop|]. done. Qed.

Lemma length_print_int v : (1 <= length (print_int v) <= 11)%nat.
Proof.
  unfold print_int. split.
  - assert (H : INT_MIN <= to_int v <= INT_MAX).
    { unfold INT_MIN, INT_MAX, to_int. pose proof (Z.mod_pos_bound (v + 2147483648) 4294967296). lia. }
    pose proof (decimal_int_nonempty _ H). destruct (decimal_int _); [done|cbn; lia].
  - unfold decimal_int. case_match; cbn [length]; pose proof (length_decimal (to_int v));
      pose proof (length_decimal (- to_int v)); lia.
Qed.

(** Every row prints as a line of at least one and at most [k] characters. *)
Definition shown_in (k : nat) {R} (show : R -> list (list Z)) (r : R) : Prop :=
  (1 <= length (join_on TAB (show r)) <= k)%nat.

(** The lengths of the columns of a row. *)
Ltac column_bounds :=
  cbn [join_on]; rewrite ?length_app; cbn [length]; rewrite ?length_app;
  repeat match goal with
  | |- context [length (print_string ?s)] =>
      pose proof (length_print_string s); generalize dependent (length (print_string s)); intros
  | |- context [length (print_int ?v)] =>
      pose proof (length_print_int v); generalize dependent (length (print_int v)); intros
  end.

Lemma election_shown r : shown_in 700 show_election r.
Proof.
  unfold shown_in, show_election. cbn [join_on]. repeat (rewrite length_app; cbn [length]).
  column_bounds. lia.
Qed.

Lemma old_state_shown r : shown_in 700 show_old_state r.
Proof. unfold shown_in, show_old_state. cbn [join_on]. repeat (rewrite length_app; cbn [length]). column_bounds. lia. Qed.

Lemma option_shown r : shown_in 170 show_option r.
Proof. unfold shown_in, show_option. cbn [join_on]. repeat (rewrite length_app; cbn [length]). column_bounds. lia. Qed.

Lemma old_ballot_shown r : shown_in 170 show_old_ballot r.
Proof. unfold shown_in, show_old_ballot. cbn [join_on]. repeat (rewrite length_app; cbn [length]). column_bounds. lia. Qed.

Lemma tally_shown r : shown_in 170 show_tally r.
Proof. unfold shown_in, show_tally. cbn [join_on]. column_bounds. lia. Qed.

Lemma hash_shown r : shown_in 170 show_hash r.
Proof. unfold shown_in, show_hash. cbn [join_on]. repeat (rewrite length_app; cbn [length]). column_bounds. lia. Qed.

Lemma owner_shown r : shown_in 170 show_owner r.
Proof. unfold shown_in, show_owner. cbn [join_on]. repeat (rewrite length_app; cbn [length]). column_bounds. lia. Qed.

(** A single string prints something unless it is empty. *)
Lemma string_shown {R} (f : R -> list Z) r : f r <> [] -> shown_in 170 (fun r => [print_string (f r)]) r.
Proof.
  intros H. unfold shown_in. cbn [join_on]. split; [|pose proof (length_print_string (f r)); lia].
  destruct (f r); [done|]. unfold print_string. cbn. lia.
Qed.

#[export] Hint Resolve election_shown old_state_shown option_shown old_ballot_shown tally_shown hash_shown owner_shown : core.

Section rows.
Context {RN : Runner} {R : Type} (sql : list Z) (show : R -> list (list Z)).

Lemma shown_lines k found :
  Forall (shown_in k show) found -> Forall (fun l => l <> []) (join_on TAB ∘ show <$> found).
Proof using Type.
  intros H. apply Forall_fmap. eapply list.Forall_impl; [exact H|]. intros r [Hr _] E. cbn in E. rewrite E in Hr. cbn in Hr. lia.
Qed.

(** All of the rows, if any can be read. *)
Lemma reply_rows_some k found l : Forall (shown_in k show) found -> reply_rows sql show found = Some l -> l = found.
Proof using Type.
  intros H. unfold reply_rows, reply_count. destruct (_ <? _)%nat; [|done].
  rewrite count_lines_full by (by apply (shown_lines k)). rewrite length_fmap, (proj2 (Z.ltb_ge _ _)) by lia.
  intros [= <-]. apply take_ge. lia.
Qed.

Lemma printed_length k found :
  Forall (shown_in k show) found ->
  (foldr (fun l n => S (length l) + n)%nat O (join_on TAB ∘ show <$> found) <= length found * S k)%nat.
Proof using Type.
  intros Hf. induction Hf as [|r found [_ Hr] _ IH]; [done|]. rewrite fmap_cons. cbn [foldr length].
  change ((join_on TAB ∘ show) r) with (join_on TAB (show r)). lia.
Qed.

Lemma reply_rows_fit k found :
  Forall (shown_in k show) found -> (length found * S k <= 64 * 171)%nat -> reply_rows sql show found = Some found.
Proof using Type.
  intros H Hk. unfold reply_rows, reply_count, reply_length.
  pose proof (printed_length k found H). pose proof (preface_small sql).
  pose proof (length_decimal (Z.of_nat (length (join_on TAB ∘ show <$> found)))).
  rewrite (proj2 (Nat.ltb_lt _ _)).
  - rewrite count_lines_full by (by apply (shown_lines k)). rewrite length_fmap, (proj2 (Z.ltb_ge _ _)) by lia.
    f_equal. apply take_ge. lia.
  - change BODY_MAX with (64 * 256)%nat. lia.
Qed.

(** The first row of a reply is the first row found, and is there when it fits. *)
Lemma first_row_some k found r :
  Forall (shown_in k show) found -> first_row (reply_rows sql show found) = Some r -> head found = Some r.
Proof using Type.
  intros H. unfold first_row. destruct (reply_rows sql show found) as [l|] eqn:E; [|done].
  apply (reply_rows_some k) in E as ->; done.
Qed.

Lemma first_row_fit k found :
  Forall (shown_in k show) found -> (length found * S k <= 64 * 171)%nat ->
  first_row (reply_rows sql show found) = head found.
Proof using Type. intros H Hk. by rewrite (reply_rows_fit k). Qed.

(** The rows of an empty select. *)
Lemma reply_rows_nil : reply_rows sql show [] = Some [].
Proof using Type. apply (reply_rows_fit 0); [constructor|cbn; lia]. Qed.

Lemma reply_rows_sub found l : reply_rows sql show found = Some l -> exists n, l = take n found.
Proof using Type. unfold reply_rows. case_match; [done|]. intros [= <-]. eauto. Qed.

Lemma first_row_elem found r : first_row (reply_rows sql show found) = Some r -> r ∈ found.
Proof using Type.
  unfold first_row. destruct (reply_rows sql show found) as [l|] eqn:E; [|done].
  apply reply_rows_sub in E as [n ->]. intros Hr%head_Some_elem_of%elem_of_take. destruct Hr as (i & Hi & _).
  by eapply list_elem_of_lookup_2.
Qed.
End rows.

(** Rows read under another view of the same columns. *)
Lemma reply_rows_fmap {RN : Runner} {R S : Type} sql (show : S -> list (list Z)) (f : R -> S) (found : list R) :
  reply_rows sql show (f <$> found) = fmap (M := list) f <$> reply_rows sql (show ∘ f) found.
Proof.
  unfold reply_rows. rewrite <- list_fmap_compose.
  change ((join_on TAB ∘ show) ∘ f <$> found) with (join_on TAB ∘ (show ∘ f) <$> found).
  destruct (_ <? 0); [reflexivity|]. cbn [fmap option_fmap option_map]. by rewrite fmap_take.
Qed.

Lemma first_row_fmap {RN : Runner} {R S : Type} sql (show : S -> list (list Z)) (f : R -> S) (found : list R) :
  first_row (reply_rows sql show (f <$> found)) = f <$> first_row (reply_rows sql (show ∘ f) found).
Proof.
  rewrite reply_rows_fmap. unfold first_row. by destruct (reply_rows sql (show ∘ f) found) as [[|]|].
Qed.

(** ** The count is rows.c's *)

Lemma length_above_foldr lines : length (above lines []) = foldr (fun l n => S (length l) + n)%nat O lines.
Proof. induction lines as [|l lines IH]; [done|]. rewrite above_cons, length_app. cbn [length foldr]. lia. Qed.

Lemma reply_length_text {RN : Runner} sql pre dashes rows :
  preface sql = length (above (pre ++ [replicate dashes DASH]) []) ->
  reply_length sql (row_line <$> rows) = reply_needs pre dashes rows.
Proof.
  intros Hp. assert (E : reply pre dashes rows [] = above (pre ++ [replicate dashes DASH])
    (above (row_line <$> rows) (NL :: trailer (Z.of_nat (length rows))))).
  { unfold reply. by rewrite app_nil_r, !above_app. }
  unfold reply_needs, reply_length. rewrite E, length_above, (length_above (row_line <$> rows)), Hp, length_fmap.
  rewrite <- length_above_foldr. unfold trailer. cbn [length]. rewrite length_app. cbn. lia.
Qed.

(** On a reply as SimpleDB prints it, rows that print as empty lines aside, the
    count is what [db_row_count] finds in the buffer. *)
Lemma reply_count_text {RN : Runner} sql pre dashes rows post :
  reply_ok pre dashes rows -> preface sql = length (above (pre ++ [replicate dashes DASH]) []) ->
  reply_count sql (row_line <$> rows) = db_row_count (take (BODY_MAX - 1) (reply pre dashes rows post)).
Proof.
  intros Hok Hp. pose proof (reply_read_back pre dashes rows post (BODY_MAX - 1) Hok) as Hr. cbv zeta in Hr.
  unfold reply_count. rewrite (reply_length_text _ _ _ _ Hp).
  replace (reply_needs pre dashes rows <? BODY_MAX)%nat with (reply_needs pre dashes rows <=? BODY_MAX - 1)%nat.
  2:{ apply eq_true_iff_eq. rewrite Nat.ltb_lt, Nat.leb_le. change BODY_MAX with (64 * 256)%nat. lia. }
  destruct (_ <=? _)%nat; [|by destruct Hr as [-> _]]. destruct Hr as [-> _].
  rewrite count_lines_full by (apply Forall_fmap, (ro_rows _ _ _ Hok)). by rewrite length_fmap.
Qed.
