(* ===== verification/Ballot.v ===== *)
(** * Ballot: BallotBox's request handlers

    Models ballotbox/src/libballotbrain/handlers.c and the handler of lifecycle.c
    over the store's seam.  A pointer argument the code tests against [NULL] is an
    option; the context and the out-parameters of the daemon's calls are never
    [NULL].  What a failed call leaves in its out-parameters, and the log lines,
    are not modelled; the write lock is the sequential order of the calls. *)

From Stdlib Require Import String.
From stdpp Require Import options.
From S2P Require Import Prelude Text BallotTypes BallotDb.
#[local] Open Scope Z_scope.

Section handlers.
Context {W : Type} `{!DbExec W, !DbTxn W, !IdAlloc W}.

Definition load_election (election_id : list Z) : M W bb_election :=
  res ← db_exec (BB_DB_GET_ELECTION (trunc BB_ID_LEN election_id));
  if negb (r_found res) then fail BB_ERR_NOT_FOUND else mret (r_election res).

(** ** lifecycle.c *)

Definition bb_transition_state (election_id : option (list Z)) (to : bb_state) : M W unit :=
  match election_id with
  | None => fail BB_ERR_NOT_FOUND
  | Some election_id =>
      res ← db_exec (BB_DB_GET_ELECTION (trunc BB_ID_LEN election_id));
      if negb (r_found res) then fail BB_ERR_NOT_FOUND
      else
        let from := e_state (r_election res) in
        if negb (bb_is_legal_transition from to) then fail BB_ERR_ILLEGAL_TRANSITION
        else _ ← db_exec (BB_DB_UPDATE_STATE (trunc BB_ID_LEN election_id) to); mret tt
  end.

(** ** UC-1 *)

(** The id of a new election; [NULL] and the empty string ask for the next one. *)
Definition choose_id (desired_id : option (list Z)) : M W (list Z) :=
  match desired_id with
  | Some ((_ :: _) as id) => fun w =>
      match load_election id w with
      | (BB_OK _, w') => (BB_ERR BB_ERR_CONFIG_ID_TAKEN, w')
      | (BB_ERR er, w') =>
          if bool_decide (er <> BB_ERR_NOT_FOUND) then (BB_ERR er, w')
          else (BB_OK (trunc BB_ID_LEN id), w')
      end
  | _ => fun w => let '(id, w') := bb_alloc_id w in (BB_OK id, w')
  end.

Definition bb_create_election (config : option bb_config) (desired_id : option (list Z))
    : M W (list Z) :=
  _ ← lift (bb_validate_config config);
  id ← choose_id desired_id;
  match config with
  | None => fail BB_ERR_CONFIG_TITLE
  | Some config =>
      _ ← db_exec (BB_DB_INSERT_ELECTION (trunc BB_ID_LEN id) config);
      mret (trunc BB_ID_LEN id)
  end.

(** ** UC-2 *)

(** [want_prior]: one of the two out-parameters for the prior ballot is there. *)
Definition bb_join (election_id cert_name : option (list Z)) (want_prior : bool)
    : M W (bb_election * option (bool * Z)) :=
  match election_id, cert_name with
  | Some election_id, Some cert_name =>
      election ← load_election election_id;
      let cert := bb_verify_cert cert_name in
      if bool_decide (cert = BB_CERT_INVALID) then fail BB_ERR_CERT_INVALID
      else if bool_decide (cert = BB_CERT_EXPIRED) then fail BB_ERR_CERT_EXPIRED
      else if bool_decide (cert <> BB_CERT_VALID) then fail BB_ERR_NOT_ELIGIBLE
      else if negb (bb_check_eligibility election cert_name) then fail BB_ERR_NOT_ELIGIBLE
      else if bool_decide (e_state election <> BB_STATE_OPEN) then fail BB_ERR_NOT_OPEN
      else if want_prior then
        prior ← db_exec (BB_DB_GET_PRIOR_BALLOT (trunc BB_ID_LEN election_id) (trunc BB_CERT_LEN cert_name));
        mret (election, Some (r_found prior, if r_found prior then h_version (r_row prior) else 0))
      else mret (election, None)
  | _, _ => fail BB_ERR_NOT_FOUND
  end.

(** ** UC-3 and UC-4 *)

Definition record_ballot_locked (election_id : list Z) (ballot : bb_ballot) : M W bb_receipt :=
  election ← load_election election_id;
  if bool_decide (e_state election = BB_STATE_CLOSED) || bool_decide (e_state election = BB_STATE_PUBLISHED)
  then fail BB_ERR_CLOSED
  else if bool_decide (e_state election <> BB_STATE_OPEN) then fail BB_ERR_NOT_OPEN
  else if negb (bb_check_eligibility election (b_cert_name ballot)) then fail BB_ERR_NOT_ELIGIBLE
  else
    option_index ← lift (bb_decrypt_ballot ballot);
    if (option_index <? 0) || (e_option_count election <=? option_index) then fail BB_ERR_BAD_OPTION
    else
      seen ← db_exec (BB_DB_NONCE_SEEN (trunc BB_ID_LEN election_id) (trunc BB_NONCE_LEN (b_nonce ballot)));
      if r_found seen then fail BB_ERR_REPLAY
      else
        prior ← db_exec (BB_DB_GET_PRIOR_BALLOT (trunc BB_ID_LEN election_id)
                           (trunc BB_CERT_LEN (b_cert_name ballot)));
        let version := if r_found prior then h_version (r_row prior) + 1 else 1 in
        out ← lift (bb_issue_receipt ballot version);
        let row := mkRow (trunc BB_HASH_LEN (rc_hash out)) option_index version 0 in
        _ ← db_exec (BB_DB_APPEND_BALLOT (trunc BB_ID_LEN election_id) row);
        _ ← (if r_found prior then
               db_exec (BB_DB_MARK_SUPERSEDED (trunc BB_ID_LEN election_id)
                          (trunc BB_HASH_LEN (h_hash (r_row prior))))
             else mret zero_result);
        _ ← db_exec (BB_DB_SET_OWNER (trunc BB_ID_LEN election_id) (trunc BB_CERT_LEN (b_cert_name ballot))
                       (trunc BB_HASH_LEN (rc_hash out)) version);
        _ ← db_exec (BB_DB_NONCE_MARK (trunc BB_ID_LEN election_id) (trunc BB_NONCE_LEN (b_nonce ballot)));
        mret out.

Definition BB_TXN_ATTEMPTS : nat := 3.

(** The attempt loop: [r] is the result so far. *)
Fixpoint record_attempts (attempts : nat) (election_id : list Z) (ballot : bb_ballot)
    (r : bb_result bb_receipt) (w : W) : bb_result bb_receipt * W :=
  match attempts with
  | O => (r, w)
  | S attempts =>
      match bb_db_begin w with
      | (BB_ERR br, w) => (BB_ERR br, w)
      | (BB_OK _, w) =>
          match record_ballot_locked election_id ballot w with
          | (BB_ERR BB_ERR_RETRY, w) =>
              record_attempts attempts election_id ballot (BB_ERR BB_ERR_RETRY) (bb_db_rollback w)
          | (BB_ERR e, w) => (BB_ERR e, bb_db_rollback w)
          | (BB_OK out, w) =>
              match bb_db_commit w with
              | (BB_ERR BB_ERR_RETRY, w) =>
                  record_attempts attempts election_id ballot (BB_ERR BB_ERR_RETRY) w
              | (BB_ERR e, w) => (BB_ERR e, w)
              | (BB_OK _, w) => (BB_OK out, w)
              end
          end
      end
  end.

Definition bb_record_ballot (election_id : option (list Z)) (ballot : option bb_ballot) : M W bb_receipt :=
  match election_id, ballot with
  | Some election_id, Some ballot =>
      record_attempts BB_TXN_ATTEMPTS election_id ballot (BB_ERR BB_ERR_DB)
  | _, _ => fail BB_ERR_DB
  end.

(** ** UC-5 *)

Definition bb_publish_results (election_id : option (list Z)) : M W unit :=
  match election_id with
  | None => fail BB_ERR_DB
  | Some _ => bb_transition_state election_id BB_STATE_PUBLISHED
  end.

Definition fetch_results (election_id : list Z) (election : bb_election) : M W bb_results :=
  tally_res ← db_exec (BB_DB_GET_TALLY (trunc BB_ID_LEN election_id));
  hash_res ← db_exec (BB_DB_GET_HASHES (trunc BB_ID_LEN election_id));
  let shown := range (Z.min (e_option_count election) BB_MAX_OPTIONS) in
  mret (mkResults (trunc BB_TITLE_LEN (e_title election))
          (foldl (fun t i => aset t i (aget 0 (r_tally tally_res) i)) (replicate 16 0) shown)
          (e_option_count election)
          (foldl (fun o i => aset o i (trunc BB_OPTION_LEN (aget [] (e_options election) i)))
             (replicate 16 []) shown)
          (take 64 (r_hashes hash_res))).

Definition bb_get_results (election_id cert_name : option (list Z)) : M W bb_results :=
  match election_id, cert_name with
  | Some election_id, Some cert_name =>
      election ← load_election election_id;
      if bool_decide (e_state election <> BB_STATE_PUBLISHED) then fail BB_ERR_NOT_PUBLISHED
      else if negb (bb_check_eligibility election cert_name) then fail BB_ERR_NOT_ELIGIBLE
      else fetch_results election_id election
  | _, _ => fail BB_ERR_DB
  end.

Definition bb_get_results_admin (election_id : option (list Z)) : M W bb_results :=
  match election_id with
  | Some election_id =>
      election ← load_election election_id;
      if bool_decide (e_state election <> BB_STATE_PUBLISHED) then fail BB_ERR_NOT_PUBLISHED
      else fetch_results election_id election
  | None => fail BB_ERR_DB
  end.

(** ** UC-6 *)

Definition bb_lookup_hash (election_id hash : option (list Z)) : M W (bb_ballot_hash * list Z) :=
  match election_id, hash with
  | Some election_id, Some hash =>
      election ← load_election election_id;
      res ← db_exec (BB_DB_FIND_HASH (trunc BB_ID_LEN election_id) (trunc BB_HASH_LEN hash));
      if negb (r_found res) then fail BB_ERR_NOT_FOUND
      else
        let idx := h_option_index (r_row res) in
        let option_name :=
          if (0 <=? idx) && (idx <? e_option_count election)
          then trunc BB_OPTION_LEN (aget [] (e_options election) idx) else [] in
        mret (r_row res, option_name)
  | _, _ => fail BB_ERR_DB
  end.
End handlers.
