(* ===== verification/BallotSim.v ===== *)
(** * BallotSim: handlers against the seam's laws

    A handler run over a lawful store is compared with the same handler run on the
    store's content alone ([pure_exec]).  Inside a transaction the two agree call by
    call until a fault; [bb_record_ballot], which retries, commits and rolls back,
    therefore either does what the pure handler does or nothing. *)

From stdpp Require Import options.
From S2P Require Import Prelude Text BallotTypes BallotDb Ballot.
#[local] Open Scope Z_scope.

(** A call on the store alone never gives the retry code. *)
Definition never_retries {A} (m : M bdb A) : Prop := forall d, (m d).1 <> BB_ERR BB_ERR_RETRY.

Lemma never_bind {A B} (m : M bdb A) (f : A -> M bdb B) :
  never_retries m -> (forall a, never_retries (f a)) -> never_retries (m ≫= f).
Proof.
  intros Hm Hf d. unfold mbind, M_bind. specialize (Hm d). destruct (m d) as [[a|e] d']; [apply Hf|]. by intros [= ->].
Qed.

Lemma never_if {A} (b : bool) (m1 m2 : M bdb A) :
  never_retries m1 -> never_retries m2 -> never_retries (if b then m1 else m2).
Proof. by destruct b. Qed.

Lemma cmd_run_error `{!Runner} c d e : cmd_run c d = BB_ERR e -> e = BB_ERR_DB.
Proof. destruct c; simpl; repeat case_match; naive_solver. Qed.

Lemma never_exec `{!Runner} c : never_retries (db_exec c).
Proof.
  intros d. unfold db_exec, pure_exec. destruct (cmd_run c d) as [[]|e] eqn:E; [done|].
  apply cmd_run_error in E as ->. done.
Qed.

Section sim.
Context {W : Type} `{StoreLaws W}.

(** [m] inside a transaction follows [p] on what the transaction sees. *)
Definition sim {A} (m : M W A) (p : M bdb A) : Prop :=
  forall w d, txn_open w = true -> txn w = Some d ->
  match m w with
  | (BB_OK a, w') => exists d', p d = (BB_OK a, d') /\ txn w' = Some d' /\
                       txn_open w' = true /\ committed w' = committed w
  | (BB_ERR e, w') => ((p d).1 = BB_ERR e \/ store_fault e /\ reliable w = false) /\
                       txn_open w' = true /\ committed w' = committed w
  end /\ (reliable w = true -> reliable (m w).2 = true).

Lemma sim_ret {A} (a : A) : sim (mret a) (mret a).
Proof. intros w d Ho Hd. split; [|done]. exists d. done. Qed.

Lemma sim_lift {A} (r : bb_result A) : sim (lift r) (lift r).
Proof. intros w d Ho Hd. split; [|done]. destruct r; simpl; eauto. Qed.

Lemma sim_fail {A} e : sim (fail e : M W A) (fail e).
Proof. intros w d Ho Hd. split; [|done]. simpl. eauto. Qed.

Lemma sim_bind {A B} (m : M W A) p (f : A -> M W B) g :
  sim m p -> (forall a, sim (f a) (g a)) -> sim (m ≫= f) (p ≫= g).
Proof.
  intros Hm Hf w d Ho Hd. unfold mbind, M_bind. destruct (Hm w d Ho Hd) as [Hr Hrel].
  destruct (m w) as [[a|e] w'].
  - destruct Hr as (d' & -> & Hd' & Ho' & Hc). destruct (Hf a w' d' Ho' Hd') as [Hr' Hrel'].
    split; [|auto]. simpl in Hrel. destruct (f a w') as [[b|e] w''].
    + destruct Hr' as (d'' & -> & Hd'' & Ho'' & ->). eauto 10.
    + destruct Hr' as ([He|[He Hn]] & ? & ->); split_and!; try done; [by left|]. right. split; [done|].
      apply not_true_is_false. intros Hw. rewrite Hrel in Hn; done.
  - split; [|auto]. destruct Hr as ([He|[He Hn]] & ? & ?); split_and!; try done; [|by right].
    left. destruct (p d) as [[a|e'] d']; simplify_eq/=. done.
Qed.

Lemma sim_exec c : sim (db_exec c) (db_exec c).
Proof.
  intros w d Ho Hd. destruct (txn_exec_law w c d Ho Hd) as [Hl Hrel]. split; [|done].
  unfold db_exec at 2, pure_exec. unfold db_exec at 2. destruct (db_exec c w) as [[a|e] w'].
  - destruct Hl as (d' & Hr & ?). rewrite Hr. eauto.
  - destruct Hl as (He & Hr & ? & ?). split_and!; [|done|done].
    destruct (reliable w) eqn:Hw; [|by right]. rewrite Hr by done. by left.
Qed.

Lemma sim_if {A} (b : bool) (m1 m2 : M W A) p1 p2 :
  sim m1 p1 -> sim m2 p2 -> sim (if b then m1 else m2) (if b then p1 else p2).
Proof. by destruct b. Qed.

Lemma sim_load id : sim (load_election id) (load_election id).
Proof.
  apply sim_bind; [apply sim_exec|]. intros a. apply sim_if; [apply sim_fail|apply sim_ret].
Qed.

Lemma sim_record id b : sim (record_ballot_locked id b) (record_ballot_locked id b).
Proof.
  unfold record_ballot_locked.
  repeat first [apply sim_bind; [|intros ?] | apply sim_if | apply sim_fail | apply sim_ret |
                apply sim_lift | apply sim_load | apply sim_exec].
Qed.

(** ** The transaction loop *)

(** The handler as the store alone would run it. *)
Definition record_spec (id : list Z) (b : bb_ballot) : M bdb bb_receipt := record_ballot_locked id b.

(** How a call that started on [d] ended: as specified and committed, refused and
    nothing changed, or a fault that left either the old store or, when only the
    reply to the commit was lost, the new one. *)
Definition atomic_outcome {A} (p : M bdb A) (d : bdb) (rel : bool) (r : bb_result A) (d' : bdb) : Prop :=
  match r with
  | BB_OK a => p d = (BB_OK a, d')
  | BB_ERR e =>
      d' = d /\ (p d).1 = BB_ERR e \/
      d' = d /\ store_fault e /\ rel = false \/
      e = BB_ERR_DB /\ rel = false /\ exists a, p d = (BB_OK a, d')
  end.

(** The handler's own refusals are never the retry code. *)
Lemma record_spec_no_retry id b d : (record_spec id b d).1 <> BB_ERR BB_ERR_RETRY.
Proof.
  unfold record_spec. cut (never_retries (record_ballot_locked (W := bdb) id b)); [done|].
  unfold record_ballot_locked, load_election.
  repeat first [apply never_bind; [|intros ?] | apply never_if | apply never_exec | done].
Qed.

Lemma attempts_outcome n id b r rel w :
  txn_open w = false -> (rel = true -> reliable w = true /\ n <> O) ->
  (exists e, r = BB_ERR e /\ store_fault e) ->
  let '(r', w') := record_attempts n id b r w in
  txn_open w' = false /\ (rel = true -> reliable w' = true) /\
  atomic_outcome (record_spec id b) (committed w) rel r' (committed w').
Proof.
  revert r rel w. induction n as [|n IH]; intros r rel w Ho Hrel (e & -> & He).
  { cbn. destruct rel; [naive_solver|]. split_and!; [done..|]. right. left. done. }
  cbn [record_attempts]. destruct (begin_law w Ho) as [Hb Hrb].
  destruct (bb_db_begin w) as [[[]|eb] w1]; simpl in Hrb.
  2:{ destruct Hb as (Hf & Hn & Ho1 & Hc). rewrite Hc. destruct rel; [naive_solver congruence|].
      split_and!; [done..|]. right. left. done. }
  destruct Hb as (Ho1 & Ht1 & Hc1).
  destruct (sim_record id b w1 _ Ho1 Ht1) as [Hs Hrs].
  assert (Hrel1 : rel = true -> reliable w1 = true) by (intros Hr; apply Hrb, Hrel, Hr).
  destruct (record_ballot_locked id b w1) as [[rc|e1] w2]; simpl in Hrs.
  - destruct Hs as (d & Hspec & Ht2 & Ho2 & Hc2). destruct (commit_law w2 d Ho2 Ht2) as [Hk Hrk].
    destruct (bb_db_commit w2) as [[[]|ek] w3].
    + destruct Hk as [Ho3 <-]. split_and!; [done|auto|done].
    + destruct Hk as (Hf & Hn & Ho3 & Hc3).
      assert (rel = false) as -> by (apply not_true_is_false; intros Hr; rewrite Hrs in Hn by auto; discriminate).
      assert (Hdone : ek <> BB_ERR_RETRY -> txn_open w3 = false /\ (false = true -> reliable w3 = true) /\
        atomic_outcome (record_spec id b) (committed w) false (BB_ERR ek) (committed w3)).
      { intros _. split_and!; [done..|]. destruct Hc3 as [Hc3|[-> ->]].
        - right. left. split; [congruence|]. done.
        - right. right. eauto. }
      destruct ek; try (apply Hdone; discriminate). destruct Hc3 as [Hc3|[Hbad _]]; [|discriminate].
      specialize (IH (BB_ERR BB_ERR_RETRY) false w3 Ho3). rewrite Hc3, Hc2, Hc1 in IH. apply IH; [done|].
      eexists. split; [done|by right].
  - destruct Hs as (Hcase & Ho2 & Hc2). destruct (rollback_law w2 Ho2) as (Ho3 & Hc3 & Hrr).
    assert (Hkeep : e1 <> BB_ERR_RETRY ->
      txn_open (bb_db_rollback w2) = false /\ (rel = true -> reliable (bb_db_rollback w2) = true) /\
      atomic_outcome (record_spec id b) (committed w) rel (BB_ERR e1) (committed (bb_db_rollback w2))).
    { intros _. split_and!; [done|auto|]. rewrite Hc3, Hc2, Hc1. destruct Hcase as [Hp|[Hf Hn]]; [by left|].
      right. left. split_and!; [done..|]. apply not_true_is_false. intros Hr. rewrite Hrel1 in Hn; done. }
    destruct e1; try (apply Hkeep; discriminate).
    destruct Hcase as [Hp|[_ Hn]]; [by apply record_spec_no_retry in Hp|].
    assert (rel = false) as -> by (apply not_true_is_false; intros Hr; rewrite Hrel1 in Hn; done).
    specialize (IH (BB_ERR BB_ERR_RETRY) false (bb_db_rollback w2) Ho3). rewrite Hc3, Hc2, Hc1 in IH.
    apply IH; [done|]. eexists. split; [done|by right].
Qed.

Lemma record_outcome id b w :
  txn_open w = false ->
  let '(r, w') := bb_record_ballot (Some id) (Some b) w in
  txn_open w' = false /\ (reliable w = true -> reliable w' = true) /\
  atomic_outcome (record_spec id b) (committed w) (reliable w) r (committed w').
Proof.
  intros Ho. apply attempts_outcome; [done|done|]. eexists. split; [done|by left].
Qed.
End sim.
