(* ===== verification/BallotInv.v ===== *)
(** * BallotInv: the ballot book of an election

    What holds of the tables of ballotbox's store between two requests, and that
    every request preserves it: each election's live ballots are in one-to-one
    correspondence with the voters on record. *)

From stdpp Require Import options.
From S2P Require Import Prelude Text BallotTypes BallotDb Ballot BallotSim.
#[local] Open Scope Z_scope.

Section inv.
Context {RN : Runner}.

(** ** Tables by election *)

Definition owners_of (d : bdb) (id : list Z) : list owner_row :=
  filter (fun r => ow_election r = id) (t_owner d).

(** [cert] is on the list the election was created with, as far as it is read. *)
Definition on_list (d : bdb) (id cert : list Z) : Prop :=
  cert ∈ take 64 (trunc BB_CERT_LEN ∘ el_cert <$> eligible_of d id).

Record book_ok (d : bdb) (id : list Z) : Prop := {
  bk_one : (length (elections_of d id) <= 1)%nat;
  bk_none : elections_of d id = [] ->
    options_of d id = [] /\ eligible_of d id = [] /\ ballots_of d id = [] /\ owners_of d id = [];
  bk_state : Forall (fun r => is_Some (parse_state (trunc 16 (er_state r)))) (elections_of d id);
  bk_hashes : NoDup (h_hash <$> ballots_of d id);
  bk_len : Forall (fun r => (length (h_hash r) < BB_HASH_LEN)%nat) (ballots_of d id);
  bk_options : Forall (fun r => 0 <= h_option_index r < count_to BB_MAX_OPTIONS (options_of d id)) (ballots_of d id);
  bk_certs : NoDup (ow_cert <$> owners_of d id);
  bk_eligible : Forall (fun o => on_list d id (ow_cert o)) (owners_of d id);
  bk_live : ((fun r => (h_hash r, h_version r)) <$> live (ballots_of d id)) ≡ₚ
            ((fun o => (ow_hash o, ow_version o)) <$> owners_of d id)
}.

Definition db_ok (d : bdb) : Prop := forall id, book_ok d id.

Definition empty_db : bdb := mkDb [] [] [] [] [] [].

Lemma empty_db_ok : db_ok empty_db.
Proof.
  intros id. split; try done; try constructor; simpl; try (lia || auto).
  all: unfold options_of, eligible_of; cbn [t_option t_eligible empty_db]; by rewrite filter_nil, reply_rows_nil.
Qed.

(** ** What a reply shows of a table *)

Lemma elections_shown d id : Forall (shown_in 700 show_election) (elections_of d id).
Proof. apply list.Forall_forall. auto. Qed.

Lemma election_reply d id l :
  reply_rows (sql_election id) show_election (elections_of d id) = Some l -> elections_of d id = l.
Proof. intros E. symmetry. by eapply reply_rows_some; [apply elections_shown|]. Qed.

Lemma election_reply_one d id :
  (length (elections_of d id) <= 1)%nat ->
  reply_rows (sql_election id) show_election (elections_of d id) = Some (elections_of d id).
Proof. intros Hl. apply (reply_rows_fit _ _ 700); [apply elections_shown|lia]. Qed.

Lemma old_state_reply d id r :
  first_row (reply_rows (sql_old_state id) show_old_state (elections_of d id)) = Some r -> head (elections_of d id) = Some r.
Proof. apply (first_row_some _ _ 700). apply list.Forall_forall. auto. Qed.

(** ** Eligibility *)

Lemma length_fill_eligible rows : length (fill_eligible rows) = 64%nat.
Proof. unfold fill_eligible. rewrite length_app, length_replicate, length_take. lia. Qed.

Lemma check_on_list d id r st cert :
  bb_check_eligibility (make_election d id r st) cert = true <-> on_list d id cert.
Proof.
  rewrite check_eligibility_spec. unfold on_list. cbn [e_eligible e_eligible_count make_election].
  set (rows := eligible_of d id). unfold count_to, BB_MAX_VOTERS.
  assert (Hlt : length (take 64 (trunc BB_CERT_LEN ∘ el_cert <$> rows)) = (64 `min` length rows)%nat)
    by (rewrite length_take, length_fmap; done).
  unfold fill_eligible. split.
  - intros (i & Hi & <-). apply list_elem_of_lookup. exists (Z.to_nat i).
    unfold aget. rewrite (proj2 (Z.ltb_ge _ _)), lookup_app_l by lia.
    destruct (lookup_lt_is_Some_2 (take 64 (trunc BB_CERT_LEN ∘ el_cert <$> rows)) (Z.to_nat i)) as [x Hx]; [lia|].
    by rewrite Hx.
  - intros [i Hi]%list_elem_of_lookup. exists (Z.of_nat i). pose proof (lookup_lt_Some _ _ _ Hi).
    split; [lia|]. rewrite aget_nat, lookup_app_l by lia. by rewrite Hi.
Qed.

Lemma on_list_short d id cert : on_list d id cert -> (length cert < BB_CERT_LEN)%nat.
Proof.
  unfold on_list. intros Hc%elem_of_take. destruct Hc as (i & Hi & _).
  apply list_lookup_fmap_Some in Hi as (x & -> & _). apply length_trunc. unfold BB_CERT_LEN. lia.
Qed.

(** ** What one recorded ballot does *)

Lemma load_pure id d e d' :
  load_election (W := bdb) id d = (BB_OK e, d') ->
  d' = d /\ exists r rest st, elections_of d (trunc BB_ID_LEN id) = r :: rest /\
    parse_state (trunc 16 (er_state r)) = Some st /\ e = make_election d (trunc BB_ID_LEN id) r st.
Proof.
  unfold load_election, mbind, M_bind, db_exec, pure_exec. cbn [cmd_run].
  destruct (reply_rows _ _ _) as [[|r rest]|] eqn:He; [done| |done].
  destruct (parse_state _) as [st|] eqn:Hst; [|done]. intros [= <- <-]. split; [done|].
  apply election_reply in He. eauto 10.
Qed.

(** The reply to GET_ELECTION can be read. *)
Definition election_readable (d : bdb) (id : list Z) : Prop :=
  reply_rows (sql_election id) show_election (elections_of d id) = Some (elections_of d id).

Lemma load_readable id d e d' :
  load_election (W := bdb) id d = (BB_OK e, d') -> election_readable d (trunc BB_ID_LEN id).
Proof.
  unfold load_election, mbind, M_bind, db_exec, pure_exec, election_readable. cbn [cmd_run].
  destruct (reply_rows _ _ _) as [l|] eqn:He; [|done]. intros _. f_equal. by apply election_reply in He.
Qed.

Lemma load_pure_found id d r rest st :
  election_readable d (trunc BB_ID_LEN id) -> elections_of d (trunc BB_ID_LEN id) = r :: rest -> parse_state (trunc 16 (er_state r)) = Some st ->
  load_election (W := bdb) id d = (BB_OK (make_election d (trunc BB_ID_LEN id) r st), d).
Proof.
  unfold election_readable. intros Hr He Hst. unfold load_election, mbind, M_bind, db_exec, pure_exec.
  cbn [cmd_run]. by rewrite Hr, He, Hst.
Qed.

Definition row_of (id h : list Z) (r : ballot_row) : Prop := ba_election r = id /\ h_hash (ba_hash r) = h.

(** The prior ballot's row replaced by its superseded copy. *)
Definition supersede (id h : list Z) (old : bb_ballot_hash) (t : list ballot_row) : list ballot_row :=
  filter (fun r => ~ row_of id h r) t ++ [mkBallotRow id (mkRow h (h_option_index old) (h_version old) 1)].

(** What [record_ballot_locked] leaves, given the prior ballot. *)
Definition recorded (d : bdb) (id cert nonce : list Z) (row : bb_ballot_hash)
    (prior : option (list Z * bb_ballot_hash)) : bdb :=
  let t := t_ballot d ++ [mkBallotRow id row] in
  mkDb (t_election d) (t_option d) (t_eligible d)
    (match prior with None => t | Some (h, old) => supersede id h old t end)
    (filter (fun r => ~ (ow_election r = id /\ ow_cert r = cert)) (t_owner d) ++
     [mkOwnerRow id cert (h_hash row) (h_version row)])
    (t_nonce d ++ [mkNonceRow id nonce]).

Definition ballot_choice (b : bb_ballot) : Z := if 0 <? b_payload_len b then aget 0 (b_payload b) 0 else 0.

Definition receipt_hash (b : bb_ballot) (version : Z) : list Z :=
  hash_from_seed (Z.lxor (fold (b_nonce b)) (u32 (version * 2246822519))).

Definition prior_version (o : option owner_row) : Z :=
  match o with None => 1 | Some o => ow_version o + 1 end.

Definition new_row (b : bb_ballot) (o : option owner_row) : bb_ballot_hash :=
  mkRow (receipt_hash b (prior_version o)) (ballot_choice b) (prior_version o) 0.

(** The row the prior ballot's hash picks out once the new one is appended: none
    to look for, or not there. *)
Definition prior_of (d : bdb) (id : list Z) (new : bb_ballot_hash) (o : option owner_row)
    : option (option (list Z * bb_ballot_hash)) :=
  match o with
  | None => Some None
  | Some o =>
      let h := trunc BB_HASH_LEN (ow_hash o) in
      (fun old => Some (h, old)) <$> first_row (reply_rows (sql_old_ballot id h) show_old_ballot
        (filter (fun r => h_hash r = h) (ballots_of d id ++ [new])))
  end.

(** The gates of a ballot: the election is open, the voter is on its list, the
    choice is one of its options and the nonce is unused. *)
Definition accepts (d : bdb) (id : list Z) (b : bb_ballot) : Prop :=
  let i := trunc BB_ID_LEN id in
  election_readable d i /\ (exists r rest, elections_of d i = r :: rest /\ parse_state (trunc 16 (er_state r)) = Some BB_STATE_OPEN) /\
  on_list d i (b_cert_name b) /\
  0 <= ballot_choice b < count_to BB_MAX_OPTIONS (options_of d i) /\
  nonce_seen d i (trunc BB_NONCE_LEN (b_nonce b)) = false.

Lemma bind_ok {A B} (m : M bdb A) (f : A -> M bdb B) d b d'' :
  (m ≫= f) d = (BB_OK b, d'') -> exists a d', m d = (BB_OK a, d') /\ f a d' = (BB_OK b, d'').
Proof. unfold mbind, M_bind. destruct (m d) as [[a|e] d'] eqn:E; [eauto|done]. Qed.

Lemma exec_ok c d a d' : db_exec (W := bdb) c d = (BB_OK a, d') -> cmd_run c d = BB_OK (a, d').
Proof. unfold db_exec, pure_exec. destruct (cmd_run c d) as [[]|]; naive_solver. Qed.

(** The gates, in the order the code tests them. *)
Lemma record_gates id b d rc d' :
  record_spec id b d = (BB_OK rc, d') -> accepts d id b.
Proof.
  unfold record_spec, record_ballot_locked. intros H. apply bind_ok in H as (e & d1 & Hl & H).
  pose proof (load_readable _ _ _ _ Hl) as Hread. apply load_pure in Hl as (-> & r & rest & st & He & Hst & ->).
  destruct (bool_decide _ || _); [done|]. case_bool_decide as Hopen; [done|].
  destruct (bb_check_eligibility _ _) eqn:Hel; [|done]. apply bind_ok in H as (opt & d1 & [= <- <-] & H).
  fold (ballot_choice b) in H. destruct (_ || _) eqn:Hopt in H; [done|]. bool_arith.
  apply bind_ok in H as (a & d1 & Hseen%exec_ok & H). cbn [cmd_run] in Hseen. injection Hseen as <- <-.
  cbn [r_found with_found] in H. destruct (nonce_seen _ _ _) eqn:Hn in H; [done|].
  split_and!; [done| |by apply check_on_list in Hel|done|done|done].
  exists r, rest. split; [done|]. by rewrite Hst, <- Hopen.
Qed.

Lemma ballots_append d te to tl tw tn i row :
  ballots_of (mkDb te to tl (t_ballot d ++ [mkBallotRow i row]) tw tn) i = ballots_of d i ++ [row].
Proof.
  unfold ballots_of. cbn [t_ballot]. rewrite list.filter_app, fmap_app. f_equal.
  by rewrite filter_cons_True.
Qed.

(** A ballot past its gates is recorded, unless the voter's previous ballot has
    vanished. *)
Lemma record_pass id b d :
  let i := trunc BB_ID_LEN id in let o := owner_of d i (trunc BB_CERT_LEN (b_cert_name b)) in
  accepts d id b ->
  match prior_of d i (new_row b o) o with
  | Some prior =>
      record_spec id b d =
      (BB_OK (mkReceipt (receipt_hash b (prior_version o)) (trunc BB_TIME_LEN (bytes "1970-01-01T00:00:00Z"))),
       recorded d i (trunc BB_CERT_LEN (b_cert_name b)) (trunc BB_NONCE_LEN (b_nonce b)) (new_row b o) prior)
  | None => (record_spec id b d).1 = BB_ERR BB_ERR_DB
  end.
Proof.
  intros i o (Hread & (r & rest & He & Hst) & Hel & Hopt & Hn). fold i in He, Hel, Hopt, Hn.
  unfold record_spec, record_ballot_locked, mbind, M_bind. rewrite (load_pure_found id d r rest _ Hread He Hst).
  fold i. cbn [e_state make_election]. rewrite !bool_decide_false by naive_solver. cbn [orb].
  rewrite (proj2 (check_on_list d i r BB_STATE_OPEN _) Hel). cbn [negb].
  unfold lift. cbn [bb_decrypt_ballot]. fold (ballot_choice b). cbn [e_option_count make_election].
  rewrite (proj2 (Z.ltb_ge _ _)), (proj2 (Z.leb_gt _ _)) by lia. cbn [orb].
  unfold db_exec, pure_exec. cbn [cmd_run]. rewrite Hn. cbn [r_found with_found]. fold o.
  assert (Hlen : trunc BB_HASH_LEN (receipt_hash b (prior_version o)) = receipt_hash b (prior_version o)).
  { apply trunc_id. unfold receipt_hash, hash_from_seed. rewrite length_hash_digits. unfold BB_HASH_LEN. lia. }
  destruct o as [ow|] eqn:Ho; cbn [r_found r_row zero_result with_row h_version h_hash prior_of] in *.
  - cbn [bb_issue_receipt rc_hash cmd_run]. fold (receipt_hash b (ow_version ow + 1)).
    cbn [prior_version] in Hlen. rewrite Hlen, trunc_idem.
    rewrite ballots_append. unfold new_row, prior_version.
    destruct (first_row _) as [old'|] eqn:Hf; done.
  - cbn [bb_issue_receipt rc_hash cmd_run]. fold (receipt_hash b 1). cbn [prior_version] in Hlen.
    rewrite Hlen. done.
Qed.

Lemma record_inv id b d rc d' :
  record_spec id b d = (BB_OK rc, d') ->
  let i := trunc BB_ID_LEN id in let o := owner_of d i (trunc BB_CERT_LEN (b_cert_name b)) in
  accepts d id b /\ rc_hash rc = h_hash (new_row b o) /\
  exists prior, prior_of d i (new_row b o) o = Some prior /\
    d' = recorded d i (trunc BB_CERT_LEN (b_cert_name b)) (trunc BB_NONCE_LEN (b_nonce b)) (new_row b o) prior.
Proof.
  intros H i o. pose proof (record_gates _ _ _ _ _ H) as Hacc. split; [done|].
  pose proof (record_pass id b d Hacc) as Hp. fold i o in Hp.
  destruct (prior_of d i (new_row b o) o) as [prior|]; rewrite H in Hp; [|done].
  injection Hp as -> ->. eauto.
Qed.

(** ** Generic facts on keyed lists *)

Lemma NoDup_key_eq {A K} (f : A -> K) l x y :
  NoDup (f <$> l) -> x ∈ l -> y ∈ l -> f x = f y -> x = y.
Proof.
  intros Hnd [i Hi]%list_elem_of_lookup [j Hj]%list_elem_of_lookup Hf.
  assert (i = j) as ->; [|congruence].
  apply (NoDup_lookup (f <$> l) i j (f x)); [done|by rewrite list_lookup_fmap, Hi|].
  rewrite list_lookup_fmap, Hj. simpl. by f_equal.
Qed.

Lemma filter_all {A} (P : A -> Prop) `{!forall x, Decision (P x)} (l : list A) : Forall P l -> filter P l = l.
Proof. induction 1 as [|x l Hx Hl IH]; [done|]. rewrite filter_cons_True by done. by f_equal. Qed.

Lemma filter_ext_in {A} (P Q : A -> Prop) `{!forall x, Decision (P x), !forall x, Decision (Q x)} (l : list A) :
  (forall x, x ∈ l -> P x <-> Q x) -> filter P l = filter Q l.
Proof.
  induction l as [|x l IH]; intros Hpq; [done|]. rewrite !filter_cons.
  rewrite IH by (intros y Hy; apply Hpq; by apply elem_of_cons; right).
  assert (P x <-> Q x) by (apply Hpq; apply elem_of_cons; by left).
  destruct (decide (P x)), (decide (Q x)); tauto.
Qed.

(** A key that does not repeat picks out at most one element. *)
Lemma filter_key_le {A K} `{EqDecision K} (f : A -> K) l k :
  NoDup (f <$> l) -> (length (filter (fun x => f x = k) l) <= 1)%nat.
Proof.
  induction l as [|x l IH]; [simpl; lia|]. rewrite fmap_cons, filter_cons. intros [Hx Hl]%NoDup_cons.
  destruct (decide (f x = k)) as [<-|]; [|auto]. cbn [length].
  destruct (filter _ l) as [|y r] eqn:E; [done|]. exfalso. apply Hx.
  assert (Hy : y ∈ filter (fun x0 => f x0 = f x) l) by (rewrite E; apply elem_of_cons; by left).
  apply list_elem_of_filter in Hy as [<- Hy]. apply list_elem_of_fmap. eauto.
Qed.

Lemma fmap_filter_key {A B} (f : A -> B) (P : B -> Prop) `{!forall x, Decision (P x)} (l : list A) :
  filter P (f <$> l) = f <$> filter (fun x => P (f x)) l.
Proof.
  induction l as [|x l IH]; [done|]. rewrite fmap_cons, !filter_cons, IH.
  by destruct (decide (P (f x))).
Qed.

(** ** A recorded ballot, table by table *)

Section tables.
Context (d : bdb) (i cert nonce : list Z) (row : bb_ballot_hash) (prior : option (list Z * bb_ballot_hash)).

Lemma recorded_ballots :
  ballots_of (recorded d i cert nonce row prior) i =
  match prior with
  | None => ballots_of d i ++ [row]
  | Some (h, old) => filter (fun r => h_hash r <> h) (ballots_of d i ++ [row]) ++
                     [mkRow h (h_option_index old) (h_version old) 1]
  end.
Proof.
  unfold recorded. destruct prior as [[h old]|]; [|apply ballots_append].
  unfold supersede. rewrite <- (ballots_append d (t_election d) (t_option d) (t_eligible d) (t_owner d) (t_nonce d)).
  unfold ballots_of. cbn [t_ballot]. rewrite list.filter_app, fmap_app. f_equal; [|by rewrite filter_cons_True].
  rewrite fmap_filter_key, !list_filter_filter. f_equal. apply list_filter_iff. unfold row_of. intros x. tauto.
Qed.

Lemma recorded_ballots_ne j : j <> i -> ballots_of (recorded d i cert nonce row prior) j = ballots_of d j.
Proof.
  intros Hj. unfold recorded, ballots_of. cbn [t_ballot].
  assert (Hone : forall r, filter (fun r => ba_election r = j) [mkBallotRow i r] = []).
  { intros r. rewrite filter_cons_False; [done|]. simpl. congruence. }
  destruct prior as [[h old]|]; [unfold supersede|]; rewrite list.filter_app, Hone, app_nil_r; [|done].
  f_equal. rewrite list_filter_filter.
  rewrite (filter_ext_in (fun x => ba_election x = j /\ ~ row_of i h x) (fun x => ba_election x = j)).
  - by rewrite list.filter_app, Hone, app_nil_r.
  - intros x _. unfold row_of. naive_solver.
Qed.

Lemma recorded_owners :
  owners_of (recorded d i cert nonce row prior) i =
  filter (fun o => ow_cert o <> cert) (owners_of d i) ++ [mkOwnerRow i cert (h_hash row) (h_version row)].
Proof.
  unfold owners_of, recorded. cbn [t_owner]. rewrite list.filter_app, filter_cons_True, filter_nil by done. f_equal.
  rewrite !list_filter_filter. apply list_filter_iff. intros x. tauto.
Qed.

Lemma recorded_owners_ne j : j <> i -> owners_of (recorded d i cert nonce row prior) j = owners_of d j.
Proof.
  intros Hj. unfold owners_of, recorded. cbn [t_owner].
  rewrite list.filter_app, filter_cons_False, filter_nil, app_nil_r by (simpl; congruence).
  rewrite list_filter_filter. apply list_filter_iff. intros x. naive_solver.
Qed.
End tables.

(** ** The invariant is preserved *)

Lemma owner_of_head d i c o : owner_of d i c = Some o -> head (filter (fun o => ow_cert o = c) (owners_of d i)) = Some o.
Proof.
  unfold owner_of. intros <-%(first_row_some _ _ 170); [|apply list.Forall_forall; auto]. f_equal.
  unfold owners_of. rewrite list_filter_filter. apply list_filter_iff. naive_solver.
Qed.

Lemma owner_of_none d i c :
  NoDup (ow_cert <$> owners_of d i) -> owner_of d i c = None ->
  filter (fun o => ow_cert o <> c) (owners_of d i) = owners_of d i.
Proof.
  intros Hnd. unfold owner_of. set (found := filter _ (t_owner d)).
  assert (E : found = filter (fun o => ow_cert o = c) (owners_of d i)).
  { unfold found, owners_of. rewrite list_filter_filter. apply list_filter_iff. naive_solver. }
  rewrite (first_row_fit _ _ 170); [|apply list.Forall_forall; auto|].
  - rewrite E. intros Hn%head_None. apply filter_all, list.Forall_forall. intros x Hx Hc.
    apply (not_elem_of_nil x). rewrite <- Hn. by apply list_elem_of_filter.
  - assert (length found <= 1)%nat; [|lia]. rewrite E. by apply filter_key_le.
Qed.

Lemma owner_of_some d i c o : owner_of d i c = Some o -> o ∈ owners_of d i /\ ow_cert o = c.
Proof. intros Ho%owner_of_head%head_Some_elem_of%list_elem_of_filter. tauto. Qed.

Section book.
Context (d : bdb) (i : list Z) (Hb : book_ok d i).

Lemma owner_hashes_NoDup : NoDup (ow_hash <$> owners_of d i).
Proof using All.
  assert (Hp : (fst <$> ((fun r => (h_hash r, h_version r)) <$> live (ballots_of d i))) ≡ₚ
    (fst <$> ((fun o => (ow_hash o, ow_version o)) <$> owners_of d i))) by (by rewrite (bk_live d i Hb)).
  rewrite <- !list_fmap_compose in Hp. change (ow_hash <$> owners_of d i) with
    (fst ∘ (fun o => (ow_hash o, ow_version o)) <$> owners_of d i). rewrite <- Hp.
  change (NoDup (h_hash <$> live (ballots_of d i))). unfold live.
  eapply sublist_NoDup; [apply (bk_hashes d i Hb)|apply fmap_sublist, sublist_filter].
Qed.

(** A voter's hash is a live ballot's, and fits its array. *)
Lemma owner_live o : o ∈ owners_of d i ->
  exists r, r ∈ live (ballots_of d i) /\ h_hash r = ow_hash o /\ h_version r = ow_version o /\
    (length (ow_hash o) < BB_HASH_LEN)%nat.
Proof using All.
  intros Ho. assert (Hin : (ow_hash o, ow_version o) ∈ (fun r => (h_hash r, h_version r)) <$> live (ballots_of d i)).
  { rewrite (bk_live d i Hb). apply list_elem_of_fmap. eauto. }
  apply list_elem_of_fmap in Hin as (r & [= Hh Hv] & Hr). exists r. split_and!; try done. rewrite Hh.
  apply list_elem_of_filter in Hr as [_ Hr]. pose proof (bk_len d i Hb) as Hl. rewrite list.Forall_forall in Hl. by apply Hl.
Qed.

(** Dropping a voter's entry is dropping the entry with the voter's hash. *)
Lemma owners_drop o : o ∈ owners_of d i ->
  filter (fun x => ow_cert x <> ow_cert o) (owners_of d i) =
  filter (fun x => ow_hash x <> ow_hash o) (owners_of d i).
Proof using All.
  intros Ho. apply filter_ext_in. intros x Hx. split; intros Hne Heq; apply Hne.
  - by rewrite (NoDup_key_eq ow_hash _ x o owner_hashes_NoDup Hx Ho Heq).
  - by rewrite (NoDup_key_eq ow_cert _ x o (bk_certs d i Hb) Hx Ho Heq).
Qed.

Lemma live_app r s : live (r ++ s) = live r ++ live s.
Proof. apply list.filter_app. Qed.

Lemma live_drop h rows : live (filter (fun r => h_hash r <> h) rows) = filter (fun r => h_hash r <> h) (live rows).
Proof. unfold live. rewrite !list_filter_filter. apply list_filter_iff. intros x. tauto. Qed.
End book.

(** The ballot past the gates finds its voter's previous ballot. *)
Lemma prior_found d i b :
  book_ok d i -> let o := owner_of d i (trunc BB_CERT_LEN (b_cert_name b)) in
  exists prior, prior_of d i (new_row b o) o = Some prior.
Proof.
  intros Hb o. unfold prior_of. destruct o as [ow|] eqn:Ho; [|eauto].
  apply owner_of_some in Ho as [Hin _]. destruct (owner_live d i Hb ow Hin) as (r & Hr & Hh & _ & Hlen).
  rewrite trunc_id by done. apply list_elem_of_filter in Hr as [_ Hr].
  rewrite (first_row_fit _ _ 170); [|apply list.Forall_forall; auto|].
  2:{ rewrite list.filter_app, length_app. pose proof (filter_key_le h_hash _ (ow_hash ow) (bk_hashes d i Hb)).
      pose proof (length_filter (fun r => h_hash r = ow_hash ow) [new_row b (Some ow)]). cbn [length] in *. lia. }
  destruct (head (filter _ _)) as [old|] eqn:Hf; [simpl; eauto|]. apply head_None in Hf.
  exfalso. apply (not_elem_of_nil r). rewrite <- Hf. apply list_elem_of_filter. split; [done|].
  apply elem_of_app. by left.
Qed.

Lemma prior_of_shape d i new o prior :
  prior_of d i new o = Some prior ->
  match o with
  | None => prior = None
  | Some o => exists old, prior = Some (trunc BB_HASH_LEN (ow_hash o), old) /\
      old ∈ ballots_of d i ++ [new] /\ h_hash old = trunc BB_HASH_LEN (ow_hash o)
  end.
Proof.
  unfold prior_of. destruct o as [o|]; [|by intros [= <-]].
  intros (old & Ho & ->)%fmap_Some. exists old. split; [done|].
  apply first_row_elem, list_elem_of_filter in Ho. tauto.
Qed.

(** A fresh receipt: no ballot of the election has its hash. *)
Definition fresh_receipt (d : bdb) (id : list Z) (rc : bb_receipt) : Prop :=
  rc_hash rc ∉ (h_hash <$> ballots_of d (trunc BB_ID_LEN id)).

Section record.
Context (d : bdb) (id : list Z) (b : bb_ballot).
Notation i := (trunc BB_ID_LEN id).
Notation c := (trunc BB_CERT_LEN (b_cert_name b)).
Notation o := (owner_of d i c).
Context (Hb : book_ok d i) (Hacc : accepts d id b).
Context (Hfresh : h_hash (new_row b o) ∉ (h_hash <$> ballots_of d i)).
Context (prior : option (list Z * bb_ballot_hash)) (Hprior : prior_of d i (new_row b o) o = Some prior).
Notation d' := (recorded d i c (trunc BB_NONCE_LEN (b_nonce b)) (new_row b o) prior).

Lemma owner_cases : (exists ow, o = Some ow) \/ o = None.
Proof using Type. generalize (owner_of d i c). intros [?|]; eauto. Qed.

Lemma cert_kept : c = b_cert_name b.
Proof using All. apply trunc_id. destruct Hacc as (_ & _ & Hon & _). by eapply on_list_short. Qed.

(** The rows after a first ballot, and after an update. *)
Lemma rows_none : o = None -> ballots_of d' i = ballots_of d i ++ [new_row b o].
Proof using All.
  intros Ho. rewrite recorded_ballots. apply prior_of_shape in Hprior. rewrite Ho in Hprior. by subst prior.
Qed.

Lemma rows_some ow :
  o = Some ow -> exists old, old ∈ ballots_of d i /\ h_hash old = ow_hash ow /\
  ballots_of d' i = filter (fun r => h_hash r <> ow_hash ow) (ballots_of d i) ++
                    [new_row b o; mkRow (ow_hash ow) (h_option_index old) (h_version old) 1].
Proof using All.
  intros Ho. pose proof (prior_of_shape _ _ _ _ _ Hprior) as Hs. rewrite recorded_ballots.
  destruct (owner_of_some d i _ ow Ho) as [Hin _]. destruct (owner_live d i Hb ow Hin) as (r & Hr & Hh & _ & Hlen).
  assert (Hne : h_hash (new_row b o) <> ow_hash ow).
  { intros E. apply Hfresh. rewrite E, <- Hh. apply list_elem_of_fmap. apply list_elem_of_filter in Hr. naive_solver. }
  rewrite Ho in Hs, Hne |- *. rewrite (trunc_id BB_HASH_LEN) in Hs by done.
  destruct Hs as (old & -> & Hold & Hoh). exists old. split_and!; [|done|].
  - apply elem_of_app in Hold as [Hold|Hold]; [done|]. apply list_elem_of_singleton in Hold as ->. done.
  - by rewrite list.filter_app, filter_cons_True, filter_nil, <- app_assoc.
Qed.

Lemma new_hash_length : (length (h_hash (new_row b o)) < BB_HASH_LEN)%nat.
Proof using All. unfold new_row, receipt_hash, hash_from_seed. cbn [h_hash]. rewrite length_hash_digits. unfold BB_HASH_LEN. lia. Qed.

(** Every row after is an old one, the new one, or the superseded copy of an old one. *)
Lemma rows_after r : r ∈ ballots_of d' i ->
  r ∈ ballots_of d i \/ r = new_row b o \/
  exists old, old ∈ ballots_of d i /\ h_hash r = h_hash old /\ h_option_index r = h_option_index old.
Proof using All.
  destruct owner_cases as [[ow Ho]|Ho].
  - destruct (rows_some ow Ho) as (old & Hold & Hoh & ->).
    rewrite elem_of_app, list_elem_of_filter, !elem_of_cons. intros [[_ Hr]|[->|[->|Hr]]]; [by left|by right; left| |set_solver].
    right. right. exists old. done.
  - rewrite (rows_none Ho), elem_of_app, list_elem_of_singleton. tauto.
Qed.

Lemma record_hashes : NoDup (h_hash <$> ballots_of d' i).
Proof using All.
  destruct owner_cases as [[ow Ho]|Ho].
  - destruct (rows_some ow Ho) as (old & Hold & Hoh & ->). rewrite fmap_app.
    set (keep := filter (fun r => h_hash r <> ow_hash ow) (ballots_of d i)).
    assert (Hkeep : NoDup (h_hash <$> keep)).
    { eapply sublist_NoDup; [apply (bk_hashes d i Hb)|apply fmap_sublist, sublist_filter]. }
    assert (Hin : ow_hash ow ∈ h_hash <$> ballots_of d i) by (rewrite <- Hoh; apply list_elem_of_fmap; eauto).
    apply NoDup_app. split_and!; [done| |].
    + intros x (r & -> & [Hrn Hr]%list_elem_of_filter)%list_elem_of_fmap.
      assert (h_hash r <> h_hash (new_row b o)).
      { intros E. apply Hfresh. rewrite <- E. apply list_elem_of_fmap. eauto. }
      cbn [fmap list_fmap]. rewrite !elem_of_cons. cbn [h_hash]. set_solver.
    + cbn [fmap list_fmap]. apply NoDup_cons. split; [|apply NoDup_singleton].
      rewrite list_elem_of_singleton. intros E. apply Hfresh. rewrite E. done.
  - rewrite (rows_none Ho), fmap_app. apply NoDup_app. split_and!; [apply (bk_hashes d i Hb)| |apply NoDup_singleton].
    intros x Hx Hn. apply list_elem_of_singleton in Hn as ->. by apply Hfresh.
Qed.

Lemma record_live :
  ((fun r => (h_hash r, h_version r)) <$> live (ballots_of d' i)) ≡ₚ
  ((fun x => (ow_hash x, ow_version x)) <$> owners_of d' i).
Proof using All.
  rewrite recorded_owners. pose proof (bk_live d i Hb) as Hl. destruct owner_cases as [[ow Ho]|Ho].
  - destruct (rows_some ow Ho) as (old & Hold & Hoh & ->).
    destruct (owner_of_some d i _ ow Ho) as [Hin Hcert]. rewrite <- Hcert, (owners_drop d i Hb ow Hin).
    rewrite live_app, live_drop, !fmap_app. apply Permutation_app; [|done].
    assert (Hf : filter (fun p => p.1 <> ow_hash ow) ((fun r => (h_hash r, h_version r)) <$> live (ballots_of d i)) ≡ₚ
      filter (fun p => p.1 <> ow_hash ow) ((fun x => (ow_hash x, ow_version x)) <$> owners_of d i)) by (by rewrite Hl).
    rewrite !fmap_filter_key in Hf. done.
  - rewrite (rows_none Ho), (owner_of_none _ _ _ (bk_certs d i Hb) Ho), live_app, !fmap_app.
    apply Permutation_app; [done|]. done.
Qed.

(** The new row is live; the prior one's hash is not. *)
Lemma new_row_live : new_row b o ∈ live (ballots_of d' i).
Proof using All.
  apply list_elem_of_filter. split; [done|]. destruct owner_cases as [[ow Ho]|Ho].
  - destruct (rows_some ow Ho) as (old & _ & _ & ->). rewrite elem_of_app, elem_of_cons. auto.
  - rewrite (rows_none Ho), elem_of_app, list_elem_of_singleton. auto.
Qed.

Lemma prior_not_live ow x : o = Some ow -> x ∈ live (ballots_of d' i) -> h_hash x <> ow_hash ow.
Proof using All.
  intros Ho [Hs Hx]%list_elem_of_filter. destruct (rows_some ow Ho) as (old & Hold & Hoh & E). rewrite E in Hx.
  rewrite elem_of_app, list_elem_of_filter, !elem_of_cons in Hx. destruct Hx as [[? _]|[->|[->|Hx]]]; [done| |done|set_solver].
  intros Hbad. apply Hfresh. rewrite Hbad, <- Hoh. apply list_elem_of_fmap. eauto.
Qed.

Lemma record_book_ok : book_ok d' i.
Proof using All.
  destruct Hacc as (_ & (er & rest & He & Hst) & Hon & Hopt & _). destruct Hb. split; try done.
  - intros E. change (elections_of d i = []) in E. rewrite He in E. done.
  - apply record_hashes.
  - apply list.Forall_forall. intros r Hr. rewrite list.Forall_forall in bk_len0.
    destruct (rows_after r Hr) as [Ho|[->|(old & Ho & -> & _)]]; [auto|apply new_hash_length|auto].
  - change (options_of d' i) with (options_of d i).
    apply list.Forall_forall. intros r Hr. rewrite list.Forall_forall in bk_options0.
    destruct (rows_after r Hr) as [Ho|[->|(old & Ho & _ & ->)]]; [auto|done|auto].
  - rewrite recorded_owners, fmap_app. apply NoDup_app. split_and!; [|intros x Hx|apply NoDup_singleton].
    + eapply sublist_NoDup; [done|apply fmap_sublist, sublist_filter].
    + apply list_elem_of_fmap in Hx as (y & -> & [Hy _]%list_elem_of_filter). cbn. by intros E%list_elem_of_singleton.
  - rewrite recorded_owners. apply Forall_app. split; [|apply Forall_singleton; simpl; by rewrite cert_kept].
    apply list.Forall_forall. intros x [_ Hx]%list_elem_of_filter. rewrite list.Forall_forall in bk_eligible0. by apply bk_eligible0.
  - apply record_live.
Qed.
End record.

(** ** Steps of the store *)

Definition state_of (d : bdb) (id : list Z) : option bb_state :=
  match elections_of d id with
  | r :: _ => parse_state (trunc 16 (er_state r))
  | [] => None
  end.

(** What a request can do to the store: nothing, create an election under a free
    id, move one along, or record a ballot.  With [strict] the ballot's receipt is
    new to the election. *)
Inductive bstep (strict : bool) (d : bdb) : bdb -> Prop :=
  | bs_same : bstep strict d d
  | bs_create id cfg a d' :
      bb_validate_config (Some cfg) = BB_OK tt -> elections_of d id = [] ->
      cmd_run (BB_DB_INSERT_ELECTION id cfg) d = BB_OK (a, d') -> bstep strict d d'
  | bs_transition id from to a d' :
      state_of d id = Some from -> bb_is_legal_transition from to = true ->
      cmd_run (BB_DB_UPDATE_STATE id to) d = BB_OK (a, d') -> bstep strict d d'
  | bs_ballot id b rc d' :
      record_spec id b d = (BB_OK rc, d') -> (strict = true -> fresh_receipt d id rc) -> bstep strict d d'.

Lemma filter_none {A} (P : A -> Prop) `{!forall x, Decision (P x)} (l : list A) :
  (forall x, x ∈ l -> ~ P x) -> filter P l = [].
Proof.
  intros Hn. destruct (filter P l) as [|x r] eqn:E; [reflexivity|]. exfalso.
  assert (Hx : x ∈ filter P l) by (rewrite E; apply elem_of_cons; by left).
  apply list_elem_of_filter in Hx as [Hp Hx]. by apply (Hn x).
Qed.

Lemma filter_app_one {A} (P : A -> Prop) `{!forall x, Decision (P x)} (l : list A) x :
  filter P (l ++ [x]) = filter P l ++ (if decide (P x) then [x] else []).
Proof. by rewrite list.filter_app. Qed.

Lemma update_elections d id st a d' :
  cmd_run (BB_DB_UPDATE_STATE id st) d = BB_OK (a, d') ->
  (exists r, elections_of d' id = [r] /\ er_state r = bb_state_str st) /\
  (forall j, j <> id -> elections_of d' j = elections_of d j) /\
  t_option d' = t_option d /\ t_eligible d' = t_eligible d /\ t_ballot d' = t_ballot d /\
  t_owner d' = t_owner d /\ t_nonce d' = t_nonce d.
Proof.
  cbn [cmd_run]. destruct (first_row _) as [r|] eqn:He; [|done]. intros [= <- <-].
  cbn [t_option t_eligible t_ballot t_owner t_nonce]. split_and!; try done.
  - eexists (mkElectionRow _ id _ (bb_state_str st) _ _). split; [|done]. unfold elections_of. cbn [t_election].
    rewrite filter_app_one, decide_True by done. rewrite list_filter_filter, filter_none; [done|]. naive_solver.
  - intros j Hj. unfold elections_of. cbn [t_election]. rewrite filter_app_one, decide_False by naive_solver.
    rewrite app_nil_r, list_filter_filter. apply list_filter_iff. naive_solver.
Qed.

Lemma insert_tables d id cfg a d' :
  cmd_run (BB_DB_INSERT_ELECTION id cfg) d = BB_OK (a, d') ->
  (exists r, elections_of d' id = elections_of d id ++ [r] /\ er_state r = bb_state_str BB_STATE_DRAFT) /\
  (forall j, j <> id -> elections_of d' j = elections_of d j /\ options_of d' j = options_of d j /\
     eligible_of d' j = eligible_of d j) /\
  t_ballot d' = t_ballot d /\ t_owner d' = t_owner d /\ t_nonce d' = t_nonce d.
Proof.
  cbn [cmd_run]. destruct (config_safe id cfg); [|done]. intros [= <- <-].
  cbn [t_ballot t_owner t_nonce]. split_and!; try done.
  - eexists. unfold elections_of. cbn [t_election]. rewrite filter_app_one, decide_True by done. done.
  - intros j Hj. unfold elections_of, options_of, eligible_of. cbn [t_election t_option t_eligible].
    rewrite filter_app_one, decide_False, app_nil_r, !list.filter_app by naive_solver.
    rewrite (filter_none _ (config_option_rows id cfg)), (filter_none _ (config_eligible_rows id cfg)), !app_nil_r;
      [done| |]; intros x (k & -> & _)%list_elem_of_fmap; simpl; congruence.
Qed.

Lemma book_ok_same d d' id :
  book_ok d id -> elections_of d' id = elections_of d id -> options_of d' id = options_of d id ->
  eligible_of d' id = eligible_of d id -> ballots_of d' id = ballots_of d id ->
  owners_of d' id = owners_of d id -> book_ok d' id.
Proof. intros [] He Ho Hl Hb Hw. split; unfold on_list; by rewrite ?He, ?Ho, ?Hl, ?Hb, ?Hw. Qed.

Lemma update_ok d id st a d' :
  db_ok d -> cmd_run (BB_DB_UPDATE_STATE id st) d = BB_OK (a, d') -> db_ok d'.
Proof.
  intros Hd Hu j. destruct (update_elections _ _ _ _ _ Hu) as ((r & Hr & Hs) & Hne & Ho & Hl & Hb & Hw & _).
  destruct (decide (j = id)) as [->|Hj].
  2:{ apply (book_ok_same d); [done|by apply Hne|..]; unfold options_of, eligible_of, ballots_of, owners_of; congruence. }
  destruct (Hd id). split; unfold on_list, options_of, eligible_of, ballots_of, owners_of in *;
    rewrite ?Ho, ?Hl, ?Hb, ?Hw, ?Hr; try done.
  apply Forall_singleton. rewrite Hs, parse_state_str. eauto.
Qed.

Lemma insert_ok d id cfg a d' :
  db_ok d -> elections_of d id = [] -> cmd_run (BB_DB_INSERT_ELECTION id cfg) d = BB_OK (a, d') -> db_ok d'.
Proof.
  intros Hd Hfree Hi j. destruct (insert_tables _ _ _ _ _ Hi) as ((r & Hr & Hs) & Hne & Hb & Hw & _).
  assert (Hball : forall k, ballots_of d' k = ballots_of d k) by (intros k; unfold ballots_of; by rewrite Hb).
  assert (Hown : forall k, owners_of d' k = owners_of d k) by (intros k; unfold owners_of; by rewrite Hw).
  destruct (decide (j = id)) as [->|Hj].
  2:{ destruct (Hne j Hj) as (He & Ho & Hl). by apply (book_ok_same d). }
  destruct (bk_none d id (Hd id) Hfree) as (_ & _ & Hbn & Hwn).
  split; rewrite ?Hball, ?Hown, ?Hbn, ?Hwn, ?Hr, ?Hfree; try done; try constructor; try done.
  rewrite Hs, parse_state_str. eauto.
Qed.

(** Every step keeps every book in order. *)
Lemma bstep_ok d d' : db_ok d -> bstep true d d' -> db_ok d'.
Proof.
  intros Hd [|id cfg a d1 _ Hfree Hi|id from to a d1 _ _ Hu|id b rc d1 Hr Hfr]; [done|by eapply insert_ok|by eapply update_ok|].
  destruct (record_inv _ _ _ _ _ Hr) as (Hacc & Hrc & prior & Hp & ->). specialize (Hfr eq_refl).
  unfold fresh_receipt in Hfr. rewrite Hrc in Hfr. intros j. destruct (decide (j = trunc BB_ID_LEN id)) as [->|Hj].
  - by apply record_book_ok.
  - by apply (book_ok_same d); [|..|apply recorded_ballots_ne|apply recorded_owners_ne].
Qed.
End inv.
