(* ===== verification/BallotSteps.v ===== *)
(** * BallotSteps: every request is a step of the store

    Each handler of ballotbox/src/libballotbrain, run over a store that keeps the
    seam's laws and may fail at any call, changes the committed tables by one of the
    steps of BallotInv. *)

From stdpp Require Import options.
From S2P Require Import Prelude Text BallotTypes BallotDb Ballot BallotSim BallotInv.
#[local] Open Scope Z_scope.

(** A call that only reads. *)
Definition readonly {A} (p : M bdb A) : Prop := forall d, (p d).2 = d.

Definition is_read {RN : Runner} (c : bb_db_cmd) : Prop := forall d a d', cmd_run c d = BB_OK (a, d') -> d' = d.

Lemma readonly_exec {RN : Runner} c : is_read c -> readonly (db_exec c).
Proof.
  intros Hc d. unfold db_exec, pure_exec. destruct (cmd_run c d) as [[a d']|e] eqn:E; [|done].
  simpl. by eapply Hc.
Qed.

Lemma is_read_get {RN : Runner} c :
  match c with
  | BB_DB_GET_ELECTION _ | BB_DB_GET_TALLY _ | BB_DB_GET_HASHES _ | BB_DB_FIND_HASH _ _
  | BB_DB_NONCE_SEEN _ _ | BB_DB_GET_PRIOR_BALLOT _ _ => is_read c
  | _ => True
  end.
Proof. destruct c; try done; intros d a d'; simpl; repeat case_match; naive_solver. Qed.

Lemma readonly_ret {A} (a : A) : readonly (mret a).
Proof. done. Qed.

Lemma readonly_fail {A} e : readonly (fail e : M bdb A).
Proof. done. Qed.

Lemma readonly_if {A} (b : bool) (m1 m2 : M bdb A) : readonly m1 -> readonly m2 -> readonly (if b then m1 else m2).
Proof. by destruct b. Qed.

Lemma readonly_bind {A B} (m : M bdb A) (f : A -> M bdb B) :
  readonly m -> (forall a, readonly (f a)) -> readonly (m ≫= f).
Proof.
  intros Hm Hf d. unfold mbind, M_bind. specialize (Hm d). destruct (m d) as [[a|e] d']; simpl in *; subst; [|done].
  apply Hf.
Qed.

Create HintDb readonly.
#[export] Hint Resolve readonly_ret readonly_fail readonly_if readonly_bind : readonly.
#[export] Hint Extern 1 (readonly (db_exec ?c)) => exact (readonly_exec c (is_read_get c)) : readonly.

Lemma readonly_load {RN : Runner} id : readonly (load_election id).
Proof. unfold load_election. auto with readonly. Qed.
#[export] Hint Resolve readonly_load : readonly.

Lemma outcome_cases {A} (p : M bdb A) d rel r d' :
  atomic_outcome p d rel r d' -> d' = d \/ exists a, p d = (BB_OK a, d').
Proof. destruct r; simpl; naive_solver. Qed.

Section steps.
Context {W : Type} `{StoreLaws W}.

(** [m] outside a transaction does what [p] does on the committed store, or fails
    atomically. *)
Definition plain {A} (m : M W A) (p : M bdb A) : Prop :=
  forall w, txn_open w = false ->
  let '(r, w') := m w in
  txn_open w' = false /\ (reliable w = true -> reliable w' = true) /\
  atomic_outcome p (committed w) (reliable w) r (committed w').

Lemma plain_ret {A} (a : A) : plain (mret a) (mret a).
Proof. intros w Ho. simpl. done. Qed.

Lemma plain_fail {A} e : plain (fail e : M W A) (fail e).
Proof. intros w Ho. simpl. auto. Qed.

Lemma plain_if {A} (b : bool) (m1 m2 : M W A) p1 p2 :
  plain m1 p1 -> plain m2 p2 -> plain (if b then m1 else m2) (if b then p1 else p2).
Proof. by destruct b. Qed.

Lemma plain_exec c : plain (db_exec c) (db_exec c).
Proof.
  intros w Ho. destruct (exec_law w c Ho) as [Hl Hrel]. destruct (db_exec c w) as [[a|e] w']; simpl in Hrel.
  - destruct Hl as [Hr Ho']. split_and!; [done..|]. simpl. unfold db_exec, pure_exec. by rewrite Hr.
  - destruct Hl as (-> & Hr & Ho' & Hc). split_and!; [done..|]. simpl. unfold db_exec, pure_exec.
    destruct (reliable w) eqn:Hw.
    + left. rewrite Hr in Hc |- * by done. naive_solver.
    + right. destruct Hc as [Hc|[a Ha]]; [left; split_and!; [done|by left|done]|]. right. rewrite Ha. eauto.
Qed.

Lemma plain_bind {A B} (m : M W A) p (f : A -> M W B) g :
  readonly p -> plain m p -> (forall a, plain (f a) (g a)) -> plain (m ≫= f) (p ≫= g).
Proof.
  intros Hro Hm Hf w Ho. unfold mbind, M_bind. specialize (Hm w Ho). specialize (Hro (committed w)).
  destruct (m w) as [[a|e] w1]; destruct Hm as (Ho1 & Hr1 & Hp); simpl in Hp.
  - rewrite Hp in Hro. simpl in Hro. specialize (Hf a w1 Ho1). rewrite Hro in Hf. destruct (f a w1) as [r w2].
    destruct Hf as (Ho2 & Hr2 & Hp2). split_and!; [done|auto|]. destruct r as [b|e]; simpl in Hp2 |- *; rewrite Hp, Hro; [done|].
    assert (Hrel : reliable w1 = false -> reliable w = false)
      by (destruct (reliable w); [rewrite Hr1 by done; done|done]).
    destruct Hp2 as [?|[(? & ? & ?)|(? & ? & ?)]]; [by left|right; left; auto|right; right; auto].
  - split_and!; [done|done|]. simpl.
    destruct Hp as [[Hd He]|[(Hd & Hf1 & Hw)|(-> & Hw & a & Ha)]]; [left|right; left; done|].
    + split; [done|]. destruct (p (committed w)) as [[a|e'] d1]; [done|]. by injection He as ->.
    + right. left. rewrite Ha in Hro. split_and!; [done|by left|done].
Qed.

Lemma plain_map {A B} (m : M W A) p (f : A -> B) :
  plain m p -> plain (m ≫= fun a => mret (f a)) (p ≫= fun a => mret (f a)).
Proof.
  intros Hm w Ho. unfold mbind, M_bind. specialize (Hm w Ho). destruct (m w) as [[a|e] w1];
    destruct Hm as (Ho1 & Hr1 & Hp); split_and!; simpl in *; try done.
  - by rewrite Hp.
  - destruct Hp as [[Hd He]|[?|(-> & Hw & a & Ha)]]; [left|right; left; done|right; right].
    + split; [done|]. destruct (p (committed w)) as [[a|e'] d1]; [done|]. by injection He as ->.
    + split_and!; [done..|]. rewrite Ha. eauto.
Qed.

Lemma plain_load id : plain (load_election id) (load_election id).
Proof.
  apply plain_bind; [auto with readonly|apply plain_exec|]. intros a. apply plain_if; [apply plain_fail|apply plain_ret].
Qed.

Lemma plain_transition id to : plain (bb_transition_state id to) (bb_transition_state id to).
Proof.
  destruct id as [id|]; [|apply plain_fail]. cbn [bb_transition_state].
  apply plain_bind; [auto with readonly|apply plain_exec|]. intros a.
  repeat (apply plain_if; [apply plain_fail|]). apply plain_map, plain_exec.
Qed.

(** The calls that read: join, results, lookup. *)
Ltac plain_reads := repeat first
  [ apply plain_bind; [solve [auto with readonly]| |intros ?] | apply plain_if
  | apply plain_fail | apply plain_ret | apply plain_load | apply plain_exec ].

Lemma plain_join id cert want : plain (bb_join id cert want) (bb_join id cert want).
Proof. destruct id, cert; cbn [bb_join]; plain_reads. Qed.

Lemma plain_results id cert : plain (bb_get_results id cert) (bb_get_results id cert).
Proof. destruct id, cert; cbn [bb_get_results]; unfold fetch_results; plain_reads. Qed.

Lemma plain_results_admin id : plain (bb_get_results_admin id) (bb_get_results_admin id).
Proof. destruct id; cbn [bb_get_results_admin]; unfold fetch_results; plain_reads. Qed.

Lemma plain_lookup id h : plain (bb_lookup_hash id h) (bb_lookup_hash id h).
Proof. destruct id, h; cbn [bb_lookup_hash]; plain_reads. Qed.

(** ** Creation *)

Lemma load_not_found id d : (load_election (W := bdb) id d).1 = BB_ERR BB_ERR_NOT_FOUND ->
  elections_of d (trunc BB_ID_LEN id) = [].
Proof using Type.
  unfold load_election, mbind, M_bind, db_exec, pure_exec. cbn [cmd_run].
  destruct (reply_rows _ _ _) as [[|r rest]|] eqn:He; [|by destruct (parse_state _)|done].
  intros _. by apply election_reply.
Qed.

(** No id was asked for, so one is allocated. *)
Definition auto_id (desired : option (list Z)) : bool :=
  match desired with Some (_ :: _) => false | _ => true end.

Lemma choose_id_outcome desired w :
  txn_open w = false ->
  let '(r, w') := choose_id desired w in
  txn_open w' = false /\ committed w' = committed w /\
  forall id, r = BB_OK id ->
    if auto_id desired then id = (bb_alloc_id w).1 else elections_of (committed w) (trunc BB_ID_LEN id) = [].
Proof using All.
  intros Ho. assert (Halloc : let '(r, w') := (let '(id, w') := bb_alloc_id w in (BB_OK id, w')) in
    txn_open w' = false /\ committed w' = committed w /\ forall id, r = BB_OK id -> id = (bb_alloc_id w).1).
  { pose proof (alloc_law w Ho) as Ha. destruct (bb_alloc_id w) as [id w']. simpl in *.
    destruct Ha as (? & ? & _). split_and!; [done..|]. by intros ? [= ->]. }
  destruct desired as [[|x id]|]; [exact Halloc| |exact Halloc].
  cbn [choose_id auto_id]. pose proof (plain_load (x :: id) w Ho) as Hl.
  destruct (load_election (x :: id) w) as [[e|e] w']; destruct Hl as (Ho' & _ & Hout).
  - apply load_pure in Hout as [Hc _]. split_and!; [done..|]. intros id' Hid'. discriminate Hid'.
  - assert (Hc : committed w' = committed w).
    { destruct (outcome_cases _ _ _ _ _ Hout) as [?|[a Ha]]; [done|]. by apply load_pure in Ha as [-> _]. }
    case_bool_decide as Hnf; [done|]. split_and!; [done..|]. intros id' [= <-]. rewrite trunc_idem.
    apply load_not_found. subst e. by destruct Hout as [[_ Hnf]|[(_ & [?|?] & _)|(? & _)]].
Qed.

Lemma create_outcome cfg desired w :
  txn_open w = false ->
  let '(r, w') := bb_create_election (Some cfg) desired w in
  txn_open w' = false /\
  ((exists e, r = BB_ERR e) /\ committed w' = committed w \/
   exists id a, bb_validate_config (Some cfg) = BB_OK tt /\
     cmd_run (BB_DB_INSERT_ELECTION id cfg) (committed w) = BB_OK (a, committed w') /\
     (r = BB_OK id \/ r = BB_ERR BB_ERR_DB) /\
     if auto_id desired then id = trunc BB_ID_LEN (bb_alloc_id w).1 else elections_of (committed w) id = []).
Proof using All.
  intros Ho. unfold bb_create_election. unfold mbind, M_bind at 1. unfold lift.
  destruct (bb_validate_config (Some cfg)) as [[]|e]; [|split; [done|left; eauto]].
  pose proof (choose_id_outcome desired w Ho) as Hid. unfold M_bind at 1.
  destruct (choose_id desired w) as [[id|e] w1]; destruct Hid as (Ho1 & Hc1 & Hid); [|split; [done|left; eauto]].
  specialize (Hid id eq_refl). destruct (exec_law w1 (BB_DB_INSERT_ELECTION (trunc BB_ID_LEN id) cfg) Ho1) as [Hl _].
  unfold M_bind. destruct (db_exec _ w1) as [[a|e] w2]; rewrite Hc1 in Hl.
  - destruct Hl as [Hr Ho2]. split; [done|]. right. exists (trunc BB_ID_LEN id), a.
    split_and!; [done|done|by left|]. destruct (auto_id desired); by rewrite ?Hid.
  - destruct Hl as (-> & _ & Ho2 & [Hc|[a Ha]]); (split; [done|]); [left; eauto|]. right.
    exists (trunc BB_ID_LEN id), a. split_and!; [done|done|by right|]. destruct (auto_id desired); by rewrite ?Hid.
Qed.

(** ** Requests *)

Inductive request :=
  | RCreate (cfg : bb_config) (desired : option (list Z))
  | RTransition (id : list Z) (to : bb_state)
  | RPublish (id : list Z)
  | RJoin (id cert : list Z) (want_prior : bool)
  | RBallot (id : list Z) (b : bb_ballot)
  | RResults (id cert : list Z)
  | RResultsAdmin (id : list Z)
  | RLookup (id hash : list Z)
  | RNextId.

(** The world after a request. *)
Definition serve (r : request) (w : W) : W :=
  match r with
  | RCreate cfg desired => (bb_create_election (Some cfg) desired w).2
  | RTransition id to => (bb_transition_state (Some id) to w).2
  | RPublish id => (bb_publish_results (Some id) w).2
  | RJoin id cert want => (bb_join (Some id) (Some cert) want w).2
  | RBallot id b => (bb_record_ballot (Some id) (Some b) w).2
  | RResults id cert => (bb_get_results (Some id) (Some cert) w).2
  | RResultsAdmin id => (bb_get_results_admin (Some id) w).2
  | RLookup id hash => (bb_lookup_hash (Some id) (Some hash) w).2
  | RNextId => (bb_alloc_id w).2
  end.

(** What the code does not ensure but the books rely on: an automatically allocated
    id is free ([allocated_id_taken] of BallotTheorems shows one that is not), and,
    with [strict], the receipt a recorded ballot gets is not the receipt of another
    ballot of the election ([collision_drops_a_vote] shows one that is). *)
Definition request_ok (strict : bool) (w : W) (r : request) : Prop :=
  match r with
  | RCreate _ desired => auto_id desired = true -> elections_of (committed w) (trunc BB_ID_LEN (bb_alloc_id w).1) = []
  | RBallot id b => strict = true -> forall rc d', record_spec id b (committed w) = (BB_OK rc, d') ->
                     fresh_receipt (committed w) id rc
  | _ => True
  end.

Lemma transition_bstep strict id to d a d' :
  bb_transition_state (W := bdb) (Some id) to d = (BB_OK a, d') -> bstep strict d d'.
Proof using Type.
  intros (res & d1 & Hg%exec_ok & Ht)%bind_ok. cbn [cmd_run] in Hg.
  destruct (reply_rows _ _ _) as [[|r rest]|] eqn:He; [by simplify_eq| |done]. apply election_reply in He.
  destruct (parse_state _) as [st|] eqn:Hst; [|done]. injection Hg as <- <-.
  cbn [r_found with_election r_election e_state make_election negb] in Ht.
  destruct (bb_is_legal_transition st to) eqn:Hlegal; [|done]. cbn [negb] in Ht.
  apply bind_ok in Ht as (u & d2 & Hu%exec_ok & [= _ <-]).
  apply (bs_transition strict d (trunc BB_ID_LEN id) st to u); [|done|done].
  unfold state_of. by rewrite He.
Qed.

Lemma readonly_same {A} (p : M bdb A) d a d' : readonly p -> p d = (BB_OK a, d') -> d' = d.
Proof using Type. intros Hro E. specialize (Hro d). by rewrite E in Hro. Qed.

Lemma plain_read_same {A} (m : M W A) p w :
  plain m p -> readonly p -> txn_open w = false -> txn_open (m w).2 = false /\ committed (m w).2 = committed w.
Proof using Type.
  intros Hm Hro Ho. specialize (Hm w Ho). destruct (m w) as [r w']. destruct Hm as (Ho' & _ & Hout).
  split; [done|]. simpl. destruct (outcome_cases _ _ _ _ _ Hout) as [->|[a Ha]]; [done|]. by eapply readonly_same.
Qed.

Lemma transition_step strict id to w :
  txn_open w = false ->
  txn_open (bb_transition_state (Some id) to w).2 = false /\
  bstep strict (committed w) (committed (bb_transition_state (Some id) to w).2).
Proof using All.
  intros Ho. pose proof (plain_transition (Some id) to w Ho) as Hp.
  destruct (bb_transition_state (Some id) to w) as [r w']. destruct Hp as (Ho' & _ & Hout). split; [done|].
  simpl. destruct (outcome_cases _ _ _ _ _ Hout) as [->|[a Ha]]; [constructor|]. by eapply transition_bstep.
Qed.

(** Every request, whatever fails in it, is a step. *)
Lemma serve_step strict r w :
  txn_open w = false -> request_ok strict w r ->
  txn_open (serve r w) = false /\ bstep strict (committed w) (committed (serve r w)).
Proof using All.
  intros Ho Hok. destruct r as [cfg desired|id to|id|id cert want|id b|id cert|id|id h|]; cbn [serve].
  - pose proof (create_outcome cfg desired w Ho) as Hc. destruct (bb_create_election _ _ w) as [r w'].
    destruct Hc as (Ho' & [[_ Hc]|(i & a & Hv & Hi & _ & Hfree)]); (split; [done|]); simpl; [rewrite Hc; constructor|].
    apply (bs_create strict _ i cfg a); [done| |done]. cbn [request_ok] in Hok.
    destruct (auto_id desired); [|done]. subst i. by apply Hok.
  - by apply transition_step.
  - by apply transition_step.
  - destruct (plain_read_same _ _ w (plain_join (Some id) (Some cert) want)) as [-> ->];
      [cbn [bb_join]; auto 12 with readonly|done|]. split; [done|constructor].
  - pose proof (record_outcome id b w Ho) as Hr. destruct (bb_record_ballot _ _ w) as [r w'].
    destruct Hr as (Ho' & _ & Hout). split; [done|]. simpl.
    destruct (outcome_cases _ _ _ _ _ Hout) as [->|[rc Hrc]]; [constructor|].
    apply (bs_ballot strict _ id b rc); [done|]. intros Hs. by apply (Hok Hs rc _ Hrc).
  - destruct (plain_read_same _ _ w (plain_results (Some id) (Some cert))) as [-> ->];
      [cbn [bb_get_results]; unfold fetch_results; auto 12 with readonly|done|]. split; [done|constructor].
  - destruct (plain_read_same _ _ w (plain_results_admin (Some id))) as [-> ->];
      [cbn [bb_get_results_admin]; unfold fetch_results; auto 12 with readonly|done|]. split; [done|constructor].
  - destruct (plain_read_same _ _ w (plain_lookup (Some id) (Some h))) as [-> ->];
      [cbn [bb_lookup_hash]; auto 12 with readonly|done|]. split; [done|constructor].
  - destruct (alloc_law w Ho) as (-> & -> & _). split; [done|constructor].
Qed.

(** ** Histories *)

(** Requests served one after the other. *)
Inductive history (strict : bool) (w : W) : W -> Prop :=
  | hi_nil : history strict w w
  | hi_snoc w' r : history strict w w' -> request_ok strict w' r -> history strict w (serve r w').

Lemma history_steps strict w w' :
  txn_open w = false -> history strict w w' ->
  txn_open w' = false /\ rtc (bstep strict) (committed w) (committed w').
Proof using All.
  intros Ho. induction 1 as [|w' r _ [Ho' IH] Hok]; [split; [done|constructor]|].
  destruct (serve_step strict r w' Ho' Hok). split; [done|]. by eapply rtc_r.
Qed.

Lemma history_ok w w' :
  txn_open w = false -> db_ok (committed w) -> history true w w' -> db_ok (committed w').
Proof using All.
  intros Ho Hd Hh. destruct (history_steps true w w' Ho Hh) as [_ Hs].
  clear -Hd Hs. induction Hs as [|d d1 d2 Hstep _ IH]; [done|]. by eapply IH, bstep_ok.
Qed.
End steps.
