(* ===== verification/BallotSql.v ===== *)
(** * BallotSql: the store behind the seam

    Models ballotbox/src/libballotbrain/db.c and txn.c, and [bb_alloc_id] of
    ballotbrain.c, down to the statements they send.  A statement is its meaning on
    the six tables; of a select's printed reply, the rows [db_row_count] lets the
    caller have ([reply_rows] of BallotDb).  The server end of a connection follows
    db/docs/c-daemon-integration.md: a statement outside a transaction commits by
    itself, a retry or an error aborts the transaction, closing rolls it back.
    [faults] says how each exchange to come goes; past its end they succeed. *)

From Stdlib Require Import String.
From stdpp Require Import options.
From S2P Require Import Prelude Text DbRows BallotTypes BallotDb.
#[local] Open Scope Z_scope.

(** ** Statements *)

Definition stmt (A : Type) : Type := bdb -> A * bdb.

Record table (R : Type) := mkTable { rows : bdb -> list R; set_rows : list R -> bdb -> bdb }.
Arguments rows {R} t d.
Arguments set_rows {R} t l d.

Definition election : table election_row := mkTable _ t_election
  (fun l d => mkDb l (t_option d) (t_eligible d) (t_ballot d) (t_owner d) (t_nonce d)).
Definition election_option : table option_row := mkTable _ t_option
  (fun l d => mkDb (t_election d) l (t_eligible d) (t_ballot d) (t_owner d) (t_nonce d)).
Definition election_eligible : table eligible_row := mkTable _ t_eligible
  (fun l d => mkDb (t_election d) (t_option d) l (t_ballot d) (t_owner d) (t_nonce d)).
Definition ballot : table ballot_row := mkTable _ t_ballot
  (fun l d => mkDb (t_election d) (t_option d) (t_eligible d) l (t_owner d) (t_nonce d)).
Definition ballot_owner : table owner_row := mkTable _ t_owner
  (fun l d => mkDb (t_election d) (t_option d) (t_eligible d) (t_ballot d) l (t_nonce d)).
Definition nonce : table nonce_row := mkTable _ t_nonce
  (fun l d => mkDb (t_election d) (t_option d) (t_eligible d) (t_ballot d) (t_owner d) l).

Definition insert_into {R} (t : table R) (r : R) : stmt unit := fun d => (tt, set_rows t (rows t d ++ [r]) d).
Definition delete_from {R} (t : table R) (P : R -> Prop) `{!forall r, Decision (P r)} : stmt unit :=
  fun d => (tt, set_rows t (filter (fun r => ~ P r) (rows t d)) d).
Definition select_from {R} (t : table R) (P : R -> Prop) `{!forall r, Decision (P r)} : stmt (list R) :=
  fun d => (filter P (rows t d), d).

(** [select max(seq) from election]: no row on an empty table. *)
Definition select_max_seq : stmt (option Z) := fun d =>
  (match er_seq <$> t_election d with [] => None | s :: l => Some (foldl Z.max s l) end, d).

(** What sends statements: a connection, or the tables themselves. *)
Class SqlConn (W : Type) := exec_stmt : forall A, stmt A -> M W A.
Arguments exec_stmt {W _ A} s.

(** ** The commands of db.c *)

Section commands.
Context {W : Type} `{!Runner, !SqlConn W}.

(** A select, and what can be read of its reply. *)
Definition query {R} (sql : list Z) (show : R -> list (list Z)) (s : stmt (list R)) : M W (option (list R)) :=
  found ← exec_stmt s; mret (reply_rows sql show found).

Fixpoint insert_options (id : list Z) (cfg : bb_config) (todo : list Z) : M W unit :=
  match todo with
  | [] => mret tt
  | i :: todo =>
      if unsafe (aget [] (cfg_options cfg) i) then fail BB_ERR_DB
      else _ ← exec_stmt (insert_into election_option (mkOptionRow id i (aget [] (cfg_options cfg) i)));
           insert_options id cfg todo
  end.

Fixpoint insert_eligible (id : list Z) (cfg : bb_config) (todo : list Z) : M W unit :=
  match todo with
  | [] => mret tt
  | i :: todo =>
      if unsafe (aget [] (cfg_eligible cfg) i) then fail BB_ERR_DB
      else _ ← exec_stmt (insert_into election_eligible (mkEligibleRow id (aget [] (cfg_eligible cfg) i)));
           insert_eligible id cfg todo
  end.

Definition run_insert_election (id : list Z) (cfg : bb_config) : M W bb_db_result :=
  if unsafe id || unsafe (cfg_title cfg) || unsafe (cfg_open_time cfg) || unsafe (cfg_close_time cfg)
  then fail BB_ERR_DB
  else
    _ ← exec_stmt (insert_into election (mkElectionRow (id_seq id) id (cfg_title cfg) (bytes "DRAFT")
                                           (cfg_open_time cfg) (cfg_close_time cfg)));
    _ ← insert_options id cfg (range (Z.min (cfg_option_count cfg) BB_MAX_OPTIONS));
    _ ← insert_eligible id cfg (range (Z.min (cfg_eligible_count cfg) BB_MAX_VOTERS));
    mret zero_result.

Definition run_get_election (id : list Z) : M W bb_db_result :=
  reply ← query (sql_election id) show_election (select_from election (fun r => er_id r = id));
  match reply with
  | None => fail BB_ERR_DB
  | Some [] => mret zero_result
  | Some (r :: _) =>
      match parse_state (trunc 16 (er_state r)) with
      | None => fail BB_ERR_DB
      | Some st =>
          oreply ← query (sql_options id) show_option (select_from election_option (fun r => op_election r = id));
          let orows := rows_or_none oreply in
          ereply ← query (sql_eligible id) show_eligible (select_from election_eligible (fun r => el_election r = id));
          let erows := rows_or_none ereply in
          mret (with_election (mkElection (trunc BB_ID_LEN (er_id r)) (trunc BB_TITLE_LEN (er_title r)) st
                  (fill_options orows) (count_to BB_MAX_OPTIONS orows)
                  (fill_eligible erows) (count_to BB_MAX_VOTERS erows)
                  (trunc BB_TIME_LEN (er_open r)) (trunc BB_TIME_LEN (er_close r))))
      end
  end.

Definition run_update_state (id : list Z) (new_state : bb_state) : M W bb_db_result :=
  reply ← query (sql_old_state id) show_old_state (select_from election (fun r => er_id r = id));
  match first_row reply with
  | None => fail BB_ERR_DB
  | Some r =>
      _ ← exec_stmt (delete_from election (fun r => er_id r = id));
      _ ← exec_stmt (insert_into election
                       (mkElectionRow (er_seq r) id (trunc BB_TITLE_LEN (er_title r)) (bb_state_str new_state)
                          (trunc BB_TIME_LEN (er_open r)) (trunc BB_TIME_LEN (er_close r))));
      mret zero_result
  end.

Definition run_append_ballot (id : list Z) (row : bb_ballot_hash) : M W bb_db_result :=
  _ ← exec_stmt (insert_into ballot (mkBallotRow id row)); mret zero_result.

Definition run_mark_superseded (id hash : list Z) : M W bb_db_result :=
  reply ← query (sql_old_ballot id hash) (show_old_ballot ∘ ba_hash)
            (select_from ballot (fun r => ba_election r = id /\ h_hash (ba_hash r) = hash));
  match first_row reply with
  | None => fail BB_ERR_DB
  | Some r =>
      _ ← exec_stmt (delete_from ballot (fun r => ba_election r = id /\ h_hash (ba_hash r) = hash));
      _ ← exec_stmt (insert_into ballot
                       (mkBallotRow id (mkRow hash (h_option_index (ba_hash r)) (h_version (ba_hash r)) 1)));
      mret zero_result
  end.

Definition run_nonce_mark (id n : list Z) : M W bb_db_result :=
  _ ← exec_stmt (insert_into nonce (mkNonceRow id n)); mret zero_result.

Definition run_set_owner (id cert hash : list Z) (version : Z) : M W bb_db_result :=
  _ ← exec_stmt (delete_from ballot_owner (fun r => ow_election r = id /\ ow_cert r = cert));
  _ ← exec_stmt (insert_into ballot_owner (mkOwnerRow id cert hash version));
  mret zero_result.

Definition run_get_tally (id : list Z) : M W bb_db_result :=
  reply ← query (sql_tally id) (show_tally ∘ ba_hash)
            (select_from ballot (fun r => ba_election r = id /\ h_superseded (ba_hash r) = 0));
  mret (with_tally (tally_rows (ba_hash <$> rows_or_none reply))).

Definition run_get_hashes (id : list Z) : M W bb_db_result :=
  reply ← query (sql_hashes id) (show_hash ∘ ba_hash)
            (select_from ballot (fun r => ba_election r = id /\ h_superseded (ba_hash r) = 0));
  mret (with_hashes (clip_row <$> take 64 (ba_hash <$> rows_or_none reply))).

Definition run_find_hash (id hash : list Z) : M W bb_db_result :=
  reply ← query (sql_find_hash id hash) (show_hash ∘ ba_hash) (select_from ballot
            (fun r => ba_election r = id /\ h_hash (ba_hash r) = hash /\ h_superseded (ba_hash r) = 0));
  match first_row reply with
  | None => mret zero_result
  | Some r => mret (with_row (clip_row (ba_hash r)))
  end.

Definition run_nonce_seen (id n : list Z) : M W bb_db_result :=
  reply ← query (sql_nonce id n) show_nonce (select_from nonce (fun r => no_election r = id /\ no_nonce r = n));
  mret (with_found (bool_decide (is_Some (first_row reply)))).

Definition run_get_prior_ballot (id cert : list Z) : M W bb_db_result :=
  reply ← query (sql_owner id cert) show_owner
            (select_from ballot_owner (fun r => ow_election r = id /\ ow_cert r = cert));
  match first_row reply with
  | None => mret zero_result
  | Some r => mret (with_row (mkRow (trunc BB_HASH_LEN (ow_hash r)) 0 (ow_version r) 0))
  end.

Definition run_op (cmd : bb_db_cmd) : M W bb_db_result :=
  match cmd with
  | BB_DB_INSERT_ELECTION id cfg => run_insert_election id cfg
  | BB_DB_UPDATE_STATE id st => run_update_state id st
  | BB_DB_APPEND_BALLOT id row => run_append_ballot id row
  | BB_DB_MARK_SUPERSEDED id h => run_mark_superseded id h
  | BB_DB_NONCE_MARK id n => run_nonce_mark id n
  | BB_DB_SET_OWNER id c h v => run_set_owner id c h v
  | BB_DB_GET_ELECTION id => run_get_election id
  | BB_DB_GET_TALLY id => run_get_tally id
  | BB_DB_GET_HASHES id => run_get_hashes id
  | BB_DB_FIND_HASH id h => run_find_hash id h
  | BB_DB_NONCE_SEEN id n => run_nonce_seen id n
  | BB_DB_GET_PRIOR_BALLOT id c => run_get_prior_ballot id c
  end.
End commands.

Definition op_is_write (cmd : bb_db_cmd) : bool :=
  match cmd with
  | BB_DB_INSERT_ELECTION _ _ | BB_DB_UPDATE_STATE _ _ | BB_DB_APPEND_BALLOT _ _
  | BB_DB_MARK_SUPERSEDED _ _ | BB_DB_NONCE_MARK _ _ | BB_DB_SET_OWNER _ _ _ _ => true
  | _ => false
  end.

(** ** Connections *)

(** How one exchange goes: it succeeds, the transaction lost a deadlock, the
    statement failed (with the transaction aborted, or not for a parse error), or
    the reply never came, whether or not the statement was carried out. *)
Inductive fault := FNone | FRetry | FError (aborted : bool) | FLost (carried_out : bool).

Record world := mkWorld {
  w_store : bdb;              (* what is committed *)
  w_txn : option bdb;         (* the server's transaction on the open connection *)
  w_stuck : bool;             (* db_socket's [failed]: nothing is sent any more *)
  w_conn : bool;              (* ctx->txn_conn != NULL *)
  w_faults : list fault
}.

Definition next_fault (w : world) : fault := default FNone (head (w_faults w)).

(** A new connection, or [None] when it cannot be opened. *)
Definition db_socket_open (w : world) : option unit * world :=
  let w' := mkWorld (w_store w) None false (w_conn w) (tail (w_faults w)) in
  match next_fault w with FNone => (Some tt, w') | _ => (None, w') end.

(** Closing rolls back what is open. *)
Definition db_socket_close (w : world) : world :=
  mkWorld (w_store w) None false (w_conn w) (w_faults w).

(** What the server does with a statement: within the transaction, or on its own. *)
Definition server_run {A} (s : stmt A) (w : world) : A * world :=
  match w_txn w with
  | Some d => let '(a, d') := s d in (a, mkWorld (w_store w) (Some d') (w_stuck w) (w_conn w) (w_faults w))
  | None => let '(a, d') := s (w_store w) in (a, mkWorld d' None (w_stuck w) (w_conn w) (w_faults w))
  end.

(** One exchange of [server], through [map_status]. *)
Definition exchange {A} (server : world -> bb_result (A * world)) (w : world) : bb_result A * world :=
  if w_stuck w then (BB_ERR BB_ERR_DB, w)
  else
    let w1 := mkWorld (w_store w) (w_txn w) false (w_conn w) (tail (w_faults w)) in
    let abort w := mkWorld (w_store w) None (w_stuck w) (w_conn w) (w_faults w) in
    let stick w := mkWorld (w_store w) (w_txn w) true (w_conn w) (w_faults w) in
    match next_fault w with
    | FNone => match server w1 with BB_OK (a, w') => (BB_OK a, w') | BB_ERR e => (BB_ERR e, w1) end
    | FRetry => (BB_ERR BB_ERR_RETRY, abort w1)
    | FError aborted => (BB_ERR BB_ERR_DB, if aborted then abort w1 else w1)
    | FLost done =>
        (BB_ERR BB_ERR_DB,
         stick (if done then match server w1 with BB_OK (_, w') => w' | BB_ERR _ => w1 end else w1))
    end.

#[global] Instance world_conn : SqlConn world := fun A s => exchange (fun w => BB_OK (server_run s w)).
#[global] Instance pure_conn : SqlConn bdb := fun A s d => let '(a, d') := s d in (BB_OK a, d').

(** [set transaction read write], [commit] and [rollback]. *)
Definition set_transaction : M world unit := exchange (fun w =>
  match w_txn w with
  | Some _ => BB_ERR BB_ERR_DB
  | None => BB_OK (tt, mkWorld (w_store w) (Some (w_store w)) (w_stuck w) (w_conn w) (w_faults w))
  end).

Definition commit : M world unit := exchange (fun w =>
  match w_txn w with
  | None => BB_ERR BB_ERR_DB
  | Some d => BB_OK (tt, mkWorld d None (w_stuck w) (w_conn w) (w_faults w))
  end).

Definition rollback : M world unit := exchange (fun w =>
  match w_txn w with
  | None => BB_ERR BB_ERR_DB
  | Some d => BB_OK (tt, mkWorld (w_store w) None (w_stuck w) (w_conn w) (w_faults w))
  end).

(** ** db_exec *)

Section exec.
Context `{!Runner}.

Definition one_shot_attempt (cmd : bb_db_cmd) (is_write : bool) : M world bb_db_result := fun w =>
  match db_socket_open w with
  | (None, w) => (BB_ERR BB_ERR_DB, w)
  | (Some _, w) =>
      let '(r, w) :=
        if is_write then
          match set_transaction w with
          | (BB_OK _, w) => run_op cmd w
          | (BB_ERR e, w) => (BB_ERR e, w)
          end
        else run_op cmd w in
      let '(r, w) :=
        if is_write then
          match r with
          | BB_OK a => match commit w with
                       | (BB_OK _, w) => (BB_OK a, w)
                       | (BB_ERR e, w) => (BB_ERR e, w)
                       end
          | BB_ERR BB_ERR_RETRY => (r, w)
          | BB_ERR _ => (r, (rollback w).2)
          end
        else (r, w) in
      (r, db_socket_close w)
  end.

Definition SELF_RETRY_ATTEMPTS : nat := 3.

Fixpoint self_retry (attempts : nat) (cmd : bb_db_cmd) (w : world) : bb_result bb_db_result * world :=
  match attempts with
  | O => (BB_ERR BB_ERR_DB, w)
  | S attempts =>
      match one_shot_attempt cmd (op_is_write cmd) w with
      | (BB_ERR BB_ERR_RETRY, w) => self_retry attempts cmd w
      | (r, w) => (r, w)
      end
  end.

#[global] Instance sql_exec : DbExec world := fun cmd w =>
  if w_conn w then run_op cmd w else self_retry SELF_RETRY_ATTEMPTS cmd w.
End exec.

(** ** txn.c *)

Definition set_conn (b : bool) (w : world) : world :=
  mkWorld (w_store w) (w_txn w) (w_stuck w) b (w_faults w).

Definition sql_begin : M world unit := fun w =>
  if w_conn w then (BB_ERR BB_ERR_DB, w)
  else
    match db_socket_open w with
    | (None, w) => (BB_ERR BB_ERR_DB, w)
    | (Some _, w) =>
        match set_transaction w with
        | (BB_ERR e, w) => (BB_ERR e, db_socket_close w)
        | (BB_OK _, w) => (BB_OK tt, set_conn true w)
        end
    end.

Definition sql_commit : M world unit := fun w =>
  if negb (w_conn w) then (BB_ERR BB_ERR_DB, w)
  else let '(r, w) := commit w in (r, set_conn false (db_socket_close w)).

Definition sql_rollback (w : world) : world :=
  if negb (w_conn w) then w else set_conn false (db_socket_close (rollback w).2).

#[global] Instance sql_txn : DbTxn world :=
  { bb_db_begin := sql_begin; bb_db_commit := sql_commit; bb_db_rollback := sql_rollback }.

(** ** bb_alloc_id *)

(** The next number: [next = (int)v + 1], wrapping at [INT_MAX]. *)
Definition next_seq (r : bb_result (option Z)) : Z :=
  match r with
  | BB_OK (Some v) => if 0 <=? v then to_int (to_int v + 1) else 100
  | _ => 100
  end.

#[global] Instance sql_alloc : IdAlloc world := fun w =>
  let '(next, w) :=
    match db_socket_open w with
    | (None, w) => (100, w)
    | (Some _, w) => let '(r, w) := exec_stmt select_max_seq w in (next_seq r, db_socket_close w)
    end in
  (trunc BB_ID_LEN (bytes "E-" ++ decimal_int next), w).
