(* ===== verification/BallotSqlLaws.v ===== *)
(** * BallotSqlLaws: db.c and txn.c keep the seam's laws

    First, command by command, the statements db.c sends compute what the command
    means.  Then the connection: inside a transaction statements act on the
    transaction only, and a failure at any of them leaves the committed tables as
    they were.  Together they make the real store an instance of [StoreLaws]. *)

From Stdlib Require Import String.
From stdpp Require Import options.
From S2P Require Import Prelude Text BallotTypes BallotDb Ballot BallotSim BallotInv BallotSql.
#[local] Open Scope Z_scope.

Section laws.
Context {RN : Runner}.

(** ** The statements of a command compute the command *)

Lemma bind_pure_ok {A B} (m : M bdb A) (f : A -> M bdb B) d a d' :
  m d = (BB_OK a, d') -> (m ≫= f) d = f a d'.
Proof. unfold mbind, M_bind. by intros ->. Qed.

Lemma insert_options_pure id cfg todo d :
  let new := (fun i => mkOptionRow id i (aget [] (cfg_options cfg) i)) <$> todo in
  if forallb (fun r => negb (unsafe (op_name r))) new
  then insert_options id cfg todo d =
       (BB_OK tt, mkDb (t_election d) (t_option d ++ new) (t_eligible d) (t_ballot d) (t_owner d) (t_nonce d))
  else (insert_options id cfg todo d).1 = BB_ERR BB_ERR_DB.
Proof.
  revert d. induction todo as [|i todo IH]; intros d;
    cbn [fmap list_fmap forallb op_name el_cert insert_options insert_eligible].
  { rewrite app_nil_r. by destruct d. }
  destruct (unsafe (aget _ _ i)); [done|]. cbn [negb andb]. unfold mbind, M_bind, exec_stmt, pure_conn.
  specialize (IH (insert_into election_option (mkOptionRow id i (aget [] (cfg_options cfg) i)) d).2).
  cbn in IH. cbn [rows set_rows election_option election_eligible insert_into].
  destruct (forallb _ _); [|done]. by rewrite <- app_assoc in IH.
Qed.

Lemma insert_eligible_pure id cfg todo d :
  let new := (fun i => mkEligibleRow id (aget [] (cfg_eligible cfg) i)) <$> todo in
  if forallb (fun r => negb (unsafe (el_cert r))) new
  then insert_eligible id cfg todo d =
       (BB_OK tt, mkDb (t_election d) (t_option d) (t_eligible d ++ new) (t_ballot d) (t_owner d) (t_nonce d))
  else (insert_eligible id cfg todo d).1 = BB_ERR BB_ERR_DB.
Proof.
  revert d. induction todo as [|i todo IH]; intros d;
    cbn [fmap list_fmap forallb op_name el_cert insert_options insert_eligible].
  { rewrite app_nil_r. by destruct d. }
  destruct (unsafe (aget _ _ i)); [done|]. cbn [negb andb]. unfold mbind, M_bind, exec_stmt, pure_conn.
  specialize (IH (insert_into election_eligible (mkEligibleRow id (aget [] (cfg_eligible cfg) i)) d).2).
  cbn in IH. cbn [rows set_rows election_option election_eligible insert_into].
  destruct (forallb _ _); [|done]. by rewrite <- app_assoc in IH.
Qed.

(** [run_op] agrees with the meaning of the command. *)
Definition computes (c : bb_db_cmd) : Prop := forall d,
  match cmd_run c d with
  | BB_OK (a, d') => run_op c d = (BB_OK a, d')
  | BB_ERR e => (run_op c d).1 = BB_ERR e
  end.

Lemma insert_computes id cfg : computes (BB_DB_INSERT_ELECTION id cfg).
Proof.
  intros d. cbn [cmd_run run_op]. unfold run_insert_election, config_safe.
  destruct (unsafe id || _ || _ || _); [done|]. cbn [negb andb].
  set (d1 := (insert_into election (mkElectionRow (id_seq id) id (cfg_title cfg) (bytes "DRAFT")
               (cfg_open_time cfg) (cfg_close_time cfg)) d).2).
  rewrite (bind_pure_ok _ _ d tt d1) by done.
  pose proof (insert_options_pure id cfg (range (Z.min (cfg_option_count cfg) BB_MAX_OPTIONS)) d1) as Ho. cbv zeta in Ho.
  fold (config_option_rows id cfg) in Ho.
  destruct (forallb _ (config_option_rows id cfg)) eqn:Ef; cbn [andb].
  2:{ unfold mbind, M_bind at 1. destruct (insert_options _ _ _ d1) as [[|e] d2]; simpl in Ho; [done|]. by injection Ho as ->. }
  rewrite (bind_pure_ok _ _ _ _ _ Ho). clear Ho.
  match goal with |- context [insert_eligible id cfg ?t] => pose proof (fun d => insert_eligible_pure id cfg t d) as Hl end.
  cbv zeta in Hl. fold (config_eligible_rows id cfg) in Hl.
  destruct (forallb _ (config_eligible_rows id cfg)) eqn:Eg.
  - rewrite (bind_pure_ok _ _ _ _ _ (Hl _)). done.
  - unfold mbind, M_bind at 1. match goal with |- context [insert_eligible id cfg _ ?dd] => specialize (Hl dd);
      destruct (insert_eligible id cfg _ dd) as [[|e] d2]; simpl in Hl; [done|] end. by injection Hl as ->.
Qed.

Lemma filter_fmap_hash (P : ballot_row -> Prop) (Q : bb_ballot_hash -> Prop)
    `{!forall r, Decision (P r), !forall r, Decision (Q r)} id (t : list ballot_row) :
  (forall r, P r <-> ba_election r = id /\ Q (ba_hash r)) ->
  ba_hash <$> filter P t = filter Q (ba_hash <$> filter (fun r => ba_election r = id) t).
Proof.
  intros HP. rewrite fmap_filter_key, list_filter_filter. f_equal. apply list_filter_iff. intros x. rewrite HP. tauto.
Qed.

Lemma find_rows d id h :
  ba_hash <$> filter (fun r => ba_election r = id /\ h_hash (ba_hash r) = h) (t_ballot d) =
  filter (fun r => h_hash r = h) (ballots_of d id).
Proof. by apply filter_fmap_hash. Qed.

Lemma live_rows d id :
  ba_hash <$> filter (fun r => ba_election r = id /\ h_superseded (ba_hash r) = 0) (t_ballot d) = live (ballots_of d id).
Proof. by apply filter_fmap_hash. Qed.

Lemma find_live_rows d id h :
  ba_hash <$> filter (fun r => ba_election r = id /\ h_hash (ba_hash r) = h /\ h_superseded (ba_hash r) = 0) (t_ballot d) =
  filter (fun r => h_hash r = h) (live (ballots_of d id)).
Proof.
  unfold live, ballots_of. rewrite list_filter_filter. apply filter_fmap_hash. tauto.
Qed.

(** A select on the tables alone, and its reply. *)
Lemma query_pure {R B} sql (show : R -> list (list Z)) (t : table R) (P : R -> Prop) `{!forall r, Decision (P r)}
    (f : option (list R) -> M bdb B) d :
  (query sql show (select_from t P) ≫= f) d = f (reply_rows sql show (filter P (rows t d))) d.
Proof. done. Qed.

Lemma run_op_computes c : computes c.
Proof.
  destruct c as [id cfg|id st|id row|id h|id n|id cert h v|id|id|id|id h|id n|id cert]; [apply insert_computes|..];
    intros d; cbn [cmd_run run_op].
  - unfold run_update_state, elections_of. rewrite query_pure. cbn [rows election]. by destruct (first_row _).
  - done.
  - unfold run_mark_superseded. rewrite query_pure. cbn [rows ballot]. rewrite <- find_rows, first_row_fmap.
    by destruct (first_row _).
  - done.
  - done.
  - unfold run_get_election, elections_of. rewrite query_pure. cbn [rows election].
    destruct (reply_rows _ _ _) as [[|r rest]|]; [done| |done]. by destruct (parse_state _).
  - unfold run_get_tally. rewrite query_pure. cbn [rows ballot]. rewrite <- live_rows, reply_rows_fmap.
    by destruct (reply_rows _ _ _).
  - unfold run_get_hashes. rewrite query_pure. cbn [rows ballot]. rewrite <- live_rows, reply_rows_fmap.
    by destruct (reply_rows _ _ _).
  - unfold run_find_hash. rewrite query_pure. cbn [rows ballot]. rewrite <- find_live_rows, first_row_fmap.
    by destruct (first_row _).
  - unfold run_nonce_seen. rewrite query_pure. done.
  - unfold run_get_prior_ballot, owner_of. rewrite query_pure. cbn [rows ballot_owner]. by destruct (first_row _).
Qed.

(** ** Statements on a connection *)

(** What no exchange of a connection in a transaction, or of one that only reads,
    touches. *)
Definition keeps (w w' : world) : Prop :=
  w_store w' = w_store w /\ w_conn w' = w_conn w /\ (w_faults w = [] -> w_faults w' = []).

Lemma keeps_refl w : keeps w w.
Proof. done. Qed.

Lemma keeps_trans w1 w2 w3 : keeps w1 w2 -> keeps w2 w3 -> keeps w1 w3.
Proof. unfold keeps. intros (? & ? & ?) (? & ? & ?). split_and!; [congruence|congruence|auto]. Qed.

Section follow.
(** What a live connection's statements act on: the transaction's tables, or, for
    reads outside one, the committed ones. *)
Context (sees : world -> bdb -> Prop).

Definition follows {A} (m : M world A) (p : M bdb A) : Prop :=
  forall w d, w_stuck w = false -> sees w d ->
  match m w with
  | (BB_OK a, w') => exists d', p d = (BB_OK a, d') /\ sees w' d' /\ w_stuck w' = false
  | (BB_ERR e, w') => store_fault e /\ (w_faults w = [] -> (p d).1 = BB_ERR e)
  end /\ keeps w (m w).2.

Lemma follows_ret {A} (a : A) : follows (mret a) (mret a).
Proof using Type. intros w d Hs Hd. split; [|apply keeps_refl]. simpl. eauto. Qed.

Lemma follows_fail {A} : follows (fail BB_ERR_DB : M world A) (fail BB_ERR_DB).
Proof using Type. intros w d Hs Hd. split; [|apply keeps_refl]. split; [by left|done]. Qed.

Lemma follows_if {A} (b : bool) (m1 m2 : M world A) p1 p2 :
  follows m1 p1 -> follows m2 p2 -> follows (if b then m1 else m2) (if b then p1 else p2).
Proof using Type. by destruct b. Qed.

Lemma follows_bind {A B} (m : M world A) p (f : A -> M world B) g :
  follows m p -> (forall a, follows (f a) (g a)) -> follows (m ≫= f) (p ≫= g).
Proof using Type.
  intros Hm Hf w d Hs Hd. unfold mbind, M_bind. destruct (Hm w d Hs Hd) as [Hr Hk].
  destruct (m w) as [[a|e] w1]; simpl in Hk.
  - destruct Hr as (d1 & -> & Hd1 & Hs1). destruct (Hf a w1 d1 Hs1 Hd1) as [Hr1 Hk1].
    split; [|by eapply keeps_trans]. destruct (f a w1) as [[b|e] w2]; [done|].
    destruct Hr1 as [He Hr1]. split; [done|]. intros Hw. apply Hr1, Hk, Hw.
  - split; [|done]. destruct Hr as [He Hr]. split; [done|]. intros Hw. specialize (Hr Hw).
    destruct (p d) as [[a|e'] d']; [done|]. by injection Hr as ->.
Qed.

Lemma follows_list {A B} (l : list A) (m0 : M world B) p0 (m1 : A -> M world B) p1 :
  follows m0 p0 -> (forall a, follows (m1 a) (p1 a)) ->
  follows (match l with [] => m0 | a :: _ => m1 a end) (match l with [] => p0 | a :: _ => p1 a end).
Proof using Type. by destruct l. Qed.
End follow.

Definition in_txn (w : world) (d : bdb) : Prop := w_txn w = Some d.
Definition committed_only (w : world) (d : bdb) : Prop := w_txn w = None /\ w_store w = d.

(** Go through what the next exchange can meet. *)
Ltac fault_cases w :=
  unfold next_fault; destruct (w_faults w) as [|f fs] eqn:?;
  [|destruct f as [| |[]|[]]]; cbn.

Lemma txn_stmt {A} (s : stmt A) : follows in_txn (exec_stmt s) (exec_stmt s).
Proof.
  intros w d Hs Hd. unfold exec_stmt, world_conn, pure_conn, exchange, server_run, in_txn in *.
  rewrite Hs. cbn [w_txn w_store w_conn w_faults w_stuck]. rewrite Hd. destruct (s d) as [a d'].
  fault_cases w; (split; [eauto 10 || (split; [unfold store_fault; auto|done])|unfold keeps; cbn; split_and!; (done || congruence)]).
Qed.

(** A statement that changes nothing. *)
Definition is_select {A} (s : stmt A) : Prop := forall d, (s d).2 = d.

Lemma read_stmt {A} (s : stmt A) : is_select s -> follows committed_only (exec_stmt s) (exec_stmt s).
Proof.
  intros Hsel w d Hs [Hn Hd]. unfold exec_stmt, world_conn, pure_conn, exchange, server_run, committed_only in *.
  rewrite Hs. cbn [w_txn w_store w_conn w_faults w_stuck]. rewrite Hn, Hd. specialize (Hsel d).
  destruct (s d) as [a d']. simpl in Hsel. subst d'.
  fault_cases w; (split; [eauto 10 || (split; [unfold store_fault; auto|done])|unfold keeps; cbn; split_and!; (done || congruence)]).
Qed.

(** ** Commands on a connection *)

Lemma follows_option {A B} sees (o : option B) (m0 : M world A) p0 m1 p1 :
  follows sees m0 p0 -> (forall st, follows sees (m1 st) (p1 st)) ->
  follows sees (match o with None => m0 | Some st => m1 st end) (match o with None => p0 | Some st => p1 st end).
Proof using Type. by destruct o. Qed.

Lemma follows_reply {A B} sees (o : option (list B)) (m0 m1 : M world A) p0 p1 m2 p2 :
  follows sees m0 p0 -> follows sees m1 p1 -> (forall r, follows sees (m2 r) (p2 r)) ->
  follows sees (match o with None => m0 | Some [] => m1 | Some (r :: _) => m2 r end)
    (match o with None => p0 | Some [] => p1 | Some (r :: _) => p2 r end).
Proof using Type. by destruct o as [[|]|]. Qed.

Ltac follow stmt_tac := unfold query; repeat first
  [ apply follows_bind; [|intros ?] | apply follows_if | apply follows_fail | apply follows_ret
  | apply follows_list; [|intros ?] | stmt_tac ].

Lemma txn_insert_options id cfg todo : follows in_txn (insert_options id cfg todo) (insert_options id cfg todo).
Proof. induction todo as [|i todo IH]; cbn [insert_options]; follow ltac:(first [exact IH|apply txn_stmt]). Qed.

Lemma txn_insert_eligible id cfg todo : follows in_txn (insert_eligible id cfg todo) (insert_eligible id cfg todo).
Proof. induction todo as [|i todo IH]; cbn [insert_eligible]; follow ltac:(first [exact IH|apply txn_stmt]). Qed.

Lemma txn_run_op c : follows in_txn (run_op c) (run_op c).
Proof.
  destruct c; cbn [run_op];
    unfold run_insert_election, run_update_state, run_append_ballot, run_mark_superseded, run_nonce_mark,
      run_set_owner, run_get_election, run_get_tally, run_get_hashes, run_find_hash, run_nonce_seen, run_get_prior_ballot;
    follow ltac:(first [apply txn_insert_options|apply txn_insert_eligible|apply txn_stmt
                       |apply follows_reply; [| |intros ?]|apply follows_option; [|intros ?]]).
Qed.

Lemma read_run_op c : op_is_write c = false -> follows committed_only (run_op c) (run_op c).
Proof.
  destruct c; try done; intros _; cbn [run_op];
    unfold run_get_election, run_get_tally, run_get_hashes, run_find_hash, run_nonce_seen, run_get_prior_ballot;
    follow ltac:(first [by apply read_stmt|apply follows_reply; [| |intros ?]|apply follows_option; [|intros ?]]).
Qed.

(** The command on a live connection, against its meaning. *)
Lemma run_op_conn sees c w d :
  follows sees (run_op c) (run_op c) -> w_stuck w = false -> sees w d ->
  match run_op c w with
  | (BB_OK a, w') => exists d', cmd_run c d = BB_OK (a, d') /\ sees w' d' /\ w_stuck w' = false
  | (BB_ERR e, w') => store_fault e /\ (w_faults w = [] -> cmd_run c d = BB_ERR e)
  end /\ keeps w (run_op c w).2.
Proof.
  intros Hf Hs Hd. destruct (Hf w d Hs Hd) as [Hr Hk]. split; [|done]. pose proof (run_op_computes c d) as Hc.
  destruct (run_op c w) as [[a|e] w'].
  - destruct Hr as (d' & Hr & ? & ?). exists d'. split_and!; try done.
    destruct (cmd_run c d) as [[a' d'']|e']; rewrite Hr in Hc; [|done]. by injection Hc as <- <-.
  - destruct Hr as [He Hr]. split; [done|]. intros Hw. specialize (Hr Hw).
    destruct (cmd_run c d) as [[a' d'']|e']; rewrite ?Hc in Hr; [done|congruence].
Qed.

(** ** One-shot commands *)

(** How an attempt on [d] can end. *)
Definition attempt_end (c : bb_db_cmd) (rel : bool) (d : bdb) (r : bb_result bb_db_result) (d' : bdb) : Prop :=
  match r with
  | BB_OK a => cmd_run c d = BB_OK (a, d')
  | BB_ERR e => store_fault e /\ (rel = true -> cmd_run c d = BB_ERR e) /\
      (d' = d \/ e = BB_ERR_DB /\ exists a, cmd_run c d = BB_OK (a, d'))
  end.

Definition fault_free (w : world) : bool := match w_faults w with [] => true | _ => false end.

Lemma fault_free_nil w : fault_free w = true <-> w_faults w = [].
Proof. unfold fault_free. by destruct (w_faults w). Qed.

(** An exchange that ends a transaction in hand, or starts one. *)
Lemma set_transaction_law w : w_stuck w = false -> w_txn w = None ->
  match set_transaction w with
  | (BB_OK _, w') => w_txn w' = Some (w_store w) /\ w_stuck w' = false
  | (BB_ERR e, w') => store_fault e /\ fault_free w = false
  end /\ keeps w (set_transaction w).2.
Proof.
  intros Hs Hn. unfold set_transaction, exchange, fault_free. rewrite Hs. cbn [w_txn w_store w_conn w_faults w_stuck]. rewrite Hn.
  fault_cases w; (split; [done || (split; [unfold store_fault; auto|done])|unfold keeps; cbn; split_and!; (done || congruence)]).
Qed.

Lemma commit_conn w d : w_stuck w = false -> w_txn w = Some d ->
  match commit w with
  | (BB_OK _, w') => w_store w' = d
  | (BB_ERR e, w') => store_fault e /\ fault_free w = false /\ (w_store w' = w_store w \/ e = BB_ERR_DB /\ w_store w' = d)
  end /\ w_conn (commit w).2 = w_conn w /\ (w_faults w = [] -> w_faults (commit w).2 = []).
Proof.
  intros Hs Hd. unfold commit, exchange, fault_free. rewrite Hs. cbn [w_txn w_store w_conn w_faults w_stuck]. rewrite Hd.
  fault_cases w; split_and!; unfold store_fault; auto; congruence.
Qed.

Lemma rollback_conn w : keeps w (rollback w).2.
Proof.
  unfold rollback, exchange, keeps. destruct (w_stuck w); [done|]. cbn [w_txn].
  destruct (w_txn w); fault_cases w; split_and!; (done || congruence).
Qed.

Lemma open_law w :
  let '(r, w') := db_socket_open w in
  keeps w w' /\ w_txn w' = None /\ w_stuck w' = false /\ (r = None -> fault_free w = false).
Proof.
  unfold db_socket_open, keeps, fault_free. fault_cases w; split_and!; (done || congruence).
Qed.

Lemma close_keeps w : keeps w (db_socket_close w).
Proof. done. Qed.

(** The last part of an attempt: commit what succeeded, roll back what failed. *)
Lemma finish_write c rel d r w :
  w_store w = d -> (rel = true -> w_faults w = []) ->
  match r with
  | BB_OK a => w_stuck w = false /\ exists d', w_txn w = Some d' /\ cmd_run c d = BB_OK (a, d')
  | BB_ERR e => store_fault e /\ (rel = true -> cmd_run c d = BB_ERR e)
  end ->
  let '(r', w') :=
    match r with
    | BB_OK a => match commit w with (BB_OK _, w) => (BB_OK a, w) | (BB_ERR e, w) => (BB_ERR e, w) end
    | BB_ERR BB_ERR_RETRY => (r, w)
    | BB_ERR _ => (r, (rollback w).2)
    end in
  attempt_end c rel d r' (w_store w') /\ w_conn w' = w_conn w /\ (rel = true -> w_faults w' = []).
Proof.
  intros Hst Hrel Hr. destruct r as [a|e].
  - destruct Hr as (Hs & d' & Ht & Hc). destruct (commit_conn w d' Hs Ht) as (Hk & Hconn & Hf).
    destruct (commit w) as [[[]|e] w']; simpl in *.
    + subst d'. split_and!; [done|done|auto].
    + destruct Hk as (He & Hff & Hc'). assert (rel = false) as ->.
      { apply not_true_is_false. intros Hr. apply Hrel, fault_free_nil in Hr. congruence. }
      split_and!; [done|done| |done|done]. destruct Hc' as [->|[-> ->]]; [by left|right; eauto].
  - destruct Hr as [He Hr]. assert (Hend : forall w', keeps w w' ->
      attempt_end c rel d (BB_ERR e) (w_store w') /\ w_conn w' = w_conn w /\ (rel = true -> w_faults w' = [])).
    { intros w' (Hs' & Hc' & Hf'). unfold attempt_end. split_and!; [done|done|left; congruence|done|auto]. }
    destruct e; apply Hend; first [apply keeps_refl|apply rollback_conn].
Qed.

Lemma attempt_law c w :
  w_conn w = false ->
  let '(r, w') := one_shot_attempt c (op_is_write c) w in
  attempt_end c (fault_free w) (w_store w) r (w_store w') /\ w_conn w' = false /\
  (fault_free w = true -> fault_free w' = true).
Proof.
  intros Hc. unfold one_shot_attempt. pose proof (open_law w) as Ho.
  destruct (db_socket_open w) as [[[]|] w1]; destruct Ho as ((Hst1 & Hc1 & Hf1) & Hn1 & Hs1 & Hno).
  2:{ rewrite Hno, Hst1, Hc1 by done. unfold attempt_end. split_and!; [by left|done|by left|done|done]. }
  assert (Hrel1 : fault_free w = true -> w_faults w1 = []) by (intros H%fault_free_nil; auto).
  rewrite <- Hst1. destruct (op_is_write c) eqn:Hw.
  - destruct (set_transaction_law w1 Hs1 Hn1) as [Hset (Hst2 & Hc2 & Hf2)].
    destruct (set_transaction w1) as [[[]|e] w2]; simpl in Hst2, Hc2, Hf2.
    + destruct Hset as [Ht2 Hs2]. destruct (run_op_conn in_txn c w2 _ (txn_run_op c) Hs2 Ht2) as [Hr (Hst3 & Hc3 & Hf3)].
      destruct (run_op c w2) as [r w3]; simpl in Hst3, Hc3, Hf3.
      pose proof (finish_write c (fault_free w) (w_store w1) r w3) as Hfin.
      match type of Hfin with _ -> _ -> _ -> let '(_, _) := ?m in _ => destruct m as [r' w4] end.
      destruct Hfin as (He & Hc4 & Hf4); [congruence|auto| |].
      { destruct r as [a|e]; [destruct Hr as (d' & ? & ? & ?); eauto|]. destruct Hr as [He Hr]. split; [done|auto]. }
      cbn [w_store w_conn w_faults db_socket_close]. split_and!; [done|congruence|].
      intros H%Hf4. by apply fault_free_nil.
    + destruct Hset as [He Hff]. assert (fault_free w = false) as ->.
      { apply not_true_is_false. intros H%Hrel1%fault_free_nil. congruence. }
      assert (Hend : forall w', keeps w2 w' -> attempt_end c false (w_store w1) (BB_ERR e) (w_store (db_socket_close w')) /\
        w_conn (db_socket_close w') = false /\ (false = true -> fault_free (db_socket_close w') = true)).
      { intros w' (Hs' & Hc' & _). unfold attempt_end. cbn. split_and!; [done|done|left; congruence|congruence|done]. }
      destruct e; apply Hend; first [apply keeps_refl|apply rollback_conn].
  - destruct (run_op_conn committed_only c w1 (w_store w1) (read_run_op c Hw) Hs1 (conj Hn1 eq_refl)) as [Hr (Hst3 & Hc3 & Hf3)].
    destruct (run_op c w1) as [r w3]; simpl in Hst3, Hc3, Hf3. cbn [w_store w_conn w_faults db_socket_close].
    split_and!; [|congruence|intros H; apply fault_free_nil; cbn; auto].
    destruct r as [a|e]; simpl.
    + destruct Hr as (d' & Hr & [_ Hd'] & _). congruence.
    + destruct Hr as [He Hr]. split_and!; [done|auto|by left].
Qed.

Lemma self_retry_law n c rel w :
  w_conn w = false -> (rel = true -> fault_free w = true /\ n <> O) ->
  let '(r, w') := self_retry n c w in
  attempt_end c rel (w_store w) r (w_store w') /\ r <> BB_ERR BB_ERR_RETRY /\
  w_conn w' = false /\ (rel = true -> fault_free w' = true).
Proof.
  revert rel w. induction n as [|n IH]; intros rel w Hc Hrel; cbn [self_retry].
  { destruct rel; [naive_solver|]. unfold attempt_end. split_and!; [by left|done|by left|done|done|done]. }
  pose proof (attempt_law c w Hc) as Ha. destruct (one_shot_attempt _ _ w) as [r w1].
  destruct Ha as (He & Hc1 & Hf1).
  assert (Hstop : r <> BB_ERR BB_ERR_RETRY -> attempt_end c rel (w_store w) r (w_store w1) /\
    r <> BB_ERR BB_ERR_RETRY /\ w_conn w1 = false /\ (rel = true -> fault_free w1 = true)).
  { intros Hne. split_and!; [|done|done|intros H; apply Hf1, Hrel, H].
    destruct r as [a|e]; [done|]. destruct He as (? & Hr & ?). split_and!; [done| |done].
    intros Hr'. apply Hr, Hrel, Hr'. }
  destruct r as [a|e]; [by apply Hstop|]. destruct e; try (apply Hstop; discriminate).
  destruct He as (_ & Hr & [Hst|[? _]]); [|done]. assert (rel = false) as ->.
  { apply not_true_is_false. intros H. apply Hrel in H as [H _]. apply Hr, cmd_run_error in H. done. }
  specialize (IH false w1 Hc1). rewrite Hst in IH. by apply IH.
Qed.

(** ** The instance *)

(** What the transaction open on the context sees, while its connection works. *)
Definition live_txn (w : world) : option bdb := if w_stuck w then None else w_txn w.

Lemma live_txn_inv w d : live_txn w = Some d -> w_stuck w = false /\ w_txn w = Some d.
Proof. unfold live_txn. by destruct (w_stuck w). Qed.

Lemma sql_begin_law w : w_conn w = false ->
  match sql_begin w with
  | (BB_OK _, w') => w_conn w' = true /\ live_txn w' = Some (w_store w) /\ w_store w' = w_store w
  | (BB_ERR e, w') => store_fault e /\ fault_free w = false /\ w_conn w' = false /\ w_store w' = w_store w
  end /\ (fault_free w = true -> fault_free (sql_begin w).2 = true).
Proof.
  intros Hc. unfold sql_begin. rewrite Hc. pose proof (open_law w) as Ho.
  destruct (db_socket_open w) as [[[]|] w1]; destruct Ho as ((Hst1 & Hc1 & Hf1) & Hn1 & Hs1 & Hno).
  2:{ rewrite Hno by done. split_and!; [by left|done|congruence|done|done]. }
  destruct (set_transaction_law w1 Hs1 Hn1) as [Hset (Hst2 & Hc2 & Hf2)].
  destruct (set_transaction w1) as [[[]|e] w2]; simpl in *.
  - destruct Hset as [Ht Hs]. split; [|rewrite !fault_free_nil; auto].
    unfold live_txn. cbn. rewrite Hs, Ht. split_and!; congruence.
  - destruct Hset as [He Hff]. split; [|rewrite !fault_free_nil; auto].
    split_and!; [done| |congruence|congruence]. apply not_true_is_false. intros H%fault_free_nil%Hf1%fault_free_nil. congruence.
Qed.

Lemma sql_commit_law w d : w_conn w = true -> live_txn w = Some d ->
  match sql_commit w with
  | (BB_OK _, w') => w_conn w' = false /\ w_store w' = d
  | (BB_ERR e, w') => store_fault e /\ fault_free w = false /\ w_conn w' = false /\
      (w_store w' = w_store w \/ e = BB_ERR_DB /\ w_store w' = d)
  end /\ (fault_free w = true -> fault_free (sql_commit w).2 = true).
Proof.
  intros Hc [Hs Ht]%live_txn_inv. unfold sql_commit. rewrite Hc. cbn [negb].
  destruct (commit_conn w d Hs Ht) as (Hk & Hconn & Hf). destruct (commit w) as [[[]|e] w']; simpl in *;
    (split; [|rewrite !fault_free_nil; auto]); [done|]. destruct Hk as (? & ? & ?). done.
Qed.

Lemma sql_txn_exec_law w c d : w_conn w = true -> live_txn w = Some d ->
  match sql_exec c w with
  | (BB_OK a, w') => exists d', cmd_run c d = BB_OK (a, d') /\ live_txn w' = Some d' /\
                       w_conn w' = true /\ w_store w' = w_store w
  | (BB_ERR e, w') => store_fault e /\ (fault_free w = true -> cmd_run c d = BB_ERR e) /\
                       w_conn w' = true /\ w_store w' = w_store w
  end /\ (fault_free w = true -> fault_free (sql_exec c w).2 = true).
Proof.
  intros Hc [Hs Ht]%live_txn_inv. unfold sql_exec. rewrite Hc.
  destruct (run_op_conn in_txn c w d (txn_run_op c) Hs Ht) as [Hr (Hst & Hcc & Hf)].
  split; [|rewrite !fault_free_nil; auto]. destruct (run_op c w) as [[a|e] w']; simpl in *.
  - destruct Hr as (d' & ? & Hd' & Hs'). exists d'. unfold live_txn. rewrite Hs'. split_and!; [done|done|congruence|done].
  - rewrite fault_free_nil. destruct Hr. split_and!; [done|done|congruence|done].
Qed.

Lemma sql_exec_law w c : w_conn w = false ->
  match sql_exec c w with
  | (BB_OK a, w') => cmd_run c (w_store w) = BB_OK (a, w_store w') /\ w_conn w' = false
  | (BB_ERR e, w') => e = BB_ERR_DB /\ (fault_free w = true -> cmd_run c (w_store w) = BB_ERR e) /\
      w_conn w' = false /\
      (w_store w' = w_store w \/ exists a, cmd_run c (w_store w) = BB_OK (a, w_store w'))
  end /\ (fault_free w = true -> fault_free (sql_exec c w).2 = true).
Proof.
  intros Hc. unfold sql_exec. rewrite Hc.
  pose proof (self_retry_law SELF_RETRY_ATTEMPTS c (fault_free w) w Hc) as Hr.
  destruct (self_retry _ c w) as [r w']. destruct Hr as (He & Hne & Hc' & Hf'); [done|]. split; [|done].
  destruct r as [a|e]; [done|]. destruct He as ([->| ->] & Hcmd & Hst); [|done]. split_and!; [done..|]. naive_solver.
Qed.

Lemma sql_rollback_law w : w_conn w = true ->
  w_conn (sql_rollback w) = false /\ w_store (sql_rollback w) = w_store w /\
  (fault_free w = true -> fault_free (sql_rollback w) = true).
Proof.
  intros Hc. unfold sql_rollback. rewrite Hc. cbn [negb]. destruct (rollback_conn w) as (Hst & _ & Hf).
  split_and!; [done|done|]. rewrite !fault_free_nil. done.
Qed.

Lemma sql_alloc_law w : w_conn w = false ->
  w_conn (bb_alloc_id w).2 = false /\ w_store (bb_alloc_id w).2 = w_store w /\
  (fault_free w = true -> fault_free (bb_alloc_id w).2 = true).
Proof.
  intros Hc. unfold bb_alloc_id, sql_alloc. pose proof (open_law w) as Ho.
  destruct (db_socket_open w) as [[[]|] w1]; destruct Ho as ((Hst1 & Hc1 & Hf1) & Hn1 & Hs1 & Hno).
  2:{ cbn. split_and!; [congruence|done|]. rewrite !fault_free_nil. done. }
  destruct (read_stmt select_max_seq ltac:(done) w1 (w_store w1) Hs1 (conj Hn1 eq_refl)) as [_ (Hst2 & Hc2 & Hf2)].
  destruct (exec_stmt select_max_seq w1) as [r w2]. simpl in *. split_and!; [congruence|congruence|].
  rewrite !fault_free_nil. cbn. auto.
Qed.

#[global] Instance sql_laws : StoreLaws world := {|
  committed := w_store;
  txn_open := w_conn;
  txn := live_txn;
  reliable := fault_free;
  begin_law := sql_begin_law;
  txn_exec_law := sql_txn_exec_law;
  exec_law := sql_exec_law;
  commit_law := sql_commit_law;
  rollback_law := sql_rollback_law;
  alloc_law := sql_alloc_law
|}.
End laws.
