(* ===== verification/BallotTheorems.v ===== *)
(** * BallotTheorems: what BallotBox guarantees

    The theorems about the handlers of ballotbox/src/libballotbrain, over any store
    that keeps the seam's laws, and their runs over the real one. *)

From Stdlib Require Import String.
From stdpp Require Import options.
From S2P Require Import Prelude Text BallotTypes BallotDb Ballot BallotSim BallotInv BallotSteps BallotSql BallotSqlLaws.
#[local] Open Scope Z_scope.

(** ** Tallies *)

Section pure.
Context {RN : Runner}.

Lemma length_tally rows : length (tally_rows rows) = 16%nat.
Proof.
  unfold tally_rows. generalize (replicate 16 0) as t, (length_replicate 16 0). induction rows as [|r rows IH]; intros t Ht; [done|].
  simpl. apply IH. case_match; [by rewrite length_aset|done].
Qed.

Definition chose (k : Z) (r : bb_ballot_hash) : Prop := h_option_index r = k.
#[global] Instance chose_dec k r : Decision (chose k r).
Proof. unfold chose. apply _. Defined.

(** Entry [k] counts the rows that chose [k]. *)
Lemma tally_count rows k : 0 <= k < 16 -> aget 0 (tally_rows rows) k = Z.of_nat (length (filter (chose k) rows)).
Proof.
  intros Hk. unfold tally_rows.
  enough (H : forall t, length t = 16%nat ->
    aget 0 (foldl (fun t r => if (0 <=? h_option_index r) && (h_option_index r <? BB_MAX_OPTIONS)
                    then aset t (h_option_index r) (aget 0 t (h_option_index r) + 1) else t) t rows) k =
    aget 0 t k + Z.of_nat (length (filter (chose k) rows))).
  { rewrite H by done. unfold aget. rewrite (proj2 (Z.ltb_ge _ _)), lookup_replicate_2 by lia. done. }
  induction rows as [|r rows IH]; intros t Ht; [simpl; lia|]. cbn [foldl]. rewrite filter_cons.
  destruct (decide (chose k r)) as [Hr|Hr]; unfold chose in Hr.
  - rewrite Hr, (proj2 (Z.leb_le 0 k)), (proj2 (Z.ltb_lt k BB_MAX_OPTIONS)) by (unfold BB_MAX_OPTIONS; lia). cbn [andb].
    rewrite IH by (by rewrite length_aset). rewrite aget_aset_eq by lia. cbn [length]. lia.
  - case_match; rewrite IH; rewrite ?length_aset, ?aget_aset_ne; done.
Qed.

(** A one-voter list of distinct eligible names is no longer than the list. *)
Lemma owners_bound d id : book_ok d id -> (length (owners_of d id) <= 64 `min` length (eligible_of d id))%nat.
Proof.
  intros Hb. rewrite <- (length_fmap ow_cert).
  etransitivity; [apply (submseteq_length _ (take 64 (trunc BB_CERT_LEN ∘ el_cert <$> eligible_of d id)))|].
  - apply NoDup_submseteq; [apply (bk_certs d id Hb)|]. intros c (o & -> & Ho)%list_elem_of_fmap.
    pose proof (bk_eligible d id Hb) as Hf. rewrite list.Forall_forall in Hf. by apply Hf.
  - rewrite length_take, length_fmap. done.
Qed.

Lemma live_length d id : book_ok d id -> length (live (ballots_of d id)) = length (owners_of d id).
Proof.
  intros Hb. pose proof (Permutation_length (bk_live d id Hb)) as Hl. by rewrite !length_fmap in Hl.
Qed.

(** ** The decision on a ballot *)

#[global] Instance on_list_dec d id cert : Decision (on_list d id cert).
Proof. unfold on_list. apply _. Defined.

(** Why a ballot is refused, if it is. *)
Definition refusal (d : bdb) (id : list Z) (b : bb_ballot) : option bb_err :=
  let i := trunc BB_ID_LEN id in
  match state_of d i with
  | None => Some BB_ERR_NOT_FOUND
  | Some BB_STATE_CLOSED | Some BB_STATE_PUBLISHED => Some BB_ERR_CLOSED
  | Some BB_STATE_DRAFT => Some BB_ERR_NOT_OPEN
  | Some BB_STATE_OPEN =>
      if decide (~ on_list d i (b_cert_name b)) then Some BB_ERR_NOT_ELIGIBLE
      else if decide (~ 0 <= ballot_choice b < count_to BB_MAX_OPTIONS (options_of d i)) then Some BB_ERR_BAD_OPTION
      else if nonce_seen d i (trunc BB_NONCE_LEN (b_nonce b)) then Some BB_ERR_REPLAY
      else None
  end.

Lemma readable_ok d i : book_ok d i -> election_readable d i.
Proof. intros Hb. apply election_reply_one, (bk_one d i Hb). Qed.

Lemma refusal_none d id b : book_ok d (trunc BB_ID_LEN id) -> refusal d id b = None -> accepts d id b.
Proof.
  intros Hread%readable_ok. unfold refusal, accepts, state_of. destruct (elections_of d (trunc BB_ID_LEN id)) as [|r rest]; [done|].
  destruct (parse_state (trunc 16 (er_state r))) as [[]|] eqn:Hst; try done.
  destruct (decide _) as [|Hel%dec_stable]; [done|]. destruct (decide _) as [|Hopt%dec_stable]; [done|].
  destruct (nonce_seen _ _ _) eqn:Hn; [done|]. intros _. split; [done|]. split; [eauto|]. by split.
Qed.

Lemma load_missing id d : elections_of d (trunc BB_ID_LEN id) = [] ->
  load_election (W := bdb) id d = (BB_ERR BB_ERR_NOT_FOUND, d).
Proof. intros He. unfold load_election, mbind, M_bind, db_exec, pure_exec. cbn [cmd_run]. by rewrite He, reply_rows_nil. Qed.

Lemma refusal_some d id b e :
  book_ok d (trunc BB_ID_LEN id) -> refusal d id b = Some e -> record_spec id b d = (BB_ERR e, d).
Proof.
  intros Hb. unfold refusal, state_of, record_spec, record_ballot_locked.
  destruct (elections_of d (trunc BB_ID_LEN id)) as [|r rest] eqn:He.
  { intros [= <-]. unfold mbind, M_bind. by rewrite load_missing. }
  pose proof (bk_state _ _ Hb) as Hst. rewrite He in Hst. apply Forall_cons in Hst as [[st Hst] _]. rewrite Hst.
  rewrite (bind_pure_ok _ _ _ _ _ (load_pure_found id d r rest st (readable_ok _ _ Hb) He Hst)). cbn [e_state make_election].
  destruct st; try (by intros [= <-]). rewrite !bool_decide_false by naive_solver. cbn [orb].
  destruct (bb_check_eligibility _ _) eqn:Hel.
  2:{ rewrite decide_True; [by intros [= <-]|]. intros Hon. by rewrite (proj2 (check_on_list _ _ _ _ _) Hon) in Hel. }
  apply check_on_list in Hel. rewrite decide_False by tauto. cbn [negb].
  rewrite (bind_pure_ok (lift (bb_decrypt_ballot b)) _ d (ballot_choice b) d) by done. cbn [e_option_count make_election].
  destruct (decide _) as [Hopt|Hopt%dec_stable].
  { intros [= <-]. destruct (_ || _) eqn:Hr; [done|]. exfalso. bool_arith. by apply Hopt. }
  rewrite (proj2 (Z.ltb_ge _ _)), (proj2 (Z.leb_gt _ _)) by lia. cbn [orb].
  destruct (nonce_seen _ _ _) eqn:Hn; [|done]. intros [= <-].
  unfold mbind, M_bind, db_exec, pure_exec. cbn [cmd_run]. by rewrite Hn.
Qed.

(** ** Single steps *)

Lemma update_state_of d id st a d' :
  cmd_run (BB_DB_UPDATE_STATE id st) d = BB_OK (a, d') -> state_of d' id = Some st.
Proof.
  intros ((r & Hr & Hs) & _)%update_elections. unfold state_of. by rewrite Hr, Hs, parse_state_str.
Qed.

(** The chain of states. *)
Definition lifecycle_edges : list (bb_state * bb_state) :=
  [(BB_STATE_DRAFT, BB_STATE_OPEN); (BB_STATE_OPEN, BB_STATE_CLOSED); (BB_STATE_CLOSED, BB_STATE_PUBLISHED)].

Lemma legal_edge from to : bb_is_legal_transition from to = true <-> (from, to) ∈ lifecycle_edges.
Proof. destruct from, to; split; intros E; try done; unfold lifecycle_edges in *; try set_solver. Qed.

(** A step moves an election along at most one legal edge, and touches its ballots
    only while it is open. *)
Lemma bstep_lifecycle d d' id st :
  bstep false d d' -> state_of d id = Some st ->
  (exists st', state_of d' id = Some st' /\ (st' = st \/ (st, st') ∈ lifecycle_edges)) /\
  (st <> BB_STATE_OPEN -> ballots_of d' id = ballots_of d id /\ owners_of d' id = owners_of d id).
Proof.
  intros Hstep Hst. assert (Hkeep : forall d'', elections_of d'' id = elections_of d id ->
    exists st', state_of d'' id = Some st' /\ (st' = st \/ (st, st') ∈ lifecycle_edges)).
  { intros d'' He. exists st. unfold state_of in *. rewrite He. auto. }
  destruct Hstep as [|j cfg a d' _ Hfree Hi|j from to a d' Hfrom Hlegal Hu|j b rc d' Hr _]; [eauto| | |].
  - destruct (insert_tables _ _ _ _ _ Hi) as (_ & Hne & Hb & Hw & _).
    assert (id <> j) by (intros ->; unfold state_of in Hst; by rewrite Hfree in Hst).
    split; [apply Hkeep; by apply Hne|]. intros _. unfold ballots_of, owners_of. by rewrite Hb, Hw.
  - destruct (update_elections _ _ _ _ _ Hu) as (_ & Hne & _ & _ & Hb & Hw & _).
    split; [|intros _; unfold ballots_of, owners_of; by rewrite Hb, Hw].
    destruct (decide (id = j)) as [->|Hj]; [|apply Hkeep; by apply Hne].
    exists to. split; [by eapply update_state_of|]. right. apply legal_edge. congruence.
  - destruct (record_inv _ _ _ _ _ Hr) as ((_ & (r & rest & He & Hopen) & _) & _ & prior & _ & ->).
    split; [by apply Hkeep|]. intros Hno. assert (id <> trunc BB_ID_LEN j).
    { intros ->. unfold state_of in Hst. rewrite He, Hopen in Hst. congruence. }
    by rewrite recorded_ballots_ne, recorded_owners_ne.
Qed.

Lemma nonce_seen_elem d i n : nonce_seen d i n = true -> mkNonceRow i n ∈ t_nonce d.
Proof.
  unfold nonce_seen. rewrite bool_decide_eq_true. intros [[i' n'] Hr]. apply first_row_elem in Hr.
  apply list_elem_of_filter in Hr as [[<- <-] Hr]. done.
Qed.

(** A nonce marked once is seen, unless it is empty. *)
Lemma nonce_marked d i n :
  n <> [] -> filter (fun r => no_election r = i /\ no_nonce r = n) (t_nonce d) = [mkNonceRow i n] ->
  nonce_seen d i n = true.
Proof.
  intros Hn Hf. unfold nonce_seen. rewrite Hf, (first_row_fit _ _ 170); [by rewrite bool_decide_true| |cbn [length]; lia].
  apply Forall_singleton, (string_shown no_nonce). done.
Qed.

(** A used nonce stays used. *)
Lemma bstep_nonce strict d d' i n : bstep strict d d' -> nonce_seen d i n = true -> nonce_seen d' i n = true.
Proof.
  intros Hstep Hseen. assert (Hkeep : forall d'', t_nonce d'' = t_nonce d -> nonce_seen d'' i n = true)
    by (intros d'' E; unfold nonce_seen in *; by rewrite E).
  destruct Hstep as [|j cfg a d1 _ _ Hi|j from to a d1 _ _ Hu|j b rc d1 Hr _]; [done| | |].
  - destruct (insert_tables _ _ _ _ _ Hi) as (_ & _ & _ & _ & E). by apply Hkeep.
  - destruct (update_elections _ _ _ _ _ Hu) as (_ & _ & _ & _ & _ & _ & E). by apply Hkeep.
  - destruct (record_inv _ _ _ _ _ Hr) as (Hacc & _ & prior & _ & ->). destruct Hacc as (_ & _ & _ & _ & Hno).
    unfold nonce_seen in *. cbn [t_nonce recorded]. rewrite filter_app_one, decide_False, app_nil_r; [done|].
    cbn [no_election no_nonce]. intros [<- <-]. congruence.
Qed.

(** ** Results *)

(** The copy loops of [fetch_results]. *)
Lemma copied_entries {A} (dflt : A) (f : Z -> A) (t : list A) n k :
  0 <= k < n -> n <= Z.of_nat (length t) ->
  aget dflt (foldl (fun t i => aset t i (f i)) t (range n)) k = f k.
Proof.
  intros Hk Hn.
  refine (proj2 (foldl_range_ind (fun m t' => length t' = length t /\ forall j, 0 <= j < m -> aget dflt t' j = f j)
    (fun t i => aset t i (f i)) t n _ _ _) k Hk); [lia|split; [done|lia]|].
  intros m t' Hm [Hl IH]. split; [by rewrite length_aset|]. intros j Hj.
  destruct (decide (j = m)) as [->|Hne]; [apply aget_aset_eq; lia|]. rewrite aget_aset_ne by lia. apply IH. lia.
Qed.

Lemma clip_row_id r : (length (h_hash r) < BB_HASH_LEN)%nat -> clip_row r = r.
Proof. intros Hl. unfold clip_row. rewrite trunc_id by done. by destruct r. Qed.

Lemma results_of d i e res d' id :
  i = trunc BB_ID_LEN id -> book_ok d i -> e_option_count e <= BB_MAX_OPTIONS ->
  fetch_results (W := bdb) id e d = (BB_OK res, d') ->
  d' = d /\ rs_option_count res = e_option_count e /\ rs_hashes res = live (ballots_of d i) /\
  forall k, 0 <= k < e_option_count e ->
    aget 0 (rs_tally res) k = Z.of_nat (length (filter (chose k) (live (ballots_of d i)))).
Proof.
  intros -> Hb Hmax. set (i := trunc BB_ID_LEN id). unfold fetch_results, mbind, M_bind, db_exec, pure_exec.
  assert (Hl : (length (live (ballots_of d i)) <= 64)%nat).
  { rewrite live_length by done. pose proof (owners_bound d i Hb). lia. }
  cbn [cmd_run]. fold i. rewrite !(reply_rows_fit _ _ 170) by (lia || (apply list.Forall_forall; auto)).
  cbn [rows_or_none default]. intros [= <- <-].
  cbn [rs_option_count rs_hashes rs_tally r_tally with_tally r_hashes with_hashes]. split_and!; [done..| |].
  - rewrite (take_ge (live _)) by done. rewrite take_ge by (by rewrite length_fmap).
    transitivity ((fun r => r) <$> live (ballots_of d i)); [|apply list_fmap_id]. apply list_fmap_ext. intros j r Hr. cbn.
    apply clip_row_id. pose proof (bk_len d i Hb) as Hf. rewrite list.Forall_forall in Hf. apply Hf.
    apply list_elem_of_lookup_2, list_elem_of_filter in Hr. tauto.
  - intros k Hk. unfold BB_MAX_OPTIONS in *. rewrite Z.min_l by lia. rewrite copied_entries; [|lia|simpl; lia].
    apply tally_count. lia.
Qed.

(** ** Receipts *)

Lemma filter_key_one {A K} `{EqDecision K} (f : A -> K) (l : list A) x :
  NoDup (f <$> l) -> x ∈ l -> filter (fun y => f y = f x) l = [x].
Proof.
  intros Hnd Hx. apply list_elem_of_split in Hx as (l1 & l2 & ->). rewrite fmap_app, fmap_cons in Hnd.
  apply NoDup_app in Hnd as (_ & H1 & [H2 _]%NoDup_cons). rewrite list.filter_app, filter_cons_True by done.
  rewrite !filter_none; [done| |]; intros y Hy E.
  - apply H2. rewrite <- E. apply list_elem_of_fmap. eauto.
  - apply (H1 (f y)); [apply list_elem_of_fmap; eauto|]. rewrite E. apply elem_of_cons. by left.
Qed.

Lemma live_NoDup d i : book_ok d i -> NoDup (h_hash <$> live (ballots_of d i)).
Proof. intros Hb. eapply sublist_NoDup; [apply (bk_hashes d i Hb)|apply fmap_sublist, sublist_filter]. Qed.

(** What looking up a hash finds, from the rows. *)
Lemma lookup_pure id h d r rest st :
  let i := trunc BB_ID_LEN id in
  book_ok d i -> elections_of d i = r :: rest -> parse_state (trunc 16 (er_state r)) = Some st -> (length h < BB_HASH_LEN)%nat ->
  bb_lookup_hash (W := bdb) (Some id) (Some h) d =
  match filter (fun row => h_hash row = h) (live (ballots_of d i)) with
  | [] => (BB_ERR BB_ERR_NOT_FOUND, d)
  | row :: _ =>
      let idx := h_option_index row in
      (BB_OK (clip_row row,
        if (0 <=? idx) && (idx <? count_to BB_MAX_OPTIONS (options_of d i))
        then trunc BB_OPTION_LEN (aget [] (fill_options (options_of d i)) idx) else []), d)
  end.
Proof.
  intros i Hb He Hst Hh. cbn [bb_lookup_hash].
  rewrite (bind_pure_ok _ _ _ _ _ (load_pure_found id d r rest st (readable_ok _ _ Hb) He Hst)).
  unfold mbind, M_bind, db_exec, pure_exec. cbn [cmd_run]. rewrite (trunc_id BB_HASH_LEN) by done. fold i.
  rewrite (first_row_fit _ _ 170); [by destruct (filter _ _)|apply list.Forall_forall; auto|].
  pose proof (filter_key_le h_hash _ h (live_NoDup d i Hb)). lia.
Qed.

(** The hash the voter's previous ballot went by. *)
Definition prior_hash (d : bdb) (id : list Z) (b : bb_ballot) : option (list Z) :=
  ow_hash <$> owner_of d (trunc BB_ID_LEN id) (trunc BB_CERT_LEN (b_cert_name b)).

End pure.

Section guarantees.
Context {W : Type} {RN : Runner} `{!DbExec W, !DbTxn W, !IdAlloc W, !StoreLaws W}.

(** C7: Ballots are recorded atomically. Whatever the store does (a lost connection, a
    deadlock at any statement, three in a row, a reply that never comes),
    [bb_record_ballot] ends with no transaction open and the committed tables either
    exactly as the handler run on them alone would leave them, or exactly as they
    were; BB_OK always means recorded, a refusal never changes anything, and only
    BB_ERR_DB can hide a ballot that was recorded (the reply to the commit was lost). *)
Theorem ballot_recorded_atomically id b w :
  txn_open w = false ->
  let '(r, w') := bb_record_ballot (Some id) (Some b) w in
  txn_open w' = false /\
  match r with
  | BB_OK rc => record_ballot_locked id b (committed w) = (BB_OK rc, committed w')
  | BB_ERR e =>
      committed w' = committed w /\
        ((record_ballot_locked id b (committed w)).1 = BB_ERR e \/ store_fault e /\ reliable w = false) \/
      e = BB_ERR_DB /\ reliable w = false /\
        exists rc, record_ballot_locked id b (committed w) = (BB_OK rc, committed w')
  end.
Proof using All.
  intros Ho. pose proof (record_outcome id b w Ho) as Hr. destruct (bb_record_ballot _ _ w) as [r w'].
  destruct Hr as (Ho' & _ & Hout). split; [done|]. destruct r as [rc|e]; [done|]. simpl in Hout.
  destruct Hout as [[? ?]|[(? & ? & ?)|?]]; auto.
Qed.

(** The decision on a ballot, with what is left in the store. *)
Lemma record_decides id b w :
  txn_open w = false -> reliable w = true -> db_ok (committed w) ->
  let '(r, w') := bb_record_ballot (Some id) (Some b) w in
  txn_open w' = false /\ reliable w' = true /\
  match refusal (committed w) id b with
  | Some e => r = BB_ERR e /\ committed w' = committed w
  | None =>
      let i := trunc BB_ID_LEN id in let o := owner_of (committed w) i (trunc BB_CERT_LEN (b_cert_name b)) in
      exists prior, prior_of (committed w) i (new_row b o) o = Some prior /\ accepts (committed w) id b /\
        r = BB_OK (mkReceipt (receipt_hash b (prior_version o)) (trunc BB_TIME_LEN (bytes "1970-01-01T00:00:00Z"))) /\
        committed w' = recorded (committed w) i (trunc BB_CERT_LEN (b_cert_name b)) (trunc BB_NONCE_LEN (b_nonce b)) (new_row b o) prior
  end.
Proof using All.
  intros Ho Hrel Hd. pose proof (record_outcome id b w Ho) as Hr. destruct (bb_record_ballot _ _ w) as [r w'].
  destruct Hr as (Ho' & Hr' & Hout). rewrite Hrel in Hout. split_and!; [done|by apply Hr'|].
  destruct (refusal (committed w) id b) as [e|] eqn:Href.
  - apply refusal_some in Href; [|apply Hd]. destruct r as [rc|e']; simpl in Hout; [congruence|].
    rewrite Href in Hout. naive_solver.
  - apply refusal_none in Href; [|apply Hd]. destruct (prior_found (committed w) (trunc BB_ID_LEN id) b (Hd _)) as [prior Hp].
    pose proof (record_pass id b (committed w) Href) as Hpass. cbv zeta in Hpass, Hp |- *. rewrite Hp in Hpass.
    exists prior. destruct r as [rc|e]; simpl in Hout; rewrite Hpass in Hout; [|naive_solver].
    injection Hout as <- <-. done.
Qed.

(** The decision on a ballot, on every branch.  Over a store in order that does
    not fail, a ballot is refused with the first of: no such election; closed or
    published; not open yet; not on the list; no such option; a used nonce; and
    then nothing changes.  Otherwise it is recorded and the voter gets the hash of
    its nonce and version. *)
Theorem ballot_decision id b w :
  txn_open w = false -> reliable w = true -> db_ok (committed w) ->
  let '(r, w') := bb_record_ballot (Some id) (Some b) w in
  match refusal (committed w) id b with
  | Some e => r = BB_ERR e /\ committed w' = committed w
  | None => exists rc, r = BB_OK rc /\ rc_hash rc =
      receipt_hash b (prior_version (owner_of (committed w) (trunc BB_ID_LEN id) (trunc BB_CERT_LEN (b_cert_name b))))
  end.
Proof using All.
  intros Ho Hrel Hd. pose proof (record_decides id b w Ho Hrel Hd) as Hr. destruct (bb_record_ballot _ _ w) as [r w'].
  destruct Hr as (_ & _ & Hr). destruct (refusal (committed w) id b) as [e|]; [done|].
  destruct Hr as (prior & _ & _ & -> & _). eauto.
Qed.

(** C12: One voter, one vote. After any history of requests on a new store, with any
    faults, as long as no two receipt hashes of an election collide and every
    automatically allocated election id is free - neither of which the code ensures:
    in every election each voter on record is on its list and recorded once, the live
    ballots are exactly the voters' current ones (hash and version), so at most one
    per eligible voter, and entry [k] of the tally counts the live ballots for [k]. *)
Theorem one_voter_one_vote w w' id :
  txn_open w = false -> committed w = empty_db -> history true w w' ->
  let d := committed w' in
  NoDup (ow_cert <$> owners_of d id) /\ Forall (fun o => on_list d id (ow_cert o)) (owners_of d id) /\
  ((fun r => (h_hash r, h_version r)) <$> live (ballots_of d id)) ≡ₚ
    ((fun o => (ow_hash o, ow_version o)) <$> owners_of d id) /\
  (length (live (ballots_of d id)) <= 64 `min` length (eligible_of d id))%nat /\
  forall k, 0 <= k < 16 ->
    aget 0 (tally_rows (live (ballots_of d id))) k = Z.of_nat (length (filter (chose k) (live (ballots_of d id)))).
Proof using All.
  intros Ho Hw Hh d. assert (Hd : db_ok d).
  { apply (history_ok w); [done| |done]. rewrite Hw. apply empty_db_ok. }
  split_and!; [apply (bk_certs _ _ (Hd id))|apply (bk_eligible _ _ (Hd id))|apply (bk_live _ _ (Hd id))| |].
  - rewrite live_length by apply Hd. apply owners_bound, Hd.
  - intros k Hk. by apply tally_count.
Qed.

(** C27: The lifecycle. No request, whatever fails in it, moves an election other than
    along DRAFT, OPEN, CLOSED, PUBLISHED by one step, or makes it disappear; and
    outside OPEN nobody's ballot changes: what was closed is what is counted. A
    request to create an election under an automatic id counts only if the id
    allocated is free, which the code does not ensure. *)
Theorem lifecycle_one_way r w id st :
  txn_open w = false -> request_ok false w r -> state_of (committed w) id = Some st ->
  (exists st', state_of (committed (serve r w)) id = Some st' /\
     (st' = st \/ (st, st') ∈ lifecycle_edges)) /\
  (st <> BB_STATE_OPEN ->
     ballots_of (committed (serve r w)) id = ballots_of (committed w) id /\
     owners_of (committed (serve r w)) id = owners_of (committed w) id).
Proof using All.
  intros Ho Hok. destruct (serve_step false r w Ho Hok) as [_ Hs]. by apply bstep_lifecycle.
Qed.

(** Anti-replay.  Once a ballot with a new nonce, not the empty one, was
    recorded, no ballot with that nonce is accepted in that election again, whatever happens in between and
    whoever submits it, and the attempt changes nothing. *)
Theorem nonce_used_once id b rc w w1 w2 b' :
  txn_open w = false -> bb_record_ballot (Some id) (Some b) w = (BB_OK rc, w1) ->
  b_nonce b <> [] -> mkNonceRow (trunc BB_ID_LEN id) (trunc BB_NONCE_LEN (b_nonce b)) ∉ t_nonce (committed w) ->
  history false w1 w2 -> b_nonce b' = b_nonce b ->
  let '(r, w3) := bb_record_ballot (Some id) (Some b') w2 in
  (exists e, r = BB_ERR e) /\ committed w3 = committed w2.
Proof using All.
  intros Ho Hb Hne Hnew Hh Hn. pose proof (record_outcome id b w Ho) as H1. rewrite Hb in H1. destruct H1 as (Ho1 & _ & H1).
  destruct (history_steps false w1 w2 Ho1 Hh) as [Ho2 Hs].
  assert (Hseen : nonce_seen (committed w2) (trunc BB_ID_LEN id) (trunc BB_NONCE_LEN (b_nonce b)) = true).
  { assert (H0 : nonce_seen (committed w1) (trunc BB_ID_LEN id) (trunc BB_NONCE_LEN (b_nonce b)) = true).
    - destruct (record_inv _ _ _ _ _ H1) as (_ & _ & prior & _ & ->). apply nonce_marked; [by destruct (b_nonce b)|].
      cbn [t_nonce recorded]. rewrite filter_app_one, decide_True by done. rewrite filter_none; [done|].
      intros [? ?] Hx [E1 E2]. cbn in E1, E2. by subst.
    - clear -Hs H0. induction Hs as [|d d1 d2 Hstep _ IH]; [done|]. by eapply IH, bstep_nonce. }
  pose proof (record_outcome id b' w2 Ho2) as H2. destruct (bb_record_ballot _ _ w2) as [r w3].
  destruct H2 as (_ & _ & H2). assert (Hno : forall rc' d', record_spec id b' (committed w2) <> (BB_OK rc', d')).
  { intros rc' d' (_ & _ & _ & _ & Hf)%record_gates. rewrite Hn in Hf. congruence. }
  destruct r as [rc'|e]; [by destruct (Hno _ _ H2)|]. split; [eauto|].
  destruct H2 as [[? _]|[(? & _)|(_ & _ & rc' & Hrc)]]; [done|done|]. by destruct (Hno _ _ Hrc).
Qed.

(** Results are gated.  A voter gets results only of a published election whose
    list they are on, and then entry [k] is the number of live ballots for option
    [k], beside the live rows themselves; reading changes nothing. *)
Theorem results_only_published id cert w res w' :
  txn_open w = false -> db_ok (committed w) ->
  bb_get_results (Some id) (Some cert) w = (BB_OK res, w') ->
  let i := trunc BB_ID_LEN id in let d := committed w in
  state_of d i = Some BB_STATE_PUBLISHED /\ on_list d i cert /\ committed w' = d /\
  rs_option_count res = count_to BB_MAX_OPTIONS (options_of d i) /\
  (forall k, 0 <= k < rs_option_count res ->
     aget 0 (rs_tally res) k = Z.of_nat (length (filter (chose k) (live (ballots_of d i))))) /\
  rs_hashes res = live (ballots_of d i).
Proof using All.
  intros Ho Hd Hres i d. pose proof (plain_results (Some id) (Some cert) w Ho) as Hp. rewrite Hres in Hp.
  destruct Hp as (_ & _ & Hp). simpl in Hp. fold d in Hp.
  apply bind_ok in Hp as (e & d1 & (-> & r & rest & st & He & Hst & ->)%load_pure & Hp). fold i in He, Hp.
  cbn [e_state make_election] in Hp. case_bool_decide as Hpub; [done|].
  destruct (bb_check_eligibility _ cert) eqn:Hel; [|done]. apply check_on_list in Hel.
  cbn [negb] in Hp. apply (results_of d i) in Hp as (Hsame & Hcount & Hhash & Htally); [|done|apply Hd|apply Z.le_min_r].
  split_and!; [|done|done|done| |done].
  - unfold state_of. by rewrite He, Hst, <- Hpub.
  - rewrite Hcount. done.
Qed.

(** Receipts.  Right after a ballot was recorded with a new receipt, looking
    that receipt up gives back the live ballot: the chosen option, its name and the
    version; and the voter's previous receipt, if there was one, no longer finds
    anything. *)
Theorem receipt_finds_ballot id b rc w w' :
  txn_open w = false -> db_ok (committed w) -> bb_record_ballot (Some id) (Some b) w = (BB_OK rc, w') ->
  fresh_receipt (committed w) id rc ->
  let d := committed w' in
  (exists row name, bb_lookup_hash (Some id) (Some (rc_hash rc)) d = (BB_OK (row, name), d) /\
     h_hash row = rc_hash rc /\ h_option_index row = ballot_choice b /\ h_superseded row = 0 /\
     name = trunc BB_OPTION_LEN (aget [] (fill_options (options_of d (trunc BB_ID_LEN id))) (ballot_choice b))) /\
  (forall h, prior_hash (committed w) id b = Some h ->
     bb_lookup_hash (Some id) (Some h) d = (BB_ERR BB_ERR_NOT_FOUND, d)).
Proof using All.
  intros Ho Hd Hrec Hfresh d. pose proof (record_outcome id b w Ho) as Hout. rewrite Hrec in Hout.
  destruct Hout as (_ & _ & Hspec). simpl in Hspec. fold d in Hspec.
  destruct (record_inv _ _ _ _ _ Hspec) as (Hacc & Hrc & prior & Hprior & Hdd). unfold fresh_receipt in Hfresh.
  rewrite Hrc in Hfresh. set (i := trunc BB_ID_LEN id) in *.
  pose proof (record_book_ok (committed w) id b (Hd i) Hacc Hfresh prior Hprior) as Hbk.
  fold i in Hbk. rewrite <- Hdd in Hbk.
  destruct (proj1 (proj2 Hacc)) as (r & rest & He & Hst). assert (Hed : elections_of d i = r :: rest) by (by rewrite Hdd).
  set (o := owner_of (committed w) i (trunc BB_CERT_LEN (b_cert_name b))) in *.
  assert (Hlen : (length (h_hash (new_row b o)) < BB_HASH_LEN)%nat)
    by (by apply (new_hash_length (committed w) id b (Hd i) Hacc Hfresh prior Hprior)).
  split.
  - rewrite Hrc, (lookup_pure id _ d r rest _ Hbk Hed Hst Hlen).
    rewrite (filter_key_one h_hash _ (new_row b o)); [|by apply live_NoDup|].
    2:{ rewrite Hdd. by apply (new_row_live (committed w) id b (Hd i) Hacc Hfresh prior Hprior). }
    cbv zeta. rewrite clip_row_id by done. eexists _, _. split; [reflexivity|]. cbn [new_row h_hash h_option_index h_superseded].
    split_and!; try done. destruct Hacc as (_ & _ & _ & Hopt & _). fold i in Hopt |- *.
    assert (Ho' : options_of d i = options_of (committed w) i) by (by rewrite Hdd). rewrite Ho'.
    rewrite (proj2 (Z.leb_le _ _)), (proj2 (Z.ltb_lt _ _)) by apply Hopt. done.
  - intros h (ow & How & ->)%fmap_Some. fold i o in How.
    destruct (owner_of_some _ _ _ _ How) as [Hin _]. destruct (owner_live _ _ (Hd i) ow Hin) as (_ & _ & _ & _ & Hl).
    rewrite (lookup_pure id _ d r rest _ Hbk Hed Hst Hl). rewrite filter_none; [done|].
    intros x Hx. rewrite Hdd in Hx. by apply (prior_not_live (committed w) id b (Hd i) Hacc Hfresh prior Hprior ow).
Qed.
End guarantees.

(** ** Runs over the real store *)

Lemma some_preface (sql : list Z) : (300 <= 4096)%nat.
Proof. apply Nat.leb_le. vm_compute. reflexivity. Qed.

(** A runner whose replies open with 300 bytes. *)
Definition some_runner : Runner := {| preface := fun _ => 300%nat; preface_small := some_preface |}.
#[local] Existing Instance some_runner.

Definition lunch : bb_config :=
  mkConfig (bytes "Lunch") [bytes "tea"; bytes "soup"] 2 [bytes "alice"; bytes "bob"] 2 (bytes "09:00") (bytes "12:00").
Definition E7 : list Z := bytes "E-7".
Definition vote (who n : string) (choice : Z) : bb_ballot := mkBallot (bytes who) (bytes n) [choice] 1.

Definition new_world : world := mkWorld empty_db None false false [].
Definition with_faults (fs : list fault) (w : world) : world :=
  mkWorld (w_store w) (w_txn w) (w_stuck w) (w_conn w) fs.

Definition w_created : world := serve (RCreate lunch (Some E7)) new_world.
Definition w_open : world := serve (RTransition E7 BB_STATE_OPEN) w_created.
Definition w_voted : world := serve (RBallot E7 (vote "alice" "n1" 1)) w_open.
Definition w_closed : world := serve (RTransition E7 BB_STATE_CLOSED) w_voted.
Definition w_published : world := serve (RPublish E7) w_closed.

Lemma open_no_ballots : ballots_of (committed w_open) (trunc BB_ID_LEN E7) = [].
Proof. vm_compute. reflexivity. Qed.

Lemma open_fresh rc : fresh_receipt (committed w_open) E7 rc.
Proof. unfold fresh_receipt. rewrite open_no_ballots. apply not_elem_of_nil. Qed.

Lemma history_open : history true new_world w_open.
Proof. apply hi_snoc; [apply hi_snoc; [constructor|]|]; [intros ?; discriminate|exact I]. Qed.

Lemma history_voted : history true new_world w_voted.
Proof. apply hi_snoc; [exact history_open|]. intros _ rc d' _. apply open_fresh. Qed.

Lemma history_published : history true new_world w_published.
Proof. apply hi_snoc; [apply hi_snoc; [exact history_voted|exact I]|exact I]. Qed.

Lemma open_ok : db_ok (committed w_open).
Proof. apply (history_ok new_world w_open); [reflexivity|exact empty_db_ok|exact history_open]. Qed.

Lemma published_ok : db_ok (committed w_published).
Proof. apply (history_ok new_world w_published); [reflexivity|exact empty_db_ok|exact history_published]. Qed.

Lemma ballot_recorded_atomically_witness :
  txn_open (bb_record_ballot (Some E7) (Some (vote "alice" "n1" 1))
              (with_faults [FNone; FNone; FNone; FNone; FNone; FRetry] w_open)).2 = false.
Proof.
  pose proof (ballot_recorded_atomically E7 (vote "alice" "n1" 1)
    (with_faults [FNone; FNone; FNone; FNone; FNone; FRetry] w_open) eq_refl) as H.
  destruct (bb_record_ballot _ _ _) as [r w']. apply H.
Defined.

Lemma ballot_decision_witness :
  let '(r, w') := bb_record_ballot (Some E7) (Some (vote "carol" "n1" 1)) w_open in
  r = BB_ERR BB_ERR_NOT_ELIGIBLE /\ committed w' = committed w_open.
Proof.
  pose proof (ballot_decision E7 (vote "carol" "n1" 1) w_open eq_refl eq_refl open_ok) as H.
  destruct (bb_record_ballot _ _ _) as [r w'].
  assert (E : refusal (committed w_open) E7 (vote "carol" "n1" 1) = Some BB_ERR_NOT_ELIGIBLE) by (vm_compute; reflexivity).
  rewrite E in H. exact H.
Defined.

Lemma one_voter_one_vote_witness :
  length (live (ballots_of (committed w_voted) E7)) = 1%nat /\
  (length (live (ballots_of (committed w_voted) E7)) <= 64 `min` length (eligible_of (committed w_voted) E7))%nat.
Proof.
  split; [vm_compute; reflexivity|].
  apply (one_voter_one_vote new_world w_voted E7); [reflexivity|reflexivity|exact history_voted].
Defined.

Lemma lifecycle_one_way_witness :
  state_of (committed w_open) E7 = Some BB_STATE_OPEN /\
  exists st', state_of (committed (serve (RTransition E7 BB_STATE_CLOSED) w_open)) E7 = Some st' /\
    (st' = BB_STATE_OPEN \/ (BB_STATE_OPEN, st') ∈ lifecycle_edges).
Proof.
  assert (E : state_of (committed w_open) E7 = Some BB_STATE_OPEN) by (vm_compute; reflexivity). split; [exact E|].
  apply (lifecycle_one_way (RTransition E7 BB_STATE_CLOSED) w_open E7 BB_STATE_OPEN); [reflexivity|exact I|exact E].
Defined.

Definition alice_run : bb_result bb_receipt * world := bb_record_ballot (Some E7) (Some (vote "alice" "n1" 1)) w_open.

Lemma alice_recorded : exists rc, alice_run = (BB_OK rc, w_voted).
Proof.
  assert (H : (if alice_run.1 is BB_OK _ then true else false) = true) by (vm_compute; reflexivity).
  unfold w_voted, serve. fold alice_run. destruct alice_run as [[rc|e] w]; [eauto|discriminate].
Qed.

Lemma nonce_used_once_witness :
  exists e, (bb_record_ballot (Some E7) (Some (vote "bob" "n1" 0)) w_voted).1 = BB_ERR e.
Proof.
  destruct alice_recorded as [rc Hrc].
  pose proof (nonce_used_once E7 (vote "alice" "n1" 1) rc w_open w_voted w_voted (vote "bob" "n1" 0)
    eq_refl Hrc ltac:(discriminate) ltac:(apply not_elem_of_nil) (hi_nil false w_voted) eq_refl) as H.
  destruct (bb_record_ballot _ _ w_voted) as [r w']. apply H.
Defined.

Lemma results_only_published_witness :
  exists res w', bb_get_results (Some E7) (Some (bytes "bob")) w_published = (BB_OK res, w') /\
    aget 0 (rs_tally res) 1 = 1.
Proof.
  assert (Hok : (if (bb_get_results (Some E7) (Some (bytes "bob")) w_published).1 is BB_OK _ then true else false) = true)
    by (vm_compute; reflexivity).
  destruct (bb_get_results (Some E7) (Some (bytes "bob")) w_published) as [[res|e] w'] eqn:E; [|discriminate].
  exists res, w'. split; [reflexivity|].
  destruct (results_only_published E7 (bytes "bob") w_published res w') as (_ & _ & _ & Hc & Ht & _);
    [reflexivity|exact published_ok|exact E|].
  rewrite Ht; [vm_compute; reflexivity|]. rewrite Hc. vm_compute. split; [discriminate|reflexivity].
Defined.

Lemma receipt_finds_ballot_witness :
  exists rc row name, bb_lookup_hash (W := bdb) (Some E7) (Some (rc_hash rc)) (committed w_voted) =
    (BB_OK (row, name), committed w_voted) /\ h_option_index row = 1.
Proof.
  destruct alice_recorded as [rc Hrc].
  destruct (receipt_finds_ballot E7 (vote "alice" "n1" 1) rc w_open w_voted)
    as [(row & name & Hl & _ & Hi & _) _]; [reflexivity|exact open_ok|exact Hrc|exact (open_fresh rc)|].
  exists rc, row, name. split; [exact Hl|exact Hi].
Defined.

(** ** The store itself, and what goes wrong *)

(** C29: Commands on their own. Outside a transaction every command of db.c, over up to
    three attempts on fresh connections, either does what the command means (on all
    its tables at once, even the several statements of a new election or a changed
    state) or leaves the committed tables alone; it never reports a retry, and only a
    lost reply to the commit can leave it done but reported BB_ERR_DB. What a command
    that reads means is what can be read of the printed reply: a row that prints as an
    empty line and a reply over 16383 bytes are not read. *)
Theorem commands_are_atomic {RN : Runner} w c :
  w_conn w = false ->
  let '(r, w') := db_exec c w in
  w_conn w' = false /\
  match r with
  | BB_OK a => cmd_run c (w_store w) = BB_OK (a, w_store w')
  | BB_ERR e => e = BB_ERR_DB /\
      (w_store w' = w_store w \/ exists a, cmd_run c (w_store w) = BB_OK (a, w_store w')) /\
      (w_faults w = [] -> cmd_run c (w_store w) = BB_ERR e)
  end.
Proof.
  intros Hc. destruct (sql_exec_law w c Hc) as [Hl _]. unfold db_exec.
  destruct (sql_exec c w) as [[a|e] w']; [naive_solver|]. destruct Hl as (-> & Hrel & Hc' & Hst).
  rewrite fault_free_nil in Hrel. done.
Qed.

Lemma commands_are_atomic_witness :
  let w := with_faults [FNone; FNone; FNone; FLost true] w_created in
  w_conn w = false /\ w_conn (db_exec (BB_DB_UPDATE_STATE E7 BB_STATE_OPEN) w).2 = false.
Proof.
  intros w. split; [reflexivity|]. pose proof (commands_are_atomic w (BB_DB_UPDATE_STATE E7 BB_STATE_OPEN) eq_refl) as H.
  destruct (db_exec _ w) as [r w']. apply H.
Defined.

(** A deadlock when the transaction starts, and one in each of three attempts. *)
Definition retry_at_begin : world := with_faults [FNone; FRetry] w_open.
Definition retry_thrice : world :=
  with_faults [FNone; FNone; FRetry; FNone; FNone; FNone; FRetry; FNone; FNone; FNone; FRetry] w_open.

(** The retry code escapes.  [bb_record_ballot] gives its caller BB_ERR_RETRY
    when the transaction's first exchange loses a deadlock (which it does not
    retry) and when its three attempts all do, although that code is documented
    never to leave the library. *)
Theorem retry_escapes :
  (bb_record_ballot (Some E7) (Some (vote "alice" "n1" 1)) retry_at_begin).1 = BB_ERR BB_ERR_RETRY /\
  (bb_record_ballot (Some E7) (Some (vote "alice" "n1" 1)) retry_thrice).1 = BB_ERR BB_ERR_RETRY.
Proof. split; vm_compute; reflexivity. Qed.

(** Alice and Bob vote with nonces the placeholder hash maps to one value, then
    Alice changes her vote. *)
Definition w_collide : world :=
  serve (RBallot E7 (vote "bob" "bA" 0)) (serve (RBallot E7 (vote "alice" "ab" 1)) w_open).
Definition w_dropped : world := serve (RBallot E7 (vote "alice" "cc" 1)) w_collide.

(** A receipt collision drops a vote.  Two nonces the hash does not tell apart
    give two voters one receipt; when the first then updates, both rows under that
    hash are superseded, and the second voter, still on record as having voted, no
    longer counts. *)
Theorem collision_drops_a_vote :
  length (live (ballots_of (committed w_collide) E7)) = 2%nat /\
  length (owners_of (committed w_dropped) E7) = 2%nat /\
  tally_rows (live (ballots_of (committed w_dropped) E7)) = [0; 1] ++ replicate 14 0.
Proof. split_and!; vm_compute; reflexivity. Qed.

(** An election with the first automatic id, and one with the largest number. *)
Definition w_first : world := serve (RCreate lunch None) new_world.
Definition w_last : world := serve (RCreate lunch (Some (bytes "E-2147483647"))) new_world.

(** Automatic ids repeat.  When the query for the largest number fails in any
    way, a deadlock included, the id falls back to E-100 without a look at the
    table, and creation succeeds with the id of an existing election; and once an
    election is called E-2147483647, every automatic id is the same one. *)
Theorem allocated_id_taken :
  let again := bb_create_election (Some lunch) None (with_faults [FNone; FRetry] w_first) in
  let one := bb_create_election (Some lunch) None w_last in
  let two := bb_create_election (Some lunch) None one.2 in
  again.1 = BB_OK (bytes "E-100") /\ length (elections_of (committed again.2) (bytes "E-100")) = 2%nat /\
  one.1 = BB_OK (bytes "E--2147483648") /\ two.1 = BB_OK (bytes "E--2147483648").
Proof. split_and!; vm_compute; reflexivity. Qed.

(** A row that prints nothing is not read.  The empty nonce is marked, but its row
    prints as the blank line under the rows, so it never counts as seen and any
    number of ballots may carry it; and one empty name among the eligible ones makes
    the whole list unreadable, so nobody may vote. *)
Theorem blank_rows_are_lost :
  let first := bb_record_ballot (Some E7) (Some (vote "alice" "" 1)) w_open in
  let again := bb_record_ballot (Some E7) (Some (vote "bob" "" 0)) first.2 in
  let guests := mkConfig (bytes "Guests") [bytes "tea"; bytes "soup"] 2 [bytes "alice"; []] 2 (bytes "09:00") (bytes "12:00") in
  let listed := serve (RTransition E7 BB_STATE_OPEN) (serve (RCreate guests (Some E7)) new_world) in
  (exists rc1 rc2, first.1 = BB_OK rc1 /\ again.1 = BB_OK rc2) /\
  mkNonceRow E7 [] ∈ t_nonce (committed first.2) /\ nonce_seen (committed first.2) E7 [] = false /\
  length (t_eligible (committed listed)) = 2%nat /\ eligible_of (committed listed) E7 = [] /\
  (bb_join (Some E7) (Some (bytes "alice")) true listed).1 = BB_ERR BB_ERR_NOT_ELIGIBLE.
Proof.
  cbv zeta. split_and!; [eexists _, _; split; vm_compute; reflexivity| |vm_compute; reflexivity..].
  match goal with |- _ ∈ ?t => assert (E : t = [mkNonceRow E7 []]) by (vm_compute; reflexivity); rewrite E end.
  by apply list_elem_of_singleton.
Qed.
