(* ===== verification/Codec.v ===== *)
(** * Codec: BallotBox's requests and responses on the wire

    Models ballotbox/src/libballotclient/codec.c over libhtttp, and the message
    structs of ballotbox/include/libballotclient/client.h.  A fixed array is the list
    of its entries, a failed call is [None] (what it leaves in the caller's struct is
    not modelled: every caller drops it).  The daemon's clock is the [date] argument
    of the response serializer. *)

From Stdlib Require Import String.
From stdpp Require Import options.
From S2P Require Import Prelude Text Htttp BallotTypes BallotDb.
#[local] Open Scope Z_scope.

(** ** client.h *)

Inductive bcl_op :=
  | BCL_JOIN | BCL_CAST | BCL_UPDATE | BCL_RESULTS | BCL_CHECK | BCL_CREATE | BCL_OPEN | BCL_CLOSE
  | BCL_PUBLISH | BCL_ADMIN_RESULTS | BCL_ADMIN_CHECK | BCL_ADMIN_NEXT_ID.

#[global] Instance bcl_op_eq_dec : EqDecision bcl_op.
Proof. solve_decision. Defined.

(** A value of [bb_result_t]: [BB_OK] or an error, without what came with it. *)
Definition bb_code : Type := bb_result unit.

#[global] Instance bb_code_eq_dec : EqDecision bb_code.
Proof. unfold bb_code. solve_decision. Defined.

Record bcl_request := mkBclRequest {
  q_op : bcl_op;
  q_cert_name : list Z;
  q_election_id : list Z;
  q_ballot : bb_ballot;
  q_hash : list Z;
  q_config : bb_config
}.

Record bcl_response := mkBclResponse {
  p_status : bb_code;
  p_election : bb_election;
  p_has_prior_ballot : Z;
  p_prior_ballot_version : Z;
  p_receipt : bb_receipt;
  p_tally : list Z;
  p_option_count : Z;
  p_options : list (list Z);
  p_hashes : list bb_ballot_hash;
  p_hash_count : Z;
  p_found : Z;
  p_found_option : Z;
  p_found_option_name : list Z
}.

(** [memset(.., 0, ..)]. *)
Definition BB_CIPHERTEXT_MAX : nat := 256.
Definition zero_ballot : bb_ballot := mkBallot [] [] (replicate BB_CIPHERTEXT_MAX 0) 0.
Definition zero_config : bb_config := mkConfig [] (replicate 16 []) 0 (replicate 64 []) 0 [] [].
Definition zero_request (op : bcl_op) : bcl_request := mkBclRequest op [] [] zero_ballot [] zero_config.
Definition zero_response : bcl_response :=
  mkBclResponse (BB_OK tt) zero_election 0 0 (mkReceipt [] []) (replicate 16 0) 0 (replicate 16 [])
    (replicate 64 zero_row) 0 0 0 [].

(** ** op and method name *)

Definition OP_NAMES : list (bcl_op * list Z) :=
  [(BCL_JOIN, bytes "JOIN"); (BCL_CAST, bytes "CAST"); (BCL_UPDATE, bytes "UPDATE");
   (BCL_RESULTS, bytes "RESULTS"); (BCL_CHECK, bytes "CHECK"); (BCL_CREATE, bytes "CREATE");
   (BCL_OPEN, bytes "OPEN"); (BCL_CLOSE, bytes "CLOSE"); (BCL_PUBLISH, bytes "PUBLISH");
   (BCL_ADMIN_RESULTS, bytes "ADMIN_RESULTS"); (BCL_ADMIN_CHECK, bytes "ADMIN_CHECK");
   (BCL_ADMIN_NEXT_ID, bytes "ADMIN_NEXT_ID")].

(** The table searches: the first entry with that key. *)
Fixpoint find_name {K} `{EqDecision K} (t : list (K * list Z)) (k : K) : option (list Z) :=
  match t with
  | [] => None
  | (k', name) :: t => if bool_decide (k' = k) then Some name else find_name t k
  end.

Fixpoint find_key {K} (t : list (K * list Z)) (s : list Z) : option K :=
  match t with
  | [] => None
  | (k, name) :: t => if strcmp name s =? 0 then Some k else find_key t s
  end.

Definition method_from_op (op : bcl_op) : option (list Z) := find_name OP_NAMES op.
Definition op_from_method (m : list Z) : option bcl_op := find_key OP_NAMES m.

(** ** bb_result_t and name *)

Definition RESULT_NAMES : list (bb_code * list Z) :=
  [(BB_OK tt, bytes "BB_OK");
   (BB_ERR BB_ERR_CONFIG_TITLE, bytes "BB_ERR_CONFIG_TITLE");
   (BB_ERR BB_ERR_CONFIG_OPTIONS, bytes "BB_ERR_CONFIG_OPTIONS");
   (BB_ERR BB_ERR_CONFIG_TIME, bytes "BB_ERR_CONFIG_TIME");
   (BB_ERR BB_ERR_CONFIG_ID_TAKEN, bytes "BB_ERR_CONFIG_ID_TAKEN");
   (BB_ERR BB_ERR_ILLEGAL_TRANSITION, bytes "BB_ERR_ILLEGAL_TRANSITION");
   (BB_ERR BB_ERR_NOT_OPEN, bytes "BB_ERR_NOT_OPEN");
   (BB_ERR BB_ERR_CLOSED, bytes "BB_ERR_CLOSED");
   (BB_ERR BB_ERR_NOT_PUBLISHED, bytes "BB_ERR_NOT_PUBLISHED");
   (BB_ERR BB_ERR_NOT_ELIGIBLE, bytes "BB_ERR_NOT_ELIGIBLE");
   (BB_ERR BB_ERR_CERT_INVALID, bytes "BB_ERR_CERT_INVALID");
   (BB_ERR BB_ERR_CERT_EXPIRED, bytes "BB_ERR_CERT_EXPIRED");
   (BB_ERR BB_ERR_BAD_OPTION, bytes "BB_ERR_BAD_OPTION");
   (BB_ERR BB_ERR_REPLAY, bytes "BB_ERR_REPLAY");
   (BB_ERR BB_ERR_DECRYPT, bytes "BB_ERR_DECRYPT");
   (BB_ERR BB_ERR_NOT_FOUND, bytes "BB_ERR_NOT_FOUND");
   (BB_ERR BB_ERR_NOT_JOINED, bytes "BB_ERR_NOT_JOINED");
   (BB_ERR BB_ERR_DB, bytes "BB_ERR_DB");
   (BB_ERR BB_ERR_NOT_IMPLEMENTED, bytes "BB_ERR_NOT_IMPLEMENTED")].

Definition name_from_result (r : bb_code) : option (list Z) := find_name RESULT_NAMES r.
Definition result_from_name (s : list Z) : option bb_code := find_key RESULT_NAMES s.

Definition STATE_NAMES : list (bb_state * list Z) :=
  [(BB_STATE_DRAFT, bytes "DRAFT"); (BB_STATE_OPEN, bytes "OPEN"); (BB_STATE_CLOSED, bytes "CLOSED");
   (BB_STATE_PUBLISHED, bytes "PUBLISHED")].
Definition state_from_name (s : list Z) : option bb_state := find_key STATE_NAMES s.

(** ** hex and bytes *)

Definition hex_byte (b : Z) : list Z :=
  [aget 0 (bytes "0123456789abcdef") (Z.shiftr b 4); aget 0 (bytes "0123456789abcdef") (Z.land b 15)].

Definition hex_encode (src : list Z) (in_len : Z) (out_cap : Z) : option (list Z) :=
  if out_cap <? in_len * 2 + 1 then None
  else Some (mjoin ((fun i => hex_byte (aget 0 src i)) <$> range in_len)).

Definition hex_nibble (c : Z) : Z :=
  if (48 <=? c) && (c <=? 57) then c - 48
  else if (97 <=? c) && (c <=? 102) then c - 97 + 10
  else if (65 <=? c) && (c <=? 70) then c - 65 + 10
  else -1.

(** The byte loop from index [i] on: whether it got to the end, and the array. *)
Fixpoint hex_loop (hex : list Z) (i : Z) (out : list Z) : bool * list Z :=
  match hex with
  | a :: b :: hex =>
      let hi := hex_nibble a in
      let lo := hex_nibble b in
      if (hi <? 0) || (lo <? 0) then (false, out)
      else hex_loop hex (i + 1) (aset out i (Z.land (Z.lor (Z.shiftl hi 4) lo) 255))
  | _ => (true, out)
  end.

(** The number of bytes, if all is well, and the array either way. *)
Definition hex_decode (hex : list Z) (out : list Z) (out_cap : Z) : option Z * list Z :=
  let n := Z.of_nat (length hex) in
  if negb (n mod 2 =? 0) then (None, out)
  else
    let count := n / 2 in
    if out_cap <? count then (None, out)
    else let '(ok, out) := hex_loop hex 0 out in (if ok then Some count else None, out).

(** ** The body writer *)

Definition CODEC_BODY_MAX : Z := 8192.

(** A CR anywhere, or an LF before the last byte. *)
Fixpoint stray_break (s : list Z) : bool :=
  match s with
  | [] => false
  | c :: s => (c =? CR) || ((c =? LF) && negb (bool_decide (s = []))) || stray_break s
  end.

(** [out] is what the buffer holds so far, [text] what the format makes. *)
Definition body_append (out text : list Z) : option (list Z) :=
  if CODEC_BODY_MAX - Z.of_nat (length out) <=? Z.of_nat (length text) then None
  else if stray_break text then None
  else Some (out ++ text).

(** A loop of appends that stops at the first failure. *)
Fixpoint body_append_all (out : list Z) (texts : list (list Z)) : option (list Z) :=
  match texts with
  | [] => Some out
  | t :: texts => out ← body_append out t; body_append_all out texts
  end.

(** ["key=%s\n"]. *)
Definition field (k v : list Z) : list Z := k ++ [61] ++ v ++ [LF].
Definition field_str (k : string) (v : list Z) : list Z := field (bytes k) v.
Definition field_int (k : string) (n : Z) : list Z := field (bytes k) (decimal_int n).

(** ** The body reader *)

(** The lines: what ends in an LF, and what is left after the last one. *)
Fixpoint body_lines (l : list Z) : list (list Z) :=
  match l with
  | [] => []
  | c :: l =>
      if c =? LF then [] :: body_lines l
      else match body_lines l with
           | [] => [[c]]
           | ln :: lns => (c :: ln) :: lns
           end
  end.

(** Without a CR at its end. *)
Definition strip_cr (ln : list Z) : list Z :=
  match last ln with Some c => if c =? CR then removelast ln else ln | None => ln end.

(** What is before and after the first ['=']. *)
Fixpoint split_eq (ln : list Z) : option (list Z * list Z) :=
  match ln with
  | [] => None
  | c :: ln => if c =? 61 then Some ([], ln) else '(k, v) ← split_eq ln; Some (c :: k, v)
  end.

Definition KEY_CAP : nat := 64.
Definition VAL_CAP : nat := 320.

Definition line_kv (ln : list Z) : option (list Z * list Z) :=
  '(k, v) ← split_eq (strip_cr ln);
  if bool_decide (k = []) then None
  else Some (cstr (take (KEY_CAP - 1) k), cstr (take (VAL_CAP - 1) v)).

(** The callback [fn] on every pair in turn, over its context. *)
Definition body_for_each {S} (body : option (list Z)) (fn : S -> list Z -> list Z -> S) (s : S) : S :=
  foldl (fun s kv => fn s kv.1 kv.2) s (omap line_kv (body_lines (default [] body))).

(** ** path and election id *)

Definition ELECTION_PREFIX : list Z := bytes "/election/".

(** [%15[^/]]: the bytes before a slash, 15 at most. *)
Fixpoint before_slash (s : list Z) : list Z :=
  match s with [] => [] | c :: s => if c =? 47 then [] else c :: before_slash s end.

Definition path_election_id (path : list Z) : option (list Z) :=
  if bool_decide (take (length ELECTION_PREFIX) path = ELECTION_PREFIX) then
    match take (BB_ID_LEN - 1) (before_slash (drop (length ELECTION_PREFIX) path)) with
    | [] => None
    | id => Some id
    end
  else None.

(** ** Request bodies *)

Definition is_key (k : list Z) (name : string) : bool := strcmp k (bytes name) =? 0.

(** Context of [create_kv]: the config, the id and the two indices. *)
Record create_ctx := mkCreateCtx { c_cfg : bb_config; c_id : list Z; c_opt : Z; c_elig : Z }.

Definition create_kv (c : create_ctx) (k v : list Z) : create_ctx :=
  let '(mkCreateCtx cfg id opt_i elig_i) := c in
  let '(mkConfig title options oc eligible ec open close) := cfg in
  if is_key k "election_id" then mkCreateCtx cfg (trunc BB_ID_LEN v) opt_i elig_i
  else if is_key k "title" then
    mkCreateCtx (mkConfig (trunc BB_TITLE_LEN v) options oc eligible ec open close) id opt_i elig_i
  else if is_key k "open_time" then
    mkCreateCtx (mkConfig title options oc eligible ec (trunc BB_TIME_LEN v) close) id opt_i elig_i
  else if is_key k "close_time" then
    mkCreateCtx (mkConfig title options oc eligible ec open (trunc BB_TIME_LEN v)) id opt_i elig_i
  else if is_key k "option" then
    if opt_i <? BB_MAX_OPTIONS then
      mkCreateCtx (mkConfig title (aset options opt_i (trunc BB_OPTION_LEN v)) oc eligible ec open close)
        id (opt_i + 1) elig_i
    else c
  else if is_key k "eligible" then
    if elig_i <? BB_MAX_VOTERS then
      mkCreateCtx (mkConfig title options oc (aset eligible elig_i (trunc BB_CERT_LEN v)) ec open close)
        id opt_i (elig_i + 1)
    else c
  else c.

(** Context of [ballot_kv]: the ballot and [got_payload]. *)
Definition ballot_kv (c : bb_ballot * bool) (k v : list Z) : bb_ballot * bool :=
  let '(mkBallot cert nonce payload len, got) := c in
  if is_key k "nonce" then (mkBallot cert (trunc BB_NONCE_LEN v) payload len, got)
  else if is_key k "payload" then
    match hex_decode v payload (Z.of_nat BB_CIPHERTEXT_MAX) with
    | (Some n, payload) => (mkBallot cert nonce payload n, true)
    | (None, payload) => (mkBallot cert nonce payload len, got)
    end
  else c.

Definition hash_kv (hash : list Z) (k v : list Z) : list Z :=
  if is_key k "hash" then trunc BB_HASH_LEN v else hash.

(** ** Requests *)

(** The path and the body of a request. *)
Definition request_parts (req : bcl_request) : option (list Z * list Z) :=
  let id := q_election_id req in
  let cfg := q_config req in
  match q_op req with
  | BCL_CREATE =>
      body ← (if bool_decide (id = []) then Some [] else body_append [] (field_str "election_id" id));
      body ← body_append body (field_str "title" (cfg_title cfg));
      body ← body_append body (field_str "open_time" (cfg_open_time cfg));
      body ← body_append body (field_str "close_time" (cfg_close_time cfg));
      body ← body_append_all body
               ((fun i => field_str "option" (aget [] (cfg_options cfg) i)) <$> range (cfg_option_count cfg));
      body ← body_append_all body
               ((fun i => field_str "eligible" (aget [] (cfg_eligible cfg) i)) <$> range (cfg_eligible_count cfg));
      Some (trunc HTTTP_MAX_PATH (bytes "/election"), body)
  | BCL_OPEN | BCL_CLOSE | BCL_PUBLISH | BCL_JOIN | BCL_RESULTS | BCL_ADMIN_RESULTS =>
      Some (trunc HTTTP_MAX_PATH (ELECTION_PREFIX ++ id), [])
  | BCL_CAST | BCL_UPDATE =>
      body ← body_append [] (field_str "nonce" (b_nonce (q_ballot req)));
      hex ← hex_encode (b_payload (q_ballot req)) (b_payload_len (q_ballot req))
              (Z.of_nat BB_CIPHERTEXT_MAX * 2 + 1);
      body ← body_append body (field_str "payload" hex);
      Some (trunc HTTTP_MAX_PATH (ELECTION_PREFIX ++ id ++ bytes "/ballot"), body)
  | BCL_CHECK | BCL_ADMIN_CHECK =>
      body ← body_append [] (field_str "hash" (q_hash req));
      Some (trunc HTTTP_MAX_PATH (ELECTION_PREFIX ++ id ++ bytes "/check"), body)
  | BCL_ADMIN_NEXT_ID => Some (trunc HTTTP_MAX_PATH (bytes "/election/next-id"), [])
  end.

Definition CERT_NAME : list Z := bytes "Cert-Name".

(** [h.body] and [h.body_len]. *)
Definition message_body (body : list Z) : option (list Z) * Z :=
  if (0 <? length body)%nat then (Some body, Z.of_nat (length body)) else (None, 0).

Definition ok_bytes (r : res (list Z)) : option (list Z) := match r with Ok w => Some w | Err _ => None end.

Definition bcl_encode_request (req : bcl_request) (cap : nat) : option (list Z) :=
  method ← method_from_op (q_op req);
  '(path, body) ← request_parts req;
  hs ← (if bool_decide (q_cert_name req = []) then Some []
        else match htttp_header_set [] CERT_NAME (q_cert_name req) with Ok hs => Some hs | Err _ => None end);
  let '(b, n) := message_body body in
  ok_bytes (htttp_serialize_request
    (mkRequest (trunc HTTTP_MAX_METHOD method) (trunc HTTTP_MAX_PATH path) hs b n) cap).

Definition bcl_decode_request (http : htttp_request) : option bcl_request :=
  op ← op_from_method (method http);
  let cert := match htttp_header_get (headers http) CERT_NAME with
              | Some c => trunc BB_CERT_LEN c
              | None => []
              end in
  match op with
  | BCL_CREATE =>
      let '(mkCreateCtx cfg id opt_i elig_i) :=
        body_for_each (body http) create_kv (mkCreateCtx zero_config [] 0 0) in
      Some (mkBclRequest op cert id zero_ballot []
              (mkConfig (cfg_title cfg) (cfg_options cfg) opt_i (cfg_eligible cfg) elig_i
                 (cfg_open_time cfg) (cfg_close_time cfg)))
  | BCL_ADMIN_NEXT_ID => Some (mkBclRequest op cert [] zero_ballot [] zero_config)
  | BCL_OPEN | BCL_CLOSE | BCL_PUBLISH | BCL_JOIN | BCL_RESULTS | BCL_ADMIN_RESULTS =>
      id ← path_election_id (path http);
      Some (mkBclRequest op cert id zero_ballot [] zero_config)
  | BCL_CAST | BCL_UPDATE =>
      id ← path_election_id (path http);
      let ballot := mkBallot (trunc BB_CERT_LEN cert) [] (replicate BB_CIPHERTEXT_MAX 0) 0 in
      let '(ballot, got_payload) := body_for_each (body http) ballot_kv (ballot, false) in
      if got_payload then Some (mkBclRequest op cert id ballot [] zero_config) else None
  | BCL_CHECK | BCL_ADMIN_CHECK =>
      id ← path_election_id (path http);
      let hash := body_for_each (body http) hash_kv [] in
      if bool_decide (hash = []) then None else Some (mkBclRequest op cert id zero_ballot hash zero_config)
  end.

(** ** Responses *)

Definition bcl_http_status (st : bb_code) : Z :=
  match st with
  | BB_OK _ => 200
  | BB_ERR (BB_ERR_CONFIG_TITLE | BB_ERR_CONFIG_OPTIONS | BB_ERR_CONFIG_TIME | BB_ERR_BAD_OPTION
           | BB_ERR_DECRYPT) => 400
  | BB_ERR (BB_ERR_NOT_ELIGIBLE | BB_ERR_CERT_INVALID | BB_ERR_CERT_EXPIRED) => 403
  | BB_ERR BB_ERR_NOT_FOUND => 404
  | BB_ERR (BB_ERR_ILLEGAL_TRANSITION | BB_ERR_NOT_OPEN | BB_ERR_CLOSED | BB_ERR_NOT_PUBLISHED
           | BB_ERR_REPLAY | BB_ERR_NOT_JOINED | BB_ERR_CONFIG_ID_TAKEN) => 409
  | BB_ERR _ => 500
  end.

(** The tally line's numbers: a comma before all but the first. *)
Definition tally_texts (resp : bcl_response) : list (list Z) :=
  (fun i => (if i =? 0 then [] else [44]) ++ decimal_int (aget 0 (p_tally resp) i)) <$> range (p_option_count resp).

(** ["row=%s,%d,%d,%d\n"]. *)
Definition row_text (h : bb_ballot_hash) : list Z :=
  field_str "row" (h_hash h ++ [44] ++ decimal_int (h_option_index h) ++ [44] ++ decimal_int (h_version h) ++
                   [44] ++ decimal_int (h_superseded h)).

(** The body after the status line. *)
Definition response_body (op : bcl_op) (resp : bcl_response) (body : list Z) : option (list Z) :=
  let e := p_election resp in
  match op with
  | BCL_CREATE | BCL_ADMIN_NEXT_ID =>
      if bool_decide (e_id e = []) then Some body else body_append body (field_str "election_id" (e_id e))
  | BCL_OPEN | BCL_CLOSE | BCL_PUBLISH => Some body
  | BCL_JOIN =>
      if bool_decide (e_id e = []) then Some body
      else
        body ← body_append body (field_str "election_id" (e_id e));
        body ← body_append body (field_str "title" (e_title e));
        body ← body_append body (field_str "state" (bb_state_str (e_state e)));
        body ← body_append body (field_str "open_time" (e_open_time e));
        body ← body_append body (field_str "close_time" (e_close_time e));
        body ← body_append body (field_int "has_prior_ballot" (p_has_prior_ballot resp));
        body ← body_append body (field_int "prior_ballot_version" (p_prior_ballot_version resp));
        body_append_all body
          ((fun i => field_str "option" (aget [] (e_options e) i)) <$> range (e_option_count e))
  | BCL_CAST | BCL_UPDATE =>
      if bool_decide (rc_hash (p_receipt resp) = []) then Some body
      else
        body ← body_append body (field_str "hash" (rc_hash (p_receipt resp)));
        body_append body (field_str "issued_at" (rc_issued_at (p_receipt resp)))
  | BCL_RESULTS | BCL_ADMIN_RESULTS =>
      body ← body_append body (field_str "election_id" (e_id e));
      body ← body_append body (field_str "title" (e_title e));
      body ← body_append body (field_int "tally_count" (p_option_count resp));
      body ← (if 0 <? p_option_count resp then
                body ← body_append body (bytes "tally=");
                body ← body_append_all body (tally_texts resp);
                body ← body_append body [LF];
                body_append_all body
                  ((fun i => field_str "result_option" (aget [] (p_options resp) i)) <$> range (p_option_count resp))
              else Some body);
      body ← body_append body (field_int "hash_count" (p_hash_count resp));
      body_append_all body ((fun i => row_text (aget zero_row (p_hashes resp) i)) <$> range (p_hash_count resp))
  | BCL_CHECK | BCL_ADMIN_CHECK =>
      body ← body_append body (field_int "found" (p_found resp));
      if p_found resp =? 0 then Some body
      else
        body ← body_append body (field_int "found_option" (p_found_option resp));
        body_append body (field_str "found_option_name" (p_found_option_name resp))
  end.

Definition bcl_encode_response (date : option (list Z)) (op : bcl_op) (resp : bcl_response) (cap : nat)
    : option (list Z) :=
  sname ← name_from_result (p_status resp);
  body ← body_append [] (field_str "status" sname);
  body ← response_body op resp body;
  let '(b, n) := message_body body in
  ok_bytes (htttp_serialize_response date (mkResponse (bcl_http_status (p_status resp)) [] b n) cap).

(** Context of [response_kv]. *)
Record resp_ctx := mkRespCtx {
  x_resp : bcl_response;
  x_row_i : Z;
  x_result_opt_i : Z;
  x_status_valid : bool
}.

(** What follows the next comma. *)
Fixpoint after_comma (s : list Z) : option (list Z) :=
  match s with [] => None | c :: s => if c =? 44 then Some s else after_comma s end.

(** The tally loop, [slots] entries of the array still free from [i] on. *)
Fixpoint tally_loop (slots : nat) (p : list Z) (i : Z) (tally : list Z) : list Z :=
  match slots, p with
  | S slots, _ :: _ =>
      let tally := aset tally i (atoi p) in
      match after_comma p with
      | None => tally
      | Some p => tally_loop slots p (i + 1) tally
      end
  | _, _ => tally
  end.

(** [,] and [%d] of the row's format. *)
Definition comma_int (s : list Z) : option (Z * list Z) :=
  match s with c :: s => if c =? 44 then scan_int s else None | [] => None end.

(** [sscanf(v, "%64[^,],%d,%d,%d", ..) == 4]. *)
Fixpoint before_comma (s : list Z) : list Z :=
  match s with [] => [] | c :: s => if c =? 44 then [] else c :: before_comma s end.

Definition scan_row (v : list Z) : option bb_ballot_hash :=
  let hash := take (BB_HASH_LEN - 1) (before_comma v) in
  if bool_decide (hash = []) then None
  else
    '(opt, v) ← comma_int (drop (length hash) v);
    '(ver, v) ← comma_int v;
    '(sup, _) ← comma_int v;
    Some (mkRow (trunc BB_HASH_LEN hash) opt ver sup).

(** Field updates of the response. *)
Definition set_status (st : bb_code) (r : bcl_response) : bcl_response :=
  mkBclResponse st (p_election r) (p_has_prior_ballot r) (p_prior_ballot_version r) (p_receipt r) (p_tally r)
    (p_option_count r) (p_options r) (p_hashes r) (p_hash_count r) (p_found r) (p_found_option r)
    (p_found_option_name r).
Definition set_election (e : bb_election) (r : bcl_response) : bcl_response :=
  mkBclResponse (p_status r) e (p_has_prior_ballot r) (p_prior_ballot_version r) (p_receipt r) (p_tally r)
    (p_option_count r) (p_options r) (p_hashes r) (p_hash_count r) (p_found r) (p_found_option r)
    (p_found_option_name r).
Definition set_prior (has version : Z) (r : bcl_response) : bcl_response :=
  mkBclResponse (p_status r) (p_election r) has version (p_receipt r) (p_tally r)
    (p_option_count r) (p_options r) (p_hashes r) (p_hash_count r) (p_found r) (p_found_option r)
    (p_found_option_name r).
Definition set_receipt (rc : bb_receipt) (r : bcl_response) : bcl_response :=
  mkBclResponse (p_status r) (p_election r) (p_has_prior_ballot r) (p_prior_ballot_version r) rc (p_tally r)
    (p_option_count r) (p_options r) (p_hashes r) (p_hash_count r) (p_found r) (p_found_option r)
    (p_found_option_name r).
Definition set_tally (tally : list Z) (count : Z) (options : list (list Z)) (r : bcl_response) : bcl_response :=
  mkBclResponse (p_status r) (p_election r) (p_has_prior_ballot r) (p_prior_ballot_version r) (p_receipt r)
    tally count options (p_hashes r) (p_hash_count r) (p_found r) (p_found_option r) (p_found_option_name r).
Definition set_hashes (hs : list bb_ballot_hash) (count : Z) (r : bcl_response) : bcl_response :=
  mkBclResponse (p_status r) (p_election r) (p_has_prior_ballot r) (p_prior_ballot_version r) (p_receipt r)
    (p_tally r) (p_option_count r) (p_options r) hs count (p_found r) (p_found_option r) (p_found_option_name r).
Definition set_found (found opt : Z) (name : list Z) (r : bcl_response) : bcl_response :=
  mkBclResponse (p_status r) (p_election r) (p_has_prior_ballot r) (p_prior_ballot_version r) (p_receipt r)
    (p_tally r) (p_option_count r) (p_options r) (p_hashes r) (p_hash_count r) found opt name.

(** The fields of the election inside it. *)
Definition response_election_kv (e : bb_election) (k v : list Z) : bb_election :=
  let '(mkElection id title state options oc eligible ec open close) := e in
  if is_key k "election_id" then mkElection (trunc BB_ID_LEN v) title state options oc eligible ec open close
  else if is_key k "title" then mkElection id (trunc BB_TITLE_LEN v) state options oc eligible ec open close
  else if is_key k "state" then
    mkElection id title (default state (state_from_name v)) options oc eligible ec open close
  else if is_key k "open_time" then
    mkElection id title state options oc eligible ec (trunc BB_TIME_LEN v) close
  else if is_key k "close_time" then
    mkElection id title state options oc eligible ec open (trunc BB_TIME_LEN v)
  else if is_key k "option" then
    if oc <? BB_MAX_OPTIONS then
      mkElection id title state (aset options oc (trunc BB_OPTION_LEN v)) (oc + 1) eligible ec open close
    else e
  else e.

Definition is_election_key (k : list Z) : bool :=
  is_key k "election_id" || is_key k "title" || is_key k "state" || is_key k "open_time" ||
  is_key k "close_time" || is_key k "option".

Definition response_kv (c : resp_ctx) (k v : list Z) : resp_ctx :=
  let '(mkRespCtx r row_i result_opt_i valid) := c in
  let put r := mkRespCtx r row_i result_opt_i valid in
  if is_key k "status" then
    match result_from_name v with
    | Some st => mkRespCtx (set_status st r) row_i result_opt_i true
    | None => c
    end
  else if is_election_key k then put (set_election (response_election_kv (p_election r) k v) r)
  else if is_key k "has_prior_ballot" then put (set_prior (atoi v) (p_prior_ballot_version r) r)
  else if is_key k "prior_ballot_version" then put (set_prior (p_has_prior_ballot r) (atoi v) r)
  else if is_key k "hash" then
    put (set_receipt (mkReceipt (trunc BB_HASH_LEN v) (rc_issued_at (p_receipt r))) r)
  else if is_key k "issued_at" then
    put (set_receipt (mkReceipt (rc_hash (p_receipt r)) (trunc BB_TIME_LEN v)) r)
  else if is_key k "tally_count" then put (set_tally (p_tally r) (atoi v) (p_options r) r)
  else if is_key k "result_option" then
    if result_opt_i <? BB_MAX_OPTIONS then
      mkRespCtx (set_tally (p_tally r) (p_option_count r)
                   (aset (p_options r) result_opt_i (trunc BB_OPTION_LEN v)) r) row_i (result_opt_i + 1) valid
    else c
  else if is_key k "tally" then
    put (set_tally (tally_loop (Z.to_nat BB_MAX_OPTIONS) v 0 (p_tally r)) (p_option_count r) (p_options r) r)
  else if is_key k "hash_count" then put (set_hashes (p_hashes r) (atoi v) r)
  else if is_key k "row" then
    if row_i <? BB_MAX_VOTERS then
      match scan_row v with
      | Some h => mkRespCtx (set_hashes (aset (p_hashes r) row_i h) (p_hash_count r) r) (row_i + 1) result_opt_i valid
      | None => c
      end
    else c
  else if is_key k "found" then put (set_found (atoi v) (p_found_option r) (p_found_option_name r) r)
  else if is_key k "found_option" then put (set_found (p_found r) (atoi v) (p_found_option_name r) r)
  else if is_key k "found_option_name" then
    put (set_found (p_found r) (p_found_option r) (trunc BB_OPTION_LEN v) r)
  else c.

Definition bcl_decode_response (http : htttp_response) : option bcl_response :=
  let '(mkRespCtx r row_i result_opt_i valid) :=
    body_for_each (res_body http) response_kv (mkRespCtx zero_response 0 0 false) in
  let r := if (p_hash_count r <? 0) || (row_i <? p_hash_count r) then set_hashes (p_hashes r) row_i r else r in
  let r := if (p_option_count r <? 0) || (BB_MAX_OPTIONS <? p_option_count r)
           then set_tally (p_tally r) result_opt_i (p_options r) r else r in
  if valid then Some r else None.

(** ** Examples *)

Definition send_bcl_request (q : bcl_request) : option bcl_request :=
  match bcl_encode_request q 65536 with
  | Some w => match htttp_parse_request w with Ok h => bcl_decode_request h | Err _ => None end
  | None => None
  end.

Example check_request_arrives :
  let q := mkBclRequest BCL_CHECK (bytes "alice") (bytes "E-7") zero_ballot (bytes "ab12") zero_config in
  send_bcl_request q = Some q.
Proof. vm_compute. reflexivity. Qed.

Example cast_request_arrives :
  let q := mkBclRequest BCL_CAST (bytes "alice") (bytes "E-7")
             (mkBallot (bytes "alice") (bytes "n1") ([1; 171] ++ replicate 254 0) 2) [] zero_config in
  send_bcl_request q = Some q.
Proof. vm_compute. reflexivity. Qed.
