(* ===== verification/CodecTheorems.v ===== *)
(** * CodecTheorems: what survives the wire

    Round trips of ballotbox/src/libballotclient/codec.c through libhtttp: what one
    side encodes, the other decodes, whatever the fields contain; and what a decoded
    message can hold, whatever the bytes were. *)

From Stdlib Require Import String.
From stdpp Require Import options.
From S2P Require Import Prelude Text Htttp HtttpTheorems BallotTypes BallotDb Codec.
#[local] Open Scope Z_scope.

(** ** Bodies as lists of fields *)

Definition kv : Type := list Z * list Z.
Definition kv_text (f : kv) : list Z := field f.1 f.2.
Definition fields_text (fs : list kv) : list Z := mjoin (kv_text <$> fs).

(** A value that cannot be taken for the end of its line. *)
Definition unbroken (s : list Z) : Prop := (CR ∉ s) /\ (LF ∉ s).

(** A key the reader tells from its value. *)
Definition key_ok (k : list Z) : Prop := k <> [] /\ (61 ∉ k) /\ (0 ∉ k) /\ unbroken k /\ (length k < KEY_CAP)%nat.
Definition value_ok (v : list Z) : Prop := (0 ∉ v) /\ unbroken v.
Definition kv_ok (f : kv) : Prop := key_ok f.1 /\ value_ok f.2.

(** What the reader makes of a field: its line buffer holds 319 bytes of the value. *)
Definition kv_read (f : kv) : kv := (f.1, take (VAL_CAP - 1) f.2).

Lemma stray_break_line s : stray_break (s ++ [LF]) = false -> unbroken s.
Proof.
  unfold unbroken. induction s as [|c s IH]; simpl; [intros _; split; apply not_elem_of_nil|].
  rewrite bool_decide_false by (by destruct s). cbn [negb]. rewrite andb_true_r.
  intros [[Hcr Hlf]%orb_false_iff H]%orb_false_iff. destruct (IH H). bool_arith.
  rewrite !not_elem_of_cons. auto.
Qed.

Lemma unbroken_app a b : unbroken (a ++ b) <-> unbroken a /\ unbroken b.
Proof. unfold unbroken. rewrite !not_elem_of_app. tauto. Qed.

Lemma body_append_inv out text out' :
  body_append out text = Some out' -> out' = out ++ text /\ stray_break text = false.
Proof.
  unfold body_append. case_match; [done|]. destruct (stray_break text); [done|]. by intros [= <-].
Qed.

Lemma body_append_field out f out' :
  body_append out (kv_text f) = Some out' -> out' = out ++ kv_text f /\ unbroken f.2.
Proof.
  intros [-> Hs]%body_append_inv. split; [done|]. unfold kv_text, field in Hs.
  rewrite !app_assoc in Hs. apply stray_break_line in Hs. apply unbroken_app in Hs. tauto.
Qed.

Lemma body_append_fields out fs out' :
  body_append_all out (kv_text <$> fs) = Some out' ->
  out' = out ++ fields_text fs /\ Forall (fun f => unbroken f.2) fs.
Proof.
  revert out. induction fs as [|f fs IH]; intros out; simpl.
  { intros [= <-]. by rewrite app_nil_r. }
  intros (o & [-> Hf]%body_append_field & [-> Hfs]%IH)%bind_Some. unfold fields_text. simpl.
  by rewrite <- app_assoc, Forall_cons.
Qed.

Lemma fields_text_app fs gs : fields_text (fs ++ gs) = fields_text fs ++ fields_text gs.
Proof. unfold fields_text. by rewrite fmap_app, join_app. Qed.

Lemma fields_text_one f : fields_text [f] = kv_text f.
Proof. unfold fields_text. simpl. by rewrite app_nil_r. Qed.

(** ** Reading the fields back *)

Lemma body_lines_line s rest : LF ∉ s -> body_lines (s ++ LF :: rest) = s :: body_lines rest.
Proof.
  induction s as [|c s IH]; intros Hs; simpl; [done|]. apply not_elem_of_cons in Hs as [Hc Hs].
  rewrite (proj2 (Z.eqb_neq c LF)) by done. by rewrite IH.
Qed.

Lemma split_eq_kv k v : 61 ∉ k -> split_eq (k ++ 61 :: v) = Some (k, v).
Proof.
  induction k as [|c k IH]; intros Hk; simpl; [done|]. apply not_elem_of_cons in Hk as [Hc Hk].
  rewrite (proj2 (Z.eqb_neq c 61)) by done. by rewrite IH.
Qed.

Lemma strip_cr_unbroken s : CR ∉ s -> strip_cr s = s.
Proof.
  intros Hs. unfold strip_cr. destruct (last s) as [c|] eqn:Hl; [|done].
  apply last_Some in Hl as [s' ->]. rewrite (proj2 (Z.eqb_neq c CR)); [done|].
  intros ->. apply Hs, elem_of_app. right. by apply list_elem_of_singleton.
Qed.

Lemma take_no_nul n s : 0 ∉ s -> 0 ∉ take n s.
Proof. intros H Hin. apply H. by eapply elem_of_take in Hin as (i & Hi%list_elem_of_lookup_2 & _). Qed.

Lemma line_kv_back f : kv_ok f -> line_kv (f.1 ++ [61] ++ f.2) = Some (kv_read f).
Proof.
  destruct f as [k v]. intros [(Hne & Heq & Hk0 & [Hkc Hkl] & Hklen) (Hv0 & [Hvc Hvl])]. cbn [fst snd] in *.
  unfold line_kv. cbn [app]. rewrite strip_cr_unbroken.
  2:{ rewrite not_elem_of_app, not_elem_of_cons. done. }
  rewrite split_eq_kv by done. cbn. rewrite bool_decide_false by done.
  unfold KEY_CAP in *. rewrite (take_ge k), !cstr_id by (done || lia || by apply take_no_nul). done.
Qed.

Lemma body_lines_fields fs :
  Forall kv_ok fs -> body_lines (fields_text fs) = (fun f => f.1 ++ [61] ++ f.2) <$> fs.
Proof.
  induction 1 as [|[k v] fs Hf _ IH]; [done|]. unfold fields_text in *. rewrite fmap_cons. cbn [mjoin list_join].
  unfold kv_text, field at 1. cbn [fst snd].
  replace ((k ++ [61] ++ v ++ [LF]) ++ mjoin (kv_text <$> fs)) with ((k ++ [61] ++ v) ++ LF :: mjoin (kv_text <$> fs))
    by (repeat (rewrite <- app_assoc; simpl); done).
  rewrite body_lines_line, IH; [done|]. destruct Hf as [(_ & _ & _ & [_ ?] & _) (_ & [_ ?])]. cbn [fst snd] in *.
  rewrite !not_elem_of_app, not_elem_of_cons. split_and!; (done || apply not_elem_of_nil).
Qed.

Lemma omap_line_kv fs : Forall kv_ok fs -> omap line_kv ((fun f => f.1 ++ [61] ++ f.2) <$> fs) = kv_read <$> fs.
Proof. induction 1 as [|f fs Hf _ IH]; [done|]. rewrite fmap_cons. simpl. rewrite line_kv_back by done. f_equal. apply IH. Qed.

(** The reader calls its callback on the fields the writer wrote. *)
Lemma body_for_each_fields {T} (fn : T -> list Z -> list Z -> T) s fs :
  Forall kv_ok fs ->
  body_for_each (message_body (fields_text fs)).1 fn s = foldl (fun s f => fn s f.1 f.2) s (kv_read <$> fs).
Proof.
  intros Hfs. unfold body_for_each.
  assert (default [] (message_body (fields_text fs)).1 = fields_text fs) as ->.
  { unfold message_body. destruct (Nat.ltb_spec 0 (length (fields_text fs))); [done|].
    by destruct (fields_text fs); [|simpl in *; lia]. }
  by rewrite body_lines_fields, omap_line_kv.
Qed.

(** ** Filling an array slot by slot *)

Lemma aset_next {A} (pre : list A) d m x :
  aset (pre ++ replicate (S m) d) (Z.of_nat (length pre)) x = (pre ++ [x]) ++ replicate m d.
Proof.
  rewrite aset_nat. rewrite <- app_assoc. simpl.
  replace (length pre) with (length pre + 0)%nat by lia. rewrite insert_app_r. done.
Qed.

(** A loop that writes entry [i] and moves on, over states [mk array i]. *)
Lemma fill_slots {T X A} (step : T -> X -> T) (mk : list A -> Z -> T) (g : X -> A) (d : A) n xs :
  (forall arr i x, 0 <= i < Z.of_nat n -> x ∈ xs -> step (mk arr i) x = mk (aset arr i (g x)) (i + 1)) ->
  (length xs <= n)%nat ->
  foldl step (mk (replicate n d) 0) xs = mk ((g <$> xs) ++ replicate (n - length xs) d) (Z.of_nat (length xs)).
Proof.
  intros Hstep Hlen.
  cut (forall pre, (length pre + length xs <= n)%nat ->
    foldl step (mk (pre ++ replicate (n - length pre) d) (Z.of_nat (length pre))) xs =
    mk ((pre ++ (g <$> xs)) ++ replicate (n - (length pre + length xs)) d) (Z.of_nat (length pre + length xs))).
  { intros H. specialize (H []). simpl in H. rewrite Nat.sub_0_r in H. by apply H. }
  clear Hlen. induction xs as [|x xs IH]; intros pre Hl; simpl in *.
  { by rewrite app_nil_r, Nat.add_0_r. }
  rewrite Hstep by (lia || (apply elem_of_cons; by left)). replace (n - length pre)%nat with (S (n - length pre - 1)) by lia. rewrite aset_next.
  replace (Z.of_nat (length pre) + 1) with (Z.of_nat (length (pre ++ [g x]))) by (rewrite length_app; simpl; lia).
  replace (n - length pre - 1)%nat with (n - length (pre ++ [g x]))%nat by (rewrite length_app; simpl; lia).
  rewrite IH by ((intros; apply Hstep; [lia|apply elem_of_cons; by right]) || (rewrite length_app; simpl; lia)).
  rewrite length_app. simpl. rewrite <- (app_assoc pre [g x]). simpl. replace (length pre + 1 + length xs)%nat with (length pre + S (length xs))%nat by lia. done.
Qed.

(** The first [n] entries of an array. *)
Definition first_n {A} (d : A) (l : list A) (n : Z) : list A := aget d l <$> range n.

Lemma length_first_n {A} (d : A) l n : length (first_n d l n) = Z.to_nat n.
Proof. unfold first_n. by rewrite length_fmap, length_range. Qed.

(** An array whose first [n] entries are those of [l], and the rest unused. *)
Definition padded {A} (d : A) (size : nat) (l : list A) (n : Z) : list A :=
  first_n d l n ++ replicate (size - Z.to_nat n) d.

Lemma Forall_first_n {A} (P : A -> Prop) (d : A) l n : Forall P l -> P d -> Forall P (first_n d l n).
Proof.
  intros Hl Hd. unfold first_n. apply Forall_fmap, Forall_true. intros i. unfold compose, aget.
  case_match; [done|]. destruct (l !! Z.to_nat i) as [x|] eqn:Hx; [|done]. simpl.
  by eapply Forall_lookup_1.
Qed.

(** ** Hex *)

Lemma hex_byte_back b :
  0 <= b < 256 ->
  exists hi lo, hex_byte b = [hi; lo] /\ (hex_nibble hi <? 0) = false /\ (hex_nibble lo <? 0) = false /\
    Z.land (Z.lor (Z.shiftl (hex_nibble hi) 4) (hex_nibble lo)) 255 = b /\
    value_ok [hi; lo].
Proof.
  intros Hb. cut (Forall (fun b => match hex_byte b with
    | [hi; lo] => (hex_nibble hi <? 0) = false /\ (hex_nibble lo <? 0) = false /\
        Z.land (Z.lor (Z.shiftl (hex_nibble hi) 4) (hex_nibble lo)) 255 = b /\ 14 < hi /\ 14 < lo
    | _ => False end) (range 256)).
  { rewrite Forall_range. intros H. specialize (H b Hb). unfold hex_byte in *.
    destruct H as (H1 & H2 & H3 & H4 & H5). eexists _, _. split; [reflexivity|]. split_and!; try done.
    unfold value_ok, unbroken. rewrite !not_elem_of_cons. unfold CR, LF.
    split_and!; try lia; apply not_elem_of_nil. }
  apply (bool_decide_unpack _). vm_compute. exact I.
Qed.

Definition byte_ok (b : Z) : Prop := 0 <= b < 256.

Definition hex_text (bs : list Z) : list Z := mjoin (hex_byte <$> bs).

Lemma hex_text_cons b bs : hex_text (b :: bs) = hex_byte b ++ hex_text bs.
Proof. done. Qed.

Lemma length_hex_text bs : length (hex_text bs) = (2 * length bs)%nat.
Proof.
  induction bs as [|b bs IH]; [done|]. rewrite hex_text_cons, length_app, IH. simpl. lia.
Qed.

Lemma hex_text_clean bs : Forall byte_ok bs -> (0 ∉ hex_text bs) /\ unbroken (hex_text bs).
Proof.
  induction 1 as [|b bs Hb _ [IH0 IHu]]; [split; [apply not_elem_of_nil|split; apply not_elem_of_nil]|].
  destruct (hex_byte_back b Hb) as (hi & lo & E & _ & _ & _ & Hv & Hu).
  rewrite hex_text_cons, E.
  rewrite not_elem_of_app, unbroken_app. done.
Qed.

Lemma hex_loop_back bs pre n :
  Forall byte_ok bs -> (length pre + length bs <= n)%nat ->
  hex_loop (hex_text bs) (Z.of_nat (length pre)) (pre ++ replicate (n - length pre) 0) =
  (true, (pre ++ bs) ++ replicate (n - (length pre + length bs)) 0).
Proof.
  intros Hbs. revert pre. induction Hbs as [|b bs Hb _ IH]; intros pre Hl; simpl in Hl.
  { by rewrite app_nil_r, Nat.add_0_r. }
  destruct (hex_byte_back b Hb) as (hi & lo & E & Hhi & Hlo & Hval & _).
  rewrite hex_text_cons, E. cbn [app hex_loop]. rewrite Hhi, Hlo, Hval. cbn [orb].
  replace (n - length pre)%nat with (S (n - length pre - 1)) by lia. rewrite aset_next.
  replace (Z.of_nat (length pre) + 1) with (Z.of_nat (length (pre ++ [b]))) by (rewrite length_app; simpl; lia).
  replace (n - length pre - 1)%nat with (n - length (pre ++ [b]))%nat by (rewrite length_app; simpl; lia).
  rewrite IH by (rewrite length_app; simpl; lia). rewrite length_app, <- (app_assoc pre [b]). simpl.
  do 3 f_equal. lia.
Qed.

Lemma hex_back bs :
  Forall byte_ok bs -> (length bs <= BB_CIPHERTEXT_MAX)%nat ->
  hex_decode (hex_text bs) (replicate BB_CIPHERTEXT_MAX 0) (Z.of_nat BB_CIPHERTEXT_MAX) =
  (Some (Z.of_nat (length bs)), bs ++ replicate (BB_CIPHERTEXT_MAX - length bs) 0).
Proof.
  intros Hbs Hl. unfold hex_decode. rewrite length_hex_text.
  replace (Z.of_nat (2 * length bs)) with (Z.of_nat (length bs) * 2) by lia.
  rewrite Z.mod_mul, Z.div_mul by lia. cbn [Z.eqb negb]. rewrite (proj2 (Z.ltb_ge _ _)) by lia.
  pose proof (hex_loop_back bs [] BB_CIPHERTEXT_MAX Hbs) as H.
  change (Z.of_nat (length [])) with 0 in H. cbn [length app] in H. rewrite Nat.sub_0_r in H. by rewrite H.
Qed.

(** ** Requests *)

(** The fields of a request's body. *)
Definition request_fields (q : bcl_request) : list kv :=
  let cfg := q_config q in
  match q_op q with
  | BCL_CREATE =>
      (if bool_decide (q_election_id q = []) then [] else [(bytes "election_id", q_election_id q)]) ++
      [(bytes "title", cfg_title cfg); (bytes "open_time", cfg_open_time cfg);
       (bytes "close_time", cfg_close_time cfg)] ++
      (pair (bytes "option") <$> first_n [] (cfg_options cfg) (cfg_option_count cfg)) ++
      (pair (bytes "eligible") <$> first_n [] (cfg_eligible cfg) (cfg_eligible_count cfg))
  | BCL_CAST | BCL_UPDATE =>
      [(bytes "nonce", b_nonce (q_ballot q));
       (bytes "payload", hex_text (first_n 0 (b_payload (q_ballot q)) (b_payload_len (q_ballot q))))]
  | BCL_CHECK | BCL_ADMIN_CHECK => [(bytes "hash", q_hash q)]
  | _ => []
  end.

(** The ops whose path names an election. *)
Definition path_op (op : bcl_op) : bool :=
  match op with BCL_CREATE | BCL_ADMIN_NEXT_ID => false | _ => true end.

Definition path_suffix (op : bcl_op) : list Z :=
  match op with
  | BCL_CAST | BCL_UPDATE => bytes "/ballot"
  | BCL_CHECK | BCL_ADMIN_CHECK => bytes "/check"
  | _ => []
  end.

(** A C string in an array of [cap] bytes. *)
Definition cstring (cap : nat) (s : list Z) : Prop := (length s < cap)%nat /\ (0 ∉ s).

(** A request as its struct can hold it, with an id a path can carry and a hash to
    ask for. *)
Record bcl_request_ok (q : bcl_request) : Prop := {
  ro_cert : cstring BB_CERT_LEN (q_cert_name q);
  ro_id : cstring BB_ID_LEN (q_election_id q);
  ro_path : path_op (q_op q) = true -> q_election_id q <> [] /\ (47 ∉ q_election_id q);
  ro_hash : cstring BB_HASH_LEN (q_hash q);
  ro_check : q_op q = BCL_CHECK \/ q_op q = BCL_ADMIN_CHECK -> q_hash q <> [];
  ro_nonce : cstring BB_NONCE_LEN (b_nonce (q_ballot q));
  ro_payload : Forall byte_ok (b_payload (q_ballot q));
  ro_payload_len : 0 <= b_payload_len (q_ballot q) <= Z.of_nat BB_CIPHERTEXT_MAX;
  ro_title : cstring BB_TITLE_LEN (cfg_title (q_config q));
  ro_open : cstring BB_TIME_LEN (cfg_open_time (q_config q));
  ro_close : cstring BB_TIME_LEN (cfg_close_time (q_config q));
  ro_options : Forall (cstring BB_OPTION_LEN) (cfg_options (q_config q));
  ro_option_count : 0 <= cfg_option_count (q_config q) <= BB_MAX_OPTIONS;
  ro_eligible : Forall (cstring BB_CERT_LEN) (cfg_eligible (q_config q));
  ro_eligible_count : 0 <= cfg_eligible_count (q_config q) <= BB_MAX_VOTERS
}.

(** What the other side holds: the op, the caller's name and the fields the op
    carries; the rest is zero. *)
Definition request_seen (q : bcl_request) : bcl_request :=
  let cert := q_cert_name q in
  let cfg := q_config q in
  match q_op q with
  | BCL_CREATE =>
      mkBclRequest BCL_CREATE cert (q_election_id q) zero_ballot []
        (mkConfig (cfg_title cfg) (padded [] 16 (cfg_options cfg) (cfg_option_count cfg)) (cfg_option_count cfg)
           (padded [] 64 (cfg_eligible cfg) (cfg_eligible_count cfg)) (cfg_eligible_count cfg)
           (cfg_open_time cfg) (cfg_close_time cfg))
  | BCL_ADMIN_NEXT_ID => mkBclRequest BCL_ADMIN_NEXT_ID cert [] zero_ballot [] zero_config
  | BCL_CAST | BCL_UPDATE =>
      let b := q_ballot q in
      mkBclRequest (q_op q) cert (q_election_id q)
        (mkBallot cert (b_nonce b) (padded 0 BB_CIPHERTEXT_MAX (b_payload b) (b_payload_len b)) (b_payload_len b))
        [] zero_config
  | BCL_CHECK | BCL_ADMIN_CHECK => mkBclRequest (q_op q) cert (q_election_id q) zero_ballot (q_hash q) zero_config
  | op => mkBclRequest op cert (q_election_id q) zero_ballot [] zero_config
  end.

Lemma key_ok_dec_lit k : bool_decide (k <> [] /\ (61 ∉ k) /\ (0 ∉ k) /\ (CR ∉ k) /\ (LF ∉ k) /\ (length k < KEY_CAP)%nat) = true -> key_ok k.
Proof. rewrite bool_decide_eq_true. unfold key_ok, unbroken. tauto. Qed.

(** A literal key. *)
Ltac lit_key := apply key_ok_dec_lit; vm_compute; reflexivity.

Lemma hex_encode_text src n cap hex :
  hex_encode src n cap = Some hex -> hex = hex_text (first_n 0 src n).
Proof.
  unfold hex_encode. case_match; [done|]. intros [= <-]. unfold hex_text, first_n. by rewrite <- list_fmap_compose.
Qed.

Lemma append_fields_inv k (l : list (list Z)) out out' :
  body_append_all out ((fun v => field (bytes k) v) <$> l) = Some out' ->
  out' = out ++ fields_text (pair (bytes k) <$> l) /\ Forall unbroken l.
Proof.
  intros H. assert (E : (fun v => field (bytes k) v) <$> l = kv_text <$> (pair (bytes k) <$> l)).
  { rewrite <- list_fmap_compose. done. }
  rewrite E in H. apply body_append_fields in H as [-> H]. split; [done|].
  rewrite Forall_fmap in H. exact H.
Qed.

Lemma append_fields_range k (arr : list (list Z)) n out out' :
  body_append_all out ((fun i => field_str k (aget [] arr i)) <$> range n) = Some out' ->
  out' = out ++ fields_text (pair (bytes k) <$> first_n [] arr n) /\
  Forall (fun f : kv => unbroken f.2) (pair (bytes k) <$> first_n [] arr n).
Proof.
  intros H. apply body_append_fields. rewrite <- H. f_equal. unfold first_n. by rewrite <- !list_fmap_compose.
Qed.

Lemma append_field_str k v out out' :
  body_append out (field_str k v) = Some out' ->
  out' = out ++ fields_text [(bytes k, v)] /\ Forall (fun f : kv => unbroken f.2) [(bytes k, v)].
Proof.
  intros [-> Hu]%(body_append_field out (bytes k, v)). rewrite fields_text_one. split; [done|]. by apply Forall_singleton.
Qed.

(** Peel the appends of a body. *)
Ltac fields_inv :=
  repeat match goal with
  | H : (_ ≫= _) = Some _ |- _ => let o := fresh "out" in let H1 := fresh "Ha" in
      apply bind_Some in H as (o & H1 & H)
  | H : body_append _ (field_str _ _) = Some _ |- _ => apply append_field_str in H as [-> H]
  | H : body_append_all _ _ = Some _ |- _ => apply append_fields_range in H as [-> H]
  end.

Lemma create_parts q path body :
  q_op q = BCL_CREATE -> request_parts q = Some (path, body) ->
  body = fields_text (request_fields q) /\ Forall (fun f => unbroken f.2) (request_fields q) /\
  path = bytes "/election".
Proof.
  intros Hop. unfold request_parts, request_fields. rewrite Hop. intros H.
  apply bind_Some in H as (out & Hid & H).
  assert (Hout : out = fields_text (if bool_decide (q_election_id q = []) then []
      else [(bytes "election_id", q_election_id q)]) /\
    Forall (fun f : kv => unbroken f.2) (if bool_decide (q_election_id q = []) then []
      else [(bytes "election_id", q_election_id q)])).
  { case_bool_decide; [simplify_eq; by split|]. by apply append_field_str in Hid. }
  clear Hid. destruct Hout as [-> Hid]. fields_inv. injection H as <- <-.
  change [(bytes "title", ?a); (bytes "open_time", ?b); (bytes "close_time", ?c)] with
    ([(bytes "title", a)] ++ [(bytes "open_time", b)] ++ [(bytes "close_time", c)]).
  rewrite !fields_text_app, !Forall_app, <- !app_assoc. done.
Qed.

Lemma Some_pair {A B} (a c : A) (b d : B) : Some (a, b) = Some (c, d) -> c = a /\ d = b.
Proof. by intros [= <- <-]. Qed.

(** What [request_parts] makes, when it makes something. *)
Lemma request_parts_inv q path body :
  bcl_request_ok q -> request_parts q = Some (path, body) ->
  body = fields_text (request_fields q) /\ Forall (fun f => unbroken f.2) (request_fields q) /\
  (path_op (q_op q) = true -> path = ELECTION_PREFIX ++ q_election_id q ++ path_suffix (q_op q)) /\
  (length path < HTTTP_MAX_PATH)%nat.
Proof.
  intros Hq. assert (Hlen : forall s, (length s <= 7)%nat ->
    trunc HTTTP_MAX_PATH (ELECTION_PREFIX ++ q_election_id q ++ s) = ELECTION_PREFIX ++ q_election_id q ++ s /\
    (length (ELECTION_PREFIX ++ q_election_id q ++ s) < HTTTP_MAX_PATH)%nat).
  { intros s Hs. destruct (ro_id q Hq) as [Hl _].
    assert ((length (ELECTION_PREFIX ++ q_election_id q ++ s) < HTTTP_MAX_PATH)%nat).
    { rewrite !length_app. unfold BB_ID_LEN, HTTTP_MAX_PATH in *. change (length ELECTION_PREFIX) with 10%nat. lia. }
    by rewrite trunc_id. }
  destruct (Hlen [] ltac:(simpl; lia)) as [H0 H0l]. destruct (Hlen (bytes "/ballot") ltac:(simpl; lia)) as [H1 H1l].
  destruct (Hlen (bytes "/check") ltac:(simpl; lia)) as [H2 H2l].
  destruct (decide (q_op q = BCL_CREATE)) as [Hop|Hop].
  { intros (-> & ? & ->)%create_parts; [|done]. rewrite Hop. split_and!; [done..|]. vm_compute. lia. }
  rewrite app_nil_r in H0, H0l. unfold request_parts, request_fields.
  destruct (q_op q) eqn:E; try done; cbn [path_op path_suffix]; rewrite ?(app_nil_r (q_election_id q)); intros Hp.
  all: fields_inv; try apply hex_encode_text in Ha0 as ->; apply Some_pair in Hp as [-> ->].
  all: rewrite ?H0, ?H1, ?H2; split_and!; try done.
  all: try (symmetry; apply (fields_text_app [_] [_])).
  all: try exact (Forall_app_2 _ [_] [_] Ha Ha1).
  vm_compute. lia.
Qed.

Lemma cstring_value cap s : cstring cap s -> unbroken s -> value_ok s.
Proof. by intros [Hl H0] Hu. Qed.

Lemma first_n_clean bs n : Forall byte_ok bs -> Forall byte_ok (first_n 0 bs n).
Proof. intros H. apply Forall_first_n; [done|]. unfold byte_ok. lia. Qed.

(** Every field the request writes is one the reader reads back. *)
Lemma request_fields_ok q :
  bcl_request_ok q -> Forall (fun f => unbroken f.2) (request_fields q) -> Forall kv_ok (request_fields q).
Proof.
  intros Hq. assert (Hnil : forall cap, (0 < cap)%nat -> cstring cap []).
  { intros cap Hc. split; [simpl; lia|apply not_elem_of_nil]. }
  assert (Hstr : forall k cap v, key_ok (bytes k) -> cstring cap v -> unbroken v ->
    kv_ok (bytes k, v)) by (intros; split; [done|by eapply cstring_value]).
  assert (Hmany : forall k cap (l : list (list Z)) n, key_ok (bytes k) -> Forall (cstring cap) l ->
    (0 < cap)%nat -> Forall (fun f : kv => unbroken f.2) (pair (bytes k) <$> first_n [] l n) ->
    Forall kv_ok (pair (bytes k) <$> first_n [] l n)).
  { intros k cap l n Hk Hl Hc. rewrite !Forall_fmap. intros Hu.
    pose proof (Forall_first_n _ [] l n Hl (Hnil cap ltac:(lia))) as Hf.
    rewrite list.Forall_forall in *. intros v Hv. eapply Hstr; [done|by apply Hf|]. by apply (Hu v). }
  assert (Hpay : forall v, v = hex_text (first_n 0 (b_payload (q_ballot q)) (b_payload_len (q_ballot q))) ->
    kv_ok (bytes "payload", v)).
  { intros v ->. split; [lit_key|]. pose proof (first_n_clean _ (b_payload_len (q_ballot q)) (ro_payload q Hq)) as Hb.
    by apply hex_text_clean. }
  unfold request_fields. destruct (q_op q) eqn:Hop; try (by intros; constructor).
  all: rewrite ?Forall_app, ?Forall_cons, ?Forall_nil; cbn [fst snd].
  all: try (intros [Hn Hrest]; split_and!; [clear Hrest|by try apply Hpay..]).
  all: try (apply (Hstr "nonce"%string _ _ ltac:(lit_key) (ro_nonce q Hq)); done).
  all: try (apply (Hstr "hash"%string _ _ ltac:(lit_key) (ro_hash q Hq)); done).
  intros (Hid & (Ht & Ho & Hc & _) & Hopts & Hel). split_and!; try done.
  - case_bool_decide; [constructor|]. apply Forall_singleton. rewrite Forall_singleton in Hid.
    apply (Hstr "election_id"%string _ _ ltac:(lit_key) (ro_id q Hq)); done.
  - apply (Hstr "title"%string _ _ ltac:(lit_key) (ro_title q Hq)); done.
  - apply (Hstr "open_time"%string _ _ ltac:(lit_key) (ro_open q Hq)); done.
  - apply (Hstr "close_time"%string _ _ ltac:(lit_key) (ro_close q Hq)); done.
  - apply (Hmany "option"%string _ _ _ ltac:(lit_key) (ro_options q Hq)); [vm_compute; lia|done].
  - apply (Hmany "eligible"%string _ _ _ ltac:(lit_key) (ro_eligible q Hq)); [vm_compute; lia|done].
Qed.

(** ** Decoding *)

Lemma before_slash_app id s : 47 ∉ id -> before_slash (id ++ 47 :: s) = id /\ before_slash id = id.
Proof.
  induction id as [|c id IH]; intros H; simpl; [done|]. apply not_elem_of_cons in H as [Hc H].
  rewrite (proj2 (Z.eqb_neq c 47)) by done. destruct (IH H) as [-> ->]. done.
Qed.

Lemma path_election_id_back id op :
  (length id < BB_ID_LEN)%nat -> id <> [] -> 47 ∉ id ->
  path_election_id (ELECTION_PREFIX ++ id ++ path_suffix op) = Some id.
Proof.
  intros Hl Hne Hs. unfold path_election_id. rewrite take_app_length, drop_app_length, bool_decide_true by done.
  assert (before_slash (id ++ path_suffix op) = id) as ->.
  { destruct (before_slash_app id [] Hs) as [_ H0]. destruct op; cbn [path_suffix]; rewrite ?app_nil_r; try done;
      apply before_slash_app; done. }
  rewrite take_ge by (unfold BB_ID_LEN in *; lia). by destruct id.
Qed.

Lemma trunc_all cap vs : Forall (cstring cap) vs -> trunc cap <$> vs = vs.
Proof. induction 1 as [|v vs [Hv _] _ IH]; [done|]. rewrite fmap_cons, IH. by rewrite trunc_id. Qed.

Lemma create_kv_options vs t es ec op cl id j :
  (length vs <= 16)%nat -> Forall (cstring BB_OPTION_LEN) vs ->
  foldl (fun c f => create_kv c f.1 f.2)
    (mkCreateCtx (mkConfig t (replicate 16 []) 0 es ec op cl) id 0 j) (pair (bytes "option") <$> vs) =
  mkCreateCtx (mkConfig t (vs ++ replicate (16 - length vs) []) 0 es ec op cl) id (Z.of_nat (length vs)) j.
Proof.
  intros Hl Hvs. rewrite foldl_fmap.
  rewrite (fill_slots _ (fun arr i => mkCreateCtx (mkConfig t arr 0 es ec op cl) id i j) (trunc BB_OPTION_LEN));
    [|intros arr i v Hi _|done].
  - by rewrite trunc_all.
  - cbn [fst snd]. unfold create_kv.
    change (is_key (bytes "option") "election_id") with false. change (is_key (bytes "option") "title") with false.
    change (is_key (bytes "option") "open_time") with false. change (is_key (bytes "option") "close_time") with false.
    change (is_key (bytes "option") "option") with true. cbv iota.
    rewrite (proj2 (Z.ltb_lt i BB_MAX_OPTIONS)) by (unfold BB_MAX_OPTIONS; lia). done.
Qed.

Lemma create_kv_eligible vs t os oc op cl id j :
  (length vs <= 64)%nat -> Forall (cstring BB_CERT_LEN) vs ->
  foldl (fun c f => create_kv c f.1 f.2)
    (mkCreateCtx (mkConfig t os oc (replicate 64 []) 0 op cl) id j 0) (pair (bytes "eligible") <$> vs) =
  mkCreateCtx (mkConfig t os oc (vs ++ replicate (64 - length vs) []) 0 op cl) id j (Z.of_nat (length vs)).
Proof.
  intros Hl Hvs. rewrite foldl_fmap.
  rewrite (fill_slots _ (fun arr i => mkCreateCtx (mkConfig t os oc arr 0 op cl) id j i) (trunc BB_CERT_LEN));
    [|intros arr i v Hi _|done].
  - by rewrite trunc_all.
  - cbn [fst snd]. unfold create_kv.
    change (is_key (bytes "eligible") "election_id") with false. change (is_key (bytes "eligible") "title") with false.
    change (is_key (bytes "eligible") "open_time") with false. change (is_key (bytes "eligible") "close_time") with false.
    change (is_key (bytes "eligible") "option") with false. change (is_key (bytes "eligible") "eligible") with true. cbv iota.
    rewrite (proj2 (Z.ltb_lt i BB_MAX_VOTERS)) by (unfold BB_MAX_VOTERS; lia). done.
Qed.

Lemma cstring_first_n cap l n : (0 < cap)%nat -> Forall (cstring cap) l -> Forall (cstring cap) (first_n [] l n).
Proof. intros Hc Hl. apply Forall_first_n; [done|]. split; [done|apply not_elem_of_nil]. Qed.

(** Decoding the body of each kind of request. *)
Lemma decode_create q :
  bcl_request_ok q -> q_op q = BCL_CREATE ->
  let cfg := q_config q in
  foldl (fun c f => create_kv c f.1 f.2) (mkCreateCtx zero_config [] 0 0) (request_fields q) =
  mkCreateCtx (mkConfig (cfg_title cfg) (padded [] 16 (cfg_options cfg) (cfg_option_count cfg)) 0
    (padded [] 64 (cfg_eligible cfg) (cfg_eligible_count cfg)) 0 (cfg_open_time cfg) (cfg_close_time cfg))
    (q_election_id q) (cfg_option_count cfg) (cfg_eligible_count cfg).
Proof.
  intros Hq Hop cfg. unfold request_fields. rewrite Hop. fold cfg. rewrite !foldl_app.
  pose proof (ro_option_count q Hq) as Hoc. pose proof (ro_eligible_count q Hq) as Hec.
  unfold BB_MAX_OPTIONS, BB_MAX_VOTERS in *. fold cfg in Hoc, Hec.
  assert (Hid : foldl (fun c f => create_kv c f.1 f.2) (mkCreateCtx zero_config [] 0 0)
    (if bool_decide (q_election_id q = []) then [] else [(bytes "election_id", q_election_id q)]) =
    mkCreateCtx zero_config (q_election_id q) 0 0).
  { case_bool_decide as Hn; [by rewrite Hn|]. simpl. change (is_key _ _) with true. cbv iota.
    by rewrite trunc_id by apply (ro_id q Hq). }
  rewrite Hid.
  transitivity (foldl (fun c f => create_kv c f.1 f.2)
    (foldl (fun c f => create_kv c f.1 f.2)
       (mkCreateCtx (mkConfig (cfg_title cfg) (replicate 16 []) 0 (replicate 64 []) 0 (cfg_open_time cfg)
          (cfg_close_time cfg)) (q_election_id q) 0 0)
       (pair (bytes "option") <$> first_n [] (cfg_options cfg) (cfg_option_count cfg)))
    (pair (bytes "eligible") <$> first_n [] (cfg_eligible cfg) (cfg_eligible_count cfg))).
  { do 2 f_equal. cbn [foldl fst snd]. unfold zero_config, create_kv at 3.
    change (is_key (bytes "title") "election_id") with false. change (is_key (bytes "title") "title") with true.
    cbv iota. unfold create_kv at 2. 
    change (is_key (bytes "open_time") "election_id") with false. change (is_key (bytes "open_time") "title") with false.
    change (is_key (bytes "open_time") "open_time") with true. cbv iota. unfold create_kv.
    change (is_key (bytes "close_time") "election_id") with false. change (is_key (bytes "close_time") "title") with false.
    change (is_key (bytes "close_time") "open_time") with false.
    change (is_key (bytes "close_time") "close_time") with true. cbv iota.
    by rewrite !trunc_id by (apply (ro_title q Hq) || apply (ro_open q Hq) || apply (ro_close q Hq)). }
  rewrite create_kv_options, create_kv_eligible; rewrite ?length_first_n; try lia.
  - unfold padded. by rewrite !Z2Nat.id by lia.
  - apply cstring_first_n; [unfold BB_CERT_LEN; lia|apply (ro_eligible q Hq)].
  - apply cstring_first_n; [unfold BB_OPTION_LEN; lia|apply (ro_options q Hq)].
Qed.

(** A payload whose hex does not fit the reader's line buffer. *)
Definition oversized (q : bcl_request) : bool :=
  match q_op q with BCL_CAST | BCL_UPDATE => 159 <? b_payload_len (q_ballot q) | _ => false end.

Lemma kv_read_short k cap v : cstring cap v -> (cap <= VAL_CAP)%nat -> kv_read (k, v) = (k, v).
Proof. intros [Hl _] Hc. unfold kv_read. cbn [fst snd]. by rewrite take_ge by lia. Qed.

Lemma kv_read_many k cap vs :
  Forall (cstring cap) vs -> (cap <= VAL_CAP)%nat -> kv_read <$> (pair k <$> vs) = pair k <$> vs.
Proof.
  intros Hvs Hc. rewrite <- list_fmap_compose. apply list_fmap_ext. intros i v Hv. cbn.
  rewrite Forall_lookup in Hvs. by eapply kv_read_short; [apply (Hvs i)|].
Qed.

Lemma create_fields_read q :
  bcl_request_ok q -> q_op q = BCL_CREATE -> kv_read <$> request_fields q = request_fields q.
Proof.
  intros Hq Hop. unfold request_fields. rewrite Hop, !fmap_app, !fmap_cons.
  rewrite (kv_read_short _ _ _ (ro_title q Hq)), (kv_read_short _ _ _ (ro_open q Hq)),
    (kv_read_short _ _ _ (ro_close q Hq)) by (vm_compute; lia).
  rewrite (kv_read_many _ BB_OPTION_LEN), (kv_read_many _ BB_CERT_LEN); [| |vm_compute; lia| |vm_compute; lia].
  - case_bool_decide; [done|]. rewrite fmap_cons. by rewrite (kv_read_short _ _ _ (ro_id q Hq)) by (vm_compute; lia).
  - apply cstring_first_n; [unfold BB_CERT_LEN; lia|apply (ro_eligible q Hq)].
  - apply cstring_first_n; [unfold BB_OPTION_LEN; lia|apply (ro_options q Hq)].
Qed.

Lemma decode_ballot q cert :
  bcl_request_ok q -> q_op q = BCL_CAST \/ q_op q = BCL_UPDATE ->
  let b := q_ballot q in
  exists b', foldl (fun c f => ballot_kv c f.1 f.2)
    (mkBallot cert [] (replicate BB_CIPHERTEXT_MAX 0) 0, false) (kv_read <$> request_fields q) = (b', negb (oversized q)) /\
  (oversized q = false -> b' =
    mkBallot cert (b_nonce b) (padded 0 BB_CIPHERTEXT_MAX (b_payload b) (b_payload_len b)) (b_payload_len b)).
Proof.
  intros Hq Hop b. set (hex := hex_text (first_n 0 (b_payload b) (b_payload_len b))).
  assert (Hf : kv_read <$> request_fields q = [(bytes "nonce", b_nonce b); (bytes "payload", take (VAL_CAP - 1) hex)]).
  { unfold request_fields. destruct Hop as [-> | ->]; rewrite !fmap_cons;
      by rewrite (kv_read_short _ _ _ (ro_nonce q Hq)) by (vm_compute; lia). }
  assert (Hov : oversized q = (159 <? b_payload_len b)) by (unfold oversized; by destruct Hop as [-> | ->]).
  rewrite Hf, Hov. cbn [foldl fst snd]. unfold ballot_kv at 2. change (is_key (bytes "nonce") "nonce") with true. cbv iota.
  unfold ballot_kv. change (is_key (bytes "payload") "nonce") with false.
  change (is_key (bytes "payload") "payload") with true. cbv iota.
  pose proof (ro_payload_len q Hq) as Hl. fold b in Hl.
  assert (Hlen : length hex = (2 * Z.to_nat (b_payload_len b))%nat) by (unfold hex; by rewrite length_hex_text, length_first_n).
  unfold VAL_CAP. destruct (Z.ltb_spec 159 (b_payload_len b)).
  - unfold hex_decode. rewrite length_take_le by lia. change (negb (Z.of_nat (320 - 1) mod 2 =? 0)) with true. eexists. by split.
  - rewrite take_ge by lia. unfold hex. rewrite hex_back; [|apply first_n_clean, (ro_payload q Hq)|rewrite length_first_n; lia].
    rewrite length_first_n, Z2Nat.id, trunc_id by (lia || apply (ro_nonce q Hq)). eexists. by split.
Qed.

Lemma decode_hash q :
  bcl_request_ok q -> q_op q = BCL_CHECK \/ q_op q = BCL_ADMIN_CHECK ->
  foldl (fun c f => hash_kv c f.1 f.2) [] (kv_read <$> request_fields q) = q_hash q.
Proof.
  intros Hq Hop. assert (Hf : request_fields q = [(bytes "hash", q_hash q)]).
  { unfold request_fields. by destruct Hop as [-> | ->]. }
  rewrite Hf, fmap_cons, (kv_read_short _ _ _ (ro_hash q Hq)) by (vm_compute; lia). cbn [fmap list_fmap foldl fst snd]. unfold hash_kv. change (is_key (bytes "hash") "hash") with true. cbv iota.
  apply trunc_id, (ro_hash q Hq).
Qed.

(** ** The round trip *)

Lemma op_name_back op m :
  method_from_op op = Some m -> op_from_method m = Some op /\ (0 < length m < HTTTP_MAX_METHOD)%nat.
Proof. destruct op; intros [= <-]; (split; [vm_compute; reflexivity|vm_compute; lia]). Qed.

(** The headers a request goes out with, and the name read from those that arrive. *)
Definition cert_headers (cert : list Z) : list htttp_header :=
  if bool_decide (cert = []) then [] else [mkHeader CERT_NAME cert].

Lemma cert_headers_set cert hs :
  (if bool_decide (cert = []) then Some []
   else match htttp_header_set [] CERT_NAME cert with Ok hs => Some hs | Err _ => None end) = Some hs ->
  hs = cert_headers cert.
Proof.
  unfold cert_headers. case_bool_decide as Hc; [by intros [= <-]|]. unfold htttp_header_set.
  rewrite bool_decide_false by done. destruct (negb _ || negb _); [done|]. cbn [length Nat.leb].
  destruct (_ ≫= _) as [hs'|] eqn:E; [|done]. intros [= <-].
  apply res_bind_Ok in E as (k & (-> & _)%or_err_Ok%copy_token_inv & E).
  apply res_bind_Ok in E as (v & (-> & _)%or_err_Ok%copy_token_inv & E). by injection E as <-.
Qed.

Lemma cert_header_get cert n :
  match htttp_header_get (cert_headers cert ++ length_header n) CERT_NAME with Some c => c | None => [] end = cert.
Proof.
  unfold cert_headers, length_header. case_bool_decide as Hc.
  - subst. by destruct (0 <? n).
  - cbn [app htttp_header_get key value]. by change (ci_eq CERT_NAME CERT_NAME) with true.
Qed.

Lemma cert_headers_kept cert : kept_headers false (cert_headers cert) = cert_headers cert.
Proof. unfold cert_headers. by case_bool_decide. Qed.

(** The body stays within its buffer. *)
Definition body_fits (b : list Z) : Prop := Z.of_nat (length b) <= CODEC_BODY_MAX.

Lemma body_append_fits out text out' : body_append out text = Some out' -> body_fits out'.
Proof.
  unfold body_append, body_fits. destruct (Z.leb_spec (CODEC_BODY_MAX - Z.of_nat (length out)) (Z.of_nat (length text))); [done|].
  case_match; [done|]. intros [= <-]. rewrite length_app. lia.
Qed.

Lemma body_append_all_fits out texts out' : body_fits out -> body_append_all out texts = Some out' -> body_fits out'.
Proof.
  revert out. induction texts as [|t texts IH]; intros out Hout; simpl; [by intros [= <-]|].
  intros (o & Ho%body_append_fits & H)%bind_Some. by eapply IH.
Qed.

(** The body as libhtttp gets it. *)
Lemma message_body_parts text :
  body_fits text ->
  exists mb mn, message_body text = (mb, mn) /\ body_of mn mb = mb /\ Z.of_nat (length (default [] mb)) = mn /\
    0 <= mn <= UINT32_MAX.
Proof.
  unfold body_fits, CODEC_BODY_MAX, message_body, UINT32_MAX. intros Hfits.
  destruct (Nat.ltb_spec 0 (length text)); eexists _, _; (split; [reflexivity|]); [|done].
  unfold body_of. rewrite (proj2 (Z.ltb_lt _ _)) by lia. simpl. split_and!; (done || lia).
Qed.

Lemma request_parts_fits q p b : request_parts q = Some (p, b) -> body_fits b.
Proof.
  assert (body_fits []) by (unfold body_fits, CODEC_BODY_MAX; simpl; lia).
  unfold request_parts. destruct (q_op q); intros Hp; repeat (apply bind_Some in Hp as (? & ? & Hp));
    apply Some_pair in Hp as [_ ->]; try done; try (by eapply body_append_fits).
  do 2 (eapply body_append_all_fits; [|done]). by eapply body_append_fits.
Qed.

(** What arrives of an encoded request. *)
Lemma encoded_request_parses q cap wire :
  bcl_request_ok q -> bcl_encode_request q cap = Some wire ->
  exists h, htttp_parse_request wire = Ok h /\ op_from_method (method h) = Some (q_op q) /\
    match htttp_header_get (headers h) CERT_NAME with Some c => c | None => [] end = q_cert_name q /\
    (path_op (q_op q) = true -> path_election_id (path h) = Some (q_election_id q)) /\
    body h = (message_body (fields_text (request_fields q))).1 /\ Forall kv_ok (request_fields q).
Proof.
  intros Hq. unfold bcl_encode_request. intros (m & Hm & H)%bind_Some. apply bind_Some in H as ([p b] & Hp & H).
  apply bind_Some in H as (hs & Hhs%cert_headers_set & H). subst hs.
  pose proof (request_parts_fits _ _ _ Hp) as Hfits.
  apply (request_parts_inv q) in Hp as (-> & Hub & Hpath & Hplen); [|done].
  apply op_name_back in Hm as [Hm Hml]. rewrite !(trunc_id _ m), !(trunc_id _ p) in H by lia.
  pose proof (request_fields_ok q Hq Hub) as Hok. set (text := fields_text (request_fields q)) in *.
  destruct (message_body_parts text Hfits) as (mb & mn & Hmb & Hb1 & Hb2 & Hb3). rewrite Hmb in *.
  destruct (htttp_serialize_request _ cap) as [w|] eqn:Hser; [|done]. injection H as ->.
  apply serialized_request_parses in Hser; cbn [method path headers body body_len] in *.
  - rewrite cert_headers_kept, Hb1 in Hser. eexists. split; [exact Hser|]. cbn [method path headers body].
    split_and!; [done|apply cert_header_get| |done|done].
    intros Hop. rewrite (Hpath Hop). destruct (ro_path q Hq Hop). apply path_election_id_back; [apply (ro_id q Hq)|done..].
  - split; cbn [method path headers body body_len]; [lia|done| |done|done].
    unfold cert_headers. case_bool_decide; [constructor|]. apply Forall_singleton. cbn [key value].
    split; [vm_compute; lia|]. split.
    + destruct (ro_cert q Hq) as [Hl _]. unfold BB_CERT_LEN, HTTTP_MAX_VALUE in *. lia.
    + apply (bool_decide_unpack _). vm_compute. exact I.
  - rewrite cert_headers_kept, length_app. unfold cert_headers, length_header, HTTTP_MAX_HEADERS.
    case_bool_decide; destruct (0 <? mn); simpl; lia.
Qed.

(** What a decoded request is, for every request that encodes. *)
Lemma encoded_request_decodes q cap wire :
  bcl_request_ok q -> bcl_encode_request q cap = Some wire ->
  exists h, htttp_parse_request wire = Ok h /\
    bcl_decode_request h = if oversized q then None else Some (request_seen q).
Proof.
  intros Hq He. destruct (encoded_request_parses q cap wire Hq He) as (h & Hh & Hop & Hcert & Hpath & Hbody & Hok).
  exists h. split; [done|]. unfold bcl_decode_request. rewrite Hop. cbn [mbind option_bind].
  assert (Hc : match htttp_header_get (headers h) CERT_NAME with Some c => trunc BB_CERT_LEN c | None => [] end = q_cert_name q).
  { rewrite <- Hcert. destruct (ro_cert q Hq) as [Hl _]. rewrite <- Hcert in Hl. destruct (htttp_header_get _ _); [|done].
    by apply trunc_id. }
  rewrite Hc, Hbody, !body_for_each_fields by done. clear Hbody Hcert Hc Hh He.
  pose proof (decode_create q Hq) as Hcreate. pose proof (create_fields_read q Hq) as Hread.
  pose proof (decode_ballot q (q_cert_name q) Hq) as Hballot. pose proof (decode_hash q Hq) as Hhash.
  pose proof (ro_check q Hq) as Hne. rewrite (trunc_id _ (q_cert_name q)) by apply (ro_cert q Hq).
  unfold request_seen, oversized in *.
  destruct (q_op q) eqn:Ho; cbn [path_op] in Hpath; rewrite ?Hpath by done; cbn [mbind option_bind]; try done.
  all: try (rewrite Hhash, bool_decide_false by auto; done).
  all: try (destruct Hballot as (b & -> & Hb); [by auto|]; destruct (159 <? _); [done|]; by rewrite Hb).
  by rewrite Hread, Hcreate.
Qed.

(** C8: Requests cross the wire. A request that its struct can hold, with an id that
    is not empty and has no slash for the operations that put it in the path, and a
    hash that is not empty for those that ask for one, and that encodes, is parsed and
    decoded on the other side into the same operation, with the caller's name and
    every field the operation carries, and nothing else: a title, an option or a name
    cannot smuggle in a line of its own. The one exception is a payload over 159
    bytes, whose hex the reader's 320-byte line buffer cuts: the encoder accepts up to
    256, and the decoder refuses the message. *)
Theorem codec_request_roundtrip q cap wire :
  bcl_request_ok q -> bcl_encode_request q cap = Some wire ->
  exists h, htttp_parse_request wire = Ok h /\
    bcl_decode_request h = if oversized q then None else Some (request_seen q).
Proof. apply encoded_request_decodes. Qed.

Definition create_example : bcl_request :=
  mkBclRequest BCL_CREATE [] (bytes "E-7") zero_ballot []
    (mkConfig (bytes "Lunch = food") ([bytes "tea"; bytes "soup"] ++ replicate 14 []) 2
       ([bytes "alice"; bytes "bob"] ++ replicate 62 []) 2 (bytes "09:00") (bytes "12:00")).

Lemma cstring_lit cap s : bool_decide ((length s < cap)%nat /\ (0 ∉ s)) = true -> cstring cap s.
Proof. rewrite bool_decide_eq_true. done. Qed.

Lemma create_example_ok : bcl_request_ok create_example.
Proof.
  split; cbn -[bytes replicate]; try (apply cstring_lit; vm_compute; reflexivity); try (vm_compute; done).
  - by intros [?|?].
  - apply Forall_replicate. unfold byte_ok. lia.
  - rewrite !Forall_cons. split_and!; try (apply cstring_lit; vm_compute; reflexivity).
    apply Forall_replicate, cstring_lit. vm_compute. reflexivity.
  - rewrite !Forall_cons. split_and!; try (apply cstring_lit; vm_compute; reflexivity).
    apply Forall_replicate, cstring_lit. vm_compute. reflexivity.
Qed.

Lemma codec_request_roundtrip_witness :
  exists wire h, bcl_encode_request create_example 65536 = Some wire /\ htttp_parse_request wire = Ok h /\
    bcl_decode_request h = Some create_example.
Proof.
  destruct (bcl_encode_request create_example 65536) as [wire|] eqn:E; [|vm_compute in E; discriminate].
  destruct (codec_request_roundtrip create_example 65536 wire create_example_ok E) as (h & Hh & Hd).
  exists wire, h. split; [reflexivity|]. split; [exact Hh|]. rewrite Hd. vm_compute. reflexivity.
Defined.
