(* ===== verification/CodecResponse.v ===== *)
(** * CodecResponse: what the daemon's answer says, and what it can hold

    The response half of ballotbox/src/libballotclient/codec.c: an encoded response
    is decoded into the same one, and whatever bytes arrive, a decoded response stays
    within its arrays. *)

From Stdlib Require Import String.
From stdpp Require Import options.
From S2P Require Import Prelude Text Htttp HtttpTheorems BallotTypes BallotDb Codec CodecTheorems.
#[local] Open Scope Z_scope.

(** ** Numbers in fields *)

Definition int_ok (n : Z) : Prop := INT_MIN <= n <= INT_MAX.

(** The bytes [%d] writes. *)
Definition int_char (c : Z) : Prop := c = 45 \/ 48 <= c <= 57.

Lemma decimal_int_chars n : int_ok n -> Forall int_char (decimal_int n) /\ (length (decimal_int n) <= 11)%nat.
Proof.
  unfold int_ok, INT_MIN, INT_MAX. intros Hn.
  assert (Hd : forall m, 0 <= m <= 2147483648 -> Forall int_char (decimal m) /\ (length (decimal m) <= 10)%nat).
  { intros m Hm. destruct (decimal_digits m) as (_ & Hd & Hl); [unfold UINT32_MAX; lia|]. split; [|lia].
    rewrite list.Forall_forall. intros c Hc%list_elem_of_In. rewrite forallb_forall in Hd. specialize (Hd c Hc).
    unfold is_digit in Hd. bool_arith. right. lia. }
  unfold decimal_int. destruct (Z.ltb_spec n 0).
  - destruct (Hd (- n)) as [Hc Hl]; [lia|]. split; [constructor; [by left|done]|]. simpl. lia.
  - destruct (Hd n) as [Hc Hl]; [lia|]. split; [done|lia].
Qed.

Lemma int_chars_value s : Forall int_char s -> value_ok s.
Proof.
  intros H. rewrite list.Forall_forall in H. unfold value_ok, unbroken, CR, LF.
  split_and!; intros Hin; destruct (H _ Hin); lia.
Qed.

Lemma int_value_ok n : int_ok n -> value_ok (decimal_int n).
Proof. intros [Hn _]%decimal_int_chars. by apply int_chars_value. Qed.

Lemma atoi_int n : int_ok n -> atoi (decimal_int n) = n.
Proof. intros Hn. pose proof (atoi_decimal_int n [] Hn) as H. rewrite app_nil_r in H. by apply H. Qed.

(** ** The tally line *)

(** A comma in front of each. *)
Fixpoint csv_tail (ns : list Z) : list Z :=
  match ns with [] => [] | n :: ns => 44 :: decimal_int n ++ csv_tail ns end.

Definition tally_csv (ns : list Z) : list Z :=
  match ns with [] => [] | n :: ns => decimal_int n ++ csv_tail ns end.

Lemma tally_csv_cons n ns : tally_csv (n :: ns) = decimal_int n ++ csv_tail ns.
Proof. done. Qed.

Lemma tally_texts_csv resp : mjoin (tally_texts resp) = tally_csv (first_n 0 (p_tally resp) (p_option_count resp)).
Proof.
  unfold tally_texts, first_n, range.
  assert (Htail : forall m a, 0 < a -> mjoin ((fun i => (if i =? 0 then [] else [44]) ++ decimal_int (aget 0 (p_tally resp) i))
    <$> seqZ a (Z.of_nat m)) = csv_tail (aget 0 (p_tally resp) <$> seqZ a (Z.of_nat m))).
  { induction m as [|m IH]; intros a Ha; [done|]. rewrite seqZ_cons by lia. rewrite !fmap_cons. cbn [csv_tail].
    change (mjoin (?x :: ?l)) with (x ++ mjoin l). rewrite (proj2 (Z.eqb_neq a 0)) by lia. cbn [app].
    do 2 f_equal. replace (Z.pred (Z.of_nat (S m))) with (Z.of_nat m) by lia. apply IH. lia. }
  destruct (Z.leb_spec (p_option_count resp) 0) as [Hz|Hpos]; [by rewrite seqZ_nil|].
  rewrite seqZ_cons by lia. rewrite !fmap_cons. cbn [tally_csv]. change (mjoin (?x :: ?l)) with (x ++ mjoin l).
  cbn [Z.eqb app]. f_equal. specialize (Htail (Z.to_nat (Z.pred (p_option_count resp))) (Z.succ 0)).
  rewrite Z2Nat.id in Htail by lia. apply Htail. lia.
Qed.

Lemma no_comma n : int_ok n -> 44 ∉ decimal_int n.
Proof. intros [H _]%decimal_int_chars Hin. rewrite list.Forall_forall in H. destruct (H _ Hin); lia. Qed.

Lemma after_comma_app s t : 44 ∉ s -> after_comma (s ++ t) = after_comma t.
Proof.
  induction s as [|c s IH]; intros Hs; simpl; [done|]. apply not_elem_of_cons in Hs as [Hc Hs].
  rewrite (proj2 (Z.eqb_neq c 44)) by done. by apply IH.
Qed.

Lemma csv_tail_head ns c : head (csv_tail ns) = Some c -> is_digit c = false.
Proof. destruct ns; simpl; [done|]. by intros [= <-]. Qed.

Lemma tally_loop_back ns pre m :
  Forall int_ok ns -> (length pre + length ns <= m)%nat -> (0 < length ns)%nat ->
  tally_loop (m - length pre) (tally_csv ns) (Z.of_nat (length pre)) (pre ++ replicate (m - length pre) 0) =
  (pre ++ ns) ++ replicate (m - (length pre + length ns)) 0.
Proof.
  intros Hns. revert pre. induction Hns as [|n ns Hn Hns IH]; intros pre Hl Hpos; [simpl in Hpos; lia|].
  rewrite tally_csv_cons. cbn [length] in Hl.
  destruct (m - length pre)%nat as [|k] eqn:Hk; [lia|].
  assert (Hne : exists c s, decimal_int n ++ csv_tail ns = c :: s).
  { pose proof (decimal_int_nonempty n Hn). destruct (decimal_int n); [done|]. simpl. eauto. }
  destruct Hne as (c & s & Hcs). rewrite Hcs. cbn [tally_loop]. rewrite <- Hcs, aset_next.
  rewrite atoi_decimal_int; [|done|intros c'; apply csv_tail_head]. rewrite after_comma_app by (by apply no_comma).
  destruct ns as [|n' ns].
  { simpl. replace (m - (length pre + 1))%nat with k by lia. done. }
  change (after_comma (csv_tail (n' :: ns))) with (Some (tally_csv (n' :: ns))). cbv iota.
  replace (Z.of_nat (length pre) + 1) with (Z.of_nat (length (pre ++ [n]))) by (rewrite length_app; simpl; lia).
  replace k with (m - length (pre ++ [n]))%nat by (rewrite length_app; simpl; lia).
  rewrite IH by (rewrite ?length_app; simpl in *; lia). rewrite <- (app_assoc pre [n]). cbn [app].
  do 2 f_equal. rewrite length_app. simpl. lia.
Qed.

Lemma tally_csv_value ns : Forall int_ok ns -> value_ok (tally_csv ns) /\ (length (tally_csv ns) <= 12 * length ns)%nat.
Proof.
  assert (Htail : forall ns, Forall int_ok ns ->
    Forall (fun c => int_char c \/ c = 44) (csv_tail ns) /\ (length (csv_tail ns) <= 12 * length ns)%nat).
  { induction 1 as [|n l Hn _ [IH IHl]]; [split; [constructor|simpl; lia]|]. destruct (decimal_int_chars n Hn) as [Hc Hl].
    split; [|simpl; rewrite length_app; lia]. constructor; [by right|]. apply Forall_app. split; [|done].
    eapply Forall_impl; [exact Hc|]. auto. }
  destruct 1 as [|n l Hn Hl]; [split; [|simpl; lia]|].
  { unfold value_ok, unbroken. split_and!; apply not_elem_of_nil. }
  rewrite tally_csv_cons. destruct (decimal_int_chars n Hn) as [Hc Hlen]. destruct (Htail l Hl) as [Ht Htl].
  split; [|rewrite length_app; simpl; lia]. rewrite list.Forall_forall in Hc, Ht.
  unfold value_ok, unbroken, CR, LF. split_and!; intros [H%Hc|H%Ht]%elem_of_app; unfold int_char in *; lia.
Qed.

(** ** The row lines *)

Definition row_value (h : bb_ballot_hash) : list Z :=
  h_hash h ++ [44] ++ decimal_int (h_option_index h) ++ [44] ++ decimal_int (h_version h) ++ [44] ++
  decimal_int (h_superseded h).

Definition row_ok (h : bb_ballot_hash) : Prop :=
  cstring BB_HASH_LEN (h_hash h) /\ h_hash h <> [] /\ (44 ∉ h_hash h) /\
  int_ok (h_option_index h) /\ int_ok (h_version h) /\ int_ok (h_superseded h).

Lemma before_comma_app s t : 44 ∉ s -> before_comma (s ++ 44 :: t) = s.
Proof.
  induction s as [|c s IH]; intros Hs; simpl; [done|]. apply not_elem_of_cons in Hs as [Hc Hs].
  rewrite (proj2 (Z.eqb_neq c 44)) by done. by rewrite IH.
Qed.

Lemma comma_int_back n rest :
  int_ok n -> (forall c, head rest = Some c -> is_digit c = false) ->
  comma_int (44 :: decimal_int n ++ rest) = Some (n, rest).
Proof. intros Hn Hr. cbn [comma_int Z.eqb]. by apply scan_int_decimal_int. Qed.

Lemma scan_row_back h : row_ok h -> scan_row (row_value h) = Some h.
Proof.
  intros ([Hl H0] & Hne & Hc & Hi & Hv & Hs). unfold scan_row, row_value. cbn [app].
  rewrite before_comma_app by done. rewrite take_ge by (unfold BB_HASH_LEN in *; lia).
  rewrite bool_decide_false by done. rewrite drop_app_length.
  rewrite comma_int_back by (done || by intros ? [= <-]). cbn [mbind option_bind].
  rewrite comma_int_back by (done || by intros ? [= <-]). cbn [mbind option_bind].
  pose proof (comma_int_back (h_superseded h) [] Hs) as He. rewrite app_nil_r in He. rewrite He by done.
  cbn [mbind option_bind]. rewrite trunc_id by done. by destruct h.
Qed.

Lemma row_value_ok h : row_ok h -> unbroken (row_value h) -> value_ok (row_value h) /\ (length (row_value h) < VAL_CAP)%nat.
Proof.
  intros ([Hl H0] & _ & _ & Hi & Hv & Hs) Hu. split.
  - split; [|done]. unfold row_value. rewrite !not_elem_of_app, !not_elem_of_cons.
    split_and!; try done; try apply not_elem_of_nil; by apply int_value_ok.
  - unfold row_value. rewrite !length_app. destruct (decimal_int_chars _ Hi), (decimal_int_chars _ Hv), (decimal_int_chars _ Hs).
    unfold BB_HASH_LEN, VAL_CAP in *. simpl. lia.
Qed.

(** ** The fields of a response *)

(** The fields after the status. *)
Definition op_fields (op : bcl_op) (p : bcl_response) : list kv :=
  let e := p_election p in
  match op with
  | BCL_CREATE | BCL_ADMIN_NEXT_ID =>
      if bool_decide (e_id e = []) then [] else [(bytes "election_id", e_id e)]
  | BCL_OPEN | BCL_CLOSE | BCL_PUBLISH => []
  | BCL_JOIN =>
      if bool_decide (e_id e = []) then []
      else
        [(bytes "election_id", e_id e); (bytes "title", e_title e); (bytes "state", bb_state_str (e_state e));
         (bytes "open_time", e_open_time e); (bytes "close_time", e_close_time e);
         (bytes "has_prior_ballot", decimal_int (p_has_prior_ballot p));
         (bytes "prior_ballot_version", decimal_int (p_prior_ballot_version p))] ++
        (pair (bytes "option") <$> first_n [] (e_options e) (e_option_count e))
  | BCL_CAST | BCL_UPDATE =>
      if bool_decide (rc_hash (p_receipt p) = []) then []
      else [(bytes "hash", rc_hash (p_receipt p)); (bytes "issued_at", rc_issued_at (p_receipt p))]
  | BCL_RESULTS | BCL_ADMIN_RESULTS =>
      [(bytes "election_id", e_id e); (bytes "title", e_title e);
       (bytes "tally_count", decimal_int (p_option_count p))] ++
      (if 0 <? p_option_count p then
         [(bytes "tally", tally_csv (first_n 0 (p_tally p) (p_option_count p)))] ++
         (pair (bytes "result_option") <$> first_n [] (p_options p) (p_option_count p))
       else []) ++
      [(bytes "hash_count", decimal_int (p_hash_count p))] ++
      (pair (bytes "row") <$> (row_value <$> first_n zero_row (p_hashes p) (p_hash_count p)))
  | BCL_CHECK | BCL_ADMIN_CHECK =>
      [(bytes "found", decimal_int (p_found p))] ++
      (if p_found p =? 0 then []
       else [(bytes "found_option", decimal_int (p_found_option p)); (bytes "found_option_name", p_found_option_name p)])
  end.

(** A response as its struct can hold it. *)
Record bcl_response_ok (p : bcl_response) : Prop := {
  po_id : cstring BB_ID_LEN (e_id (p_election p));
  po_title : cstring BB_TITLE_LEN (e_title (p_election p));
  po_open : cstring BB_TIME_LEN (e_open_time (p_election p));
  po_close : cstring BB_TIME_LEN (e_close_time (p_election p));
  po_opts : Forall (cstring BB_OPTION_LEN) (e_options (p_election p));
  po_opt_count : 0 <= e_option_count (p_election p) <= BB_MAX_OPTIONS;
  po_prior : int_ok (p_has_prior_ballot p) /\ int_ok (p_prior_ballot_version p);
  po_hash : cstring BB_HASH_LEN (rc_hash (p_receipt p));
  po_issued : cstring BB_TIME_LEN (rc_issued_at (p_receipt p));
  po_tally : Forall int_ok (p_tally p);
  po_count : 0 <= p_option_count p <= BB_MAX_OPTIONS;
  po_options : Forall (cstring BB_OPTION_LEN) (p_options p);
  po_rows : Forall row_ok (first_n zero_row (p_hashes p) (p_hash_count p));
  po_hash_count : 0 <= p_hash_count p <= BB_MAX_VOTERS;
  po_found : int_ok (p_found p) /\ int_ok (p_found_option p);
  po_name : cstring BB_OPTION_LEN (p_found_option_name p)
}.

Definition ends (out : list Z) (fs : list kv) (out' : list Z) : Prop :=
  out' = out ++ fields_text fs /\ Forall (fun f : kv => unbroken f.2) fs.

Lemma ends_app out fs o gs out' : ends out fs o -> ends o gs out' -> ends out (fs ++ gs) out'.
Proof. intros [-> Hf] [-> Hg]. unfold ends. rewrite fields_text_app, app_assoc, Forall_app. done. Qed.

Lemma ends_nil out : ends out [] out.
Proof. split; [by rewrite app_nil_r|constructor]. Qed.

Lemma ends_cons out f o gs out' : ends out [f] o -> ends o gs out' -> ends out (f :: gs) out'.
Proof. apply (ends_app out [f]). Qed.

Lemma ends_str k v out out' : body_append out (field_str k v) = Some out' -> ends out [(bytes k, v)] out'.
Proof. apply append_field_str. Qed.

Lemma ends_int k n out out' : body_append out (field_int k n) = Some out' -> ends out [(bytes k, decimal_int n)] out'.
Proof. apply append_field_str. Qed.

Lemma ends_strs k arr n out out' :
  body_append_all out ((fun i => field_str k (aget [] arr i)) <$> range n) = Some out' ->
  ends out (pair (bytes k) <$> first_n [] arr n) out'.
Proof. apply append_fields_range. Qed.

Lemma ends_rows p out out' :
  body_append_all out ((fun i => row_text (aget zero_row (p_hashes p) i)) <$> range (p_hash_count p)) = Some out' ->
  ends out (pair (bytes "row") <$> (row_value <$> first_n zero_row (p_hashes p) (p_hash_count p))) out'.
Proof.
  intros H. apply body_append_fields. rewrite <- H. f_equal. unfold first_n. by rewrite <- !list_fmap_compose.
Qed.

Lemma append_all_text out texts out' : body_append_all out texts = Some out' -> out' = out ++ mjoin texts.
Proof.
  revert out. induction texts as [|t texts IH]; intros out; simpl; [intros [= <-]; by rewrite app_nil_r|].
  intros (o & [-> _]%body_append_inv & ->%IH)%bind_Some. by rewrite <- app_assoc.
Qed.

(** The four appends of the tally line make one field. *)
Lemma ends_tally p out o1 o2 o3 :
  Forall int_ok (first_n 0 (p_tally p) (p_option_count p)) ->
  body_append out (bytes "tally=") = Some o1 -> body_append_all o1 (tally_texts p) = Some o2 ->
  body_append o2 [LF] = Some o3 ->
  ends out [(bytes "tally", tally_csv (first_n 0 (p_tally p) (p_option_count p)))] o3.
Proof.
  intros Hn [-> _]%body_append_inv ->%append_all_text [-> _]%body_append_inv. split.
  - rewrite fields_text_one, tally_texts_csv. unfold kv_text, field. cbn [fst snd].
    change (bytes "tally=") with (bytes "tally" ++ [61]). by rewrite <- !app_assoc.
  - apply Forall_singleton. by apply tally_csv_value.
Qed.

#[local] Hint Resolve ends_str ends_int ends_strs ends_rows ends_nil : ends.

Lemma int_first_n l n : Forall int_ok l -> Forall int_ok (first_n 0 l n).
Proof. intros H. apply Forall_first_n; [done|]. unfold int_ok, INT_MIN, INT_MAX. lia. Qed.

Lemma ends_tally_block p out out' :
  bcl_response_ok p ->
  (if 0 <? p_option_count p then
     body ← body_append out (bytes "tally=");
     body ← body_append_all body (tally_texts p);
     body ← body_append body [LF];
     body_append_all body
       ((fun i => field_str "result_option" (aget [] (p_options p) i)) <$> range (p_option_count p))
   else Some out) = Some out' ->
  ends out (if 0 <? p_option_count p then
              [(bytes "tally", tally_csv (first_n 0 (p_tally p) (p_option_count p)))] ++
              (pair (bytes "result_option") <$> first_n [] (p_options p) (p_option_count p))
            else []) out'.
Proof.
  intros Hp H. destruct (0 <? p_option_count p); [|simplify_eq; apply ends_nil].
  repeat (apply bind_Some in H as (? & ? & H)). eapply ends_app; [|by apply ends_strs].
  eapply ends_tally; [apply int_first_n, (po_tally p Hp)|eassumption..].
Qed.

Lemma response_body_inv op p out out' :
  bcl_response_ok p -> response_body op p out = Some out' -> ends out (op_fields op p) out'.
Proof.
  intros Hp H. unfold response_body, op_fields in *.
  destruct op; repeat (case_bool_decide; [simplify_eq; by auto with ends|]);
    repeat (apply bind_Some in H as (? & ? & H)); try (simplify_eq; by auto with ends).
  all: try (repeat (eapply ends_cons; [by eauto with ends|]); by eauto with ends).
  all: try (eapply ends_app; [by eauto with ends|]; destruct (p_found p =? 0); [simplify_eq; by auto with ends|];
    apply bind_Some in H as (? & ? & H); eapply ends_cons; by eauto with ends).
  all: cbn [app]; do 3 (eapply ends_cons; [by eauto with ends|]); eapply ends_app;
    [eapply (ends_tally_block p); [done|eassumption]|]; eapply ends_cons; by eauto with ends.
Qed.

(** A field that is read back as it was written. *)
Definition kv_whole (f : kv) : Prop := kv_ok f /\ (length f.2 < VAL_CAP)%nat.

Lemma kv_read_whole fs : Forall kv_whole fs -> kv_read <$> fs = fs.
Proof.
  induction 1 as [|[k v] fs [_ Hl] _ IH]; [done|]. rewrite fmap_cons, IH. unfold kv_read. cbn [fst snd] in *.
  by rewrite take_ge by lia.
Qed.

Lemma whole_str k cap v : key_ok (bytes k) -> cstring cap v -> (cap <= VAL_CAP)%nat -> unbroken v -> kv_whole (bytes k, v).
Proof. intros Hk [Hl H0] Hc Hu. split; [done|]. cbn [snd]. lia. Qed.

Lemma whole_int k n : key_ok (bytes k) -> int_ok n -> kv_whole (bytes k, decimal_int n).
Proof.
  intros Hk Hn. split; [split; [done|by apply int_value_ok]|]. destruct (decimal_int_chars n Hn) as [_ Hl].
  cbn [snd]. unfold VAL_CAP. lia.
Qed.

Lemma whole_strs k cap l n :
  key_ok (bytes k) -> Forall (cstring cap) l -> (0 < cap <= VAL_CAP)%nat ->
  Forall (fun f : kv => unbroken f.2) (pair (bytes k) <$> first_n [] l n) ->
  Forall kv_whole (pair (bytes k) <$> first_n [] l n).
Proof.
  intros Hk Hl Hc. pose proof (cstring_first_n cap l n ltac:(lia) Hl) as Hf. rewrite !Forall_fmap, !list.Forall_forall in *.
  intros Hu v Hv. apply (whole_str _ cap); [done|by apply Hf|lia|by apply (Hu v)].
Qed.

Lemma whole_rows p :
  bcl_response_ok p ->
  Forall (fun f : kv => unbroken f.2) (pair (bytes "row") <$> (row_value <$> first_n zero_row (p_hashes p) (p_hash_count p))) ->
  Forall kv_whole (pair (bytes "row") <$> (row_value <$> first_n zero_row (p_hashes p) (p_hash_count p))).
Proof.
  intros Hp. pose proof (po_rows p Hp) as Hr. rewrite !Forall_fmap, !list.Forall_forall in *. intros Hu h Hh.
  destruct (row_value_ok h (Hr h Hh) (Hu h Hh)) as [Hv Hl]. split; [split; [lit_key|done]|done].
Qed.

Lemma whole_tally p :
  bcl_response_ok p -> kv_whole (bytes "tally", tally_csv (first_n 0 (p_tally p) (p_option_count p))).
Proof.
  intros Hp. destruct (tally_csv_value _ (int_first_n _ (p_option_count p) (po_tally p Hp))) as [Hv Hl].
  split; [split; [lit_key|done]|]. cbn [snd]. rewrite length_first_n in Hl. pose proof (po_count p Hp).
  unfold BB_MAX_OPTIONS, VAL_CAP in *. lia.
Qed.

Lemma unbroken_state s : unbroken (bb_state_str s).
Proof. unfold unbroken. destruct s; split; apply (bool_decide_unpack _); vm_compute; exact I. Qed.

(** Apply the lemma for a literal key. *)
Ltac whole :=
  lazymatch goal with
  | |- kv_whole (bytes ?k, decimal_int _) => apply (whole_int k); [lit_key|eassumption]
  | |- kv_whole (bytes "tally", _) => apply whole_tally; assumption
  | |- kv_whole (bytes ?k, _) => eapply (whole_str k); [lit_key|eassumption|vm_compute; lia|eassumption]
  | |- Forall kv_whole (pair (bytes "row") <$> _) => apply whole_rows; assumption
  | |- Forall kv_whole (pair (bytes ?k) <$> _) => eapply (whole_strs k); [lit_key|eassumption|vm_compute; lia|eassumption]
  | |- True => exact I
  end.

Lemma op_fields_whole op p :
  bcl_response_ok p -> Forall (fun f : kv => unbroken f.2) (op_fields op p) -> Forall kv_whole (op_fields op p).
Proof.
  intros Hp. pose proof Hp as Hp'. destruct Hp'.
  destruct po_prior0, po_found0.
  assert (Hi : forall n, 0 <= n <= 64 -> int_ok n) by (unfold int_ok, INT_MIN, INT_MAX; lia).
  unfold BB_MAX_OPTIONS, BB_MAX_VOTERS in *.
  assert (Hc1 : int_ok (p_option_count p)) by (apply Hi; lia).
  assert (Hc2 : int_ok (p_hash_count p)) by (apply Hi; lia).
  assert (Hst : cstring 16 (bb_state_str (e_state (p_election p)))).
  { destruct (e_state (p_election p)); apply cstring_lit; vm_compute; reflexivity. }
  unfold op_fields. destruct op; try case_bool_decide; try (by intros; constructor).
  all: try destruct (0 <? p_option_count p); try destruct (p_found p =? 0).
  all: rewrite ?Forall_app, ?Forall_cons, ?Forall_nil; cbn [fst snd]; intros ?; destruct_and?; split_and?; whole.
Qed.

(** ** Decoding *)

(** Decide every comparison with a literal key. *)
Ltac eval_keys :=
  repeat match goal with
  | |- context [is_key (bytes ?k) ?n] =>
      let b := eval vm_compute in (is_key (bytes k) n) in change (is_key (bytes k) n) with b
  end; cbn [orb].

(** One step of the callback on each key. *)
Section steps.
Context (r : bcl_response) (row opt : Z) (valid : bool) (v : list Z).
Notation ctx := (mkRespCtx r row opt valid).
Notation put r' := (mkRespCtx r' row opt valid).

Lemma rk_status st :
  result_from_name v = Some st -> response_kv ctx (bytes "status") v = mkRespCtx (set_status st r) row opt true.
Proof. intros H. unfold response_kv. eval_keys. cbv iota. by rewrite H. Qed.

Lemma rk_election k :
  k = "election_id"%string \/ k = "title"%string \/ k = "state"%string \/ k = "open_time"%string \/
  k = "close_time"%string \/ k = "option"%string ->
  response_kv ctx (bytes k) v = put (set_election (response_election_kv (p_election r) (bytes k) v) r).
Proof. intros [->|[->|[->|[->|[->| ->]]]]]; unfold response_kv, is_election_key; eval_keys; done. Qed.

Lemma rk_has_prior : response_kv ctx (bytes "has_prior_ballot") v = put (set_prior (atoi v) (p_prior_ballot_version r) r).
Proof. unfold response_kv, is_election_key. by eval_keys. Qed.

Lemma rk_prior_version :
  response_kv ctx (bytes "prior_ballot_version") v = put (set_prior (p_has_prior_ballot r) (atoi v) r).
Proof. unfold response_kv, is_election_key. by eval_keys. Qed.

Lemma rk_hash :
  response_kv ctx (bytes "hash") v = put (set_receipt (mkReceipt (trunc BB_HASH_LEN v) (rc_issued_at (p_receipt r))) r).
Proof. unfold response_kv, is_election_key. by eval_keys. Qed.

Lemma rk_issued :
  response_kv ctx (bytes "issued_at") v = put (set_receipt (mkReceipt (rc_hash (p_receipt r)) (trunc BB_TIME_LEN v)) r).
Proof. unfold response_kv, is_election_key. by eval_keys. Qed.

Lemma rk_tally_count : response_kv ctx (bytes "tally_count") v = put (set_tally (p_tally r) (atoi v) (p_options r) r).
Proof. unfold response_kv, is_election_key. by eval_keys. Qed.

Lemma rk_tally :
  response_kv ctx (bytes "tally") v = put (set_tally (tally_loop 16 v 0 (p_tally r)) (p_option_count r) (p_options r) r).
Proof. unfold response_kv, is_election_key. by eval_keys. Qed.

Lemma rk_result_option :
  opt < 16 -> response_kv ctx (bytes "result_option") v =
  mkRespCtx (set_tally (p_tally r) (p_option_count r) (aset (p_options r) opt (trunc BB_OPTION_LEN v)) r) row (opt + 1) valid.
Proof.
  intros Ho. unfold response_kv, is_election_key. eval_keys. cbv iota.
  by rewrite (proj2 (Z.ltb_lt opt BB_MAX_OPTIONS)) by (unfold BB_MAX_OPTIONS; lia).
Qed.

Lemma rk_hash_count : response_kv ctx (bytes "hash_count") v = put (set_hashes (p_hashes r) (atoi v) r).
Proof. unfold response_kv, is_election_key. by eval_keys. Qed.

Lemma rk_row h :
  row < 64 -> scan_row v = Some h -> response_kv ctx (bytes "row") v =
  mkRespCtx (set_hashes (aset (p_hashes r) row h) (p_hash_count r) r) (row + 1) opt valid.
Proof.
  intros Ho Hv. unfold response_kv, is_election_key. eval_keys. cbv iota.
  by rewrite (proj2 (Z.ltb_lt row BB_MAX_VOTERS)), Hv by (unfold BB_MAX_VOTERS; lia).
Qed.

Lemma rk_found :
  response_kv ctx (bytes "found") v = put (set_found (atoi v) (p_found_option r) (p_found_option_name r) r).
Proof. unfold response_kv, is_election_key. by eval_keys. Qed.

Lemma rk_found_option :
  response_kv ctx (bytes "found_option") v = put (set_found (p_found r) (atoi v) (p_found_option_name r) r).
Proof. unfold response_kv, is_election_key. by eval_keys. Qed.

Lemma rk_found_name :
  response_kv ctx (bytes "found_option_name") v =
  put (set_found (p_found r) (p_found_option r) (trunc BB_OPTION_LEN v) r).
Proof. unfold response_kv, is_election_key. by eval_keys. Qed.
End steps.

(** What the other side sees: the status and the fields the op carries. *)
Definition response_seen (op : bcl_op) (p : bcl_response) : bcl_response :=
  let e := p_election p in
  let named id title := mkElection id title BB_STATE_DRAFT (replicate 16 []) 0 (replicate 64 []) 0 [] [] in
  let r := set_status (p_status p) zero_response in
  match op with
  | BCL_CREATE | BCL_ADMIN_NEXT_ID => set_election (named (e_id e) []) r
  | BCL_OPEN | BCL_CLOSE | BCL_PUBLISH => r
  | BCL_JOIN =>
      if bool_decide (e_id e = []) then r
      else set_prior (p_has_prior_ballot p) (p_prior_ballot_version p)
             (set_election (mkElection (e_id e) (e_title e) (e_state e)
                (padded [] 16 (e_options e) (e_option_count e)) (e_option_count e) (replicate 64 []) 0
                (e_open_time e) (e_close_time e)) r)
  | BCL_CAST | BCL_UPDATE => if bool_decide (rc_hash (p_receipt p) = []) then r else set_receipt (p_receipt p) r
  | BCL_RESULTS | BCL_ADMIN_RESULTS =>
      set_hashes (padded zero_row 64 (p_hashes p) (p_hash_count p)) (p_hash_count p)
        (set_tally (padded 0 16 (p_tally p) (p_option_count p)) (p_option_count p)
           (padded [] 16 (p_options p) (p_option_count p)) (set_election (named (e_id e) (e_title e)) r))
  | BCL_CHECK | BCL_ADMIN_CHECK =>
      if p_found p =? 0 then r else set_found (p_found p) (p_found_option p) (p_found_option_name p) r
  end.

(** Running the callback over fields. *)
Definition run (c : resp_ctx) (fs : list kv) : resp_ctx := foldl (fun c f => response_kv c f.1 f.2) c fs.

Lemma run_cons c f fs : run c (f :: fs) = run (response_kv c f.1 f.2) fs.
Proof. done. Qed.

Lemma run_app c fs gs : run c (fs ++ gs) = run (run c fs) gs.
Proof. apply foldl_app. Qed.

Definition start (st : bb_code) : resp_ctx := mkRespCtx (set_status st zero_response) 0 0 true.

Lemma run_join_options r row opt vs :
  Forall (cstring BB_OPTION_LEN) vs -> (length vs <= 16)%nat ->
  e_options (p_election r) = replicate 16 [] -> e_option_count (p_election r) = 0 ->
  run (mkRespCtx r row opt true) (pair (bytes "option") <$> vs) =
  mkRespCtx (set_election (let e := p_election r in
    mkElection (e_id e) (e_title e) (e_state e) (vs ++ replicate (16 - length vs) []) (Z.of_nat (length vs))
      (e_eligible e) (e_eligible_count e) (e_open_time e) (e_close_time e)) r) row opt true.
Proof.
  intros Hvs Hl Ho Hc. unfold run. rewrite foldl_fmap. set (e := p_election r) in *.
  set (mk arr i := mkRespCtx (set_election (mkElection (e_id e) (e_title e) (e_state e) arr i
      (e_eligible e) (e_eligible_count e) (e_open_time e) (e_close_time e)) r) row opt true).
  assert (Hr : mkRespCtx r row opt true = mk (replicate 16 []) 0).
  { unfold mk. rewrite <- Ho, <- Hc. unfold e. by destruct r as [st [] ? ? ? ? ? ? ? ? ? ? ?]. }
  rewrite Hr, (fill_slots _ mk (trunc BB_OPTION_LEN)); [by rewrite trunc_all| |done].
  intros arr i v Hi _. cbn [fst snd]. unfold mk. rewrite (rk_election _ _ _ _ _ "option") by tauto.
  unfold response_election_kv. eval_keys. cbn [p_election set_election].
  rewrite (proj2 (Z.ltb_lt i BB_MAX_OPTIONS)) by (unfold BB_MAX_OPTIONS; lia). done.
Qed.

Lemma run_result_options r row vs :
  Forall (cstring BB_OPTION_LEN) vs -> (length vs <= 16)%nat -> p_options r = replicate 16 [] ->
  run (mkRespCtx r row 0 true) (pair (bytes "result_option") <$> vs) =
  mkRespCtx (set_tally (p_tally r) (p_option_count r) (vs ++ replicate (16 - length vs) []) r) row
    (Z.of_nat (length vs)) true.
Proof.
  intros Hvs Hl Ho. unfold run. rewrite foldl_fmap.
  set (mk arr i := mkRespCtx (set_tally (p_tally r) (p_option_count r) arr r) row i true).
  assert (Hr : mkRespCtx r row 0 true = mk (replicate 16 []) 0) by (unfold mk; rewrite <- Ho; by destruct r).
  rewrite Hr, (fill_slots _ mk (trunc BB_OPTION_LEN)); [by rewrite trunc_all| |done].
  intros arr i v Hi _. cbn [fst snd]. unfold mk. by rewrite rk_result_option by lia.
Qed.

Lemma run_rows r opt hs :
  Forall row_ok hs -> (length hs <= 64)%nat -> p_hashes r = replicate 64 zero_row ->
  run (mkRespCtx r 0 opt true) (pair (bytes "row") <$> (row_value <$> hs)) =
  mkRespCtx (set_hashes (hs ++ replicate (64 - length hs) zero_row) (p_hash_count r) r) (Z.of_nat (length hs)) opt true.
Proof.
  intros Hhs Hl Ho. unfold run. rewrite <- list_fmap_compose, foldl_fmap.
  set (mk arr i := mkRespCtx (set_hashes arr (p_hash_count r) r) i opt true).
  assert (Hr : mkRespCtx r 0 opt true = mk (replicate 64 zero_row) 0) by (unfold mk; rewrite <- Ho; by destruct r).
  rewrite Hr, (fill_slots _ mk (fun h => h)); [by rewrite list_fmap_id| |done].
  intros arr i h Hi Hh. unfold mk. cbn -[bytes row_value response_kv]. rewrite list.Forall_forall in Hhs.
  by rewrite (rk_row _ _ _ _ _ h) by (lia || (apply scan_row_back; by apply Hhs)).
Qed.

Lemma padded_zero {A} (d : A) n l k : k <= 0 -> padded d n l k = replicate n d.
Proof. intros Hk. unfold padded, first_n, range. rewrite seqZ_nil by done. by rewrite Z2Nat.nonpos, Nat.sub_0_r. Qed.

Lemma result_name_back st name : name_from_result st = Some name -> result_from_name name = Some st.
Proof. destruct st as [[]|[]]; intros [= <-]; vm_compute; reflexivity. Qed.

Lemma state_name_back s : state_from_name (bb_state_str s) = Some s.
Proof. destruct s; vm_compute; reflexivity. Qed.

(** Projections of updated responses. *)
Ltac fields :=
  unfold set_status, set_election, set_prior, set_receipt, set_tally, set_hashes, set_found, zero_response, zero_election;
  cbn [p_status p_election p_has_prior_ballot p_prior_ballot_version p_receipt p_tally p_option_count p_options p_hashes
       p_hash_count p_found p_found_option p_found_option_name e_id e_title e_state e_options e_option_count e_eligible
       e_eligible_count e_open_time e_close_time rc_hash rc_issued_at].

Ltac election_key k :=
  rewrite (rk_election _ _ _ _ _ k) by tauto; fields; unfold response_election_kv at 1; eval_keys; cbv iota.

Lemma run_join p :
  bcl_response_ok p -> e_id (p_election p) <> [] ->
  run (start (p_status p)) (op_fields BCL_JOIN p) = mkRespCtx (response_seen BCL_JOIN p) 0 0 true.
Proof.
  intros Hp Hne. unfold response_seen. rewrite bool_decide_false by done.
  match goal with |- _ = ?rhs => set (R := rhs) end. unfold op_fields, start. rewrite bool_decide_false by done.
  rewrite run_app, !run_cons. cbn [fst snd]. fields.
  election_key "election_id"%string. election_key "title"%string. election_key "state"%string.
  election_key "open_time"%string. election_key "close_time"%string.
  rewrite rk_has_prior. fields. rewrite rk_prior_version. fields. change (run ?c []) with c.
  rewrite state_name_back, !trunc_id by (apply (po_id p Hp) || apply (po_title p Hp) || apply (po_open p Hp) || apply (po_close p Hp)).
  destruct (po_prior p Hp). rewrite !atoi_int by done. cbn [default from_option].
  pose proof (po_opt_count p Hp). unfold BB_MAX_OPTIONS in *.
  rewrite run_join_options; [|apply cstring_first_n; [unfold BB_OPTION_LEN; lia|apply (po_opts p Hp)]|
    rewrite length_first_n; lia|done|done].
  rewrite length_first_n, Z2Nat.id by lia. done.
Qed.

Lemma run_check p :
  bcl_response_ok p -> forall op, op = BCL_CHECK \/ op = BCL_ADMIN_CHECK ->
  run (start (p_status p)) (op_fields op p) = mkRespCtx (response_seen op p) 0 0 true.
Proof.
  intros Hp op Hop. destruct (po_found p Hp).
  assert (Hf : op_fields op p = op_fields BCL_CHECK p /\ response_seen op p = response_seen BCL_CHECK p)
    by (by destruct Hop as [-> | ->]).
  destruct Hf as [-> ->]. unfold op_fields, response_seen, start. rewrite run_app, !run_cons. cbn [fst snd].
  rewrite rk_found, atoi_int by done. change (run ?c []) with c at 1.
  destruct (Z.eqb_spec (p_found p) 0) as [->|Hf]; [done|]. rewrite !run_cons. cbn [fst snd].
  rewrite rk_found_option, rk_found_name, atoi_int, trunc_id by (done || apply (po_name p Hp)). by fields.
Qed.

Lemma run_receipt p :
  bcl_response_ok p -> rc_hash (p_receipt p) <> [] ->
  run (start (p_status p)) (op_fields BCL_CAST p) = mkRespCtx (response_seen BCL_CAST p) 0 0 true.
Proof.
  intros Hp Hne. unfold op_fields, response_seen, start. rewrite !bool_decide_false, !run_cons by done. cbn [fst snd].
  rewrite rk_hash, rk_issued, !trunc_id by (apply (po_hash p Hp) || apply (po_issued p Hp)). fields.
  by destruct (p_receipt p).
Qed.

Lemma run_results p :
  bcl_response_ok p ->
  exists opt, run (start (p_status p)) (op_fields BCL_RESULTS p) =
    mkRespCtx (response_seen BCL_RESULTS p) (p_hash_count p) opt true.
Proof.
  intros Hp. unfold op_fields, start. rewrite run_app, !run_cons. cbn [fst snd]. fields.
  election_key "election_id"%string. election_key "title"%string. rewrite rk_tally_count. change (run ?c []) with c. fields.
  pose proof (po_count p Hp) as Hc. pose proof (po_hash_count p Hp) as Hh. unfold BB_MAX_OPTIONS, BB_MAX_VOTERS in *.
  assert (Hint : forall n, 0 <= n <= 64 -> int_ok n) by (unfold int_ok, INT_MIN, INT_MAX; lia).
  rewrite !trunc_id, atoi_int by (apply (po_id p Hp) || apply (po_title p Hp) || (apply Hint; lia)).
  assert (Hlast : forall opt tally options,
    tally = padded 0 16 (p_tally p) (p_option_count p) -> options = padded [] 16 (p_options p) (p_option_count p) ->
    run (mkRespCtx (mkBclResponse (p_status p) (mkElection (e_id (p_election p)) (e_title (p_election p)) BB_STATE_DRAFT
        (replicate 16 []) 0 (replicate 64 []) 0 [] []) 0 0 (mkReceipt [] []) tally (p_option_count p) options
        (replicate 64 zero_row) 0 0 0 []) 0 opt true)
      ([(bytes "hash_count", decimal_int (p_hash_count p))] ++
       (pair (bytes "row") <$> (row_value <$> first_n zero_row (p_hashes p) (p_hash_count p)))) =
    mkRespCtx (response_seen BCL_RESULTS p) (p_hash_count p) opt true).
  { intros opt tally options -> ->. rewrite run_app, run_cons. cbn [fst snd]. rewrite rk_hash_count, atoi_int by (apply Hint; lia).
    change (run ?c []) with c at 1. rewrite run_rows; [|apply (po_rows p Hp)|rewrite length_first_n; lia|done].
    rewrite length_first_n, Z2Nat.id by lia. done. }
  rewrite run_app. destruct (Z.ltb_spec 0 (p_option_count p)) as [Hpos|Hz].
  - rewrite (run_app _ [(bytes "tally", _)]), (run_cons _ (bytes "tally", _)). cbn [fst snd]. rewrite rk_tally. fields. change (run ?c []) with c at 1.
    pose proof (tally_loop_back (first_n 0 (p_tally p) (p_option_count p)) [] 16) as Ht. cbn [length Nat.sub Nat.add app] in Ht.
    rewrite length_first_n in Ht. change (Z.of_nat 0) with 0 in Ht.
    rewrite Ht by (apply int_first_n, (po_tally p Hp) || lia).
    rewrite run_result_options; [|apply cstring_first_n; [unfold BB_OPTION_LEN; lia|apply (po_options p Hp)]|
      rewrite length_first_n; lia|done]. fields. eexists. rewrite length_first_n. by apply Hlast.
  - eexists. change (run ?c []) with c. apply Hlast; by rewrite padded_zero by lia.
Qed.

(** ** The round trip *)

Definition results_op (op : bcl_op) : bool :=
  match op with BCL_RESULTS | BCL_ADMIN_RESULTS => true | _ => false end.

Lemma run_id p op :
  bcl_response_ok p -> op = BCL_CREATE \/ op = BCL_ADMIN_NEXT_ID ->
  run (start (p_status p)) (op_fields op p) = mkRespCtx (response_seen op p) 0 0 true.
Proof.
  intros Hp Ho. assert (Hf : op_fields op p = op_fields BCL_CREATE p /\ response_seen op p = response_seen BCL_CREATE p)
    by (by destruct Ho as [-> | ->]). destruct Hf as [-> ->].
  unfold op_fields, response_seen, start. case_bool_decide as He; [rewrite He; done|]. rewrite run_cons. cbn [fst snd]. fields.
  election_key "election_id"%string. by rewrite trunc_id by apply (po_id p Hp).
Qed.

Lemma run_plain op p :
  bcl_response_ok p -> results_op op = false ->
  run (start (p_status p)) (op_fields op p) = mkRespCtx (response_seen op p) 0 0 true.
Proof.
  intros Hp Ho.
  assert (Hjoin : run (start (p_status p)) (op_fields BCL_JOIN p) = mkRespCtx (response_seen BCL_JOIN p) 0 0 true).
  { destruct (decide (e_id (p_election p) = [])) as [He|He]; [|by apply run_join].
    unfold op_fields, response_seen. by rewrite !bool_decide_true. }
  assert (Hcast : run (start (p_status p)) (op_fields BCL_CAST p) = mkRespCtx (response_seen BCL_CAST p) 0 0 true).
  { destruct (decide (rc_hash (p_receipt p) = [])) as [He|He]; [|by apply run_receipt].
    unfold op_fields, response_seen. by rewrite !bool_decide_true. }
  destruct op; try discriminate Ho;
    first [apply run_id; [exact Hp|tauto]|apply run_check; [exact Hp|tauto]|exact Hjoin|exact Hcast|reflexivity].
Qed.

Lemma seen_counts op p :
  results_op op = false -> p_hash_count (response_seen op p) = 0 /\ p_option_count (response_seen op p) = 0.
Proof. intros Ho. unfold response_seen. destruct op; try discriminate Ho; repeat case_match; split; reflexivity. Qed.

Lemma run_op_fields op p :
  bcl_response_ok p ->
  exists row opt, run (start (p_status p)) (op_fields op p) = mkRespCtx (response_seen op p) row opt true /\
    0 <= p_hash_count (response_seen op p) <= row /\ 0 <= p_option_count (response_seen op p) <= BB_MAX_OPTIONS.
Proof.
  intros Hp. destruct (results_op op) eqn:Ho.
  - destruct (run_results p Hp) as [opt Hr].
    assert (Hf : op_fields op p = op_fields BCL_RESULTS p /\ response_seen op p = response_seen BCL_RESULTS p)
      by (by destruct op). destruct Hf as [-> ->]. exists (p_hash_count p), opt. split; [exact Hr|].
    pose proof (po_count p Hp). pose proof (po_hash_count p Hp). unfold response_seen. cbn [p_hash_count p_option_count set_hashes set_tally].
    lia.
  - exists 0, 0. destruct (seen_counts op p Ho) as [-> ->]. split; [by apply run_plain|]. unfold BB_MAX_OPTIONS. lia.
Qed.

Lemma status_field_whole st name : name_from_result st = Some name -> kv_whole (bytes "status", name).
Proof.
  intros H. assert (Hc : cstring 32 name /\ unbroken name).
  { revert H. destruct st as [[]|[]]; intros [= <-]; (split; [apply cstring_lit; vm_compute; reflexivity|]);
      split; apply (bool_decide_unpack _); vm_compute; exact I. }
  destruct Hc. apply (whole_str "status" 32); [lit_key|done|vm_compute; lia|done].
Qed.

Lemma decode_fields op p name h :
  bcl_response_ok p -> name_from_result (p_status p) = Some name ->
  Forall (fun f : kv => unbroken f.2) (op_fields op p) ->
  res_body h = (message_body (fields_text ((bytes "status", name) :: op_fields op p))).1 ->
  bcl_decode_response h = Some (response_seen op p).
Proof.
  intros Hp Hname Hu Hb. pose proof (op_fields_whole op p Hp Hu) as Hw.
  assert (Hall : Forall kv_whole ((bytes "status", name) :: op_fields op p))
    by (constructor; [by eapply status_field_whole|done]).
  unfold bcl_decode_response. rewrite Hb, body_for_each_fields by (eapply Forall_impl; [exact Hall|]; by intros f [? _]).
  rewrite kv_read_whole by done. cbn [foldl fst snd]. rewrite (rk_status _ _ _ _ _ (p_status p)) by (by apply result_name_back).
  destruct (run_op_fields op p Hp) as (row & opt & Hrun & Hh & Ho). unfold run, start in Hrun.
  etransitivity; [|reflexivity]. rewrite Hrun.
  rewrite (proj2 (Z.ltb_ge (p_hash_count _) 0)), (proj2 (Z.ltb_ge row _)) by lia. cbn [orb].
  rewrite (proj2 (Z.ltb_ge (p_option_count _) 0)), (proj2 (Z.ltb_ge BB_MAX_OPTIONS _)) by lia. done.
Qed.

Lemma response_body_fits op p b0 b1 : body_fits b0 -> response_body op p b0 = Some b1 -> body_fits b1.
Proof.
  intros H0. unfold response_body. intros H.
  destruct op; repeat (case_bool_decide; [by simplify_eq|]); try (by simplify_eq);
    repeat (apply bind_Some in H as (? & ? & H)); repeat case_match; simplify_eq;
    repeat (apply bind_Some in H as (? & ? & H));
    first [exact (body_append_fits _ _ _ H)|refine (body_append_all_fits _ _ _ _ H); by eapply body_append_fits
          |by eapply body_append_fits].
Qed.

Lemma encoded_response_decodes date op p cap wire :
  bcl_response_ok p -> date_ok date -> bcl_encode_response (Some date) op p cap = Some wire ->
  exists h, htttp_parse_response wire = Ok h /\ status h = bcl_http_status (p_status p) /\
    bcl_decode_response h = Some (response_seen op p).
Proof.
  intros Hp Hd. unfold bcl_encode_response. intros (name & Hname & H)%bind_Some.
  apply bind_Some in H as (b0 & Hb0 & H). apply bind_Some in H as (b1 & Hb1 & H).
  pose proof (response_body_fits op p b0 b1 (body_append_fits _ _ _ Hb0) Hb1) as Hfits.
  apply append_field_str in Hb0 as [-> _]. apply response_body_inv in Hb1 as [-> Hu]; [|done].
  set (text := ([] ++ fields_text [(bytes "status", name)]) ++ fields_text (op_fields op p)) in *.
  destruct (message_body_parts text Hfits) as (mb & mn & Hmb & Hb1 & Hb2 & Hb3). rewrite Hmb in H.
  destruct (htttp_serialize_response _ _ cap) as [w|] eqn:Hser; [|done]. injection H as ->.
  apply serialized_response_parses in Hser; [|split; cbn; [constructor|done|done]|done|].
  2:{ cbn [res_headers res_body_len]. unfold length_header, HTTTP_MAX_HEADERS. case_match; vm_compute; lia. }
  eexists. split; [exact Hser|]. split; [done|]. apply (decode_fields op p name); [done|done|done|].
  cbn [res_body res_body_len]. rewrite Hb1. unfold text in Hmb. cbn [app] in Hmb.
  rewrite <- (fields_text_app [_]) in Hmb.
  symmetry. exact (f_equal fst Hmb).
Qed.

(** Responses cross the wire.  A response that encodes is parsed and decoded
    on the other side with the daemon's exact result code and every field its
    operation carries: the receipt, the election with its options, the tally with
    its names and rows, the answer to a check.  Fields of other operations, and the
    list of eligible voters, stay behind. *)
Theorem codec_response_roundtrip date op p cap wire :
  bcl_response_ok p -> date_ok date -> bcl_encode_response (Some date) op p cap = Some wire ->
  exists h, htttp_parse_response wire = Ok h /\ status h = bcl_http_status (p_status p) /\
    bcl_decode_response h = Some (response_seen op p).
Proof. apply encoded_response_decodes. Qed.

Definition results_example : bcl_response :=
  mkBclResponse (BB_OK tt)
    (mkElection (bytes "E-7") (bytes "Lunch") BB_STATE_DRAFT (replicate 16 []) 0 (replicate 64 []) 0 [] []) 0 0
    (mkReceipt [] []) ([0; 2] ++ replicate 14 0) 2 ([bytes "tea"; bytes "soup, hot"] ++ replicate 14 [])
    ([mkRow (bytes "ab12") 1 1 0; mkRow (bytes "cd34") 1 2 0] ++ replicate 62 zero_row) 2 0 0 [].

Lemma results_example_ok : bcl_response_ok results_example.
Proof.
  assert (Hi : forall n, bool_decide (0 <= n <= 64) = true -> int_ok n).
  { intros n Hn%bool_decide_eq_true. unfold int_ok, INT_MIN, INT_MAX. lia. }
  assert (Hr : forall h o v, cstring BB_HASH_LEN (bytes h) -> bytes h <> [] -> 44 ∉ bytes h ->
    int_ok o -> int_ok v -> row_ok (mkRow (bytes h) o v 0)) by (intros; split_and!; try done; by apply Hi).
  assert (He : Forall (cstring BB_OPTION_LEN) (replicate 14 []))
    by (apply Forall_replicate, cstring_lit; vm_compute; reflexivity).
  assert (Hz : int_ok 0) by (by apply Hi).
  split; cbn [results_example p_election p_receipt p_tally p_option_count p_options p_hashes p_hash_count p_found
    p_found_option p_found_option_name p_has_prior_ballot p_prior_ballot_version e_id e_title e_open_time e_close_time
    e_options e_option_count rc_hash rc_issued_at]; unfold BB_MAX_OPTIONS, BB_MAX_VOTERS;
    lazymatch goal with
    | |- cstring _ _ => apply cstring_lit; vm_compute; reflexivity
    | |- _ <= _ <= _ => lia
    | |- int_ok _ /\ int_ok _ => by split
    | _ => idtac
    end.
  - apply Forall_replicate, cstring_lit. vm_compute. reflexivity.
  - apply Forall_app. split; [|by apply Forall_replicate]. rewrite !Forall_cons. split; [done|]. split; [by apply Hi|constructor].
  - apply Forall_app. split; [|done]. rewrite !Forall_cons. split; [|split; [|constructor]];
      apply cstring_lit; vm_compute; reflexivity.
  - change (first_n zero_row _ 2) with [mkRow (bytes "ab12") 1 1 0; mkRow (bytes "cd34") 1 2 0].
    rewrite !Forall_cons. split; [|split; [|constructor]]; apply Hr; try (by apply Hi); try discriminate;
      try (apply cstring_lit; vm_compute; reflexivity); apply (bool_decide_unpack _); vm_compute; exact I.
Qed.

Lemma codec_response_roundtrip_witness :
  exists wire h, bcl_encode_response (Some (bytes "Mon, 01 Jan 2024 00:00:00 GMT")) BCL_RESULTS results_example 65536 = Some wire /\
    htttp_parse_response wire = Ok h /\ bcl_decode_response h = Some results_example.
Proof.
  destruct (bcl_encode_response (Some (bytes "Mon, 01 Jan 2024 00:00:00 GMT")) BCL_RESULTS results_example 65536)
    as [wire|] eqn:E; [|vm_compute in E; discriminate].
  destruct (codec_response_roundtrip (bytes "Mon, 01 Jan 2024 00:00:00 GMT") BCL_RESULTS results_example 65536 wire)
    as (h & Hh & _ & Hd); [exact results_example_ok|split; [reflexivity|vm_compute; lia]|exact E|].
  exists wire, h. split; [reflexivity|]. split; [exact Hh|]. rewrite Hd. vm_compute. reflexivity.
Defined.
