(* ===== verification/CodecFits.v ===== *)
(** * CodecFits: what a decoded message can hold

    Whatever bytes arrive, the structs ballotbox/src/libballotclient/codec.c decodes
    them into are well formed: every string fits its array and ends in it, every
    count is within the array it counts. *)

From Stdlib Require Import String.
From stdpp Require Import options.
From S2P Require Import Prelude Text Htttp HtttpTheorems BallotTypes BallotDb Codec CodecTheorems CodecResponse.
#[local] Open Scope Z_scope.

#[local] Arguments trunc : simpl never.
#[local] Arguments aset : simpl never.

(** ** The reader *)

Lemma cstring_trunc cap s : (0 < cap)%nat -> 0 ∉ s -> cstring cap (trunc cap s).
Proof. intros Hc H0. split; [by apply length_trunc|by apply take_no_nul]. Qed.

Lemma line_kv_value ln k v : line_kv ln = Some (k, v) -> (0 ∉ v) /\ (length v < VAL_CAP)%nat.
Proof.
  unfold line_kv. intros ([k' v'] & _ & H)%bind_Some. case_bool_decide; [done|]. apply Some_pair in H as [_ ->].
  split; [apply cstr_no_nul|]. pose proof (length_cstr (take (VAL_CAP - 1) v')) as Hl. rewrite length_take in Hl.
  unfold VAL_CAP in *. lia.
Qed.

(** An invariant of the callback is one of the reader. *)
Lemma body_for_each_ind {T} (I : T -> Prop) body (fn : T -> list Z -> list Z -> T) s :
  (forall s k v, 0 ∉ v -> (length v < VAL_CAP)%nat -> I s -> I (fn s k v)) -> I s -> I (body_for_each body fn s).
Proof.
  intros Hfn. unfold body_for_each. generalize (body_lines (default [] body)) as ls. intros ls. revert s.
  induction ls as [|ln ls IH]; intros s Hs; simpl; [done|]. destruct (line_kv ln) as [[k v]|] eqn:E; simpl; [|by apply IH].
  apply IH. apply line_kv_value in E as [? ?]. by apply Hfn.
Qed.

Lemma Forall_aset {A} (P : A -> Prop) l i x : Forall P l -> P x -> Forall P (aset l i x).
Proof. intros Hl Hx. unfold aset. case_match; [done|]. by apply Forall_insert. Qed.

(** An array of strings. *)
Definition strings (n cap : nat) (l : list (list Z)) : Prop := length l = n /\ Forall (cstring cap) l.

Lemma strings_aset n cap l i v : (0 < cap)%nat -> 0 ∉ v -> strings n cap l -> strings n cap (aset l i (trunc cap v)).
Proof.
  intros Hc H0 [Hn Hl]. split; [by rewrite length_aset|]. apply Forall_aset; [done|by apply cstring_trunc].
Qed.

Lemma strings_zero n cap : (0 < cap)%nat -> strings n cap (replicate n []).
Proof. intros Hc. split; [apply length_replicate|]. apply Forall_replicate. split; [done|apply not_elem_of_nil]. Qed.

Lemma cstring_nil cap : (0 < cap)%nat -> cstring cap [].
Proof. intros Hc. split; [done|apply not_elem_of_nil]. Qed.

Create HintDb fits.
#[export] Hint Resolve cstring_trunc strings_aset strings_zero cstring_nil : fits.
#[export] Hint Extern 1 (0 < _)%nat => (vm_compute; lia) : fits.

(** ** Requests *)

Record config_fits (c : bb_config) : Prop := {
  cf_title : cstring BB_TITLE_LEN (cfg_title c);
  cf_open : cstring BB_TIME_LEN (cfg_open_time c);
  cf_close : cstring BB_TIME_LEN (cfg_close_time c);
  cf_options : strings 16 BB_OPTION_LEN (cfg_options c);
  cf_option_count : 0 <= cfg_option_count c <= BB_MAX_OPTIONS;
  cf_eligible : strings 64 BB_CERT_LEN (cfg_eligible c);
  cf_eligible_count : 0 <= cfg_eligible_count c <= BB_MAX_VOTERS
}.

Record ballot_fits (b : bb_ballot) : Prop := {
  bf_cert : cstring BB_CERT_LEN (b_cert_name b);
  bf_nonce : cstring BB_NONCE_LEN (b_nonce b);
  bf_payload : length (b_payload b) = BB_CIPHERTEXT_MAX /\ Forall byte_ok (b_payload b);
  bf_len : 0 <= b_payload_len b <= Z.of_nat BB_CIPHERTEXT_MAX
}.

Record request_fits (q : bcl_request) : Prop := {
  qf_cert : cstring BB_CERT_LEN (q_cert_name q);
  qf_id : cstring BB_ID_LEN (q_election_id q);
  qf_ballot : ballot_fits (q_ballot q);
  qf_hash : cstring BB_HASH_LEN (q_hash q);
  qf_config : config_fits (q_config q)
}.

Lemma zero_config_fits : config_fits zero_config.
Proof.
  split; cbn; try (apply cstring_nil; unfold BB_TITLE_LEN, BB_TIME_LEN; lia);
    try (apply strings_zero; unfold BB_OPTION_LEN, BB_CERT_LEN; lia); unfold BB_MAX_OPTIONS, BB_MAX_VOTERS; lia.
Qed.

Lemma zero_ballot_fits : ballot_fits zero_ballot.
Proof.
  split; cbn -[replicate]; try (apply cstring_nil; unfold BB_CERT_LEN, BB_NONCE_LEN; lia); [|lia].
  split; [apply length_replicate|]. apply Forall_replicate. unfold byte_ok. lia.
Qed.

Definition create_inv (c : create_ctx) : Prop :=
  config_fits (c_cfg c) /\ cstring BB_ID_LEN (c_id c) /\ 0 <= c_opt c <= BB_MAX_OPTIONS /\ 0 <= c_elig c <= BB_MAX_VOTERS.

Lemma create_kv_inv c k v : 0 ∉ v -> create_inv c -> create_inv (create_kv c k v).
Proof.
  intros H0. destruct c as [[t os oc es ec op cl] id i j]. intros ([] & Hid & Hi & Hj). cbn in *.
  unfold create_kv. repeat case_match; (split; [split|]); cbn; try done; bool_arith;
    repeat match goal with |- _ /\ _ => split end; try done; try lia; auto with fits.
Qed.

Lemma byte_land x : byte_ok (Z.land x 255).
Proof. unfold byte_ok. change 255 with (Z.ones 8). rewrite Z.land_ones by lia. apply Z.mod_pos_bound. lia. Qed.

Lemma hex_loop_fits hex i out ok out' :
  hex_loop hex i out = (ok, out') -> Forall byte_ok out -> length out' = length out /\ Forall byte_ok out'.
Proof.
  revert i out. induction hex as [hex IH] using (induction_ltof1 _ (@length Z)). intros i out.
  destruct hex as [|a [|b hex]]; simpl; try (by intros [= _ <-]). case_match; [by intros [= _ <-]|].
  intros Hloop Ho. apply IH in Hloop as [Hl Hf]; [|unfold ltof; simpl; lia|by apply Forall_aset, byte_land].
  by rewrite length_aset in Hl.
Qed.

Lemma ballot_kv_inv b got k v b' got' :
  0 ∉ v -> ballot_fits b -> ballot_kv (b, got) k v = (b', got') -> ballot_fits b' /\ b_cert_name b' = b_cert_name b.
Proof.
  intros H0 [Hc Hn Hp Hl]. destruct b as [c n p l]. cbn in *. unfold ballot_kv.
  destruct (is_key k "nonce"); [|destruct (is_key k "payload")]; [| |by intros [= <- _]].
  - intros [= <- _]. split; [split; cbn; try done|done]. apply cstring_trunc; [unfold BB_NONCE_LEN; lia|done].
  - unfold hex_decode. destruct (negb _); [by intros [= <- _]|]. destruct (Z.ltb_spec (Z.of_nat BB_CIPHERTEXT_MAX) (Z.of_nat (length v) / 2)); [by intros [= <- _]|].
    destruct (hex_loop v 0 p) as [ok p'] eqn:E. apply hex_loop_fits in E as [Hpl Hpf]; [|apply Hp].
    assert (0 <= Z.of_nat (length v) / 2) by (apply Z.div_pos; lia).
    destruct ok; intros [= <- _]; (split; [|done]); split; cbn; try done; try lia; (split; [by rewrite Hpl; apply Hp|done]).
Qed.

Lemma header_get_fits hs k v : Forall header_fits hs -> htttp_header_get hs k = Some v -> 0 ∉ v.
Proof.
  induction 1 as [|h hs (_ & _ & _ & Hv) _ IH]; simpl; [done|]. case_match; [by intros [= <-]|done].
Qed.

Lemma before_slash_sub s c : c ∈ before_slash s -> c ∈ s.
Proof.
  induction s as [|x s IH]; simpl; [done|]. case_match; [by intros ?%elem_of_nil|].
  rewrite !elem_of_cons. naive_solver.
Qed.

Lemma path_id_fits p id : 0 ∉ p -> path_election_id p = Some id -> cstring BB_ID_LEN id /\ id <> [].
Proof.
  intros H0. unfold path_election_id. case_bool_decide; [|done].
  set (t := take (BB_ID_LEN - 1) _). assert (Ht : cstring BB_ID_LEN t).
  { split; [unfold t, BB_ID_LEN; rewrite length_take; lia|]. unfold t. intros Hin. apply H0.
    apply elem_of_take in Hin as (i & Hi%list_elem_of_lookup_2%before_slash_sub & _).
    rewrite <- (take_drop (length ELECTION_PREFIX) p). apply elem_of_app. by right. }
  destruct t; [done|]. by intros [= <-].
Qed.

Lemma hash_kv_inv h k v : 0 ∉ v -> cstring BB_HASH_LEN h -> cstring BB_HASH_LEN (hash_kv h k v).
Proof. intros H0 Hh. unfold hash_kv. case_match; auto with fits. Qed.

Lemma ballot_body_fits body cert :
  cstring BB_CERT_LEN cert ->
  ballot_fits (body_for_each body ballot_kv
    (mkBallot (trunc BB_CERT_LEN cert) [] (replicate BB_CIPHERTEXT_MAX 0) 0, false)).1.
Proof.
  intros Hc. apply (body_for_each_ind (fun c => ballot_fits c.1)).
  - intros [b got] k v H0 _ Hb. destruct (ballot_kv (b, got) k v) as [b' got'] eqn:E.
    by apply (ballot_kv_inv b got k v b' got').
  - cbn. destruct zero_ballot_fits as [_ Hn Hp Hl]. split; cbn; try done. rewrite trunc_id by apply Hc. done.
Qed.

Lemma hash_body_fits body : cstring BB_HASH_LEN (body_for_each body hash_kv []).
Proof. apply (body_for_each_ind (cstring BB_HASH_LEN)); [intros; by apply hash_kv_inv|auto with fits]. Qed.

Lemma create_body_fits body : create_inv (body_for_each body create_kv (mkCreateCtx zero_config [] 0 0)).
Proof.
  apply (body_for_each_ind create_inv); [intros; by apply create_kv_inv|].
  split; [apply zero_config_fits|]. unfold BB_MAX_OPTIONS, BB_MAX_VOTERS. cbn. split_and!; auto with fits; lia.
Qed.

(** A decoded request is well formed, and names an election where its op needs one. *)
Lemma decoded_request_fits buf h q :
  htttp_parse_request buf = Ok h -> bcl_decode_request h = Some q ->
  request_fits q /\ (path_op (q_op q) = true -> q_election_id q <> []).
Proof.
  intros (_ & _ & _ & Hpath & Htail)%parsed_request_fits. destruct Htail as (_ & Hhs & _).
  unfold bcl_decode_request. intros (op & _ & H)%bind_Some.
  set (cert := match htttp_header_get (headers h) CERT_NAME with Some c => trunc BB_CERT_LEN c | None => [] end) in H.
  assert (Hcert : cstring BB_CERT_LEN cert).
  { unfold cert. destruct (htttp_header_get _ _) eqn:E; [|auto with fits]. apply header_get_fits in E; auto with fits. }
  clearbody cert. pose proof zero_config_fits. pose proof zero_ballot_fits.
  assert (Hnil : cstring BB_ID_LEN [] /\ cstring BB_HASH_LEN []) by auto with fits.
  assert (Hplain : forall id, path_election_id (path h) = Some id ->
    request_fits (mkBclRequest op cert id zero_ballot [] zero_config) /\ id <> []).
  { intros id [Hid Hne]%path_id_fits; [|done]. split; [split; cbn; tauto|done]. }
  destruct op; try (apply bind_Some in H as (id & Hid & [= <-]); destruct (Hplain id Hid); by split).
  all: try (apply bind_Some in H as (id & Hid & H); destruct (Hplain id Hid) as [[_ Hidf _ _ _] Hne]; cbn in Hidf;
    pose proof (ballot_body_fits (body h) cert Hcert) as Hb; pose proof (hash_body_fits (body h)) as Hh;
    first [revert Hb H; destruct (body_for_each _ ballot_kv _) as [b got]; intros Hb H; destruct got; [|done]
          |case_bool_decide; [done|]]; injection H as <-; (split; [split; cbn; tauto|done])).
  - pose proof (create_body_fits (body h)) as Hc. revert Hc H.
    destruct (body_for_each _ create_kv _) as [cfg id i j]. intros (Hcfg & Hid & Hi & Hj) [= <-].
    split; [split; cbn; try tauto|done]. destruct Hcfg. by split.
  - injection H as <-. split; [split; cbn; tauto|done].
Qed.

(** ** Responses *)

Record election_fits (e : bb_election) : Prop := {
  ef_id : cstring BB_ID_LEN (e_id e);
  ef_title : cstring BB_TITLE_LEN (e_title e);
  ef_open : cstring BB_TIME_LEN (e_open_time e);
  ef_close : cstring BB_TIME_LEN (e_close_time e);
  ef_options : strings 16 BB_OPTION_LEN (e_options e);
  ef_count : 0 <= e_option_count e <= BB_MAX_OPTIONS;
  ef_eligible : e_eligible e = replicate 64 [] /\ e_eligible_count e = 0
}.

Definition row_fits (h : bb_ballot_hash) : Prop :=
  cstring BB_HASH_LEN (h_hash h) /\ int_ok (h_option_index h) /\ int_ok (h_version h) /\ int_ok (h_superseded h).

(** Everything but the two counts read off the wire. *)
Record response_fields_fit (r : bcl_response) : Prop := {
  rf_election : election_fits (p_election r);
  rf_receipt : cstring BB_HASH_LEN (rc_hash (p_receipt r)) /\ cstring BB_TIME_LEN (rc_issued_at (p_receipt r));
  rf_tally : length (p_tally r) = 16%nat /\ Forall int_ok (p_tally r);
  rf_options : strings 16 BB_OPTION_LEN (p_options r);
  rf_hashes : length (p_hashes r) = 64%nat /\ Forall row_fits (p_hashes r);
  rf_ints : int_ok (p_has_prior_ballot r) /\ int_ok (p_prior_ballot_version r) /\ int_ok (p_found r) /\
            int_ok (p_found_option r);
  rf_name : cstring BB_OPTION_LEN (p_found_option_name r)
}.

Record response_fits (r : bcl_response) : Prop := {
  rf_fields : response_fields_fit r;
  rf_option_count : 0 <= p_option_count r <= BB_MAX_OPTIONS;
  rf_hash_count : 0 <= p_hash_count r <= BB_MAX_VOTERS
}.

Lemma to_int_ok v : int_ok (to_int v).
Proof. unfold int_ok, to_int, INT_MIN, INT_MAX. pose proof (Z.mod_pos_bound (v + 2147483648) 4294967296). lia. Qed.

Lemma atoi_ok s : int_ok (atoi s).
Proof. apply to_int_ok. Qed.

Lemma tally_loop_fits slots s i t :
  Forall int_ok t -> length (tally_loop slots s i t) = length t /\ Forall int_ok (tally_loop slots s i t).
Proof.
  revert s i t. induction slots as [|n IH]; intros s i t Ht; destruct s as [|c s]; try done. cbn [tally_loop].
  assert (Forall int_ok (aset t i (atoi (c :: s)))) by (apply Forall_aset; [done|apply atoi_ok]).
  destruct (after_comma (c :: s)) as [s'|]; [|split; [apply length_aset|done]].
  rewrite <- (length_aset t i (atoi (c :: s))). by apply IH.
Qed.

Lemma comma_int_ok s n rest : comma_int s = Some (n, rest) -> int_ok n.
Proof.
  destruct s as [|c s]; [done|]. cbn [comma_int]. case_match; [|done]. unfold scan_int.
  destruct (strtol s) as [v r]. case_bool_decide; [done|]. intros [= <- _]. apply to_int_ok.
Qed.

Lemma before_comma_sub s c : c ∈ before_comma s -> c ∈ s.
Proof.
  induction s as [|x s IH]; simpl; [done|]. case_match; [by intros ?%elem_of_nil|].
  rewrite !elem_of_cons. naive_solver.
Qed.

Lemma scan_row_fits v h : 0 ∉ v -> scan_row v = Some h -> row_fits h.
Proof.
  intros H0. unfold scan_row. case_bool_decide; [done|].
  intros ([opt v1] & Ho%comma_int_ok & H1)%bind_Some. apply bind_Some in H1 as ([ver v2] & Hv%comma_int_ok & H1).
  apply bind_Some in H1 as ([sup v3] & Hs%comma_int_ok & H1). injection H1 as <-.
  split; [|done]. cbn [h_hash]. apply cstring_trunc; [unfold BB_HASH_LEN; lia|]. apply take_no_nul.
  intros Hin. by apply H0, before_comma_sub.
Qed.

Lemma election_kv_fits e k v : 0 ∉ v -> election_fits e -> election_fits (response_election_kv e k v).
Proof.
  intros H0. destruct e as [id t s o oc el ec op cl]. intros []. cbn in *. unfold response_election_kv.
  destruct (is_key k "election_id"); [by split; cbn; auto with fits|].
  destruct (is_key k "title"); [by split; cbn; auto with fits|].
  destruct (is_key k "state"); [by split|].
  destruct (is_key k "open_time"); [by split; cbn; auto with fits|].
  destruct (is_key k "close_time"); [by split; cbn; auto with fits|].
  destruct (is_key k "option"); [|by split].
  destruct (Z.ltb_spec oc BB_MAX_OPTIONS); split; cbn; auto with fits; lia.
Qed.

Definition resp_inv (c : resp_ctx) : Prop :=
  response_fields_fit (x_resp c) /\ 0 <= x_row_i c <= BB_MAX_VOTERS /\ 0 <= x_result_opt_i c <= BB_MAX_OPTIONS.

Lemma response_kv_inv c k v : 0 ∉ v -> resp_inv c -> resp_inv (response_kv c k v).
Proof.
  intros H0. destruct c as [r row opt valid]. intros (Hr & Hrow & Hopt). cbn [x_resp x_row_i x_result_opt_i] in *.
  assert (Hat : int_ok (atoi v)) by apply atoi_ok.
  assert (Hput : forall r', response_fields_fit r' -> resp_inv (mkRespCtx r' row opt valid)) by (intros; split; done).
  pose proof Hr as Hr'. destruct Hr' as [He [Hh Hi] Ht Ho Hs (Hi1 & Hi2 & Hi3 & Hi4) Hn].
  unfold response_kv.
  destruct (is_key k "status"). { destruct (result_from_name v); [|by apply Hput]. split; [by split|done]. }
  destruct (is_election_key k). { apply Hput. split; cbn; try done. by apply election_kv_fits. }
  destruct (is_key k "has_prior_ballot"). { apply Hput. by split. }
  destruct (is_key k "prior_ballot_version"). { apply Hput. by split. }
  destruct (is_key k "hash"). { apply Hput. split; cbn; try done. auto with fits. }
  destruct (is_key k "issued_at"). { apply Hput. split; cbn; try done. auto with fits. }
  destruct (is_key k "tally_count"). { apply Hput. by split. }
  destruct (is_key k "result_option").
  { destruct (Z.ltb_spec opt BB_MAX_OPTIONS); [|by apply Hput]. split; [|cbn; lia]. split; cbn; try done. auto with fits. }
  destruct (is_key k "tally").
  { apply Hput. split; cbn -[tally_loop]; try done.
    destruct (tally_loop_fits (Z.to_nat BB_MAX_OPTIONS) v 0 (p_tally r)) as [-> Hf]; [apply Ht|]. by split; [apply Ht|]. }
  destruct (is_key k "hash_count"). { apply Hput. by split. }
  destruct (is_key k "row").
  { destruct (Z.ltb_spec row BB_MAX_VOTERS); [|by apply Hput]. destruct (scan_row v) as [h|] eqn:E; [|by apply Hput].
    apply scan_row_fits in E; [|done]. split; [|cbn; lia]. split; cbn; try done.
    split; [by rewrite length_aset; apply Hs|]. by apply Forall_aset; [apply Hs|]. }
  destruct (is_key k "found"). { apply Hput. by split. }
  destruct (is_key k "found_option"). { apply Hput. by split. }
  destruct (is_key k "found_option_name"); [|by apply Hput]. apply Hput. split; cbn; try done. auto with fits.
Qed.

Lemma zero_response_fits : response_fields_fit zero_response.
Proof.
  assert (Hi : int_ok 0) by (unfold int_ok, INT_MIN, INT_MAX; lia).
  split; cbn -[replicate]; try done; try (split_and!; auto with fits; done); auto with fits.
  - split; cbn -[replicate]; auto with fits. unfold BB_MAX_OPTIONS. lia.
  - split; [apply length_replicate|by apply Forall_replicate].
  - split; [apply length_replicate|]. apply Forall_replicate. split; [|done]. cbn. auto with fits.
Qed.

(** A decoded response is well formed. *)
Lemma decoded_response_fits h r : bcl_decode_response h = Some r -> response_fits r.
Proof.
  unfold bcl_decode_response.
  assert (Hc : resp_inv (body_for_each (res_body h) response_kv (mkRespCtx zero_response 0 0 false))).
  { apply (body_for_each_ind resp_inv); [intros; by apply response_kv_inv|].
    split; [apply zero_response_fits|]. unfold BB_MAX_OPTIONS, BB_MAX_VOTERS. cbn. lia. }
  revert Hc. destruct (body_for_each _ _ _) as [r0 row opt valid]. intros (Hr & Hrow & Hopt).
  cbn [x_resp x_row_i x_result_opt_i] in *. destruct valid; [|done]. intros H. apply (inj Some) in H as <-.
  set (r1 := if (p_hash_count r0 <? 0) || (row <? p_hash_count r0) then set_hashes (p_hashes r0) row r0 else r0).
  assert (H1 : response_fields_fit r1 /\ 0 <= p_hash_count r1 <= BB_MAX_VOTERS).
  { unfold r1. destruct Hr. case_match eqn:E; [split; [by split|done]|]. bool_arith. split; [by split|lia]. }
  clearbody r1. destruct H1 as [[] Hh]. case_match eqn:E; (split; [by split| |done]); [done|]. bool_arith. lia.
Qed.

(** C34: Whatever arrives, what is decoded is well formed.  A request the parser
    and the decoder accept has every string inside its array, at most 16 options
    and 64 names, a payload of at most 256 bytes, and an election id wherever its
    operation needs one; a decoded response has every string inside its array, no
    list of eligible voters, and never counts more options or rows than its arrays
    hold, whatever counts the sender claimed. *)
Theorem decoded_messages_fit :
  (forall buf h q, htttp_parse_request buf = Ok h -> bcl_decode_request h = Some q ->
     request_fits q /\ (path_op (q_op q) = true -> q_election_id q <> [])) /\
  (forall h r, bcl_decode_response h = Some r -> response_fits r).
Proof. split; [exact decoded_request_fits|exact decoded_response_fits]. Qed.

(** A body that claims 78 rows and sends one. *)
Definition overclaiming : htttp_response :=
  let b := bytes "status=BB_OK" ++ [LF] ++ bytes "hash_count=78" ++ [LF] ++ bytes "row=ab,1,1,0" ++ [LF] in
  mkResponse 200 [] (Some b) (Z.of_nat (length b)).

Lemma decoded_messages_fit_witness :
  exists r, bcl_decode_response overclaiming = Some r /\ p_hash_count r = 1 /\ p_hash_count r <= BB_MAX_VOTERS.
Proof.
  destruct (bcl_decode_response overclaiming) as [r|] eqn:E; [|vm_compute in E; discriminate].
  exists r. split; [reflexivity|]. split; [vm_compute in E; injection E as <-; reflexivity|].
  apply (proj2 decoded_messages_fit overclaiming r E).
Defined.
