(* ===== verification/Ballotd.v ===== *)
(** * Ballotd: the ballot daemon, from frames to the store

    Models ballotbox/src/ballotd: the routing of dispatch.c, what session.c does with
    one voter's frame (handle_request), what control_plane.c does with one operator's
    (handle_conn) together with the answer main.c's admin_thread writes
    (handle_ctl_req).  The admin thread runs one request at a time, so a frame's
    effect is one step of the store.  The hops between the daemon's own threads (a
    socketpair and a pipe carrying one struct) are taken to deliver it; [None] as a
    reply means that nothing is sent.  [date] is the clock libhtttp stamps responses
    with. *)

From Stdlib Require Import String.
From stdpp Require Import options.
From S2P Require Import Prelude Text Htttp BallotTypes BallotDb Ballot Codec.
#[local] Open Scope Z_scope.

Section daemon.
Context {W : Type} `{!DbExec W, !DbTxn W, !IdAlloc W}.

(** ** What a failed call leaves behind

    [dispatch.c] hands [bb_join] and [bb_record_ballot] the response's own fields as
    out-parameters, so what they wrote before failing stays in it. *)

(** [bb_join] writes the election once its gates pass, before it looks for a prior
    ballot: what the call without that last read would have returned. *)
Definition join_out (id cert : list Z) (w : W) : bb_election :=
  match bb_join (Some id) (Some cert) false w with
  | (BB_OK (e, _), _) => e
  | (BB_ERR _, _) => zero_election
  end.

(** The part of [record_ballot_locked] up to the receipt it issues. *)
Definition receipt_issued (election_id : list Z) (ballot : bb_ballot) : M W bb_receipt :=
  election ← load_election election_id;
  if bool_decide (e_state election = BB_STATE_CLOSED) || bool_decide (e_state election = BB_STATE_PUBLISHED)
  then fail BB_ERR_CLOSED
  else if bool_decide (e_state election <> BB_STATE_OPEN) then fail BB_ERR_NOT_OPEN
  else if negb (bb_check_eligibility election (b_cert_name ballot)) then fail BB_ERR_NOT_ELIGIBLE
  else
    option_index ← lift (bb_decrypt_ballot ballot);
    if (option_index <? 0) || (e_option_count election <=? option_index) then fail BB_ERR_BAD_OPTION
    else
      seen ← db_exec (BB_DB_NONCE_SEEN (trunc BB_ID_LEN election_id) (trunc BB_NONCE_LEN (b_nonce ballot)));
      if r_found seen then fail BB_ERR_REPLAY
      else
        prior ← db_exec (BB_DB_GET_PRIOR_BALLOT (trunc BB_ID_LEN election_id)
                           (trunc BB_CERT_LEN (b_cert_name ballot)));
        let version := if r_found prior then h_version (r_row prior) + 1 else 1 in
        lift (bb_issue_receipt ballot version).

(** The receipt of the last attempt that got that far; [out] so far. *)
Fixpoint record_out (attempts : nat) (id : list Z) (b : bb_ballot) (out : bb_receipt) (w : W) : bb_receipt :=
  match attempts with
  | O => out
  | S attempts =>
      match bb_db_begin w with
      | (BB_ERR _, _) => out
      | (BB_OK _, w) =>
          let out := match receipt_issued id b w with (BB_OK rc, _) => rc | (BB_ERR _, _) => out end in
          match record_ballot_locked id b w with
          | (BB_ERR BB_ERR_RETRY, w) => record_out attempts id b out (bb_db_rollback w)
          | (BB_ERR _, _) => out
          | (BB_OK _, w) =>
              match bb_db_commit w with
              | (BB_ERR BB_ERR_RETRY, w) => record_out attempts id b out w
              | _ => out
              end
          end
      end
  end.

(** ** dispatch.c *)

Definition zero_receipt : bb_receipt := mkReceipt [] [].
Definition failed (e : bb_err) : bcl_response := set_status (BB_ERR e) zero_response.
Definition named_election (id title : list Z) : bb_election :=
  mkElection (trunc BB_ID_LEN id) title BB_STATE_DRAFT (replicate 16 []) 0 (replicate 64 []) 0 [] [].

(** The copy of the results into the response. *)
Definition results_response (id : list Z) (res : bb_results) : bcl_response :=
  set_hashes (rs_hashes res ++ replicate (64 - length (rs_hashes res)) zero_row) (Z.of_nat (length (rs_hashes res)))
    (set_tally (rs_tally res) (rs_option_count res) (rs_options res)
       (set_election (named_election id (trunc BB_TITLE_LEN (rs_title res))) zero_response)).

Definition ballotd_dispatch (req : bcl_request) (w : W) : bcl_response * W :=
  let id := q_election_id req in
  match q_op req with
  | BCL_CREATE =>
      match bb_create_election (Some (q_config req)) (Some id) w with
      | (BB_OK new_id, w) => (set_election (named_election new_id []) zero_response, w)
      | (BB_ERR e, w) => (failed e, w)
      end
  | BCL_ADMIN_NEXT_ID =>
      let '(next, w) := bb_alloc_id w in (set_election (named_election next []) zero_response, w)
  | BCL_OPEN =>
      match bb_transition_state (Some id) BB_STATE_OPEN w with
      | (BB_OK _, w) => (zero_response, w)
      | (BB_ERR e, w) => (failed e, w)
      end
  | BCL_CLOSE =>
      match bb_transition_state (Some id) BB_STATE_CLOSED w with
      | (BB_OK _, w) => (zero_response, w)
      | (BB_ERR e, w) => (failed e, w)
      end
  | BCL_PUBLISH =>
      match bb_publish_results (Some id) w with
      | (BB_OK _, w) => (zero_response, w)
      | (BB_ERR e, w) => (failed e, w)
      end
  | BCL_JOIN =>
      match bb_join (Some id) (Some (q_cert_name req)) true w with
      | (BB_OK (e, prior), w) =>
          let '(has, version) := default (false, 0) prior in
          (set_prior (Z.b2z has) version (set_election e zero_response), w)
      | (BB_ERR e, w') => (set_election (join_out id (q_cert_name req) w) (failed e), w')
      end
  | BCL_CAST | BCL_UPDATE =>
      match bb_record_ballot (Some id) (Some (q_ballot req)) w with
      | (BB_OK rc, w) => (set_receipt rc zero_response, w)
      | (BB_ERR e, w') =>
          (set_receipt (record_out BB_TXN_ATTEMPTS id (q_ballot req) zero_receipt w) (failed e), w')
      end
  | BCL_RESULTS =>
      match bb_get_results (Some id) (Some (q_cert_name req)) w with
      | (BB_OK res, w) => (results_response id res, w)
      | (BB_ERR e, w) => (failed e, w)
      end
  | BCL_ADMIN_RESULTS =>
      match bb_get_results_admin (Some id) w with
      | (BB_OK res, w) => (results_response id res, w)
      | (BB_ERR e, w) => (failed e, w)
      end
  | BCL_CHECK | BCL_ADMIN_CHECK =>
      match bb_lookup_hash (Some id) (Some (q_hash req)) w with
      | (BB_OK (row, name), w) => (set_found 1 (h_option_index row) name zero_response, w)
      | (BB_ERR e, w) => (failed e, w)
      end
  end.

(** ** session.c: the voter's channel *)

Definition SESSION_MAX_FRAME : nat := Z.to_nat 65536.
Definition CTL_MAX_FRAME : nat := Z.to_nat 65536.

(** A bodiless answer into a 512-byte buffer. *)
Definition reply_raw (date : option (list Z)) (st : Z) : option (list Z) :=
  ok_bytes (htttp_serialize_response date (mkResponse st [] None 0) (Z.to_nat 512)).

Definition is_voter_op (op : bcl_op) : bool :=
  match op with BCL_JOIN | BCL_CAST | BCL_UPDATE | BCL_RESULTS | BCL_CHECK => true | _ => false end.

(** The connection's verified name, in place of whatever the request says. *)
Definition as_voter (cert : list Z) (q : bcl_request) : bcl_request :=
  let b := q_ballot q in
  mkBclRequest (q_op q) (trunc BB_CERT_LEN cert) (q_election_id q)
    (mkBallot (trunc BB_CERT_LEN cert) (b_nonce b) (b_payload b) (b_payload_len b)) (q_hash q) (q_config q).

Definition handle_request (date : option (list Z)) (cert buf : list Z) (w : W) : option (list Z) * W :=
  match htttp_parse_request buf with
  | Err _ => (reply_raw date 400, w)
  | Ok http =>
      match bcl_decode_request http with
      | None => (reply_raw date 400, w)
      | Some q =>
          if negb (is_voter_op (q_op q)) then (reply_raw date 400, w)
          else
            let '(resp, w) := ballotd_dispatch (as_voter cert q) w in
            (bcl_encode_response date (q_op q) resp SESSION_MAX_FRAME, w)
      end
  end.

(** ** control_plane.c and admin_thread: the operator's channel *)

Definition is_admin_op (op : bcl_op) : bool :=
  match op with
  | BCL_CREATE | BCL_OPEN | BCL_CLOSE | BCL_PUBLISH | BCL_ADMIN_RESULTS | BCL_ADMIN_CHECK | BCL_ADMIN_NEXT_ID => true
  | _ => false
  end.

Definition handle_ctl_req (date : option (list Z)) (q : bcl_request) (w : W) : option (list Z) * W :=
  let '(resp, w) := ballotd_dispatch q w in
  (bcl_encode_response date (q_op q) resp CTL_MAX_FRAME, w).

Definition handle_conn (date : option (list Z)) (buf : list Z) (w : W) : option (list Z) * W :=
  match htttp_parse_request buf with
  | Err _ => (reply_raw date 400, w)
  | Ok http =>
      match bcl_decode_request http with
      | None => (reply_raw date 400, w)
      | Some q => if negb (is_admin_op (q_op q)) then (reply_raw date 400, w) else handle_ctl_req date q w
      end
  end.
End daemon.
