(* ===== verification/BallotdTheorems.v ===== *)
(** * BallotdTheorems: what reaches the ballot store through the daemon

    Raw frames on the two channels of ballotd: each frame is one request of the
    store or changes nothing, a voter's channel acts for that voter only, an
    operator's channel touches no ballot, and every vote in the book was cast on a
    channel of its voter. *)

From Stdlib Require Import String.
From stdpp Require Import options.
From S2P Require Import Prelude Text Htttp HtttpTheorems BallotTypes BallotDb Ballot BallotSim BallotInv.
From S2P Require Import BallotSteps BallotSql BallotSqlLaws BallotTheorems Codec CodecTheorems Ballotd.
#[local] Open Scope Z_scope.

(** ** Frames as requests *)

(** The request of the store a decoded request asks for. *)
Definition request_of (q : bcl_request) : request :=
  let id := q_election_id q in
  match q_op q with
  | BCL_CREATE => RCreate (q_config q) (Some id)
  | BCL_OPEN => RTransition id BB_STATE_OPEN
  | BCL_CLOSE => RTransition id BB_STATE_CLOSED
  | BCL_PUBLISH => RPublish id
  | BCL_JOIN => RJoin id (q_cert_name q) true
  | BCL_CAST | BCL_UPDATE => RBallot id (q_ballot q)
  | BCL_RESULTS => RResults id (q_cert_name q)
  | BCL_CHECK | BCL_ADMIN_CHECK => RLookup id (q_hash q)
  | BCL_ADMIN_RESULTS => RResultsAdmin id
  | BCL_ADMIN_NEXT_ID => RNextId
  end.

(** A frame as it arrives: on the channel of the voter the handshake named, or on
    the operators' socket. *)
Inductive frame := FVoter (cert buf : list Z) | FAdmin (buf : list Z).

Definition decoded (buf : list Z) : option bcl_request :=
  match htttp_parse_request buf with Ok http => bcl_decode_request http | Err _ => None end.

Definition frame_request (f : frame) : option request :=
  match f with
  | FVoter cert buf =>
      q ← decoded buf; if is_voter_op (q_op q) then Some (request_of (as_voter cert q)) else None
  | FAdmin buf => q ← decoded buf; if is_admin_op (q_op q) then Some (request_of q) else None
  end.

Section frames.
Context {W : Type} `{!DbExec W, !DbTxn W, !IdAlloc W}.

Definition on_frame (date : option (list Z)) (f : frame) (w : W) : option (list Z) * W :=
  match f with
  | FVoter cert buf => handle_request date cert buf w
  | FAdmin buf => handle_conn date buf w
  end.

Lemma dispatch_serves q w : (ballotd_dispatch q w).2 = serve (request_of q) w.
Proof using Type.
  unfold ballotd_dispatch, request_of. destruct (q_op q); cbn [serve];
    repeat case_match; simplify_eq; cbn [snd]; try done; repeat case_match; by simplify_eq.
Qed.

Lemma frame_serves date f w :
  (on_frame date f w).2 = match frame_request f with Some r => serve r w | None => w end.
Proof using Type.
  destruct f as [cert buf|buf]; cbn [on_frame frame_request]; unfold decoded, handle_request, handle_conn;
    destruct (htttp_parse_request buf) as [http|]; try done;
    destruct (bcl_decode_request http) as [q|]; try done; cbn [mbind option_bind].
  - destruct (is_voter_op (q_op q)); [|done]. rewrite <- (dispatch_serves (as_voter cert q)). cbn [negb].
    by destruct (ballotd_dispatch _ w).
  - destruct (is_admin_op (q_op q)); [|done]. rewrite <- (dispatch_serves q). cbn [negb]. unfold handle_ctl_req.
    by destruct (ballotd_dispatch _ w).
Qed.

(** Frames served one after the other, each with the clock of its answer. *)
Definition run_frames (fs : list (option (list Z) * frame)) (w : W) : W :=
  foldl (fun w f => (on_frame f.1 f.2 w).2) w fs.
End frames.

(** ** What a voter's request can be *)

Lemma voter_request cert buf r :
  frame_request (FVoter cert buf) = Some r ->
  match r with
  | RBallot _ b => b_cert_name b = trunc BB_CERT_LEN cert
  | RJoin _ c _ | RResults _ c => c = trunc BB_CERT_LEN cert
  | RLookup _ _ => True
  | _ => False
  end.
Proof.
  cbn [frame_request]. destruct (decoded buf) as [q|]; [|done]. cbn [mbind option_bind].
  destruct (is_voter_op (q_op q)) eqn:Hop; [|done]. intros [= <-]. unfold request_of, as_voter. cbn [q_op].
  by destruct (q_op q).
Qed.

Lemma admin_request buf r :
  frame_request (FAdmin buf) = Some r ->
  match r with RBallot _ _ | RJoin _ _ _ | RResults _ _ => False | _ => True end.
Proof.
  cbn [frame_request]. destruct (decoded buf) as [q|]; [|done]. cbn [mbind option_bind].
  destruct (is_admin_op (q_op q)) eqn:Hop; [|done]. intros [= <-]. unfold request_of. by destruct (q_op q).
Qed.

(** ** Another voter's vote *)

(** The voter's row and the rows of everybody else. *)
Definition others (cert : list Z) (t : list owner_row) : list owner_row := filter (fun o => ow_cert o <> cert) t.

(** The live row an owner's row points at. *)
Definition vote_of (d : bdb) (o : owner_row) (r : bb_ballot_hash) : Prop :=
  o ∈ t_owner d /\ r ∈ live (ballots_of d (ow_election o)) /\ h_hash r = ow_hash o.

Lemma others_recorded d i c nonce row prior : others c (t_owner (recorded d i c nonce row prior)) = others c (t_owner d).
Proof.
  unfold others. cbn [t_owner recorded]. rewrite filter_app_one, decide_False by (simpl; naive_solver).
  rewrite app_nil_r, list_filter_filter. apply list_filter_iff. naive_solver.
Qed.

Lemma vote_survives {RN : Runner} d id b rc d' o r :
  db_ok d -> record_spec id b d = (BB_OK rc, d') -> fresh_receipt d id rc ->
  ow_cert o <> trunc BB_CERT_LEN (b_cert_name b) -> vote_of d o r -> vote_of d' o r.
Proof.
  intros Hd Hspec Hfr Hne (Hin & Hr & Hh). destruct (record_inv _ _ _ _ _ Hspec) as (Hacc & Hrc & prior & Hprior & ->).
  unfold fresh_receipt in Hfr. rewrite Hrc in Hfr. set (i := trunc BB_ID_LEN id) in *.
  set (c := trunc BB_CERT_LEN (b_cert_name b)) in *. split_and!; [| |done].
  - cbn [t_owner recorded]. apply elem_of_app. left. apply list_elem_of_filter. naive_solver.
  - destruct (decide (ow_election o = i)) as [Hi|Hi]; [|by rewrite recorded_ballots_ne].
    rewrite Hi in Hr |- *. apply list_elem_of_filter in Hr as [Hs Hr]. apply list_elem_of_filter. split; [done|].
    destruct (owner_of d i c) as [ow|] eqn:Ho.
    + destruct (rows_some d id b (Hd i) Hacc) with (prior := prior) (ow := ow) as (old & _ & _ & E);
        [by fold i c; rewrite Ho|by fold i c; rewrite Ho|done|].
      fold i c in E. rewrite Ho in E. rewrite E. apply elem_of_app. left. apply list_elem_of_filter. split; [|done].
      destruct (owner_of_some d i c ow Ho) as [Hown Hcert]. rewrite Hh. intros Heq.
      apply Hne. rewrite <- Hcert. f_equal.
      apply (NoDup_key_eq ow_hash (owners_of d i)); [by apply owner_hashes_NoDup| |done|done].
      by apply list_elem_of_filter.
    + pose proof (rows_none d id b (Hd i) Hacc) as E. fold i c in E. rewrite Ho in E. rewrite E by done.
      by apply elem_of_app; left.
Qed.

Section channels.
Context {W : Type} {RN : Runner} `{!DbExec W, !DbTxn W, !IdAlloc W, !StoreLaws W}.

(** A frame whose request is in order: what [request_ok] asks of it. *)
Definition frame_ok (strict : bool) (w : W) (f : frame) : Prop :=
  match frame_request f with Some r => request_ok strict w r | None => True end.

Fixpoint frames_ok (strict : bool) (fs : list (option (list Z) * frame)) (w : W) : Prop :=
  match fs with
  | [] => True
  | (date, f) :: fs => frame_ok strict w f /\ frames_ok strict fs (on_frame date f w).2
  end.

Lemma history_trans strict (w w1 w2 : W) : history strict w w1 -> history strict w1 w2 -> history strict w w2.
Proof using Type. intros H1. induction 1; [done|]. by constructor. Qed.

Lemma frame_history strict date f w : frame_ok strict w f -> history strict w (on_frame date f w).2.
Proof using Type.
  unfold frame_ok. rewrite frame_serves. destruct (frame_request f) as [r|]; [|constructor].
  intros Hok. by apply hi_snoc; [constructor|].
Qed.

Lemma frames_history strict fs w : frames_ok strict fs w -> history strict w (run_frames fs w).
Proof using Type.
  revert w. induction fs as [|[date f] fs IH]; intros w; [constructor|]. intros [Hf Hfs].
  eapply history_trans; [by apply frame_history|]. by apply IH.
Qed.

Lemma frames_ok_app strict fs gs (w : W) :
  frames_ok strict (fs ++ gs) w <-> frames_ok strict fs w /\ frames_ok strict gs (run_frames fs w).
Proof using Type.
  revert w. induction fs as [|[date f] fs IH]; intros w; [simpl; tauto|].
  cbn [app frames_ok run_frames foldl fst snd]. rewrite IH. unfold run_frames. tauto.
Qed.

(** What a voter's frame does to the tables. *)
Lemma voter_frame date cert buf w :
  txn_open w = false ->
  let d := committed w in let d' := committed (on_frame date (FVoter cert buf) w).2 in
  txn_open (on_frame date (FVoter cert buf) w).2 = false /\
  (d' = d \/ exists id b rc, frame_request (FVoter cert buf) = Some (RBallot id b) /\
     b_cert_name b = trunc BB_CERT_LEN cert /\ record_spec id b d = (BB_OK rc, d')).
Proof using All.
  intros Ho. rewrite frame_serves. destruct (frame_request (FVoter cert buf)) as [r|] eqn:Hr; [|auto].
  pose proof (voter_request _ _ _ Hr) as Hv. destruct r as [cfg desired|id to|id|id c want|id b|id c|id|id h|]; try done.
  2:{ cbn [serve]. pose proof (record_outcome id b w Ho) as Hout. destruct (bb_record_ballot _ _ w) as [r w'].
      destruct Hout as (Ho' & _ & Hout). split; [done|]. destruct (outcome_cases _ _ _ _ _ Hout) as [?|[rc Hrc]]; [by left|].
      right. exists id, b, rc. done. }
  all: cbn [serve].
  - destruct (plain_read_same _ _ w (plain_join (Some id) (Some c) want)) as [-> ->];
      [cbn [bb_join]; auto 12 with readonly|done|auto].
  - destruct (plain_read_same _ _ w (plain_results (Some id) (Some c))) as [-> ->];
      [cbn [bb_get_results]; unfold fetch_results; auto 12 with readonly|done|auto].
  - destruct (plain_read_same _ _ w (plain_lookup (Some id) (Some h))) as [-> ->];
      [cbn [bb_lookup_hash]; auto 12 with readonly|done|auto].
Qed.

Lemma cert_trunc_idem cert : trunc BB_CERT_LEN (trunc BB_CERT_LEN cert) = trunc BB_CERT_LEN cert.
Proof using Type. apply trunc_id, length_trunc. unfold BB_CERT_LEN. lia. Qed.

(** A transition touches the election table only. *)
Lemma transition_tables id to w :
  txn_open w = false ->
  let w' := (bb_transition_state (Some id) to w).2 in let d := committed w in let d' := committed w' in
  txn_open w' = false /\ t_ballot d' = t_ballot d /\ t_owner d' = t_owner d /\ t_nonce d' = t_nonce d.
Proof using All.
  intros Ho. pose proof (plain_transition (Some id) to w Ho) as Hp.
  destruct (bb_transition_state (Some id) to w) as [x w']. destruct Hp as (Ho' & _ & Hout). simpl. split; [done|].
  destruct (outcome_cases _ _ _ _ _ Hout) as [->|[a Ha]]; [done|].
  apply bind_ok in Ha as (res & d1 & Hg%exec_ok & Ht). cbn [cmd_run] in Hg.
  assert (d1 = committed w) as -> by (repeat case_match; naive_solver). cbv zeta in Ht.
  destruct (negb (r_found res)); [done|]. destruct (negb (bb_is_legal_transition (e_state (r_election res)) to)); [done|].
  apply bind_ok in Ht as (u & d2 & Hu%exec_ok & [= _ <-]).
  by destruct (update_elections _ _ _ _ _ Hu) as (_ & _ & _ & _ & ? & ? & ?).
Qed.

(** What an operator's frame leaves alone. *)
Lemma admin_frame date buf w :
  txn_open w = false ->
  let d := committed w in let d' := committed (on_frame date (FAdmin buf) w).2 in
  txn_open (on_frame date (FAdmin buf) w).2 = false /\
  t_ballot d' = t_ballot d /\ t_owner d' = t_owner d /\ t_nonce d' = t_nonce d.
Proof using All.
  intros Ho. rewrite frame_serves. destruct (frame_request (FAdmin buf)) as [r|] eqn:Hr; [|auto].
  pose proof (admin_request _ _ Hr) as Hv.
  destruct r as [cfg desired|id to|id|id c want|id b|id c|id|id h|]; try done; cbn [serve].
  - pose proof (create_outcome cfg desired w Ho) as Hc. destruct (bb_create_election _ _ w) as [x w'].
    destruct Hc as (Ho' & [[_ Hc]|(i & a & _ & Hi & _)]); (split; [done|]); simpl; [by rewrite Hc|].
    by destruct (insert_tables _ _ _ _ _ Hi) as (_ & _ & ? & ? & ?).
  - by apply transition_tables.
  - by apply transition_tables.
  - destruct (plain_read_same _ _ w (plain_results_admin (Some id))) as [-> ->];
      [cbn [bb_get_results_admin]; unfold fetch_results; auto 12 with readonly|done|auto].
  - destruct (plain_read_same _ _ w (plain_lookup (Some id) (Some h))) as [-> ->];
      [cbn [bb_lookup_hash]; auto 12 with readonly|done|auto].
  - destruct (alloc_law w Ho) as (-> & -> & _). auto.
Qed.

(** C13: The channels are confined. Whatever bytes arrive, and whatever fails
    underneath: a frame on a voter's channel changes no election, option or
    eligibility row and no owner row of any other voter, whatever certificate name the
    frame claims; and if the books are in order before and the receipt hash of the
    ballot it records, if it records one, is not that of another ballot of the
    election - which the code does not ensure - every other voter's ballot stays live
    as it was. A frame on the operators' socket changes no ballot, owner or nonce. *)
Theorem channels_confined date f w :
  txn_open w = false ->
  let d := committed w in let d' := committed (on_frame date f w).2 in
  match f with
  | FVoter cert buf =>
      let c := trunc BB_CERT_LEN cert in
      t_election d' = t_election d /\ t_option d' = t_option d /\ t_eligible d' = t_eligible d /\
      others c (t_owner d') = others c (t_owner d) /\
      (db_ok d -> frame_ok true w f -> forall o r, ow_cert o <> c -> vote_of d o r -> vote_of d' o r)
  | FAdmin buf => t_ballot d' = t_ballot d /\ t_owner d' = t_owner d /\ t_nonce d' = t_nonce d
  end.
Proof using All.
  intros Ho. destruct f as [cert buf|buf]; [|by apply admin_frame]. cbv zeta.
  destruct (voter_frame date cert buf w Ho) as [_ [->|(id & b & rc & Hr & Hb & Hspec)]]; [naive_solver|].
  assert (Hc : trunc BB_CERT_LEN (b_cert_name b) = trunc BB_CERT_LEN cert) by (rewrite Hb; apply cert_trunc_idem).
  split_and!.
  5:{ intros Hd Hok o r Hne. unfold frame_ok in Hok. rewrite Hr in Hok.
      eapply vote_survives; [done|done|by eapply Hok|by rewrite Hc]. }
  all: destruct (record_inv _ _ _ _ _ Hspec) as (_ & _ & prior & _ & ->); rewrite Hc; try done. apply others_recorded.
Qed.

(** The voters on record came over channels of their own. *)
Lemma owners_authenticated fs w :
  txn_open w = false ->
  forall o, o ∈ t_owner (committed (run_frames fs w)) ->
  o ∈ t_owner (committed w) \/ exists date cert buf, (date, FVoter cert buf) ∈ fs /\ ow_cert o = trunc BB_CERT_LEN cert.
Proof using All.
  revert w. induction fs as [|[date f] fs IH]; intros w Ho o Hin; [by left|].
  change (run_frames _ w) with (run_frames fs (on_frame date f w).2) in Hin. destruct f as [cert buf|buf].
  - destruct (voter_frame date cert buf w Ho) as [Ho' Hd].
    destruct (IH _ Ho' o Hin) as [Hold|(dt & c & bf & Hf & Hc)]; [|right; exists dt, c, bf; split; [by right|done]].
    destruct Hd as [Hd|(id & b & rc & _ & Hb & Hspec)]; [left; by rewrite Hd in Hold|].
    destruct (record_inv _ _ _ _ _ Hspec) as (_ & _ & prior & _ & E). rewrite E in Hold. cbn [t_owner recorded] in Hold.
    apply elem_of_app in Hold as [Hold|Hold]; [left; apply list_elem_of_filter in Hold; tauto|].
    apply list_elem_of_singleton in Hold as ->. right. exists date, cert, buf. split; [by left|].
    cbn [ow_cert]. by rewrite Hb, cert_trunc_idem.
  - destruct (admin_frame date buf w Ho) as (Ho' & _ & Hw & _).
    destruct (IH _ Ho' o Hin) as [Hold|(dt & c & bf & Hf & Hc)]; [left; by rewrite Hw in Hold|].
    right. exists dt, c, bf. split; [by right|done].
Qed.

(** C2: Every counted vote was cast by its voter. Take any sequence of raw frames,
    from any voters and operators, on a new store that may fail at any call, as long
    as no two receipt hashes of an election collide and every automatically allocated
    election id is free - neither of which the code ensures. Then in every election
    the live ballots are the current ones of distinct voters on its list, at most one
    each, and each of those voters sent a frame on a channel the handshake
    authenticated as theirs. *)
Theorem votes_come_from_their_voters fs w id :
  txn_open w = false -> committed w = empty_db -> frames_ok true fs w ->
  let d := committed (run_frames fs w) in
  ((fun r => (h_hash r, h_version r)) <$> live (ballots_of d id)) ≡ₚ
    ((fun o => (ow_hash o, ow_version o)) <$> owners_of d id) /\
  NoDup (ow_cert <$> owners_of d id) /\
  Forall (fun o => on_list d id (ow_cert o) /\
    exists date cert buf, (date, FVoter cert buf) ∈ fs /\ ow_cert o = trunc BB_CERT_LEN cert) (owners_of d id).
Proof using All.
  intros Ho Hw Hfs d. assert (Hd : db_ok d).
  { apply (history_ok w); [done|rewrite Hw; apply empty_db_ok|by apply frames_history]. }
  destruct (Hd id). split_and!; [done..|]. apply list.Forall_forall. intros o Hin.
  split; [by eapply list.Forall_forall in bk_eligible|].
  apply list_elem_of_filter in Hin as [_ Hin]. destruct (owners_authenticated fs w Ho o Hin) as [Hold|?]; [|done].
  rewrite Hw in Hold. set_solver.
Qed.
End channels.

#[local] Existing Instance some_runner.

(** ** A day at the daemon *)

Definition wire (q : bcl_request) : list Z := default [] (bcl_encode_request q 65536).

Definition plain_request (op : bcl_op) (cert id : list Z) : bcl_request :=
  mkBclRequest op cert id zero_ballot [] zero_config.

(** A cast ballot whose frame claims to come from Bob. *)
Definition forged_cast : bcl_request :=
  mkBclRequest BCL_CAST (bytes "bob") E7 (mkBallot (bytes "bob") (bytes "n1") (1 :: replicate 255 0) 1) [] zero_config.

Definition opening : list (option (list Z) * frame) :=
  [(None, FAdmin (wire create_example)); (None, FAdmin (wire (plain_request BCL_OPEN [] E7)))].
Definition alice_casts : frame := FVoter (bytes "alice") (wire forged_cast).
#[local] Notation w_ready := (run_frames opening new_world).

Lemma opening_ok : frames_ok true opening new_world.
Proof.
  split; [|split; [|exact I]].
  - assert (E : exists cfg, frame_request (FAdmin (wire create_example)) = Some (RCreate cfg (Some E7)))
      by (eexists; vm_compute; reflexivity).
    destruct E as [cfg E]. unfold frame_ok. rewrite E. intros ?. discriminate.
  - assert (E : frame_request (FAdmin (wire (plain_request BCL_OPEN [] E7))) = Some (RTransition E7 BB_STATE_OPEN))
      by (vm_compute; reflexivity).
    unfold frame_ok. rewrite E. exact I.
Qed.

Lemma alice_casts_request : exists b, frame_request alice_casts = Some (RBallot E7 b) /\ b_cert_name b = bytes "alice".
Proof. eexists. split; vm_compute; reflexivity. Qed.

Lemma ready_no_ballots : ballots_of (committed w_ready) (trunc BB_ID_LEN E7) = [].
Proof. vm_compute. reflexivity. Qed.

Lemma alice_casts_ok : frame_ok true w_ready alice_casts.
Proof.
  destruct alice_casts_request as (b & E & _). unfold frame_ok. rewrite E. intros _ rc d' _. unfold fresh_receipt.
  rewrite ready_no_ballots. apply not_elem_of_nil.
Qed.

Lemma channels_confined_witness :
  let d' := committed (on_frame None alice_casts w_ready).2 in
  length (t_owner d') = 1%nat /\ others (bytes "alice") (t_owner d') = [].
Proof.
  intros d'. split; [vm_compute; reflexivity|].
  assert (Ho : txn_open w_ready = false) by (vm_compute; reflexivity).
  destruct (channels_confined None alice_casts w_ready Ho) as (_ & _ & _ & H & _).
  change (trunc BB_CERT_LEN (bytes "alice")) with (bytes "alice") in H.
  fold d' in H. rewrite H. vm_compute. reflexivity.
Defined.

Lemma votes_come_from_their_voters_witness :
  let d := committed (run_frames (opening ++ [(None, alice_casts)]) new_world) in
  length (owners_of d E7) = 1%nat /\ Forall (fun o => ow_cert o = bytes "alice") (owners_of d E7).
Proof.
  pose proof (proj2 (frames_ok_app true opening [(None, alice_casts)] new_world)
    (conj opening_ok (conj alice_casts_ok I))) as Hok.
  assert (Ho : txn_open new_world = false) by reflexivity. assert (Hn : committed new_world = empty_db) by reflexivity.
  intros d. split; [vm_compute; reflexivity|].
  destruct (votes_come_from_their_voters (opening ++ [(None, alice_casts)]) new_world E7 Ho Hn Hok)
    as (_ & _ & H). eapply Forall_impl; [exact H|]. intros o (_ & date & cert & buf & Hin & ->).
  apply elem_of_app in Hin as [Hin|Hin].
  - unfold opening in Hin. rewrite !elem_of_cons in Hin. destruct Hin as [?|[?|Hin]]; [done|done|].
    by apply elem_of_nil in Hin.
  - apply list_elem_of_singleton in Hin. injection Hin as _ -> _. reflexivity.
Defined.

(** ** A deadlock the voter never hears of *)

(** The retry code escapes, and takes the reply with it.  When every attempt at
    a ballot loses a deadlock, or the transaction's first exchange does,
    [bb_record_ballot] returns BB_ERR_RETRY, a code documented never to leave the
    library; the codec has no name for it, so the response does not encode and the
    daemon answers the voter's frame with nothing at all. *)
Theorem retry_leaves_voter_waiting {W} `{!DbExec W, !DbTxn W, !IdAlloc W} date cert buf q (w w' : W) :
  decoded buf = Some q -> q_op q = BCL_CAST \/ q_op q = BCL_UPDATE ->
  bb_record_ballot (Some (q_election_id q)) (Some (q_ballot (as_voter cert q))) w = (BB_ERR BB_ERR_RETRY, w') ->
  on_frame date (FVoter cert buf) w = (None, w').
Proof.
  unfold decoded. intros Hdec Hop Hrec. cbn [on_frame]. unfold handle_request.
  destruct (htttp_parse_request buf) as [http|]; [|done]. rewrite Hdec.
  assert (is_voter_op (q_op q) = true) as -> by (by destruct Hop as [-> | ->]). cbn [negb].
  unfold ballotd_dispatch. change (q_op (as_voter cert q)) with (q_op q). change (q_election_id (as_voter cert q)) with (q_election_id q).
  destruct Hop as [-> | ->]; rewrite Hrec; done.
Qed.

Definition ready_retry_at_begin : world := with_faults [FNone; FRetry] (run_frames opening new_world).
Definition ready_retry_thrice : world :=
  with_faults [FNone; FNone; FRetry; FNone; FNone; FNone; FRetry; FNone; FNone; FNone; FRetry] (run_frames opening new_world).

Lemma retry_leaves_voter_waiting_witness :
  (on_frame None alice_casts ready_retry_at_begin).1 = None /\ (on_frame None alice_casts ready_retry_thrice).1 = None.
Proof.
  assert (E : exists q, decoded (wire forged_cast) = Some q /\ q_op q = BCL_CAST /\
    (bb_record_ballot (Some (q_election_id q)) (Some (q_ballot (as_voter (bytes "alice") q))) ready_retry_at_begin).1
      = BB_ERR BB_ERR_RETRY /\
    (bb_record_ballot (Some (q_election_id q)) (Some (q_ballot (as_voter (bytes "alice") q))) ready_retry_thrice).1
      = BB_ERR BB_ERR_RETRY) by (eexists; split_and!; vm_compute; reflexivity).
  destruct E as (q & Hq & Hop & H1 & H2). unfold alice_casts.
  destruct (bb_record_ballot (Some (q_election_id q)) (Some (q_ballot (as_voter (bytes "alice") q))) ready_retry_at_begin)
    as [r1 w1] eqn:E1. simpl in H1. subst r1.
  destruct (bb_record_ballot (Some (q_election_id q)) (Some (q_ballot (as_voter (bytes "alice") q))) ready_retry_thrice)
    as [r2 w2] eqn:E2. simpl in H2. subst r2.
  rewrite (retry_leaves_voter_waiting None _ _ q _ w1 Hq (or_introl Hop) E1).
  rewrite (retry_leaves_voter_waiting None _ _ q _ w2 Hq (or_introl Hop) E2). split; reflexivity.
Defined.
