(* ===== verification/BallotdLoop.v ===== *)
(** * BallotdLoop: the thread that owns the ballot store

    Models the admin thread of ballotbox/src/ballotd/main.c: the table of voter
    workers it polls, the requests it serves one at a time, workers that leave, and
    the teardown.  What a poll finds - new workers, operators' requests, what each
    worker's channel yields - is the input of a turn.  Accepting connections, forking
    and signals are not modelled. *)

From stdpp Require Import options.
From S2P Require Import Prelude Text BallotTypes BallotDb Ballot Codec Ballotd.
#[local] Open Scope Z_scope.

Definition MAX_WORKERS : nat := 254.
Definition REAP_TIMEOUT_MS : Z := 500.

Record NewWorker := mkNewWorker { nw_pid : Z; nw_fd : Z }.

(** What reading a worker's channel yields: a request, its end, or a torn message. *)
Inductive worker_read := WRequest (q : bcl_request) | WEnd | WTorn.

(** An entry of [g_fds] with its pid; [s_rev] is what the poll found on it. *)
Record slot := mkSlot { s_fd : Z; s_pid : Z; s_rev : option worker_read }.

Inductive admin_action :=
| AClose (fd : Z)
| AKill (pid sig : Z)
| AReap (pid : Z)
| ARespond (fd : Z) (resp : bcl_response)
| AWriteCtl (fd : Z) (frame : list Z).

Definition SIGTERM : Z := 15.
Definition SIGKILL : Z := 9.

(** ** Reaping *)

Inductive waited := Exited | NoChild | Running.

(** [k] more looks at the child, [i] of them done; whether it was seen gone. *)
Fixpoint reap_loop (waits : nat -> waited) (i k : nat) : bool :=
  match k with
  | O => false
  | S k => match waits i with Exited | NoChild => true | Running => reap_loop waits (S i) k end
  end.

Definition reap_bounded (waits : nat -> waited) (pid timeout_ms : Z) : list admin_action :=
  if reap_loop waits 0 (Z.to_nat ((timeout_ms + 9) / 10)) then [AReap pid] else [AKill pid SIGKILL; AReap pid].

Section loop.
Context {W : Type} `{!DbExec W, !DbTxn W, !IdAlloc W}.
Variable waits : Z -> nat -> waited.

(** ** One turn *)

(** The last entry takes the place of the one that goes. *)
Definition drop_worker (i : nat) (slots : list slot) : list slot * list admin_action :=
  match slots !! i, last slots with
  | Some s, Some e =>
      (take (length slots - 1) (<[i := e]> slots), AClose (s_fd s) :: reap_bounded (waits (s_pid s)) (s_pid s) REAP_TIMEOUT_MS)
  | _, _ => (slots, [])
  end.

Definition register (slots : list slot) (nw : NewWorker) : list slot * list admin_action :=
  if (length slots <=? MAX_WORKERS - 1)%nat then (slots ++ [mkSlot (nw_fd nw) (nw_pid nw) None], []) else (slots, [AClose (nw_fd nw)]).

Fixpoint register_all (slots : list slot) (nws : list NewWorker) : list slot * list admin_action :=
  match nws with
  | [] => (slots, [])
  | nw :: nws => let '(slots, a) := register slots nw in let '(slots, b) := register_all slots nws in (slots, a ++ b)
  end.

(** An operator's request: the descriptor to answer on, the request, the clock. *)
Record BallotdCtlReq := mkBallotdCtlReq { bc_fd : Z; bc_req : bcl_request; bc_date : option (list Z) }.

Fixpoint serve_ctl (crs : list BallotdCtlReq) (w : W) : W * list admin_action :=
  match crs with
  | [] => (w, [])
  | cr :: crs =>
      let '(frame, w) := handle_ctl_req (bc_date cr) (bc_req cr) w in
      let '(w, acts) := serve_ctl crs w in
      (w, match frame with Some f => [AWriteCtl (bc_fd cr) f] | None => [] end ++ AClose (bc_fd cr) :: acts)
  end.

(** Entries [i], [i + 1], ...; a slot that was refilled is looked at again. *)
Fixpoint scan (fuel i : nat) (slots : list slot) (w : W) : list slot * W * list admin_action :=
  match fuel with
  | O => (slots, w, [])
  | S fuel =>
      match slots !! i with
      | None => (slots, w, [])
      | Some s =>
          match s_rev s with
          | None => scan fuel (S i) slots w
          | Some (WRequest q) =>
              let '(resp, w) := ballotd_dispatch q w in
              let '(slots, w, acts) := scan fuel (S i) slots w in (slots, w, ARespond (s_fd s) resp :: acts)
          | Some _ =>
              let '(slots, a) := drop_worker i slots in
              let '(slots, w, acts) := scan fuel i slots w in (slots, w, a ++ acts)
          end
      end
  end.

(** What a poll finds. *)
Record poll_turn := mkPollTurn { p_new : list NewWorker; p_ctl : list BallotdCtlReq; p_ready : Z -> option worker_read }.

Definition polled (p : poll_turn) (slots : list slot) : list slot := (fun s => mkSlot (s_fd s) (s_pid s) (p_ready p (s_fd s))) <$> slots.

Definition ballotd_turn (p : poll_turn) (slots : list slot) (w : W) : list slot * W * list admin_action :=
  let '(slots, a) := register_all (polled p slots) (p_new p) in
  let '(w, b) := serve_ctl (p_ctl p) w in
  let '(slots, w, c) := scan (length slots) 0 slots w in
  (slots, w, a ++ b ++ c).

(** ** Teardown *)

Definition end_worker (pid fd : Z) : list admin_action :=
  AClose fd :: AKill pid SIGTERM :: reap_bounded (waits pid) pid REAP_TIMEOUT_MS.

(** [nws] and [crs] are what the pipes still hold. *)
Definition admin_teardown (nws : list NewWorker) (crs : list BallotdCtlReq) (slots : list slot) : list admin_action :=
  mjoin ((fun nw => end_worker (nw_pid nw) (nw_fd nw)) <$> nws) ++ ((fun cr => AClose (bc_fd cr)) <$> crs) ++
  mjoin ((fun s => end_worker (s_pid s) (s_fd s)) <$> reverse slots).

Fixpoint admin_loop (ps : list poll_turn) (slots : list slot) (w : W) : list slot * W * list admin_action :=
  match ps with
  | [] => (slots, w, [])
  | p :: ps =>
      let '(slots, w, a) := ballotd_turn p slots w in
      let '(slots, w, b) := admin_loop ps slots w in (slots, w, a ++ b)
  end.

(** The turns until teardown is asked for or the poll fails, and the teardown. *)
Definition ballotd_admin_thread (ps : list poll_turn) (nws : list NewWorker) (crs : list BallotdCtlReq) (w : W) : W * list admin_action :=
  let '(slots, w, acts) := admin_loop ps [] w in (w, acts ++ admin_teardown nws crs slots).
End loop.
