(* ===== verification/BallotdLoopTheorems.v ===== *)
(** * BallotdLoopTheorems: every request is served, every worker is let go

    The admin thread of ballotbox/src/ballotd/main.c over any sequence of polls. *)

From Stdlib Require Import String.
From stdpp Require Import options.
From S2P Require Import Prelude Text BallotTypes BallotDb Ballot BallotSteps BallotSql BallotSqlLaws BallotTheorems Codec Ballotd BallotdTheorems BallotdLoop.
#[local] Open Scope Z_scope.

(** ** What the actions say *)

Definition closed (acts : list admin_action) : list Z := omap (fun a => match a with AClose fd => Some fd | _ => None end) acts.
Definition reaped (acts : list admin_action) : list Z := omap (fun a => match a with AReap pid => Some pid | _ => None end) acts.
Definition responses (acts : list admin_action) : list (Z * bcl_response) :=
  omap (fun a => match a with ARespond fd r => Some (fd, r) | _ => None end) acts.

Lemma closed_app a b : closed (a ++ b) = closed a ++ closed b.
Proof. apply omap_app. Qed.
Lemma reaped_app a b : reaped (a ++ b) = reaped a ++ reaped b.
Proof. apply omap_app. Qed.
Lemma responses_app a b : responses (a ++ b) = responses a ++ responses b.
Proof. apply omap_app. Qed.

Lemma reap_bounded_acts waits pid ms :
  closed (reap_bounded waits pid ms) = [] /\ reaped (reap_bounded waits pid ms) = [pid] /\ responses (reap_bounded waits pid ms) = [].
Proof. unfold reap_bounded. by case_match. Qed.

(** What a slot asks for, and whether it leaves. *)
Definition asks (s : slot) : option (Z * bcl_request) :=
  match s_rev s with Some (WRequest q) => Some (s_fd s, q) | _ => None end.

Definition leaves (s : slot) : bool := match s_rev s with Some WEnd | Some WTorn => true | _ => false end.

Section scan.
Context {W : Type} `{!DbExec W, !DbTxn W, !IdAlloc W}.
Variable waits : Z -> nat -> waited.

(** Requests one after the other: the store and the answers. *)
Definition dispatched (w : W) (qs : list (Z * bcl_request)) : W := foldl (fun w x => (ballotd_dispatch x.2 w).2) w qs.

Fixpoint answers (w : W) (qs : list (Z * bcl_request)) : list (Z * bcl_response) :=
  match qs with
  | [] => []
  | (fd, q) :: qs => (fd, (ballotd_dispatch q w).1) :: answers (ballotd_dispatch q w).2 qs
  end.

Lemma drop_worker_shape pre s R :
  exists R1 acts, drop_worker waits (length pre) (pre ++ s :: R) = (pre ++ R1, acts) /\ R1 ≡ₚ R /\
    closed acts = [s_fd s] /\ reaped acts = [s_pid s] /\ responses acts = [].
Proof using Type.
  unfold drop_worker. rewrite lookup_app_r, Nat.sub_diag by lia. cbn [lookup list_lookup].
  destruct (reap_bounded_acts (waits (s_pid s)) (s_pid s) REAP_TIMEOUT_MS) as (H1 & H2 & H3).
  assert (Ha : closed (AClose (s_fd s) :: reap_bounded (waits (s_pid s)) (s_pid s) REAP_TIMEOUT_MS) = [s_fd s] /\
    reaped (AClose (s_fd s) :: reap_bounded (waits (s_pid s)) (s_pid s) REAP_TIMEOUT_MS) = [s_pid s] /\
    responses (AClose (s_fd s) :: reap_bounded (waits (s_pid s)) (s_pid s) REAP_TIMEOUT_MS) = []).
  { split_and!; [change (s_fd s :: closed (reap_bounded (waits (s_pid s)) (s_pid s) REAP_TIMEOUT_MS) = [s_fd s]); by rewrite H1|exact H2|exact H3]. }
  destruct R as [|e R' _] using rev_ind.
  - rewrite last_snoc. exists [], (AClose (s_fd s) :: reap_bounded (waits (s_pid s)) (s_pid s) REAP_TIMEOUT_MS).
    split; [|by split]. f_equal. rewrite insert_app_r_alt, Nat.sub_diag by lia. cbn [insert list_insert].
    rewrite length_app, Nat.add_sub, take_app_length. by rewrite app_nil_r.
  - rewrite app_comm_cons, app_assoc, last_snoc.
    exists (e :: R'), (AClose (s_fd s) :: reap_bounded (waits (s_pid s)) (s_pid s) REAP_TIMEOUT_MS). split; [|split; [|exact Ha]].
    + f_equal. rewrite <- app_assoc, insert_app_r_alt, Nat.sub_diag by lia. cbn [app insert list_insert].
      rewrite length_app. cbn [length]. rewrite length_app. cbn [length].
      replace (length pre + S (length R' + 1) - 1)%nat with (length pre + S (length R'))%nat by lia.
      rewrite take_app_add. cbn [take]. by rewrite take_app_length.
    + by rewrite Permutation_app_comm.
Qed.

(** The scan looks at every slot once, also at those that move into a hole. *)
Lemma scan_spec fuel : forall pre R w, (length R <= fuel)%nat ->
  exists R' served acts, scan waits fuel (length pre) (pre ++ R) w = (pre ++ R', dispatched w served, acts) /\
    R' ≡ₚ filter (fun s => leaves s = false) R /\ served ≡ₚ omap asks R /\ responses acts = answers w served /\
    closed acts ≡ₚ s_fd <$> filter (fun s => leaves s = true) R /\ reaped acts ≡ₚ s_pid <$> filter (fun s => leaves s = true) R.
Proof using Type.
  induction fuel as [|fuel IH]; intros pre R w Hf; (destruct R as [|s R]; [|simpl in Hf; try lia]).
  - exists [], [], []. by rewrite app_nil_r.
  - exists [], [], []. cbn [scan]. rewrite lookup_ge_None_2 by (rewrite app_nil_r; lia). by rewrite app_nil_r.
  - cbn [scan]. rewrite lookup_app_r, Nat.sub_diag by lia. cbn [lookup list_lookup]. rewrite !filter_cons.
    assert (Hnext : forall w, exists R' served acts, scan waits fuel (S (length pre)) (pre ++ s :: R) w = (pre ++ s :: R', dispatched w served, acts) /\
      R' ≡ₚ filter (fun s => leaves s = false) R /\ served ≡ₚ omap asks R /\ responses acts = answers w served /\
      closed acts ≡ₚ s_fd <$> filter (fun s => leaves s = true) R /\ reaped acts ≡ₚ s_pid <$> filter (fun s => leaves s = true) R).
    { intros w0. destruct (IH (pre ++ [s]) R w0 ltac:(lia)) as (R' & sv & acts & E & H). exists R', sv, acts.
      rewrite length_app, <- !app_assoc in E. cbn [length app] in E. rewrite Nat.add_1_r in E. by split. }
    assert (Hdrop : s_rev s = Some WEnd \/ s_rev s = Some WTorn -> exists R' served acts,
      (let '(slots, a) := drop_worker waits (length pre) (pre ++ s :: R) in
       let '(slots, w, acts) := scan waits fuel (length pre) slots w in (slots, w, a ++ acts)) = (pre ++ R', dispatched w served, acts) /\
      R' ≡ₚ filter (fun s => leaves s = false) R /\ served ≡ₚ omap asks R /\ responses acts = answers w served /\
      closed acts ≡ₚ s_fd <$> s :: filter (fun s => leaves s = true) R /\ reaped acts ≡ₚ s_pid <$> s :: filter (fun s => leaves s = true) R).
    { intros _. destruct (drop_worker_shape pre s R) as (R1 & a & -> & Hp & Hc & Hr & Hs).
      destruct (IH pre R1 w) as (R' & sv & acts & -> & HR & Hsv & Hrs & Hcl & Hre); [rewrite Hp; lia|].
      exists R', sv, (a ++ acts). split; [done|]. rewrite closed_app, reaped_app, responses_app, Hc, Hr, Hs. split_and!.
      - by rewrite HR, Hp.
      - by rewrite Hsv, Hp.
      - done.
      - rewrite Hcl, Hp. done.
      - rewrite Hre, Hp. done. }
    change (omap asks (s :: R)) with (match asks s with Some x => x :: omap asks R | None => omap asks R end).
    destruct (s_rev s) as [[q| |]|] eqn:Er.
    + assert (leaves s = false /\ asks s = Some (s_fd s, q)) as [El ->] by (unfold leaves, asks; by rewrite Er).
      destruct (ballotd_dispatch q w) as [resp w1] eqn:Ed. destruct (Hnext w1) as (R' & sv & acts & -> & HR & Hsv & Hrs & Hcl & Hre).
      exists (s :: R'), ((s_fd s, q) :: sv), (ARespond (s_fd s) resp :: acts). cbn [dispatched foldl snd answers]. rewrite Ed. cbn [snd fst].
      rewrite El, decide_True, decide_False by done. split_and!; try done; [by rewrite HR|by rewrite Hsv|].
      change (responses (ARespond (s_fd s) resp :: acts)) with ((s_fd s, resp) :: responses acts). by rewrite Hrs.
    + assert (leaves s = true /\ asks s = None) as [El ->] by (unfold leaves, asks; by rewrite Er).
      rewrite El, decide_False, decide_True by done. apply Hdrop. auto.
    + assert (leaves s = true /\ asks s = None) as [El ->] by (unfold leaves, asks; by rewrite Er).
      rewrite El, decide_False, decide_True by done. apply Hdrop. auto.
    + assert (leaves s = false /\ asks s = None) as [El ->] by (unfold leaves, asks; by rewrite Er).
      destruct (Hnext w) as (R' & sv & acts & -> & HR & Hsv & Hrs & Hcl & Hre). exists (s :: R'), sv, acts.
      rewrite El, decide_True, decide_False by done. split_and!; try done. by rewrite HR.
Qed.

(** ** One turn *)

Definition new_slot (nw : NewWorker) : slot := mkSlot (nw_fd nw) (nw_pid nw) None.

Lemma register_all_spec nws : forall slots, (length slots <= MAX_WORKERS)%nat ->
  register_all slots nws = (slots ++ (new_slot <$> take (MAX_WORKERS - length slots) nws),
    (fun nw => AClose (nw_fd nw)) <$> drop (MAX_WORKERS - length slots) nws).
Proof.
  induction nws as [|nw nws IH]; intros slots Hs; cbn [register_all]; [by rewrite take_nil, drop_nil, app_nil_r|]. unfold register.
  destruct (Nat.leb_spec (length slots) (MAX_WORKERS - 1)) as [H|H].
  - rewrite IH by (rewrite length_app; unfold MAX_WORKERS in *; simpl; lia). rewrite length_app. cbn [length].
    replace (MAX_WORKERS - length slots)%nat with (S (MAX_WORKERS - (length slots + 1)))%nat by (unfold MAX_WORKERS in *; lia).
    cbn [take drop]. by rewrite fmap_cons, <- app_assoc.
  - rewrite IH by done. replace (MAX_WORKERS - length slots)%nat with 0%nat by (unfold MAX_WORKERS in *; lia). done.
Qed.

Definition ctl_requests (crs : list BallotdCtlReq) : list (Z * bcl_request) := (fun cr => (bc_fd cr, bc_req cr)) <$> crs.

Lemma serve_ctl_spec crs : forall w, exists acts, serve_ctl crs w = (dispatched w (ctl_requests crs), acts) /\
  closed acts = bc_fd <$> crs /\ reaped acts = [] /\ responses acts = [].
Proof using Type.
  induction crs as [|cr crs IH]; intros w; cbn [serve_ctl]; [by exists []|]. unfold handle_ctl_req.
  destruct (ballotd_dispatch (bc_req cr) w) as [resp w1] eqn:E. destruct (IH w1) as (acts & -> & Hc & Hr & Hs).
  eexists. split; [cbn [ctl_requests fmap list_fmap dispatched foldl snd]; by rewrite E|].
  rewrite closed_app, reaped_app, responses_app.
  change (closed (AClose (bc_fd cr) :: acts)) with (bc_fd cr :: closed acts). change (reaped (AClose (bc_fd cr) :: acts)) with (reaped acts).
  change (responses (AClose (bc_fd cr) :: acts)) with (responses acts). rewrite Hc, Hr, Hs. by case_match.
Qed.

(** The slots that stay after a poll, without what was found on them. *)
Definition staying (p : poll_turn) (slots : list slot) : list slot := filter (fun s => leaves s = false) (polled p slots).
Definition leaving (p : poll_turn) (slots : list slot) : list slot := filter (fun s => leaves s = true) (polled p slots).

Lemma new_slots_quiet nws :
  omap asks (new_slot <$> nws) = [] /\ filter (fun s => leaves s = false) (new_slot <$> nws) = new_slot <$> nws /\
  filter (fun s => leaves s = true) (new_slot <$> nws) = [].
Proof.
  induction nws as [|nw nws (IH1 & IH2 & IH3)]; [done|]. rewrite fmap_cons, !filter_cons. split_and!; [exact IH1| |].
  - rewrite decide_True by done. by rewrite IH2.
  - by rewrite decide_False.
Qed.

Lemma length_polled p slots : length (polled p slots) = length slots.
Proof. apply length_fmap. Qed.

(** A turn of the admin thread, whatever the poll finds: every worker that has a
    request gets it served and answered, once, in some order after the operators'
    requests; every worker whose channel ended is let go, its slot refilled from the
    end of the table without missing the worker that moves; the others stay, and the
    new ones join them while there is room. *)
Theorem turn_serves_everyone p slots w :
  (length slots <= MAX_WORKERS)%nat ->
  exists slots' served acts, let w1 := dispatched w (ctl_requests (p_ctl p)) in let room := (MAX_WORKERS - length slots)%nat in
    ballotd_turn waits p slots w = (slots', dispatched w1 served, acts) /\
    served ≡ₚ omap asks (polled p slots) /\ responses acts = answers w1 served /\
    slots' ≡ₚ staying p slots ++ (new_slot <$> take room (p_new p)) /\
    closed acts ≡ₚ (nw_fd <$> drop room (p_new p)) ++ (bc_fd <$> p_ctl p) ++ (s_fd <$> leaving p slots) /\
    reaped acts ≡ₚ s_pid <$> leaving p slots /\ (length slots' <= MAX_WORKERS)%nat.
Proof using Type.
  intros Hs. unfold ballotd_turn. rewrite register_all_spec by (by rewrite length_polled). rewrite length_polled.
  destruct (serve_ctl_spec (p_ctl p) w) as (b & -> & Hbc & Hbr & Hbs).
  set (slots1 := polled p slots ++ _). set (w1 := dispatched w _).
  destruct (scan_spec (length slots1) [] slots1 w1) as (R' & served & acts & E & HR & Hsv & Hrs & Hcl & Hre); [done|].
  cbn [length app] in E. rewrite E. unfold slots1 in Hsv, HR, Hcl, Hre. rewrite omap_app in Hsv. rewrite !filter_app in HR, Hcl, Hre.
  destruct (new_slots_quiet (take (MAX_WORKERS - length slots) (p_new p))) as (N1 & N2 & N3).
  rewrite N1, app_nil_r in Hsv. rewrite N2 in HR. rewrite N3, app_nil_r in Hcl, Hre.
  assert (Hclose : forall nws, closed ((fun nw => AClose (nw_fd nw)) <$> nws) = nw_fd <$> nws /\
    reaped ((fun nw => AClose (nw_fd nw)) <$> nws) = [] /\ responses ((fun nw => AClose (nw_fd nw)) <$> nws) = []).
  { induction nws as [|nw nws (H1 & H2 & H3)]; [done|]. split_and!; [|exact H2|exact H3].
    change (nw_fd nw :: closed ((fun nw => AClose (nw_fd nw)) <$> nws) = nw_fd nw :: (nw_fd <$> nws)). by rewrite H1. }
  eexists R', served, _. cbn zeta. split; [reflexivity|].
  rewrite !closed_app, !reaped_app, !responses_app. destruct (Hclose (drop (MAX_WORKERS - length slots) (p_new p))) as (-> & -> & ->).
  rewrite Hbc, Hbr, Hbs. cbn [app]. split_and!; try done.
  - by rewrite Hcl.
  - rewrite HR, length_app, length_fmap, length_take. pose proof (length_filter (fun s => leaves s = false) (polled p slots)).
    rewrite length_polled in *. lia.
Qed.
End scan.

(** ** The whole run *)

Section run.
Context {W : Type} `{!DbExec W, !DbTxn W, !IdAlloc W}.
Variable waits : Z -> nat -> waited.

(** The workers turned away because the table was full when they came. *)
Fixpoint refusals (ps : list poll_turn) (slots : list slot) (w : W) : list NewWorker :=
  match ps with
  | [] => []
  | p :: ps =>
      let '(slots', w', _) := ballotd_turn waits p slots w in
      drop (MAX_WORKERS - length slots) (p_new p) ++ refusals ps slots' w'
  end.

Definition announced (ps : list poll_turn) : list NewWorker := mjoin (p_new <$> ps).
Definition ctl_fds (ps : list poll_turn) : list Z := mjoin ((fun p => bc_fd <$> p_ctl p) <$> ps).

Lemma staying_leaving {A} (f : slot -> A) p slots : (forall s r, f (mkSlot (s_fd s) (s_pid s) r) = f s) ->
  f <$> slots ≡ₚ (f <$> staying p slots) ++ (f <$> leaving p slots).
Proof.
  intros Hf. unfold staying, leaving. rewrite <- fmap_app.
  assert (Hx : filter (fun s => leaves s = false) (polled p slots) ++ filter (fun s => leaves s = true) (polled p slots) ≡ₚ polled p slots).
  { etrans; [|apply (filter_app_complement (fun s => leaves s = false))]. f_equiv.
    induction (polled p slots) as [|s l IH]; [done|]. rewrite !filter_cons. destruct (leaves s); repeat (case_decide; try congruence); try done; by f_equiv. }
  rewrite Hx. unfold polled. rewrite <- list_fmap_compose. erewrite list_fmap_ext; [reflexivity|]. intros i s _. cbn. symmetry. apply Hf.
Qed.

Lemma loop_accounts ps : forall slots w, (length slots <= MAX_WORKERS)%nat ->
  exists slots' w' acts, admin_loop waits ps slots w = (slots', w', acts) /\ (length slots' <= MAX_WORKERS)%nat /\
    closed acts ++ (s_fd <$> slots') ≡ₚ (s_fd <$> slots) ++ (nw_fd <$> announced ps) ++ ctl_fds ps /\
    reaped acts ++ (nw_pid <$> refusals ps slots w) ++ (s_pid <$> slots') ≡ₚ (s_pid <$> slots) ++ (nw_pid <$> announced ps).
Proof using Type.
  induction ps as [|p ps IH]; intros slots w Hs; cbn [admin_loop].
  - exists slots, w, []. split_and!; [done|done|by cbn; rewrite !app_nil_r|by cbn; rewrite !app_nil_r].
  - destruct (turn_serves_everyone waits p slots w Hs) as (slots1 & served & a & E & _ & _ & Hslots & Hc & Hr & Hl).
    cbn zeta in E. cbn [refusals]. rewrite E.
    destruct (IH slots1 (dispatched (dispatched w (ctl_requests (p_ctl p))) served) Hl) as (slots' & w' & b & -> & Hl' & IHc & IHr).
    exists slots', w', (a ++ b). split_and!; [done|done| |].
    + rewrite closed_app, <- app_assoc, IHc, Hc, Hslots, fmap_app, <- list_fmap_compose.
      rewrite (staying_leaving s_fd p slots) by done. unfold announced, ctl_fds. cbn [fmap list_fmap mjoin list_join].
      rewrite fmap_app. rewrite <- (take_drop (MAX_WORKERS - length slots) (p_new p)) at 3. rewrite fmap_app.
      change ((s_fd ∘ new_slot) <$> ?x) with (nw_fd <$> x). solve_Permutation.
    + rewrite reaped_app, fmap_app, Hr.
      transitivity ((s_pid <$> leaving p slots) ++ (nw_pid <$> drop (MAX_WORKERS - length slots) (p_new p)) ++
        (reaped b ++ (nw_pid <$> refusals ps slots1 (dispatched (dispatched w (ctl_requests (p_ctl p))) served)) ++ (s_pid <$> slots')));
        [solve_Permutation|].
      rewrite IHr, Hslots, fmap_app, <- list_fmap_compose. rewrite (staying_leaving s_pid p slots) by done.
      unfold announced. cbn [fmap list_fmap mjoin list_join]. rewrite fmap_app.
      rewrite <- (take_drop (MAX_WORKERS - length slots) (p_new p)) at 3. rewrite fmap_app.
      change ((s_pid ∘ new_slot) <$> ?x) with (nw_pid <$> x). solve_Permutation.
Qed.

Lemma end_workers_acts {A} (pid fd : A -> Z) l :
  closed (mjoin ((fun x => end_worker waits (pid x) (fd x)) <$> l)) = fd <$> l /\
  reaped (mjoin ((fun x => end_worker waits (pid x) (fd x)) <$> l)) = pid <$> l.
Proof.
  induction l as [|x l [IH1 IH2]]; [done|]. rewrite !fmap_cons. cbn [mjoin list_join]. rewrite closed_app, reaped_app.
  destruct (reap_bounded_acts (waits (pid x)) (pid x) REAP_TIMEOUT_MS) as (H1 & H2 & _). split.
  - etrans; [|exact (f_equal (cons (fd x)) IH1)].
    change (fd x :: closed (reap_bounded (waits (pid x)) (pid x) REAP_TIMEOUT_MS) ++ closed (mjoin ((fun x => end_worker waits (pid x) (fd x)) <$> l)) =
      fd x :: closed (mjoin ((fun x => end_worker waits (pid x) (fd x)) <$> l))). by rewrite H1.
  - etrans; [|exact (f_equal (cons (pid x)) IH2)].
    change (reaped (reap_bounded (waits (pid x)) (pid x) REAP_TIMEOUT_MS) ++ reaped (mjoin ((fun x => end_worker waits (pid x) (fd x)) <$> l)) =
      pid x :: reaped (mjoin ((fun x => end_worker waits (pid x) (fd x)) <$> l))). by rewrite H2.
Qed.

(** C21: Nothing leaks from the admin thread but what it turns away.  From its start
    to the end of its teardown, over any polls: every descriptor it was handed - a
    worker's channel or an operator's connection, also those that came too late - is
    closed exactly once; and every worker process it was told of is waited for exactly
    once, except precisely the workers that came while the table of 254 was full,
    which it never waits for. *)
Theorem workers_let_go ps nws crs w :
  let acts := (ballotd_admin_thread waits ps nws crs w).2 in
  closed acts ≡ₚ (nw_fd <$> announced ps ++ nws) ++ ctl_fds ps ++ (bc_fd <$> crs) /\
  reaped acts ++ (nw_pid <$> refusals ps [] w) ≡ₚ nw_pid <$> announced ps ++ nws.
Proof using Type.
  unfold ballotd_admin_thread. destruct (loop_accounts ps [] w) as (slots & w' & acts & -> & _ & Hc & Hr); [unfold MAX_WORKERS; simpl; lia|].
  cbn [snd]. unfold admin_teardown. rewrite !closed_app, !reaped_app.
  destruct (end_workers_acts nw_pid nw_fd nws) as [-> ->]. destruct (end_workers_acts s_pid s_fd (reverse slots)) as [-> ->].
  assert (Hcl : closed ((fun cr => AClose (bc_fd cr)) <$> crs) = bc_fd <$> crs /\ reaped ((fun cr => AClose (bc_fd cr)) <$> crs) = []).
  { induction crs as [|cr crs [H1 H2]]; [done|]. split; [|exact H2].
    change (bc_fd cr :: closed ((fun cr => AClose (bc_fd cr)) <$> crs) = bc_fd cr :: (bc_fd <$> crs)). by rewrite H1. }
  destruct Hcl as [-> ->]. rewrite !fmap_app. cbn [fmap list_fmap app] in Hc, Hr.
  rewrite (reverse_Permutation slots). split.
  - transitivity ((closed acts ++ (s_fd <$> slots)) ++ (nw_fd <$> nws) ++ (bc_fd <$> crs)); [solve_Permutation|]. rewrite Hc. solve_Permutation.
  - transitivity ((reaped acts ++ (nw_pid <$> refusals ps [] w) ++ (s_pid <$> slots)) ++ (nw_pid <$> nws)); [solve_Permutation|]. by rewrite Hr.
Qed.
End run.

#[local] Existing Instance some_runner.

(** ** Examples *)

(** Three workers; then the first hangs up while the last, which takes its place in the
    table, has a request. *)
Definition busy_turns : list poll_turn :=
  [mkPollTurn [mkNewWorker 101 11; mkNewWorker 102 12; mkNewWorker 103 13] [] (fun _ => None);
   mkPollTurn [] [] (fun fd => if fd =? 11 then Some WEnd else if fd =? 13 then Some (WRequest (plain_request BCL_ADMIN_NEXT_ID [] [])) else None)].

Example moved_worker_is_served :
  (fun x => x.1) <$> responses (admin_loop (fun _ _ => Exited) busy_turns [] new_world).2 = [13].
Proof. vm_compute. reflexivity. Qed.

Example table_full_is_not_reaped :
  refusals (fun _ _ => Exited) [mkPollTurn ((fun k => mkNewWorker (1000 + k) (5000 + k)) <$> range 255) [] (fun _ => None)] [] new_world =
  [mkNewWorker 1254 5254].
Proof. vm_compute. reflexivity. Qed.
