(* ===== verification/CtlFrame.v ===== *)
(** * CtlFrame: length-prefixed frames on a local stream socket

    Models the framing of ballotbox/include/libballotclient/ctl_frame.h, and the same
    four functions of tetriSH/include/tetrisctl/control_plane.h: a four-byte
    big-endian length before each message, and loops that survive short transfers
    and interruptions.  [sys] is what the kernel does at the successive calls of the
    loop; [wire] is what is on the stream, up to where the writer closes it. *)

From stdpp Require Import options.
From S2P Require Import Prelude.
#[local] Open Scope Z_scope.

(** One [read] or [write] moves at most [n + 1] of the bytes asked for, is
    interrupted, or fails. *)
Inductive io := IoUpTo (n : nat) | IoEINTR | IoErr.

(** [p] is what is left to write, [wire] what the socket has taken; [None] when the
    list of answers ends first. *)
Fixpoint ctl_write_all (sys : list io) (p wire : list Z) : option (Z * list Z * list io) :=
  match p with
  | [] => Some (0, wire, sys)
  | _ =>
      match sys with
      | [] => None
      | IoUpTo n :: sys => ctl_write_all sys (drop (S n) p) (wire ++ take (S n) p)
      | IoEINTR :: sys => ctl_write_all sys p wire
      | IoErr :: sys => Some (-1, wire, sys)
      end
  end.

(** [len] of [want] bytes are still to come after [buf]; an empty [wire] is the
    peer's close. *)
Fixpoint ctl_read_all (want len : nat) (sys : list io) (buf wire : list Z)
    : option (Z * list Z * list Z * list io) :=
  match len with
  | O => Some (0, buf, wire, sys)
  | _ =>
      match sys with
      | [] => None
      | IoUpTo n :: sys =>
          match wire with
          | [] => Some (if (len =? want)%nat then -2 else -1, buf, wire, sys)
          | _ => let k := (S n `min` len `min` length wire)%nat in
                 ctl_read_all want (len - k)%nat sys (buf ++ take k wire) (drop k wire)
          end
      | IoEINTR :: sys => ctl_read_all want len sys buf wire
      | IoErr :: sys => Some (-1, buf, wire, sys)
      end
  end.

Definition CTL_PREFIX_LEN : nat := 4.

Definition prefix_of_len (len : Z) : list Z :=
  [Z.land (Z.shiftr len 24) 255; Z.land (Z.shiftr len 16) 255; Z.land (Z.shiftr len 8) 255; Z.land len 255].

Definition len_of_prefix (p : list Z) : Z :=
  Z.lor (Z.lor (Z.lor (Z.shiftl (aget 0 p 0) 24) (Z.shiftl (aget 0 p 1) 16)) (Z.shiftl (aget 0 p 2) 8)) (aget 0 p 3).

Definition ctl_frame_write (sys : list io) (buf wire : list Z) : option (Z * list Z * list io) :=
  '(st, wire, sys) ← ctl_write_all sys (prefix_of_len (Z.of_nat (length buf))) wire;
  if negb (st =? 0) then Some (-1, wire, sys) else ctl_write_all sys buf wire.

(** The status, the message when it is 0, and what is left of the stream. *)
Definition ctl_frame_read (cap : Z) (sys : list io) (wire : list Z) : option (Z * list Z * list Z * list io) :=
  '(rc, prefix, wire, sys) ← ctl_read_all CTL_PREFIX_LEN CTL_PREFIX_LEN sys [] wire;
  if negb (rc =? 0) then Some (rc, [], wire, sys)
  else
    let n := len_of_prefix prefix in
    if (n =? 0) || (cap <? n) then Some (-1, [], wire, sys)
    else
      '(rc, buf, wire, sys) ← ctl_read_all (Z.to_nat n) (Z.to_nat n) sys [] wire;
      if negb (rc =? 0) then Some (-1, [], wire, sys) else Some (0, buf, wire, sys).

(** ** The prefix *)

(** Bit [i] of a byte put back in its place. *)
Lemma byte_bit n k i : 0 <= k -> 0 <= i ->
  Z.testbit (Z.shiftl (Z.land (Z.shiftr n k) 255) k) i = Z.testbit n i && (k <=? i) && (i <? k + 8).
Proof.
  intros Hk Hi. rewrite Z.shiftl_spec by done. change 255 with (Z.ones 8). destruct (Z.leb_spec k i) as [Hle|Hlt].
  - rewrite Z.land_spec, Z.shiftr_spec, Z.testbit_ones_nonneg by lia. rewrite Z.sub_add, andb_true_r.
    f_equal. destruct (Z.ltb_spec (i - k) 8), (Z.ltb_spec i (k + 8)); lia.
  - rewrite Z.testbit_neg_r by lia. by rewrite andb_false_r.
Qed.

Lemma prefix_round_trip n : 0 <= n < 2 ^ 32 -> len_of_prefix (prefix_of_len n) = n.
Proof.
  intros Hn. apply Z.bits_inj'. intros i Hi. unfold len_of_prefix.
  change (aget 0 (prefix_of_len n) 0) with (Z.land (Z.shiftr n 24) 255).
  change (aget 0 (prefix_of_len n) 1) with (Z.land (Z.shiftr n 16) 255).
  change (aget 0 (prefix_of_len n) 2) with (Z.land (Z.shiftr n 8) 255).
  replace (aget 0 (prefix_of_len n) 3) with (Z.shiftl (Z.land (Z.shiftr n 0) 255) 0)
    by (rewrite Z.shiftl_0_r, Z.shiftr_0_r; done).
  rewrite !Z.lor_spec, !byte_bit by lia. destruct (Z.ltb_spec i 32) as [Hlt|Hge].
  - destruct (Z.testbit n i); [|done]. cbn [andb].
    destruct (Z.leb_spec 24 i), (Z.ltb_spec i (24 + 8)), (Z.leb_spec 16 i), (Z.ltb_spec i (16 + 8)), (Z.leb_spec 8 i),
      (Z.ltb_spec i (8 + 8)), (Z.leb_spec 0 i), (Z.ltb_spec i (0 + 8)); done || lia.
  - assert (Z.testbit n i = false) as ->; [|done]. destruct (decide (n = 0)) as [->|]; [apply Z.testbit_0_l|].
    apply Z.bits_above_log2; [lia|]. assert (Z.log2 n < 32) by (apply Z.log2_lt_pow2; lia). lia.
Qed.

(** ** The loops *)

Definition moves (r : io) : bool := match r with IoUpTo _ => true | _ => false end.
Definition steady (sys : list io) : Prop := Forall (fun r => r <> IoErr) sys.
Definition calls (sys : list io) : nat := length (filter (fun r => moves r = true) sys).

Lemma write_all_wire sys p wire st wire' rest :
  ctl_write_all sys p wire = Some (st, wire', rest) ->
  exists k, wire' = wire ++ take k p /\ (if st =? 0 then take k p = p else (k < length p)%nat).
Proof.
  revert p wire. induction sys as [|r sys IH]; intros [|x p] wire H; simpl in H; simplify_eq.
  1,2: exists 0%nat; by rewrite app_nil_r.
  destruct r as [n| |].
  - apply IH in H as (k & -> & Hk). exists (S n + k)%nat. rewrite <- app_assoc, <- take_take_drop. split; [done|].
    cbn [drop] in *. destruct (st =? 0).
    + rewrite Hk. apply (take_drop (S n) (x :: p)).
    + rewrite length_drop in Hk. simpl. lia.
  - by apply IH.
  - simplify_eq. exists 0%nat. rewrite app_nil_r. split; [done|]. simpl. lia.
Qed.

Lemma read_all_gets want len sys buf wire :
  steady sys -> (len <= calls sys)%nat -> (len <= length wire)%nat ->
  exists used rest, sys = used ++ rest /\ (calls used <= len)%nat /\
    ctl_read_all want len sys buf wire = Some (0, buf ++ take len wire, drop len wire, rest).
Proof.
  revert len buf wire. induction sys as [|r sys IH]; intros [|len] buf wire Hst Hc Hw; cbn [ctl_read_all].
  1,3: eexists [], _; split_and!; [reflexivity|unfold calls; simpl; lia|by rewrite app_nil_r].
  - unfold calls in Hc. simpl in Hc. lia.
  - apply Forall_cons in Hst as [Hr Hst]. destruct r as [n| |]; [| |done].
    + destruct wire as [|x wire]; [simpl in Hw; lia|]. set (k := (S n `min` S len `min` length (x :: wire))%nat).
      assert (Hk : (0 < k <= S len)%nat) by (unfold k; simpl; lia).
      destruct (IH (S len - k)%nat (buf ++ take k (x :: wire)) (drop k (x :: wire))) as (used & rest & -> & Hu & E);
        [done|unfold calls in *; simpl in Hc; lia|rewrite length_drop; lia|].
      exists (IoUpTo n :: used), rest. split_and!; [done|unfold calls in *; simpl; lia|].
      cbv zeta. fold k. rewrite E, <- app_assoc, drop_drop, take_take_drop. repeat f_equal; lia.
    + destruct (IH (S len) buf wire Hst) as (used & rest & -> & Hu & E); [done|done|].
      exists (IoEINTR :: used), rest. split_and!; [done|done|by rewrite E].
Qed.

(** The peer closed before the bytes were all there. *)
Lemma read_all_short want len sys buf wire :
  steady sys -> (length wire < calls sys)%nat -> (length wire < len <= want)%nat ->
  exists rest, ctl_read_all want len sys buf wire =
    Some (if (len =? want)%nat && bool_decide (wire = []) then -2 else -1, buf ++ wire, [], rest).
Proof.
  revert len buf wire. induction sys as [|r sys IH]; intros [|len] buf wire Hst Hc Hl; cbn [ctl_read_all]; try lia.
  - unfold calls in Hc. simpl in Hc. lia.
  - apply Forall_cons in Hst as [Hr Hst]. destruct r as [n| |]; [| |done].
    + destruct wire as [|x wire]; [rewrite app_nil_r, andb_true_r; eauto|].
      set (k := (S n `min` S len `min` length (x :: wire))%nat). cbv zeta.
      assert (Hk : (0 < k <= length (x :: wire))%nat) by (unfold k; simpl; lia).
      destruct (IH (S len - k)%nat (buf ++ take k (x :: wire)) (drop k (x :: wire))) as [rest E];
        [done|unfold calls in *; rewrite length_drop; simpl in *; lia|rewrite length_drop; lia|].
      rewrite E, <- app_assoc, take_drop. rewrite (proj2 (Nat.eqb_neq (S len - k) want)) by lia.
      rewrite (bool_decide_false (x :: wire = [])), andb_false_r by done. eauto.
    + by apply IH.
Qed.

Definition frame_bytes (buf : list Z) : list Z := prefix_of_len (Z.of_nat (length buf)) ++ buf.

Lemma frame_write_wire sys buf st wire rest :
  ctl_frame_write sys buf [] = Some (st, wire, rest) ->
  exists k, wire = take k (frame_bytes buf) /\
    (if st =? 0 then wire = frame_bytes buf else (k < length (frame_bytes buf))%nat).
Proof.
  unfold ctl_frame_write. intros ([[st1 w1] s1] & H1 & H)%bind_Some.
  destruct (write_all_wire _ _ _ _ _ _ H1) as (k1 & -> & Hk1). cbn [app] in *. unfold frame_bytes.
  destruct (st1 =? 0); cbn [negb] in H.
  - rewrite Hk1 in H. destruct (write_all_wire _ _ _ _ _ _ H) as (k2 & -> & Hk2).
    exists (length (prefix_of_len (Z.of_nat (length buf))) + k2)%nat.
    rewrite take_app_ge by lia. rewrite (Nat.add_comm _ k2), Nat.add_sub. split; [done|].
    destruct (st =? 0); [by rewrite Hk2|]. rewrite length_app. lia.
  - simplify_eq. exists k1. rewrite take_app_le by lia. rewrite length_app. split; [done|]. cbn [Z.eqb]. lia.
Qed.

Lemma calls_app s t : calls (s ++ t) = (calls s + calls t)%nat.
Proof. unfold calls. by rewrite list.filter_app, length_app. Qed.

(** A reader of whole frames. *)
Lemma frame_read_frame cap sys buf tail :
  0 < Z.of_nat (length buf) <= cap -> cap < 2 ^ 32 -> steady sys -> (4 + length buf <= calls sys)%nat ->
  exists rest, ctl_frame_read cap sys (frame_bytes buf ++ tail) = Some (0, buf, tail, rest).
Proof.
  intros Hb Hcap Hst Hc. unfold ctl_frame_read, frame_bytes. rewrite <- app_assoc.
  destruct (read_all_gets 4 4 sys [] (prefix_of_len (Z.of_nat (length buf)) ++ buf ++ tail))
    as (used & rest & -> & Hu & E); [done|lia|simpl; lia|].
  unfold CTL_PREFIX_LEN. rewrite E. cbn [mbind option_bind app]. cbn [Z.eqb negb].
  rewrite (take_app_length (prefix_of_len _)), (drop_app_length (prefix_of_len _)), prefix_round_trip by lia.
  rewrite (proj2 (Z.eqb_neq _ _)), (proj2 (Z.ltb_ge _ _)) by lia. cbn [orb]. rewrite Nat2Z.id.
  apply Forall_app in Hst as [_ Hst]. rewrite calls_app in Hc.
  destruct (read_all_gets (length buf) (length buf) rest [] (buf ++ tail)) as (used' & rest' & -> & _ & E');
    [done|lia|rewrite length_app; lia|].
  rewrite E'. cbn [mbind option_bind app Z.eqb negb]. rewrite take_app_length, drop_app_length. eauto.
Qed.

(** A reader of a frame whose writer gave up. *)
Lemma frame_read_torn cap sys buf k :
  0 < Z.of_nat (length buf) <= cap -> cap < 2 ^ 32 -> steady sys -> (4 + length buf <= calls sys)%nat ->
  (k < length (frame_bytes buf))%nat ->
  exists rest, ctl_frame_read cap sys (take k (frame_bytes buf)) = Some (if (k =? 0)%nat then -2 else -1, [], [], rest).
Proof.
  intros Hb Hcap Hst Hc Hk. unfold ctl_frame_read, CTL_PREFIX_LEN.
  assert (Hlen : length (frame_bytes buf) = (4 + length buf)%nat) by done.
  destruct (decide (k < 4)%nat) as [Hk4|Hk4].
  - destruct (read_all_short 4 4 sys [] (take k (frame_bytes buf))) as [rest E]; [done|rewrite length_take; lia..|].
    rewrite E. cbn [mbind option_bind app Nat.eqb andb]. destruct (Nat.eqb_spec k 0) as [->|Hk0]; [by eauto|].
    rewrite bool_decide_false by (destruct k; [done|]; by unfold frame_bytes, prefix_of_len). cbn. eauto.
  - unfold frame_bytes in *. rewrite take_app_ge by (simpl; lia).
    destruct (read_all_gets 4 4 sys [] (prefix_of_len (Z.of_nat (length buf)) ++
      take (k - length (prefix_of_len (Z.of_nat (length buf)))) buf)) as (used & rest & -> & Hu & E);
      [done|lia|rewrite length_app; simpl; lia|].
    rewrite E. cbn [mbind option_bind app Z.eqb negb]. 
    rewrite (take_app_length (prefix_of_len _)), (drop_app_length (prefix_of_len _)), prefix_round_trip by lia.
    rewrite (proj2 (Z.eqb_neq _ _)), (proj2 (Z.ltb_ge _ _)) by lia. cbn [orb]. rewrite Nat2Z.id.
    apply Forall_app in Hst as [_ Hst]. rewrite calls_app in Hc.
    destruct (read_all_short (length buf) (length buf) rest [] (take (k - 4) buf)) as [rest' E'];
      [done|rewrite length_take; simpl in *; lia|rewrite length_take; simpl in *; lia|].
    change (length (prefix_of_len (Z.of_nat (length buf)))) with 4%nat. rewrite E'.
    cbn [mbind option_bind]. destruct k; [lia|]. exists rest'. by destruct (_ && _).
Qed.

(** Control frames arrive whole or not at all.  When [ctl_frame_write] reports
    success, a reader whose transfers are cut and interrupted in any way gets exactly
    the message, with the rest of the stream behind it; when it reports failure, a
    proper prefix went out, and the reader reports a clean close if that was nothing
    and an error otherwise, never a message. *)
Theorem ctl_framing cap buf tail wsys st wire wrest rsys :
  0 < Z.of_nat (length buf) <= cap -> cap < 2 ^ 32 ->
  ctl_frame_write wsys buf [] = Some (st, wire, wrest) ->
  steady rsys -> (4 + length buf <= calls rsys)%nat ->
  if st =? 0 then exists rest, ctl_frame_read cap rsys (wire ++ tail) = Some (0, buf, tail, rest)
  else exists rest, ctl_frame_read cap rsys wire = Some (if bool_decide (wire = []) then -2 else -1, [], [], rest).
Proof.
  intros Hb Hcap Hw Hst Hc. destruct (frame_write_wire _ _ _ _ _ Hw) as (k & -> & Hk).
  destruct (st =? 0); [rewrite Hk; by apply frame_read_frame|].
  destruct (frame_read_torn cap rsys buf k) as [rest E]; [done..|]. exists rest. rewrite E.
  destruct (Nat.eqb_spec k 0) as [->|Hk0]; [done|]. rewrite bool_decide_false; [done|]. by destruct k.
Qed.

Lemma ctl_framing_witness :
  (exists rest, ctl_frame_read 64 (replicate 9 (IoUpTo 1)) [0; 0; 0; 2; 7; 8; 9] = Some (0, [7; 8], [9], rest)) /\
  (exists rest, ctl_frame_read 64 (replicate 9 (IoUpTo 1)) [0; 0; 0] = Some (-1, [], [], rest)).
Proof.
  assert (Hst : steady (replicate 9 (IoUpTo 1))) by (by apply Forall_replicate).
  split.
  - apply (ctl_framing 64 [7; 8] [9] [IoUpTo 0; IoEINTR; IoUpTo 5; IoUpTo 7] 0 [0; 0; 0; 2; 7; 8] [] (replicate 9 (IoUpTo 1)));
      [simpl; lia|lia|reflexivity|exact Hst|vm_compute; lia].
  - apply (ctl_framing 64 [7; 8] [] [IoUpTo 2; IoErr] (-1) [0; 0; 0] [] (replicate 9 (IoUpTo 1)));
      [simpl; lia|lia|reflexivity|exact Hst|vm_compute; lia].
Defined.
