(* ===== verification/Tetrissh.v ===== *)
(** * Tetrissh: the secure session

    Models core/src/libtetrissh: the handshake and the traffic frames of tetrissh.c,
    and the byte conversions, socket loops and encrypt-then-MAC format of common.c.
    OpenSSL is the parameter [Crypto]; what its random generator returned is an
    argument of the call that asked for it ([None] when it failed).  Heap allocation
    is taken to succeed.  The log lines, the printing and the cleansing of buffers
    have no effect here. *)

From stdpp Require Import options.
From S2P Require Import Prelude CtlFrame.
#[local] Open Scope Z_scope.

(** ** Sockets *)

(** [rx] is what the peer sends until it closes, [tx] what was sent to it; the two
    lists say what the kernel does at the next calls, and after them it moves all
    that is asked. *)
Record sock := mkSock { rx : list Z; tx : list Z; rsys : list io; ssys : list io }.

(** Chunks of up to 1024 bytes; anything but bytes ends the loop. *)
Fixpoint recv_loop (sys : list io) (remaining : nat) (buf rx : list Z) : option (list Z) * list Z * list io :=
  match remaining with
  | O => (Some buf, rx, sys)
  | _ =>
      match sys with
      | [] => if (remaining <=? length rx)%nat then (Some (buf ++ take remaining rx), drop remaining rx, [])
              else (None, [], [])
      | IoUpTo n :: sys =>
          match rx with
          | [] => (None, [], sys)
          | _ => let k := (S n `min` (remaining `min` 1024) `min` length rx)%nat in
                 recv_loop sys (remaining - k) (buf ++ take k rx) (drop k rx)
          end
      | _ :: sys => (None, rx, sys)
      end
  end.

Definition read_bytes (length : nat) (s : sock) : option (list Z) * sock :=
  let '(r, rx, sys) := recv_loop (rsys s) length [] (rx s) in (r, mkSock rx (tx s) sys (ssys s)).

(** [p] is what is left to send. *)
Fixpoint send_loop (sys : list io) (p tx : list Z) : bool * list Z * list io :=
  match p with
  | [] => (true, tx, sys)
  | _ =>
      match sys with
      | [] => (true, tx ++ p, [])
      | IoUpTo n :: sys => send_loop sys (drop (S n) p) (tx ++ take (S n) p)
      | _ :: sys => (false, tx, sys)
      end
  end.

Definition send_all (buf : list Z) (s : sock) : bool * sock :=
  let '(r, tx, sys) := send_loop (ssys s) buf (tx s) in (r, mkSock (rx s) tx (rsys s) sys).

(** ** Integers on the wire *)

Definition INT_BYTES : nat := 8.

(** [n] bytes from the last one up. *)
Fixpoint int_bytes (n : nat) (x : Z) : list Z :=
  match n with O => [] | S n => int_bytes n (Z.shiftr x 8) ++ [Z.land x 255] end.

Definition int_to_bytes (x : Z) : list Z := int_bytes INT_BYTES x.
Definition bytes_to_int (buf : list Z) : Z :=
  foldl (fun result b => Z.lor (Z.shiftl result 8 mod 2 ^ 64) b) 0 (take INT_BYTES buf).

Definition send_int (value : Z) : sock -> bool * sock := send_all (int_to_bytes value).

Definition FRAME_PREFIX_BYTES : nat := 4.
Definition send_u32 (value : Z) : sock -> bool * sock := send_all (prefix_of_len value).
Definition read_u32 (s : sock) : option Z * sock :=
  let '(r, s) := read_bytes FRAME_PREFIX_BYTES s in (len_of_prefix <$> r, s).

(** ** Results *)

Inductive session_err :=
  | SESSION_OK | SESSION_ERR_IO | SESSION_ERR_AUTH | SESSION_ERR_CRYPTO | SESSION_ERR_TOOBIG | SESSION_ERR_PROTO
  | SESSION_ERR_NOSPACE.

#[global] Instance session_err_eq_dec : EqDecision session_err.
Proof. solve_decision. Defined.

Record session_t := mkSessionT { s_key : list Z; established : bool; recv_dead : bool }.

(** [memset(s, 0, sizeof *s)]. *)
Definition dead_session : session_t := mkSessionT (replicate 32 0) false false.

(** A step of a handshake: a value, or the code it ends with. *)
Definition HS (A : Type) : Type := sock -> (session_err + A) * sock.
#[global] Instance HS_ret : MRet HS := fun A a s => (inr a, s).
#[global] Instance HS_bind : MBind HS := fun A B f m s =>
  match m s with
  | (inr a, s) => f a s
  | (inl e, s) => (inl e, s)
  end.

Definition need {A} (e : session_err) (r : option A) : HS A :=
  fun s => (match r with Some a => inr a | None => inl e end, s).
Definition guard (e : session_err) (b : bool) : HS unit := fun s => (if b then inr tt else inl e, s).
Definition reads (length : nat) : HS (list Z) := fun s =>
  let '(r, s) := read_bytes length s in (match r with Some b => inr b | None => inl SESSION_ERR_IO end, s).
(** [send_int(fd, len) < 0 || send_all(fd, buf, len) < 0]. *)
Definition sends (buf : list Z) : HS unit := fun s =>
  let '(r, s) := send_int (Z.of_nat (length buf)) s in
  if negb r then (inl SESSION_ERR_IO, s)
  else let '(r, s) := send_all buf s in (if r then inr tt else inl SESSION_ERR_IO, s).

(** A length field, then so many bytes; the field is checked first. *)
Definition reads_sized (ok : Z -> bool) : HS (list Z) :=
  len_buf ← reads INT_BYTES;
  let len := bytes_to_int len_buf in
  _ ← guard SESSION_ERR_PROTO (ok len);
  reads (Z.to_nat len).

(** ** OpenSSL *)

Class Crypto := {
  X509 : Type;
  PUB : Type;
  PRIV : Type;
  load_cert_bytes : list Z -> option X509;
  x509_verify : X509 -> X509 -> bool;              (* the CA's certificate, the one to verify *)
  X509_get_pubkey : X509 -> option PUB;
  sign_pss : PRIV -> list Z -> option (list Z);
  verify_pss : PUB -> list Z -> list Z -> bool;    (* signature, message *)
  oaep_encrypt : PUB -> list Z -> option (list Z);
  oaep_decrypt : PRIV -> list Z -> option (list Z);
  aes_128_cbc : list Z -> list Z -> list Z -> option (list Z);        (* key, IV, plaintext *)
  aes_128_cbc_inv : list Z -> list Z -> list Z -> option (list Z);
  hmac_sha256 : list Z -> list Z -> option (list Z)
}.

Section session.
Context `{!Crypto}.

(** ** common.c: encrypt, then authenticate *)

Definition AES_IV_LEN : nat := 16.
Definition AES_BLOCK : nat := 16.
Definition HMAC_KEY_LEN : nat := 16.
Definition HMAC_LEN : nat := 32.
Definition SESSION_KEY_LEN : nat := 32.

Definition session_encrypt (key : list Z) (iv : option (list Z)) (plain : list Z) : option (list Z) :=
  let hmac_key := take HMAC_KEY_LEN key in
  let aes_key := drop HMAC_KEY_LEN key in
  iv ← iv;
  ct ← aes_128_cbc aes_key iv plain;
  mac ← hmac_sha256 hmac_key (iv ++ ct);
  Some (iv ++ ct ++ mac).

Definition session_decrypt (key token : list Z) : option (list Z) :=
  let hmac_key := take HMAC_KEY_LEN key in
  let aes_key := drop HMAC_KEY_LEN key in
  if (length token <? AES_IV_LEN + AES_BLOCK + HMAC_LEN)%nat then None
  else
    let ct_len := (length token - AES_IV_LEN - HMAC_LEN)%nat in
    let iv := take AES_IV_LEN token in
    let ct := take ct_len (drop AES_IV_LEN token) in
    let hmac_received := drop (AES_IV_LEN + ct_len) token in
    hmac_computed ← hmac_sha256 hmac_key (take (AES_IV_LEN + ct_len) token);
    if negb (bool_decide (hmac_computed = hmac_received)) then None
    else aes_128_cbc_inv aes_key iv ct.

(** [ca]: what loading the CA's certificate gave. *)
Definition verify_server_cert (cert : X509) (ca : option X509) : bool :=
  match ca with Some ca => x509_verify ca cert | None => false end.

Definition verify_message_pss (cert : X509) (sig msg : list Z) : bool :=
  match X509_get_pubkey cert with Some pub => verify_pss pub sig msg | None => false end.

(** ** tetrissh.c: the handshake *)

Definition TSSH_NONCE_LEN : nat := 32.
Definition TSSH_MAX_NONCE_LEN : Z := 64.
Definition TSSH_MAX_SIG_LEN : Z := 512.
Definition TSSH_MAX_CERT_LEN : Z := 8192.
Definition RSA_KEY_BYTES : Z := 128.

Definition in_1_to (cap len : Z) : bool := negb (len =? 0) && (len <=? cap).

Definition finish (r : (session_err + session_t) * sock) : session_err * session_t * sock :=
  match r with
  | (inr t, s) => (SESSION_OK, t, s)
  | (inl e, s) => (e, dead_session, s)
  end.

Definition connect_steps (ca : option X509) (nonce key : option (list Z)) : HS session_t :=
  nonce ← need SESSION_ERR_CRYPTO nonce;
  _ ← sends nonce;
  signed_nonce ← reads_sized (in_1_to TSSH_MAX_SIG_LEN);
  cert_buf ← reads_sized (in_1_to TSSH_MAX_CERT_LEN);
  cert ← need SESSION_ERR_AUTH (load_cert_bytes cert_buf);
  _ ← guard SESSION_ERR_AUTH (verify_server_cert cert ca);
  _ ← guard SESSION_ERR_AUTH (verify_message_pss cert signed_nonce nonce);
  pub ← need SESSION_ERR_CRYPTO (X509_get_pubkey cert);
  key ← need SESSION_ERR_CRYPTO key;
  sym_key ← need SESSION_ERR_CRYPTO (oaep_encrypt pub key);
  _ ← sends sym_key;
  mret (mkSessionT key true false).

Definition session_connect (ca : option X509) (nonce key : option (list Z)) (s : sock)
    : session_err * session_t * sock := finish (connect_steps ca nonce key s).

(** [cert_file]: the certificate file's bytes, [None] when it cannot be read. *)
Definition accept_steps (priv : PRIV) (cert_file : option (list Z)) : HS session_t :=
  nonce ← reads_sized (in_1_to TSSH_MAX_NONCE_LEN);
  signed_nonce ← need SESSION_ERR_CRYPTO (sign_pss priv nonce);
  _ ← sends signed_nonce;
  cert_data ← need SESSION_ERR_IO cert_file;
  _ ← guard SESSION_ERR_IO (negb (bool_decide (cert_data = [])));
  _ ← sends cert_data;
  symkey_buf ← reads_sized (fun len => len =? RSA_KEY_BYTES);
  key_buf ← need SESSION_ERR_CRYPTO (oaep_decrypt priv symkey_buf);
  _ ← guard SESSION_ERR_CRYPTO (length key_buf =? SESSION_KEY_LEN)%nat;
  mret (mkSessionT key_buf true false).

Definition session_accept (priv : PRIV) (cert_file : option (list Z)) (s : sock)
    : session_err * session_t * sock := finish (accept_steps priv cert_file s).

(** ** tetrissh.c: traffic *)

Definition SESSION_MAX_FRAME : Z := 65536.

Definition session_send (t : session_t) (iv : option (list Z)) (buf : list Z) (s : sock) : session_err * sock :=
  if negb (established t) then (SESSION_ERR_PROTO, s)
  else if SESSION_MAX_FRAME <? Z.of_nat (length buf) then (SESSION_ERR_TOOBIG, s)
  else
    match session_encrypt (s_key t) iv buf with
    | None => (SESSION_ERR_CRYPTO, s)
    | Some message =>
        if SESSION_MAX_FRAME <? Z.of_nat (length message) then (SESSION_ERR_TOOBIG, s)
        else
          let '(r, s) := send_u32 (Z.of_nat (length message)) s in
          if negb r then (SESSION_ERR_IO, s)
          else let '(r, s) := send_all message s in (if r then SESSION_OK else SESSION_ERR_IO, s)
    end.

(** The code, the message when it is [SESSION_OK], the session and the socket. *)
Definition session_recv (t : session_t) (cap : Z) (s : sock) : session_err * list Z * session_t * sock :=
  if negb (established t) || recv_dead t then (SESSION_ERR_PROTO, [], t, s)
  else
    let '(r, s) := read_u32 s in
    match r with
    | None => (SESSION_ERR_IO, [], t, s)
    | Some token_len =>
        if SESSION_MAX_FRAME <? token_len
        then (SESSION_ERR_TOOBIG, [], mkSessionT (s_key t) (established t) true, s)
        else
          let '(token, s) := read_bytes (Z.to_nat token_len) s in
          match token with
          | None => (SESSION_ERR_IO, [], t, s)
          | Some token =>
              match session_decrypt (s_key t) token with
              | None => (SESSION_ERR_CRYPTO, [], t, s)
              | Some plain =>
                  if cap <? Z.of_nat (length plain) then (SESSION_ERR_NOSPACE, [], t, s)
                  else (SESSION_OK, plain, t, s)
              end
          end
    end.

Definition session_close (t : session_t) : session_t := mkSessionT (replicate 32 0) false (recv_dead t).
End session.
