(* ===== verification/TetrisshTheorems.v ===== *)
(** * TetrisshTheorems: what the secure session promises

    What the handshake and the frames of core/src/libtetrissh guarantee, given the
    documented behaviour of the primitives underneath. *)

From stdpp Require Import options.
From S2P Require Import Prelude CtlFrame Tetrissh.
#[local] Open Scope Z_scope.

(** What is used of OpenSSL: decryption inverts encryption, CBC with PKCS7 padding
    fills up to the next block, an HMAC-SHA256 has 32 bytes, and with the two halves
    of a key pair a signature verifies and OAEP is undone. *)
Class CryptoLaws `{!Crypto} := {
  paired : PRIV -> PUB -> Prop;
  aes_inverse k iv m ct : aes_128_cbc k iv m = Some ct -> aes_128_cbc_inv k iv ct = Some m;
  aes_length k iv m ct : aes_128_cbc k iv m = Some ct -> length ct = (AES_BLOCK * (length m / AES_BLOCK + 1))%nat;
  hmac_length k m mac : hmac_sha256 k m = Some mac -> length mac = HMAC_LEN;
  pss_correct priv pub m sig : paired priv pub -> sign_pss priv m = Some sig -> verify_pss pub sig m = true;
  oaep_correct priv pub m c : paired priv pub -> oaep_encrypt pub m = Some c -> oaep_decrypt priv c = Some m
}.

(** ** The loops *)

(** A kernel that cuts transfers as it likes but neither fails nor interrupts. *)
Definition quiet (sys : list io) : Prop := Forall (fun r => moves r = true) sys.
Definition calm (s : sock) : Prop := quiet (rsys s) /\ quiet (ssys s).

Lemma recv_loop_quiet sys n buf rx :
  quiet sys -> (n <= length rx)%nat ->
  exists sys', recv_loop sys n buf rx = (Some (buf ++ take n rx), drop n rx, sys') /\ quiet sys'.
Proof.
  revert n buf rx. induction sys as [|r sys IH]; intros [|n] buf rx Hq Hn; cbn [recv_loop].
  1,3: rewrite take_0, app_nil_r; eauto.
  - rewrite (proj2 (Nat.leb_le _ _)) by lia. eauto.
  - apply Forall_cons in Hq as [Hr Hq]. destruct r as [m| |]; [|done|done].
    destruct rx as [|x rx]; [simpl in Hn; lia|]. cbv zeta.
    set (k := (S m `min` (S n `min` 1024) `min` length (x :: rx))%nat).
    assert (Hk : (k <= S n)%nat) by (unfold k; lia).
    destruct (IH (S n - k)%nat (buf ++ take k (x :: rx)) (drop k (x :: rx)) Hq) as (sys' & -> & Hq');
      [rewrite length_drop; lia|].
    exists sys'. split; [|done]. rewrite <- app_assoc, take_take_drop, drop_drop.
    replace (k + (S n - k))%nat with (S n) by lia. done.
Qed.

Lemma recv_loop_length sys n buf rx b rx' sys' :
  recv_loop sys n buf rx = (Some b, rx', sys') -> length b = (length buf + n)%nat.
Proof.
  revert n buf rx. induction sys as [|r sys IH]; intros [|n] buf rx; cbn [recv_loop].
  1,3: intros [= <- _ _]; lia.
  - destruct (Nat.leb_spec (S n) (length rx)); [|done]. intros [= <- _ _]. rewrite length_app, length_take. lia.
  - destruct r as [m| |]; [|done|done]. destruct rx as [|x rx]; [done|]. intros E%IH. rewrite E, length_app, length_take. lia.
Qed.

Lemma send_loop_quiet sys p tx : quiet sys -> exists sys', send_loop sys p tx = (true, tx ++ p, sys') /\ quiet sys'.
Proof.
  revert p tx. induction sys as [|r sys IH]; intros [|x p] tx Hq; cbn [send_loop].
  1,3: rewrite app_nil_r; eauto.
  - eauto.
  - apply Forall_cons in Hq as [Hr Hq]. destruct r as [m| |]; [|done|done].
    destruct (IH (drop (S m) (x :: p)) (tx ++ take (S m) (x :: p)) Hq) as (sys' & -> & Hq').
    exists sys'. by rewrite <- app_assoc, take_drop.
Qed.

Lemma read_bytes_ok s b rest :
  calm s -> rx s = b ++ rest ->
  exists s', read_bytes (length b) s = (Some b, s') /\ rx s' = rest /\ tx s' = tx s /\ calm s'.
Proof.
  intros [Hr Hs] Hrx. unfold read_bytes.
  destruct (recv_loop_quiet (rsys s) (length b) [] (rx s) Hr) as (sys' & -> & Hq); [rewrite Hrx, length_app; lia|].
  rewrite Hrx, take_app_length, drop_app_length. by eexists.
Qed.

Lemma send_all_ok s b :
  calm s -> exists s', send_all b s = (true, s') /\ rx s' = rx s /\ tx s' = tx s ++ b /\ calm s'.
Proof.
  intros [Hr Hs]. unfold send_all. destruct (send_loop_quiet (ssys s) b (tx s) Hs) as (sys' & -> & Hq). by eexists.
Qed.

(** ** Integers *)

Lemma length_int_bytes n x : length (int_bytes n x) = n.
Proof. revert x. induction n as [|n IH]; intros x; [done|]. cbn [int_bytes]. rewrite length_app, IH. simpl. lia. Qed.

Lemma byte_join r b : 0 <= b < 256 -> Z.lor (Z.shiftl r 8) b = r * 256 + b.
Proof.
  intros Hb. rewrite Z.shiftl_mul_pow2 by lia. change (2 ^ 8) with 256. rewrite <- Z.lxor_lor, <- Z.add_nocarry_lxor; [done|..].
  all: apply Z.bits_inj'; intros i Hi; rewrite Z.land_spec, Z.bits_0; change 256 with (2 ^ 8); rewrite <- Z.shiftl_mul_pow2, Z.shiftl_spec by lia;
    destruct (Z.ltb_spec i 8); [rewrite Z.testbit_neg_r by lia; done|];
    rewrite (Z.bits_above_log2 b i), andb_false_r; [done|lia|];
    destruct (decide (b = 0)) as [->|]; [simpl; lia|]; assert (Z.log2 b < 8) by (apply Z.log2_lt_pow2; lia); lia.
Qed.

Lemma int_bytes_fold n x :
  (n <= 8)%nat -> 0 <= x < 256 ^ Z.of_nat n ->
  foldl (fun result b => Z.lor (Z.shiftl result 8 mod 2 ^ 64) b) 0 (int_bytes n x) = x.
Proof.
  revert x. induction n as [|n IH]; intros x Hn Hx; [simpl in *; lia|]. cbn [int_bytes]. rewrite foldl_app. cbn [foldl].
  assert (Hp : 256 ^ Z.of_nat (S n) = 256 * 256 ^ Z.of_nat n) by (rewrite Nat2Z.inj_succ, Z.pow_succ_r by lia; done).
  change 255 with (Z.ones 8). rewrite Z.land_ones, Z.shiftr_div_pow2 by lia. change (2 ^ 8) with 256.
  assert (Hd : 0 <= x / 256 < 256 ^ Z.of_nat n) by (split; [apply Z.div_pos; lia|apply Z.div_lt_upper_bound; lia]).
  rewrite IH by lia. assert (256 ^ Z.of_nat n <= 256 ^ 7) by (apply Z.pow_le_mono_r; lia).
  rewrite Z.mod_small by (rewrite Z.shiftl_mul_pow2 by lia; lia).
  rewrite byte_join by (apply Z.mod_pos_bound; lia). pose proof (Z.div_mod x 256). lia.
Qed.

Lemma int_round_trip x : 0 <= x < 2 ^ 64 -> bytes_to_int (int_to_bytes x) = x.
Proof.
  intros Hx. unfold bytes_to_int, int_to_bytes. rewrite take_ge by (rewrite length_int_bytes; done).
  apply int_bytes_fold; [done|]. exact Hx.
Qed.

(** ** Sized fields *)

Definition sized (b : list Z) : list Z := int_to_bytes (Z.of_nat (length b)) ++ b.

Lemma sends_ok s b :
  calm s -> exists s', sends b s = (inr tt, s') /\ rx s' = rx s /\ tx s' = tx s ++ sized b /\ calm s'.
Proof.
  intros Hc. unfold sends, send_int. destruct (send_all_ok s (int_to_bytes (Z.of_nat (length b))) Hc) as (s1 & -> & Hr1 & Ht1 & Hc1).
  cbn [negb]. destruct (send_all_ok s1 b Hc1) as (s2 & -> & Hr2 & Ht2 & Hc2). exists s2. split_and!; [done|congruence| |done].
  rewrite Ht2, Ht1. unfold sized. by rewrite app_assoc.
Qed.

Lemma reads_sized_ok (ok : Z -> bool) s b rest :
  calm s -> rx s = sized b ++ rest -> ok (Z.of_nat (length b)) = true -> Z.of_nat (length b) < 2 ^ 64 ->
  exists s', reads_sized ok s = (inr b, s') /\ rx s' = rest /\ tx s' = tx s /\ calm s'.
Proof.
  intros Hc Hrx Hok Hlen. unfold reads_sized, mbind, HS_bind, reads. unfold sized in Hrx. rewrite <- app_assoc in Hrx.
  destruct (read_bytes_ok s _ _ Hc Hrx) as (s1 & E & Hr1 & Ht1 & Hc1).
  rewrite (length_int_bytes 8) in E. unfold INT_BYTES. rewrite E. cbv zeta. rewrite int_round_trip by lia. unfold guard. rewrite Hok, Nat2Z.id.
  destruct (read_bytes_ok s1 b rest Hc1 Hr1) as (s2 & -> & Hr2 & Ht2 & Hc2). exists s2. by rewrite Ht2.
Qed.

Section guarantees.
Context {openssl : Crypto} {laws : CryptoLaws}.

(** ** The handshake *)

(** C26: The handshake agrees on a key.  When the server's certificate is verified by
    the client's CA and holds the public half of its key, the client and the server,
    each reading what the other sent, however the transfers are cut, both end with an
    established session under the key the client drew. *)
Theorem handshake_agrees priv pub ca cert cert_file nonce sig key wrapped cs ss :
  calm cs -> calm ss ->
  paired priv pub -> load_cert_bytes cert_file = Some cert -> x509_verify ca cert = true ->
  X509_get_pubkey cert = Some pub -> 0 < Z.of_nat (length cert_file) <= TSSH_MAX_CERT_LEN ->
  length nonce = TSSH_NONCE_LEN -> length key = SESSION_KEY_LEN ->
  sign_pss priv nonce = Some sig -> 0 < Z.of_nat (length sig) <= TSSH_MAX_SIG_LEN ->
  oaep_encrypt pub key = Some wrapped -> Z.of_nat (length wrapped) = RSA_KEY_BYTES ->
  tx cs = [] -> tx ss = [] ->
  rx cs = sized sig ++ sized cert_file -> rx ss = sized nonce ++ sized wrapped ->
  exists cs' ss',
    session_connect (Some ca) (Some nonce) (Some key) cs = (SESSION_OK, mkSessionT key true false, cs') /\
    session_accept priv (Some cert_file) ss = (SESSION_OK, mkSessionT key true false, ss') /\
    tx cs' = rx ss /\ tx ss' = rx cs.
Proof using All.
  intros Hcc Hcs Hpair Hload Hver Hpub Hclen Hnlen Hklen Hsig Hslen Hwrap Hwlen Htc Hts Hrc Hrs.
  rewrite <- (app_nil_r (sized cert_file)) in Hrc. rewrite <- (app_nil_r (sized wrapped)) in Hrs.
  unfold session_connect, connect_steps, session_accept, accept_steps.
  destruct (sends_ok cs nonce Hcc) as (c1 & E1 & R1 & T1 & C1).
  destruct (reads_sized_ok (in_1_to TSSH_MAX_SIG_LEN) c1 sig (sized cert_file ++ [])) as (c2 & E2 & R2 & T2 & C2);
    [done|congruence|unfold in_1_to; lia|unfold TSSH_MAX_SIG_LEN in *; lia|].
  destruct (reads_sized_ok (in_1_to TSSH_MAX_CERT_LEN) c2 cert_file []) as (c3 & E3 & R3 & T3 & C3);
    [done|done|unfold in_1_to; lia|unfold TSSH_MAX_CERT_LEN in *; lia|].
  destruct (sends_ok c3 wrapped C3) as (c4 & E4 & R4 & T4 & C4).
  destruct (reads_sized_ok (in_1_to TSSH_MAX_NONCE_LEN) ss nonce (sized wrapped ++ [])) as (s1 & F1 & Q1 & U1 & D1);
    [done|done|rewrite Hnlen; done|rewrite Hnlen; done|].
  destruct (sends_ok s1 sig D1) as (s2 & F2 & Q2 & U2 & D2).
  destruct (sends_ok s2 cert_file D2) as (s3 & F3 & Q3 & U3 & D3).
  destruct (reads_sized_ok (fun len => len =? RSA_KEY_BYTES) s3 wrapped []) as (s4 & F4 & Q4 & U4 & D4);
    [done|congruence|rewrite Hwlen; done|rewrite Hwlen; done|].
  exists c4, s4. unfold mbind, HS_bind, need, guard, mret, HS_ret.
  rewrite E1, E2, E3, Hload. unfold verify_server_cert, verify_message_pss. rewrite Hver, Hpub.
  rewrite (pss_correct _ _ _ _ Hpair Hsig), Hwrap, E4, F1, Hsig, F2.
  rewrite bool_decide_false by (intros ->; simpl in Hclen; lia). cbn [negb]. rewrite F3, F4.
  rewrite (oaep_correct _ _ _ _ Hpair Hwrap), Hklen. cbn [Nat.eqb SESSION_KEY_LEN finish].
  split_and!; [done|done|rewrite T4, T3, T2, T1, Htc, Hrs|rewrite U4, U3, U2, U1, Hts, Hrc]; by rewrite app_nil_r.
Qed.

(** A step that succeeded. *)
Lemma HS_bind_ok {A B} (m : HS A) (f : A -> HS B) s b s' :
  (m ≫= f) s = (inr b, s') -> exists a s1, m s = (inr a, s1) /\ f a s1 = (inr b, s').
Proof using Type. unfold mbind, HS_bind. destruct (m s) as [[e|a] s1]; [done|]. eauto. Qed.

Lemma need_ok {A} e (r : option A) s a s' : need e r s = (inr a, s') -> r = Some a.
Proof using Type. unfold need. destruct r; by intros [= ->]. Qed.

Lemma guard_ok e b s u s' : guard e b s = (inr u, s') -> b = true.
Proof using Type. unfold guard. by destruct b. Qed.

(** C36: No session without proof.  Whatever the peer sends and whatever the network
    does, [session_connect] reports success only after a certificate that the given CA
    verifies and a signature of this connection's nonce under that certificate's key;
    with any other code the session is left dead, so nothing can be sent on it. *)
Theorem connect_authenticates ca nonce key s code t s' :
  session_connect ca nonce key s = (code, t, s') ->
  if bool_decide (code = SESSION_OK) then
    exists n ca_cert cert_buf cert pub sig, nonce = Some n /\ ca = Some ca_cert /\ load_cert_bytes cert_buf = Some cert /\
      x509_verify ca_cert cert = true /\ X509_get_pubkey cert = Some pub /\ verify_pss pub sig n = true /\
      key = Some (s_key t) /\ established t = true
  else forall iv buf s, session_send t iv buf s = (SESSION_ERR_PROTO, s).
Proof using Type.
  unfold session_connect. destruct (connect_steps ca nonce key s) as [[e|t'] s1] eqn:E; cbn [finish].
  - intros [= <- <- <-]. case_bool_decide as He; [|done]. subst e. exfalso. revert E.
    unfold connect_steps, mbind, HS_bind, need, guard, reads_sized, mbind, HS_bind, reads, guard, sends.
    repeat (case_match; simplify_eq; try done).
  - intros [= <- <- <-]. rewrite bool_decide_true by done. unfold connect_steps in E.
    apply HS_bind_ok in E as (n & ? & Hn%need_ok & E). apply HS_bind_ok in E as (? & ? & _ & E).
    apply HS_bind_ok in E as (sig & ? & _ & E). apply HS_bind_ok in E as (cert_buf & ? & _ & E).
    apply HS_bind_ok in E as (cert & ? & Hcert%need_ok & E). apply HS_bind_ok in E as (? & ? & Hver%guard_ok & E).
    apply HS_bind_ok in E as (? & ? & Hsig%guard_ok & E). apply HS_bind_ok in E as (pub & ? & Hpub%need_ok & E).
    apply HS_bind_ok in E as (k & ? & Hk%need_ok & E). apply HS_bind_ok in E as (? & ? & _ & E).
    apply HS_bind_ok in E as (? & ? & _ & [= <- <-]). unfold verify_server_cert in Hver. unfold verify_message_pss in Hsig.
    destruct ca as [ca|]; [|done]. rewrite Hpub in Hsig. eexists n, ca, cert_buf, cert, pub, sig. done.
Qed.

(** ** Traffic *)

Definition token_length (n : nat) : nat := (AES_IV_LEN + AES_BLOCK * (n / AES_BLOCK + 1) + HMAC_LEN)%nat.

Lemma encrypt_parts key iv m token :
  session_encrypt key (Some iv) m = Some token ->
  exists ct mac, aes_128_cbc (drop HMAC_KEY_LEN key) iv m = Some ct /\
    hmac_sha256 (take HMAC_KEY_LEN key) (iv ++ ct) = Some mac /\ token = iv ++ ct ++ mac.
Proof using Type.
  unfold session_encrypt. cbn [mbind option_bind]. set (hk := take HMAC_KEY_LEN key). set (ak := drop HMAC_KEY_LEN key).
  destruct (aes_128_cbc ak iv m) as [ct|]; cbn [mbind option_bind]; [|done].
  destruct (hmac_sha256 hk (iv ++ ct)) as [mac|] eqn:E; cbn [mbind option_bind]; [|done].
  intros He. apply (inj Some) in He as <-. eauto.
Qed.

Lemma encrypt_length key iv m token :
  length iv = AES_IV_LEN -> session_encrypt key (Some iv) m = Some token -> length token = token_length (length m).
Proof using All.
  intros Hiv (ct & mac & Hct & Hmac & ->)%encrypt_parts. rewrite !length_app, Hiv.
  rewrite (aes_length _ _ _ _ Hct), (hmac_length _ _ _ Hmac). unfold token_length. lia.
Qed.

Lemma decrypt_encrypt key iv m token :
  length iv = AES_IV_LEN -> session_encrypt key (Some iv) m = Some token -> session_decrypt key token = Some m.
Proof using All.
  intros Hiv Henc. pose proof (encrypt_length _ _ _ _ Hiv Henc) as Hlen. unfold token_length in Hlen.
  apply encrypt_parts in Henc as (ct & mac & Hct & Hmac & ->).
  unfold session_decrypt. rewrite (proj2 (Nat.ltb_ge _ _)) by (rewrite Hlen; unfold AES_BLOCK; lia). cbv zeta.
  pose proof (hmac_length _ _ _ Hmac) as Hml.
  assert (Hcl : (length (iv ++ ct ++ mac) - AES_IV_LEN - HMAC_LEN = length ct)%nat) by (rewrite !length_app, Hiv, Hml; lia).
  rewrite Hcl, <- Hiv, take_app_length, drop_app_length, take_app_length.
  assert (Hsplit : forall n, n = length (iv ++ ct) -> take n (iv ++ ct ++ mac) = iv ++ ct /\ drop n (iv ++ ct ++ mac) = mac).
  { intros n ->. rewrite app_assoc. by rewrite take_app_length, drop_app_length. }
  destruct (Hsplit (length iv + length ct)%nat) as [-> ->]; [by rewrite length_app|].
  rewrite Hmac. cbn [mbind option_bind]. rewrite bool_decide_true by done. cbn [negb]. by apply (aes_inverse _ _ _ _ Hct).
Qed.

(** One frame on the wire. *)
Definition wire_frame (token : list Z) : list Z := prefix_of_len (Z.of_nat (length token)) ++ token.

Lemma recv_frame t cap token m rest s :
  established t = true -> recv_dead t = false -> calm s -> rx s = wire_frame token ++ rest ->
  Z.of_nat (length token) <= SESSION_MAX_FRAME -> session_decrypt (s_key t) token = Some m -> Z.of_nat (length m) <= cap ->
  exists s', session_recv t cap s = (SESSION_OK, m, t, s') /\ rx s' = rest /\ tx s' = tx s /\ calm s'.
Proof using Type.
  intros He Hd Hc Hrx Hlen Hdec Hcap. unfold session_recv, read_u32, FRAME_PREFIX_BYTES. rewrite He, Hd. cbn [negb orb].
  unfold wire_frame in Hrx. rewrite <- app_assoc in Hrx.
  destruct (read_bytes_ok s _ _ Hc Hrx) as (s1 & E1 & R1 & T1 & C1).
  change (length (prefix_of_len (Z.of_nat (length token)))) with 4%nat in E1. rewrite E1. cbn [fmap option_fmap option_map].
  rewrite prefix_round_trip by (unfold SESSION_MAX_FRAME in Hlen; lia). rewrite (proj2 (Z.ltb_ge _ _)), Nat2Z.id by lia.
  destruct (read_bytes_ok s1 token rest C1 R1) as (s2 & -> & R2 & T2 & C2). rewrite Hdec, (proj2 (Z.ltb_ge _ _)) by lia.
  exists s2. by rewrite T2.
Qed.

Lemma send_frame t iv m s s' :
  calm s -> session_send t (Some iv) m s = (SESSION_OK, s') ->
  exists token, session_encrypt (s_key t) (Some iv) m = Some token /\ Z.of_nat (length token) <= SESSION_MAX_FRAME /\
    rx s' = rx s /\ tx s' = tx s ++ wire_frame token /\ calm s'.
Proof using Type.
  intros Hc. unfold session_send, send_u32. destruct (established t); [|done]. cbn [negb].
  destruct (_ <? Z.of_nat (length m)); [done|]. destruct (session_encrypt _ _ m) as [token|] eqn:E; [|done].
  destruct (Z.ltb_spec SESSION_MAX_FRAME (Z.of_nat (length token))); [done|].
  destruct (send_all_ok s (prefix_of_len (Z.of_nat (length token))) Hc) as (s1 & -> & R1 & T1 & C1). cbn [negb].
  destruct (send_all_ok s1 token C1) as (s2 & -> & R2 & T2 & C2). intros [= <-]. exists token.
  split_and!; [done|lia|congruence| |done]. rewrite T2, T1. unfold wire_frame. by rewrite app_assoc.
Qed.

(** Messages sent one after the other, each with its IV; [None] unless all went out. *)
Fixpoint send_many (t : session_t) (ms : list (list Z * list Z)) (s : sock) : option sock :=
  match ms with
  | [] => Some s
  | (iv, m) :: ms =>
      match session_send t (Some iv) m s with (SESSION_OK, s) => send_many t ms s | _ => None end
  end.

(** [n] messages received one after the other. *)
Fixpoint recv_many (n : nat) (t : session_t) (cap : Z) (s : sock) : option (list (list Z) * sock) :=
  match n with
  | O => Some ([], s)
  | S n =>
      match session_recv t cap s with
      | (SESSION_OK, m, t, s) => '(ms, s) ← recv_many n t cap s; Some (m :: ms, s)
      | _ => None
      end
  end.

Lemma send_many_tx t ms s s' :
  calm s -> send_many t ms s = Some s' ->
  exists tokens, tx s' = tx s ++ mjoin (wire_frame <$> tokens) /\
    Forall2 (fun im token => session_encrypt (s_key t) (Some im.1) im.2 = Some token /\
      Z.of_nat (length token) <= SESSION_MAX_FRAME) ms tokens.
Proof using Type.
  revert s. induction ms as [|[iv m] ms IH]; intros s Hc H; cbn [send_many] in H.
  - injection H as <-. exists []. simpl. by rewrite app_nil_r.
  - destruct (session_send t (Some iv) m s) as [[] s1] eqn:E; try done.
    destruct (send_frame _ _ _ _ _ Hc E) as (token & Henc & Hlen & _ & Ht & Hc1).
    destruct (IH s1 Hc1 H) as (tokens & Ht' & Hf). exists (token :: tokens). split; [|by constructor].
    rewrite Ht', Ht, <- app_assoc. done.
Qed.

(** C22: Messages arrive in order and unchanged.  Every message a session reports
    sent is received on a session with the same key, in order, byte for byte,
    however both kernels cut the transfers; what follows on the stream is left. *)
Theorem session_delivers t t' ms s s' cap r rest :
  established t' = true -> recv_dead t' = false -> s_key t' = s_key t ->
  calm s -> calm r -> tx s = [] -> Forall (fun im => length im.1 = AES_IV_LEN /\ Z.of_nat (length im.2) <= cap) ms ->
  send_many t ms s = Some s' -> rx r = tx s' ++ rest ->
  exists r', recv_many (length ms) t' cap r = Some (snd <$> ms, r') /\ rx r' = rest.
Proof using All.
  intros He Hd Hk Hcs Hcr Htx Hms Hsend Hrx. destruct (send_many_tx _ _ _ _ Hcs Hsend) as (tokens & Ht & Hf).
  rewrite Ht, Htx in Hrx. cbn [app] in Hrx. clear s s' Hcs Htx Hsend Ht. revert r Hcr Hrx.
  induction Hf as [|[iv m] token ms tokens [Henc Hlen] Hf IH]; intros r Hcr Hrx; [by exists r|].
  apply Forall_cons in Hms as [[Hiv Hm] Hms]. cbn [fst snd] in *. cbn [fmap list_fmap mjoin list_join] in Hrx.
  rewrite <- app_assoc in Hrx. destruct (recv_frame t' cap token m _ r He Hd Hcr Hrx Hlen) as (r1 & E & R1 & _ & C1);
    [rewrite Hk; by apply (decrypt_encrypt _ iv)|done|].
  cbn [length recv_many]. rewrite E. destruct (IH Hms r1 C1 R1) as (r' & E' & Hr'). unfold fmap in *. rewrite E'. by exists r'.
Qed.

(** How much fits.  With a working cipher an established session takes exactly
    the messages of up to 65487 bytes: 65536 less the IV, the MAC and the padding.
    A longer one is refused before anything is written, although the limit on the
    plaintext that the code checks first is 65536. *)
Theorem session_send_bound t iv m s :
  established t = true -> calm s -> length iv = AES_IV_LEN ->
  is_Some (session_encrypt (s_key t) (Some iv) m) ->
  if decide (Z.of_nat (length m) <= 65487) then exists s', session_send t (Some iv) m s = (SESSION_OK, s')
  else session_send t (Some iv) m s = (SESSION_ERR_TOOBIG, s).
Proof using All.
  intros He Hc Hiv [token Henc]. pose proof (encrypt_length _ _ _ _ Hiv Henc) as Hlen.
  unfold session_send, send_u32. rewrite He, Henc. cbn [negb].
  assert (Htok : Z.of_nat (length token) = 48 + 16 * (Z.of_nat (length m) / 16 + 1)).
  { rewrite Hlen. unfold token_length, AES_IV_LEN, AES_BLOCK, HMAC_LEN. rewrite !Nat2Z.inj_add, Nat2Z.inj_mul, Nat2Z.inj_add, Nat2Z.inj_div. lia. }
  pose proof (Z.div_mod (Z.of_nat (length m)) 16) as Hdm. pose proof (Z.mod_pos_bound (Z.of_nat (length m)) 16) as Hmb.
  unfold SESSION_MAX_FRAME. destruct (decide _) as [Hle|Hgt].
  - rewrite (proj2 (Z.ltb_ge _ _)) by lia. rewrite (proj2 (Z.ltb_ge _ (Z.of_nat (length token)))) by lia.
    destruct (send_all_ok s (prefix_of_len (Z.of_nat (length token))) Hc) as (s1 & -> & _ & _ & C1). cbn [negb].
    destruct (send_all_ok s1 token C1) as (s2 & -> & _). eauto.
  - destruct (65536 <? Z.of_nat (length m)); [done|]. by rewrite (proj2 (Z.ltb_lt _ _)) by lia.
Qed.

(** Receiving, on any input.  Whatever is on the stream, one [session_recv] ends
    in one of these ways: a message that the session's key authenticates; a frame over
    the limit, after which this and every later receive on the session fails while
    sending still works; a message too big for the caller or one that does not
    authenticate, which is dropped with its frame; or a broken stream.  Only the
    second changes the session. *)
Theorem recv_classified t cap s code m t' s' :
  session_recv t cap s = (code, m, t', s') ->
  s_key t' = s_key t /\ established t' = established t /\ tx s' = tx s /\
  match code with
  | SESSION_OK => t' = t /\ Z.of_nat (length m) <= cap /\
      exists token, Z.of_nat (length token) <= SESSION_MAX_FRAME /\ session_decrypt (s_key t) token = Some m
  | SESSION_ERR_TOOBIG => established t = true /\ recv_dead t' = true /\
      forall cap s, session_recv t' cap s = (SESSION_ERR_PROTO, [], t', s)
  | SESSION_ERR_PROTO => t' = t /\ s' = s /\ (established t = false \/ recv_dead t = true)
  | SESSION_ERR_AUTH => False
  | _ => t' = t /\ m = []
  end.
Proof using Type.
  unfold session_recv, read_u32, read_bytes. destruct (established t) eqn:He; cbn [negb orb]; [|intros [= <- <- <- <-]; eauto 10].
  destruct (recv_dead t) eqn:Hd; [intros [= <- <- <- <-]; eauto 10|].
  destruct (recv_loop (rsys s) FRAME_PREFIX_BYTES [] (rx s)) as [[r rx1] sys1] eqn:E1.
  destruct r as [p|]; cbn [fmap option_fmap option_map]; [|intros [= <- <- <- <-]; done].
  destruct (Z.ltb_spec SESSION_MAX_FRAME (len_of_prefix p)) as [Hbig|Hsmall].
  { by intros [= <- <- <- <-]. }
  cbn [rsys tx ssys]. destruct (recv_loop sys1 (Z.to_nat (len_of_prefix p)) [] _) as [[r rx2] sys2] eqn:E2.
  destruct r as [token|]; [|intros [= <- <- <- <-]; done].
  destruct (session_decrypt (s_key t) token) as [plain|] eqn:Hdec; [|intros [= <- <- <- <-]; done].
  destruct (Z.ltb_spec cap (Z.of_nat (length plain))); intros [= <- <- <- <-]; [done|].
  split_and!; [done..|lia|]. exists token. split; [|done]. 
  apply recv_loop_length in E2. simpl in E2. rewrite E2. unfold SESSION_MAX_FRAME in *. lia.
Qed.
End guarantees.

(** ** A toy instance: the laws can hold *)

Definition pkcs7 (m : list Z) : list Z :=
  let k := (AES_BLOCK - length m mod AES_BLOCK)%nat in m ++ replicate k (Z.of_nat k).

Definition toy_crypto : Crypto := {|
  X509 := Z; PUB := Z; PRIV := Z;
  load_cert_bytes b := head b;
  x509_verify ca cert := ca =? 1;
  X509_get_pubkey cert := Some cert;
  sign_pss priv m := Some [priv];
  verify_pss pub sig m := bool_decide (sig = [pub]);
  oaep_encrypt pub m := if (length m =? 32)%nat then Some (m ++ replicate 96 0) else None;
  oaep_decrypt priv c := Some (take 32 c);
  aes_128_cbc k iv m := Some (pkcs7 m);
  aes_128_cbc_inv k iv ct := Some (take (length ct - Z.to_nat (default 0 (last ct))) ct);
  hmac_sha256 k m := Some (replicate 32 (Z.of_nat (length m) mod 256))
|}.

Lemma last_replicate_S {A} (x : A) n : last (replicate (S n) x) = Some x.
Proof. induction n as [|n IH]; [done|]. exact IH. Qed.

Program Definition toy_laws : @CryptoLaws toy_crypto :=
  {| paired := (eq : Z -> Z -> Prop) |}.
Next Obligation.
  intros k iv m ct [= <-]. unfold aes_128_cbc_inv. cbn [toy_crypto]. f_equal. unfold pkcs7, AES_BLOCK.
  pose proof (Nat.mod_upper_bound (length m) 16). destruct (16 - length m mod 16)%nat as [|n] eqn:E; [lia|].
  rewrite last_app, last_replicate_S. change (default 0 (Some (Z.of_nat (S n)))) with (Z.of_nat (S n)). rewrite Nat2Z.id, length_app, length_replicate, Nat.add_sub.
  apply take_app_length.
Qed.
Next Obligation.
  intros k iv m ct [= <-]. unfold pkcs7. rewrite length_app, length_replicate. unfold AES_BLOCK.
  pose proof (Nat.mod_upper_bound (length m) 16). pose proof (Nat.div_mod (length m) 16). lia.
Qed.
Next Obligation. by intros k m mac [= <-]. Qed.
Next Obligation. intros priv pub m sig -> [= <-]. cbn. by apply bool_decide_true. Qed.
Next Obligation.
  intros priv pub m c _. cbn [oaep_encrypt toy_crypto oaep_decrypt]. destruct (Nat.eqb_spec (length m) 32) as [E|]; [|done].
  intros [= <-]. f_equal. rewrite <- E. apply take_app_length.
Qed.

Definition toy_key : list Z := replicate 32 5.
Definition toy_iv : list Z := replicate 16 9.
Definition toy_session : session_t := mkSessionT toy_key true false.
Definition quiet_sock (rx : list Z) : sock := mkSock rx [] [IoUpTo 2; IoUpTo 0] [IoUpTo 1].

Lemma quiet_sock_calm rx : calm (quiet_sock rx).
Proof. split; repeat constructor. Qed.

Lemma handshake_agrees_witness :
  exists cs' ss', @session_connect toy_crypto (Some 1) (Some (replicate 32 3)) (Some toy_key)
      (quiet_sock (sized [7] ++ sized [7])) = (SESSION_OK, toy_session, cs') /\
    @session_accept toy_crypto 7 (Some [7]) (quiet_sock (sized (replicate 32 3) ++ sized (toy_key ++ replicate 96 0)))
      = (SESSION_OK, toy_session, ss').
Proof.
  destruct (@handshake_agrees toy_crypto toy_laws 7 7 1 7 [7] (replicate 32 3) [7] toy_key (toy_key ++ replicate 96 0)
    (quiet_sock (sized [7] ++ sized [7])) (quiet_sock (sized (replicate 32 3) ++ sized (toy_key ++ replicate 96 0))))
    as (cs' & ss' & Hc & Hs & _); try reflexivity; try apply quiet_sock_calm; try (vm_compute; split; reflexivity || discriminate).
  exists cs', ss'. split; [exact Hc|exact Hs].
Defined.

Lemma connect_authenticates_witness :
  let '(code, t, _) := @session_connect toy_crypto (Some 2) (Some (replicate 32 3)) (Some toy_key)
      (quiet_sock (sized [7] ++ sized [7])) in
  code = SESSION_ERR_AUTH /\ forall iv buf s, @session_send toy_crypto t iv buf s = (SESSION_ERR_PROTO, s).
Proof.
  destruct (@session_connect toy_crypto (Some 2) (Some (replicate 32 3)) (Some toy_key)
    (quiet_sock (sized [7] ++ sized [7]))) as [[code t] s'] eqn:E.
  pose proof (@connect_authenticates toy_crypto _ _ _ _ _ _ _ E) as H.
  assert (Hc : code = SESSION_ERR_AUTH) by (vm_compute in E; congruence). rewrite Hc in H. split; [exact Hc|exact H].
Defined.

Lemma session_delivers_witness :
  exists s' r', @send_many toy_crypto toy_session [(toy_iv, [1; 2; 3]); (toy_iv, [])] (quiet_sock []) = Some s' /\
    @recv_many toy_crypto 2 toy_session 64 (quiet_sock (tx s')) = Some ([[1; 2; 3]; []], r').
Proof.
  destruct (@send_many toy_crypto toy_session [(toy_iv, [1; 2; 3]); (toy_iv, [])] (quiet_sock [])) as [s'|] eqn:E;
    [|vm_compute in E; discriminate].
  destruct (@session_delivers toy_crypto toy_laws toy_session toy_session [(toy_iv, [1; 2; 3]); (toy_iv, [])]
    (quiet_sock []) s' 64 (quiet_sock (tx s')) []) as (r' & Hr & _); try reflexivity; try apply quiet_sock_calm.
  - repeat constructor; vm_compute; reflexivity || discriminate.
  - exact E.
  - cbn. by rewrite app_nil_r.
  - exists s', r'. split; [reflexivity|exact Hr].
Defined.

Lemma session_send_bound_witness :
  @session_send toy_crypto toy_session (Some toy_iv) (replicate (Z.to_nat 65488) 0) (quiet_sock []) =
  (SESSION_ERR_TOOBIG, quiet_sock []).
Proof.
  pose proof (@session_send_bound toy_crypto toy_laws toy_session toy_iv (replicate (Z.to_nat 65488) 0) (quiet_sock [])
    eq_refl (quiet_sock_calm []) eq_refl (ltac:(eexists; reflexivity))) as H.
  rewrite length_replicate in H. rewrite Z2Nat.id in H by lia. rewrite decide_False in H by lia. exact H.
Defined.

Lemma recv_classified_witness :
  exists t' s', @session_recv toy_crypto toy_session 64 (quiet_sock [0; 1; 0; 1; 5]) = (SESSION_ERR_TOOBIG, [], t', s') /\
    forall cap s, @session_recv toy_crypto t' cap s = (SESSION_ERR_PROTO, [], t', s).
Proof.
  destruct (@session_recv toy_crypto toy_session 64 (quiet_sock [0; 1; 0; 1; 5])) as [[[code m] t'] s'] eqn:E.
  pose proof (@recv_classified toy_crypto _ _ _ _ _ _ _ E) as (_ & _ & _ & H).
  assert (Hc : code = SESSION_ERR_TOOBIG /\ m = []) by (vm_compute in E; split; congruence). destruct Hc as [-> ->].
  destruct H as (_ & _ & H). exists t', s'. split; [reflexivity|exact H].
Defined.
