(* ===== verification/BallotClient.v ===== *)
(** * BallotClient: the voter's and the operator's side of BallotBox

    Models ballotbox/src/libballotclient: the voter's session (voter.c), the client's
    placeholder cryptography (voter_crypto.c), what the operator's commands send
    (admin.c), and the voter's half of the transport (send_via_session of
    transport.c) over a secure session.  A pointer the code tests against [NULL] is an
    option.  The before-submit hook is not set, and log lines have no effect. *)

From Stdlib Require Import String.
From stdpp Require Import options.
From S2P Require Import Prelude Text Name Htttp BallotTypes BallotDb Codec Tetrissh.
#[local] Open Scope Z_scope.

(** ** admin.c *)

Definition bc_build_create (config : option bb_config) : bb_result bcl_request :=
  match config with
  | None => BB_ERR BB_ERR_CONFIG_TITLE
  | Some c =>
      match bb_validate_config (Some c) with
      | BB_ERR e => BB_ERR e
      | BB_OK _ => BB_OK (mkBclRequest BCL_CREATE [] [] zero_ballot [] c)
      end
  end.

Definition bc_build_transition (op : bcl_op) (election_id : option (list Z)) : bb_result bcl_request :=
  match election_id with
  | None => BB_ERR BB_ERR_DB
  | Some id =>
      match op with
      | BCL_OPEN | BCL_CLOSE | BCL_PUBLISH => BB_OK (mkBclRequest op [] (trunc BB_ID_LEN id) zero_ballot [] zero_config)
      | _ => BB_ERR BB_ERR_ILLEGAL_TRANSITION
      end
  end.

(** The first loop: [i] is the index, [n] the passes left; the array, and the entry
    it stopped at. *)
Fixpoint fold_loop (n : nat) (i : Z) (out : list (list Z)) : list (list Z) * option (list Z) :=
  match n with
  | O => (out, None)
  | S n =>
      match (if user_name_ok (aget [] out i) then user_name_fold BB_CERT_LEN (aget [] out i) else None) with
      | None => (out, Some (aget [] out i))
      | Some folded => fold_loop n (i + 1) (aset out i (trunc BB_CERT_LEN folded))
      end
  end.

(** The second loop: [kept] entries are kept so far. *)
Fixpoint dedup_loop (n : nat) (i kept : Z) (out : list (list Z)) : list (list Z) * Z :=
  match n with
  | O => (out, kept)
  | S n =>
      if existsb (fun j => bool_decide (aget [] out j = aget [] out i)) (range kept)
      then dedup_loop n (i + 1) kept out
      else dedup_loop n (i + 1) (kept + 1)
             (if kept =? i then out else aset out kept (trunc BB_CERT_LEN (aget [] out i)))
  end.

(** The array, and the new count or the bad entry. *)
Definition bc_fold_eligible (out : list (list Z)) (count : Z) : list (list Z) * (list Z + Z) :=
  match fold_loop (Z.to_nat count) 0 out with
  | (out, Some bad) => (out, inl bad)
  | (out, None) => let '(out, kept) := dedup_loop (Z.to_nat count) 0 0 out in (out, inr kept)
  end.

(** ** voter.h, voter.c: decisions *)

Record bu_session := mkBuSession {
  v_cert_name : list Z;
  v_joined : bool;
  v_election_id : list Z;
  v_has_ballot : Z;
  v_ballot_version : Z;
  v_my_hash : list Z;
  v_title : list Z;
  v_options : list (list Z);
  v_option_count : Z
}.

Inductive bu_vote_action := BU_MUST_JOIN | BU_CAST | BU_UPDATE.

Definition bu_route_vote (session : option bu_session) : bu_vote_action :=
  match session with
  | None => BU_MUST_JOIN
  | Some s => if negb (v_joined s) then BU_MUST_JOIN else if v_has_ballot s =? 0 then BU_CAST else BU_UPDATE
  end.

Inductive bu_join_outcome := BU_JOIN_TIMEOUT | BU_JOIN_NOT_FOUND | BU_JOIN_NOT_ELIGIBLE | BU_JOIN_NOT_OPEN | BU_JOIN_ADMITTED.

Definition bu_classify_join (status : bb_code) (election : option bb_election) : bu_join_outcome :=
  match status with
  | BB_ERR BB_ERR_NOT_FOUND => BU_JOIN_NOT_FOUND
  | BB_ERR (BB_ERR_NOT_ELIGIBLE | BB_ERR_CERT_INVALID | BB_ERR_CERT_EXPIRED) => BU_JOIN_NOT_ELIGIBLE
  | BB_ERR BB_ERR_NOT_OPEN => BU_JOIN_NOT_OPEN
  | BB_OK _ =>
      match election with
      | Some e => if bool_decide (e_state e = BB_STATE_OPEN) then BU_JOIN_ADMITTED else BU_JOIN_NOT_OPEN
      | None => BU_JOIN_NOT_OPEN
      end
  | BB_ERR _ => BU_JOIN_TIMEOUT
  end.

Inductive bu_check_outcome := BU_CHECK_COUNTED | BU_CHECK_DROPPED | BU_CHECK_UNAVAILABLE.

Definition bu_classify_check (status : bb_code) (found : Z) : bu_check_outcome :=
  match status with
  | BB_OK _ => if found =? 0 then BU_CHECK_DROPPED else BU_CHECK_COUNTED
  | BB_ERR BB_ERR_NOT_FOUND => BU_CHECK_DROPPED
  | BB_ERR _ => BU_CHECK_UNAVAILABLE
  end.

(** ** voter_crypto.c *)

Definition bu_encrypt_ballot (option_index : Z) (nonce : option (list Z)) : bb_result bb_ballot :=
  match nonce with
  | None => BB_ERR BB_ERR_BAD_OPTION
  | Some nonce =>
      if (option_index <? 0) || (255 <? option_index) then BB_ERR BB_ERR_BAD_OPTION
      else BB_OK (mkBallot [] (trunc BB_NONCE_LEN nonce) (aset (replicate BB_CIPHERTEXT_MAX 0) 0 option_index) 1)
  end.

Definition bu_derive_receipt (secret_key : option (list Z)) : bb_result (list Z) :=
  match secret_key with
  | None => BB_ERR BB_ERR_DB
  | Some k => BB_OK (hash_from_seed (fold k))
  end.

(** ** transport.c: the voter's channel *)

(** A connected secure session, as the transport uses it. *)
Class Channel (N : Type) := {
  chan_send : list Z -> N -> session_err * N;
  chan_recv : Z -> N -> session_err * list Z * N
}.

Section voter.
Context {N : Type} `{!Channel N}.

(** [ctx->transport]: [NULL], or the session and whether it is still good. *)
Record bcl_transport := mkTransport { t_connected : bool; t_session : N }.
Definition bcl_ctx : Type := option bcl_transport.

Definition TRANSPORT_MAX : Z := 65536.

(** The code [bcl_send] returns, the response, and the transport after it.  Only a
    response that was decoded is returned; nobody reads another. *)
Definition send_via_session (ctx : bcl_ctx) (req : bcl_request) : bb_code * bcl_response * bcl_ctx :=
  match ctx with
  | None => (BB_ERR BB_ERR_DB, zero_response, ctx)
  | Some t =>
      if negb (t_connected t) then (BB_ERR BB_ERR_DB, zero_response, ctx)
      else
        match bcl_encode_request req (Z.to_nat TRANSPORT_MAX) with
        | None => (BB_ERR BB_ERR_DB, zero_response, ctx)
        | Some wire =>
            match chan_send wire (t_session t) with
            | (SESSION_OK, n) =>
                match chan_recv TRANSPORT_MAX n with
                | (SESSION_OK, rbuf, n) =>
                    let ctx := Some (mkTransport true n) in
                    match htttp_parse_response rbuf with
                    | Err _ => (BB_ERR BB_ERR_DB, zero_response, ctx)
                    | Ok http =>
                        match bcl_decode_response http with
                        | None => (BB_ERR BB_ERR_DB, zero_response, ctx)
                        | Some resp => (p_status resp, resp, ctx)
                        end
                    end
                | (SESSION_ERR_IO, _, n) | (SESSION_ERR_TOOBIG, _, n) =>
                    (BB_ERR BB_ERR_DB, zero_response, Some (mkTransport false n))
                | (_, _, n) => (BB_ERR BB_ERR_DB, zero_response, Some (mkTransport true n))
                end
            | (_, n) => (BB_ERR BB_ERR_DB, zero_response, Some (mkTransport false n))
            end
        end
  end.

(** [(rc != BB_OK) ? rc : resp.status]. *)
Definition final_status (rc : bb_code) (resp : bcl_response) : bb_code :=
  match rc with BB_OK _ => p_status resp | BB_ERR _ => rc end.

(** ** voter.c: the session flows *)

Definition bu_join (ctx : bcl_ctx) (session : option bu_session) (election_id cert_name : option (list Z))
    : bu_join_outcome * option bu_session * bcl_ctx :=
  match session, election_id, cert_name with
  | Some s, Some election_id, Some cert_name =>
      let req := mkBclRequest BCL_JOIN (trunc BB_CERT_LEN cert_name) (trunc BB_ID_LEN election_id) zero_ballot [] zero_config in
      let '(rc, resp, ctx) := send_via_session ctx req in
      let status := final_status rc resp in
      let e := p_election resp in
      let outcome := bu_classify_join status (Some e) in
      (outcome,
       Some match outcome with
            | BU_JOIN_ADMITTED =>
                mkBuSession (trunc BB_CERT_LEN cert_name) true (trunc BB_ID_LEN election_id) (p_has_prior_ballot resp)
                  (p_prior_ballot_version resp) [] (trunc BB_TITLE_LEN (e_title e)) (e_options e) (e_option_count e)
            | BU_JOIN_NOT_OPEN =>
                mkBuSession (v_cert_name s) false (trunc BB_ID_LEN election_id) (v_has_ballot s) (v_ballot_version s)
                  (v_my_hash s) (v_title s) (v_options s) (v_option_count s)
            | _ => s
            end, ctx)
  | _, _, _ => (BU_JOIN_NOT_FOUND, session, ctx)
  end.

Definition vote_request (op : bcl_op) (s : bu_session) (b : bb_ballot) : bcl_request :=
  mkBclRequest op (trunc BB_CERT_LEN (v_cert_name s)) (trunc BB_ID_LEN (v_election_id s))
    (mkBallot (trunc BB_CERT_LEN (v_cert_name s)) (b_nonce b) (b_payload b) (b_payload_len b)) [] zero_config.

Definition bu_submit_vote (ctx : bcl_ctx) (session : option bu_session) (option_index : Z) (nonce : option (list Z))
    : bb_result bb_receipt * option bu_session * bcl_ctx :=
  match session, nonce with
  | Some s, Some nonce =>
      let submit op :=
        match bu_encrypt_ballot option_index (Some nonce) with
        | BB_ERR e => (BB_ERR e, session, ctx)
        | BB_OK b =>
            let '(rc, resp, ctx) := send_via_session ctx (vote_request op s b) in
            match final_status rc resp with
            | BB_ERR e => (BB_ERR e, session, ctx)
            | BB_OK _ =>
                (BB_OK (p_receipt resp),
                 Some (mkBuSession (v_cert_name s) (v_joined s) (v_election_id s) 1 (v_ballot_version s + 1)
                         (trunc BB_HASH_LEN (rc_hash (p_receipt resp))) (v_title s) (v_options s) (v_option_count s)), ctx)
            end
        end in
      match bu_route_vote session with
      | BU_MUST_JOIN => (BB_ERR BB_ERR_NOT_JOINED, session, ctx)
      | BU_UPDATE => submit BCL_UPDATE
      | BU_CAST => submit BCL_CAST
      end
  | _, _ => (BB_ERR BB_ERR_NOT_JOINED, session, ctx)
  end.
End voter.
