(* ===== verification/ClientTheorems.v ===== *)
(** * ClientTheorems: the operator's lists and the voter's decisions

    What ballotbox/src/libballotclient does to an eligibility list before it is sent,
    and that the voter's session moves only on the daemon's word. *)

From Stdlib Require Import String.
From stdpp Require Import options.
From S2P Require Import Prelude Name Text Htttp BallotTypes BallotDb Codec Tetrissh BallotClient.
#[local] Open Scope Z_scope.

(** ** Folding and deduplicating names *)

Definition fold_name (s : list Z) : list Z := fold_char <$> s.

(** The first occurrence of each element, in order: what the two loops compute. *)
Definition firsts {A} `{EqDecision A} (l : list A) : list A :=
  foldl (fun acc x => if bool_decide (x ∈ acc) then acc else acc ++ [x]) [] l.

Lemma firsts_from {A} `{EqDecision A} (l acc : list A) :
  NoDup acc ->
  let r := foldl (fun acc x => if bool_decide (x ∈ acc) then acc else acc ++ [x]) acc l in
  NoDup r /\ forall x, x ∈ r <-> x ∈ acc \/ x ∈ l.
Proof.
  revert acc. induction l as [|y l IH]; intros acc Hd; simpl; [split; [done|set_solver]|].
  case_bool_decide as Hy.
  - destruct (IH acc Hd) as [Hn Hm]. split; [done|]. intros x. rewrite Hm. set_solver.
  - destruct (IH (acc ++ [y])) as [Hn Hm].
    + apply NoDup_app. split_and!; [done|set_solver|apply NoDup_singleton].
    + split; [done|]. intros x. rewrite Hm. set_solver.
Qed.

Lemma aget_middle {A} (d : A) pre x post : aget d (pre ++ x :: post) (Z.of_nat (length pre)) = x.
Proof. by rewrite aget_nat, lookup_app_r, Nat.sub_diag by lia. Qed.

Lemma aset_middle {A} (pre : list A) x y post : aset (pre ++ x :: post) (Z.of_nat (length pre)) y = pre ++ y :: post.
Proof. by rewrite aset_nat, insert_app_r_alt, Nat.sub_diag by lia. Qed.

Lemma fold_name_short s : user_name_ok s = true -> trunc BB_CERT_LEN (fold_name s) = fold_name s.
Proof.
  intros [Hok _]%andb_true_iff. apply trunc_id. unfold fold_name. rewrite length_fmap.
  apply negb_true_iff, orb_false_iff in Hok as [_ Hok%Nat.ltb_ge]. unfold USER_NAME_MAX, MAX_NAME, BB_CERT_LEN in *. lia.
Qed.

Lemma fold_loop_spec l pre post :
  let '(out, bad) := fold_loop (length l) (Z.of_nat (length pre)) (pre ++ l ++ post) in
  match bad with
  | None => Forall (fun s => user_name_ok s = true) l /\ out = pre ++ (fold_name <$> l) ++ post
  | Some s => exists i, l !! i = Some s /\ user_name_ok s = false /\ Forall (fun s => user_name_ok s = true) (take i l)
  end.
Proof.
  revert pre. induction l as [|x l IH]; intros pre; [by split; [constructor|]|].
  cbn [length fold_loop app]. rewrite aget_middle. unfold user_name_fold.
  destruct (user_name_ok x) eqn:Hx; [|by exists 0%nat].
  change ((BB_CERT_LEN <? MAX_NAME)%nat || negb true) with false. cbn [negb orb].
  change (fold_char <$> x) with (fold_name x). rewrite fold_name_short, aset_middle by done.
  specialize (IH (pre ++ [fold_name x])). rewrite length_app in IH. cbn [length] in IH.
  replace (Z.of_nat (length pre + 1)) with (Z.of_nat (length pre) + 1) in IH by lia. rewrite <- app_assoc in IH.
  cbn [app] in IH. destruct (fold_loop _ _ _) as [out [s|]].
  - destruct IH as (i & Hi & Hs & Ht). exists (S i). split_and!; [done|done|]. cbn [take]. by constructor.
  - destruct IH as [Hall ->]. split; [by constructor|]. by rewrite <- app_assoc.
Qed.

Lemma dedup_loop_spec l acc junk post :
  Forall (fun s => (length s < BB_CERT_LEN)%nat) l ->
  let '(out, kept) := dedup_loop (length l) (Z.of_nat (length (acc ++ junk))) (Z.of_nat (length acc)) (acc ++ junk ++ l ++ post) in
  exists rest, out = foldl (fun acc x => if bool_decide (x ∈ acc) then acc else acc ++ [x]) acc l ++ rest /\
    kept = Z.of_nat (length (foldl (fun acc x => if bool_decide (x ∈ acc) then acc else acc ++ [x]) acc l)) /\
    length out = length (acc ++ junk ++ l ++ post).
Proof.
  revert acc junk. induction l as [|x l IH]; intros acc junk Hl; [by exists (junk ++ post)|].
  apply Forall_cons in Hl as [Hx Hl]. cbn [length dedup_loop app foldl].
  assert (Hget : aget [] (acc ++ junk ++ x :: l ++ post) (Z.of_nat (length (acc ++ junk))) = x)
    by (rewrite app_assoc; apply aget_middle).
  rewrite Hget.
  assert (Hdup : existsb (fun j => bool_decide (aget [] (acc ++ junk ++ x :: l ++ post) j = x)) (range (Z.of_nat (length acc)))
    = bool_decide (x ∈ acc)).
  { apply eq_bool_prop_intro. rewrite !Is_true_true, existsb_exists, bool_decide_eq_true. split.
    - intros (j & Hj%list_elem_of_In%elem_of_range & <-%bool_decide_eq_true).
      replace j with (Z.of_nat (Z.to_nat j)) by lia. rewrite aget_nat, lookup_app_l by lia.
      destruct (lookup_lt_is_Some_2 acc (Z.to_nat j)) as [y Hy]; [lia|]. rewrite Hy. by apply list_elem_of_lookup_2 in Hy.
    - intros [j Hj]%list_elem_of_lookup_1. pose proof (lookup_lt_Some _ _ _ Hj). exists (Z.of_nat j).
      rewrite <- list_elem_of_In, elem_of_range, bool_decide_eq_true, aget_nat, lookup_app_l, Hj by lia. split; [lia|done]. }
  rewrite Hdup. case_bool_decide as Hin.
  - specialize (IH acc (junk ++ [x]) Hl). rewrite app_assoc, length_app in IH. cbn [length] in IH.
    replace (Z.of_nat (length (acc ++ junk) + 1)) with (Z.of_nat (length (acc ++ junk)) + 1) in IH by lia.
    rewrite <- !app_assoc in IH. exact IH.
  - rewrite trunc_id by done. destruct junk as [|y junk].
    + rewrite app_nil_r, Z.eqb_refl. specialize (IH (acc ++ [x]) [] Hl). rewrite app_nil_r, length_app in IH. cbn [length] in IH.
      replace (Z.of_nat (length acc + 1)) with (Z.of_nat (length acc) + 1) in IH by lia.
      cbn [app] in *. rewrite <- app_assoc in IH. exact IH.
    + rewrite (proj2 (Z.eqb_neq _ _)) by (rewrite length_app; simpl; lia). cbn [app]. rewrite aset_middle.
      specialize (IH (acc ++ [x]) (junk ++ [x]) Hl).
      assert (E1 : Z.of_nat (length ((acc ++ [x]) ++ junk ++ [x])) = Z.of_nat (length (acc ++ y :: junk)) + 1)
        by (rewrite !length_app; simpl; lia).
      assert (E2 : Z.of_nat (length (acc ++ [x])) = Z.of_nat (length acc) + 1) by (rewrite length_app; simpl; lia).
      rewrite E1, E2, <- !app_assoc in IH. cbn [app] in IH. destruct (dedup_loop _ _ _ _) as [out kept].
      destruct IH as (rest & Ho & Hk & Hlen). exists rest. split_and!; [done|done|]. by rewrite Hlen, !length_app.
Qed.

(** The eligibility list that is sent.  [bc_fold_eligible] either stops at the
    first entry that is not a legal name, which it reports, or leaves in front of the
    array the names in lower case with every name once, in the order of their first
    occurrences, and nothing lost: for each name entered there is exactly one vote. *)
Theorem fold_eligible_dedups names post :
  let '(out, r) := bc_fold_eligible (names ++ post) (Z.of_nat (length names)) in
  match r with
  | inr kept =>
      Forall (fun s => user_name_ok s = true) names /\ length out = length (names ++ post) /\
      take (Z.to_nat kept) out = firsts (fold_name <$> names) /\ kept = Z.of_nat (length (firsts (fold_name <$> names))) /\
      NoDup (firsts (fold_name <$> names)) /\ (forall s, s ∈ firsts (fold_name <$> names) <-> s ∈ fold_name <$> names)
  | inl bad => exists i, names !! i = Some bad /\ user_name_ok bad = false /\ Forall (fun s => user_name_ok s = true) (take i names)
  end.
Proof.
  unfold bc_fold_eligible. rewrite Nat2Z.id. pose proof (fold_loop_spec names [] post) as Hf. cbn [length app] in Hf.
  change (Z.of_nat 0) with 0 in Hf. destruct (fold_loop _ _ _) as [out [bad|]]; [done|]. destruct Hf as [Hall ->].
  pose proof (dedup_loop_spec (fold_name <$> names) [] [] post) as Hd. cbn [length app] in Hd.
  rewrite length_fmap in Hd. change (Z.of_nat 0) with 0 in Hd. destruct (dedup_loop _ _ _ _) as [out kept].
  destruct Hd as (rest & -> & -> & Hlen).
  { apply Forall_fmap. eapply Forall_impl; [exact Hall|]. intros s Hs. cbn. rewrite <- fold_name_short by done.
    apply length_trunc. unfold BB_CERT_LEN. lia. }
  destruct (firsts_from (fold_name <$> names) []) as [Hn Hm]; [constructor|]. cbv zeta in *. fold (firsts (fold_name <$> names)) in *.
  split_and!; [done| | |done|done|].
  - rewrite Hlen, !length_app, length_fmap. done.
  - by rewrite Nat2Z.id, take_app_length.
  - intros s. rewrite Hm. set_solver.
Qed.
