(* ===== verification/CodecSends.v ===== *)
(** * CodecSends: messages that do go out

    The other direction of the codec's round trips: requests and responses with
    printable names and values without line breaks are not refused by
    ballotbox/src/libballotclient/codec.c or by the serializers underneath it. *)

From Stdlib Require Import String.
From stdpp Require Import options.
From S2P Require Import Prelude Text Htttp HtttpTheorems HtttpSends BallotTypes BallotDb Codec CodecTheorems CodecResponse.
#[local] Open Scope Z_scope.

(** ** The serializers *)

Lemma emit_body_ok cap out text b n :
  body_fits text -> message_body text = (b, n) -> (length out + length text + 64 <= cap)%nat ->
  exists wire, emit_body cap out b n = Ok wire.
Proof.
  unfold body_fits, CODEC_BODY_MAX. intros Hfits Hm Hl. unfold message_body in Hm. unfold emit_body.
  destruct (Nat.ltb_spec 0 (length text)) as [Hpos|Hzero]; injection Hm as <- <-.
  - rewrite (proj2 (Z.ltb_lt _ _)) by lia. destruct (decimal_digits (Z.of_nat (length text))) as (_ & _ & Hd);
      [unfold UINT32_MAX; lia|]. rewrite (proj2 (Nat.leb_gt _ _)) by lia.
    rewrite emit_header_ok by (change (length CONTENT_LENGTH) with 14%nat; lia). cbn [mbind res_bind].
    rewrite buf_append_ok by (rewrite !length_app; change (length CONTENT_LENGTH) with 14%nat; simpl; lia). cbn [mbind res_bind].
    rewrite Nat2Z.id. cbn [default]. rewrite firstn_all.
    rewrite buf_append_ok by (rewrite !length_app; change (length CONTENT_LENGTH) with 14%nat; simpl; lia). eauto.
  - cbn [Z.ltb Z.compare mbind res_bind]. rewrite buf_append_ok by (simpl; lia). cbn [mbind res_bind]. eauto.
Qed.

Definition printable (s : list Z) : Prop := valid_field s true = true.

Lemma emit_cert_ok cap out cert :
  printable cert -> (length cert < BB_CERT_LEN)%nat -> (length out + 64 <= cap)%nat ->
  exists out', emit_headers cap out (cert_headers cert) false = Ok out' /\ (length out' <= length out + 48)%nat.
Proof.
  intros Hp Hl Hc. unfold cert_headers. case_bool_decide as Hn; [exists out; split; [done|lia]|].
  unfold emit_headers. change (HTTTP_MAX_HEADERS <? length [mkHeader CERT_NAME cert])%nat with false. cbv iota.
  cbn [emit_headers_loop]. change (ci_eq (key (mkHeader CERT_NAME cert)) CONTENT_LENGTH) with false.
  cbn [andb]. rewrite bool_decide_false by done. cbn [key value].
  change (valid_field CERT_NAME false) with true. rewrite Hp. cbn [negb orb].
  unfold BB_CERT_LEN in Hl. change (length CERT_NAME) with 9%nat || idtac.
  rewrite emit_header_ok by (change (length CERT_NAME) with 9%nat; lia). cbn [mbind res_bind].
  eexists. split; [reflexivity|]. rewrite !length_app. change (length CERT_NAME) with 9%nat. simpl. lia.
Qed.

Lemma valid_field_chars s c : forallb (fun c => ((33 <=? c) && (c <=? 126)) || (true && (c =? SP))) s = true -> c ∈ s -> 32 <= c <= 126.
Proof. rewrite forallb_forall. intros H Hc%list_elem_of_In%H. unfold SP in Hc. lia. Qed.

Lemma cert_headers_go cert :
  printable cert -> (length cert < BB_CERT_LEN)%nat ->
  (if bool_decide (cert = []) then Some []
   else match htttp_header_set [] CERT_NAME cert with Ok hs => Some hs | Err _ => None end) = Some (cert_headers cert).
Proof.
  intros Hp Hl. unfold cert_headers. case_bool_decide as Hn; [done|]. unfold htttp_header_set.
  rewrite bool_decide_false by done. change (valid_field CERT_NAME false) with true. rewrite Hp. cbn [negb orb length].
  change (or_err HTTTP_ERR_TOOLONG (copy_token HTTTP_MAX_KEY CERT_NAME)) with (Ok CERT_NAME).
  rewrite (proj2 (Nat.leb_gt _ _)) by (vm_compute; lia). cbn [mbind res_bind]. unfold copy_token.
  rewrite (proj2 (Nat.leb_gt _ _)) by (unfold HTTTP_MAX_VALUE, BB_CERT_LEN in *; lia).
  rewrite bool_decide_false; [done|]. intros H0. apply (valid_field_chars _ _ Hp) in H0. lia.
Qed.

(** A request whose body was written goes out. *)
Lemma request_encodes q p b cap :
  9000 <= Z.of_nat cap -> bcl_request_ok q -> printable (q_cert_name q) -> request_parts q = Some (p, b) -> p <> [] -> valid_field p false = true ->
  exists wire, bcl_encode_request q cap = Some wire.
Proof.
  intros Hcap Hq Hcert Hparts Hp Hv. pose proof (request_parts_fits _ _ _ Hparts) as Hfits. unfold bcl_encode_request.
  assert (Hm : exists m, method_from_op (q_op q) = Some m /\ valid_field m false = true /\ (0 < length m < HTTTP_MAX_METHOD)%nat).
  { destruct (q_op q); eexists; (split; [reflexivity|]); vm_compute; split_and!; (reflexivity || lia). }
  destruct Hm as (m & Hm & Hmv & Hml). rewrite Hm, Hparts. cbn [mbind option_bind].
  destruct (ro_cert q Hq) as [Hcl _]. rewrite cert_headers_go by done. cbn [mbind option_bind].
  destruct (message_body b) as [mb mn] eqn:Hmb.
  apply (request_parts_inv q) in Hparts as (_ & _ & _ & Hplen); [|done]. rewrite !(trunc_id _ m), !(trunc_id _ p) by lia.
  unfold htttp_serialize_request. cbn [body body_len method path headers].
  destruct (message_body_parts b Hfits) as (mb' & mn' & E & _ & Hlen & _). rewrite Hmb in E. injection E as <- <-.
  rewrite (bool_decide_false (m = [])), (bool_decide_false (p = [])) by (try done; intros ->; simpl in Hml; lia).
  rewrite Hmv, Hv. cbn [negb orb]. unfold HTTTP_MAX_METHOD, HTTTP_MAX_PATH in *.
  assert (Hnone : bool_decide (mb = None) && (0 <? mn) = false).
  { destruct mb; [by rewrite bool_decide_false by done|]. cbn in Hlen. subst mn. by rewrite andb_false_r. }
  rewrite Hnone.
  do 6 (rewrite buf_append_ok by (rewrite ?length_app; simpl; lia); cbn [mbind res_bind]).
  match goal with |- context [emit_headers cap ?o _ _] => set (out := o) end.
  assert (Hout : (length out <= 300)%nat) by (unfold out; rewrite !length_app; simpl; lia).
  destruct (emit_cert_ok cap out (q_cert_name q)) as (out' & -> & Hl'); [done|done|lia|]. cbn [mbind res_bind].
  unfold body_fits, CODEC_BODY_MAX in Hfits.
  destruct (emit_body_ok cap out' b mb mn) as [wire ->]; [done|done|lia|]. by exists wire.
Qed.

(** A response whose body was written goes out. *)
Lemma response_encodes date op p name b0 b1 cap :
  9000 <= Z.of_nat cap -> date_ok date -> name_from_result (p_status p) = Some name ->
  body_append [] (field_str "status" name) = Some b0 -> response_body op p b0 = Some b1 ->
  exists wire, bcl_encode_response (Some date) op p cap = Some wire.
Proof.
  intros Hcap [Hdv Hdl] Hname Hb0 Hb1. unfold bcl_encode_response. rewrite Hname. cbn [mbind option_bind].
  rewrite Hb0. cbn [mbind option_bind]. rewrite Hb1. cbn [mbind option_bind].
  pose proof (response_body_fits op p b0 b1 (body_append_fits _ _ _ Hb0) Hb1) as Hfits.
  destruct (message_body b1) as [mb mn] eqn:Hmb. unfold htttp_serialize_response. cbn [res_body res_body_len status res_headers].
  destruct (message_body_parts b1 Hfits) as (mb' & mn' & E & _ & Hlen & _). rewrite Hmb in E. injection E as <- <-.
  assert (Hnone : bool_decide (mb = None) && (0 <? mn) = false).
  { destruct mb; [by rewrite bool_decide_false by done|]. cbn in Hlen. subst mn. by rewrite andb_false_r. }
  rewrite Hnone.
  assert (Hr : exists reason, htttp_reason (bcl_http_status (p_status p)) = Some reason /\ (length reason <= 32)%nat /\
    (length (decimal (bcl_http_status (p_status p))) <= 3)%nat).
  { destruct (p_status p) as [|[]]; eexists; (split; [reflexivity|]); vm_compute; lia. }
  destruct Hr as (reason & -> & Hrl & Hst). rewrite (proj2 (Nat.leb_gt _ _)) by lia.
  do 6 (rewrite buf_append_ok by (rewrite ?length_app; simpl; lia); cbn [mbind res_bind]).
  rewrite emit_header_ok by (rewrite !length_app; simpl; lia). cbn [mbind res_bind].
  match goal with |- context [emit_headers cap ?o _ _] => set (out := o) end.
  assert (Hout : (length out <= 128)%nat) by (unfold out; rewrite !length_app; simpl; lia).
  change (emit_headers cap out [] true) with (Ok out). cbn [mbind res_bind]. unfold body_fits, CODEC_BODY_MAX in Hfits.
  destruct (emit_body_ok cap out b1 mb mn) as [wire ->]; [done|done|lia|]. by exists wire.
Qed.

(** ** Ballots *)

Lemma stray_break_unbroken s : unbroken s -> stray_break (s ++ [LF]) = false.
Proof.
  unfold unbroken. induction s as [|c s IH]; simpl; [done|]. rewrite !not_elem_of_cons. intros [[Hcr Hs1] [Hlf Hs2]].
  rewrite (proj2 (Z.eqb_neq c CR)), (proj2 (Z.eqb_neq c LF)) by congruence. simpl. by apply IH.
Qed.

Lemma append_field_ok out k v :
  unbroken (bytes k) -> unbroken v -> Z.of_nat (length out) + Z.of_nat (length (field_str k v)) < CODEC_BODY_MAX ->
  body_append out (field_str k v) = Some (out ++ field_str k v).
Proof.
  intros Hk Hv Hl. unfold body_append. rewrite (proj2 (Z.leb_gt _ _)) by lia.
  assert (stray_break (field_str k v) = false) as ->; [|done]. unfold field_str, field.
  replace (bytes k ++ [61] ++ v ++ [LF]) with ((bytes k ++ [61] ++ v) ++ [LF]) by (by rewrite <- !app_assoc).
  apply stray_break_unbroken. rewrite !unbroken_app. split_and!; [done| |done]. split; by apply not_elem_of_cons; split; [|apply not_elem_of_nil].
Qed.

Lemma unbroken_lit s : bool_decide ((CR ∉ s) /\ (LF ∉ s)) = true -> unbroken s.
Proof. by rewrite bool_decide_eq_true. Qed.

Lemma valid_path_id id : valid_field id false = true -> valid_field (ELECTION_PREFIX ++ id ++ bytes "/ballot") false = true.
Proof. intros Hv. unfold valid_field in *. by rewrite !forallb_app, Hv. Qed.

(** What a ballot needs to be sent: printable names and a nonce on one line. *)
Lemma ballot_parts q :
  bcl_request_ok q -> q_op q = BCL_CAST \/ q_op q = BCL_UPDATE -> valid_field (q_election_id q) false = true ->
  unbroken (b_nonce (q_ballot q)) ->
  exists p b, request_parts q = Some (p, b) /\ p <> [] /\ valid_field p false = true.
Proof.
  intros Hq Hop Hid Hn. destruct (ro_nonce q Hq) as [Hnl _]. destruct (ro_id q Hq) as [Hil _].
  pose proof (ro_payload_len q Hq) as Hpl. unfold BB_NONCE_LEN, BB_ID_LEN, BB_CIPHERTEXT_MAX in *.
  assert (H1 : body_append [] (field_str "nonce" (b_nonce (q_ballot q))) = Some ([] ++ field_str "nonce" (b_nonce (q_ballot q)))).
  { apply append_field_ok; [apply unbroken_lit; vm_compute; reflexivity|done|]. unfold field_str, field, CODEC_BODY_MAX.
    rewrite !length_app. simpl. lia. }
  assert (H2 : hex_encode (b_payload (q_ballot q)) (b_payload_len (q_ballot q)) (Z.of_nat 256 * 2 + 1) =
    Some (hex_text (first_n 0 (b_payload (q_ballot q)) (b_payload_len (q_ballot q))))).
  { unfold hex_encode. rewrite (proj2 (Z.ltb_ge _ _)) by lia. unfold hex_text, first_n. by rewrite <- list_fmap_compose. }
  assert (H3 : body_append ([] ++ field_str "nonce" (b_nonce (q_ballot q)))
      (field_str "payload" (hex_text (first_n 0 (b_payload (q_ballot q)) (b_payload_len (q_ballot q))))) =
    Some (([] ++ field_str "nonce" (b_nonce (q_ballot q))) ++
      field_str "payload" (hex_text (first_n 0 (b_payload (q_ballot q)) (b_payload_len (q_ballot q)))))).
  { apply append_field_ok; [apply unbroken_lit; vm_compute; reflexivity| |].
    - apply hex_text_clean, Forall_first_n; [apply (ro_payload q Hq)|]. unfold byte_ok. lia.
    - unfold field_str, field, CODEC_BODY_MAX. rewrite !length_app, length_hex_text, length_first_n. simpl. lia. }
  exists (trunc HTTTP_MAX_PATH (ELECTION_PREFIX ++ q_election_id q ++ bytes "/ballot")).
  eexists. split; [|split].
  - unfold request_parts, BB_CIPHERTEXT_MAX. destruct Hop as [-> | ->]; rewrite H1; cbn [mbind option_bind]; rewrite H2;
      cbn [mbind option_bind]; rewrite H3; reflexivity.
  - done.
  - rewrite trunc_id; [by apply valid_path_id|]. unfold HTTTP_MAX_PATH. rewrite !length_app. simpl. lia.
Qed.

(** A receipt as the daemon issues them. *)
Record receipt_clean (rc : bb_receipt) : Prop := {
  rcl_hash : cstring BB_HASH_LEN (rc_hash rc);
  rcl_hash_line : unbroken (rc_hash rc);
  rcl_time : cstring BB_TIME_LEN (rc_issued_at rc);
  rcl_time_line : unbroken (rc_issued_at rc)
}.

Lemma status_line st name : name_from_result st = Some name ->
  body_append [] (field_str "status" name) = Some (field_str "status" name) /\ (length (field_str "status" name) <= 64)%nat.
Proof. destruct st as [[]|[]]; intros H; vm_compute in H; try done; apply (inj Some) in H as <-; (split; [vm_compute; reflexivity|vm_compute; lia]). Qed.

(** The answer to a ballot goes out, whatever the result and the receipt in it. *)
Lemma ballot_answer_encodes date op p name cap :
  9000 <= Z.of_nat cap -> date_ok date -> op = BCL_CAST \/ op = BCL_UPDATE ->
  name_from_result (p_status p) = Some name -> receipt_clean (p_receipt p) ->
  exists wire, bcl_encode_response (Some date) op p cap = Some wire.
Proof.
  intros Hcap Hd Hop Hname [[Hhl _] Hh [Hil _] Hi]. unfold BB_HASH_LEN, BB_TIME_LEN in *.
  destruct (status_line _ _ Hname) as [H0 Hsl]. set (status_text := field_str "status" name) in *.
  set (h := rc_hash (p_receipt p)) in *. set (t := rc_issued_at (p_receipt p)) in *.
  assert (Hst : (length status_text <= 64)%nat) by done.
  destruct (decide (h = [])) as [Hn|Hn].
  { eapply response_encodes; [done|done|done|exact H0|]. unfold response_body. fold h.
    destruct Hop as [-> | ->]; by rewrite bool_decide_true by done. }
  assert (H1 : body_append status_text (field_str "hash" h) = Some (status_text ++ field_str "hash" h)).
  { apply append_field_ok; [apply unbroken_lit; vm_compute; reflexivity|done|]. unfold CODEC_BODY_MAX.
    clearbody status_text. unfold field_str, field. rewrite !length_app. simpl. lia. }
  assert (H2 : body_append (status_text ++ field_str "hash" h) (field_str "issued_at" t) =
    Some ((status_text ++ field_str "hash" h) ++ field_str "issued_at" t)).
  { apply append_field_ok; [apply unbroken_lit; vm_compute; reflexivity|done|]. unfold CODEC_BODY_MAX.
    clearbody status_text. rewrite length_app. unfold field_str, field. rewrite !length_app. simpl. lia. }
  eapply response_encodes; [done|done|done|exact H0|]. unfold response_body. fold h t.
  destruct Hop as [-> | ->]; rewrite bool_decide_false by done; rewrite H1; cbn [mbind option_bind]; exact H2.
Qed.

Lemma cstring_empty cap : (0 < cap)%nat -> cstring cap [].
Proof. intros Hc. split; [done|apply not_elem_of_nil]. Qed.

Lemma int_ok_0 : int_ok 0.
Proof. unfold int_ok, INT_MIN, INT_MAX. lia. Qed.

Lemma ballot_answer_ok st rc : receipt_clean rc -> bcl_response_ok (set_receipt rc (set_status st zero_response)).
Proof.
  intros [Hh _ Ht _]. pose proof int_ok_0.
  split; cbn [set_receipt set_status zero_response zero_election p_election p_has_prior_ballot p_prior_ballot_version p_receipt
    p_tally p_option_count p_options p_hashes p_hash_count p_found p_found_option p_found_option_name e_id e_title e_open_time
    e_close_time e_options e_option_count rc_hash rc_issued_at]; try done; try (by apply cstring_empty; vm_compute; lia).
  all: try (apply Forall_replicate; (apply cstring_empty; vm_compute; lia) || done).
Qed.
