(* ===== verification/VoteTheorems.v ===== *)
(** * VoteTheorems: a vote from the voter's session to the store and back

    BallotClient, Codec, Ballotd and Ballot put together: what [bu_submit_vote] of
    ballotbox/src/libballotclient/voter.c tells the voter is what happened in the
    daemon's store, when the link delivers. *)

From Stdlib Require Import String.
From stdpp Require Import options.
From S2P Require Import Prelude Text Htttp HtttpTheorems BallotTypes BallotDb Ballot BallotSim BallotInv.
From S2P Require Import BallotSteps BallotSql BallotSqlLaws BallotTheorems Codec CodecTheorems CodecResponse.
From S2P Require Import CodecSends Ballotd BallotdTheorems Tetrissh BallotClient.
#[local] Open Scope Z_scope.

(** ** The size of what is sent *)

Lemma buf_append_le cap out src o : buf_append cap out src = Ok o -> (length out <= cap)%nat -> (length o <= cap)%nat.
Proof.
  unfold buf_append. destruct (length src =? 0)%nat; [by intros [= <-]|].
  destruct (Nat.ltb_spec (cap - length out) (length src)); [done|]. intros [= <-] Hl. rewrite length_app. lia.
Qed.

Lemma res_bind_ok {A B} (m : res A) (f : A -> res B) b : (m ≫= f) = Ok b -> exists a, m = Ok a /\ f a = Ok b.
Proof. destruct m as [a|e]; [|done]. cbn. eauto. Qed.

Ltac bind_steps H := repeat (let o := fresh "o" in let E := fresh "E" in apply res_bind_ok in H as (o & E & H)).

Lemma emit_header_le cap out k v o : emit_header cap out k v = Ok o -> (length out <= cap)%nat -> (length o <= cap)%nat.
Proof. intros H Hl. unfold emit_header in H. bind_steps H. eauto using buf_append_le. Qed.

Lemma emit_body_le cap out b n o : emit_body cap out b n = Ok o -> (length out <= cap)%nat -> (length o <= cap)%nat.
Proof.
  intros H Hl. unfold emit_body in H. apply res_bind_ok in H as (o1 & E1 & H). apply res_bind_ok in H as (o2 & E2 & H).
  assert (length o1 <= cap)%nat.
  { destruct (0 <? n); [|by injection E1 as <-]. destruct (16 <=? _)%nat; [done|]. by eapply emit_header_le. }
  eauto using buf_append_le.
Qed.

Lemma encoded_response_le date op p cap wire : bcl_encode_response date op p cap = Some wire -> (length wire <= cap)%nat.
Proof.
  unfold bcl_encode_response. intros (name & _ & H)%bind_Some. apply bind_Some in H as (b0 & _ & H).
  apply bind_Some in H as (b1 & _ & H). destruct (message_body b1) as [b n]. unfold htttp_serialize_response in H.
  cbn [res_body res_body_len res_headers status] in H. destruct (bool_decide (b = None) && (0 <? n)); [done|].
  destruct (htttp_reason _) as [reason|]; [|done]. destruct (8 <=? _)%nat; [done|]. destruct date as [date|]; [|done].
  match type of H with ok_bytes ?m = _ => destruct m as [w|] eqn:E end; [|done]. injection H as ->.
  apply res_bind_ok in E as (o1 & E1 & E). apply res_bind_ok in E as (o2 & E2 & E). apply res_bind_ok in E as (o3 & E3 & E).
  apply res_bind_ok in E as (o4 & E4 & E). apply res_bind_ok in E as (o5 & E5 & E). apply res_bind_ok in E as (o6 & E6 & E).
  apply res_bind_ok in E as (o7 & E7 & E). apply res_bind_ok in E as (o8 & E8 & E).
  assert (Hd : (length o7 <= cap)%nat).
  { eapply emit_header_le; [exact E7|]. do 6 (eapply buf_append_le; [eassumption|]). simpl. lia. }
  change (emit_headers cap o7 [] true) with (Ok o7) in E8. injection E8 as <-. by eapply emit_body_le.
Qed.

(** ** Receipts *)

Lemma hex_digit_range k : 0 <= k -> aget 0 (bytes "0123456789abcdef") (Z.land k 15) ∈ bytes "0123456789abcdef".
Proof.
  intros Hk. change 15 with (Z.ones 4). rewrite Z.land_ones by lia. pose proof (Z.mod_pos_bound k (2 ^ 4)).
  change (2 ^ 4) with 16 in *. set (i := k mod 16) in *. replace i with (Z.of_nat (Z.to_nat i)) by lia.
  rewrite aget_nat. destruct (lookup_lt_is_Some_2 (bytes "0123456789abcdef") (Z.to_nat i)) as [x Hx];
    [change (length (bytes "0123456789abcdef")) with 16%nat; lia|].
  rewrite Hx. by apply list_elem_of_lookup_2 in Hx.
Qed.

Lemma hash_digits_hex n st : Forall (fun c => c ∈ bytes "0123456789abcdef") (hash_digits n st).
Proof.
  revert st. induction n as [|n IH]; intros st; [constructor|]. cbn [hash_digits]. constructor; [|apply IH].
  apply hex_digit_range. apply Z.shiftr_nonneg. pose proof (u32_range (st * 1103515245 + 12345)). lia.
Qed.

Lemma hash_no c n st : c ∉ bytes "0123456789abcdef" -> c ∉ hash_digits n st.
Proof. intros Hc Hin. apply Hc. pose proof (hash_digits_hex n st) as H. rewrite list.Forall_forall in H. by apply H. Qed.

Lemma issued_clean b v rc : bb_issue_receipt b v = BB_OK rc -> receipt_clean rc.
Proof.
  intros [= <-]. split; cbn [rc_hash rc_issued_at]; unfold hash_from_seed.
  - split; [rewrite length_hash_digits; unfold BB_HASH_LEN; lia|]. apply hash_no. by apply (bool_decide_unpack _).
  - split; apply hash_no; by apply (bool_decide_unpack _).
  - by apply cstring_lit.
  - by apply unbroken_lit.
Qed.

Lemma zero_receipt_clean : receipt_clean zero_receipt.
Proof. split; cbn; try (apply cstring_empty; unfold BB_HASH_LEN, BB_TIME_LEN; lia); split; apply not_elem_of_nil. Qed.

Section out.
Context {W : Type} `{!DbExec W, !DbTxn W, !IdAlloc W}.

Lemma bind_world_ok {A B} (m : M W A) (f : A -> M W B) w b w' :
  (m ≫= f) w = (BB_OK b, w') -> exists a w1, m w = (BB_OK a, w1) /\ f a w1 = (BB_OK b, w').
Proof using Type. unfold mbind, M_bind. destruct (m w) as [[a|e] w1]; [eauto|done]. Qed.

Lemma receipt_issued_clean id b w rc w' : receipt_issued id b w = (BB_OK rc, w') -> receipt_clean rc.
Proof using Type.
  unfold receipt_issued. intros H. apply bind_world_ok in H as (e & w1 & _ & H).
  destruct (_ || _); [done|]. destruct (bool_decide _); [done|]. destruct (negb _); [done|].
  apply bind_world_ok in H as (opt & w2 & _ & H). destruct (_ || _); [done|].
  apply bind_world_ok in H as (seen & w3 & _ & H). destruct (r_found seen); [done|].
  apply bind_world_ok in H as (prior & w4 & _ & H). exact (issued_clean _ _ _ (f_equal fst H)).
Qed.

Lemma record_out_clean n id b out w : receipt_clean out -> receipt_clean (record_out n id b out w).
Proof using Type.
  revert out w. induction n as [|n IH]; intros out w Hc; cbn [record_out]; [done|].
  destruct (bb_db_begin w) as [[[]|e] w1]; [|done].
  set (out' := match receipt_issued id b w1 with (BB_OK rc, _) => rc | (BB_ERR _, _) => out end).
  assert (Hc' : receipt_clean out').
  { unfold out'. destruct (receipt_issued id b w1) as [[rc|e] w2] eqn:E; [|done]. by eapply receipt_issued_clean. }
  cbv zeta. destruct (record_ballot_locked id b w1) as [[rc|[]] w2]; try done; [|by apply IH].
  destruct (bb_db_commit w2) as [[[]|[]] w3]; try done. by apply IH.
Qed.
End out.

(** ** A link that delivers *)

(** The daemon at the other end of a voter's channel: its world, and the answer on
    its way. *)
Record daemon_link (W : Type) := mkLink { l_world : W; l_reply : option (list Z) }.
Arguments mkLink {W} _ _.
Arguments l_world {W} _.
Arguments l_reply {W} _.

(** The channel the handshake authenticated as [cert], answered with [date]. *)
Definition link_channel {W} `{!DbExec W, !DbTxn W, !IdAlloc W} (cert date : list Z) : Channel (daemon_link W) := {|
  chan_send buf l := let '(r, w) := handle_request (Some date) cert buf (l_world l) in (SESSION_OK, mkLink w r);
  chan_recv cap l :=
    match l_reply l with
    | None => (SESSION_ERR_IO, [], l)
    | Some b => (if cap <? Z.of_nat (length b) then SESSION_ERR_NOSPACE else SESSION_OK, b, mkLink (l_world l) None)
    end
|}.

(** A voter's session as [bu_join] leaves it, with an id that fits a path. *)
Record session_ok (s : bu_session) : Prop := {
  so_joined : v_joined s = true;
  so_cert : cstring BB_CERT_LEN (v_cert_name s);
  so_cert_text : printable (v_cert_name s);
  so_id : cstring BB_ID_LEN (v_election_id s);
  so_id_text : valid_field (v_election_id s) false = true;
  so_id_path : v_election_id s <> [] /\ (47 ∉ v_election_id s)
}.

(** A result without what came with it. *)
Definition code_of {A} (r : bb_result A) : bb_code := match r with BB_OK _ => BB_OK tt | BB_ERR e => BB_ERR e end.

(** The ballot that reaches the store. *)
Definition sent_ballot (s : bu_session) (option_index : Z) (nonce : list Z) : bb_ballot :=
  mkBallot (v_cert_name s) nonce (option_index :: replicate 255 0) 1.

Section vote.
Context {W : Type} {RN : Runner} `{!DbExec W, !DbTxn W, !IdAlloc W, !StoreLaws W}.
Context (cert date : list Z) (Hdate : date_ok date).
#[local] Instance vote_channel : Channel (daemon_link W) := link_channel cert date.

Lemma vote_request_ok op s k nonce b :
  session_ok s -> cstring BB_NONCE_LEN nonce -> 0 <= k <= 255 -> op = BCL_CAST \/ op = BCL_UPDATE ->
  bu_encrypt_ballot k (Some nonce) = BB_OK b ->
  bcl_request_ok (vote_request op s b) /\ oversized (vote_request op s b) = false /\
  request_seen (vote_request op s b) =
    mkBclRequest op (v_cert_name s) (v_election_id s) (sent_ballot s k nonce) [] zero_config.
Proof using Type.
  intros Hs Hn Hk Hop. unfold bu_encrypt_ballot. rewrite (proj2 (Z.ltb_ge _ _)), (proj2 (Z.ltb_ge _ _)) by lia. cbn [orb].
  rewrite (trunc_id _ nonce) by apply Hn. intros Hb.
  assert (b = mkBallot [] nonce (aset (replicate BB_CIPHERTEXT_MAX 0) 0 k) 1) as -> by congruence. clear Hb.
  assert (Ha : aset (replicate BB_CIPHERTEXT_MAX 0) 0 k = k :: replicate 255 0) by done.
  assert (Hc : trunc BB_CERT_LEN (v_cert_name s) = v_cert_name s) by (apply trunc_id, (so_cert s Hs)).
  assert (Hi : trunc BB_ID_LEN (v_election_id s) = v_election_id s) by (apply trunc_id, (so_id s Hs)).
  unfold vote_request. cbn [b_nonce b_payload b_payload_len]. rewrite Hc, Hi, Ha. split_and!.
  - destruct Hs, Hn. split; cbn [q_op q_cert_name q_election_id q_ballot q_hash q_config b_nonce b_payload b_payload_len
      zero_config cfg_title cfg_open_time cfg_close_time cfg_options cfg_option_count cfg_eligible cfg_eligible_count]; try done;
      try (apply cstring_empty; vm_compute; lia); try (apply Forall_replicate, cstring_empty; vm_compute; lia).
    + by destruct Hop as [-> | ->]; intros [?|?].
    + constructor; [unfold byte_ok; lia|]. apply Forall_replicate. unfold byte_ok. lia.
  - unfold oversized. by destruct Hop as [-> | ->].
  - unfold request_seen. cbn [q_op q_cert_name q_election_id q_ballot b_nonce b_payload b_payload_len]. by destruct Hop as [-> | ->].
Qed.

(** What the daemon answers to that frame: the result, and some receipt. *)
Lemma vote_frame s k nonce op b wire w :
  session_ok s -> cstring BB_NONCE_LEN nonce -> 0 <= k <= 255 -> op = BCL_CAST \/ op = BCL_UPDATE ->
  trunc BB_CERT_LEN cert = v_cert_name s ->
  bu_encrypt_ballot k (Some nonce) = BB_OK b -> bcl_encode_request (vote_request op s b) (Z.to_nat TRANSPORT_MAX) = Some wire ->
  txn_open w = false -> reliable w = true -> db_ok (committed w) ->
  let '(r, w') := bb_record_ballot (Some (v_election_id s)) (Some (sent_ballot s k nonce)) w in
  exists rc reply resp h, receipt_clean rc /\
    handle_request (Some date) cert wire w = (Some reply, w') /\ Z.of_nat (length reply) <= TRANSPORT_MAX /\
    htttp_parse_response reply = Ok h /\ bcl_decode_response h = Some resp /\
    p_status resp = code_of r /\
    match r with BB_OK rc' => rc_hash rc' <> [] -> p_receipt resp = rc' | BB_ERR _ => True end.
Proof using All.
  intros Hs Hn Hk Hop Hcert Hb Hwire Ho Hrel Hd.
  destruct (vote_request_ok op s k nonce b Hs Hn Hk Hop Hb) as (Hok & Hov & Hseen).
  destruct (encoded_request_decodes _ _ _ Hok Hwire) as (h0 & Hparse & Hdec). rewrite Hov, Hseen in Hdec.
  assert (Hdisp : exists rc name, receipt_clean rc /\
    let '(r, w') := bb_record_ballot (Some (v_election_id s)) (Some (sent_ballot s k nonce)) w in
    match r with BB_OK rc' => rc = rc' | BB_ERR _ => True end /\ name_from_result (code_of r) = Some name /\
    ballotd_dispatch (as_voter cert (mkBclRequest op (v_cert_name s) (v_election_id s) (sent_ballot s k nonce) [] zero_config)) w
      = (set_receipt rc (set_status (code_of r) zero_response), w')).
  { pose proof (record_decides (v_election_id s) (sent_ballot s k nonce) w Ho Hrel Hd) as Hr.
    unfold as_voter. cbn [q_op q_election_id q_ballot q_hash q_config b_nonce b_payload b_payload_len sent_ballot]. rewrite Hcert.
    fold (sent_ballot s k nonce) in *. unfold ballotd_dispatch. cbn [q_op q_election_id q_ballot].
    destruct (bb_record_ballot _ _ w) as [r w'] eqn:E. destruct Hr as (_ & _ & Hr).
    destruct (refusal _ _ _) as [e|] eqn:Href.
    - destruct Hr as [-> _]. assert (Hname : exists name, name_from_result (BB_ERR e) = Some name).
      { unfold refusal in Href. repeat case_match; simplify_eq; eexists; vm_compute; reflexivity. }
      destruct Hname as [name Hname]. exists (record_out BB_TXN_ATTEMPTS (v_election_id s) (sent_ballot s k nonce) zero_receipt w), name.
      split; [apply record_out_clean, zero_receipt_clean|]. split_and!; [done|done|]. by destruct Hop as [-> | ->].
    - destruct Hr as (prior & _ & _ & -> & _). eexists _, _. split; [by eapply (issued_clean (sent_ballot s k nonce))|].
      split_and!; [reflexivity|vm_compute; reflexivity|]. by destruct Hop as [-> | ->]. }
  destruct Hdisp as (rc & name & Hclean & Hdisp). destruct (bb_record_ballot _ _ w) as [r w']. cbv zeta in Hdisp.
  destruct Hdisp as (Hrc & Hname & Hdisp). set (st := code_of r) in *.
  destruct (ballot_answer_encodes date op (set_receipt rc (set_status st zero_response)) name (Z.to_nat 65536))
    as [reply Hreply]; [lia|done|done|done|done|].
  pose proof (encoded_response_le _ _ _ _ _ Hreply) as Hle.
  destruct (encoded_response_decodes _ _ _ _ _ (ballot_answer_ok st rc Hclean) Hdate Hreply) as (h & Hh & _ & Hresp).
  eexists rc, reply, _, h. split; [done|]. split_and!; [|unfold TRANSPORT_MAX; lia|done|exact Hresp| |].
  - unfold handle_request. rewrite Hparse, Hdec. cbn [q_op].
    assert (is_voter_op op = true) as -> by (by destruct Hop as [-> | ->]). cbn [negb]. rewrite Hdisp.
    unfold Ballotd.SESSION_MAX_FRAME. by rewrite Hreply.
  - unfold response_seen. destruct Hop as [-> | ->]; case_bool_decide; done.
  - destruct r as [rc'|]; [|done]. subst rc'. intros Hne. unfold response_seen.
    destruct Hop as [-> | ->]; rewrite bool_decide_false by done; done.
Qed.

(** A ballot's request is not refused by the encoder. *)
Lemma vote_wire s k nonce op b :
  session_ok s -> cstring BB_NONCE_LEN nonce -> unbroken nonce -> 0 <= k <= 255 -> op = BCL_CAST \/ op = BCL_UPDATE ->
  bu_encrypt_ballot k (Some nonce) = BB_OK b ->
  exists wire, bcl_encode_request (vote_request op s b) (Z.to_nat TRANSPORT_MAX) = Some wire.
Proof using Type.
  intros Hs Hn Hnu Hk Hop Hb. destruct (vote_request_ok op s k nonce b Hs Hn Hk Hop Hb) as (Hok & _ & _).
  destruct (ballot_parts (vote_request op s b)) as (p & body & Hp & Hne & Hv); [done|done| | |].
  - change (q_election_id (vote_request op s b)) with (trunc BB_ID_LEN (v_election_id s)).
    rewrite trunc_id by apply (so_id s Hs). apply (so_id_text s Hs).
  - unfold bu_encrypt_ballot in Hb. rewrite (proj2 (Z.ltb_ge _ _)), (proj2 (Z.ltb_ge _ _)) in Hb by lia.
    cbn [orb] in Hb. rewrite (trunc_id _ nonce) in Hb by apply Hn.
    assert (b_nonce b = nonce) as E by (by injection Hb as <-).
    change (b_nonce (q_ballot (vote_request op s b))) with (b_nonce b). by rewrite E.
  - eapply request_encodes; [unfold TRANSPORT_MAX; lia|done| |exact Hp|done|done].
    change (q_cert_name (vote_request op s b)) with (trunc BB_CERT_LEN (v_cert_name s)).
    rewrite trunc_id by apply (so_cert s Hs). apply (so_cert_text s Hs).
Qed.

(** The session after an accepted vote. *)
Definition voted (s : bu_session) (hash : list Z) : bu_session :=
  mkBuSession (v_cert_name s) (v_joined s) (v_election_id s) 1 (v_ballot_version s + 1) hash (v_title s) (v_options s)
    (v_option_count s).

(** The whole exchange is the store's decision on the ballot. *)
Lemma submit_vote_result s k nonce w :
  session_ok s -> cstring BB_NONCE_LEN nonce -> unbroken nonce -> 0 <= k <= 255 -> trunc BB_CERT_LEN cert = v_cert_name s ->
  txn_open w = false -> reliable w = true -> db_ok (committed w) ->
  let '(r, w') := bb_record_ballot (Some (v_election_id s)) (Some (sent_ballot s k nonce)) w in
  (forall rc, r = BB_OK rc -> rc_hash rc <> []) ->
  bu_submit_vote (Some (mkTransport true (mkLink w None))) (Some s) k (Some nonce) =
    match r with
    | BB_ERR e => (BB_ERR e, Some s, Some (mkTransport true (mkLink w' None)))
    | BB_OK rc => (BB_OK rc, Some (voted s (trunc BB_HASH_LEN (rc_hash rc))), Some (mkTransport true (mkLink w' None)))
    end.
Proof using All.
  intros Hs Hn Hnu Hk Hcert Ho Hrel Hd.
  assert (Hop : exists op, (op = BCL_CAST \/ op = BCL_UPDATE) /\
    bu_route_vote (Some s) = match op with BCL_UPDATE => BU_UPDATE | _ => BU_CAST end).
  { cbn [bu_route_vote]. rewrite (so_joined s Hs). cbn [negb]. destruct (v_has_ballot s =? 0); [exists BCL_CAST|exists BCL_UPDATE]; auto. }
  destruct Hop as (op & Hop & Hroute).
  destruct (bu_encrypt_ballot k (Some nonce)) as [eb|e] eqn:Heb.
  2:{ unfold bu_encrypt_ballot in Heb. rewrite (proj2 (Z.ltb_ge _ _)), (proj2 (Z.ltb_ge _ _)) in Heb by lia. done. }
  destruct (vote_wire s k nonce op eb Hs Hn Hnu Hk Hop Heb) as [wire Hwire].
  pose proof (vote_frame s k nonce op eb wire w Hs Hn Hk Hop Hcert Heb Hwire Ho Hrel Hd) as Hframe.
  destruct (bb_record_ballot _ _ w) as [r w']. intros Hne.
  destruct Hframe as (_ & reply & resp & h & _ & Hreq & Hlen & Hh & Hresp & Hst & Hrc).
  assert (Hsend : send_via_session (Some (mkTransport true (mkLink w None))) (vote_request op s eb) =
    (code_of r, resp, Some (mkTransport true (mkLink w' None)))).
  { unfold send_via_session. cbn [t_connected negb t_session]. rewrite Hwire. unfold chan_send, vote_channel, link_channel. cbn [l_world].
    rewrite Hreq. cbn [chan_recv l_reply]. rewrite (proj2 (Z.ltb_ge _ _)) by lia. rewrite Hh, Hresp. by rewrite Hst. }
  unfold bu_submit_vote. rewrite Hroute, Heb. unfold final_status.
  destruct Hop as [-> | ->]; rewrite Hsend; destruct r as [rc|e]; cbn [code_of]; rewrite ?Hst; try done;
    cbn [code_of]; rewrite (Hrc (Hne rc eq_refl)); done.
Qed.

Lemma owner_recorded d i c nonce row prior :
  owner_of (recorded d i c nonce row prior) i c = Some (mkOwnerRow i c (h_hash row) (h_version row)).
Proof using Type.
  unfold owner_of. cbn [t_owner recorded]. rewrite list.filter_app, list_filter_filter, filter_none by naive_solver.
  rewrite filter_cons_True by done. rewrite (first_row_fit _ _ 170); [done|apply list.Forall_forall; auto|cbn; lia].
Qed.

(** C3: The voter is told the truth. A joined voter submits a choice over a channel
    authenticated as them, on a link that delivers, to a daemon whose store does not
    fail at any call and is in order before. If the store's rules refuse the ballot,
    the voter gets exactly that reason, the session does not move and the store is
    unchanged. Otherwise the voter gets the receipt of the ballot that was recorded
    for them, the session holds its hash and the next version, the store has that hash
    and version on record as the voter's current ballot, and, if no ballot of the
    election had that hash, the live ballot under it is the option chosen. *)
Theorem submit_vote_tells_the_truth s k nonce w :
  session_ok s -> cstring BB_NONCE_LEN nonce -> unbroken nonce -> 0 <= k <= 255 -> trunc BB_CERT_LEN cert = v_cert_name s ->
  txn_open w = false -> reliable w = true -> db_ok (committed w) ->
  let d := committed w in let id := v_election_id s in let b := sent_ballot s k nonce in
  let o := owner_of d id (v_cert_name s) in
  exists w', txn_open w' = false /\
  bu_submit_vote (Some (mkTransport true (mkLink w None))) (Some s) k (Some nonce) =
    match refusal d id b with
    | Some e => (BB_ERR e, Some s, Some (mkTransport true (mkLink w' None)))
    | None =>
        (BB_OK (mkReceipt (receipt_hash b (prior_version o)) (bytes "1970-01-01T00:00:00Z")),
         Some (voted s (receipt_hash b (prior_version o))), Some (mkTransport true (mkLink w' None)))
    end /\
  match refusal d id b with
  | Some e => committed w' = d
  | None =>
      owner_of (committed w') id (v_cert_name s) =
        Some (mkOwnerRow id (v_cert_name s) (receipt_hash b (prior_version o)) (prior_version o)) /\
      (receipt_hash b (prior_version o) ∉ (h_hash <$> ballots_of d id) ->
         mkRow (receipt_hash b (prior_version o)) k (prior_version o) 0 ∈ live (ballots_of (committed w') id))
  end.
Proof using All.
  intros Hs Hn Hnu Hk Hcert Ho Hrel Hd d id b o.
  pose proof (submit_vote_result s k nonce w Hs Hn Hnu Hk Hcert Ho Hrel Hd) as Hsub. fold id b in Hsub.
  pose proof (record_decides id b w Ho Hrel Hd) as Hdec.
  assert (Hid : trunc BB_ID_LEN id = id) by (apply trunc_id, (so_id s Hs)).
  assert (Hc : trunc BB_CERT_LEN (b_cert_name b) = v_cert_name s) by (apply trunc_id, (so_cert s Hs)).
  destruct (bb_record_ballot (Some id) (Some b) w) as [r w']. destruct Hdec as (Ho' & _ & Hdec). exists w'. split; [done|].
  fold d in Hdec. destruct (refusal d id b) as [e|].
  { destruct Hdec as [-> Hsame]. rewrite Hsub by done. done. }
  cbv zeta in Hdec. rewrite Hid, Hc in Hdec. fold o in Hdec. destruct Hdec as (prior & Hprior & Hacc & -> & Hw').
  assert (Hlh : length (receipt_hash b (prior_version o)) = 64%nat) by (unfold receipt_hash, hash_from_seed; by rewrite length_hash_digits).
  rewrite Hsub.
  2:{ intros rc Hrc. apply (f_equal (fun r => match r with BB_OK rc => rc_hash rc | BB_ERR _ => [] end)) in Hrc.
      cbn [rc_hash] in Hrc. rewrite <- Hrc. intros E. rewrite E in Hlh. discriminate Hlh. }
  cbn [rc_hash].
  rewrite (trunc_id BB_HASH_LEN) by (rewrite Hlh; unfold BB_HASH_LEN; lia).
  split; [done|]. rewrite Hw'. split; [apply owner_recorded|]. intros Hfresh.
  pose proof (new_row_live d id b) as Hl. rewrite Hid, Hc in Hl. fold o in Hl.
  apply (Hl (Hd id) Hacc Hfresh prior Hprior).
Qed.
End vote.

#[local] Existing Instance some_runner.

(** ** Alice votes *)

Definition a_date : list Z := bytes "Thu, 01 Jan 1970 00:00:00 GMT".
Definition alice_session : bu_session :=
  mkBuSession (bytes "alice") true E7 0 0 [] (bytes "Lunch") [bytes "tea"; bytes "soup"] 2.

Lemma a_date_ok : date_ok a_date.
Proof. split; [vm_compute; reflexivity|vm_compute; lia]. Qed.

Lemma alice_session_ok : session_ok alice_session.
Proof.
  split; try (vm_compute; reflexivity); try (apply cstring_lit; vm_compute; reflexivity). split; [done|].
  by apply (bool_decide_unpack (47 ∉ E7)).
Qed.

Lemma opened_ok : db_ok (committed (run_frames opening new_world)).
Proof.
  apply (history_ok new_world); [reflexivity|exact empty_db_ok|exact (frames_history true opening new_world opening_ok)].
Qed.

Lemma submit_vote_tells_the_truth_witness :
  exists w' hash, @bu_submit_vote _ (link_channel (bytes "alice") a_date)
      (Some (mkTransport true (mkLink (run_frames opening new_world) None))) (Some alice_session) 1 (Some (bytes "n1")) =
    (BB_OK (mkReceipt hash (bytes "1970-01-01T00:00:00Z")), Some (voted alice_session hash),
     Some (mkTransport true (mkLink w' None))) /\
    mkRow hash 1 1 0 ∈ live (ballots_of (committed w') E7).
Proof.
  assert (Ho : txn_open (run_frames opening new_world) = false) by (vm_compute; reflexivity).
  assert (Hr : reliable (run_frames opening new_world) = true) by (vm_compute; reflexivity).
  assert (Hnone : refusal (committed (run_frames opening new_world)) E7 (sent_ballot alice_session 1 (bytes "n1")) = None)
    by (vm_compute; reflexivity).
  assert (Hown : owner_of (committed (run_frames opening new_world)) E7 (bytes "alice") = None) by (vm_compute; reflexivity).
  destruct (submit_vote_tells_the_truth (bytes "alice") a_date a_date_ok alice_session 1 (bytes "n1") (run_frames opening new_world))
    as (w' & _ & Hsub & Hend); [exact alice_session_ok|apply cstring_lit; vm_compute; reflexivity
      |apply unbroken_lit; vm_compute; reflexivity|lia|reflexivity|exact Ho|exact Hr|exact opened_ok|].
  change (v_election_id alice_session) with E7 in Hsub, Hend. change (v_cert_name alice_session) with (bytes "alice") in Hsub, Hend.
  rewrite Hnone in Hsub, Hend. rewrite Hown in Hsub, Hend. eexists w', _. split; [exact Hsub|]. apply Hend.
  change (ballots_of (committed (run_frames opening new_world)) E7) with
    (ballots_of (committed (run_frames opening new_world)) (trunc BB_ID_LEN E7)).
  rewrite ready_no_ballots. apply not_elem_of_nil.
Defined.
