(* ===== verification/Auth.v ===== *)
(** * Auth: accounts and the gate in front of a session

    Models core/src/libtetrisauth: accounts over libtetrisdb (lib/account.c) and the
    exchange a client goes through before the session loop starts (auth.c).  OpenSSL's
    key derivation and HMAC are parameters; what one request finds around it - the
    connection, a turn at the registration semaphore, random bytes, the clock and the
    signing secret - is an argument of its handling.  The configuration the gate loads
    on its first LOGIN or REGISTER is a parameter; loading it does not fail. *)

From Stdlib Require Import String.
From stdpp Require Import options.
From S2P Require Import Prelude Text Name DbRows History Token Htttp Tetrissh.
#[local] Open Scope Z_scope.

(** ** Requests *)

(** A username and a password as slices of a request's body. *)
Record acc := mkAcc { user : list Z; pass : list Z }.

(** What comes before the first newline and what follows it. *)
Fixpoint split_first (body : list Z) : option (list Z * list Z) :=
  match body with
  | [] => None
  | c :: body => if c =? 10 then Some ([], body) else '(u, p) ← split_first body; Some (c :: u, p)
  end.

Definition req_body_split (body : option (list Z)) (body_len : Z) : option acc :=
  match body with
  | None => None
  | Some b =>
      if body_len =? 0 then None
      else '(u, p) ← split_first (take (Z.to_nat body_len) b);
           if (length u =? 0)%nat || (length p =? 0)%nat then None else Some (mkAcc u p)
  end.

Inductive auth_method := AUTH_NONE | AUTH_GUEST | AUTH_LOGIN | AUTH_REGISTER.

Definition auth_method_of (req : htttp_request) : auth_method :=
  if strcmp (method req) (bytes "GUEST") =? 0 then AUTH_GUEST
  else if strcmp (method req) (bytes "LOGIN") =? 0 then AUTH_LOGIN
  else if strcmp (method req) (bytes "REGISTER") =? 0 then AUTH_REGISTER
  else AUTH_NONE.

Definition SALT_HEX_LEN : nat := 32.
Definition DIGEST_HEX_LEN : nat := 64.
Definition HASH_SALT_BYTES : nat := 16.
Definition CRED_PASS_MIN : nat := 8.
Definition CRED_PASS_MAX : nat := 128.
Definition MAX_USER_NAME_LEN : nat := 16.

Record auth_conf := mkConf { max_attempts : Z; token_ttl : Z; pbkdf2_iters : Z }.
Definition default_conf : auth_conf := mkConf 5 604800 600000.

Section auth.
Context (HMAC : list Z -> list Z -> option (list Z)).
(** [PKCS5_PBKDF2_HMAC] of a password, a salt and an iteration count. *)
Context (PBKDF2 : list Z -> list Z -> Z -> option (list Z)).
Context {W : Type} `{!DbConn W}.

(** ** account.c *)

Definition password_hash (c : acc) (salt_hex : list Z) (iters : Z) : option (list Z) :=
  if iters <? 1 then None
  else
    salt ← hex_decode salt_hex HASH_SALT_BYTES;
    if (length salt =? 0)%nat then None
    else digest ← PBKDF2 (pass c) salt iters; Some (hex_encode digest).

(** [copy_text] into a 32-byte array, and the number at its start. *)
Definition copy_number (f : list Z) : option Z :=
  if (length f =? 0)%nat || (32 <=? length f)%nat then None else Some (fst (strtol f)).

(** The status, or the row's id, salt, digest and iteration count. *)
Definition parse_login_db_result (st : db_status) (body : list Z) : Z + (Z * list Z * list Z * Z) :=
  if negb (bool_decide (st = DB_OK)) then inl 500
  else
    let rows := db_row_count body in
    if rows <? 0 then inl 500
    else if rows =? 0 then inl 404
    else
      match db_row_fields body 0 4 with
      | Some (4, [f0; f1; f2; f3]) =>
          if negb (length f1 =? SALT_HEX_LEN)%nat || negb (length f2 =? DIGEST_HEX_LEN)%nat then inl 500
          else
            match copy_number f0, copy_number f3 with
            | Some uid, Some n =>
                if long_to_int n <? 1 then inl 500 else inr (clamp_ll uid, f1, f2, long_to_int n)
            | _, _ => inl 500
            end
      | _ => inl 500
      end.

Definition sql_login (quoted : list Z) : list Z :=
  trunc 256 (bytes "select id, salt, digest, iters from user where name = " ++ quoted ++ bytes ";").

(** The status, and the account's id when it is 200. *)
Definition account_login (conn : option W) (name : list Z) (c : acc) : option (Z * Z * option W) :=
  let sql := sql_login (db_quote QUOTED_MAX name) in
  match conn with
  | None => Some (500, 0, None)
  | Some conn =>
      '(st, body, conn) ← db_exec conn sql (Some BODY_MAX);
      '(st, body, conn) ← (if bool_decide (st = DB_RETRY) then db_exec conn sql (Some BODY_MAX)
                           else Some (st, body, conn));
      match parse_login_db_result st body with
      | inl status => Some (status, 0, Some conn)
      | inr (uid, salt, digest, iters) =>
          match password_hash c salt iters with
          | None => Some (500, 0, Some conn)
          | Some want => if bool_decide (take DIGEST_HEX_LEN want = digest) then Some (200, uid, Some conn)
                         else Some (401, 0, Some conn)
          end
      end
  end.

Definition sql_user_max : list Z := bytes "select max(id) from user;".
Definition sql_user_exists (quoted : list Z) : list Z :=
  trunc 512 (bytes "select id from user where name = " ++ quoted ++ bytes ";").
Definition sql_user_insert (next : Z) (quoted salt digest : list Z) (iters now : Z) : list Z :=
  trunc 512 (bytes "insert into user values (" ++ decimal_ll next ++ bytes ", " ++ quoted ++ bytes ", '" ++
    salt ++ bytes "', '" ++ digest ++ bytes "', " ++ decimal_int iters ++ bytes ", " ++ decimal_ll now ++ bytes ");").
Definition sql_rollback : list Z := bytes "rollback;".

(** The status, whether the name is taken, and the id it allocated. *)
Definition register_txn (conn : W) (quoted salt digest : list Z) (iters now : Z)
    : option (db_status * bool * Z * W) :=
  '(st, _, conn) ← db_exec conn sql_begin None;
  if negb (bool_decide (st = DB_OK)) then Some (st, false, 0, conn) else
  '(st, body, conn) ← db_exec conn sql_user_max (Some BODY_MAX);
  if negb (bool_decide (st = DB_OK)) then Some (st, false, 0, conn) else
  let next := db_next_id body in
  if next <? 0 then Some (DB_ERROR, false, 0, conn) else
  '(st, body, conn) ← db_exec conn (sql_user_exists quoted) (Some BODY_MAX);
  if negb (bool_decide (st = DB_OK)) then Some (st, false, 0, conn) else
  let rows := db_row_count body in
  if rows <? 0 then Some (DB_ERROR, false, 0, conn)
  else if 0 <? rows then '(_, _, conn) ← db_exec conn sql_rollback None; Some (DB_OK, true, 0, conn)
  else
    '(st, _, conn) ← db_exec conn (sql_user_insert next quoted salt digest iters now) None;
    if negb (bool_decide (st = DB_OK)) then Some (st, false, 0, conn) else
    '(st, _, conn) ← db_exec conn sql_commit None;
    if negb (bool_decide (st = DB_OK)) then Some (st, false, 0, conn) else Some (DB_OK, false, next, conn).

Fixpoint register_attempts (attempts : nat) (conn : W) (quoted salt digest : list Z) (iters now : Z)
    : option (Z * Z * W) :=
  match attempts with
  | O => Some (500, 0, conn)
  | S attempts =>
      '(st, taken, id, conn) ← register_txn conn quoted salt digest iters now;
      match st with
      | DB_RETRY => register_attempts attempts conn quoted salt digest iters now
      | DB_OK => Some (if taken : bool then 409 else 200, id, conn)
      | _ => Some (500, 0, conn)
      end
  end.

(** [salt]: what [RAND_bytes] returned; [turn]: a turn at the semaphore was had. *)
Definition account_register (conf : auth_conf) (salt : option (list Z)) (turn : bool) (now : Z) (conn : option W)
    (name : list Z) (c : acc) : option (Z * Z * option W) :=
  if (length (pass c) <? CRED_PASS_MIN)%nat || (CRED_PASS_MAX <? length (pass c))%nat then Some (400, 0, conn)
  else
    let quoted := db_quote QUOTED_MAX name in
    match salt with
    | None => Some (500, 0, conn)
    | Some salt =>
        let salt_hex := hex_encode salt in
        match password_hash c salt_hex (pbkdf2_iters conf) with
        | None => Some (500, 0, conn)
        | Some digest =>
            match turn, conn with
            | true, Some conn =>
                '(status, id, conn) ← register_attempts TXN_ATTEMPTS conn quoted salt_hex digest (pbkdf2_iters conf) now;
                Some (status, id, Some conn)
            | _, _ => Some (500, 0, conn)
            end
        end
    end.

(** ** auth.c: the gate *)

(** What one request finds around it. *)
Record surroundings := mkAround {
  a_conn : option W;
  a_turn : bool;
  a_salt : option (list Z);
  a_now : Z;
  a_secret : option (list Z)
}.

(** The library's state: whether the configuration is loaded, and [glb_name]. *)
Record auth_state := mkAuth { conf_loaded : bool; glb_name : list Z }.

Context (conf : auth_conf).

Definition conf_of (s : auth_state) : auth_conf := if conf_loaded s then conf else default_conf.

(** The status and the token. *)
Definition token_handler (around : surroundings) (s : auth_state) (name : list Z) (id : Z)
    : Z * list Z * auth_state :=
  match a_secret around with
  | None => (500, [], s)
  | Some secret =>
      let claims := mkClaims id (trunc (TOKEN_NAME_MAX + 1) name) (a_now around) (a_now around + token_ttl (conf_of s)) in
      match token_mint HMAC TOKEN_MAX_LEN claims secret with
      | None => (500, [], s)
      | Some token => (200, token, mkAuth (conf_loaded s) (trunc MAX_USER_NAME_LEN name))
      end
  end.

(** A status that settles the request, or the method and the credentials. *)
Definition auth_session_parser (s : auth_state) (rc : session_err) (buf : list Z)
    : (Z + auth_method * acc) * auth_state :=
  match rc with
  | SESSION_ERR_IO | SESSION_ERR_TOOBIG => (inl (-1), s)
  | SESSION_OK =>
      match htttp_parse_request buf with
      | Err _ => (inl 400, s)
      | Ok req =>
          match auth_method_of req with
          | AUTH_GUEST => (inl 200, mkAuth (conf_loaded s) [])
          | AUTH_NONE => (inl 401, s)
          | m =>
              let s := mkAuth true (glb_name s) in
              match req_body_split (body req) (body_len req) with
              | None => (inl 400, s)
              | Some c => (inr (m, c), s)
              end
          end
      end
  | _ => (inl 400, s)
  end.

Definition REPLY_MAX : nat := 1024.

(** The frame [reply] sends; [None] when it does not serialize. *)
Definition auth_reply (date : option (list Z)) (status : Z) (text : list Z) : option (list Z) :=
  match htttp_serialize_response date
          (mkResponse status [] (if bool_decide (text = []) then None else Some text) (Z.of_nat (length text))) REPLY_MAX with
  | Ok frame => Some frame
  | Err _ => None
  end.

(** The status, the frame sent and the state. *)
Definition auth_handler (date : option (list Z)) (around : surroundings) (s : auth_state) (rc : session_err) (buf : list Z)
    : option (Z * option (list Z) * auth_state) :=
  let done (status : Z) (token : list Z) (s : auth_state) :=
    Some (status, if 0 <? status then auth_reply date status (if status =? 200 then token else []) else None, s) in
  match auth_session_parser s rc buf with
  | (inl status, s) => done status [] s
  | (inr (m, c), s) =>
      match user_name_fold MAX_USER_NAME_LEN (user c) with
      | None => done 400 [] s
      | Some name =>
          '(status, id, _) ←
            match m with
            | AUTH_LOGIN => account_login (a_conn around) name c
            | AUTH_REGISTER => account_register (conf_of s) (a_salt around) (a_turn around) (a_now around) (a_conn around) name c
            | _ => Some (500, 0, a_conn around)
            end;
          if negb (status =? 200) then done status [] s
          else let '(status, token, s) := token_handler around s name id in done status token s
      end
  end.

Inductive gate_result := AUTH_OK | AUTH_DROP.

(** One round per request; [i] attempts are spent.  [None] while a request is
    awaited. *)
Fixpoint auth_retry_handler (date : option (list Z)) (s : auth_state) (i : Z) (sent : list (list Z))
    (requests : list (surroundings * session_err * list Z)) : option (gate_result * auth_state * list (list Z)) :=
  if negb (i <? max_attempts (conf_of s)) then Some (AUTH_DROP, s, sent)
  else
    match requests with
    | [] => None
    | (around, rc, buf) :: requests =>
        '(status, frame, s) ← auth_handler date around s rc buf;
        let sent := sent ++ match frame with Some f => [f] | None => [] end in
        if status =? 200 then Some (AUTH_OK, s, sent)
        else if status <? 0 then Some (AUTH_DROP, s, sent)
        else auth_retry_handler date s (if negb (status =? 400) then i + 1 else i) sent requests
    end.

(** After the gate: a second authentication is refused.  [None]: not one of its
    methods. *)
Definition auth_offer (date : option (list Z)) (req : htttp_request) : option (option (list Z)) :=
  match auth_method_of req with
  | AUTH_NONE => None
  | _ => Some (auth_reply date 409 [])
  end.

Definition auth_get_name (s : auth_state) (cap : nat) : list Z := trunc cap (glb_name s).
End auth.

Arguments mkAround {W}.
