(* ===== verification/AuthTheorems.v ===== *)
(** * AuthTheorems: who gets through the gate

    Passwords are checked against what registration stored, and a session starts
    only for a guest or for a client that proved an account, within the attempts the
    configuration allows. *)

From Stdlib Require Import String.
From stdpp Require Import options.
From S2P Require Import Prelude Text Name DbRows DbRowsTheorems History HistoryTheorems Token TokenTheorems Htttp Tetrissh.
From S2P Require Import Auth.
#[local] Open Scope Z_scope.

Section auth.
Context (HMAC : list Z -> list Z -> option (list Z)) (PBKDF2 : list Z -> list Z -> Z -> option (list Z)).
Context {W : Type} `{conn_ops : !DbConn W} (conf : auth_conf).

(** ** Proofs of identity *)

(** The database holds, for this name, a salt, an iteration count and the digest that
    the password gives with them. *)
Definition login_proven (conn : option W) (name : list Z) (c : acc) : Prop :=
  exists w st text uid salt digest iters h,
    (exists w0, conn = Some w0 /\
      (db_exec w0 (sql_login (db_quote QUOTED_MAX name)) (Some BODY_MAX) = Some (st, text, w) \/
       exists t1 w1, db_exec w0 (sql_login (db_quote QUOTED_MAX name)) (Some BODY_MAX) = Some (DB_RETRY, t1, w1) /\
         db_exec w1 (sql_login (db_quote QUOTED_MAX name)) (Some BODY_MAX) = Some (st, text, w))) /\
    parse_login_db_result st text = inr (uid, salt, digest, iters) /\
    password_hash PBKDF2 c salt iters = Some h /\ take DIGEST_HEX_LEN h = digest.

(** A statement answered OK. *)
Definition done_ok (w : W) (sql : list Z) (cap : option nat) (text : list Z) (w' : W) : Prop :=
  db_exec w sql cap = Some (DB_OK, text, w').

(** A transaction on [w]: it began, the table had no row of that name, the row with
    this salt and digest went in under the next id, and it was committed. *)
Definition commits_new_user (w : W) (name salt_hex digest : list Z) (iters now id : Z) (w' : W) : Prop :=
  exists t0 w1 maxes w2 found w3 t1 w4 t2,
    done_ok w sql_begin None t0 w1 /\
    done_ok w1 sql_user_max (Some BODY_MAX) maxes w2 /\ id = db_next_id maxes /\ 0 <= id /\
    done_ok w2 (sql_user_exists (db_quote QUOTED_MAX name)) (Some BODY_MAX) found w3 /\ db_row_count found = 0 /\
    done_ok w3 (sql_user_insert id (db_quote QUOTED_MAX name) salt_hex digest iters now) None t1 w4 /\
    done_ok w4 sql_commit None t2 w'.

(** What asking a connection can lead to. *)
Definition asks (w w' : W) : Prop := exists sql cap st text, db_exec w sql cap = Some (st, text, w').

(** With a turn at the semaphore, a salt that was drawn and this password's digest,
    such a transaction committed - after whatever attempts came before it. *)
Definition registered (a : surroundings (W := W)) (conf' : auth_conf) (name : list Z) (c : acc) : Prop :=
  exists salt digest w0 w id w',
    a_turn a = true /\ a_salt a = Some salt /\ a_conn a = Some w0 /\ rtc asks w0 w /\
    password_hash PBKDF2 c (hex_encode salt) (pbkdf2_iters conf') = Some digest /\
    commits_new_user w name (hex_encode salt) digest (pbkdf2_iters conf') (a_now a) id w'.

(** What a request has to be for the gate to open for [name]. *)
Definition identity_shown (a : surroundings (W := W)) (buf name : list Z) : Prop :=
  exists req, htttp_parse_request buf = Ok req /\
    ((auth_method_of req = AUTH_GUEST /\ name = []) \/
     exists c, req_body_split (body req) (body_len req) = Some c /\
       user_name_fold MAX_USER_NAME_LEN (user c) = Some name /\
       ((auth_method_of req = AUTH_LOGIN /\ login_proven (a_conn a) name c) \/
        (auth_method_of req = AUTH_REGISTER /\ registered a conf name c))).

Lemma account_login_proven conn name c id w :
  account_login PBKDF2 conn name c = Some (200, id, w) -> login_proven conn name c.
Proof.
  unfold account_login. destruct conn as [w0|]; [|done].
  destruct (db_exec w0 _ _) as [[[st t1] w1]|] eqn:E1; [|done]. cbn [mbind option_bind].
  intros H. destruct (bool_decide (st = DB_RETRY)) eqn:Hr.
  - apply bool_decide_eq_true in Hr as ->. destruct (db_exec w1 _ _) as [[[st' t2] w2]|] eqn:E2; [|done].
    cbn [mbind option_bind] in H. destruct (parse_login_db_result st' t2) as [s|[[[uid salt] digest] iters]] eqn:Ep.
    { simplify_eq. unfold parse_login_db_result in Ep. repeat case_match; simplify_eq. }
    destruct (password_hash PBKDF2 c salt iters) as [h|] eqn:Eh; [|done].
    destruct (bool_decide (take DIGEST_HEX_LEN h = digest)) eqn:Ed; [|done]. apply bool_decide_eq_true in Ed.
    unfold login_proven. eauto 20.
  - cbn [mbind option_bind] in H. destruct (parse_login_db_result st t1) as [s|[[[uid salt] digest] iters]] eqn:Ep.
    { simplify_eq. unfold parse_login_db_result in Ep. repeat case_match; simplify_eq. }
    destruct (password_hash PBKDF2 c salt iters) as [h|] eqn:Eh; [|done].
    destruct (bool_decide (take DIGEST_HEX_LEN h = digest)) eqn:Ed; [|done]. apply bool_decide_eq_true in Ed.
    unfold login_proven. eauto 20.
Qed.

(** One statement of a transaction, in [H]: it was asked, and answered OK. *)
#[local] Ltac statement H A E :=
  let st := fresh "st" in let t := fresh "t" in let w := fresh "w" in let A' := fresh "A" in
  apply bind_Some in H as ([[st t] w] & E & H);
  match type of A with rtc asks ?w0 _ =>
    assert (A' : rtc asks w0 w) by (eapply rtc_r; [exact A|unfold asks; eauto]) end;
  clear A; rename A' into A;
  destruct (decide (st = DB_OK)) as [->|];
  [rewrite bool_decide_true in H by done; cbn [negb] in H
  |rewrite bool_decide_false in H by done; cbn [negb] in H; by simplify_eq].

Lemma register_txn_commits w name salt digest iters now st taken id w' :
  register_txn w (db_quote QUOTED_MAX name) salt digest iters now = Some (st, taken, id, w') ->
  rtc asks w w' /\ (st = DB_OK -> taken = false -> commits_new_user w name salt digest iters now id w').
Proof.
  unfold register_txn. intros H. assert (A : rtc asks w w) by apply rtc_refl.
  statement H A E0. statement H A E1. destruct (Z.ltb_spec (db_next_id t0) 0) as [|Hid]; [by simplify_eq|].
  statement H A E2. destruct (Z.ltb_spec (db_row_count t1) 0) as [|Hf]; [by simplify_eq|].
  destruct (Z.ltb_spec 0 (db_row_count t1)) as [|Hf2].
  { apply bind_Some in H as ([[st3 t3] w4] & E3 & H). simplify_eq. split; [|done].
    eapply rtc_r; [exact A|unfold asks; eauto]. }
  statement H A E3. statement H A E4. simplify_eq. split; [done|]. intros _ _.
  exists t, w0, t0, w1, t1, w2, t2, w3, t3. split_and!; try done. lia.
Qed.

Lemma register_attempts_commits n : forall w name salt digest iters now id w',
  register_attempts n w (db_quote QUOTED_MAX name) salt digest iters now = Some (200, id, w') ->
  exists w1, rtc asks w w1 /\ commits_new_user w1 name salt digest iters now id w'.
Proof.
  induction n as [|n IH]; intros w name salt digest iters now id w' H; [done|]. cbn [register_attempts] in H.
  apply bind_Some in H as ([[[st taken] id'] w1] & E & H).
  destruct (register_txn_commits _ _ _ _ _ _ _ _ _ _ E) as [A Hc]. destruct st; try done.
  - destruct taken; [done|]. simplify_eq. exists w. split; [apply rtc_refl|by apply Hc].
  - apply IH in H as (w2 & A2 & H2). exists w2. split; [by etrans|done].
Qed.

Lemma account_register_commits conf' salt turn now conn name c id w' :
  account_register PBKDF2 conf' salt turn now conn name c = Some (200, id, w') ->
  exists salt' digest w0 w w1, turn = true /\ salt = Some salt' /\ conn = Some w0 /\ w' = Some w1 /\ rtc asks w0 w /\
    password_hash PBKDF2 c (hex_encode salt') (pbkdf2_iters conf') = Some digest /\
    commits_new_user w name (hex_encode salt') digest (pbkdf2_iters conf') now id w1.
Proof.
  unfold account_register. destruct (_ || _); [done|]. destruct salt as [salt'|]; [|done].
  destruct (password_hash _ _ _ _) as [digest|] eqn:Eh; [|done]. destruct turn; [|done]. destruct conn as [w0|]; [|done].
  intros H. apply bind_Some in H as ([[st id'] w1] & E & H). simplify_eq.
  apply register_attempts_commits in E as (w & A & Hc). exists salt', digest, w0, w, w1. by split_and!.
Qed.

Lemma fold_name_length name u : user_name_fold MAX_USER_NAME_LEN u = Some name -> (length name < MAX_USER_NAME_LEN)%nat.
Proof.
  unfold user_name_fold, user_name_ok. case_match eqn:E; [done|]. intros. simplify_eq. rewrite length_fmap.
  apply orb_false_iff in E as [_ E]. apply negb_false_iff, andb_true_iff in E as [E _].
  apply negb_true_iff, orb_false_iff in E as [_ E]. apply Nat.ltb_ge in E. unfold USER_NAME_MAX, MAX_NAME, MAX_USER_NAME_LEN in *. lia.
Qed.

Lemma token_handler_name (a : surroundings (W := W)) s name id token s' :
  token_handler HMAC conf a s name id = (200, token, s') -> glb_name s' = trunc MAX_USER_NAME_LEN name.
Proof. unfold token_handler. repeat case_match; intros; by simplify_eq. Qed.

(** A request the gate answers 200 has shown the identity the session gets. *)
Lemma auth_handler_200 date (a : surroundings (W := W)) s rc buf frame s' :
  auth_handler HMAC PBKDF2 conf date a s rc buf = Some (200, frame, s') -> identity_shown a buf (glb_name s').
Proof.
  unfold auth_handler, auth_session_parser. destruct rc; try done.
  destruct (htttp_parse_request buf) as [req|] eqn:Ep; [|done]. unfold identity_shown. intros H. exists req.
  split; [done|]. destruct (auth_method_of req) eqn:Em; simplify_eq/=; [by left|right|right].
  all: destruct (req_body_split (body req) (body_len req)) as [c|] eqn:Eb; [|done]; cbn in H;
    destruct (user_name_fold MAX_USER_NAME_LEN (user c)) as [name|] eqn:Ef; [|done].
  - destruct (account_login PBKDF2 (a_conn a) name c) as [[[st id] w]|] eqn:El; [|done]. cbn [mbind option_bind] in H.
    destruct (Z.eqb_spec st 200) as [->|Hne]; cbn [negb] in H; [|simplify_eq].
    destruct (token_handler HMAC conf a _ name id) as [[st2 token] s2] eqn:Et. simplify_eq.
    rewrite (token_handler_name _ _ _ _ _ _ Et), trunc_id by by apply fold_name_length in Ef.
    exists c. split_and!; [done..|]. left. split; [done|by eapply account_login_proven].
  - match type of H with context [account_register ?p ?k ?a1 ?a2 ?a3 ?a4 ?a5 ?a6] =>
      destruct (account_register p k a1 a2 a3 a4 a5 a6) as [[[st id] w]|] eqn:El end; [|done]. cbn [mbind option_bind] in H.
    destruct (Z.eqb_spec st 200) as [->|Hne]; cbn [negb] in H; [|simplify_eq].
    destruct (token_handler HMAC conf a _ name id) as [[st2 token] s2] eqn:Et. simplify_eq.
    rewrite (token_handler_name _ _ _ _ _ _ Et), trunc_id by by apply fold_name_length in Ef.
    exists c. split_and!; [done..|]. right. split; [done|].
    apply account_register_commits in El as (salt & digest & w0 & w1 & w2 & Ht & Hsa & Hc & _ & A & Hh & Hcm).
    exists salt, digest, w0, w1, id, w2. by split_and!.
Qed.
(** ** The attempts *)

(** The statuses of a sequence of requests handled one after the other. *)
Fixpoint gate_statuses (date : option (list Z)) (s : auth_state)
    (requests : list (surroundings (W := W) * session_err * list Z)) : option (list Z * auth_state) :=
  match requests with
  | [] => Some ([], s)
  | (a, rc, buf) :: requests =>
      '(status, _, s) ← auth_handler HMAC PBKDF2 conf date a s rc buf;
      '(sts, s) ← gate_statuses date s requests;
      Some (status :: sts, s)
  end.

(** The refusals that count: every one but "the request could not be read". *)
Definition spent (sts : list Z) : Z := Z.of_nat (length (filter (fun st => st <> 400) sts)).

Definition refused (st : Z) : Prop := st <> 200 /\ 0 <= st.

Lemma gate_run date requests : forall s i sent r s' sent',
  auth_retry_handler HMAC PBKDF2 conf date s i sent requests = Some (r, s', sent') ->
  exists pre rest sts s1, requests = pre ++ rest /\ gate_statuses date s pre = Some (sts, s1) /\ Forall refused sts /\
    match r with
    | AUTH_OK => i + spent sts < max_attempts (conf_of conf s1) /\
        exists a rc buf rest' frame, rest = (a, rc, buf) :: rest' /\
          auth_handler HMAC PBKDF2 conf date a s1 rc buf = Some (200, frame, s')
    | AUTH_DROP => max_attempts (conf_of conf s1) <= i + spent sts \/
        exists a rc buf rest' status frame, rest = (a, rc, buf) :: rest' /\ status < 0 /\
          auth_handler HMAC PBKDF2 conf date a s1 rc buf = Some (status, frame, s')
    end.
Proof.
  induction requests as [|[[a rc] buf] requests IH]; intros s i sent r s' sent' H; cbn [auth_retry_handler] in H;
    destruct (Z.ltb_spec i (max_attempts (conf_of conf s))) as [Hi|Hi]; cbn [negb] in H; simplify_eq.
  - exists [], [], [], s'. split_and!; try done. left. unfold spent. simpl. lia.
  - destruct (auth_handler HMAC PBKDF2 conf date a s rc buf) as [[[st frame] s1]|] eqn:E; [|done].
    cbn [mbind option_bind] in H. destruct (Z.eqb_spec st 200) as [->|Hne]; simplify_eq.
    { exists [], ((a, rc, buf) :: requests), [], s. split_and!; try done; [unfold spent; simpl; lia|]. eauto 10. }
    destruct (Z.ltb_spec st 0) as [Hneg|Hpos]; simplify_eq.
    { exists [], ((a, rc, buf) :: requests), [], s. split_and!; try done. right. eauto 10. }
    apply IH in H as (pre & rest & sts & s2 & -> & Hst & Hrf & Hr).
    exists ((a, rc, buf) :: pre), rest, (st :: sts), s2. split; [done|]. split; [|split].
    + cbn [gate_statuses]. rewrite E. cbn [mbind option_bind]. by rewrite Hst.
    + by constructor.
    + assert (Hsp : i + spent (st :: sts) = (if negb (st =? 400) then i + 1 else i) + spent sts).
      { unfold spent. rewrite filter_cons. destruct (Z.eqb_spec st 400), (decide (st <> 400)); simpl; try done; lia. }
      rewrite Hsp. done.
  - exists [], ((a, rc, buf) :: requests), [], s'. split_and!; try done. left. unfold spent. simpl. lia.
Qed.
End auth.

(** C16: The gate opens only for a guest or a proven account, within the allowed
    attempts.  When it opens, every request before the last was refused, fewer of
    those refusals than [auth_max_attempts] count (a request that could not be read
    does not), and the last request either asked to be a guest - the session then
    has no name - or named an account in lower case and proved it: by the password
    whose digest the database holds for that name, or by registering the name: a
    transaction was begun, the table had no row of that name, a row with a fresh
    salt and this password's digest was inserted, and the commit was answered OK. *)
Theorem gate_opens_for_the_proven HMAC PBKDF2 {W} `{!DbConn W} conf date requests s' sent :
  auth_retry_handler (W := W) HMAC PBKDF2 conf date (mkAuth false []) 0 [] requests = Some (AUTH_OK, s', sent) ->
  exists pre a rc buf rest sts s1, requests = pre ++ (a, rc, buf) :: rest /\
    gate_statuses HMAC PBKDF2 conf date (mkAuth false []) pre = Some (sts, s1) /\ Forall refused sts /\
    spent sts < max_attempts (conf_of conf s1) /\ identity_shown PBKDF2 conf a buf (glb_name s').
Proof.
  intros H. apply gate_run in H as (pre & rest & sts & s1 & -> & Hst & Hrf & Hsp & a & rc & buf & rest' & frame & -> & E).
  exists pre, a, rc, buf, rest', sts, s1. split_and!; try done. by eapply auth_handler_200.
Qed.

(** ** Running the gate *)

Definition toy_pbkdf2 (pass salt : list Z) (iters : Z) : option (list Z) :=
  Some (replicate 32 ((foldl Z.add iters (pass ++ salt)) mod 256)).

Definition auth_frame (m : list Z) (text : option (list Z)) : list Z :=
  match htttp_serialize_request (mkRequest m (bytes "/auth") [] text (Z.of_nat (length (default [] text)))) 4000 with
  | Ok f => f
  | Err _ => []
  end.

Definition toy_salt : list Z := replicate 16 3.

(** What the database answers when it holds ann's row for the password "correct horse". *)
Definition ann_row : list Z :=
  reply [bytes "id"] 9
    [[bytes "4"; hex_encode toy_salt; hex_encode (default [] (toy_pbkdf2 (bytes "correct horse") toy_salt 1000));
      bytes "1000"]] [].

Definition around (answers : list (db_status * list Z)) : surroundings (W := script) :=
  mkAround (Some (mkScript answers [])) true (Some toy_salt) 1700000000 (Some (replicate 32 9)).

Lemma gate_opens_for_the_proven_witness :
  exists s' sent, auth_retry_handler toy_hmac toy_pbkdf2 (mkConf 3 3600 1000) (Some (bytes "now")) (mkAuth false []) 0 []
      [(around [], SESSION_OK, auth_frame (bytes "JOIN") None);
       (around [(DB_OK, ann_row)], SESSION_OK, auth_frame (bytes "LOGIN") (Some (bytes "ann" ++ [10] ++ bytes "wrong")));
       (around [(DB_OK, ann_row)], SESSION_OK, auth_frame (bytes "LOGIN") (Some (bytes "Ann" ++ [10] ++ bytes "correct horse")))] =
      Some (AUTH_OK, s', sent) /\ glb_name s' = bytes "ann" /\
    exists (a : surroundings (W := script)) (buf : list Z),
      identity_shown toy_pbkdf2 (mkConf 3 3600 1000) a buf (glb_name s').
Proof.
  match goal with |- exists s' sent, ?l = Some _ /\ _ =>
    destruct l as [[[[|] s'] sent]|] eqn:E; [|vm_compute in E; discriminate E..] end.
  exists s', sent. split; [reflexivity|].
  assert (Hn : glb_name s' = bytes "ann") by (vm_compute in E; injection E as <- <-; reflexivity).
  destruct (gate_opens_for_the_proven toy_hmac toy_pbkdf2 (mkConf 3 3600 1000) (Some (bytes "now")) _ s' sent E)
    as (pre & a & rc & buf & rest & sts & s1 & _ & _ & _ & _ & Hid).
  split; [exact Hn|]. exists a, buf. exact Hid.
Defined.

(** ** Registering, then logging in *)

Lemma hex_nibbles m : Forall (fun b => 0 <= b <= 255) m -> hex_pairs (hex_encode m) = Some m.
Proof.
  intros H. unfold hex_encode. induction H as [|b m Hb _ IH]; [done|]. rewrite fmap_cons. cbn [concat app hex_pairs].
  assert (Hall : forallb (fun b => negb ((hex_nibble (aget 0 HEX (Z.shiftr b 4)) <? 0) || (hex_nibble (aget 0 HEX (Z.land b 15)) <? 0)) &&
    (Z.lor (Z.shiftl (hex_nibble (aget 0 HEX (Z.shiftr b 4))) 4) (hex_nibble (aget 0 HEX (Z.land b 15))) =? b)) (seqZ 0 256) = true)
    by (vm_compute; reflexivity).
  rewrite forallb_forall in Hall. specialize (Hall b). rewrite <- list_elem_of_In, elem_of_seqZ in Hall.
  specialize (Hall ltac:(lia)). apply andb_true_iff in Hall as [H1%negb_true_iff H2%Z.eqb_eq].
  rewrite H1, IH. cbn [mbind option_bind]. by rewrite H2.
Qed.

Lemma hex_decode_encode m cap :
  Forall (fun b => 0 <= b <= 255) m -> (length m <= cap)%nat -> hex_decode (hex_encode m) cap = Some m.
Proof.
  intros Hb Hl. unfold hex_decode. rewrite length_hex_encode.
  replace (2 * length m)%nat with (length m * 2)%nat by lia. rewrite Nat.Div0.mod_mul, Nat.div_mul by lia.
  rewrite (proj2 (Nat.ltb_ge _ _)) by lia. cbn [Nat.eqb negb orb]. by apply hex_nibbles.
Qed.

Lemma hex_encode_inj a b :
  Forall (fun c => 0 <= c <= 255) a -> Forall (fun c => 0 <= c <= 255) b -> hex_encode a = hex_encode b -> a = b.
Proof.
  intros Ha Hb E. apply (inj Some). rewrite <- (hex_nibbles a Ha), <- (hex_nibbles b Hb). by rewrite E.
Qed.

(** A user's row, printed by the runner. *)
Definition user_row (id : Z) (salt digest : list Z) (iters : Z) : list (list Z) :=
  [decimal_int id; hex_encode salt; hex_encode digest; decimal_int iters].

Lemma user_row_ok hdr dashes id salt d iters :
  no_newline hdr -> (0 < dashes)%nat -> int_range id -> int_range iters ->
  reply_ok [hdr] dashes [user_row id salt d iters].
Proof.
  intros Hh Hd Hid Hit. assert (Hhex : forall m, NL ∉ hex_encode m /\ TAB ∉ hex_encode m).
  { intros m. split; apply hex_chars; reflexivity. }
  split; try done; [by repeat constructor|..].
  - repeat constructor; by (apply number_field || apply Hhex).
  - repeat constructor. by apply row_line_nonempty, decimal_int_not_nil.
Qed.

Lemma user_row_needs hdr dashes id salt d iters :
  length salt = 16%nat -> length d = 32%nat -> int_range id -> int_range iters -> (length hdr + dashes <= 3000)%nat ->
  (reply_needs [hdr] dashes [user_row id salt d iters] <= BODY_MAX - 1)%nat.
Proof.
  intros Hs Hd Hid Hit Hl. unfold reply_needs, reply, row_line, user_row. cbn [app fmap list_fmap join_on length].
  rewrite !above_cons, above_nil, app_nil_r. repeat (rewrite ?length_app, ?length_replicate; cbn [length app]).
  rewrite !length_hex_encode, Hs, Hd. change (length (trailer (Z.of_nat 1))) with 8%nat.
  pose proof (decimal_int_length id Hid). pose proof (decimal_int_length iters Hit). unfold BODY_MAX. lia.
Qed.

Lemma copy_number_int n : int_range n -> copy_number (decimal_int n) = Some n.
Proof.
  intros Hn. pose proof (decimal_int_length n Hn). unfold copy_number.
  rewrite (proj2 (Nat.eqb_neq _ _)), (proj2 (Nat.leb_gt _ _)) by lia. cbn [orb].
  pose proof (strtol_decimal_int n [] Hn) as E. rewrite app_nil_r in E. by rewrite E.
Qed.

(** Reading the row of a user back. *)
Lemma parse_user_row hdr dashes id salt d iters :
  no_newline hdr -> (0 < dashes)%nat -> (length hdr + dashes <= 3000)%nat ->
  int_range id -> 1 <= iters <= INT_MAX -> length salt = 16%nat -> length d = 32%nat ->
  parse_login_db_result DB_OK (trunc BODY_MAX (reply [hdr] dashes [user_row id salt d iters] [])) =
  inr (id, hex_encode salt, hex_encode d, iters).
Proof.
  intros Hh Hd Hl Hid Hit Hs Hdl. assert (Hit' : int_range iters) by (unfold int_range, INT_MIN; lia).
  pose proof (reply_read_back _ _ _ [] (BODY_MAX - 1) (user_row_ok hdr dashes id salt d iters Hh Hd Hid Hit')) as H.
  cbv zeta in H. rewrite (proj2 (Nat.leb_le _ _) (user_row_needs hdr dashes id salt d iters Hs Hdl Hid Hit' Hl)) in H.
  destruct H as [Hc Hf]. pose proof (Hf 0%nat _ 4%nat eq_refl) as Hf0. change (Z.of_nat 0) with 0 in Hf0.
  change (Z.of_nat (length [user_row id salt d iters])) with 1 in Hc.
  change (Z.of_nat (length (user_row id salt d iters))) with 4 in Hf0.
  unfold parse_login_db_result, trunc. rewrite Hc, Hf0. rewrite bool_decide_true by done.
  change (1 <? 0) with false. change (1 =? 0) with false. cbn [negb take user_row].
  rewrite !length_hex_encode, Hs, Hdl. change (2 * 16 =? SALT_HEX_LEN)%nat with true.
  change (2 * 32 =? DIGEST_HEX_LEN)%nat with true. cbn [negb orb]. rewrite !copy_number_int by done.
  rewrite long_to_int_id by done. rewrite (proj2 (Z.ltb_ge _ _)) by lia.
  assert (clamp_ll id = id) as -> by (unfold clamp_ll, LLONG_MAX, LONG_MAX, int_range, INT_MIN, INT_MAX in *; lia).
  done.
Qed.

(** ** The table behind the statements *)

Record user_rec := mkUser { u_id : Z; u_name : list Z; u_salt : list Z; u_digest : list Z; u_iters : Z }.

Definition named (name : list Z) (table : list user_rec) : list user_rec := filter (fun u => u_name u = name) table.

(** The statements of the two exchanges, in SQL. *)
Definition select_login (name : list Z) : list Z :=
  bytes "select id, salt, digest, iters from user where name = '" ++ name ++ bytes "';".
Definition select_taken (name : list Z) : list Z := bytes "select id from user where name = '" ++ name ++ bytes "';".
(** The columns of the table are id, name, salt, digest, iters, created. *)
Definition insert_user (u : user_rec) (created : Z) : list Z :=
  bytes "insert into user values (" ++ decimal_ll (u_id u) ++ bytes ", '" ++ u_name u ++ bytes "', '" ++ u_salt u ++
  bytes "', '" ++ u_digest u ++ bytes "', " ++ decimal_int (u_iters u) ++ bytes ", " ++ decimal_ll created ++ bytes ");".

Definition login_row (u : user_rec) : list (list Z) := [decimal_int (u_id u); u_salt u; u_digest u; decimal_int (u_iters u)].

(** What a connection promises of the statements it answers OK: a query is answered
    from the table the connection sees, an insertion adds the row it spells, a commit
    keeps it.  Values with a quote in them are not covered. *)
Class UserTable {W : Type} `{!DbConn W} (users : W -> list user_rec) := {
  ut_taken w name cap text w' : user_name_ok name = true ->
    db_exec w (select_taken name) (Some cap) = Some (DB_OK, text, w') ->
    users w' = users w /\
    exists hdr dashes rows, reply_ok [hdr] dashes rows /\ (rows = [] <-> named name (users w) = []) /\
      text = trunc cap (reply [hdr] dashes rows []);
  ut_insert w u created text w' :
    user_name_ok (u_name u) = true -> QUOTE ∉ u_salt u -> QUOTE ∉ u_digest u -> ll_range (u_id u) -> int_range (u_iters u) ->
    db_exec w (insert_user u created) None = Some (DB_OK, text, w') -> users w' = users w ++ [u];
  ut_commit w text w' : db_exec w (bytes "commit;") None = Some (DB_OK, text, w') -> users w' = users w;
  ut_login w name cap text w' : user_name_ok name = true ->
    db_exec w (select_login name) (Some cap) = Some (DB_OK, text, w') ->
    exists hdr dashes, no_newline hdr /\ (0 < dashes)%nat /\ (length hdr + dashes <= 3000)%nat /\
      text = trunc cap (reply [hdr] dashes (login_row <$> named name (users w)) [])
}.

(** The code makes these statements. *)
Lemma decimal_loop_length fuel : forall n acc, (length (decimal_loop fuel n acc) <= fuel + length acc)%nat.
Proof.
  induction fuel as [|fuel IH]; intros n acc; cbn [decimal_loop]; [done|]. case_match; [simpl; lia|].
  etrans; [apply IH|]. simpl. lia.
Qed.

Lemma decimal_ll_length n : (length (decimal_ll n) <= 21)%nat.
Proof.
  unfold decimal_ll. pose proof (decimal_loop_length 20 n []). pose proof (decimal_loop_length 20 (- n) []).
  cbn [length] in *. case_match; cbn [length]; lia.
Qed.

#[local] Ltac statement_length :=
  repeat rewrite length_app; cbn [length]; repeat rewrite length_app; cbn [length];
  repeat match goal with |- context [length (bytes ?t)] =>
    let n := eval vm_compute in (length (bytes t)) in change (length (bytes t)) with n end.

Lemma sql_login_asks name : user_name_ok name = true -> sql_login (db_quote QUOTED_MAX name) = select_login name.
Proof.
  intros Hn. rewrite db_quote_name by done. apply user_name_plain in Hn as [_ Hl]. unfold USER_NAME_MAX, MAX_NAME in Hl.
  unfold sql_login, select_login, trunc. rewrite take_ge by (statement_length; lia).
  cbn. by rewrite <- app_assoc.
Qed.

Lemma sql_exists_asks name : user_name_ok name = true -> sql_user_exists (db_quote QUOTED_MAX name) = select_taken name.
Proof.
  intros Hn. rewrite db_quote_name by done. apply user_name_plain in Hn as [_ Hl]. unfold USER_NAME_MAX, MAX_NAME in Hl.
  unfold sql_user_exists, select_taken, trunc. rewrite take_ge by (statement_length; lia).
  cbn. by rewrite <- app_assoc.
Qed.

Lemma sql_insert_asks id name salt digest iters now :
  user_name_ok name = true -> int_range iters -> (length salt <= 64)%nat -> (length digest <= 64)%nat ->
  sql_user_insert id (db_quote QUOTED_MAX name) salt digest iters now = insert_user (mkUser id name salt digest iters) now.
Proof.
  intros Hn Hit Hs Hd. rewrite db_quote_name by done. apply user_name_plain in Hn as [_ Hl]. unfold USER_NAME_MAX, MAX_NAME in Hl.
  pose proof (decimal_ll_length id). pose proof (decimal_ll_length now). pose proof (decimal_int_length iters Hit).
  unfold sql_user_insert, insert_user, trunc. cbn [u_id u_name u_salt u_digest u_iters].
  rewrite take_ge by (statement_length; lia). generalize (decimal_ll id), (decimal_ll now), (decimal_int iters). intros a b c.
  cbn. by rewrite <- app_assoc.
Qed.

Lemma hex_no_quote m : QUOTE ∉ hex_encode m.
Proof. apply hex_chars. reflexivity. Qed.

(** After the transaction the table has one row of that name, with this salt and
    digest. *)
Lemma commits_new_row {W} `{!DbConn W} (users : W -> list user_rec) `{!UserTable users} w name salt digest iters now id w' :
  user_name_ok name = true -> int_range iters -> id <= INT_MAX -> length salt = 16%nat -> length digest = 32%nat ->
  commits_new_user w name (hex_encode salt) (hex_encode digest) iters now id w' ->
  named name (users w') = [mkUser id name (hex_encode salt) (hex_encode digest) iters].
Proof.
  intros Hn Hit Hid Hs Hd (t0 & w1 & maxes & w2 & found & w3 & t1 & w4 & t2 & _ & _ & _ & Hpos & Hex & Hz & Hin & Hco).
  unfold done_ok in *. rewrite sql_exists_asks in Hex by done.
  destruct (ut_taken w2 name BODY_MAX found w3 Hn Hex) as (Hu3 & hdr & dashes & rows & Hok & Hlen & ->).
  rewrite sql_insert_asks in Hin by (done || rewrite length_hex_encode; lia).
  apply ut_insert in Hin as Hu4; [|done|apply hex_no_quote..| |done].
  2: { unfold ll_range, LLONG_MAX, LONG_MAX, INT_MAX in *. simpl. lia. }
  apply ut_commit in Hco as Hu'. rewrite Hu', Hu4, Hu3. unfold named. rewrite filter_app, filter_cons_True by done.
  assert (named name (users w2) = []) as E; [|unfold named in E; by rewrite E].
  pose proof (reply_read_back _ _ _ [] (BODY_MAX - 1) Hok) as H. cbv zeta in H. unfold trunc in Hz.
  destruct (_ <=? _)%nat; destruct H as [H _]; rewrite H in Hz; [|done]. apply Hlen, length_zero_iff_nil. lia.
Qed.


(** *** A small database *)

Definition plain_reply (cap : option nat) (rows : list (list (list Z))) : list Z :=
  trunc (default 0%nat cap) (reply [bytes "id"] 9 rows []).

(** What each statement is split into by its quotes, and what it does. *)
#[local] Instance users_conn : DbConn (list user_rec) := fun t sql cap =>
  match split_on QUOTE sql with
  | [head] => Some (DB_OK, if bool_decide (head = sql_user_max) then plain_reply cap [[bytes "3"]] else [], t)
  | [head; name; tail] =>
      if bool_decide (head = bytes "select id, salt, digest, iters from user where name = ") && bool_decide (tail = bytes ";")
      then Some (DB_OK, plain_reply cap (login_row <$> named name t), t)
      else if bool_decide (head = bytes "select id from user where name = ") && bool_decide (tail = bytes ";")
      then Some (DB_OK, plain_reply cap ((fun _ => [bytes "1"]) <$> take 1 (named name t)), t)
      else Some (DB_ERROR, [], t)
  | head :: name :: _ :: salt :: _ :: digest :: tail :: _ =>
      if bool_decide (take 25 head = bytes "insert into user values (")
      then Some (DB_OK, [], t ++ [mkUser (strtol (drop 25 head)).1 name salt digest (strtol (drop 2 tail)).1])
      else Some (DB_ERROR, [], t)
  | _ => Some (DB_ERROR, [], t)
  end.

Lemma split_statement head name tail :
  QUOTE ∉ head -> user_name_ok name = true -> QUOTE ∉ tail ->
  split_on QUOTE (head ++ QUOTE :: name ++ QUOTE :: tail) = [head; name; tail].
Proof.
  intros Hh [Hn _]%user_name_plain Ht. rewrite split_on_field by done. rewrite split_on_field by done.
  by rewrite split_on_last by done.
Qed.

Lemma split_on_start sep a b : sep ∉ a -> exists p ps, split_on sep (a ++ b) = (a ++ p) :: ps.
Proof.
  induction a as [|c a IH].
  - intros _. destruct (split_on sep b) as [|p ps] eqn:E; [by destruct (split_on_not_nil sep b)|]. exists p, ps. done.
  - intros [Hc Ha]%not_elem_of_cons. destruct (IH Ha) as (p & ps & E). exists p, ps. simpl.
    rewrite (proj2 (Z.eqb_neq c sep)) by done. by rewrite E.
Qed.

(** What the insertion is split into. *)
Lemma split_insert u created :
  user_name_ok (u_name u) = true -> QUOTE ∉ u_salt u -> QUOTE ∉ u_digest u -> ll_range (u_id u) -> int_range (u_iters u) ->
  exists p ps, split_on QUOTE (insert_user u created) =
    (bytes "insert into user values (" ++ decimal_ll (u_id u) ++ bytes ", ") :: u_name u :: bytes ", " :: u_salt u ::
    bytes ", " :: u_digest u :: (bytes ", " ++ decimal_int (u_iters u) ++ bytes ", " ++ p) :: ps.
Proof.
  intros [Hn _]%user_name_plain Hs Hd Hid Hit.
  assert (Hqd : QUOTE ∉ decimal_ll (u_id u)) by (destruct (decimal_ll_text _ Hid) as [Hdg _]; by apply digit_not).
  assert (Hqi : QUOTE ∉ decimal_int (u_iters u)) by (by apply decimal_int_avoids).
  assert (Hc : QUOTE ∉ bytes ", ") by (apply not_in_bytes; reflexivity).
  assert (Hi : QUOTE ∉ bytes "insert into user values (") by (apply not_in_bytes; reflexivity).
  destruct (split_on_start QUOTE (bytes ", " ++ decimal_int (u_iters u) ++ bytes ", ") (decimal_ll created ++ bytes ");"))
    as (p & ps & E); [rewrite !not_elem_of_app; tauto|]. exists p, ps. unfold insert_user.
  generalize dependent (decimal_ll (u_id u)). intros num Hnum.
  transitivity (split_on QUOTE ((bytes "insert into user values (" ++ num ++ bytes ", ") ++ QUOTE :: u_name u ++ QUOTE ::
    bytes ", " ++ QUOTE :: u_salt u ++ QUOTE :: bytes ", " ++ QUOTE :: u_digest u ++ QUOTE ::
    (bytes ", " ++ decimal_int (u_iters u) ++ bytes ", ") ++ decimal_ll created ++ bytes ");")).
  { f_equal. rewrite <- !app_assoc. done. }
  rewrite !split_on_field by (done || (rewrite !not_elem_of_app; tauto)). rewrite E. by rewrite <- !app_assoc.
Qed.

#[local] Instance users_table : UserTable (W := list user_rec) id.
Proof.
  split.
  - intros t name cap text t' Hn. unfold db_exec, users_conn.
    assert (split_on QUOTE (select_taken name) = [bytes "select id from user where name = "; name; bytes ";"]) as ->.
    { apply (split_statement (bytes "select id from user where name = ") name (bytes ";"));
        [apply not_in_bytes; reflexivity|done|apply not_in_bytes; reflexivity]. }
    rewrite bool_decide_false by (vm_compute; discriminate). rewrite !bool_decide_true by done. cbn [andb].
    intros [= <- <-]. split; [done|]. exists (bytes "id"), 9%nat. eexists. split; [|split; [|done]].
    + split; try done; try lia.
      * apply Forall_singleton, not_in_bytes. reflexivity.
      * destruct (named name t); [by apply Forall_nil|]. apply Forall_singleton, Forall_singleton.
        split; apply not_in_bytes; reflexivity.
      * destruct (named name t); [by apply Forall_nil|]. by apply Forall_singleton.
      * unfold INT_MAX. destruct (named name t); simpl; lia.
    + unfold id. by destruct (named name t).
  - intros t u created text t' Hn Hs Hd Hid Hit. unfold db_exec, users_conn.
    destruct (split_insert u created Hn Hs Hd Hid Hit) as (p & ps & ->).
    change (take 25 (bytes "insert into user values (" ++ decimal_ll (u_id u) ++ bytes ", "))
      with (bytes "insert into user values (").
    change (drop 25 (bytes "insert into user values (" ++ decimal_ll (u_id u) ++ bytes ", "))
      with (decimal_ll (u_id u) ++ bytes ", ").
    change (drop 2 (bytes ", " ++ decimal_int (u_iters u) ++ bytes ", " ++ p)) with (decimal_int (u_iters u) ++ bytes ", " ++ p).
    rewrite bool_decide_true by done. rewrite strtol_decimal_ll by (done || by intros ? [= <-]).
    rewrite strtol_decimal_int by (done || by intros ? [= <-]). intros [= _ <-]. by destruct u.
  - intros t text t'. unfold db_exec, users_conn. by intros [= _ <-].
  - intros t name cap text t' Hn. unfold db_exec, users_conn.
    assert (split_on QUOTE (select_login name) =
      [bytes "select id, salt, digest, iters from user where name = "; name; bytes ";"]) as ->.
    { apply (split_statement (bytes "select id, salt, digest, iters from user where name = ") name (bytes ";"));
        [apply not_in_bytes; reflexivity|done|apply not_in_bytes; reflexivity]. }
    rewrite !bool_decide_true by done. cbn [andb]. intros [= <- <-]. exists (bytes "id"), 9%nat.
    split_and!; [apply not_in_bytes; reflexivity|lia|cbn; lia|done].
Qed.

Definition ann_acc : acc := mkAcc (bytes "ann") (bytes "correct horse").

Lemma toy_pbkdf2_ok p s i :
  exists d, toy_pbkdf2 p s i = Some d /\ length d = 32%nat /\ Forall (fun b => 0 <= b <= 255) d.
Proof.
  eexists. split; [reflexivity|]. split; [apply length_replicate|]. apply Forall_replicate.
  pose proof (Z.mod_pos_bound (foldl Z.add i (p ++ s)) 256 ltac:(lia)). lia.
Qed.

(** Ann registers in a table that has bob, then tries another password. *)
Definition bob_only : list user_rec := [mkUser 3 (bytes "bob") (bytes "00") (bytes "00") 1000].

