(* ===== verification/SessionProc.v ===== *)
(** * SessionProc: the process behind one client

    Models tetriSH/src/tetrisd/session.c after the handshake: the routing of client
    requests, the messages of the admin thread, the gravity tick, and the loop that
    multiplexes them; and history_offer of history.c, which answers one method.  What
    goes out - records the socketpair to the admin accepted, frames handed to the
    secure session, rounds handed to the history - is a log; whether the socketpair
    accepts the next record is an input.  What poll, the clocks and the database give
    is the input of each turn of the loop.  Log lines have no effect. *)

From Stdlib Require Import String.
From stdpp Require Import options.
From S2P Require Import Prelude Piece Board Action Engine AdminMsg Text Layout DbRows History Htttp Tetrissh.
From S2P Require Import Auth.
#[local] Open Scope Z_scope.

(** ** session.h *)

Record Session := mkSess {
  s_session : SessionState;
  s_game : GameState;
  s_user_name : list Z;
  s_ts_start : Z
}.

Definition set_session (v : SessionState) (s : Session) : Session := mkSess v (s_game s) (s_user_name s) (s_ts_start s).
Definition set_game (v : GameState) (s : Session) : Session := mkSess (s_session s) v (s_user_name s) (s_ts_start s).
Definition set_user_name (v : list Z) (s : Session) : Session := mkSess (s_session s) (s_game s) v (s_ts_start s).
Definition set_ts_start (v : Z) (s : Session) : Session := mkSess (s_session s) (s_game s) (s_user_name s) v.

Definition with_phase (v : SessionPhase) (st : SessionState) : SessionState :=
  mkSession v (room_id st) (player_id st) (is_owner st) (roster st) (roster_count st).

Definition set_my_player_id (v : Z) (g : GameState) : GameState := mkGame (board g) (active g) (next g) (hold g)
  (hold_used g) (score g) (lines g) (level g) (tick_count g) (tick_trigger g) (seed g) (piece_generated_counter g)
  (game_over g) (garbage_out g) (standings g) (standing_count g) v.

(** What the process has done to the outside. *)
Inductive output :=
| ToAdmin (m : AdminMsg)
| ToClient (frame : list Z)
| ToHistory (player : Z) (name : list Z) (score lines ts_start ts_end : Z).

(** The log, and whether the writes to the admin to come succeed; past the list the
    admin is gone. *)
Record Io := mkIo { io_out : list output; io_admin : list bool }.

Definition emit (o : output) (io : Io) : Io := mkIo (io_out io ++ [o]) (io_admin io).

Definition admin_send (m : AdminMsg) (io : Io) : bool * Io :=
  match io_admin io with
  | true :: rest => (true, mkIo (io_out io ++ [ToAdmin m]) rest)
  | false :: rest => (false, mkIo (io_out io) rest)
  | [] => (false, io)
  end.

(** ** Setting up *)

(** [memset(&s->game, 0, sizeof s->game)]. *)
Definition blank_game : GameState :=
  mkGame (replicate (Z.to_nat BOARD_HEIGHT) (replicate (Z.to_nat BOARD_WIDTH) 0)) (mkPiece PIECE_NONE 0 0 0)
    (replicate 5 PIECE_NONE) PIECE_NONE false 0 0 0 0 0 0 0 false 0
    (replicate (Z.to_nat MAX_STANDINGS) zero_standing) 0 0.

(** [mem] is what the stack held: the roster is not reset. *)
Definition session_reset (mem : Session) : Session :=
  mkSess (mkSession SESSION_IDLE ROOM_NONE 0 false (roster (s_session mem)) (roster_count (s_session mem)))
    (set_my_player_id (-1) blank_game) [] 0.

Definition session_start_game (s : Session) (sd now : Z) : Session :=
  set_ts_start now (set_session (with_phase SESSION_PLAYING (s_session s))
    (set_game (tetrisbrain_init (s_game s) sd) s)).

Definition session_flush_garbage (s : Session) (io : Io) : Session * Io :=
  if garbage_out (s_game s) <=? 0 then (s, io)
  else
    let '(ok, io) := admin_send (set_m_lines (garbage_out (s_game s)) (zero_msg ADMIN_GARBAGE)) io in
    (if ok : bool then set_game (set_garbage_out 0 (s_game s)) s else s, io).

(** ** Pushing to the client *)

Definition CT_STATE : list Z := bytes "application/tetris-state".
Definition FRAME_CAP : nat := Z.to_nat 65536.

(** The request a push serializes. *)
Definition push_of (method path : list Z) (content : list Z) : htttp_request :=
  mkRequest (trunc HTTTP_MAX_METHOD method) (trunc HTTTP_MAX_PATH path)
    (match htttp_header_set [] (bytes "Content-Type") CT_STATE with Ok hs => hs | Err _ => [] end)
    (Some content) (Z.of_nat (length content)).

Definition push_request (method path content : list Z) (io : Io) : Io :=
  match htttp_serialize_request (push_of method path content) FRAME_CAP with
  | Ok frame => emit (ToClient frame) io
  | Err _ => io
  end.

Definition session_push_session (s : Session) (io : Io) : Io :=
  push_request (bytes "UPD_SESSION") (bytes "/session/state") (image SessionState_layout (s_session s)) io.

Definition session_push_game (s : Session) (io : Io) : Io :=
  push_request (bytes "STATE") (trunc HTTTP_MAX_PATH (bytes "/room/" ++ decimal_int (room_id (s_session s))))
    (image GameState_layout (s_game s)) io.

Definition session_push_result (winner : Z) (io : Io) : Io :=
  push_request (bytes "UPD_RESULT") (bytes "/game/result") (image int_layout winner) io.

Definition session_push_reject (date : option (list Z)) (status : Z) (io : Io) : Io :=
  match htttp_serialize_response date (mkResponse status [] None 0) FRAME_CAP with
  | Ok frame => emit (ToClient frame) io
  | Err _ => io
  end.

(** ** Routing *)

Definition body_is (req : htttp_request) (token : list Z) : bool :=
  match body req with
  | None => false
  | Some b => (body_len req =? Z.of_nat (length token)) && bool_decide (take (length token) b = token)
  end.

Inductive RouteWhen := ROUTE_ANY | ROUTE_PLAYING.
Inductive RouteShape := PATH_ROOM | PATH_ROOM_PLAYER.

#[global] Instance RouteWhen_eq_dec : EqDecision RouteWhen.
Proof. solve_decision. Defined.
#[global] Instance RouteShape_eq_dec : EqDecision RouteShape.
Proof. solve_decision. Defined.

(** The status earned; [None] only if the engine does not come to rest. *)
Definition RouteFn : Type := Session -> Io -> htttp_request -> Z -> option (Z * Session * Io).

Definition play (m : Move) (s : Session) : option Session :=
  g ← tetrisbrain_input (s_game s) m; Some (set_game g s).

Definition route_move : RouteFn := fun s io req _ =>
  if body_is req (bytes "LEFT") then s ← play MOVE_LEFT s; Some (200, s, io)
  else if body_is req (bytes "RIGHT") then s ← play MOVE_RIGHT s; Some (200, s, io)
  else Some (400, s, io).

Definition route_rotate : RouteFn := fun s io req _ =>
  if body_is req (bytes "CW") then s ← play MOVE_ROT_RIGHT s; Some (200, s, io)
  else if body_is req (bytes "CCW") then s ← play MOVE_ROT_LEFT s; Some (200, s, io)
  else Some (400, s, io).

Definition route_drop : RouteFn := fun s io req _ =>
  if body_is req (bytes "SOFT") then
    s ← play MOVE_SOFT_DROP s; let '(s, io) := session_flush_garbage s io in Some (200, s, io)
  else if body_is req (bytes "HARD") then
    s ← play MOVE_HARD_DROP s; let '(s, io) := session_flush_garbage s io in Some (200, s, io)
  else Some (400, s, io).

Definition route_hold : RouteFn := fun s io _ _ => s ← play HOLD s; Some (200, s, io).

(** [name] is the authenticated name, [auth_get_name]. *)
Definition route_join (name : list Z) : RouteFn := fun s io _ room =>
  let out := mkMsg ADMIN_JOIN room (text (trunc 16 name)) 0 0 0 0 0 zero_session false
               (replicate (Z.to_nat MAX_STANDINGS) zero_standing) 0 in
  let s := set_user_name (trunc 16 (trunc 16 name)) s in
  let '(ok, io) := admin_send out io in
  Some (if ok : bool then 200 else 500, s, io).

Definition route_leave : RouteFn := fun s io _ _ =>
  let '(ok, io) := admin_send (zero_msg ADMIN_LEAVE) io in Some (if ok : bool then 200 else 500, s, io).

Definition route_start : RouteFn := fun s io _ _ =>
  let '(ok, io) := admin_send (zero_msg ADMIN_START) io in Some (if ok : bool then 200 else 500, s, io).

Record route := mkRoute {
  ro_method : list Z; ro_when : RouteWhen; ro_shape : RouteShape; ro_owns_room : bool; ro_fn : RouteFn
}.

Definition ROUTES (name : list Z) : list route :=
  [mkRoute (bytes "MOVE") ROUTE_PLAYING PATH_ROOM_PLAYER true route_move;
   mkRoute (bytes "ROTATE") ROUTE_PLAYING PATH_ROOM_PLAYER true route_rotate;
   mkRoute (bytes "DROP") ROUTE_PLAYING PATH_ROOM_PLAYER true route_drop;
   mkRoute (bytes "HOLD") ROUTE_PLAYING PATH_ROOM_PLAYER true route_hold;
   mkRoute (bytes "JOIN") ROUTE_ANY PATH_ROOM false (route_join name);
   mkRoute (bytes "LEAVE") ROUTE_ANY PATH_ROOM true route_leave;
   mkRoute (bytes "START") ROUTE_ANY PATH_ROOM true route_start].

(** The room and the player a path names; the whole path has to match. *)
Definition path_ids (path : list Z) (shape : RouteShape) : option (Z * Z) :=
  rest ← scan_lit (bytes "/room/") path;
  '(room, rest) ← scan_int rest;
  match shape with
  | PATH_ROOM => if bool_decide (rest = []) then Some (room, -1) else None
  | PATH_ROOM_PLAYER =>
      rest ← scan_lit (bytes "/player/") rest;
      '(player, rest) ← scan_int rest;
      if bool_decide (rest = []) then Some (room, player) else None
  end.

Definition PLAYER_ID : list Z := bytes "Player-Id".

(** The guards of a row, in order: a refusal with its status and whether it is
    answered, or the room the path names. *)
Definition route_guards (s : Session) (req : htttp_request) (r : route) : (Z * bool) + Z :=
  if bool_decide (ro_when r = ROUTE_PLAYING) && negb (bool_decide (phase (s_session s) = SESSION_PLAYING))
  then inl (409, false)
  else
    match htttp_header_get (headers req) PLAYER_ID with
    | None => inl (401, true)
    | Some id =>
        if negb (room_id (s_session s) =? ROOM_NONE) && negb (atoi id =? player_id (s_session s)) then inl (403, true)
        else
          match path_ids (path req) (ro_shape r) with
          | None => inl (404, true)
          | Some (room, player) =>
              if ro_owns_room r &&
                 (negb (room =? room_id (s_session s)) ||
                  (bool_decide (ro_shape r = PATH_ROOM_PLAYER) && negb (player =? player_id (s_session s))))
              then inl (403, true)
              else inr room
          end
    end.

(** The scan of the table: the first row of the method decides. *)
Fixpoint route_request (rows : list route) (s : Session) (io : Io) (req : htttp_request)
    : option (Z * bool * Session * Io) :=
  match rows with
  | [] => Some (501, true, s, io)
  | r :: rows =>
      if negb (strcmp (method req) (ro_method r) =? 0) then route_request rows s io req
      else
        match route_guards s req r with
        | inl (status, answer) => Some (status, answer, s, io)
        | inr room => '(status, s, io) ← ro_fn r s io req room; Some (status, true, s, io)
        end
  end.

(** ** historyview.h on the wire *)

Definition view_code (v : history_view_status) : Z :=
  match v with HISTORY_VIEW_OK => 0 | HISTORY_VIEW_EMPTY => 1 | HISTORY_VIEW_GUEST => 2 | HISTORY_VIEW_UNAVAILABLE => 3 end.
Definition view_of_code (n : Z) : history_view_status :=
  match n with 1 => HISTORY_VIEW_EMPTY | 2 => HISTORY_VIEW_GUEST | 3 => HISTORY_VIEW_UNAVAILABLE | _ => HISTORY_VIEW_OK end.

Definition history_round_layout : layout history_round :=
  struct_layout (fun '(a, (b, (c, d))) => mkRound a b c d)
    (fun r => (hr_score r, (hr_lines r, (hr_ts_start r, hr_ts_end r))))
    (pair_layout int_layout (pair_layout int_layout (pair_layout int_layout int_layout))).

Definition player_history_layout : layout player_history :=
  struct_layout (fun '(st, (r, (n, (a, (b, c))))) => mkHistory st r n a b c)
    (fun h => (h_status h, (h_recent h, (h_recent_count h, (h_best_score h, (h_best_lines h, h_games_played h))))))
    (pair_layout (enum_layout view_code view_of_code) (pair_layout (array_layout HISTORY_VIEW_ROUNDS history_round_layout)
      (pair_layout int_layout (pair_layout int_layout (pair_layout int_layout int_layout))))).

#[export] Instance history_round_lawful : Lawful history_round_layout.
Proof. apply struct_lawful; [by intros []|typeclasses eauto]. Qed.
#[export] Instance player_history_lawful : Lawful player_history_layout.
Proof. apply struct_lawful; [by intros []|typeclasses eauto]. Qed.

(** ** Turns of the loop *)

Section session.
Context {W : Type} `{!DbConn W}.

(** What a turn finds: the date for a response, the time, a database connection. *)
Record moment := mkMoment { t_date : option (list Z); t_now : Z; t_conn : option W }.

(** [None]: not the HISTORY method, or its reply is still awaited. *)
Definition history_offer (t : moment) (req : htttp_request) (user_name : list Z) (ph : SessionPhase) (io : Io)
    : option (bool * Io) :=
  if negb (strcmp (method req) (bytes "HISTORY") =? 0) then Some (false, io)
  else if bool_decide (ph = SESSION_PLAYING) then Some (true, session_push_reject (t_date t) 409 io)
  else
    '(view, _) ← (if bool_decide (user_name = []) then Some (blank_history HISTORY_VIEW_GUEST, None)
                  else history_db_read_player (t_conn t) user_name);
    Some (true, push_request (bytes "UPD_HISTORY") (bytes "/player/history") (image player_history_layout view) io).

Definition session_dispatch (t : moment) (name : list Z) (s : Session) (io : Io) (req : htttp_request)
    : option (Session * Io) :=
  match auth_offer (t_date t) req with
  | Some frame => Some (s, match frame with Some f => emit (ToClient f) io | None => io end)
  | None =>
      '(taken, io) ← history_offer t req (s_user_name s) (phase (s_session s)) io;
      if (taken : bool) then Some (s, io)
      else
        '(status, answer, s, io) ← route_request (ROUTES name) s io req;
        Some (s, if (answer : bool) && negb (status =? 200) then session_push_reject (t_date t) status io else io)
  end.

(** ** Messages of the admin thread *)

Definition session_handle_admin (t : moment) (s : Session) (io : Io) (m : AdminMsg) : option (Session * Io) :=
  match m_type m with
  | ADMIN_SESSION =>
      let io := if m_created m then session_push_reject (t_date t) 201 io else io in
      let s := set_session (m_session m) s in
      let s := set_game (set_my_player_id
                 (if room_id (s_session s) =? ROOM_NONE then -1 else player_id (s_session s)) (s_game s)) s in
      Some (s, session_push_session s io)
  | ADMIN_SEED =>
      let s := session_start_game s (m_seed m) (t_now t) in
      Some (s, session_push_session s io)
  | ADMIN_RECV_GARBAGE =>
      if bool_decide (phase (s_session s) = SESSION_PLAYING) && negb (game_over (s_game s)) then
        '(ok, g) ← board_add_garbage (s_game s) (m_lines m);
        let s := set_game (if negb ok then set_game_over true g else g) s in
        Some (s, session_push_game s io)
      else Some (s, io)
  | ADMIN_STANDINGS =>
      let s := set_game (recv_standings (s_game s) (m_standings m) (m_standing_count m)) s in
      Some (s, if bool_decide (phase (s_session s) = SESSION_GAME_OVER) then session_push_game s io else io)
  | ADMIN_RESULT =>
      let s := set_session (with_phase SESSION_WAITING (s_session s)) s in
      Some (s, session_push_session s (session_push_result (to_int (m_winner m)) io))
  | ADMIN_REJECT => Some (s, session_push_reject (t_date t) (m_reason m) io)
  | _ => Some (s, io)
  end.

(** ** The loop *)

(** The locals of the loop. *)
Record Loop := mkLoop { l_sess : Session; l_io : Io; last_score : Z; last_lines : Z }.

(** The gravity tick, while a round is running. *)
Definition session_tick (t : moment) (l : Loop) : Loop :=
  if negb (bool_decide (phase (s_session (l_sess l)) = SESSION_PLAYING)) then l
  else
    let s := set_game (tetrisbrain_tick (s_game (l_sess l))) (l_sess l) in
    let '(s, io) := session_flush_garbage s (l_io l) in
    let '(io, ls, ll) :=
      if negb (score (s_game s) =? last_score l) || negb (lines (s_game s) =? last_lines l) then
        ((admin_send (mkMsg ADMIN_SCORE 0 EmptyString (lines (s_game s)) 0 (score (s_game s)) 0 0 zero_session false
            (replicate (Z.to_nat MAX_STANDINGS) zero_standing) 0) io).2, score (s_game s), lines (s_game s))
      else (io, last_score l, last_lines l) in
    let io := session_push_game s io in
    if tetrisbrain_game_over (s_game s) then
      let s := set_session (with_phase SESSION_GAME_OVER (s_session s)) s in
      let io := (admin_send (mkMsg ADMIN_GAMEOVER 0 EmptyString 0 0 (score (s_game s)) 0 0 zero_session false
                   (replicate (Z.to_nat MAX_STANDINGS) zero_standing) 0) io).2 in
      mkLoop s (emit (ToHistory (player_id (s_session s)) (s_user_name s) (score (s_game s)) (lines (s_game s))
                        (s_ts_start s) (t_now t)) io) ls ll
    else mkLoop s io ls ll.

(** What [poll] and the calls after it give in one turn: the client's frame if it is
    readable, whether it hung up, the admin's record ([Some None] when it cannot be
    read) if that is readable, whether it hung up, and whether the tick is due. *)
Inductive turn :=
| Interrupted
| PollFailed
| Woken (t : moment) (client : option (session_err * list Z)) (client_hup : bool)
    (admin : option (option AdminMsg)) (admin_hup tick : bool).

(** Whether the loop goes on. *)
Definition session_turn (name : list Z) (l : Loop) (w : turn) : option (bool * Loop) :=
  match w with
  | Interrupted => Some (true, l)
  | PollFailed => Some (false, l)
  | Woken t client client_hup admin admin_hup tick =>
      '(go, l) ←
        match client with
        | Some (SESSION_OK, buf) =>
            match htttp_parse_request buf with
            | Ok req =>
                '(s, io) ← session_dispatch t name (l_sess l) (l_io l) req;
                Some (true, mkLoop s io (last_score l) (last_lines l))
            | Err _ => Some (true, l)
            end
        | Some (SESSION_ERR_TOOBIG, _) =>
            Some (false, mkLoop (l_sess l) (session_push_reject (t_date t) 413 (l_io l)) (last_score l) (last_lines l))
        | Some (SESSION_ERR_IO, _) => Some (false, l)
        | _ => Some (true, l)
        end;
      if negb go || client_hup then Some (false, l)
      else
        '(go, l) ←
          match admin with
          | Some (Some m) =>
              '(s, io) ← session_handle_admin t (l_sess l) (l_io l) m;
              Some (true, mkLoop s io (last_score l) (last_lines l))
          | Some None => Some (false, l)
          | None => Some (true, l)
          end;
        if negb go || admin_hup then Some (false, l)
        else Some (true, if tick : bool then session_tick t l else l)
  end.

(** The loop over the turns to come: the state it is in, and whether it has ended. *)
Fixpoint session_loop (name : list Z) (l : Loop) (turns : list turn) : option (bool * Loop) :=
  match turns with
  | [] => Some (true, l)
  | w :: turns =>
      '(go, l) ← session_turn name l w;
      if (go : bool) then session_loop name l turns else Some (false, l)
  end.

(** The loop's first state: [name] is what the gate ended with. *)
Definition session_begin (mem : Session) (name : list Z) (admin : list bool) : Loop :=
  mkLoop (set_user_name (trunc 16 name) (session_reset mem)) (mkIo [] admin) (-1) (-1).
End session.
