(* ===== verification/SessionTheorems.v ===== *)
(** * SessionTheorems: what one session process guarantees

    The loop of tetriSH/src/tetrisd/session.c against any client, any schedule and
    any outcome of its writes. *)

From Stdlib Require Import String.
From stdpp Require Import options.
From S2P Require Import Prelude Piece Board Action Brain Engine AdminMsg Text Layout DbRows History Htttp Tetrissh.
From S2P Require Import Auth SessionProc.
#[local] Open Scope Z_scope.

(** ** The board *)

(** Until the first seed the board is blank memory and no round runs; from then on
    it is a consistent game. *)
Definition sound (seeded : bool) (s : Session) : Prop :=
  if seeded then game_ok (s_game s)
  else game_memory (s_game s) /\ phase (s_session s) <> SESSION_PLAYING.

(** The admin says "playing" only after it has sent a seed. *)
Definition admits (seeded : bool) (m : AdminMsg) : Prop :=
  m_type m = ADMIN_SESSION -> phase (m_session m) = SESSION_PLAYING -> seeded = true.

Definition after (seeded : bool) (m : AdminMsg) : bool := seeded || bool_decide (m_type m = ADMIN_SEED).

Lemma after_seed b m : m_type m = ADMIN_SEED -> after b m = true.
Proof. intros E. unfold after. by rewrite bool_decide_true, orb_true_r. Qed.

Lemma after_other b m : m_type m <> ADMIN_SEED -> after b m = b.
Proof. intros E. unfold after. by rewrite bool_decide_false, orb_false_r. Qed.

Fixpoint in_protocol (seeded : bool) (ms : list AdminMsg) : Prop :=
  match ms with
  | [] => True
  | m :: ms => admits seeded m /\ in_protocol (after seeded m) ms
  end.

Lemma sound_memory b s : sound b s -> game_memory (s_game s).
Proof. destruct b; simpl; [apply game_ok_memory|by intros []]. Qed.

Lemma set_my_player_id_ok v g : game_ok g -> game_ok (set_my_player_id v g).
Proof. intros []. by split. Qed.

Lemma play_ok m s : game_ok (s_game s) -> exists s', play m s = Some s' /\ game_ok (s_game s') /\ s_session s' = s_session s.
Proof.
  intros Hg. destruct (input_ok (s_game s) m Hg) as (g' & E & Hg' & _). exists (set_game g' s).
  unfold play. by rewrite E.
Qed.

Lemma flush_ok s io :
  game_ok (s_game s) -> let '(s', _) := session_flush_garbage s io in game_ok (s_game s') /\ s_session s' = s_session s.
Proof.
  intros Hg. unfold session_flush_garbage. destruct (garbage_out (s_game s) <=? 0); [done|]. destruct (admin_send _ io) as [[|] io']; [|done].
  split; [|done]. destruct Hg. by split.
Qed.

(** What a row of the table does to a session whose game is consistent. *)
Definition row_keeps (f : RouteFn) : Prop :=
  forall s io req room, game_ok (s_game s) ->
  exists st s' io', f s io req room = Some (st, s', io') /\ game_ok (s_game s') /\ s_session s' = s_session s.

(** And to any session: rows for any phase leave the game alone. *)
Definition row_spares_game (f : RouteFn) : Prop :=
  forall s io req room, exists st s' io', f s io req room = Some (st, s', io') /\
    s_game s' = s_game s /\ s_session s' = s_session s.

Ltac by_play H := let s' := fresh "s'" in let E := fresh "E" in let Hg := fresh "Hg" in let Hs := fresh "Hs" in
  match goal with |- context [play ?m ?s] => destruct (play_ok m s H) as (s' & E & Hg & Hs); rewrite E; cbn [mbind option_bind] end.

Lemma play_rows_keep : row_keeps route_move /\ row_keeps route_rotate /\ row_keeps route_drop /\ row_keeps route_hold.
Proof.
  split_and!; intros s io req room Hg; unfold route_move, route_rotate, route_drop, route_hold.
  1, 2: repeat (case_match; [by_play Hg; eauto 10|]); eauto 10.
  - repeat (case_match; [by_play Hg; match goal with |- context [session_flush_garbage ?s1 ?i1] =>
      pose proof (flush_ok s1 i1 ltac:(done)) as Hf; destruct (session_flush_garbage s1 i1) as [s2 io2] end;
      destruct Hf as [? ?]; eexists _, s2, io2; split_and!; [reflexivity|done|congruence]|]); eauto 10.
  - by_play Hg. eauto 10.
Qed.

Lemma admin_rows_spare name :
  row_spares_game (route_join name) /\ row_spares_game route_leave /\ row_spares_game route_start.
Proof.
  split_and!; intros s io req room; unfold route_join, route_leave, route_start;
    destruct (admin_send _ io) as [ok io']; eauto 10.
Qed.

Lemma guards_playing s req r room :
  route_guards s req r = inr room -> ro_when r = ROUTE_PLAYING -> phase (s_session s) = SESSION_PLAYING.
Proof.
  unfold route_guards. intros H Hw. rewrite Hw in H. rewrite bool_decide_true in H by done.
  destruct (bool_decide (phase (s_session s) = SESSION_PLAYING)) eqn:E; [by apply bool_decide_eq_true in E|done].
Qed.

(** The table, row by row. *)
Definition row_fits (r : route) : Prop :=
  match ro_when r with ROUTE_PLAYING => row_keeps (ro_fn r) | ROUTE_ANY => row_spares_game (ro_fn r) end.

Lemma routes_fit name : Forall row_fits (ROUTES name).
Proof.
  destruct play_rows_keep as (? & ? & ? & ?). destruct (admin_rows_spare name) as (? & ? & ?).
  unfold ROUTES. repeat (apply Forall_cons; split; [done|]). by apply Forall_nil.
Qed.

Lemma sound_same b s s' : s_game s' = s_game s -> s_session s' = s_session s -> sound b s -> sound b s'.
Proof. intros Hg Hs. unfold sound. by rewrite Hg, Hs. Qed.

Lemma route_request_sound b rows s io req :
  Forall row_fits rows -> sound b s ->
  exists st ans s' io', route_request rows s io req = Some (st, ans, s', io') /\ sound b s' /\ s_session s' = s_session s.
Proof.
  intros Hrows Hs. induction Hrows as [|r rows Hr _ IH]; cbn [route_request]; [eauto 10|].
  case_match; [apply IH|]. destruct (route_guards s req r) as [[st ans]|room] eqn:Eg; [eauto 10|].
  unfold row_fits in Hr. destruct (ro_when r) eqn:Ew.
  - destruct (Hr s io req room) as (st & s' & io' & -> & Hg' & Hs'). cbn [mbind option_bind].
    eexists _, _, _, _. split_and!; [reflexivity| |done]. by apply (sound_same b s s').
  - pose proof (guards_playing _ _ _ _ Eg Ew) as Hp. destruct b; [|by destruct Hs].
    destruct (Hr s io req room Hs) as (st & s' & io' & -> & Hg' & Hs'). cbn [mbind option_bind].
    eexists _, _, _, _. split_and!; [reflexivity|done|done].
Qed.

Section loop.
Context {W : Type} `{conn_ops : !DbConn W}.
(** The database answers, whatever the answer is. *)
Context (answering : forall (w : W) sql cap, is_Some (db_exec w sql cap)).

Lemma read_scalar_total (w : W) sql : is_Some (read_scalar w sql).
Proof using answering.
  unfold read_scalar. destruct (answering w sql (Some BODY_MAX)) as [[[st t] w'] ->]. cbn. eauto.
Qed.

Lemma read_player_total (conn : option W) name : is_Some (history_db_read_player conn name).
Proof using answering.
  unfold history_db_read_player. destruct conn as [w|]; [|eauto].
  destruct (answering w (sql_rounds (db_quote QUOTED_MAX name)) (Some BODY_MAX)) as [[[st t] w1] ->].
  cbn [mbind option_bind]. repeat (case_match; [eauto|]). case_match. case_match; [|eauto].
  do 3 (match goal with |- context [read_scalar ?w ?q] =>
    destruct (read_scalar_total w q) as [[? ?] ->]; cbn [mbind option_bind] end).
  case_match; eauto.
Qed.

Lemma history_offer_total (t : moment (W := W)) req name ph io : is_Some (history_offer t req name ph io).
Proof using answering.
  unfold history_offer. case_match; [eauto|]. case_match; [eauto|].
  destruct (bool_decide (name = [])); [cbn; eauto|].
  destruct (read_player_total (t_conn t) name) as [[v c] ->]. cbn. eauto.
Qed.

Lemma session_dispatch_sound b (t : moment (W := W)) name s io req :
  sound b s -> exists s' io', session_dispatch t name s io req = Some (s', io') /\ sound b s' /\ s_session s' = s_session s.
Proof using answering.
  intros Hs. unfold session_dispatch. destruct (auth_offer (t_date t) req); [eauto 10|].
  destruct (history_offer_total t req (s_user_name s) (phase (s_session s)) io) as [[taken io1] ->].
  cbn [mbind option_bind]. destruct taken; [eauto 10|].
  destruct (route_request_sound b (ROUTES name) s io1 req (routes_fit name) Hs) as (st & ans & s' & io' & -> & Hs' & E).
  cbn [mbind option_bind]. eauto 10.
Qed.

Lemma session_handle_admin_sound b (t : moment (W := W)) s io m :
  sound b s -> admits b m ->
  exists s' io', session_handle_admin t s io m = Some (s', io') /\ sound (after b m) s'.
Proof.
  intros Hs Ha. pose proof (sound_memory b s Hs) as Hmem. unfold session_handle_admin, admits in *.
  destruct (m_type m) eqn:Em; first [rewrite (after_seed b m Em)|rewrite (after_other b m) by congruence];
    try (eexists _, _; split; [reflexivity|done]).
  - eexists _, _. split; [reflexivity|]. destruct b; simpl in *; [by apply set_my_player_id_ok|].
    split; [done|]. intros Hp. specialize (Ha eq_refl Hp). done.
  - eexists _, _. split; [reflexivity|]. simpl. by apply init_ok.
  - destruct (bool_decide (phase (s_session s) = SESSION_PLAYING)) eqn:Ep; cbn [andb]; [|eauto].
    apply bool_decide_eq_true in Ep. destruct b; [|by destruct Hs]. simpl in Hs.
    destruct (game_over (s_game s)) eqn:Eg; cbn [negb]; [eauto|].
    destruct (add_garbage_total (s_game s) (m_lines m) (ok_board _ Hs)) as (ok & g' & E). rewrite E. cbn [mbind option_bind].
    eexists _, _. split; [reflexivity|]. simpl.
    apply (recv_garbage_ok (s_game s) (m_lines m)); [done|]. unfold recv_garbage. rewrite Eg. cbn [negb]. by rewrite E.
  - eexists _, _. split; [reflexivity|]. destruct b; simpl in *; [done|]. by split.
  - eexists _, _. split; [reflexivity|]. destruct b; simpl in *.
    + by destruct Hs; split.
    + split; [done|by destruct Hs].
Qed.

Lemma session_tick_sound b (t : moment (W := W)) l : sound b (l_sess l) -> sound b (l_sess (session_tick t l)).
Proof.
  intros Hs. unfold session_tick.
  destruct (bool_decide (phase (s_session (l_sess l)) = SESSION_PLAYING)) eqn:Ep; cbn [negb]; [|done].
  apply bool_decide_eq_true in Ep. destruct b; [|by destruct Hs]. simpl in Hs.
  pose proof (flush_ok (set_game (tetrisbrain_tick (s_game (l_sess l))) (l_sess l)) (l_io l)
    (proj1 (tick_ok _ Hs))) as Hf.
  destruct (session_flush_garbage _ (l_io l)) as [s io]. destruct Hf as [Hg _]. simpl.
  destruct (_ || _), (tetrisbrain_game_over (s_game s)); done.
Qed.

(** The records of the admin thread that a run reads, in order. *)
Definition admin_read (w : turn (W := W)) : list AdminMsg :=
  match w with Woken _ _ _ (Some (Some m)) _ _ => [m] | _ => [] end.

Lemma session_turn_sound b name l w :
  sound b (l_sess l) -> in_protocol b (admin_read w) ->
  exists go l', session_turn name l w = Some (go, l') /\
    (go = true -> sound (foldl after b (admin_read w)) (l_sess l')) /\
    (phase (s_session (l_sess l')) = SESSION_PLAYING -> game_ok (s_game (l_sess l'))).
Proof using answering.
  assert (Hpl : forall b s, sound b s -> phase (s_session s) = SESSION_PLAYING -> game_ok (s_game s))
    by (intros [] s; simpl; [done|by intros []]).
  intros Hs Hp. destruct w as [| |t client chup admin ahup tick]; cbn [session_turn].
  1, 2: eexists _, _; split_and!; [reflexivity|done|by eauto].
  match goal with |- context [?c ≫= _] => assert (Hc : exists go1 l1, c = Some (go1, l1) /\ sound b (l_sess l1)) end.
  { destruct client as [[[] buf]|]; eauto. destruct (htttp_parse_request buf) as [req|]; [|eauto].
    destruct (session_dispatch_sound b t name (l_sess l) (l_io l) req Hs) as (s' & io' & -> & Hs' & _).
    cbn [mbind option_bind]. eauto. }
  destruct Hc as (go1 & l1 & -> & Hs1). cbn [mbind option_bind].
  destruct (negb go1 || chup); [eexists _, _; split_and!; [reflexivity|done|by eauto]|].
  match goal with |- context [?c ≫= _] => assert (Hc : exists go2 l2, c = Some (go2, l2) /\
    exists b2, sound b2 (l_sess l2) /\ (go2 = true -> b2 = foldl after b (admin_read (Woken t client chup admin ahup tick)))) end.
  { destruct admin as [[m|]|]; [|eauto 10..]. destruct Hp as [Ha _].
    destruct (session_handle_admin_sound b t (l_sess l1) (l_io l1) m Hs1 Ha) as (s' & io' & -> & Hs').
    cbn [mbind option_bind]. eauto 10. }
  destruct Hc as (go2 & l2 & -> & b2 & Hs2 & Hb2). cbn [mbind option_bind].
  destruct (negb go2 || ahup) eqn:Ego; [eexists _, _; split_and!; [reflexivity|done|by eauto]|].
  apply orb_false_iff in Ego as [Ego%negb_false_iff _]. rewrite <- (Hb2 Ego).
  assert (Hs3 : sound b2 (l_sess (if tick then session_tick t l2 else l2)))
    by (destruct tick; [by apply session_tick_sound|done]).
  eexists _, _. split_and!; [reflexivity|done|by eauto].
Qed.

Lemma in_protocol_app b ms ms' : in_protocol b (ms ++ ms') <-> in_protocol b ms /\ in_protocol (foldl after b ms) ms'.
Proof. revert b. induction ms as [|m ms IH]; intros b; simpl; [tauto|]. rewrite IH. tauto. Qed.

Lemma session_loop_sound b name turns : forall l,
  sound b (l_sess l) -> in_protocol b (mjoin (admin_read <$> turns)) ->
  exists go l', session_loop name l turns = Some (go, l') /\
    (phase (s_session (l_sess l')) = SESSION_PLAYING -> game_ok (s_game (l_sess l'))).
Proof using answering.
  revert b. induction turns as [|w turns IH]; intros b l Hs Hp; cbn [session_loop].
  { eexists _, _. split; [reflexivity|]. destruct b; simpl in Hs; [done|by destruct Hs]. }
  rewrite fmap_cons in Hp. cbn [mjoin list_join] in Hp. apply in_protocol_app in Hp as [Hp Hps].
  destruct (session_turn_sound b name l w Hs Hp) as (go & l1 & -> & Hgo & Hpl). cbn [mbind option_bind].
  destruct go; [|eauto]. eapply IH; [by apply Hgo|done].
Qed.
End loop.

(** ** Who may do what *)

Definition to_admin (io : Io) : list AdminMsg :=
  omap (fun o => match o with ToAdmin m => Some m | _ => None end) (io_out io).

Lemma to_admin_emit o io : (forall m, o <> ToAdmin m) -> to_admin (emit o io) = to_admin io.
Proof. intros Ho. unfold to_admin, emit. simpl. rewrite omap_app. destruct o; simpl; [by destruct (Ho m)|by rewrite app_nil_r..]. Qed.

Lemma to_admin_push m p c io : to_admin (push_request m p c io) = to_admin io.
Proof. unfold push_request. case_match; [by apply to_admin_emit|done]. Qed.

Lemma to_admin_reject d st io : to_admin (session_push_reject d st io) = to_admin io.
Proof. unfold session_push_reject. case_match; [by apply to_admin_emit|done]. Qed.

Lemma to_admin_send m io :
  let '(ok, io') := admin_send m io in to_admin io' = to_admin io ++ (if ok : bool then [m] else []).
Proof.
  unfold admin_send, to_admin. destruct (io_admin io) as [|[] rest]; simpl; rewrite ?omap_app; by rewrite ?app_nil_r.
Qed.

(** The move a command asks for. *)
Definition move_of (req : htttp_request) : option Move :=
  if bool_decide (method req = bytes "MOVE") then
    if body_is req (bytes "LEFT") then Some MOVE_LEFT else if body_is req (bytes "RIGHT") then Some MOVE_RIGHT else None
  else if bool_decide (method req = bytes "ROTATE") then
    if body_is req (bytes "CW") then Some MOVE_ROT_RIGHT else if body_is req (bytes "CCW") then Some MOVE_ROT_LEFT else None
  else if bool_decide (method req = bytes "DROP") then
    if body_is req (bytes "SOFT") then Some MOVE_SOFT_DROP else if body_is req (bytes "HARD") then Some MOVE_HARD_DROP else None
  else if bool_decide (method req = bytes "HOLD") then Some HOLD
  else None.

Definition join_record (room : Z) (name : list Z) : AdminMsg :=
  mkMsg ADMIN_JOIN room (text (trunc 16 name)) 0 0 0 0 0 zero_session false
    (replicate (Z.to_nat MAX_STANDINGS) zero_standing) 0.

(** The three things a client can make a session do, each with what it had to
    show. *)
Inductive authorized (name : list Z) (s : Session) (io : Io) (req : htttp_request) : GameState -> list AdminMsg -> Prop :=
| may_join room p :
    method req = bytes "JOIN" -> path_ids (path req) PATH_ROOM = Some (room, p) ->
    authorized name s io req (s_game s) (to_admin io ++ [join_record room name])
| may_order ty p :
    (method req = bytes "LEAVE" /\ ty = ADMIN_LEAVE \/ method req = bytes "START" /\ ty = ADMIN_START) ->
    path_ids (path req) PATH_ROOM = Some (room_id (s_session s), p) ->
    authorized name s io req (s_game s) (to_admin io ++ [zero_msg ty])
| may_play mv g g' sent :
    move_of req = Some mv -> phase (s_session s) = SESSION_PLAYING ->
    path_ids (path req) PATH_ROOM_PLAYER = Some (room_id (s_session s), player_id (s_session s)) ->
    tetrisbrain_input (s_game s) mv = Some g ->
    (g' = g /\ sent = [] \/ g' = set_garbage_out 0 g /\ sent = [set_m_lines (garbage_out g) (zero_msg ADMIN_GARBAGE)]) ->
    authorized name s io req g' (to_admin io ++ sent).

(** The request carries a Player-Id, and once the session has a room it is the
    session's own; before that the server has named no player, and only its presence
    is checked. *)
Definition player_id_fits (s : Session) (req : htttp_request) : Prop :=
  exists id, htttp_header_get (headers req) PLAYER_ID = Some id /\
    (room_id (s_session s) = ROOM_NONE \/ atoi id = player_id (s_session s)).

Lemma guards_pass s req r room :
  route_guards s req r = inr room ->
  player_id_fits s req /\ (ro_when r = ROUTE_PLAYING -> phase (s_session s) = SESSION_PLAYING) /\
  exists p, path_ids (path req) (ro_shape r) = Some (room, p) /\
    (ro_owns_room r = true -> room = room_id (s_session s) /\
       (ro_shape r = PATH_ROOM_PLAYER -> p = player_id (s_session s))).
Proof.
  intros H. pose proof (guards_playing s req r room H) as Hp. unfold route_guards in H.
  destruct (_ && _); [done|]. destruct (htttp_header_get (headers req) PLAYER_ID) as [id|] eqn:Eh; [|done].
  destruct (negb (room_id (s_session s) =? ROOM_NONE) && _) eqn:Ei; [done|].
  destruct (path_ids (path req) (ro_shape r)) as [[room' p]|] eqn:Epath; [|done].
  destruct (ro_owns_room r && _) eqn:Eo; [done|]. simplify_eq. split_and!; [|done|].
  - exists id. split; [done|]. apply andb_false_iff in Ei as [Ei|Ei]; apply negb_false_iff, Z.eqb_eq in Ei; auto.
  - exists p. split; [done|]. intros Ho. rewrite Ho in Eo. cbn [andb] in Eo. apply orb_false_iff in Eo as [E1 E2].
    apply negb_false_iff, Z.eqb_eq in E1. split; [done|]. intros Hs. rewrite bool_decide_true in E2 by done.
    cbn [andb] in E2. by apply negb_false_iff, Z.eqb_eq in E2.
Qed.

Lemma flush_sends s io :
  let '(s', io') := session_flush_garbage s io in
  s_game s' = s_game s /\ to_admin io' = to_admin io \/
  s_game s' = set_garbage_out 0 (s_game s) /\
  to_admin io' = to_admin io ++ [set_m_lines (garbage_out (s_game s)) (zero_msg ADMIN_GARBAGE)].
Proof.
  unfold session_flush_garbage. destruct (garbage_out (s_game s) <=? 0); [by left|].
  match goal with |- context [admin_send ?m io] => pose proof (to_admin_send m io) as H; destruct (admin_send m io) as [[|] io'] end;
    [right|left]; rewrite ?app_nil_r in H; done.
Qed.

(** A row once its guards let the request through: what it changes is authorized. *)
Definition row_authorized (name : list Z) (r : route) : Prop :=
  forall s io req room p st s' io',
  method req = ro_method r ->
  path_ids (path req) (ro_shape r) = Some (room, p) ->
  (ro_when r = ROUTE_PLAYING -> phase (s_session s) = SESSION_PLAYING) ->
  (ro_owns_room r = true -> room = room_id (s_session s) /\
     (ro_shape r = PATH_ROOM_PLAYER -> p = player_id (s_session s))) ->
  ro_fn r s io req room = Some (st, s', io') ->
  s_session s' = s_session s /\
  (s_game s' = s_game s /\ to_admin io' = to_admin io \/ authorized name s io req (s_game s') (to_admin io')).

Lemma play_authorized name s io req mv p s1 s' io' :
  move_of req = Some mv -> phase (s_session s) = SESSION_PLAYING ->
  path_ids (path req) PATH_ROOM_PLAYER = Some (room_id (s_session s), p) -> p = player_id (s_session s) ->
  play mv s = Some s1 -> (s', io') = (s1, io) \/ (s', io') = session_flush_garbage s1 io ->
  s_session s' = s_session s /\ authorized name s io req (s_game s') (to_admin io').
Proof.
  intros Hm Hp Hpath -> Hplay Hend. unfold play in Hplay.
  destruct (tetrisbrain_input (s_game s) mv) as [g|] eqn:Ei; [|done]. simpl in Hplay. simplify_eq.
  destruct Hend as [Hend|Hend].
  - simplify_eq. split; [done|]. rewrite <- (app_nil_r (to_admin io)). by eapply may_play; eauto.
  - pose proof (flush_sends (set_game g s) io) as Hf.
    assert (Hss : s_session (session_flush_garbage (set_game g s) io).1 = s_session s)
      by (unfold session_flush_garbage; repeat case_match; done).
    rewrite <- Hend in *. split; [done|]. simpl in Hf. destruct Hf as [[-> ->]|[-> ->]].
    + rewrite <- (app_nil_r (to_admin io)). by eapply may_play; eauto.
    + by eapply may_play; eauto.
Qed.

(** Decides the equality of two literals. *)
Ltac decide_words :=
  repeat match goal with |- context [bool_decide (bytes ?a = bytes ?b)] =>
    let v := eval vm_compute in (bool_decide (bytes a = bytes b)) in change (bool_decide (bytes a = bytes b)) with v end;
  cbv iota.

(** Closes the case of a move whose word is [E]; the other words are refused. *)
Ltac by_word Hm Hw Hpath Hpl Hf :=
  match type of Hf with (_ ← play ?mv ?s; _) = _ =>
    let Ep := fresh "Ep" in let s1 := fresh "s1" in
    destruct (play mv s) as [s1|] eqn:Ep; [|done]; cbn [mbind option_bind] in Hf;
    match goal with |- ?A /\ (_ \/ ?B) => cut (A /\ B); [tauto|] end;
    eapply (play_authorized _ _ _ _ mv); [|done|exact Hpath|exact Hpl|exact Ep|];
    [unfold move_of; rewrite Hm; decide_words;
     repeat (match goal with E : body_is _ _ = _ |- _ => rewrite E; clear E end); reflexivity|];
    repeat case_match; simplify_eq; by auto
  end.

Lemma routes_authorized name : Forall (row_authorized name) (ROUTES name).
Proof.
  unfold ROUTES. repeat (apply Forall_cons; split); [..|by apply Forall_nil];
    intros s io req room p st s' io' Hm Hpath Hw Ho Hf; cbn [ro_method ro_shape ro_when ro_owns_room ro_fn] in *;
    try (destruct (Ho eq_refl) as [-> Hpl]; clear Ho); try specialize (Hw eq_refl); try specialize (Hpl eq_refl).
  1-4: unfold route_move, route_rotate, route_drop, route_hold in Hf;
    repeat (match type of Hf with context [if body_is ?a ?b then _ else _] =>
      let E := fresh "E" in destruct (body_is a b) eqn:E; [by_word Hm Hw Hpath Hpl Hf|] end);
    first [by_word Hm Hw Hpath Hpl Hf|by simplify_eq; auto].
  all: unfold route_join, route_leave, route_start in Hf;
    match type of Hf with context [admin_send ?m ?i] => pose proof (to_admin_send m i) as Hs; destruct (admin_send m i) as [[|] io1] end;
    simplify_eq; (split; [done|]); rewrite ?app_nil_r in Hs; rewrite Hs; auto.
  all: right; first [exact (may_join name s io req room p Hm Hpath)|eapply may_order; [auto|exact Hpath]].
Qed.

Lemma route_request_authorized name rows s io req st ans s' io' :
  Forall (row_authorized name) rows -> route_request rows s io req = Some (st, ans, s', io') ->
  s_session s' = s_session s /\
  (s_game s' = s_game s /\ to_admin io' = to_admin io \/
   player_id_fits s req /\ authorized name s io req (s_game s') (to_admin io')).
Proof.
  intros Hrows. induction Hrows as [|r rows Hr _ IH]; cbn [route_request]; intros H; [simplify_eq; auto|].
  destruct (strcmp (method req) (ro_method r) =? 0) eqn:Em; cbn [negb] in H; [|by apply IH].
  apply Z.eqb_eq, strcmp_eq in Em.
  destruct (route_guards s req r) as [[st1 ans1]|room] eqn:Eg; [simplify_eq; auto|].
  destruct (guards_pass s req r room Eg) as (Hshow & Hw & p & Hp & Ho).
  destruct (ro_fn r s io req room) as [[[st1 s1] io1]|] eqn:Ef; [|done]. simpl in H. simplify_eq.
  destruct (Hr s io req room p _ _ _ Em Hp Hw Ho Ef) as (? & [?|?]); auto.
Qed.

Section commands.
Context {W : Type} `{conn_ops : !DbConn W}.

Lemma to_admin_history (t : moment (W := W)) req name ph io taken io' :
  history_offer t req name ph io = Some (taken, io') -> to_admin io' = to_admin io /\ (taken = false -> io' = io).
Proof.
  unfold history_offer. intros H. case_match; [by simplify_eq|]. case_match; [simplify_eq; by rewrite to_admin_reject|].
  destruct (if bool_decide (name = []) then _ else _) as [[v c]|]; [|done]. cbn [mbind option_bind] in H. simplify_eq.
  by rewrite to_admin_push.
Qed.

(** C11: a request changes nothing but what it is entitled to. Whatever a client sends,
    the session's room and phase stay as the admin last set them; and either its game
    and the admin's inbox are untouched, or the request carried a Player-Id, which has
    to be the session's own once it has a room (before that only its presence is
    checked), and is a join under the authenticated name, a leave or a start of the
    room the session is in, or a move of its own player in a running round, whose
    effect on the game is the engine's and whose garbage goes to the admin once. *)
Theorem commands_need_their_player (t : moment (W := W)) name s io req s' io' :
  session_dispatch t name s io req = Some (s', io') ->
  s_session s' = s_session s /\
  (s_game s' = s_game s /\ to_admin io' = to_admin io \/
   player_id_fits s req /\ authorized name s io req (s_game s') (to_admin io')).
Proof.
  unfold session_dispatch. destruct (auth_offer (t_date t) req) as [frame|].
  { intros H. assert (s' = s /\ to_admin io' = to_admin io) as [-> ->]; [|auto].
    destruct frame as [f|]; simplify_eq; [by rewrite to_admin_emit|done]. }
  destruct (history_offer t req (s_user_name s) (phase (s_session s)) io) as [[taken io1]|] eqn:Eh; [|done].
  destruct (to_admin_history _ _ _ _ _ _ _ Eh) as [Hio Hsame]. cbn [mbind option_bind].
  destruct taken; [intros; simplify_eq; auto|]. rewrite (Hsame eq_refl). clear Hsame Hio Eh.
  destruct (route_request (ROUTES name) s io req) as [[[[st ans] s1] io2]|] eqn:Er; [|done].
  cbn [mbind option_bind]. intros H.
  assert (s' = s1 /\ to_admin io' = to_admin io2) as [-> ->]
    by (simplify_eq; case_match; rewrite ?to_admin_reject; done).
  exact (route_request_authorized name _ s io req _ _ _ _ (routes_authorized name) Er).
Qed.
End commands.

(** A player in room 7 drops its piece. *)
Definition playing_session : Session :=
  mkSess (mkSession SESSION_PLAYING 7 0 true [] 0) (tetrisbrain_init blank_game 42) (bytes "ann") 0.

Definition drop_request (word path : string) : htttp_request :=
  mkRequest (bytes "DROP") (bytes path) [mkHeader (bytes "Player-Id") (bytes "0")] (Some (bytes word)) (Z.of_nat (String.length word)).

Lemma commands_need_their_player_witness :
  let io := mkIo [] (replicate 4 true) in
  let t : moment (W := script) := mkMoment None 0 None in
  let req := drop_request "HARD" "/room/7/player/0" in
  exists s' io', session_dispatch t (bytes "ann") playing_session io req = Some (s', io') /\
    bool_decide (board (s_game s') = board (s_game playing_session)) = false /\
    s_session s' = s_session playing_session /\
    (s_game s' = s_game playing_session /\ to_admin io' = to_admin io \/
     player_id_fits playing_session req /\ authorized (bytes "ann") playing_session io req (s_game s') (to_admin io')).
Proof.
  intros io t req. destruct (session_dispatch t (bytes "ann") playing_session io req) as [[s' io']|] eqn:E.
  - exists s', io'. split; [done|]. split; [|exact (commands_need_their_player t _ _ _ _ _ _ E)].
    cut (bool_decide (board (s_game (default (playing_session, io) (session_dispatch t (bytes "ann") playing_session io req)).1) =
      board (s_game playing_session)) = false); [by rewrite E|]. vm_compute. reflexivity.
  - exfalso. cut (bool_decide (is_Some (session_dispatch t (bytes "ann") playing_session io req)) = true); [by rewrite E|].
    vm_compute. reflexivity.
Defined.
