(* ===== verification/System.v ===== *)
(** * System: the admin thread and a session it serves

    Composes tetriSH/src/tetrisd/room.c with tetriSH/src/tetrisd/session.c over the
    socketpair between them.  The messages the admin addressed to a session since it
    registered it keep, whatever the other sessions do, the protocol a session relies
    on; what reaches the session is those written before the first write to it that
    failed. *)

From stdpp Require Import options.
From S2P Require Import Prelude Piece Board Action Brain Engine AdminMsg Keyed Lobby Room RoomInv RoomSpec RoomTheorems RoomMessages.
From S2P Require Import Text Layout DbRows History Htttp Tetrissh Auth SessionProc SessionTheorems.
#[local] Open Scope Z_scope.

(** ** What a session is sent *)

(** The messages of a log that went to [fd], from the [k]-th write on. *)
Definition addressed_of (fd : Z) (l : list (Z * AdminMsg)) : list AdminMsg :=
  (filter (fun e => e.1 = fd) l).*2.

Definition addressed (k : nat) (fd : Z) (s : Admin) : list AdminMsg := addressed_of fd (drop k (log s)).

(** Those of them that arrive: a write that fails, or that would have blocked and may
    have stopped in the middle of a message, ends the stream.  [pre] is what was
    written before [l]. *)
Fixpoint arrives (ws : list (Z * AdminMsg) -> Z -> AdminMsg -> Z) (fd : Z) (pre l : list (Z * AdminMsg))
    : list AdminMsg :=
  match l with
  | [] => []
  | (f, m) :: l =>
      if f =? fd then if ws pre f m =? 0 then m :: arrives ws fd (pre ++ [(f, m)]) l else []
      else arrives ws fd (pre ++ [(f, m)]) l
  end.

Definition inbox (ws : list (Z * AdminMsg) -> Z -> AdminMsg -> Z) (k : nat) (fd : Z) (s : Admin) : list AdminMsg :=
  arrives ws fd (take k (log s)) (drop k (log s)).

Lemma inbox_addressed ws k fd s : inbox ws k fd s `prefix_of` addressed k fd s.
Proof.
  unfold inbox, addressed, addressed_of. generalize (take k (log s)), (drop k (log s)). intros pre l.
  revert pre. induction l as [|[f m] l IH]; intros pre; cbn [arrives]; [done|]. rewrite filter_cons. cbn [fst].
  destruct (Z.eqb_spec f fd) as [->|Hne]; [rewrite decide_True by done|by rewrite decide_False].
  destruct (_ =? 0); [|apply prefix_nil]. rewrite fmap_cons. apply prefix_cons, IH.
Qed.

Definition seeded (ms : list AdminMsg) : bool := foldl after false ms.

Lemma in_protocol_end ms ms' : in_protocol false (ms ++ ms') <-> in_protocol false ms /\ in_protocol (seeded ms) ms'.
Proof. apply in_protocol_app. Qed.

Lemma after_mono ms : foldl after true ms = true.
Proof. induction ms as [|m ms IH]; [done|exact IH]. Qed.

Lemma seeded_app ms ms' : seeded ms = true -> seeded (ms ++ ms') = true.
Proof. unfold seeded. rewrite foldl_app. intros ->. apply after_mono. Qed.

Lemma seeded_snoc ms m : m_type m = ADMIN_SEED -> seeded (ms ++ [m]) = true.
Proof. unfold seeded. rewrite foldl_app. apply after_seed. Qed.

(** The session behind [fd], registered when the log was [k] long, has been told
    nothing it does not expect, and if the table says it plays it has its seed. *)
Record told (k : nat) (fd : Z) (s : Admin) : Prop := mkTold {
  told_reg : (k <= length (log s))%nat;
  told_addressed : in_protocol false (addressed k fd s);
  told_playing c : c ∈ g_clients s -> c_fd c = fd -> phase (c_state c) = SESSION_PLAYING -> seeded (addressed k fd s) = true
}.

Section told.
Context (ws : list (Z * AdminMsg) -> Z -> AdminMsg -> Z) (rd : nat -> Z) (k : nat) (fd : Z).

Lemma addressed_send s fd' m : (k <= length (log s))%nat ->
  addressed k fd (send ws s fd' m) = addressed k fd s ++ (if decide (fd' = fd) then [m] else []).
Proof.
  intros Hk. unfold addressed. rewrite log_send, drop_app_le by done. unfold addressed_of.
  rewrite filter_app, fmap_app. f_equal. case_decide; [by rewrite filter_cons_True|by rewrite filter_cons_False].
Qed.

Lemma told_send s fd' m : admits (seeded (addressed k fd s)) m \/ fd' <> fd -> told k fd s -> told k fd (send ws s fd' m).
Proof.
  intros Hm [Hk Hi Hp]. split.
  - rewrite log_send, length_app. lia.
  - rewrite addressed_send by done. apply in_protocol_end. split; [done|]. case_decide; [|done].
    destruct Hm as [Hm|]; [|done]. by split.
  - intros c Hc Hfd Hph. rewrite addressed_send by done. apply seeded_app. by apply (Hp c).
Qed.

Lemma told_send_other s fd' m : m_type m <> ADMIN_SESSION -> told k fd s -> told k fd (send ws s fd' m).
Proof. intros Hm. apply told_send. left. by intros H. Qed.

Lemma told_send_session s ci created : told k fd s -> told k fd (send_session_ex ws s ci created).
Proof.
  intros Ht. unfold send_session_ex. apply told_send; [|done].
  destruct (decide (c_fd (client_at s ci) = fd)) as [Hfd|]; [|by right]. left. intros _ Hph.
  unfold client_at in *. destruct (g_clients s !! ci) as [c|] eqn:Hc; [|done].
  apply (told_playing _ _ _ Ht c); [by eapply list_elem_of_lookup_2|done|done].
Qed.

Lemma told_same s s' : log s' = log s -> g_clients s' = g_clients s -> told k fd s -> told k fd s'.
Proof. intros Hl Hc [Hk Hi Hp]. split; unfold addressed in *; rewrite ?Hl, ?Hc in *; eauto. Qed.

Lemma told_room s ri f : told k fd s -> told k fd (upd_room ri f s).
Proof. by apply told_same. Qed.

(** A write to a client that neither hands its slot to the session nor lets it play. *)
Lemma told_client s ci f :
  (forall c, c_fd (f c) = fd -> phase (c_state (f c)) = SESSION_PLAYING -> c_fd c = fd /\ phase (c_state c) = SESSION_PLAYING) ->
  told k fd s -> told k fd (upd_client ci f s).
Proof.
  intros Hf [Hk Hi Hp]. split; [done..|]. intros c Hc. unfold upd_client in Hc. simpl in Hc.
  apply list_elem_of_lookup in Hc as [j Hj]. rewrite list_lookup_alter in Hj. case_decide.
  - apply fmap_Some in Hj as (c0 & Hj & ->). intros H1 H2. destruct (Hf c0 H1 H2). apply (Hp c0); [|done..].
    by eapply list_elem_of_lookup_2.
  - apply (Hp c). by eapply list_elem_of_lookup_2.
Qed.

Lemma told_foldl {A} (f : Admin -> A -> Admin) l s :
  (forall s x, told k fd s -> told k fd (f s x)) -> told k fd s -> told k fd (foldl f s l).
Proof. intros Hf. revert s. induction l; intros s Hs; simpl; auto. Qed.

Lemma told_broadcast s ri m : m_type m <> ADMIN_SESSION -> told k fd s -> told k fd (room_broadcast ws s ri m).
Proof. intros Hm. apply told_foldl. intros. by apply told_send_other. Qed.

#[local] Hint Resolve told_room told_send_session told_broadcast told_send_other : told.

Lemma told_push_sessions s ri cfd : told k fd s -> told k fd (room_push_sessions_ex ws s ri cfd).
Proof.
  intros Ht. unfold room_push_sessions_ex. case_match; [done|]. case_match. apply told_foldl; [|done].
  intros s1 fd' Ht1. case_match; [|done]. apply told_send_session. by apply told_client.
Qed.

Lemma told_push_standings s ri : told k fd s -> told k fd (room_push_standings ws s ri).
Proof.
  intros Ht. unfold room_push_standings. do 2 (case_match; [done|]). apply told_broadcast; [|by apply told_room].
  unfold standings_msg. by case_match.
Qed.

Lemma told_mark_dirty s ri : told k fd s -> told k fd (room_mark_standings_dirty s ri).
Proof. destruct ri; simpl; auto with told. Qed.

Lemma told_members s f fds :
  (forall c, c_fd (f c) = c_fd c) -> (forall c, phase (c_state (f c)) = SESSION_PLAYING -> phase (c_state c) = SESSION_PLAYING) ->
  told k fd s -> told k fd (for_members f s fds).
Proof.
  intros H1 H2. apply told_foldl. intros s1 fd' Ht. case_match; [|done]. apply told_client; [|done].
  intros c. rewrite H1. auto.
Qed.

Lemma told_round_end s ri : told k fd s -> told k fd (room_check_round_end ws s ri).2.
Proof.
  intros Ht. unfold room_check_round_end. destruct ri as [ri|]; [|done]. do 3 (case_match; [done|]). case_match.
  cbn [snd]. apply told_members; [done..|]. apply told_room, told_broadcast; [done|]. by apply told_push_standings, told_room.
Qed.
#[local] Hint Resolve told_push_sessions told_push_standings told_mark_dirty told_round_end : told.

Lemma told_init s : 0 <= fd -> told k fd s -> told k fd (ensure_init s).
Proof.
  intros Hfd Ht. unfold ensure_init. case_match; [done|]. destruct Ht as [Hk Hi Hp]. split; [done..|].
  intros c Hc. simpl in Hc. apply list_elem_of_fmap in Hc as (c0 & -> & _). simpl. lia.
Qed.

Lemma told_flush s : 0 <= fd -> told k fd s -> told k fd (room_flush_updates ws s).
Proof.
  intros Hfd Ht. unfold room_flush_updates. apply told_foldl; [|by apply told_init].
  intros s1 i Ht1. case_match; [done|]. case_match; auto with told.
Qed.

Lemma told_member_left s ri was_owner : told k fd s -> told k fd (room_member_left ws s ri was_owner).
Proof.
  intros Ht. unfold room_member_left.
  match goal with |- context [room_check_round_end ws ?s1 (Some ri)] => assert (Ht1 : told k fd s1);
    [|pose proof (told_round_end s1 (Some ri) Ht1) as Ht2; destruct (room_check_round_end ws s1 (Some ri)) as [ended s2]] end.
  { destruct was_owner; [|done]. case_match; [|done]. by apply told_client. }
  simpl in Ht2. unfold room_push_sessions. destruct ended; simpl; auto with told.
Qed.

Lemma told_leave s ci : told k fd s -> told k fd (handle_leave ws s ci).
Proof.
  intros Ht. unfold handle_leave. case_match; [by apply told_send_session|].
  match goal with |- context [send_session ws ?s1 ci] => assert (Ht1 : told k fd (send_session ws s1 ci)) end.
  { apply told_send_session, told_client; [done|]. case_match; auto with told. }
  case_match; [|done]. case_match; [auto with told|by apply told_member_left].
Qed.

Lemma told_close s fd' : 0 <= fd -> told k fd s -> told k fd (client_close ws s fd').
Proof.
  intros Hfd Ht. unfold client_close. case_match; [|done]. apply told_client; [simpl; lia|].
  case_match; [|done]. case_match; [|done]. case_match; [auto with told|]. by apply told_member_left, told_room.
Qed.

Lemma told_join s ci msg v s' : told k fd s -> handle_join ws s ci msg = Some (v, s') -> told k fd s'.
Proof.
  intros Ht. unfold handle_join, send_reject. case_match; [intros; simplify_eq; by apply told_send_other|].
  case_match; [intros; simplify_eq; by apply told_send_other|]. intros Hj. apply bind_Some in Hj as ([r s1] & Hr & Hj).
  assert (Ht1 : told k fd s1).
  { clear Hj. destruct (if m_room_id msg =? 0 then None else room_find s (m_room_id msg)) as [ri|]; [by simplify_eq|].
    unfold room_create in Hr. apply bind_Some in Hr as (id & _ & Hr).
    apply (inj Some) in Hr. case_match; [|by simplify_eq]. case_match. simplify_eq. by apply told_room. }
  destruct r as [ri|]; [|simplify_eq; by apply told_send_other].
  destruct (room_add_member _ _) as [added room]. destruct added; [|simpl in Hj; simplify_eq; by apply told_send_other].
  simpl in Hj. simplify_eq. unfold join_room. apply told_mark_dirty, told_room, told_push_sessions.
  apply told_client; [by simpl|]. apply told_client; [by simpl|]. by apply told_room, told_room.
Qed.

(** Starting a round is the one place where clients begin to play: each of them is
    sent the seed before anything else. *)
Lemma for_members_playing s fds c :
  c ∈ g_clients (for_members (upd_state (set_phase SESSION_PLAYING)) s fds) ->
  c_fd c ∈ fds \/ exists c0, c0 ∈ g_clients s /\ c_fd c0 = c_fd c /\ c_state c0 = c_state c.
Proof.
  revert s. unfold for_members. induction fds as [|fd' fds IH]; intros s; simpl; [eauto|].
  intros Hc. destruct (IH _ Hc) as [?|(c0 & Hc0 & Hfd & Hst)]; [left; by apply list_elem_of_further|].
  destruct (client_find s fd') as [ci|] eqn:Ef; [|eauto].
  unfold upd_client in Hc0. simpl in Hc0. apply list_elem_of_lookup in Hc0 as [j Hj].
  rewrite list_lookup_alter in Hj. case_decide as Hd.
  - subst. left. apply fmap_Some in Hj as (c1 & Hj & ->). simpl in Hfd. rewrite <- Hfd.
    apply client_find_fd in Ef. unfold client_at in Ef. rewrite Hj in Ef. simpl in Ef. rewrite Ef. by left.
  - right. exists c0. split_and!; [by eapply list_elem_of_lookup_2|done..].
Qed.

(** What a broadcast addresses to the session. *)
Lemma sends_addressed s fds m : (k <= length (log s))%nat ->
  let s' := foldl (fun s fd => send ws s fd m) s fds in
  g_clients s' = g_clients s /\ (k <= length (log s'))%nat /\
  exists n, addressed k fd s' = addressed k fd s ++ replicate n m /\ (fd ∈ fds -> n <> 0%nat).
Proof.
  revert s. induction fds as [|fd' fds IH]; intros s Hk; simpl.
  { split_and!; [done..|]. exists 0%nat. simpl. rewrite app_nil_r. split; [done|]. intros H. by apply not_elem_of_nil in H. }
  destruct (IH (send ws s fd' m)) as (Hc & Hl & n & Hi & Hn); [rewrite log_send, length_app; lia|].
  split_and!; [done..|]. rewrite Hi, addressed_send, <- app_assoc by done. case_decide as Hd.
  - by exists (S n).
  - exists n. split; [done|]. intros [->|]%elem_of_cons; auto.
Qed.

Lemma seeds_protocol b n m : m_type m = ADMIN_SEED -> in_protocol b (replicate n m).
Proof.
  intros Hm. revert b. induction n as [|n IH]; intros b; simpl; [done|]. split; [|done]. intros H. congruence.
Qed.

Lemma told_seeds s0 s fds m :
  told k fd s0 -> log s = log s0 -> m_type m = ADMIN_SEED ->
  (forall c, c ∈ g_clients s -> c_fd c ∈ fds \/ exists c0, c0 ∈ g_clients s0 /\ c_fd c0 = c_fd c /\ c_state c0 = c_state c) ->
  told k fd (foldl (fun s fd => send ws s fd m) s fds).
Proof.
  intros [Hk Hi Hp] Hl Hm Hcl. destruct (sends_addressed s fds m) as (Hc & Hlen & n & Hin & Hn); [by rewrite Hl|].
  assert (Hs : addressed k fd s = addressed k fd s0) by (unfold addressed; by rewrite Hl). rewrite Hs in Hin. split; [done|..].
  - rewrite Hin. apply in_protocol_end. split; [done|by apply seeds_protocol].
  - intros c Hmem Hfd Hph. rewrite Hc in Hmem. rewrite Hin. destruct (Hcl c Hmem) as [Hf|(c0 & H0 & Hf0 & Hs0)].
    + destruct n as [|n]; [subst; by destruct (Hn Hf)|]. change (S n) with (1 + n)%nat. rewrite replicate_add, app_assoc.
      by apply seeded_app, seeded_snoc.
    + apply seeded_app, (Hp c0); [done|congruence|congruence].
Qed.

Lemma told_start s ci : told k fd s -> told k fd (handle_start ws rd s ci).2.
Proof.
  intros Ht. unfold handle_start, send_reject. do 2 (case_match; [by apply told_send_other|]).
  case_match; [|by apply told_send_other]. case_match; [by apply told_send_other|]. unfold gen_seed. cbn [snd].
  apply told_mark_dirty. unfold room_broadcast.
  match goal with |- told k fd (foldl _ (for_members ?f ?s1 ?fds) ?fds') =>
    replace fds' with fds by (unfold room_at; by rewrite rooms_for_members); apply (told_seeds s1) end.
  - by apply told_room, told_room, (told_same s).
  - apply log_for_members.
  - done.
  - intros c. apply for_members_playing.
Qed.
#[local] Hint Resolve told_start told_leave : told.

Lemma told_handle s fd' msg s' : told k fd s -> client_handle ws rd s fd' msg = Some s' -> told k fd s'.
Proof.
  intros Ht. unfold client_handle. case_match; [|congruence]. destruct (m_type msg); intros Hh; simplify_eq; auto with told.
  - apply fmap_Some in Hh as ([v s1] & Hh & ->). by eapply told_join.
  - unfold handle_garbage. do 2 (case_match; [done|]). case_match; [|done]. do 2 case_match. case_match; [done|].
    by apply told_send_other.
  - unfold handle_gameover. case_match; [done|]. apply told_round_end, told_mark_dirty. by apply told_client.
  - unfold handle_score. do 2 (case_match; [done|]). apply told_mark_dirty. by apply told_client.
Qed.
End told.

(** ** Running both *)

Section served.
Context (ws : list (Z * AdminMsg) -> Z -> AdminMsg -> Z) (rd : nat -> Z) (fd : Z).

Lemma told_add_other k s fd' pid : fd' <> fd -> 0 <= fd -> told k fd s -> told k fd (client_add ws s fd' pid).
Proof.
  intros Hne Hfd Ht. unfold client_add, client_alloc. apply told_init in Ht; [|done].
  destruct (list_find _ _) as [[ci c]|]; [|by apply told_send_other]. apply told_client; [|done]. intros c'. simpl. congruence.
Qed.

Lemma told_registered s pid : 0 <= fd -> client_find s fd = None -> told (length (log s)) fd (client_add ws s fd pid).
Proof.
  intros Hfd Hn.
  assert (Ht : told (length (log s)) fd s).
  { split; [done|by unfold addressed; rewrite drop_all|]. intros c Hc Hf. unfold client_find in Hn.
    apply fmap_None, list_find_None in Hn. rewrite Forall_forall in Hn. by destruct (Hn c Hc). }
  unfold client_add, client_alloc. apply told_init in Ht; [|done].
  destruct (list_find _ _) as [[ci c]|]; [|by apply told_send_other]. by apply told_client.
Qed.

Lemma told_exec k s e s' :
  (forall pid, e <> EvAdd fd pid) -> 0 <= fd -> told k fd s -> admin_exec ws rd s e = Some s' -> told k fd s'.
Proof.
  intros He Hfd Ht. destruct e as [fd' pid|fd' msg|fd'| |]; cbn [admin_exec]; intros H.
  - apply (inj Some) in H as <-. apply told_add_other; [|done..]. intros ->. by destruct (He pid).
  - by eapply told_handle.
  - apply (inj Some) in H as <-. by apply told_close.
  - apply (inj Some) in H as <-. by apply told_flush.
  - apply (inj Some) in H as <-. unfold client_take_wedged. case_match; [done|]. by apply (told_same k fd s).
Qed.

Lemma told_run k es : forall s s',
  Forall (fun e => forall pid, e <> EvAdd fd pid) es -> 0 <= fd -> told k fd s -> admin_run ws rd s es = Some s' -> told k fd s'.
Proof.
  induction es as [|e es IH]; intros s s' Hes Hfd Ht Hrun; simpl in Hrun; [by simplify_eq|].
  apply Forall_cons in Hes as [He Hes]. case_match; [|done]. apply bind_Some in Hrun as (s1 & H1 & Hrun).
  by eapply IH; [..|eapply told_exec|].
Qed.
End served.

Lemma in_protocol_prefix b ms ms' : ms `prefix_of` ms' -> in_protocol b ms' -> in_protocol b ms.
Proof. intros [r ->]. by intros [? _]%in_protocol_app. Qed.

Lemma begin_sound mem name admin : sound false (l_sess (session_begin mem name admin)).
Proof.
  simpl. split; [|done]. split; [|done]. split; [done|]. apply Forall_replicate. done.
Qed.

(** C5: the two processes fit together.  Register a session with the admin thread
    at any point, then let every session send whatever it likes - negative room
    numbers included - in any order, with any connections and disconnections.  The
    session reads any prefix of the messages the admin wrote to it before the first
    write to it that failed or would have blocked (the admin then closes it).
    Whatever its client sent in between, and whenever its timer fired, the session
    has not got stuck, and if it is in a round its game is a consistent one - it
    never plays a board it was not given a seed for.  Its database connection
    answers every command, with an answer or an error. *)
Theorem served_session_sound {W : Type} `{conn_ops : !DbConn W} ws rd s0 fd pid es s name mem admin
    (turns : list (turn (W := W))) :
  (forall (w : W) sql cap, is_Some (db_exec w sql cap)) ->
  admin_run ws rd s0 (EvAdd fd pid :: es) = Some s ->
  Forall (fun e => forall pid', e <> EvAdd fd pid') es ->
  mjoin (admin_read <$> turns) `prefix_of` inbox ws (length (log s0)) fd s ->
  exists go l, session_loop name (session_begin mem name admin) turns = Some (go, l) /\
    (phase (s_session (l_sess l)) = SESSION_PLAYING -> game_ok (s_game (l_sess l))).
Proof.
  intros answering Hrun Hes Hread. cbn [admin_run] in Hrun. destruct (event_valid s0 (EvAdd fd pid)) eqn:Hv; [|done].
  apply andb_true_iff in Hv as [Hfd%Z.leb_le Hn%bool_decide_eq_true]. cbn [admin_exec mbind option_bind] in Hrun.
  pose proof (told_run ws rd fd _ es _ s Hes Hfd (told_registered ws fd s0 pid Hfd Hn) Hrun) as Ht.
  apply (session_loop_sound answering false); [apply begin_sound|].
  eapply in_protocol_prefix; [etrans; [exact Hread|apply inbox_addressed]|]. by eapply told_addressed.
Qed.

(** One of two players who meet and play, reading everything it is sent while its
    timer runs. *)
Definition read_turn (m : AdminMsg) : turn (W := script) :=
  Woken (mkMoment None 0 None) None false (Some (Some m)) false true.

Lemma served_session_sound_witness :
  let turns := read_turn <$> inbox quiet_net 0 10 two_players in
  exists go l, session_loop (bytes "ann") (session_begin (mkSess zero_session zero_game [] 0) (bytes "ann") []) turns = Some (go, l) /\
    (phase (s_session (l_sess l)) = SESSION_PLAYING -> game_ok (s_game (l_sess l))).
Proof.
  apply (served_session_sound quiet_net count_rand admin_start 10 100 (tail two_player_events) two_players).
  - intros w sql cap. unfold db_exec, script_conn. destruct (answers w) as [|[]]; eauto.
  - apply some_default. vm_compute. reflexivity.
  - repeat (apply Forall_cons; split; [intros pid' H; congruence|]). by apply Forall_nil.
  - cut (mjoin (admin_read <$> (read_turn <$> inbox quiet_net 0 10 two_players)) = inbox quiet_net 0 10 two_players);
      [intros ->; exists []; by rewrite app_nil_r|].
    generalize (inbox quiet_net 0 10 two_players). intros l. induction l as [|m l IH]; [done|exact (f_equal (cons m) IH)].
Defined.

(** ** A round recorded twice *)

(** What a session says of rounds that ended: to the admin, the score; to the history,
    the record. *)
Inductive ending :=
| Reported (score : Z)
| Recorded (player : Z) (name : list Z) (score lines ts_start ts_end : Z).

Definition ending_of (o : output) : option ending :=
  match o with
  | ToAdmin m => if bool_decide (m_type m = ADMIN_GAMEOVER) then Some (Reported (m_score m)) else None
  | ToHistory p n sc ln t0 t1 => Some (Recorded p n sc ln t0 t1)
  | ToClient _ => None
  end.

Definition endings (io : Io) : list ending := omap ending_of (io_out io).

(** The next [n] writes to the admin succeed. *)
Definition admin_takes (n : nat) (io : Io) : Prop := exists rest, io_admin io = replicate n true ++ rest.

(** A step of the session that ends no round and needs at most one of those writes. *)
Definition no_ending (k : nat) (io io' : Io) : Prop :=
  endings io' = endings io /\ forall n, admin_takes (k + n) io -> admin_takes n io'.

Lemma takes_more k n io : admin_takes (k + n) io -> admin_takes n io.
Proof.
  intros [rest E]. exists (replicate k true ++ rest). rewrite E, Nat.add_comm, replicate_add. by rewrite app_assoc.
Qed.

Lemma endings_emit o io : endings (emit o io) = endings io ++ match ending_of o with Some e => [e] | None => [] end.
Proof. unfold endings, emit. simpl. rewrite omap_app. simpl. by destruct (ending_of o). Qed.

Lemma endings_push m p c io : no_ending 0 io (push_request m p c io).
Proof. unfold push_request. case_match; [|done]. split; [by rewrite endings_emit, app_nil_r|done]. Qed.

Lemma endings_reject d st io : no_ending 0 io (session_push_reject d st io).
Proof. unfold session_push_reject. case_match; [|done]. split; [by rewrite endings_emit, app_nil_r|done]. Qed.

Lemma endings_send m io : m_type m <> ADMIN_GAMEOVER -> no_ending 1 io (admin_send m io).2.
Proof.
  intros Hm. split.
  - unfold admin_send, endings. destruct (io_admin io) as [|[] rest]; simpl; [done| |done].
    rewrite omap_app. simpl. rewrite bool_decide_false by done. by rewrite app_nil_r.
  - intros n [rest E]. unfold admin_send. rewrite E. simpl. by exists rest.
Qed.

Lemma endings_report m io : m_type m = ADMIN_GAMEOVER -> admin_takes 1 io ->
  endings (admin_send m io).2 = endings io ++ [Reported (m_score m)].
Proof.
  intros Hm [rest E]. unfold admin_send, endings. rewrite E. simpl. rewrite omap_app. simpl.
  by rewrite bool_decide_true by done.
Qed.

Lemma endings_flush s io : no_ending 1 io (session_flush_garbage s io).2.
Proof.
  unfold session_flush_garbage. case_match; [split; [done|]; intros n; apply (takes_more 1)|].
  match goal with |- context [admin_send ?m io] =>
    pose proof (endings_send m io ltac:(done)); destruct (admin_send m io) as [[|] ?] end; done.
Qed.

(** A tick that finds the round over reports and records it. *)
Lemma tick_ends {W : Type} `{conn_ops : !DbConn W} (t : moment (W := W)) l :
  phase (s_session (l_sess l)) = SESSION_PLAYING -> game_over (s_game (l_sess l)) = true ->
  admin_takes 3 (l_io l) ->
  let l' := session_tick t l in let s := l_sess l in
  endings (l_io l') = endings (l_io l) ++ [Reported (score (s_game s));
    Recorded (player_id (s_session s)) (s_user_name s) (score (s_game s)) (lines (s_game s)) (s_ts_start s) (t_now t)].
Proof.
  intros Hp Hg Hio. cbn zeta. unfold session_tick. rewrite Hp, bool_decide_true by done. cbn [negb].
  assert (Htick : tetrisbrain_tick (s_game (l_sess l)) = s_game (l_sess l)) by (unfold tetrisbrain_tick; by rewrite Hg).
  rewrite Htick. destruct (endings_flush (set_game (s_game (l_sess l)) (l_sess l)) (l_io l)) as [Hf Hf2].
  apply (Hf2 2%nat) in Hio. clear Hf2.
  destruct (session_flush_garbage _ (l_io l)) as [s io] eqn:Es. cbn [snd] in Hf, Hio.
  assert (Hsame : s_session s = s_session (l_sess l) /\ s_user_name s = s_user_name (l_sess l) /\ s_ts_start s = s_ts_start (l_sess l) /\
    score (s_game s) = score (s_game (l_sess l)) /\ lines (s_game s) = lines (s_game (l_sess l)) /\ game_over (s_game s) = true).
  { unfold session_flush_garbage in Es. repeat case_match; simplify_eq; done. }
  destruct Hsame as (E1 & E2 & E3 & E4 & E5 & E6). unfold tetrisbrain_game_over.
  set (pick := if _ || _ then _ else _).
  assert (Hpick : endings pick.1.1 = endings (l_io l) /\ admin_takes 1 pick.1.1).
  { unfold pick. case_match; cbn [fst]; [|split; [done|by apply (takes_more 1)]].
    match goal with |- context [admin_send ?m io] => destruct (endings_send m io) as [-> Hk]; [done|] end.
    split; [done|by apply Hk]. }
  destruct pick as [[io1 ls] ll]. cbn [fst] in Hpick. destruct Hpick as [Hp1 Ht1]. rewrite E6.
  cbn [l_io l_sess set_session s_session s_game s_user_name s_ts_start].
  assert (Hg1 : no_ending 0 io1 (session_push_game s io1)) by (unfold session_push_game; apply endings_push).
  destruct Hg1 as [Hg1 Hg2]. rewrite endings_emit, endings_report; [|done|by apply Hg2].
  rewrite Hg1, Hp1, <- app_assoc. cbn [ending_of m_score app]. by rewrite E1, E2, E3, E4, E5.
Qed.

(** C39: the admin's word for the phase can be older than the session's own.  A
    session whose round has ended, and which has recorded and reported it, takes a
    session record written before the admin handled that report; it says "playing",
    and at the next tick the session reports the end of the same round to the admin
    again, and records it - same start and score - a second time.  (The session's
    writes to the admin succeed.) *)
Theorem stale_phase_records_again {W : Type} `{conn_ops : !DbConn W} (t t' : moment (W := W)) l m :
  game_over (s_game (l_sess l)) = true -> phase (s_session (l_sess l)) = SESSION_GAME_OVER ->
  m_type m = ADMIN_SESSION -> phase (m_session m) = SESSION_PLAYING -> admin_takes 3 (l_io l) ->
  exists s io, session_handle_admin t (l_sess l) (l_io l) m = Some (s, io) /\
    endings (l_io (session_tick t' (mkLoop s io (last_score l) (last_lines l)))) =
    endings (l_io l) ++ [Reported (score (s_game (l_sess l)));
      Recorded (player_id (m_session m)) (s_user_name (l_sess l)) (score (s_game (l_sess l)))
        (lines (s_game (l_sess l))) (s_ts_start (l_sess l)) (t_now t')].
Proof.
  intros Hg _ Hm Hp Hio. unfold session_handle_admin. rewrite Hm. eexists _, _. split; [reflexivity|].
  match goal with |- endings (l_io (session_tick t' ?l1)) = _ =>
    assert (Hl1 : no_ending 0 (l_io l) (l_io l1)) end.
  { cbn [l_io]. unfold session_push_session.
    match goal with |- no_ending 0 ?a (push_request ?x ?y ?z ?b) =>
      destruct (endings_push x y z b) as [H1 H2]; assert (H0 : no_ending 0 a b) end.
    { case_match; [apply endings_reject|done]. }
    destruct H0 as [H3 H4]. split; [by rewrite H1|auto]. }
  destruct Hl1 as [He Htk]. rewrite tick_ends; [|done|done|by apply Htk]. rewrite He. done.
Qed.

(** Two players; the attack that ends the first one's round, and the second one
    leaving before the admin has the first one's report. *)
Definition stale_events : list admin_event :=
  [EvAdd 10 100; EvAdd 11 101; EvMsg 10 (join_msg 7 "ann"); EvMsg 11 (join_msg 7 "bob");
   EvMsg 10 (zero_msg ADMIN_START); EvMsg 11 (set_m_lines 30 (zero_msg ADMIN_GARBAGE)); EvMsg 11 (zero_msg ADMIN_LEAVE)].

Definition stale_inbox : list AdminMsg :=
  inbox quiet_net 0 10 (default admin_start (admin_run quiet_net count_rand admin_start stale_events)).

Definition after_attack : Loop :=
  default (session_begin (mkSess zero_session blank_game [] 0) [] [])
    (snd <$> session_loop (bytes "ann") (session_begin (mkSess zero_session blank_game [] 0) (bytes "ann") (replicate 9 true))
      (read_turn <$> take 4 stale_inbox)).

(** The same round, ended at second 0, is reported and recorded again at second 1. *)
Lemma stale_phase_records_again_witness :
  let over0 := [Reported 0; Recorded 0 (bytes "ann") 0 0 0 0] in
  map m_type stale_inbox = [ADMIN_SESSION; ADMIN_SESSION; ADMIN_SEED; ADMIN_RECV_GARBAGE; ADMIN_SESSION] /\
  endings (l_io after_attack) = over0 /\
  exists s io, session_handle_admin (W := script) (mkMoment None 0 None) (l_sess after_attack) (l_io after_attack)
      (default (zero_msg ADMIN_JOIN) (last stale_inbox)) = Some (s, io) /\
    endings (l_io (session_tick (W := script) (mkMoment None 1 None)
      (mkLoop s io (last_score after_attack) (last_lines after_attack)))) =
    over0 ++ [Reported 0; Recorded 0 (bytes "ann") 0 0 0 1].
Proof.
  intros over0. assert (Hrec : endings (l_io after_attack) = over0) by (vm_compute; reflexivity).
  split; [vm_compute; reflexivity|]. split; [exact Hrec|].
  edestruct (stale_phase_records_again (W := script) (mkMoment None 0 None) (mkMoment None 1 None) after_attack
    (default (zero_msg ADMIN_JOIN) (last stale_inbox))) as (s & io & E & Hr); [vm_compute; reflexivity..| |].
  { exists (drop 3 (io_admin (l_io after_attack))). vm_compute. reflexivity. }
  exists s, io. split; [exact E|]. rewrite Hr, Hrec. vm_compute. reflexivity.
Defined.
