(* ===== verification/Net.v ===== *)
(** * Net: the game client's end of the connection

    Models tetriSH/src/tetrisu/net.c: what the client believes, the commands it
    sends, and how a frame from the server changes what it believes.  The socket,
    the handshake and the secure session come from outside: connecting yields a
    descriptor or not, the handshake ends with a code, sending a frame succeeds or
    not, and receiving yields a code and the frame. *)

From Stdlib Require Import String.
From stdpp Require Import options.
From S2P Require Import Prelude Piece Action AdminMsg Text Layout DbRows History Htttp Tetrissh Auth SessionProc.
#[local] Open Scope Z_scope.

(** ** client.h *)

Inductive ClientPhase := CLI_DISCONNECTED | CLI_CONNECTED | CLI_WAITING | CLI_PLAYING | CLI_GAME_OVER.
Inductive AuthMethod := AUTH_NONE | AUTH_LOGIN | AUTH_REGISTER | AUTH_GUEST.
Inductive ClientEvent :=
| CLI_EV_NONE | CLI_EV_GAME | CLI_EV_SESSION | CLI_EV_RESULT | CLI_EV_REJECT | CLI_EV_DISCONNECT | CLI_EV_HISTORY
| CLI_EV_AUTH_OK | CLI_EV_AUTH_REPLY.

#[global] Instance ClientPhase_eq_dec : EqDecision ClientPhase.
Proof. solve_decision. Defined.
#[global] Instance AuthMethod_eq_dec : EqDecision AuthMethod.
Proof. solve_decision. Defined.
#[global] Instance ClientEvent_eq_dec : EqDecision ClientEvent.
Proof. solve_decision. Defined.

Definition CLIENT_ERR_CONNECT : Z := -100.

Definition session_err_code (e : session_err) : Z :=
  match e with
  | SESSION_OK => 0 | SESSION_ERR_IO => -1 | SESSION_ERR_AUTH => -2 | SESSION_ERR_CRYPTO => -3
  | SESSION_ERR_TOOBIG => -4 | SESSION_ERR_PROTO => -5 | SESSION_ERR_NOSPACE => -6
  end.

(** The fields that concern signing in. *)
Record AuthView := mkAuth {
  auth_failures : Z; auth_refused_last : bool; auth_pending : AuthMethod; auth_reply : AuthMethod; reconnect_ok : bool
}.

Record Client := mkClient {
  cl_fd : Z;
  cl_phase : ClientPhase;
  room_req : Z;
  assume_owner : bool;
  cl_session : SessionState;
  have_session : bool;
  cl_game : GameState;
  have_game : bool;
  last_reject : Z;
  last_winner : Z;
  cl_history : player_history;
  have_history : bool;
  frames_seen : Z;
  cl_auth : AuthView
}.

Definition set_cl_fd v c := mkClient v (cl_phase c) (room_req c) (assume_owner c) (cl_session c) (have_session c) (cl_game c)
  (have_game c) (last_reject c) (last_winner c) (cl_history c) (have_history c) (frames_seen c) (cl_auth c).
Definition set_cl_phase v c := mkClient (cl_fd c) v (room_req c) (assume_owner c) (cl_session c) (have_session c) (cl_game c)
  (have_game c) (last_reject c) (last_winner c) (cl_history c) (have_history c) (frames_seen c) (cl_auth c).
Definition set_room_req v c := mkClient (cl_fd c) (cl_phase c) v (assume_owner c) (cl_session c) (have_session c) (cl_game c)
  (have_game c) (last_reject c) (last_winner c) (cl_history c) (have_history c) (frames_seen c) (cl_auth c).
Definition set_assume_owner v c := mkClient (cl_fd c) (cl_phase c) (room_req c) v (cl_session c) (have_session c) (cl_game c)
  (have_game c) (last_reject c) (last_winner c) (cl_history c) (have_history c) (frames_seen c) (cl_auth c).
Definition set_cl_session v h c := mkClient (cl_fd c) (cl_phase c) (room_req c) (assume_owner c) v h (cl_game c)
  (have_game c) (last_reject c) (last_winner c) (cl_history c) (have_history c) (frames_seen c) (cl_auth c).
Definition set_cl_game v h n c := mkClient (cl_fd c) (cl_phase c) (room_req c) (assume_owner c) (cl_session c) (have_session c) v
  h (last_reject c) (last_winner c) (cl_history c) (have_history c) n (cl_auth c).
Definition set_last_reject v c := mkClient (cl_fd c) (cl_phase c) (room_req c) (assume_owner c) (cl_session c) (have_session c)
  (cl_game c) (have_game c) v (last_winner c) (cl_history c) (have_history c) (frames_seen c) (cl_auth c).
Definition set_last_winner v c := mkClient (cl_fd c) (cl_phase c) (room_req c) (assume_owner c) (cl_session c) (have_session c)
  (cl_game c) (have_game c) (last_reject c) v (cl_history c) (have_history c) (frames_seen c) (cl_auth c).
Definition set_cl_history v c := mkClient (cl_fd c) (cl_phase c) (room_req c) (assume_owner c) (cl_session c) (have_session c)
  (cl_game c) (have_game c) (last_reject c) (last_winner c) v true (frames_seen c) (cl_auth c).
Definition set_cl_auth v c := mkClient (cl_fd c) (cl_phase c) (room_req c) (assume_owner c) (cl_session c) (have_session c)
  (cl_game c) (have_game c) (last_reject c) (last_winner c) (cl_history c) (have_history c) (frames_seen c) v.

Definition with_pending (m : AuthMethod) (a : AuthView) : AuthView :=
  mkAuth (auth_failures a) (auth_refused_last a) m (auth_reply a) (reconnect_ok a).

(** ** Connecting *)

(** [memset(c, 0, sizeof *c)] and the three fields set after it. *)
Definition fresh_client : Client :=
  mkClient (-1) CLI_DISCONNECTED 0 false zero_session false blank_game false 0 (-1) (blank_history HISTORY_VIEW_OK) false 0
    (mkAuth 0 false AUTH_NONE AUTH_NONE false).

(** [sock] is what [make_connect_socket] returns, [handshake] what [session_connect]
    does on it. *)
Definition client_connect (sock : Z) (handshake : session_err) : Z * Client :=
  let c := fresh_client in
  if sock <? 0 then (CLIENT_ERR_CONNECT, c)
  else if negb (bool_decide (handshake = SESSION_OK)) then (session_err_code handshake, c)
  else (0, set_cl_phase CLI_CONNECTED (set_cl_fd sock c)).

Definition clear_auth (c : Client) : Client :=
  set_cl_auth (mkAuth 0 false AUTH_NONE AUTH_NONE (reconnect_ok (cl_auth c))) c.

Definition client_disconnect (c : Client) : Client :=
  clear_auth (set_cl_phase CLI_DISCONNECTED (if 0 <=? cl_fd c then set_cl_fd (-1) c else c)).

(** ** Sending *)

Definition CT_COMMAND : list Z := bytes "application/tetris-command".
Definition AUTH_PATH : list Z := bytes "/auth".
Definition CLIENT_FRAME_CAP : nat := Z.to_nat 65536.

(** [(void)htttp_header_set(...)]. *)
Definition add_header (k v : list Z) (hs : list htttp_header) : list htttp_header :=
  match htttp_header_set hs k v with Ok hs' => hs' | Err _ => hs end.

(** The request a command serializes. *)
Definition command_request (c : Client) (method path : list Z) (body : option (list Z)) : htttp_request :=
  let n := Z.of_nat (length (default [] body)) in
  let hs := if 0 <? n then add_header (bytes "Content-Type") CT_COMMAND [] else [] in
  let hs := if negb (strcmp path AUTH_PATH =? 0)
            then add_header PLAYER_ID (trunc 16 (decimal_int (player_id (cl_session c)))) hs else hs in
  mkRequest (trunc HTTTP_MAX_METHOD method) (trunc HTTTP_MAX_PATH path) hs body n.

Section send.
(** Whether [session_send] of a frame succeeds. *)
Context (accepts : list Z -> bool).

(** The frame that went out; [None] is the return value -1. *)
Definition send_cmd (c : Client) (method path : list Z) (body : option (list Z)) : option (list Z) :=
  if cl_fd c <? 0 then None
  else
    match htttp_serialize_request (command_request c method path body) CLIENT_FRAME_CAP with
    | Ok frame => if accepts frame then Some frame else None
    | Err _ => None
    end.

Definition room_path (room : Z) : list Z := trunc HTTTP_MAX_PATH (bytes "/room/" ++ decimal_int room).

Definition player_path (c : Client) : list Z :=
  trunc HTTTP_MAX_PATH (bytes "/room/" ++ decimal_int (room_id (cl_session c)) ++
    bytes "/player/" ++ decimal_int (player_id (cl_session c))).

Definition send_word (c : Client) (method word : list Z) : option (list Z) := send_cmd c method (player_path c) (Some word).

Definition client_join (c : Client) (room : Z) : option (list Z) * Client :=
  let c := set_assume_owner (room =? 0) (set_room_req room c) in
  match send_cmd c (bytes "JOIN") (room_path room) None with
  | None => (None, c)
  | Some f => (Some f, set_cl_phase CLI_WAITING c)
  end.

Definition my_room_path (c : Client) : list Z := room_path (if have_session c then room_id (cl_session c) else room_req c).

Definition client_leave (c : Client) : option (list Z) * Client :=
  let f := send_cmd c (bytes "LEAVE") (my_room_path c) None in
  let st := cl_session c in
  (f, set_cl_game (cl_game c) false (frames_seen c)
        (set_cl_session (mkSession (phase st) ROOM_NONE (player_id st) (is_owner st) (roster st) (roster_count st)) (have_session c)
          (set_assume_owner false (set_room_req 0 (set_cl_phase CLI_CONNECTED c))))).

Definition client_start (c : Client) : option (list Z) := send_cmd c (bytes "START") (my_room_path c) None.
Definition client_move (c : Client) (right : bool) : option (list Z) :=
  send_word c (bytes "MOVE") (if right then bytes "RIGHT" else bytes "LEFT").
Definition client_rotate (c : Client) (right : bool) : option (list Z) :=
  send_word c (bytes "ROTATE") (if right then bytes "CW" else bytes "CCW").
Definition client_drop (c : Client) (hard : bool) : option (list Z) :=
  send_word c (bytes "DROP") (if hard then bytes "HARD" else bytes "SOFT").
Definition client_hold (c : Client) : option (list Z) := send_cmd c (bytes "HOLD") (player_path c) None.
Definition client_history (c : Client) : option (list Z) := send_cmd c (bytes "HISTORY") (bytes "/player/history") None.

Definition AUTH_BODY_MAX : Z := 256.

Definition send_auth (c : Client) (method : AuthMethod) (wire_method username password : list Z) : option (list Z) * Client :=
  let c := set_cl_auth (with_pending method (cl_auth c)) c in
  let body := username ++ 10 :: password in
  (if AUTH_BODY_MAX <=? Z.of_nat (length body) then None else send_cmd c wire_method AUTH_PATH (Some body), c).

Definition client_login (c : Client) (username password : list Z) : option (list Z) * Client :=
  send_auth c AUTH_LOGIN (bytes "LOGIN") username password.
Definition client_register (c : Client) (username password : list Z) : option (list Z) * Client :=
  send_auth c AUTH_REGISTER (bytes "REGISTER") username password.
Definition client_guest (c : Client) : option (list Z) * Client :=
  let c := set_cl_auth (with_pending AUTH_GUEST (cl_auth c)) c in (send_cmd c (bytes "GUEST") AUTH_PATH None, c).
End send.

(** ** Receiving *)

Definition is_2xx (st : Z) : bool := (200 <=? st) && (st <? 300).

Definition fold_auth_reply (c : Client) : ClientEvent * Client :=
  let a := cl_auth c in
  if is_2xx (last_reject c)
  then (CLI_EV_AUTH_OK, set_cl_auth (mkAuth (auth_failures a) false AUTH_NONE (auth_pending a) (reconnect_ok a)) c)
  else (CLI_EV_REJECT, set_cl_auth (mkAuth (auth_failures a + 1) true AUTH_NONE (auth_pending a) (reconnect_ok a)) c).

(** A pushed body of exactly the struct's size. *)
Definition pushed {A} (l : layout A) (req : htttp_request) : option A :=
  match body req with
  | None => None
  | Some b => if body_len req =? Z.of_nat (sizeof l) then Some (load l b) else None
  end.

Definition phase_after_session (p : SessionPhase) (old : ClientPhase) : ClientPhase :=
  match p with
  | SESSION_WAITING => CLI_WAITING | SESSION_PLAYING => CLI_PLAYING
  | SESSION_GAME_OVER => CLI_GAME_OVER | SESSION_IDLE => CLI_CONNECTED
  | _ => old
  end.

(** A request the server pushed. *)
Definition take_push (c : Client) (req : htttp_request) : ClientEvent * Client :=
  if strcmp (method req) (bytes "STATE") =? 0 then
    match pushed GameState_layout req with
    | None => (CLI_EV_NONE, c)
    | Some g =>
        if room_id (cl_session c) =? ROOM_NONE then (CLI_EV_NONE, c)
        else
          let c := set_cl_game g true (u32 (frames_seen c + 1)) c in
          let c := if bool_decide (cl_phase c = CLI_WAITING) || bool_decide (cl_phase c = CLI_CONNECTED)
                   then set_cl_phase CLI_PLAYING c else c in
          (CLI_EV_GAME, if game_over g then set_cl_phase CLI_GAME_OVER c else c)
    end
  else if strcmp (method req) (bytes "UPD_SESSION") =? 0 then
    match pushed SessionState_layout req with
    | None => (CLI_EV_NONE, c)
    | Some st => (CLI_EV_SESSION, set_cl_phase (phase_after_session (phase st) (cl_phase c)) (set_cl_session st true c))
    end
  else if strcmp (method req) (bytes "UPD_RESULT") =? 0 then
    match pushed int_layout req with
    | None => (CLI_EV_NONE, c)
    | Some w => (CLI_EV_RESULT, set_last_winner w c)
    end
  else if strcmp (method req) (bytes "UPD_HISTORY") =? 0 then
    match pushed player_history_layout req with
    | None => (CLI_EV_NONE, c)
    | Some h => (CLI_EV_HISTORY, set_cl_history h c)
    end
  else (CLI_EV_NONE, c).

(** [rx] is what [session_recv] yields. *)
Definition net_service (c : Client) (rx : session_err * list Z) : ClientEvent * Client :=
  let '(rc, buf) := rx in
  if bool_decide (rc = SESSION_ERR_IO) || bool_decide (rc = SESSION_ERR_TOOBIG)
  then (CLI_EV_DISCONNECT, set_cl_phase CLI_DISCONNECTED c)
  else if negb (bool_decide (rc = SESSION_OK)) then (CLI_EV_NONE, c)
  else
    match htttp_parse_response buf with
    | Ok res =>
        if is_2xx (status res) && bool_decide (auth_pending (cl_auth c) = AUTH_NONE) then (CLI_EV_NONE, c)
        else
          let c := set_last_reject (status res) c in
          (if negb (bool_decide (auth_pending (cl_auth c) = AUTH_NONE)) then CLI_EV_AUTH_REPLY else CLI_EV_REJECT, c)
    | Err _ =>
        match htttp_parse_request buf with
        | Err _ => (CLI_EV_NONE, c)
        | Ok req => take_push c req
        end
    end.

Definition with_refused (b : bool) (a : AuthView) : AuthView :=
  mkAuth (auth_failures a) b (auth_pending a) (auth_reply a) (reconnect_ok a).
Definition with_reconnect (b : bool) (a : AuthView) : AuthView :=
  mkAuth (auth_failures a) (auth_refused_last a) (auth_pending a) (auth_reply a) b.

Definition client_service (c : Client) (rx : session_err * list Z) : ClientEvent * Client :=
  let possible_cap := auth_refused_last (cl_auth c) in
  let c := set_cl_auth (with_refused false (cl_auth c)) c in
  let '(ev, c) := net_service c rx in
  let '(ev, c) := if bool_decide (ev = CLI_EV_AUTH_REPLY) then fold_auth_reply c else (ev, c) in
  (ev, if bool_decide (ev = CLI_EV_DISCONNECT) then clear_auth (set_cl_auth (with_reconnect possible_cap (cl_auth c)) c) else c).

Definition client_phase_str (p : ClientPhase) : string :=
  match p with
  | CLI_DISCONNECTED => "disconnected" | CLI_CONNECTED => "lobby" | CLI_WAITING => "waiting"
  | CLI_PLAYING => "playing" | CLI_GAME_OVER => "game over"
  end%string.
