(* ===== verification/Render.v ===== *)
(** * Render: the game on the screen

    Models tetriSH/src/tetrisu/render.c: the characters a frame draws, in the order it
    draws them.  A later write to a position hides an earlier one, and what was not
    written is blank.  The terminal has colours; setting up the pairs is not
    modelled. *)

From Stdlib Require Import String.
From stdpp Require Import options.
From S2P Require Import Prelude Piece Board Action AdminMsg Text.
#[local] Open Scope Z_scope.

(** ** What is drawn *)

Inductive glyph := Ch (c : Z) | ACS_CKBOARD | ACS_BULLET.

Record paint := mkPaint { pt_glyph : glyph; pt_pair : Z; pt_dim : bool; pt_bold : bool }.

#[global] Instance glyph_eq_dec : EqDecision glyph.
Proof. solve_decision. Defined.
#[global] Instance paint_eq_dec : EqDecision paint.
Proof. solve_decision. Defined.

(** One [mvaddch]: the row, the column and what is put there. *)
Abbreviation draw := (list (Z * Z * paint)).

Definition CELL_W : Z := 2.
Definition RENDER_BOARD_COLS : Z := BOARD_WIDTH * CELL_W + 2.
Definition RENDER_STATS_COLS : Z := 14.
Definition RENDER_STANDINGS_COLS : Z := 24.
Definition RENDER_MIN_COLS : Z := RENDER_BOARD_COLS + 4 + RENDER_STATS_COLS + RENDER_STANDINGS_COLS.
Definition RENDER_MIN_ROWS : Z := BOARD_HEIGHT + 5.

(** Colour pairs. *)
Definition CP_I : Z := 1.
Definition CP_FRAME : Z := 8.
Definition CP_GARBAGECOL : Z := 10.
Definition CP_PALE_I : Z := 11.
Definition CP_GARBAGE : Z := 18.
Definition CP_PALE_OFFSET : Z := CP_PALE_I - CP_I.

Definition piece_color (k : PieceKind) : Z :=
  match k with
  | PIECE_I => 1 | PIECE_O => 2 | PIECE_T => 3 | PIECE_S => 4 | PIECE_Z => 5 | PIECE_J => 6 | PIECE_L => 7
  | _ => 0
  end.

(** ** Cells *)

Definition fill (y x : Z) (p : paint) : draw := (fun i => (y, x + i, p)) <$> range CELL_W.

Definition draw_pale_cell (y x : Z) (k : PieceKind) : draw :=
  let cp := piece_color k in
  if cp =? 0 then [] else fill y x (mkPaint ACS_CKBOARD (cp + CP_PALE_OFFSET) false false).

Definition draw_cell (y x : Z) (k : PieceKind) (dim : bool) : draw :=
  if bool_decide (k = PIECE_GARBAGE) then fill y x (mkPaint ACS_CKBOARD CP_GARBAGE false false)
  else
    let cp := piece_color k in
    if negb (cp =? 0) then fill y x (mkPaint (Ch 32) cp false false)
    else fill y x (mkPaint (Ch 32) 0 dim false) ++ [(y, x, mkPaint ACS_BULLET 0 dim false)].

Record CellView := mkView { v_kind : PieceKind; v_pale : bool }.

Definition cell_at (g : GameState) (ghost : option Piece) (r c : Z) : CellView :=
  let a := active g in
  if piece_filled a (r - py a) (c - px a) then mkView (kind a) false
  else if negb (bget (board g) r c =? kind_code PIECE_NONE) then mkView (kind_of_code (bget (board g) r c)) false
  else match ghost with
       | Some p => if piece_filled p (r - py p) (c - px p) then mkView (kind p) true else mkView PIECE_NONE false
       | None => mkView PIECE_NONE false
       end.

Definition draw_preview (y x : Z) (k : PieceKind) (disabled : bool) : draw :=
  if bool_decide (k = PIECE_NONE) then []
  else
    let p := mkPiece k 0 0 0 in
    box (piece_size p) ≫= fun '(r, c) =>
      if negb (piece_filled p r c) then []
      else if disabled then draw_pale_cell (y + r) (x + c * CELL_W) k
      else draw_cell (y + r) (x + c * CELL_W) k false.

(** ** Text *)

Definition put_text (y x pair : Z) (dim bold : bool) (s : list Z) : draw :=
  imap (fun i c => (y, x + Z.of_nat i, mkPaint (Ch c) pair dim bold)) s.

Definition mvprintw (y x : Z) (s : list Z) : draw := put_text y x 0 false false s.

Definition mvhline (y x pair : Z) (c n : Z) : draw := (fun i => (y, x + i, mkPaint (Ch c) pair false false)) <$> range n.

(** [%-ns] and [%nd]. *)
Definition pad_right (n : nat) (s : list Z) : list Z := s ++ replicate (n - length s) 32.
Definition pad_left (n : nat) (s : list Z) : list Z := replicate (n - length s) 32 ++ s.

(** ** The frame *)

Definition oy : Z := 1.
Definition ox : Z := 2.
Definition side_x : Z := ox + BOARD_WIDTH * CELL_W + 4.
Definition stats_x : Z := side_x + RENDER_STATS_COLS.

Definition draw_board (g : GameState) (ghost : option Piece) : draw :=
  range BOARD_HEIGHT ≫= fun r => range BOARD_WIDTH ≫= fun c =>
    let v := cell_at g ghost r c in
    if v_pale v then draw_pale_cell (oy + r) (ox + c * CELL_W) (v_kind v)
    else draw_cell (oy + r) (ox + c * CELL_W) (v_kind v) (r <? BOARD_BUFFER_HEIGHT).

Definition draw_frame : draw :=
  (seqZ BOARD_BUFFER_HEIGHT (BOARD_HEIGHT - BOARD_BUFFER_HEIGHT) ≫= fun r =>
     [(oy + r, ox - 1, mkPaint (Ch 124) CP_FRAME false false); (oy + r, ox + BOARD_WIDTH * CELL_W, mkPaint (Ch 124) CP_FRAME false false)]) ++
  mvhline (oy + BOARD_HEIGHT) (ox - 1) CP_FRAME 45 (5 * CELL_W + 1) ++
  mvhline (oy + BOARD_HEIGHT) (ox + 5 * CELL_W) CP_GARBAGECOL 45 CELL_W ++
  mvhline (oy + BOARD_HEIGHT) (ox + 6 * CELL_W) CP_FRAME 45 (4 * CELL_W + 1).

Definition draw_panels (g : GameState) : draw :=
  mvprintw (oy + 0) side_x (bytes "SCORE " ++ decimal_int (score g)) ++
  mvprintw (oy + 1) side_x (bytes "LINES " ++ decimal_int (lines g)) ++
  mvprintw (oy + 2) side_x (bytes "LEVEL " ++ decimal_int (level g)) ++
  mvprintw (oy + 4) side_x (bytes "HOLD") ++ draw_preview (oy + 5) side_x (hold g) (hold_used g) ++
  mvprintw (oy + 10) side_x (bytes "NEXT") ++
  mjoin (imap (fun i k => draw_preview (oy + 11 + 3 * Z.of_nat i) side_x k false) (next g)).

(** The rows that are printed. *)
Definition shown_standings (g : GameState) : list PlayerStanding := take (Z.to_nat (Z.min (standing_count g) MAX_STANDINGS)) (standings g).

Definition my_name (g : GameState) : list Z :=
  match last (filter (fun st => st_player_id st = my_player_id g) (shown_standings g)) with Some st => bytes (st_name st) | None => [] end.

Definition standing_text (st : PlayerStanding) : list Z :=
  pad_right 2 (decimal_int (st_player_id st)) ++ [32] ++ pad_right 8 (take 8 (bytes (st_name st))) ++ [32] ++
  pad_left 5 (decimal_int (st_score st)) ++ [32] ++ pad_left 3 (decimal_int (st_lines st)).

Definition draw_standings (g : GameState) : draw :=
  mvprintw (oy + 0) stats_x
    (if 0 <=? my_player_id g then bytes "YOU  " ++ decimal_int (my_player_id g) ++ [32] ++ pad_right 8 (take 8 (my_name g)) else bytes "YOU  -") ++
  mvprintw (oy + 2) stats_x (bytes "ROOM") ++
  mvprintw (oy + 3) stats_x (bytes "ID PLAYER   SCORE  LN") ++
  mjoin (imap (fun i st => put_text (oy + 4 + Z.of_nat i) stats_x 0 (st_game_over st) (st_player_id st =? my_player_id g) (standing_text st))
    (shown_standings g)).

(** [None] when the landing preview does not end. *)
Definition render_game (g : GameState) : option draw :=
  ghost ← tetrisbrain_ghost g;
  let show_ghost := negb (bool_decide (kind (active g) = PIECE_NONE)) && negb (game_over g) && negb (py ghost =? py (active g)) in
  Some (draw_board g (if show_ghost then Some ghost else None) ++ draw_frame ++ draw_panels g ++ draw_standings g ++
    (if game_over g then mvprintw (oy + BOARD_HEIGHT + 2) ox (bytes "GAME OVER - press q") else [])).
