(* ===== verification/RenderTheorems.v ===== *)
(** * RenderTheorems: the board on the screen is the board of the game

    The frame of Render.v, read back: what stands at a position is the last write to
    it, and from the two characters of a cell the view of the cell is recovered.  The
    theorem says that on a state the engine produces a frame is drawn, that every cell
    of the board reads back as what the state has there whatever the panels around it
    hold, and that the landing preview is shown exactly where the piece would come to
    rest. *)

From Stdlib Require Import String.
From stdpp Require Import options.
From S2P Require Import Prelude Piece Board Action Brain Engine AdminMsg Text Render.
#[local] Open Scope Z_scope.

(** ** The screen after the writes *)

Fixpoint shown (d : draw) (y x : Z) : option paint :=
  match d with
  | [] => None
  | (y', x', p) :: d =>
      match shown d y x with
      | Some q => Some q
      | None => if (y' =? y) && (x' =? x) then Some p else None
      end
  end.

(** What a player sees in a cell, from its two characters. *)
Definition seen (a b : option paint) : option CellView :=
  match a, b with
  | Some p, Some q =>
      match pt_glyph p with
      | ACS_BULLET => if bool_decide (pt_glyph q = Ch 32) then Some (mkView PIECE_NONE false) else None
      | ACS_CKBOARD =>
          if negb (bool_decide (p = q)) then None
          else if pt_pair p =? CP_GARBAGE then Some (mkView PIECE_GARBAGE false)
          else Some (mkView (kind_of_code (pt_pair p - CP_PALE_OFFSET)) true)
      | Ch _ => if bool_decide (p = q) then Some (mkView (kind_of_code (pt_pair p)) false) else None
      end
  | _, _ => None
  end.

Definition seen_cell (d : draw) (r c : Z) : option CellView :=
  seen (shown d (oy + r) (ox + c * CELL_W)) (shown d (oy + r) (ox + c * CELL_W + 1)).

Lemma shown_app d d' y x :
  shown (d ++ d') y x = match shown d' y x with Some p => Some p | None => shown d y x end.
Proof. induction d as [|[[y' x'] p] d IH]; simpl; [by destruct (shown d' y x)|]. rewrite IH. by destruct (shown d' y x). Qed.

Lemma shown_away (d : draw) y x : Forall (fun w => w.1 <> (y, x)) d -> shown d y x = None.
Proof.
  induction 1 as [|[[y' x'] p] d Hw _ IH]; simpl; [done|]. rewrite IH. simpl in Hw.
  destruct (Z.eqb_spec y' y), (Z.eqb_spec x' x); simpl; congruence.
Qed.

(** Of many drawings only one writes the position. *)
Lemma shown_bind {A} (l : list A) (f : A -> draw) i y x :
  NoDup l -> i ∈ l -> (forall j, j ∈ l -> j <> i -> shown (f j) y x = None) ->
  shown (l ≫= f) y x = shown (f i) y x.
Proof.
  induction 1 as [|a l Ha Hn IH]; [by intros ?%not_elem_of_nil|].
  intros Hi Hf. cbn. rewrite shown_app. apply elem_of_cons in Hi as [->|Hi].
  - assert (Hr : shown (l ≫= f) y x = None); [|cbn in Hr; by rewrite Hr].
    assert (Hl : forall j, j ∈ l -> shown (f j) y x = None).
    { intros j Hj. apply Hf; [by right|]. by intros ->. }
    clear -Hl. induction l as [|b l IHl]; [done|]. cbn. rewrite shown_app.
    cbn in IHl. rewrite IHl; [apply Hl; by left|intros j Hj; apply Hl; by right].
  - cbn in IH. rewrite IH; [|done|intros j Hj; apply Hf; by right].
    destruct (shown (f i) y x); [done|]. apply Hf; [by left|by intros ->].
Qed.

(** ** One cell *)

Lemma fill_eq y x p : fill y x p = [(y, x + 0, p); (y, x + 1, p)].
Proof. reflexivity. Qed.

Definition cell_draw (y x : Z) (v : CellView) (dim : bool) : draw :=
  if v_pale v then draw_pale_cell y x (v_kind v) else draw_cell y x (v_kind v) dim.

(** The views there are: a tetromino, solid or pale, garbage, or nothing. *)
Definition view_ok (v : CellView) : Prop :=
  if v_pale v then spawnable (v_kind v) = true else cell_ok (kind_code (v_kind v)).

Lemma cell_draw_row y x v dim : Forall (fun w => w.1 = (y, x) \/ w.1 = (y, x + 1)) (cell_draw y x v dim).
Proof.
  assert (Hfill : forall p, Forall (fun w => w.1 = (y, x) \/ w.1 = (y, x + 1)) (fill y x p)).
  { intros p. rewrite fill_eq, !Forall_cons. cbn. split_and!; [left; f_equal; lia|by right|done]. }
  unfold cell_draw, draw_pale_cell, draw_cell. cbn.
  repeat case_match; rewrite ?Forall_app; repeat split; eauto.
Qed.

Lemma shown_fill y x p : shown (fill y x p) y x = Some p /\ shown (fill y x p) y (x + 1) = Some p.
Proof.
  rewrite fill_eq. cbn -[Z.add Z.eqb]. rewrite Z.add_0_r, !Z.eqb_refl, (proj2 (Z.eqb_neq (x + 1) x)) by lia. done.
Qed.

Lemma shown_empty y x p b :
  shown (fill y x p ++ [(y, x, b)]) y x = Some b /\ shown (fill y x p ++ [(y, x, b)]) y (x + 1) = Some p.
Proof.
  destruct (shown_fill y x p) as [_ Hp]. rewrite !shown_app, Hp. cbn -[Z.add Z.eqb].
  rewrite !Z.eqb_refl, (proj2 (Z.eqb_neq x (x + 1))) by lia. done.
Qed.

Lemma cell_draw_seen y x v dim :
  view_ok v -> seen (shown (cell_draw y x v dim) y x) (shown (cell_draw y x v dim) y (x + 1)) = Some v.
Proof.
  pose proof (fun p => proj1 (shown_fill y x p)) as F1. pose proof (fun p => proj2 (shown_fill y x p)) as F2.
  pose proof (fun p b => proj1 (shown_empty y x p b)) as E1. pose proof (fun p b => proj2 (shown_empty y x p b)) as E2.
  destruct v as [k pale]. unfold view_ok, cell_draw, draw_pale_cell, draw_cell. intros Hv.
  destruct pale, k; cbn in Hv; try done;
    try (exfalso; revert Hv; unfold cell_ok; rewrite !elem_of_cons, elem_of_nil; lia);
    rewrite ?(bool_decide_false (_ = PIECE_GARBAGE)), ?(bool_decide_true (_ = PIECE_GARBAGE)) by done;
    cbn -[fill shown seen]; rewrite ?E1, ?E2, ?F1, ?F2; reflexivity.
Qed.

(** ** The board *)

Lemma board_cell_seen g ghost r c :
  0 <= r < BOARD_HEIGHT -> 0 <= c < BOARD_WIDTH -> view_ok (cell_at g ghost r c) ->
  seen_cell (draw_board g ghost) r c = Some (cell_at g ghost r c).
Proof.
  intros Hr Hc Hv. unfold seen_cell.
  assert (Hs : forall x, x = ox + c * CELL_W \/ x = ox + c * CELL_W + 1 ->
    shown (draw_board g ghost) (oy + r) x =
    shown (cell_draw (oy + r) (ox + c * CELL_W) (cell_at g ghost r c) (r <? BOARD_BUFFER_HEIGHT)) (oy + r) x).
  { intros x Hx. unfold draw_board. unfold CELL_W in *.
    rewrite (shown_bind _ _ r); [|apply NoDup_range|by apply elem_of_range|].
    - rewrite (shown_bind _ _ c); [done|apply NoDup_range|by apply elem_of_range|].
      intros c' _ Hne. apply shown_away. eapply Forall_impl; [apply cell_draw_row|].
      intros w [->| ->]; intros [= ]; lia.
    - intros r' _ Hne. apply shown_away. apply Forall_bind, Forall_forall. intros c' _.
      eapply Forall_impl; [apply cell_draw_row|]. intros w [->| ->]; intros [= ]; lia. }
  rewrite !Hs by tauto. by apply cell_draw_seen.
Qed.

(** ** What is around it *)

Definition off_field (w : Z * Z * paint) : Prop :=
  w.1.2 < ox \/ ox + BOARD_WIDTH * CELL_W <= w.1.2 \/ oy + BOARD_HEIGHT <= w.1.1.

#[global] Instance off_field_dec w : Decision (off_field w).
Proof. unfold off_field. apply _. Defined.

Abbreviation beside := (Forall (fun w : Z * Z * paint => side_x <= w.1.2)).

Lemma off_field_seen d d' r c :
  Forall off_field d' -> 0 <= r < BOARD_HEIGHT -> 0 <= c < BOARD_WIDTH ->
  seen_cell (d ++ d') r c = seen_cell d r c.
Proof.
  intros Hd Hr Hc. unfold seen_cell. rewrite !shown_app.
  unfold BOARD_WIDTH, CELL_W in *.
  rewrite !(shown_away d'); [done|..]; (eapply Forall_impl; [exact Hd|]);
    intros [[y x] p] Hw [= -> ->]; revert Hw; unfold off_field; cbn; unfold BOARD_WIDTH, CELL_W; lia.
Qed.

Lemma draw_frame_off : Forall off_field draw_frame.
Proof. apply (bool_decide_unpack _). vm_compute. exact I. Qed.

Lemma put_text_beside y x pair dim bold s : side_x <= x -> beside (put_text y x pair dim bold s).
Proof. intros Hx. apply Forall_lookup. intros i w. unfold put_text. rewrite list_lookup_imap. intros (c & _ & ->)%fmap_Some. cbn. lia. Qed.

Lemma mvprintw_beside y x s : side_x <= x -> beside (mvprintw y x s).
Proof. apply put_text_beside. Qed.

Lemma draw_preview_beside y x k b : side_x <= x -> beside (draw_preview y x k b).
Proof.
  intros Hx. unfold draw_preview. case_bool_decide; [constructor|]. apply Forall_bind, Forall_forall.
  intros [r c] [Hr Hc]%elem_of_box. unfold compose. cbv beta iota zeta.
  destruct (negb (piece_filled (mkPiece k 0 0 0) r c)); [constructor|].
  destruct b.
  - eapply Forall_impl; [apply (cell_draw_row (y + r) (x + c * CELL_W) (mkView k true) false)|].
    unfold CELL_W. intros w [->| ->]; cbn; lia.
  - eapply Forall_impl; [apply (cell_draw_row (y + r) (x + c * CELL_W) (mkView k false) false)|].
    unfold CELL_W. intros w [->| ->]; cbn; lia.
Qed.

Lemma imap_beside {A} (f : nat -> A -> draw) l : (forall i a, beside (f i a)) -> beside (mjoin (imap f l)).
Proof.
  intros Hf. apply Forall_join, Forall_lookup. intros i d. rewrite list_lookup_imap.
  by intros (a & _ & ->)%fmap_Some.
Qed.

#[local] Hint Resolve mvprintw_beside put_text_beside draw_preview_beside imap_beside : core.
#[local] Hint Extern 1 (side_x <= _) => (unfold stats_x, RENDER_STATS_COLS; lia) : core.

Lemma draw_panels_beside g : beside (draw_panels g).
Proof. unfold draw_panels. rewrite !Forall_app. split_and!; auto. Qed.

Lemma draw_standings_beside g : beside (draw_standings g).
Proof. unfold draw_standings. rewrite !Forall_app. split_and!; auto. Qed.

Lemma beside_off d : beside d -> Forall off_field d.
Proof. intros Hd. eapply Forall_impl; [exact Hd|]. intros w Hw. right. left. unfold side_x in Hw. lia. Qed.

Lemma banner_off : Forall off_field (mvprintw (oy + BOARD_HEIGHT + 2) ox (bytes "GAME OVER - press q")).
Proof. apply (bool_decide_unpack _). vm_compute. exact I. Qed.

(** ** The views of a state of the engine *)

(** The landing preview, where there is one to show. *)
Definition preview (g : GameState) (ghost : Piece) : option Piece :=
  if negb (bool_decide (kind (active g) = PIECE_NONE)) && negb (game_over g) && negb (py ghost =? py (active g)) then Some ghost else None.

Lemma bget_ok g r c : game_ok g -> 0 <= r < BOARD_HEIGHT -> 0 <= c < BOARD_WIDTH -> cell_ok (bget (board g) r c).
Proof.
  intros Hg Hr Hc. pose proof (ok_cells g Hg) as Hcells. pose proof (ok_board g Hg) as Hb.
  pose proof (proj1 (Forall_lookup _ _) Hcells _ _ (row_lookup _ _ Hb Hr)) as Hrow.
  eapply (proj1 (Forall_lookup _ _) Hrow). apply aget_Some. rewrite (length_row _ _ Hb Hr). lia.
Qed.

Lemma cell_code x : cell_ok x -> kind_code (kind_of_code x) = x.
Proof. unfold cell_ok. rewrite !elem_of_cons, elem_of_nil. intros H. destruct_or! H; by subst. Qed.

Lemma ghost_kind g q : game_ok g -> game_over g = false -> tetrisbrain_ghost g = Some q -> kind q = kind (active g).
Proof.
  intros Hg Hgo Hq. destruct (harddrop_lands g Hg Hgo) as (k & _ & Hgh & _).
  unfold tetrisbrain_ghost in Hq. rewrite Hgh in Hq. by injection Hq as <-.
Qed.

Lemma cell_at_ok g q r c :
  game_ok g -> tetrisbrain_ghost g = Some q -> 0 <= r < BOARD_HEIGHT -> 0 <= c < BOARD_WIDTH ->
  view_ok (cell_at g (preview g q) r c).
Proof.
  intros Hg Hq Hr Hc. pose proof (ok_kind g Hg) as Hk. pose proof (bget_ok g r c Hg Hr Hc) as Hcell.
  assert (Hnone : view_ok (mkView PIECE_NONE false)) by (cbn; unfold cell_ok; by left).
  unfold cell_at, preview. destruct (piece_filled (active g) _ _).
  { cbn. by apply cell_ok_code. }
  case_match; [cbn; by rewrite cell_code|].
  destruct (game_over g) eqn:Hgo; [by rewrite andb_false_r|].
  destruct (_ && negb (py q =? py (active g))); [|done]. destruct (piece_filled q _ _); [|done].
  cbn. by rewrite (ghost_kind g q).
Qed.

(** ** The theorem *)

Definition covers (p : Piece) (r c : Z) : bool := piece_filled p (r - py p) (c - px p).

(** A cell the piece will rest on is empty, so the preview and the locked cells never
    compete for it. *)
Lemma cell_at_landing g q r c :
  game_ok g -> tetrisbrain_ghost g = Some q ->
  cell_at g (preview g q) r c =
  if covers (active g) r c then mkView (kind (active g)) false
  else if negb (game_over g) && covers q r c then mkView (kind (active g)) true
  else mkView (kind_of_code (bget (board g) r c)) false.
Proof.
  intros Hg Hq. pose proof (ok_kind g Hg) as Hk. unfold cell_at, covers, preview.
  destruct (piece_filled (active g) _ _) eqn:Ha; [done|].
  rewrite (bool_decide_false (kind (active g) = PIECE_NONE)) by by apply spawnable_not_none.
  destruct (Z.eqb_spec (bget (board g) r c) (kind_code PIECE_NONE)) as [Hb|Hb]; simpl;
    (destruct (game_over g) eqn:Hgo; simpl; [by rewrite ?Hb|]);
    destruct (harddrop_lands g Hg Hgo) as (k & Hk0 & Hgh & _ & _ & _ & Hfree & _);
    unfold tetrisbrain_ghost in Hq; rewrite Hgh in Hq; injection Hq as <-.
  - simpl. destruct (Z.eqb_spec (py (active g) + k) (py (active g))) as [He|He]; simpl.
    + rewrite He. rewrite Z.add_0_r. assert (k = 0) as -> by lia.
      replace (action_move (active g) 0 0) with (active g) by (unfold action_move; destruct (active g); simpl; f_equal; lia).
      by rewrite Ha, Hb.
    + case_match; [done|by rewrite Hb].
  - case_match eqn:Hf; [|done]. exfalso. apply Hb.
    destruct (proj1 (board_collides_false g _) (Hfree k ltac:(lia)) _ _ Hf) as [_ He].
    rewrite <- He. f_equal; simpl; lia.
Qed.

(** C25: What tetrisu draws is the game. On every state the engine keeps, a frame is
    drawn, and each of the 26 x 10 cells of the board reads back from its two characters
    as the falling piece where it is, else, while the game lasts, as a pale cell of it
    where it would come to rest, else as what is locked in the board there, garbage
    included; neither the frame, nor the panels, the room's standings or the banner
    write over a cell, and the preview never hides a locked one. *)
Theorem board_is_on_screen g :
  game_ok g ->
  exists d q, render_game g = Some d /\ tetrisbrain_ghost g = Some q /\
  forall r c, 0 <= r < BOARD_HEIGHT -> 0 <= c < BOARD_WIDTH ->
    seen_cell d r c = Some
      (if covers (active g) r c then mkView (kind (active g)) false
       else if negb (game_over g) && covers q r c then mkView (kind (active g)) true
       else mkView (kind_of_code (bget (board g) r c)) false).
Proof.
  intros Hg. destruct (ghost_total g Hg) as [q Hq].
  eexists _, q. split; [unfold render_game; by rewrite Hq|]. split; [done|]. intros r c Hr Hc.
  rewrite off_field_seen; [| |done|done].
  - fold (preview g q). rewrite board_cell_seen; [|done|done|by apply cell_at_ok].
    by rewrite cell_at_landing.
  - rewrite !Forall_app. split_and!;
      [apply draw_frame_off|apply beside_off, draw_panels_beside|apply beside_off, draw_standings_beside|].
    case_match; [apply banner_off|constructor].
Qed.

(** The first frame of a round: the piece at the top, its preview on the floor. *)
Lemma board_is_on_screen_witness :
  let g := tetrisbrain_init zero_game 42 in
  exists d, render_game g = Some d /\
    (exists r c, seen_cell d r c = Some (mkView (kind (active g)) false)) /\
    (exists r c, seen_cell d r c = Some (mkView (kind (active g)) true)) /\
    seen_cell d 12 0 = Some (mkView PIECE_NONE false).
Proof.
  intros g. destruct (init_ok zero_game 42 zero_memory) as (Hg & _).
  destruct (board_is_on_screen g Hg) as (d & q & Hd & Hq & Hs). exists d. split; [exact Hd|].
  assert (Hq' : tetrisbrain_ghost g = Some (mkPiece PIECE_S 0 3 24)) by (vm_compute; reflexivity).
  rewrite Hq' in Hq. injection Hq as <-. split_and!.
  - exists 3, 4. rewrite Hs; [vm_compute; reflexivity|split; vm_compute; congruence..].
  - exists 24, 4. rewrite Hs; [vm_compute; reflexivity|split; vm_compute; congruence..].
  - rewrite Hs; [vm_compute; reflexivity|split; vm_compute; congruence..].
Defined.
