(* ===== verification/Ui.v ===== *)
(** * Ui: programs that wait for answers

    The terminal programs of the repository are loops of screens: each draws, waits for
    the user or the network, acts, and returns to its caller.  Here such a program is a
    computation over a list of answers, one for each time it waits, with a state of its own
    and a log of what it did.  It is suspended when the answers run out.

    The second half is the logic for such computations: [uses] counts the answers one
    takes, [triple] carries a condition through it. *)

From stdpp Require Import options.
From S2P Require Import Prelude.

Record prog {S A L : Type} := mkProg { p_state : S; p_ans : list A; p_log : list L }.
Arguments prog : clear implicits.
Arguments mkProg {S A L} _ _ _.

(** A computation: its result, or nothing while it waits for an answer. *)
Definition ui (S A L B : Type) : Type := prog S A L -> option B * prog S A L.

Section ui.
Context {S A L : Type}.
Abbreviation M := (ui S A L).
Abbreviation prog := (prog S A L).

Definition ret {B} (b : B) : M B := fun s => (Some b, s).
Definition seq {B C} (m : M B) (f : B -> M C) : M C :=
  fun s => match m s with (Some a, s) => f a s | (None, s) => (None, s) end.
Definition stuck {B} : M B := fun s => (None, s).
Definition next_answer : M A := fun s =>
  match p_ans s with [] => (None, s) | a :: r => (Some a, mkProg (p_state s) r (p_log s)) end.
Definition peek : M S := fun s => (Some (p_state s), s).
Definition poke (x : S) : M unit := fun s => (Some tt, mkProg x (p_ans s) (p_log s)).
Definition note (a : L) : M unit := fun s => (Some tt, mkProg (p_state s) (p_ans s) (p_log s ++ [a])).

(** [for (;;)]: the body goes on with a new state or leaves with a result.  Every round
    takes an answer, so the number of them bounds the rounds. *)
Fixpoint loop {B C} (fuel : nat) (body : B -> M (B + C)) (a : B) : M C :=
  match fuel with
  | O => stuck
  | Datatypes.S k => seq (body a) (fun r => match r with inl a => loop k body a | inr b => ret b end)
  end.

Definition forever {B C} (body : B -> M (B + C)) (a : B) : M C := fun s => loop (Datatypes.S (length (p_ans s))) body a s.

(** ** The log *)

(** Every act was allowed by what was done before it. *)
Definition each_act (ok : list L -> L -> Prop) (log : list L) : Prop :=
  forall before x after, log = before ++ x :: after -> ok before x.

Lemma each_act_nil ok : each_act ok [].
Proof. intros [|y b] x a H; discriminate H. Qed.

Lemma each_act_snoc ok log a : each_act ok log -> ok log a -> each_act ok (log ++ [a]).
Proof.
  intros Hl Ha b x r He. destruct r as [|y r _] using rev_ind.
  - apply app_inj_tail in He as [-> ->]. done.
  - rewrite app_comm_cons, app_assoc in He. apply app_inj_tail in He as [-> _]. by apply (Hl b x r).
Qed.

(** ** Taking answers *)

(** A computation that ends with [a] has taken [d a] answers at least; one that does not
    has taken all. *)
Definition uses {B} (d : B -> nat) (m : M B) : Prop :=
  forall s, match m s with
            | (Some a, s') => (length (p_ans s') + d a <= length (p_ans s))%nat
            | (None, s') => p_ans s' = []
            end.

Abbreviation keeps := (uses (fun _ => 0%nat)).
Abbreviation pops := (uses (fun _ => 1%nat)).

Lemma uses_weaken {B} (d e : B -> nat) m : uses d m -> (forall a, (e a <= d a)%nat) -> uses e m.
Proof. intros Hm He s. specialize (Hm s). destruct (m s) as [[a|] s']; [specialize (He a); lia|done]. Qed.

Lemma uses_seq {B C} (d : B -> nat) (e : C -> nat) (m : M B) (f : B -> M C) :
  uses d m -> (forall a, uses (fun b => (e b - d a)%nat) (f a)) -> uses e (seq m f).
Proof.
  intros Hm Hf s. unfold seq. specialize (Hm s). destruct (m s) as [[a|] s1]; [|done].
  specialize (Hf a s1). destruct (f a s1) as [[b|] s2]; [lia|done].
Qed.

Lemma uses_ret {B} (d : B -> nat) a : d a = 0%nat -> uses d (ret a).
Proof. intros Hd s. cbn. lia. Qed.
Lemma keeps_ret {B} (a : B) : keeps (ret a).
Proof. by apply uses_ret. Qed.
Lemma keeps_note a : keeps (note a).
Proof. intros s. cbn. lia. Qed.
Lemma keeps_peek : keeps peek.
Proof. intros s. cbn. lia. Qed.
Lemma keeps_poke x : keeps (poke x).
Proof. intros s. cbn. lia. Qed.
Lemma pops_next : pops next_answer.
Proof. intros s. unfold next_answer. destruct (p_ans s) as [|a r] eqn:E; cbn; [done|rewrite ?E; cbn; lia]. Qed.

Lemma keeps_seq {B C} (e : C -> nat) (m : M B) (f : B -> M C) : keeps m -> (forall a, uses e (f a)) -> uses e (seq m f).
Proof. intros Hm Hf. eapply uses_seq; [exact Hm|]. intros a. eapply uses_weaken; [apply Hf|]. intros b. cbn. lia. Qed.

Lemma pops_seq {B C} (e : C -> nat) (m : M B) (f : B -> M C) :
  pops m -> (forall a, keeps (f a)) -> (forall b, (e b <= 1)%nat) -> uses e (seq m f).
Proof. intros Hm Hf He. eapply uses_seq; [exact Hm|]. intros a. eapply uses_weaken; [apply Hf|]. intros b. specialize (He b). cbn. lia. Qed.

Lemma uses_if {B} (d : B -> nat) (b : bool) m m' : uses d m -> uses d m' -> uses d (if b then m else m').
Proof. by destruct b. Qed.

Lemma uses_loop {B C} (e : C -> nat) fuel (body : B -> M (B + C)) a s :
  (forall a, uses (fun r => match r with inl _ => 1 | inr b => e b end)%nat (body a)) -> (length (p_ans s) < fuel)%nat ->
  match loop fuel body a s with
  | (Some b, s') => (length (p_ans s') + e b <= length (p_ans s))%nat
  | (None, s') => p_ans s' = []
  end.
Proof.
  intros Hb. revert a s. induction fuel as [|k IH]; intros a s Hs; [lia|].
  cbn. unfold seq. specialize (Hb a s) as H1. destruct (body a s) as [[[a'|b]|] s1]; [|cbn; lia|done].
  specialize (IH a' s1 ltac:(lia)). destruct (loop k body a' s1) as [[b|] s2]; [lia|done].
Qed.

Lemma uses_forever {B C} (e : C -> nat) (body : B -> M (B + C)) a :
  (forall a, uses (fun r => match r with inl _ => 1 | inr b => e b end)%nat (body a)) -> uses e (forever body a).
Proof. intros Hb s. apply uses_loop; [done|lia]. Qed.

Lemma pops_forever {B C} (body : B -> M (B + C)) a : (forall a, pops (body a)) -> pops (forever body a).
Proof. intros Hb. apply uses_forever. intros a'. eapply uses_weaken; [apply Hb|]. intros [?|?]; lia. Qed.

Lemma pops_keeps {B} (m : M B) : pops m -> keeps m.
Proof. intros Hm. eapply uses_weaken; [exact Hm|]. cbn. lia. Qed.

(** ** Conditions *)

(** [safe] holds whenever the program is suspended, [Q] when the computation ends. *)
Definition triple (safe : prog -> Prop) {B} (P : prog -> Prop) (m : M B) (Q : B -> prog -> Prop) : Prop :=
  forall s, P s -> match m s with (Some a, s') => Q a s' | (None, s') => safe s' end.

Section triple.
Context {safe : prog -> Prop}.
#[local] Abbreviation triple := (triple safe).

Lemma triple_ret {B} (P : prog -> Prop) (Q : B -> prog -> Prop) a : (forall s, P s -> Q a s) -> triple P (ret a) Q.
Proof. intros H s Hs. by apply H. Qed.

Lemma triple_seq {B C} P (m : M B) (f : B -> M C) Q T :
  triple P m Q -> (forall a, triple (Q a) (f a) T) -> triple P (seq m f) T.
Proof.
  intros Hm Hf s Hs. unfold seq. specialize (Hm s Hs). destruct (m s) as [[a|] s1]; [|done]. by apply Hf.
Qed.

Lemma triple_weaken {B} P P' (m : M B) Q Q' :
  triple P m Q -> (forall s, P' s -> P s) -> (forall a s, Q a s -> Q' a s) -> triple P' m Q'.
Proof. intros Hm Hp Hq s Hs. specialize (Hm s (Hp s Hs)). destruct (m s) as [[a|] s1]; [by apply Hq|done]. Qed.

Lemma triple_if {B} P (b : bool) (m m' : M B) Q : triple P m Q -> triple P m' Q -> triple P (if b then m else m') Q.
Proof. by destruct b. Qed.

Lemma triple_loop {B C} (P : B -> prog -> Prop) fuel (body : B -> M (B + C)) Q a :
  (forall a s, P a s -> safe s) ->
  (forall a, triple (P a) (body a) (fun r s => match r with inl a => P a s | inr b => Q b s end)) ->
  triple (P a) (loop fuel body a) Q.
Proof.
  intros Hsafe Hb. revert a. induction fuel as [|k IH]; intros a; cbn; [intros s; apply Hsafe|].
  eapply triple_seq; [apply Hb|]. intros [a'|b]; [apply IH|by apply triple_ret].
Qed.

Lemma triple_forever {B C} (P : B -> prog -> Prop) (body : B -> M (B + C)) Q a :
  (forall a s, P a s -> safe s) ->
  (forall a, triple (P a) (body a) (fun r s => match r with inl a => P a s | inr b => Q b s end)) ->
  triple (P a) (forever body a) Q.
Proof. intros Hsafe Hb s. by apply triple_loop. Qed.
End triple.
End ui.

#[global] Arguments triple {S A L} safe {B} P m Q.
Abbreviation keeps := (uses (fun _ => 0%nat)).
Abbreviation pops := (uses (fun _ => 1%nat)).

Create HintDb uses.
#[export] Hint Resolve keeps_ret keeps_peek keeps_poke keeps_note : uses.

(** The computations that take no answer are closed under the constructs. *)
Ltac keeps_step :=
  lazymatch goal with
  | |- uses _ (let '(_, _) := ?p in _) => destruct p eqn:?
  | |- uses _ (match ?p with (_, _) => _ end) => destruct p eqn:?
  | |- uses _ (seq _ _) => apply keeps_seq; [|intros ?]
  | |- uses _ (if ?b then _ else _) => destruct b
  | |- uses _ (match ?x with _ => _ end) => destruct x
  | |- _ => solve [auto with uses]
  end.
Ltac keep := repeat (intros; cbv beta zeta; keeps_step).

