(* ===== verification/Screens.v ===== *)
(** * Screens: the game client as the player drives it

    Models tetriSH/src/tetrisu/tetrisu.c (the state machine of [main]), screens.c,
    screen_auth.c and game_screen.c over the client of Net.v.  What the player and the
    network do is a list of answers: each time the program waits, at a menu, in a form
    or in [poll], it takes the next one.  The program is suspended when the list ends.
    What it does is kept in a log.  Drawing is left out, apart from the texts of
    the message boxes; the keys are those of ncurses. *)

From Stdlib Require Import String.
From stdpp Require Import options.
From S2P Require Import Prelude Piece Action AdminMsg Text Name Layout DbRows History Htttp Tetrissh Auth SessionProc Net Ui.
#[local] Open Scope Z_scope.

Inductive ScreenResult := SCR_QUIT | SCR_BACK | SCR_OK | SCR_GAME_START | SCR_DISCONNECTED | SCR_AUTH_OK.

#[global] Instance ScreenResult_eq_dec : EqDecision ScreenResult.
Proof. solve_decision. Defined.

(** ** What the program is given *)

(** One return of [poll]: whether it failed ([Some true] is EINTR), the keys to be read,
    whether the connection is readable or hung up, and what [session_recv] yields if it
    is called. *)
Record wake := mkWake {
  wk_fail : option bool; wk_keys : list Z; wk_in : bool; wk_hup : bool; wk_rx : session_err * list Z
}.

(** An answer holds something for every kind of wait; the one that takes it picks. *)
Record answer := mkAnswer {
  a_menu : Z; a_form : option (list Z * list Z); a_text : option (list Z); a_yes : bool;
  a_dial : Z * session_err; a_wake : wake;
  a_accepts : list Z -> bool  (* which frames [session_send] takes until the next answer *)
}.

(** ** What the program does *)

Inductive act :=
| ADial (host : list Z) (port rc : Z)
| AJoin (room : Z) (frame : option (list Z))
| ALeave (frame : option (list Z))
| ASend (frame : option (list Z))
| AGot (ev : ClientEvent) (room : Z)       (* an event, and the room of the session after it *)
| AMenu                                     (* the lobby's menu *)
| AForm (error : option (list Z)) (start : Z)
| ASay (title line : list Z)
| AList (lines : list (list Z))
| AOffer.

(** The client, and which frames the connection takes. *)
Record player := mkPlayer { pl_client : Client; pl_accepts : list Z -> bool }.

Abbreviation prog := (prog player answer act).
Abbreviation M := (ui player answer act).

Definition p_client (s : prog) : Client := pl_client (p_state s).

#[local] Notation "x <- m ;; k" := (seq m (fun x => k)) (at level 100, m at next level, right associativity).
#[local] Notation "m >>> k" := (seq m (fun _ => k)) (at level 100, right associativity).

Definition ask : M answer := a <- next_answer ;; p <- peek ;; poke (mkPlayer (pl_client p) (a_accepts a)) >>> ret a.
Definition get : M Client := p <- peek ;; ret (pl_client p).
Definition put (c : Client) : M unit := p <- peek ;; poke (mkPlayer c (pl_accepts p)).
Definition sending : M (list Z -> bool) := p <- peek ;; ret (pl_accepts p).

(** ** The client's commands *)

Definition do_join (room : Z) : M bool :=
  acc <- sending ;; c <- get ;;
  let '(f, c) := client_join acc c room in
  put c >>> note (AJoin room f) >>> ret (bool_decide (is_Some f)).

Definition do_leave : M unit :=
  acc <- sending ;; c <- get ;;
  let '(f, c) := client_leave acc c in put c >>> note (ALeave f).

Definition do_send (cmd : (list Z -> bool) -> Client -> option (list Z)) : M bool :=
  acc <- sending ;; c <- get ;;
  let f := cmd acc c in note (ASend f) >>> ret (bool_decide (is_Some f)).

Definition do_auth (cmd : (list Z -> bool) -> Client -> option (list Z) * Client) : M bool :=
  acc <- sending ;; c <- get ;;
  let '(f, c) := cmd acc c in put c >>> note (ASend f) >>> ret (bool_decide (is_Some f)).

Definition service (rx : session_err * list Z) : M ClientEvent :=
  c <- get ;;
  let '(ev, c) := client_service c rx in
  put c >>> note (AGot ev (room_id (cl_session c))) >>> ret ev.

Definition say (title line : string) : M unit := note (ASay (bytes title) (bytes line)).

(** ** game_screen.c *)

Definition KEY_DOWN : Z := 258.
Definition KEY_UP : Z := 259.
Definition KEY_LEFT : Z := 260.
Definition KEY_RIGHT : Z := 261.

(** What a key sends while the board is alive. *)
Definition key_command (ch : Z) : option ((list Z -> bool) -> Client -> option (list Z)) :=
  if (ch =? 97) || (ch =? KEY_LEFT) then Some (fun acc c => client_move acc c false)
  else if (ch =? 100) || (ch =? KEY_RIGHT) then Some (fun acc c => client_move acc c true)
  else if ch =? 122 then Some (fun acc c => client_rotate acc c false)
  else if ch =? KEY_UP then Some (fun acc c => client_rotate acc c true)
  else if (ch =? 115) || (ch =? KEY_DOWN) then Some (fun acc c => client_drop acc c false)
  else if ch =? 32 then Some (fun acc c => client_drop acc c true)
  else if ch =? 99 then Some client_hold
  else None.

Definition handle_key (ch : Z) (alive : bool) : M bool :=
  if (ch =? 113) || (ch =? 81) then ret true
  else if negb alive then ret false
  else match key_command ch with Some cmd => do_send cmd >>> ret false | None => ret false end.

(** The keys of one wake-up; true when the player left. *)
Fixpoint game_keys (alive : bool) (keys : list Z) : M bool :=
  match keys with
  | [] => ret false
  | ch :: keys =>
      q <- handle_key ch alive ;;
      if q : bool then do_leave >>> ret true else game_keys alive keys
  end.

(** What an event of the connection does: leave with a result, or go on, alive or not. *)
Definition game_event (alive : bool) (ev : ClientEvent) : M (bool + ScreenResult) :=
  c <- get ;;
  match ev with
  | CLI_EV_DISCONNECT => ret (inr SCR_DISCONNECTED)
  | CLI_EV_RESULT => ret (inr SCR_OK)
  | CLI_EV_GAME => ret (inl (if bool_decide (cl_phase c = CLI_GAME_OVER) then false else alive))
  | CLI_EV_SESSION =>
      if have_session c && negb (bool_decide (phase (cl_session c) = SESSION_PLAYING)) then ret (inr SCR_OK) else ret (inl alive)
  | CLI_EV_REJECT => put (set_last_reject 0 c) >>> ret (inl alive)
  | _ => ret (inl alive)
  end.

Definition game_round (alive : bool) : M (bool + ScreenResult) :=
  a <- ask ;;
  let w := a_wake a in
  match wk_fail w with
  | Some true => ret (inl alive)
  | Some false => ret (inr SCR_DISCONNECTED)
  | None =>
      q <- game_keys alive (wk_keys w) ;;
      if q : bool then ret (inr SCR_BACK)
      else
        e <- (if wk_in w then ev <- service (wk_rx w) ;; game_event alive ev else ret (inl alive)) ;;
        match e with
        | inr r => ret (inr r)
        | inl alive => if wk_hup w then ret (inr SCR_DISCONNECTED) else ret (inl alive)
        end
  end.

Definition screen_game : M ScreenResult := forever game_round true.

(** ** screens.c: joining and waiting *)

Definition TETRISUI_FIELD_LEN : nat := 128.
Definition field (v : list Z) : list Z := trunc TETRISUI_FIELD_LEN (cstr v).

(** [done:], with the result and the refusal to report. *)
Definition wait_done (r : ScreenResult) (reject : Z) : M ScreenResult :=
  (if bool_decide (r = SCR_BACK) then do_leave else ret tt) >>>
  (if reject =? REJECT_CONFLICT then say "Cannot join" "Room is already playing, or you are already in one."
   else if reject =? REJECT_FULL then say "Cannot join" "That room is full, or the server is out of slots."
   else ret tt) >>>
  ret r.

Fixpoint wait_keys (keys : list Z) : M bool :=
  match keys with
  | [] => ret false
  | ch :: keys =>
      if (ch =? 115) || (ch =? 83) then do_send client_start >>> wait_keys keys
      else if (ch =? 113) || (ch =? 81) || (ch =? 27) then do_leave >>> ret true
      else wait_keys keys
  end.

(** What a frame does: the end of the wait, with the refusal to report, or none. *)
Definition wait_event (ev : ClientEvent) : M (option (ScreenResult * Z)) :=
  if bool_decide (ev = CLI_EV_DISCONNECT) then ret (Some (SCR_DISCONNECTED, 0))
  else
    c <- get ;;
    let why := last_reject c in
    (if bool_decide (ev = CLI_EV_REJECT) then put (set_last_reject 0 c) else ret tt) >>>
    if bool_decide (ev = CLI_EV_REJECT) && negb (why =? REJECT_NOT_OWNER) then ret (Some (SCR_BACK, why))
    else
      (if bool_decide (ev = CLI_EV_REJECT) then say "Not the owner" "Only the player who created the room can start it." else ret tt) >>>
      if bool_decide (cl_phase c = CLI_PLAYING) then ret (Some (SCR_GAME_START, 0)) else ret None.

Definition wait_round (_ : unit) : M (unit + (ScreenResult * Z)) :=
  a <- ask ;;
  let w := a_wake a in
  match wk_fail w with
  | Some true => ret (inl tt)
  | Some false => ret (inr (SCR_DISCONNECTED, 0))
  | None =>
      q <- wait_keys (wk_keys w) ;;
      if q : bool then ret (inr (SCR_BACK, 0))
      else
        e <- (if wk_in w then ev <- service (wk_rx w) ;; wait_event ev else ret None) ;;
        match e with
        | Some r => ret (inr r)
        | None => if wk_hup w then ret (inr (SCR_DISCONNECTED, 0)) else ret (inl tt)
        end
  end.

Definition screen_wait_start : M ScreenResult :=
  r <- forever wait_round tt ;; wait_done r.1 r.2.

Definition join_text (id : Z) : bool := (id <? 0) || (MAX_ROOMS <? id).

Definition screen_join_room : M ScreenResult :=
  forever (fun _ : unit =>
    a <- ask ;;
    match a_text a with
    | None => ret (inr SCR_BACK)
    | Some t =>
        let buf := trunc 16 (cstr t) in
        if bool_decide (buf = []) then ret (inl tt)
        else
          let id := atoi buf in
          if join_text id then say "Invalid room" "Room id must be between 0 and 1024." >>> ret (inl tt)
          else
            ok <- do_join id ;;
            if ok : bool then ret (inr SCR_OK)
            else say "Join failed" "Could not send JOIN to the server." >>> ret (inr SCR_DISCONNECTED)
    end) tt.

(** ** The wait for a reply *)

Definition wait_reply (final : ClientEvent -> bool) : M ClientEvent :=
  forever (fun _ : unit =>
    a <- ask ;;
    let w := a_wake a in
    match wk_fail w with
    | Some true => ret (inl tt)
    | Some false => ret (inr CLI_EV_DISCONNECT)
    | None =>
        if wk_in w || wk_hup w then
          ev <- service (wk_rx w) ;;
          if final ev then ret (inr ev) else ret (inl tt)
        else ret (inl tt)
    end) tt.

Definition wait_history_reply : M ClientEvent :=
  wait_reply (fun ev => match ev with CLI_EV_HISTORY | CLI_EV_REJECT | CLI_EV_DISCONNECT => true | _ => false end).

Definition wait_auth_reply : M ClientEvent :=
  wait_reply (fun ev => match ev with CLI_EV_AUTH_OK | CLI_EV_REJECT | CLI_EV_DISCONNECT => true | _ => false end).

(** ** screens.c: the history *)

Definition HISTORY_LINE_LEN : nat := 96.
Definition HISTORY_LINES_MAX : nat := HISTORY_VIEW_ROUNDS + 4.

Definition history_survived_secs (ts_start ts_end : Z) : Z := let d := ts_end - ts_start in if d <? 0 then 0 else d.

Definition left_in (n : nat) (s : list Z) : list Z := s ++ replicate (n - length s) 32.

Definition round_line (r : Z) (rd : history_round) : list Z :=
  bytes "  " ++ decimal_int (r + 1) ++ bytes ". score " ++ left_in 6 (decimal_int (hr_score rd)) ++ bytes "  lines " ++
  left_in 4 (decimal_int (hr_lines rd)) ++ bytes "  survived " ++ decimal_ll (history_survived_secs (hr_ts_start rd) (hr_ts_end rd)) ++ bytes "s".

Definition build_history_lines (h : player_history) : list (list Z) :=
  trunc HISTORY_LINE_LEN <$>
  match h_status h with
  | HISTORY_VIEW_GUEST => [bytes "History is kept per account."; bytes "Log in or register to start one."]
  | HISTORY_VIEW_UNAVAILABLE => [bytes "Could not reach the history service."; bytes "Try again in a moment."]
  | HISTORY_VIEW_EMPTY => [bytes "You have not finished a round yet."]
  | HISTORY_VIEW_OK =>
      [bytes "Best score " ++ left_in 6 (decimal_int (h_best_score h)) ++ bytes "  Best lines " ++ left_in 4 (decimal_int (h_best_lines h)) ++
         bytes "  Games played " ++ decimal_int (h_games_played h);
       bytes " "; bytes "Recent games (newest first):"] ++
      imap (fun i rd => round_line (Z.of_nat i) rd)
        (take (Nat.min (Z.to_nat (h_recent_count h)) (HISTORY_LINES_MAX - 3)) (h_recent h))
  end.

Definition screen_history : M ScreenResult :=
  ok <- do_send client_history ;;
  if negb ok then say "History unavailable" "Could not send the request." >>> ret SCR_OK
  else
    ev <- wait_history_reply ;;
    match ev with
    | CLI_EV_DISCONNECT => ret SCR_DISCONNECTED
    | CLI_EV_HISTORY => c <- get ;; note (AList (build_history_lines (cl_history c))) >>> ret SCR_OK
    | _ => say "History unavailable" "Unexpected server state. Try again." >>> ret SCR_OK
    end.

(** ** screens.c: the lobby's menu *)

Definition history_idx : Z := 2.
Definition quit_idx : Z := 3.

Definition screen_main_menu : M ScreenResult :=
  forever (fun _ : unit =>
    note AMenu >>>
    (a <- ask ;;
    let sel := a_menu a in
    if (sel <? 0) || (sel =? quit_idx) then ret (inr SCR_QUIT)
    else if sel =? 0 then
      ok <- do_join 0 ;;
      if ok : bool then ret (inr SCR_OK)
      else say "Join failed" "Could not send JOIN to the server." >>> ret (inr SCR_DISCONNECTED)
    else if sel =? 1 then
      r <- screen_join_room ;; ret (inr (if bool_decide (r = SCR_OK) then SCR_OK else SCR_BACK))
    else if sel =? history_idx then
      r <- screen_history ;; if bool_decide (r = SCR_DISCONNECTED) then ret (inr SCR_DISCONNECTED) else ret (inl tt)
    else ret (inl tt))) tt.

(** ** screens.c: connecting *)

Definition screen_connect : M ScreenResult :=
  forever (fun _ : unit =>
    note (AForm None 0) >>>
    (a <- ask ;;
    match a_form a with
    | None => ret (inr SCR_QUIT)
    | Some (h, p) =>
        let host_buf := trunc 64 (field h) in
        let p := atoi (trunc 16 (field p)) in
        if (p <=? 0) || (65535 <? p) then say "Connect failed" "Port must be between 1 and 65535." >>> ret (inl tt)
        else
          let '(rc, c) := client_connect (a_dial a).1 (a_dial a).2 in
          put c >>> note (ADial host_buf p rc) >>>
          if rc =? CLIENT_ERR_CONNECT then say "Connect failed" "No route to server, or connection refused." >>> ret (inl tt)
          else if negb (rc =? 0) then
            (if rc =? session_err_code SESSION_ERR_AUTH then say "Handshake rejected" "Server certificate failed verification against the CA."
             else if rc =? session_err_code SESSION_ERR_IO then say "Handshake failed" "Server closed the connection during the handshake."
             else say "Handshake failed" "Crypto or protocol error during the handshake.") >>> ret (inl tt)
          else ret (inr SCR_OK)
    end)) tt.

(** ** screen_auth.c *)

Definition valid_username (s : list Z) : bool := user_name_ok s.

Definition valid_password (s : list Z) (registering : bool) : bool :=
  let len := Z.of_nat (length s) in
  if len <? 1 then false else if registering && ((len <? 8) || (128 <? len)) then false else true.

Definition warn_line (c : Client) (status : Z) : list Z :=
  let base := if status =? 401 then bytes "Incorrect password." else bytes "No account with that username." in
  trunc 224
    (if 2 <=? auth_failures (cl_auth c)
     then base ++ bytes " Attempt failed (" ++ decimal_int (auth_failures (cl_auth c)) ++
       bytes " failed so far on this connection). The server closes the connection after auth_max_attempts failed attempts on one connection."
     else base).

Definition send_guest_and_wait : M ClientEvent :=
  ok <- do_auth client_guest ;; if ok : bool then wait_auth_reply else ret CLI_EV_DISCONNECT.

Definition guest_flow : M ScreenResult :=
  ev <- send_guest_and_wait ;;
  match ev with
  | CLI_EV_AUTH_OK => ret SCR_AUTH_OK
  | CLI_EV_DISCONNECT => ret SCR_DISCONNECTED
  | _ => say "Could not continue as guest" "Unexpected server state. Try again, or quit and reconnect." >>> ret SCR_BACK
  end.

(** What the form shows next after a refusal: the error and the field to retype. *)
Definition refusal (c : Client) (registering : bool) (status start : Z) : list Z * Z :=
  if status =? 400 then (bytes "The server rejected that request. Try again.", 0)
  else if status =? 401 then (warn_line c status, 1)
  else if status =? 404 then (warn_line c status, 0)
  else if status =? 409 then
    if registering then (bytes "That username is taken. Pick another.", 0)
    else (bytes "Unexpected server state. Try again, or quit and reconnect.", start)
  else (bytes "The server refused that request (" ++ decimal_int status ++ bytes ").", start).

Definition credential_round (registering : bool) (st : option (list Z) * Z) : M ((option (list Z) * Z) + ScreenResult) :=
  let '(error, start) := st in
  note (AForm error start) >>>
  (a <- ask ;;
  match a_form a with
  | None => ret (inr SCR_BACK)
  | Some (u, p) =>
      let u := field u in let p := field p in
      if negb (valid_username u)
      then ret (inl (Some (bytes "Username: 1-15 characters, letters, digits, _ or - only."), 0))
      else if negb (valid_password p registering)
      then ret (inl (Some (if registering then bytes "Password: 8-128 characters." else bytes "Enter your password."), 1))
      else
        ok <- do_auth (fun acc c => if registering then client_register acc c u p else client_login acc c u p) ;;
        if negb ok then ret (inl (Some (bytes "Could not reach the server."), start))
        else
          ev <- wait_auth_reply ;;
          match ev with
          | CLI_EV_DISCONNECT => ret (inr SCR_DISCONNECTED)
          | CLI_EV_AUTH_OK => ret (inr SCR_AUTH_OK)
          | _ =>
              c <- get ;;
              if last_reject c =? 500 then
                say "Account service unreachable" "Could not reach the account service - continuing as a guest." >>>
                (gev <- send_guest_and_wait ;;
                match gev with
                | CLI_EV_DISCONNECT => ret (inr SCR_DISCONNECTED)
                | CLI_EV_AUTH_OK => ret (inr SCR_AUTH_OK)
                | _ => ret (inr SCR_BACK)
                end)
              else let '(e, start) := refusal c registering (last_reject c) start in ret (inl (Some e, start))
          end
  end).

Definition credential_flow (registering : bool) : M ScreenResult := forever (credential_round registering) (None, 0).

Definition screen_auth : M ScreenResult :=
  forever (fun _ : unit =>
    a <- ask ;;
    let sel := a_menu a in
    if sel <? 0 then ret (inr SCR_QUIT)
    else
      r <- (if sel =? 2 then guest_flow else credential_flow (sel =? 1)) ;;
      if bool_decide (r = SCR_BACK) then ret (inl tt) else ret (inr r)) tt.

(** ** tetrisu.c *)

(** One pass of [while (r == SCR_GAME_START)]. *)
Definition room_round (r : ScreenResult) : M (ScreenResult + ScreenResult) :=
  if negb (bool_decide (r = SCR_GAME_START)) then ret (inr r)
  else
    r <- screen_game ;;
    if negb (bool_decide (r = SCR_OK)) then ret (inr r)
    else
      c <- get ;;
      (if 0 <=? last_winner c
       then note (ASay (bytes "Round over") (trunc 64 (bytes "Player " ++ decimal_int (last_winner c) ++ bytes " wins."))) >>>
            put (set_last_winner (-1) c)
       else ret tt) >>>
      (if have_session c && (room_id (cl_session c) =? ROOM_NONE) then ret (inr r)
       else r <- screen_wait_start ;; ret (inl r)).

(** One pass of the lobby's loop. *)
Definition lobby_round (r : ScreenResult) : M (ScreenResult + ScreenResult) :=
  if bool_decide (r = SCR_QUIT) || bool_decide (r = SCR_DISCONNECTED) then ret (inr r)
  else
    r <- screen_main_menu ;;
    if negb (bool_decide (r = SCR_OK)) then ret (inl r)
    else
      r <- screen_wait_start ;;
      r <- forever room_round r ;; ret (inl r).

Definition offer_reconnect : M bool := note AOffer >>> (a <- ask ;; ret (a_yes a)).

(** One connection: [total] counts the frames of the ones before. *)
Definition connection (st : ScreenResult * Z) : M ((ScreenResult * Z) + (ScreenResult * Z)) :=
  let '(r, total) := st in
  r <- (if bool_decide (r = SCR_OK) then screen_auth else ret r) ;;
  r <- forever lobby_round r ;;
  c <- get ;;
  if negb (bool_decide (r = SCR_DISCONNECTED)) || negb (reconnect_ok (cl_auth c)) then ret (inr (r, total))
  else
    let total := u32 (total + frames_seen c) in
    yes <- offer_reconnect ;;
    if negb yes then ret (inr (r, total))
    else put (client_disconnect c) >>> (r <- screen_connect ;; ret (inl (r, total))).

(** [main] after its arguments: the exit status and the count it prints. *)
Definition tetrisu : M (Z * Z) :=
  r <- screen_connect ;;
  st <- forever connection (r, 0) ;;
  c <- get ;;
  let total := u32 (st.2 + frames_seen c) in
  put (client_disconnect c) >>> ret (if bool_decide (st.1 = SCR_DISCONNECTED) then 1 else 0, total).

(** The program before its first screen. *)
Definition launch (answers : list answer) : prog :=
  mkProg (mkPlayer (mkClient 0 CLI_DISCONNECTED 0 false zero_session false blank_game false 0 0 (blank_history HISTORY_VIEW_OK) false 0
            (mkAuth 0 false AUTH_NONE AUTH_NONE false)) (fun _ => false)) answers [].
