(* ===== verification/ScreensTheorems.v ===== *)
(** * ScreensTheorems: the game client never forgets the room it is in

    Two facts about the program of Screens.v, for every list of answers the player and
    the network give.  It goes on as long as there are answers: the bound on the rounds
    of its loops is never what stops it.  And whenever it shows the lobby's menu, whose
    only commands are JOIN and HISTORY, the room of the last JOIN is behind it: the
    client has sent LEAVE since, or the server has said that it is in no room, or the
    connection is a new one.  A JOIN sent from inside a room is refused for good, so this is
    what keeps the client usable.

    Both are proved with the logic of Ui.v. *)

From Stdlib Require Import String.
From stdpp Require Import options.
From S2P Require Import Prelude Piece Action AdminMsg Text Name Layout DbRows History Htttp Tetrissh Auth SessionProc Net Ui Screens.
#[local] Open Scope Z_scope.

(** ** Taking answers *)

Lemma keeps_get : keeps get.
Proof. unfold get. keep. Qed.
Lemma keeps_put c : keeps (put c).
Proof. unfold put. keep. Qed.
Lemma keeps_sending : keeps sending.
Proof. unfold sending. keep. Qed.
Lemma pops_ask : pops ask.
Proof. apply pops_seq; [apply pops_next|intros ?; keep|intros ?; lia]. Qed.
#[local] Hint Resolve keeps_get keeps_put keeps_sending : uses.

Lemma keeps_join room : keeps (do_join room).
Proof. unfold do_join. keep. Qed.
Lemma keeps_leave : keeps do_leave.
Proof. unfold do_leave. keep. Qed.
Lemma keeps_send cmd : keeps (do_send cmd).
Proof. unfold do_send. keep. Qed.
Lemma keeps_auth cmd : keeps (do_auth cmd).
Proof. unfold do_auth. keep. Qed.
Lemma keeps_service rx : keeps (service rx).
Proof. unfold service. keep. Qed.
Lemma keeps_say t l : keeps (say t l).
Proof. unfold say. keep. Qed.
#[local] Hint Resolve keeps_join keeps_leave keeps_send keeps_auth keeps_service keeps_say : uses.

Lemma keeps_game_keys alive keys : keeps (game_keys alive keys).
Proof. induction keys; cbn; unfold handle_key; keep. Qed.
Lemma keeps_wait_keys keys : keeps (wait_keys keys).
Proof. induction keys; cbn; keep. Qed.
Lemma keeps_game_event alive ev : keeps (game_event alive ev).
Proof. unfold game_event. keep. Qed.
Lemma keeps_wait_event ev : keeps (wait_event ev).
Proof. unfold wait_event. keep. Qed.
Lemma keeps_wait_done r w : keeps (wait_done r w).
Proof. unfold wait_done. keep. Qed.
#[local] Hint Resolve keeps_game_keys keeps_wait_keys keeps_game_event keeps_wait_event keeps_wait_done : uses.

(** A round that begins with an answer. *)
Ltac popped := apply pops_seq; [apply pops_ask|intros ?; keep|intros ?; lia].

Lemma pops_screen_game : pops screen_game.
Proof. apply pops_forever. intros alive. unfold game_round. popped. Qed.

Lemma pops_screen_wait_start : pops screen_wait_start.
Proof.
  unfold screen_wait_start. apply pops_seq; [|intros ?; auto with uses|intros ?; lia].
  apply pops_forever. intros u. unfold wait_round. popped.
Qed.

Lemma keeps_screen_join_room : keeps screen_join_room.
Proof. apply pops_keeps, pops_forever. intros u. popped. Qed.
Lemma keeps_wait_reply final : keeps (wait_reply final).
Proof. apply pops_keeps, pops_forever. intros u. popped. Qed.
#[local] Hint Resolve keeps_screen_join_room : uses.
#[local] Hint Extern 1 (keeps wait_auth_reply) => apply keeps_wait_reply : uses.
#[local] Hint Extern 1 (keeps wait_history_reply) => apply keeps_wait_reply : uses.

Lemma keeps_screen_history : keeps screen_history.
Proof. unfold screen_history. keep. Qed.
#[local] Hint Resolve keeps_screen_history : uses.

Lemma pops_screen_main_menu : pops screen_main_menu.
Proof. apply pops_forever. intros u. apply keeps_seq; [apply keeps_note|intros ?]. popped. Qed.

Lemma keeps_screen_connect : keeps screen_connect.
Proof. apply pops_keeps, pops_forever. intros u. apply keeps_seq; [apply keeps_note|intros ?]. popped. Qed.

Lemma keeps_guest : keeps send_guest_and_wait.
Proof. unfold send_guest_and_wait. keep. Qed.
#[local] Hint Resolve keeps_guest keeps_screen_connect : uses.
Lemma keeps_guest_flow : keeps guest_flow.
Proof. unfold guest_flow. keep. Qed.
Lemma keeps_credential_flow b : keeps (credential_flow b).
Proof.
  apply pops_keeps, pops_forever. intros [e st]. unfold credential_round.
  apply keeps_seq; [apply keeps_note|intros ?]. popped.
Qed.
#[local] Hint Resolve keeps_guest_flow keeps_credential_flow : uses.

Lemma keeps_screen_auth : keeps screen_auth.
Proof. apply pops_keeps, pops_forever. intros u. popped. Qed.
#[local] Hint Resolve keeps_screen_auth : uses.

(** The loops of [main] take an answer in every round that goes on. *)
Lemma keeps_room_rounds r : keeps (forever room_round r).
Proof.
  apply uses_forever. intros r'. unfold room_round. apply uses_if; [by apply uses_ret|].
  apply pops_seq; [apply pops_screen_game|intros ?|by intros [?|?]; lia].
  repeat keeps_step. apply pops_keeps, pops_screen_wait_start.
Qed.
#[local] Hint Resolve keeps_room_rounds : uses.

Lemma keeps_lobby r : keeps (forever lobby_round r).
Proof.
  apply uses_forever. intros r'. unfold lobby_round. apply uses_if; [by apply uses_ret|].
  apply pops_seq; [apply pops_screen_main_menu|intros ?|by intros [?|?]; lia].
  repeat keeps_step. apply pops_keeps, pops_screen_wait_start.
Qed.
#[local] Hint Resolve keeps_lobby : uses.

Lemma pops_offer : pops offer_reconnect.
Proof. unfold offer_reconnect. apply keeps_seq; [apply keeps_note|intros ?]. popped. Qed.

Lemma keeps_tetrisu : keeps tetrisu.
Proof.
  unfold tetrisu. apply keeps_seq; [auto with uses|intros r]. apply keeps_seq; [|intros st; keep].
  apply uses_forever. intros [r' total]. unfold connection.
  apply keeps_seq; [keep|intros r1]. apply keeps_seq; [auto with uses|intros r2]. apply keeps_seq; [apply keeps_get|intros c].
  apply uses_if; [by apply uses_ret|]. cbv zeta.
  apply pops_seq; [apply pops_offer|intros yes; keep|by intros [?|?]; lia].
Qed.

(** ** The room the client may be in *)

(** After the log, whether a JOIN is still standing. *)
Definition joined_step (b : bool) (a : act) : bool :=
  match a with
  | ADial _ _ _ => false
  | AJoin _ (Some _) => true
  | ALeave _ => false
  | AGot CLI_EV_SESSION room => if room =? ROOM_NONE then false else b
  | _ => b
  end.

Definition joined (log : list act) : bool := foldl joined_step false log.

(** Every menu so far was shown outside a room. *)
Definition menus_outside : list act -> Prop := each_act (fun l x => x = AMenu -> joined l = false).

Lemma joined_snoc log a : joined (log ++ [a]) = joined_step (joined log) a.
Proof. unfold joined. by rewrite foldl_app. Qed.

Lemma menus_snoc log a : menus_outside log -> (a = AMenu -> joined log = false) -> menus_outside (log ++ [a]).
Proof. intros Hl Ha. by apply each_act_snoc. Qed.

(** ** The logic *)

Definition safe (s : prog) : Prop := menus_outside (p_log s).

Abbreviation triple := (triple safe).

(** A condition on whether a JOIN stands and on what the client believes. *)
Definition at_ (R : bool -> Client -> Prop) (s : prog) : Prop := safe s /\ R (joined (p_log s)) (p_client s).

Lemma triple_ask R : triple (at_ R) ask (fun _ => at_ R).
Proof. intros s [Hs HR]. unfold ask, seq, next_answer. by destruct (p_ans s). Qed.

Lemma triple_get R : triple (at_ R) get (fun c s => at_ R s /\ c = p_client s).
Proof. intros s Hs. by split. Qed.

Lemma triple_sending R : triple (at_ R) sending (fun _ => at_ R).
Proof. by intros s Hs. Qed.

Lemma triple_put (P : prog -> Prop) R c : (forall s, P s -> safe s /\ R (joined (p_log s)) c) -> triple P (put c) (fun _ => at_ R).
Proof. intros H s Hs. exact (H s Hs). Qed.

Lemma triple_note R R' a :
  (forall b c, R b c -> R' (joined_step b a) c) -> (a = AMenu -> forall c, ~ R true c) ->
  triple (at_ R) (note a) (fun _ => at_ R').
Proof.
  intros HR Hm s [Hs Hr]. split.
  - apply menus_snoc; [done|]. intros ->. cbn. destruct (joined (p_log s)) eqn:E; [|done]. by destruct (Hm eq_refl _ Hr).
  - cbn. rewrite joined_snoc. by apply HR.
Qed.

(** ** The three conditions *)

Definition in_no_room (c : Client) : Prop := have_session c = true /\ room_id (cl_session c) = ROOM_NONE.

(** Outside; waiting, where what the server said of no room is older than the JOIN, and then
    no round runs; playing, where what it said is newer. *)
Definition outside (b : bool) (c : Client) : Prop := b = false.
Definition waiting (b : bool) (c : Client) : Prop := b = true -> in_no_room c -> cl_phase c <> CLI_PLAYING.
Definition playing (b : bool) (c : Client) : Prop := b = true -> ~ in_no_room c.

Lemma outside_waiting b c : outside b c -> waiting b c.
Proof. by intros ->. Qed.
Lemma playing_waiting b c : playing b c -> waiting b c.
Proof. intros H Hb Hc. by destruct (H Hb). Qed.

(** Taking a frame keeps each of the three. *)
Definition told (ev : ClientEvent) (b : bool) (c : Client) : bool := joined_step b (AGot ev (room_id (cl_session c))).

Lemma client_service_session c rx ev c' :
  client_service c rx = (ev, c') ->
  ev = CLI_EV_SESSION \/
  (cl_session c' = cl_session c /\ have_session c' = have_session c /\
   (cl_phase c' = cl_phase c \/ cl_phase c' = CLI_DISCONNECTED \/ room_id (cl_session c) <> ROOM_NONE)).
Proof.
  unfold client_service, net_service, take_push, fold_auth_reply, clear_auth. destruct rx as [rc buf]. intros H.
  repeat case_match; simplify_eq; cbn in *; simplify_eq; bool_arith; naive_solver.
Qed.

(** What the screens' own steps do not disturb. *)
Class Steady (R : bool -> Client -> Prop) : Prop := {
  steady_service : forall b c rx ev c', client_service c rx = (ev, c') -> R b c -> R (told ev b c') c';
  steady_reject : forall b c v, R b c -> R b (set_last_reject v c);
  steady_winner : forall b c v, R b c -> R b (set_last_winner v c);
  steady_auth : forall b c v, R b c -> R b (set_cl_auth v c)
}.

Lemma told_session b c : told CLI_EV_SESSION b c = if room_id (cl_session c) =? ROOM_NONE then false else b.
Proof. done. Qed.

Lemma told_other ev b c : ev <> CLI_EV_SESSION -> told ev b c = b.
Proof. by destruct ev. Qed.

#[global] Instance outside_steady : Steady outside.
Proof. split; try done. intros b c rx ev c' _ ->. unfold outside, told. cbn. by repeat case_match. Qed.

#[global] Instance waiting_steady : Steady waiting.
Proof.
  split; try done. intros b c rx ev c' Hs HR Hb [Hh Hr].
  destruct (decide (ev = CLI_EV_SESSION)) as [->|Hev].
  - rewrite told_session, Hr in Hb. done.
  - rewrite told_other in Hb by done. destruct (client_service_session _ _ _ _ Hs) as [|(Hss & Hhs & Hp)]; [done|].
    rewrite Hss in Hr. rewrite Hhs in Hh. assert (Hn : in_no_room c) by done.
    specialize (HR Hb Hn). destruct Hp as [->|[->|]]; done.
Qed.

#[global] Instance playing_steady : Steady playing.
Proof.
  split; try done. intros b c rx ev c' Hs HR Hb [Hh Hr].
  destruct (decide (ev = CLI_EV_SESSION)) as [->|Hev].
  - rewrite told_session, Hr in Hb. done.
  - rewrite told_other in Hb by done. destruct (client_service_session _ _ _ _ Hs) as [|(Hss & Hhs & _)]; [done|].
    apply (HR Hb). split; congruence.
Qed.

(** ** The client's commands *)

(** The state after the steps of a command. *)
Tactic Notation "steps" reference(c) hyp(s) := cbv [c seq get put note ret peek poke sending]; fold (p_client s).

Lemma triple_say R t l : triple (at_ R) (say t l) (fun _ => at_ R).
Proof. by apply triple_note. Qed.

Lemma triple_service R `{!Steady R} rx : triple (at_ R) (service rx) (fun _ => at_ R).
Proof.
  intros s [Hs HR]. steps service s. destruct (client_service (p_client s) rx) as [ev c'] eqn:E.
  split; [by apply menus_snoc|]. cbn. rewrite joined_snoc. exact (steady_service _ _ _ _ _ E HR).
Qed.

Lemma triple_send R cmd : triple (at_ R) (do_send cmd) (fun _ => at_ R).
Proof.
  intros s [Hs HR]. steps do_send s. split; [by apply menus_snoc|].
  cbn. rewrite joined_snoc. exact HR.
Qed.

(** A sign-in request touches only the fields of the sign-in. *)
Definition signs_in (cmd : (list Z -> bool) -> Client -> option (list Z) * Client) : Prop :=
  forall acc c, exists v, (cmd acc c).2 = set_cl_auth v c.

Lemma triple_auth R `{!Steady R} cmd : signs_in cmd -> triple (at_ R) (do_auth cmd) (fun _ => at_ R).
Proof.
  intros Hc s [Hs HR]. steps do_auth s.
  destruct (Hc (pl_accepts (p_state s)) (p_client s)) as [v Hv]. destruct (cmd _ _) as [f c']. cbn in Hv. subst c'.
  split; [by apply menus_snoc|]. cbn. rewrite joined_snoc. by apply steady_auth.
Qed.

Lemma triple_leave R : triple (at_ R) do_leave (fun _ => at_ outside).
Proof.
  intros s [Hs HR]. steps do_leave s. destruct (client_leave _ _) as [f c'].
  split; [by apply menus_snoc|]. cbn. by rewrite joined_snoc.
Qed.

Lemma triple_join room :
  triple (at_ outside) (do_join room) (fun ok => at_ (if ok : bool then waiting else outside)).
Proof.
  intros s [Hs HR]. steps do_join s. cbv [client_join].
  destruct (send_cmd _ _ _ _ _) as [f|]; (split; [by apply menus_snoc|]); cbn; rewrite joined_snoc.
  - by intros _ _.
  - exact HR.
Qed.

(** ** The screens *)

Ltac asks := eapply triple_seq; [apply triple_ask|intros a; cbv beta zeta].
Ltac by_ret := apply triple_ret; intros s; cbn; try tauto.

Lemma triple_wait_reply R `{!Steady R} final : triple (at_ R) (wait_reply final) (fun _ => at_ R).
Proof.
  apply (triple_forever (fun _ => at_ R)); [by intros _ s []|]. intros _.
  asks. destruct (wk_fail (a_wake a)) as [[]|]; [by_ret..|].
  apply triple_if; [|by_ret]. eapply triple_seq; [by apply triple_service|intros ev]. apply triple_if; by_ret.
Qed.

Lemma triple_guest R `{!Steady R} : triple (at_ R) send_guest_and_wait (fun _ => at_ R).
Proof.
  eapply triple_seq; [apply triple_auth; [done|]|].
  - intros acc c. by eexists.
  - intros []; [by apply triple_wait_reply|by_ret].
Qed.

Lemma triple_screen_history R `{!Steady R} : triple (at_ R) screen_history (fun _ => at_ R).
Proof.
  eapply triple_seq; [apply triple_send|intros ok]. apply triple_if.
  { eapply triple_seq; [apply triple_say|intros ?; by_ret]. }
  eapply triple_seq; [by apply triple_wait_reply|intros ev].
  destruct ev; try solve [by_ret|eapply triple_seq; [apply triple_say|intros ?; by_ret]].
  eapply triple_seq; [apply triple_get|intros c].
  apply (triple_seq _ _ _ (fun _ => at_ R)); [|intros ?; by_ret].
  eapply triple_weaken; [by apply (triple_note R R)| |done]. tauto.
Qed.

Lemma triple_guest_flow R `{!Steady R} : triple (at_ R) guest_flow (fun _ => at_ R).
Proof.
  eapply triple_seq; [by apply triple_guest|intros ev].
  destruct ev; solve [by_ret|eapply triple_seq; [apply triple_say|intros ?; by_ret]].
Qed.

Lemma triple_credential_flow R `{!Steady R} reg : triple (at_ R) (credential_flow reg) (fun _ => at_ R).
Proof.
  apply (triple_forever (fun _ => at_ R)); [by intros _ s []|]. intros [error start]. unfold credential_round.
  eapply triple_seq; [by apply (triple_note R R)|intros []]. asks.
  destruct (a_form a) as [[u p]|]; [|by_ret]. cbv zeta. apply triple_if; [by_ret|]. apply triple_if; [by_ret|].
  eapply triple_seq; [apply triple_auth; [done|]|intros ok].
  { intros acc c. destruct reg; by eexists. }
  apply triple_if; [by_ret|]. eapply triple_seq; [by apply triple_wait_reply|intros ev].
  destruct ev; try by_ret; (eapply triple_seq; [apply triple_get|intros c]; apply triple_if;
    [|destruct (refusal _ _ _ _); by_ret]);
    (eapply triple_seq; [eapply triple_weaken; [apply (triple_say R)|by intros s []|done]|intros ?]);
    (eapply triple_seq; [by apply triple_guest|intros gev]; destruct gev; by_ret).
Qed.

Lemma triple_screen_auth R `{!Steady R} : triple (at_ R) screen_auth (fun _ => at_ R).
Proof.
  apply (triple_forever (fun _ => at_ R)); [by intros _ s []|]. intros _. asks.
  apply triple_if; [by_ret|]. eapply triple_seq; [apply triple_if; [by apply triple_guest_flow|by apply triple_credential_flow]|].
  intros r. apply triple_if; by_ret.
Qed.

Lemma triple_screen_connect :
  triple safe screen_connect (fun r s => safe s /\ (r = SCR_QUIT \/ at_ outside s)).
Proof.
  pose (any := fun (_ : bool) (_ : Client) => True).
  eapply (triple_weaken (at_ any)); [|by intros s Hs; split|intros r s Hr; exact Hr].
  apply (triple_forever (fun _ => at_ any)); [by intros _ s []|]. intros _.
  eapply triple_seq; [by apply (triple_note any any)|intros []]. asks.
  destruct (a_form a) as [[h p]|]; [|apply triple_ret; intros s [Hs _]; by auto]. cbv zeta.
  apply triple_if; [eapply triple_seq; [apply triple_say|intros ?; by_ret]|].
  destruct (client_connect _ _) as [rc c].
  eapply triple_seq; [apply (triple_put _ any); by intros s []|intros []].
  eapply triple_seq; [by apply (triple_note any outside)|intros []].
  assert (Hany : forall s, at_ outside s -> at_ any s) by (intros s []; by split).
  apply triple_if; [eapply triple_seq; [apply triple_say|intros []; by_ret; apply Hany]|].
  apply triple_if; [|apply triple_ret; intros s Hs; split; [apply Hs|by right]].
  eapply triple_seq; [repeat apply triple_if; apply triple_say|intros []; by_ret; apply Hany].
Qed.

(** ** The room and the round *)

Lemma triple_game_keys R alive keys : triple (at_ R) (game_keys alive keys) (fun q => at_ (if q : bool then outside else R)).
Proof.
  induction keys as [|ch keys IH]; cbn; [by_ret|].
  apply (triple_seq _ _ _ (fun _ => at_ R)).
  - unfold handle_key. apply triple_if; [by_ret|]. apply triple_if; [by_ret|].
    destruct (key_command ch); [|by_ret]. eapply triple_seq; [apply triple_send|intros ?; by_ret].
  - intros []; [|exact IH]. eapply triple_seq; [apply triple_leave|intros []; by_ret].
Qed.

Lemma triple_wait_keys R keys : triple (at_ R) (wait_keys keys) (fun q => at_ (if q : bool then outside else R)).
Proof.
  induction keys as [|ch keys IH]; cbn; [by_ret|].
  apply triple_if; [eapply triple_seq; [apply triple_send|intros ?; exact IH]|].
  apply triple_if; [|exact IH]. eapply triple_seq; [apply triple_leave|intros []; by_ret].
Qed.

(** Where a round on the board ends. *)
Definition after_game (r : ScreenResult) (s : prog) : Prop :=
  match r with SCR_OK => at_ playing s | SCR_BACK => at_ outside s | SCR_DISCONNECTED => safe s | _ => False end.

Lemma triple_screen_game : triple (at_ playing) screen_game after_game.
Proof.
  apply (triple_forever (fun _ => at_ playing)); [by intros _ s []|]. intros alive. unfold game_round. asks.
  destruct (wk_fail (a_wake a)) as [[]|]; [by_ret|apply triple_ret; by intros s []|].
  eapply triple_seq; [apply triple_game_keys|intros [] ]; [by_ret|].
  apply (triple_seq _ _ _ (fun e s => match e with inl _ => at_ playing s | inr r => after_game r s end)).
  - apply triple_if; [|by_ret]. eapply triple_seq; [apply triple_service; apply _|intros ev]. unfold game_event.
    eapply triple_seq; [apply triple_get|intros c].
    destruct ev; try (apply triple_ret; intros s [[? ?] ?]; by repeat split); [|].
    + apply triple_if; apply triple_ret; intros s [[? ?] ?]; by repeat split.
    + apply (triple_seq _ _ _ (fun _ => at_ playing)); [|intros ?; by_ret].
      apply triple_put. intros s [[Hs HR] ->]. split; [done|]. by apply (steady_reject (R := playing)).
  - intros [alive'|r]; [|by_ret]. apply triple_if; [apply triple_ret; by intros s []|by_ret].
Qed.

(** Where a wait in the room ends. *)
Definition after_wait (r : ScreenResult) (s : prog) : Prop :=
  match r with SCR_GAME_START => at_ playing s | SCR_BACK => at_ outside s | SCR_DISCONNECTED => safe s | _ => False end.

(** Before its last LEAVE. *)
Definition wait_over (r : ScreenResult * Z) (s : prog) : Prop :=
  safe s /\ match r.1 with SCR_GAME_START => at_ playing s | SCR_BACK | SCR_DISCONNECTED => True | _ => False end.

Lemma triple_wait_event ev :
  triple (at_ waiting) (wait_event ev) (fun e s => match e with None => at_ waiting s | Some r => wait_over r s end).
Proof.
  unfold wait_event. apply triple_if; [apply triple_ret; by intros s []|].
  eapply triple_seq; [apply triple_get|intros c]. cbv zeta.
  apply (triple_seq _ _ _ (fun _ s => at_ waiting s /\ cl_phase (p_client s) = cl_phase c)).
  { apply triple_if; [|by_ret; by intros [? ->]].
    intros s [[Hs HR] ->]. split; [|done]. split; [done|]. by apply (steady_reject (R := waiting)). }
  intros []. apply triple_if; [apply triple_ret; intros s [[Hs _] _]; by split|].
  apply (triple_seq _ _ _ (fun _ s => at_ waiting s /\ cl_phase (p_client s) = cl_phase c)).
  { apply triple_if; [|by_ret]. intros s [Hs Hp]. split; [|exact Hp].
    exact (triple_say waiting _ _ s Hs). }
  intros []. case_bool_decide as Hp; apply triple_ret; intros s [[Hs HR] Hc]; [|by split].
  split; [done|]. split; [done|]. intros Hb Hn. specialize (HR Hb Hn). congruence.
Qed.

Lemma triple_screen_wait_start : triple (at_ waiting) screen_wait_start after_wait.
Proof.
  eapply (triple_seq _ _ _ wait_over).
  - apply (triple_forever (fun _ => at_ waiting)); [by intros _ s []|]. intros []. unfold wait_round. asks.
    destruct (wk_fail (a_wake a)) as [[]|]; [by_ret|apply triple_ret; by intros s []|].
    eapply triple_seq; [apply triple_wait_keys|intros [] ]; [apply triple_ret; by intros s []|].
    apply (triple_seq _ _ _ (fun e s => match e with None => at_ waiting s | Some r => wait_over r s end)).
    + apply triple_if; [|by_ret]. eapply triple_seq; [apply triple_service; apply _|intros ev]. apply triple_wait_event.
    + intros [r|]; [by_ret|]. apply triple_if; [apply triple_ret; by intros s []|by_ret].
  - intros [r why]. unfold wait_done. cbn [fst snd].
    apply (triple_seq _ _ _ (fun _ => after_wait r)).
    + case_bool_decide as Hr.
      * subst r. eapply triple_weaken; [apply (triple_leave (fun _ _ => True))| |done]. by intros s [Hs _].
      * apply triple_ret. intros s [Hs Hw]. by destruct r.
    + intros []. apply (triple_seq _ _ _ (fun _ => after_wait r)); [|intros []; by_ret].
      assert (Hsay : forall t l, triple (after_wait r) (say t l) (fun _ => after_wait r)).
      { intros t l s Hs. destruct r; try done; try exact (triple_say _ t l s Hs).
        exact (proj1 (triple_say (fun _ _ => True) t l s (conj Hs I))). }
      repeat apply triple_if; [apply Hsay..|by_ret].
Qed.

(** ** The lobby and [main] *)

Lemma triple_screen_join_room :
  triple (at_ outside) screen_join_room (fun r => at_ (if bool_decide (r = SCR_OK) then waiting else outside)).
Proof.
  apply (triple_forever (fun _ => at_ outside)); [by intros _ s []|]. intros _. asks.
  destruct (a_text a) as [t|]; [|by_ret]. cbv zeta. apply triple_if; [by_ret|].
  apply triple_if; [eapply triple_seq; [apply triple_say|intros []; by_ret]|].
  eapply triple_seq; [apply triple_join|intros [] ]; [by_ret|].
  eapply triple_seq; [apply triple_say|intros []; by_ret].
Qed.

(** What a screen of the lobby leaves. *)
Definition after_menu (r : ScreenResult) (s : prog) : Prop :=
  match r with SCR_OK => at_ waiting s | SCR_BACK => at_ outside s | SCR_QUIT | SCR_DISCONNECTED => safe s | _ => False end.

Lemma triple_screen_main_menu : triple (at_ outside) screen_main_menu after_menu.
Proof.
  apply (triple_forever (fun _ => at_ outside)); [by intros _ s []|]. intros _.
  eapply triple_seq; [by apply (triple_note outside outside)|intros []]. asks.
  apply triple_if; [apply triple_ret; by intros s []|].
  apply triple_if.
  { eapply triple_seq; [apply triple_join|intros [] ]; [by_ret|].
    eapply triple_seq; [apply triple_say|intros []; apply triple_ret; by intros s []]. }
  apply triple_if; [eapply triple_seq; [apply triple_screen_join_room|intros r]; apply triple_ret; intros s; by case_bool_decide|].
  apply triple_if; [|by_ret]. eapply triple_seq; [apply triple_screen_history; apply _|intros r].
  apply triple_if; [apply triple_ret; by intros s []|by_ret].
Qed.

(** Between the screens of a room, and of the lobby. *)
Definition in_room (r : ScreenResult) (s : prog) : Prop :=
  match r with
  | SCR_GAME_START => at_ playing s | SCR_QUIT | SCR_DISCONNECTED => safe s | _ => at_ outside s
  end.
Definition in_lobby (r : ScreenResult) (s : prog) : Prop :=
  safe s /\ (r = SCR_QUIT \/ r = SCR_DISCONNECTED \/ at_ outside s).

Lemma in_room_safe r s : in_room r s -> safe s.
Proof. destruct r; cbn; unfold at_; tauto. Qed.

Lemma in_room_lobby r s : r <> SCR_GAME_START -> in_room r s -> in_lobby r s.
Proof. unfold in_lobby. destruct r; cbn; unfold at_; tauto. Qed.

Lemma triple_room_rounds r : triple (in_room r) (forever room_round r) in_lobby.
Proof.
  apply (triple_forever in_room); [apply in_room_safe|]. clear r. intros r. unfold room_round.
  case_bool_decide as Hr; cbn; [subst r|apply triple_ret; intros s; by apply in_room_lobby].
  eapply triple_seq; [apply triple_screen_game|intros r].
  case_bool_decide as Hok; cbn; [subst r|apply triple_ret; intros s; destruct r; cbn; unfold in_lobby, at_; tauto].
  eapply triple_seq; [apply triple_get|intros c].
  apply (triple_seq _ _ _ (fun _ s => at_ playing s /\ (in_no_room c <-> in_no_room (p_client s)))).
  - apply triple_if; [|apply triple_ret; by intros s [? ->]].
    apply (triple_seq _ _ _ (fun _ s => at_ playing s /\ c = p_client s)).
    + intros s [Hs ->]. split; [|done]. by apply (triple_note playing playing).
    + intros []. intros s [[Hs HR] ->]. split; [|done]. split; [done|]. by apply (steady_winner (R := playing)).
  - intros []. destruct (have_session c && (room_id (cl_session c) =? ROOM_NONE)) eqn:E.
    + apply triple_ret. intros s [[Hs HR] Hn]. split; [done|]. right; right. split; [done|].
      destruct (joined (p_log s)); [|done]. destruct (HR eq_refl). apply Hn. bool_arith. by split.
    + eapply triple_seq; [eapply triple_weaken; [apply triple_screen_wait_start| |intros r s Hr; exact Hr]|].
      * intros s [[Hs HR] _]. split; [done|]. by apply playing_waiting.
      * intros r. apply triple_ret. intros s. by destruct r.
Qed.

Lemma triple_lobby r : triple (in_lobby r) (forever lobby_round r) (fun _ => safe).
Proof.
  apply (triple_forever in_lobby); [by intros r' s []|]. clear r. intros r. unfold lobby_round.
  case_bool_decide as Hq; [apply triple_ret; by intros s []|].
  case_bool_decide as Hd; cbn; [apply triple_ret; by intros s []|].
  eapply triple_seq; [eapply triple_weaken; [apply triple_screen_main_menu|unfold in_lobby; tauto|intros r' s Hr; exact Hr]|intros r'].
  case_bool_decide as Hok; cbn; [subst r'|apply triple_ret; intros s; destruct r'; cbn; unfold in_lobby, at_; tauto].
  eapply triple_seq; [apply triple_screen_wait_start|intros r'].
  eapply triple_seq; [eapply triple_weaken; [apply triple_room_rounds| |intros r'' s Hr; exact Hr]|intros r''; by_ret].
  intros s. by destruct r'.
Qed.

Lemma triple_tetrisu : triple safe tetrisu (fun _ => safe).
Proof.
  unfold tetrisu. eapply triple_seq; [apply triple_screen_connect|intros r].
  eapply (triple_seq _ _ _ (fun _ => safe)); [|intros st; by intros s Hs].
  eapply triple_weaken; [apply (triple_forever (fun st => in_lobby st.1) connection (fun _ => safe) (r, 0))| |intros st s Hs; exact Hs].
  - by intros st s [].
  - intros [r' total]. unfold connection. cbn [fst].
    apply (triple_seq _ _ _ in_lobby).
    { case_bool_decide; [|by_ret]. subst r'.
      eapply triple_weaken; [apply (triple_screen_auth outside)|unfold in_lobby; naive_solver|].
      intros r1 s Hs. split; [apply Hs|by right; right]. }
    intros r1. eapply triple_seq; [apply triple_lobby|intros r2].
    apply (triple_seq _ _ _ (fun _ => safe)); [by intros s Hs|intros c].
    apply triple_if; [by_ret|]. cbv zeta.
    apply (triple_seq _ _ _ (fun _ => safe)); [|intros yes].
    { intros s Hs. cbv [offer_reconnect ask seq note ret peek poke next_answer].
      assert (safe (mkProg (p_state s) (p_ans s) (p_log s ++ [AOffer]))) by by apply menus_snoc.
      by destruct (p_ans s). }
    apply triple_if; [by_ret|]. apply (triple_seq _ _ _ (fun _ => safe)); [by intros s Hs|intros []].
    eapply triple_seq; [apply triple_screen_connect|intros r3]. apply triple_ret. unfold in_lobby. naive_solver.
  - intros s. cbn. unfold in_lobby. naive_solver.
Qed.

(** C10: The game client and its rooms. Whatever the player does and whatever arrives, the
    program waits only for an answer it has not been given, and each time it shows the
    lobby's menu no JOIN stands: since the last JOIN that was sent the client has left the
    room, or the server has put it in no room, or the connection is a new one. *)
Theorem menu_is_outside_every_room answers :
  let '(r, s) := tetrisu (launch answers) in
  (r = None -> p_ans s = []) /\
  forall before after, p_log s = before ++ AMenu :: after -> joined before = false.
Proof.
  pose proof (keeps_tetrisu (launch answers)) as Hu. pose proof (triple_tetrisu (launch answers)) as Ht.
  destruct (tetrisu (launch answers)) as [[v|] s]; (split; [done|]);
    (assert (Hs : safe s); [apply Ht, each_act_nil|intros b a E; exact (Hs b AMenu a E eq_refl)]).
Qed.

(** ** Two evenings *)

Definition idle_wake : wake := mkWake None [] false false (SESSION_OK, []).
Definition quiet : answer := mkAnswer (-1) None None false (-1, SESSION_OK) idle_wake (fun _ => true).
Definition pick (n : Z) : answer := mkAnswer n None None false (-1, SESSION_OK) idle_wake (fun _ => true).
Definition dial : answer := mkAnswer 0 (Some (bytes "127.0.0.1", bytes "5555")) None false (7, SESSION_OK) idle_wake (fun _ => true).
Definition frame_in (f : list Z) : answer := mkAnswer 0 None None false (-1, SESSION_OK) (mkWake None [] true false (SESSION_OK, f)) (fun _ => true).
Definition key_in (k : Z) : answer := mkAnswer 0 None None false (-1, SESSION_OK) (mkWake None [k] false false (SESSION_OK, [])) (fun _ => true).

(** The connection takes no frame any more. *)
Definition broken (n : Z) : answer := mkAnswer n None (Some (bytes "5")) false (-1, SESSION_OK) idle_wake (fun _ => false).

Definition welcome : list Z :=
  match htttp_serialize_response (Some (bytes "Thu, 01 Jan 2026 00:00:00 GMT")) (mkResponse 200 [] None 0) 4096 with Ok f => f | Err _ => [] end.

Definition menus (log : list act) : nat := length (List.filter (fun a => match a with AMenu => true | _ => false end) log).

(** A guest makes a room, waits, leaves it and quits from the menu. *)
Example guest_leaves_the_room :
  let '(r, s) := tetrisu (launch [dial; pick 2; frame_in welcome; pick 0; quiet; key_in 113; pick 3]) in
  r = Some (0, 0) /\ menus (p_log s) = 2%nat.
Proof. vm_compute. split; reflexivity. Qed.

(** A JOIN that cannot be sent ends the program when it makes a room, and is forgotten when
    it names one: the menu is back on a connection that is gone. *)
Example join_by_id_hides_the_disconnect :
  let start := [dial; pick 2; frame_in welcome] in
  (tetrisu (launch (start ++ [broken 0]))).1 = Some (1, 0) /\
  let '(r, s) := tetrisu (launch (start ++ [broken 1; broken 1])) in
  r = None /\ menus (p_log s) = 2%nat /\ ASay (bytes "Join failed") (bytes "Could not send JOIN to the server.") ∈ p_log s.
Proof.
  split; [vm_compute; reflexivity|]. destruct (tetrisu _) as [r s] eqn:E. vm_compute in E. injection E as <- <-.
  split; [reflexivity|]. split; [reflexivity|]. cbn. rewrite !elem_of_cons. repeat (first [left; reflexivity|right]).
Qed.
