(* ===== verification/Ballotu.v ===== *)
(** * Ballotu: the voter's program

    Models ballotbox/src/ballotu/ballotu.c, the program a voter runs, and the parts of
    libballotclient/transport.c it uses besides sending a request: connecting, signing
    in, disconnecting.  It is a computation in the sense of Ui.v over the voter's
    session of BallotClient.v; the secure session under it is any [Channel].  Options of
    the command line, the progress panels and the status bar are left out. *)

From Stdlib Require Import String.
From stdpp Require Import options.
From S2P Require Import Prelude Text Name Htttp BallotTypes BallotDb Codec Tetrissh BallotClient Ui.
#[local] Open Scope Z_scope.

(** ** client.h, transport.c: connecting *)

Inductive bcl_conn :=
| BCL_CONN_OK | BCL_CONN_ERR_ADDRESS | BCL_CONN_ERR_SOCKET | BCL_CONN_ERR_REFUSED | BCL_CONN_ERR_CERT | BCL_CONN_ERR_IO
| BCL_CONN_ERR_PROTO.

#[global] Instance bcl_conn_eq_dec : EqDecision bcl_conn.
Proof. solve_decision. Defined.

(** What becomes of dialling: the socket, the address, the connection, the handshake. *)
Inductive dialled (N : Type) := DNoSocket | DBadAddress | DRefused | DShaken (e : session_err) (n : N).
Arguments DNoSocket {N}.
Arguments DBadAddress {N}.
Arguments DRefused {N}.
Arguments DShaken {N} e n.

(** [%lx] with at least eight digits. *)
Fixpoint hex_of (fuel : nat) (v : Z) : list Z :=
  match fuel with
  | O => []
  | S k => (if v <? 16 then [] else hex_of k (v / 16)) ++ [aget 0 (bytes "0123456789abcdef") (v mod 16)]
  end.
Definition hex8 (v : Z) : list Z := let h := hex_of 16 v in replicate (8 - length h) 48 ++ h.

Section ballotu.
Context {N : Type} `{!Channel N}.
Abbreviation ctx := (bcl_ctx (N := N)).

Definition bcl_disconnect (c : ctx) : ctx := None.

Definition bcl_connected (c : ctx) : bool := match c with Some t => t_connected t | None => false end.

(** On a failure the transport there was stays. *)
Definition bcl_connect_why (d : dialled N) (c : ctx) : bcl_conn * ctx :=
  match d with
  | DNoSocket => (BCL_CONN_ERR_SOCKET, c)
  | DBadAddress => (BCL_CONN_ERR_ADDRESS, c)
  | DRefused => (BCL_CONN_ERR_REFUSED, c)
  | DShaken SESSION_OK n => (BCL_CONN_OK, Some (mkTransport true n))
  | DShaken SESSION_ERR_AUTH _ => (BCL_CONN_ERR_CERT, c)
  | DShaken SESSION_ERR_IO _ => (BCL_CONN_ERR_IO, c)
  | DShaken _ _ => (BCL_CONN_ERR_PROTO, c)
  end.

(** The status of the reply, [None] for the return value -1. *)
Definition bcl_auth (c : ctx) (m username password : list Z) : option Z * ctx :=
  match c with
  | None => (None, c)
  | Some t =>
      if negb (t_connected t) then (None, c)
      else
        let body := username ++ 10 :: password in
        if (256 <=? length body)%nat || (HTTTP_MAX_METHOD <=? length m)%nat then (None, c)
        else
          match htttp_serialize_request (mkRequest m (bytes "/") [] (Some body) (Z.of_nat (length body))) (Z.to_nat TRANSPORT_MAX) with
          | Err _ => (None, c)
          | Ok wire =>
              match chan_send wire (t_session t) with
              | (SESSION_OK, n) =>
                  match chan_recv TRANSPORT_MAX n with
                  | (SESSION_OK, rbuf, n) =>
                      (match htttp_parse_response rbuf with Ok resp => Some (status resp) | Err _ => None end, Some (mkTransport true n))
                  | (SESSION_ERR_IO, _, n) | (SESSION_ERR_TOOBIG, _, n) => (None, Some (mkTransport false n))
                  | (_, _, n) => (None, Some (mkTransport true n))
                  end
              | (_, n) => (None, Some (mkTransport false n))
              end
          end
  end.

(** ** What the program is given, and what it does *)

Record vanswer := mkVanswer {
  va_menu : Z; va_form : option (list Z * list Z); va_text : option (list Z); va_yes : bool;
  va_dial : dialled N; va_time : Z; va_rand : Z
}.

Inductive vact :=
| VConnect (host : list Z) (port : Z) (why : bcl_conn)
| VForm (error : option string) (start : Z)
| VAuth (name : list Z) (status : option Z)
| VMenu
| VJoin (id : list Z) (outcome : bu_join_outcome)
| VConfirm (option_index : Z) (name : list Z) (yes : bool)
| VVote (cert id : list Z) (option_index : Z) (result : bb_result bb_receipt)
| VReceipt (updated : bool) (hash : list Z)
| VSay (title : string) (lines : list (list Z))
| VList (lines : list (list Z))
| VOffer.

Record voter := mkVoter { u_ctx : ctx; u_session : bu_session }.

Abbreviation M := (ui voter vanswer vact).

#[local] Notation "x <- m ;; k" := (seq m (fun x => k)) (at level 100, m at next level, right associativity).
#[local] Notation "m >>> k" := (seq m (fun _ => k)) (at level 100, right associativity).

Definition zero_bu_session : bu_session := mkBuSession [] false [] 0 0 [] [] (replicate 16 []) 0.

Definition session : M bu_session := v <- peek ;; ret (u_session v).
Definition set_session (s : bu_session) : M unit := v <- peek ;; poke (mkVoter (u_ctx v) s).
Definition set_ctx (c : ctx) : M unit := v <- peek ;; poke (mkVoter c (u_session v)).

(** ** Texts *)

Definition result_text (e : bb_err) : string :=
  match e with
  | BB_ERR_NOT_OPEN => "The election is not open."
  | BB_ERR_CLOSED => "Election closed mid-submit. Rejected by System."
  | BB_ERR_NOT_ELIGIBLE => "Your cert is not on the eligible-voter list."
  | BB_ERR_CERT_INVALID => "Cert rejected."
  | BB_ERR_CERT_EXPIRED => "Cert expired or forged."
  | BB_ERR_REPLAY => "That ballot was already submitted (replay)."
  | BB_ERR_BAD_OPTION => "Selected option was out of range."
  | BB_ERR_DECRYPT => "Ballot could not be decrypted."
  | BB_ERR_NOT_PUBLISHED => "Results not available."
  | BB_ERR_NOT_FOUND => "Not found."
  | BB_ERR_NOT_IMPLEMENTED => "The backend storage is not wired up yet - try again once it is."
  | BB_ERR_DB => "Could not reach ballotd."
  | _ => "Rejected by System."
  end.

Definition conn_text (why : bcl_conn) : string :=
  match why with
  | BCL_CONN_ERR_ADDRESS => "That is not a dotted-quad IPv4 address (e.g. 127.0.0.1)."
  | BCL_CONN_ERR_REFUSED => "No route to that address, or nothing is listening on that port."
  | BCL_CONN_ERR_CERT => "Reached a server, but its certificate failed CA verification."
  | BCL_CONN_ERR_IO => "Reached a server, which then closed the connection mid-handshake."
  | BCL_CONN_ERR_PROTO => "Reached a server, but the secure handshake failed."
  | _ => "Could not open a socket on this machine."
  end.

Definition say (title line : string) : M unit := note (VSay title [bytes line]).
Definition say2 (title first second : string) : M unit := note (VSay title [bytes first; bytes second]).

(** ** What is typed *)

Definition id_char_ok (c : Z) : bool :=
  ((97 <=? c) && (c <=? 122)) || ((65 <=? c) && (c <=? 90)) || ((48 <=? c) && (c <=? 57)) || (c =? 45) || (c =? 95).

Definition election_id_ok (s : list Z) : bool :=
  if (length s =? 0)%nat || (BB_ID_LEN <=? length s)%nat then false else forallb id_char_ok s.

(** Whether it is a receipt, and the string in lower case. *)
Definition lower_hex (c : Z) : Z := if (65 <=? c) && (c <=? 70) then c - 65 + 97 else c.
Definition receipt_hash_ok (s : list Z) : option (list Z) :=
  if negb (length s =? BB_HASH_LEN - 1)%nat then None
  else
    let s := lower_hex <$> s in
    if forallb (fun c => ((48 <=? c) && (c <=? 57)) || ((97 <=? c) && (c <=? 102))) s then Some s else None.

Definition port_ok (s : list Z) : option Z :=
  if bool_decide (s = []) then None
  else
    let '(v, rest) := strtol s in
    if negb (bool_decide (rest = [])) || (v <? 1) || (65535 <? v) then None else Some v.

Definition ask_election_id : M (option (list Z)) :=
  forever (fun _ : unit =>
    a <- next_answer ;;
    match va_text a with
    | None => ret (inr None)
    | Some t =>
        let out := trunc BB_ID_LEN (cstr t) in
        if bool_decide (out = []) then ret (inl tt)
        else if negb (election_id_ok out)
        then say2 "Invalid election ID" "Use letters, digits, '-' or '_' only (e.g. E-100)," "up to 15 characters." >>> ret (inl tt)
        else ret (inr (Some out))
    end) tt.

Definition ask_receipt_hash : M (option (list Z)) :=
  forever (fun _ : unit =>
    a <- next_answer ;;
    match va_text a with
    | None => ret (inr None)
    | Some t =>
        let out := trunc BB_HASH_LEN (cstr t) in
        if bool_decide (out = []) then ret (inl tt)
        else
          match receipt_hash_ok out with
          | None => say2 "Invalid receipt hash" "A receipt is exactly 64 hexadecimal characters -" "the hash shown when the ballot was cast." >>>
              ret (inl tt)
          | Some h => ret (inr (Some h))
          end
    end) tt.

(** ** Connecting and signing in *)

Definition FIELD_LEN : nat := 128.
Definition typed (v : list Z) : list Z := trunc FIELD_LEN (cstr v).

Definition connect_round (st : option string * Z) : M ((option string * Z) + bool) :=
  note (VForm st.1 st.2) >>>
  (a <- next_answer ;;
  match va_form a with
  | None => ret (inr false)
  | Some (h, p) =>
      let host_buf := trunc 64 (typed h) in
      match port_ok (trunc 16 (typed p)) with
      | None => ret (inl (Some "Port must be a number between 1 and 65535."%string, 1))
      | Some port =>
          v <- peek ;;
          let '(why, c) := bcl_connect_why (va_dial a) (u_ctx v) in
          set_ctx c >>> note (VConnect host_buf port why) >>>
          if bool_decide (why = BCL_CONN_OK) then ret (inr true) else ret (inl (Some (conn_text why), 0))
      end
  end).

Definition screen_connect : M bool := forever connect_round (None, 0).

(** What a refused sign-in shows next. *)
Definition auth_error (status : Z) : string * Z :=
  if status =? 400 then ("Rejected: malformed request."%string, 0)
  else if status =? 401 then ("Incorrect password."%string, 1)
  else if status =? 404 then ("No account with that username. Register instead?"%string, 0)
  else if status =? 409 then ("That username is already taken - pick another."%string, 0)
  else ("Could not reach the account service - try again shortly."%string, 0).

Definition credential_round (registering : bool) (st : option string * Z) : M ((option string * Z) + bool) :=
  note (VForm st.1 st.2) >>>
  (a <- next_answer ;;
  match va_form a with
  | None => ret (inr false)
  | Some (u, p) =>
      let u := typed u in let p := typed p in
      match (if user_name_ok u then user_name_fold (Z.to_nat 16) u else None) with
      | None => ret (inl (Some "Username must be 1-15 characters: letters, digits, _ or -."%string, 0))
      | Some folded =>
          let plen := Z.of_nat (length p) in
          if plen =? 0 then ret (inl (Some "Password is required."%string, 1))
          else if registering && ((plen <? 8) || (128 <? plen)) then ret (inl (Some "Password must be 8-128 characters."%string, 1))
          else
            v <- peek ;;
            let '(status, c) := bcl_auth (u_ctx v) (if registering then bytes "REGISTER" else bytes "LOGIN") folded p in
            set_ctx c >>> note (VAuth (trunc BB_CERT_LEN folded) status) >>>
            match status with
            | None => ret (inl (Some "Could not reach ballotd."%string, 0))
            | Some 200 =>
                set_session (mkBuSession (trunc BB_CERT_LEN folded) false [] 0 0 [] [] (replicate 16 []) 0) >>> ret (inr true)
            | Some st => let '(e, f) := auth_error st in ret (inl (Some e, f))
            end
      end
  end).

Definition screen_credential_flow (registering : bool) : M bool := forever (credential_round registering) (None, 0).

Definition screen_auth : M bool :=
  forever (fun _ : unit =>
    a <- next_answer ;;
    if va_menu a <? 0 then ret (inr false)
    else ok <- screen_credential_flow (va_menu a =? 1) ;; ret (if ok : bool then inr true else inl tt)) tt.

(** ** The voter's screens *)

Inductive bu_screen := BU_SCREEN_OK | BU_SCREEN_QUIT | BU_SCREEN_DISCONNECTED.

#[global] Instance bu_screen_eq_dec : EqDecision bu_screen.
Proof. solve_decision. Defined.

Definition still_live : M bu_screen := v <- peek ;; ret (if bcl_connected (u_ctx v) then BU_SCREEN_OK else BU_SCREEN_DISCONNECTED).

Definition nonce_of (time rand : Z) : list Z := trunc BB_NONCE_LEN (hex8 time ++ hex8 rand).

(** After the choice of option [sel] was confirmed. *)
Definition submit (is_update : bool) (sel : Z) (nonce : list Z) : M bu_screen :=
  v <- peek ;;
  let s := u_session v in
  let '(rc, s', c) := bu_submit_vote (u_ctx v) (Some s) sel (Some nonce) in
  set_ctx c >>> set_session (default s s') >>>
  note (VVote (v_cert_name s) (v_election_id s) sel rc) >>>
  match rc with
  | BB_ERR e => say "Vote rejected" (result_text e) >>> still_live
  | BB_OK receipt => note (VReceipt is_update (rc_hash receipt)) >>> ret BU_SCREEN_OK
  end.

Definition cast_common (is_update : bool) : M bu_screen :=
  s <- session ;;
  if negb (v_joined s) then say "Not joined" "You must join an election first (UC-2)." >>> ret BU_SCREEN_OK
  else
    is_update <-
      (match bu_route_vote (Some s), is_update with
       | BU_CAST, true => say2 "Nothing to update" "You have no prior ballot yet." "Routing you to Cast Vote (UC-3)." >>> ret false
       | BU_UPDATE, false => say2 "Already voted" "You already have a final ballot." "Routing you to Update Vote (UC-4)." >>> ret true
       | _, u => ret u
       end) ;;
    a <- next_answer ;;
    let sel := va_menu a in
    if sel <? 0 then ret BU_SCREEN_OK
    else
      b <- next_answer ;;
      note (VConfirm sel (aget [] (v_options s) sel) (va_yes b)) >>>
      if negb (va_yes b) then ret BU_SCREEN_OK else submit is_update sel (nonce_of (va_time b) (va_rand b)).

(** The lines of the box after a JOIN that was admitted. *)
Definition joined_lines (s : bu_session) : list (list Z) :=
  trunc 96 <$> ([bytes "Joined " ++ v_election_id s ++ bytes ": " ++ v_title s; bytes "Ballot options:"] ++
    ((fun i => bytes "  " ++ decimal_int (i + 1) ++ bytes ") " ++ aget [] (v_options s) i) <$> range (v_option_count s))).

Definition screen_join_election : M bu_screen :=
  t <- ask_election_id ;;
  match t with
  | None => ret BU_SCREEN_OK
  | Some id =>
      v <- peek ;;
      let s := u_session v in
      let '(outcome, s', c) := bu_join (u_ctx v) (Some s) (Some id) (Some (v_cert_name s)) in
      set_ctx c >>> set_session (default s s') >>> note (VJoin (trunc BB_ID_LEN id) outcome) >>>
      match outcome with
      | BU_JOIN_TIMEOUT => say2 "Join failed" "Could not reach the election." (result_text BB_ERR_NOT_IMPLEMENTED) >>> still_live
      | BU_JOIN_NOT_FOUND =>
          note (VSay "Join failed" [trunc 64 (bytes "Election '" ++ id ++ bytes "' not found.")]) >>> ret BU_SCREEN_OK
      | BU_JOIN_NOT_ELIGIBLE =>
          say2 "Join refused" "Your cert is not on the eligible-voter list" "for this election. Refused." >>> ret BU_SCREEN_OK
      | BU_JOIN_NOT_OPEN =>
          note (VSay "Join refused" [trunc 96 (bytes "Cannot join " ++ id ++ bytes ": election is not Open."); bytes "Refused."]) >>>
          ret BU_SCREEN_OK
      | BU_JOIN_ADMITTED =>
          s <- session ;;
          if negb (v_has_ballot s =? 0) then
            say2 "Already voted" "You already have a ballot for this election." "Routing you to Update Vote (UC-4)." >>> cast_common true
          else note (VSay "Join successful" (joined_lines s)) >>> ret BU_SCREEN_OK
      end
  end.

(** A request and its final status. *)
Definition send (req : bcl_request) : M (bb_code * bcl_response) :=
  v <- peek ;;
  let '(rc, resp, c) := send_via_session (u_ctx v) req in
  set_ctx c >>> ret (final_status rc resp, resp).

(** [%3d]. *)
Definition in_width (n : nat) (s : list Z) : list Z := replicate (n - length s) 32 ++ s.

Definition tally_line (resp : bcl_response) (i : Z) : list Z :=
  let votes := aget 0 (p_tally resp) i in
  let fill := Z.max 0 (Z.min 20 votes) in
  let name := aget [] (p_options resp) i in
  bytes "  " ++ name ++ replicate (10 - length name) 32 ++ [32] ++ in_width 3 (decimal_int votes) ++ [32] ++ replicate (Z.to_nat fill) 35.

Definition screen_view_results : M bu_screen :=
  t <- ask_election_id ;;
  match t with
  | None => ret BU_SCREEN_OK
  | Some id =>
      s <- session ;;
      r <- send (mkBclRequest BCL_RESULTS (trunc BB_CERT_LEN (v_cert_name s)) (trunc BB_ID_LEN id) zero_ballot [] zero_config) ;;
      match r.1 with
      | BB_ERR e => say "Not published" (result_text e) >>> still_live
      | BB_OK _ =>
          let resp := r.2 in
          note (VList (trunc 96 <$>
            ([bytes "Title: " ++ e_title (p_election resp); bytes "ID: " ++ id; bytes "Tally:"] ++
             (tally_line resp <$> range (p_option_count resp))))) >>>
          ret BU_SCREEN_OK
      end
  end.

Definition screen_check_vote : M bu_screen :=
  h <- ask_receipt_hash ;;
  match h with
  | None => ret BU_SCREEN_OK
  | Some hash =>
      t <- ask_election_id ;;
      match t with
      | None => ret BU_SCREEN_OK
      | Some id =>
          r <- send (mkBclRequest BCL_CHECK [] (trunc BB_ID_LEN id) zero_ballot (trunc BB_HASH_LEN hash) zero_config) ;;
          let '(st, resp) := r in
          let line1 := trunc 96 (bytes "Receipt hash: " ++ hash) in
          match bu_classify_check st (p_found resp) with
          | BU_CHECK_COUNTED =>
              note (VSay "Verified" [line1; trunc 96 (bytes "Your vote is option index " ++ decimal_int (p_found_option resp) ++
                bytes " (" ++ p_found_option_name resp ++ bytes ") and is included in the tally.")]) >>> ret BU_SCREEN_OK
          | BU_CHECK_DROPPED =>
              note (VSay "Verification failed" [line1; bytes "Hash not found among live (non-superseded) ballots.";
                bytes "Verification FAILED - dropped ballot."; bytes "Please raise this with the Admin."]) >>> ret BU_SCREEN_OK
          | BU_CHECK_UNAVAILABLE =>
              note (VSay "Verification unavailable" [line1; match st with BB_ERR e => bytes (result_text e) | BB_OK _ => bytes "OK" end]) >>>
              still_live
          end
      end
  end.

(** ** The menu and [main] *)

Definition voter_menu : M bu_screen :=
  forever (fun _ : unit =>
    note VMenu >>>
    (a <- next_answer ;;
    let sel := va_menu a in
    if (sel <? 0) || (sel =? 5) then ret (inr BU_SCREEN_QUIT)
    else
      r <- (match sel with
            | 0 => screen_join_election
            | 1 => cast_common false
            | 2 => cast_common true
            | 3 => screen_view_results
            | 4 => screen_check_vote
            | _ => ret BU_SCREEN_OK
            end) ;;
      if bool_decide (r = BU_SCREEN_DISCONNECTED) then ret (inr r) else ret (inl tt))) tt.

Definition offer_reconnect : M bool := note VOffer >>> (a <- next_answer ;; ret (va_yes a)).

Definition drop_ctx : M unit := v <- peek ;; set_ctx (bcl_disconnect (u_ctx v)).

(** One pass of the loop of [main]. *)
Definition main_round (_ : unit) : M (unit + unit) :=
  ok <- screen_connect ;;
  if negb ok then ret (inr tt)
  else
    ok <- screen_auth ;;
    if negb ok then drop_ctx >>> ret (inl tt)
    else
      r <- voter_menu ;;
      if negb (bool_decide (r = BU_SCREEN_DISCONNECTED)) then ret (inr tt)
      else
        drop_ctx >>> set_session zero_bu_session >>>
        (yes <- offer_reconnect ;; ret (if yes : bool then inl tt else inr tt)).

Definition ballotu : M unit := forever main_round tt >>> drop_ctx.

Definition fresh_voter (answers : list vanswer) : prog voter vanswer vact := mkProg (mkVoter None zero_bu_session) answers [].
End ballotu.
