(* ===== verification/BallotuTheorems.v ===== *)
(** * BallotuTheorems: no ballot but the voter's own

    The voter's program of Ballotu.v, for every list of answers and any secure session:
    it goes on as long as there are answers, it sends a ballot only for the option the
    voter has just confirmed, on a connection where this name signed in and was admitted
    to this election, and the receipt it shows is the one that came back. *)

From Stdlib Require Import String.
From stdpp Require Import options.
From S2P Require Import Prelude Text Name Htttp BallotTypes BallotDb Codec Tetrissh BallotClient Ui Ballotu.
#[local] Open Scope Z_scope.

Section theorems.
Context {N : Type} `{!Channel N}.
Abbreviation vprog := (prog (voter (N := N)) (vanswer (N := N)) vact).

(** ** Taking answers *)

Lemma keeps_session : keeps (session (N := N)).
Proof. unfold session. keep. Qed.
Lemma keeps_set_session s : keeps (set_session (N := N) s).
Proof. unfold set_session. keep. Qed.
Lemma keeps_set_ctx c : keeps (set_ctx (N := N) c).
Proof. unfold set_ctx. keep. Qed.
Lemma keeps_vsay t l : keeps (say (N := N) t l).
Proof. unfold say. keep. Qed.
Lemma keeps_vsay2 t l k : keeps (say2 (N := N) t l k).
Proof. unfold say2. keep. Qed.
Lemma keeps_still_live : keeps (still_live (N := N)).
Proof. unfold still_live. keep. Qed.
#[local] Hint Resolve keeps_session keeps_set_session keeps_set_ctx keeps_vsay keeps_vsay2 keeps_still_live : uses.

Ltac popped := apply pops_seq; [apply pops_next|intros ?; keep|intros ?; lia].

Lemma keeps_next : keeps (next_answer (S := voter (N := N)) (A := vanswer (N := N)) (L := vact)).
Proof. apply pops_keeps, pops_next. Qed.
#[local] Hint Resolve keeps_next : uses.

Lemma keeps_ask_id : keeps (ask_election_id (N := N)).
Proof. apply pops_keeps, pops_forever. intros u. popped. Qed.
Lemma keeps_ask_hash : keeps (ask_receipt_hash (N := N)).
Proof. apply pops_keeps, pops_forever. intros u. popped. Qed.
Lemma pops_connect : pops (screen_connect (N := N)).
Proof. apply pops_forever. intros st. apply keeps_seq; [apply keeps_note|intros ?]. popped. Qed.
Lemma keeps_credentials b : keeps (screen_credential_flow (N := N) b).
Proof. apply pops_keeps, pops_forever. intros st. apply keeps_seq; [apply keeps_note|intros ?]. popped. Qed.
#[local] Hint Resolve keeps_ask_id keeps_ask_hash keeps_credentials : uses.
Lemma keeps_vauth : keeps (screen_auth (N := N)).
Proof. apply pops_keeps, pops_forever. intros u. popped. Qed.
Lemma keeps_submit u k n : keeps (submit (N := N) u k n).
Proof. unfold submit. keep. Qed.
#[local] Hint Resolve keeps_vauth keeps_submit : uses.
Lemma keeps_cast u : keeps (cast_common (N := N) u).
Proof. unfold cast_common. keep. Qed.
Lemma keeps_vsend r : keeps (send (N := N) r).
Proof. unfold send. keep. Qed.
#[local] Hint Resolve keeps_cast keeps_vsend : uses.
Lemma keeps_join_election : keeps (screen_join_election (N := N)).
Proof. unfold screen_join_election. keep. Qed.
Lemma keeps_results : keeps (screen_view_results (N := N)).
Proof. unfold screen_view_results. keep. Qed.
Lemma keeps_check : keeps (screen_check_vote (N := N)).
Proof. unfold screen_check_vote. keep. Qed.
#[local] Hint Resolve keeps_join_election keeps_results keeps_check : uses.
Lemma keeps_voter_menu : keeps (voter_menu (N := N)).
Proof. apply pops_keeps, pops_forever. intros u. apply keeps_seq; [apply keeps_note|intros ?]. popped. Qed.
Lemma keeps_drop : keeps (drop_ctx (N := N)).
Proof. unfold drop_ctx. keep. Qed.
Lemma keeps_offer : keeps (offer_reconnect (N := N)).
Proof. unfold offer_reconnect. keep. Qed.
#[local] Hint Resolve keeps_voter_menu keeps_drop keeps_offer : uses.

Lemma keeps_ballotu : keeps (ballotu (N := N)).
Proof.
  unfold ballotu. apply keeps_seq; [|intros ?; auto with uses]. apply pops_keeps, pops_forever.
  intros u. unfold main_round. apply pops_seq; [apply pops_connect|intros ok; keep|intros ?; lia].
Qed.

(** ** What the log says *)

(** Who signed in on the connection, the election they were admitted to, the option they
    have just confirmed. *)
Record known := mkKnown { k_user : option (list Z); k_join : option (list Z); k_sure : option Z }.

Definition learn (k : known) (a : vact) : known :=
  match a with
  | VConnect _ _ BCL_CONN_OK => mkKnown None None None
  | VAuth name (Some 200) => mkKnown (Some name) None None
  | VJoin id BU_JOIN_ADMITTED => mkKnown (k_user k) (Some id) None
  | VJoin _ BU_JOIN_NOT_OPEN => mkKnown (k_user k) None None
  | VConfirm i _ yes => mkKnown (k_user k) (k_join k) (if yes then Some i else None)
  | VVote _ _ _ _ => mkKnown (k_user k) (k_join k) None
  | _ => k
  end.

Definition after (log : list vact) : known := foldl learn (mkKnown None None None) log.

Definition allowed (before : list vact) (x : vact) : Prop :=
  match x with
  | VVote cert id i _ => after before = mkKnown (Some cert) (Some id) (Some i)
  | VReceipt _ hash => exists cert id i rc, last before = Some (VVote cert id i (BB_OK rc)) /\ hash = rc_hash rc
  | _ => True
  end.

Lemma after_snoc log a : after (log ++ [a]) = learn (after log) a.
Proof. unfold after. by rewrite foldl_app. Qed.

(** ** Conditions *)

Definition vsafe (s : vprog) : Prop := each_act allowed (p_log s).
Abbreviation triple := (triple vsafe).

(** A condition on what is known and on the session. *)
Definition at_ (R : known -> bu_session -> Prop) (s : vprog) : Prop := vsafe s /\ R (after (p_log s)) (u_session (p_state s)).

Definition any (k : known) (s : bu_session) : Prop := True.

(** The session speaks of who signed in, and of the election they were admitted to. *)
Definition signed (k : known) (s : bu_session) : Prop :=
  k_user k = Some (v_cert_name s) /\ trunc BB_CERT_LEN (v_cert_name s) = v_cert_name s /\
  (v_joined s = true -> k_join k = Some (v_election_id s)).

Lemma triple_next R : triple (at_ R) next_answer (fun _ => at_ R).
Proof. intros s [Hs HR]. unfold next_answer. by destruct (p_ans s). Qed.

Lemma triple_peek R : triple (at_ R) peek (fun v s => at_ R s /\ v = p_state s).
Proof. intros s Hs. by split. Qed.

Lemma triple_session R : triple (at_ R) session (fun v s => at_ R s /\ v = u_session (p_state s)).
Proof. intros s Hs. by split. Qed.

Lemma triple_set_ctx R c : triple (at_ R) (set_ctx c) (fun _ => at_ R).
Proof. intros s Hs. exact Hs. Qed.

(** The acts that need no leave. *)
Definition free (a : vact) : bool := match a with VVote _ _ _ _ | VReceipt _ _ => false | _ => true end.

Lemma triple_vnote R R' a :
  free a = true -> (forall k s, R k s -> R' (learn k a) s) -> triple (at_ R) (note a) (fun _ => at_ R').
Proof.
  intros Ha HR s [Hs Hr]. split; [by apply each_act_snoc; [|destruct a]|]. cbn. rewrite after_snoc. by apply HR.
Qed.

(** The acts after which no more is known. *)
Lemma triple_show R a : free a = true -> (forall k, learn k a = k) -> triple (at_ R) (note a) (fun _ => at_ R).
Proof. intros Hf Ha. apply triple_vnote; [done|]. intros k s. by rewrite Ha. Qed.

Lemma triple_still_live R : triple (at_ R) still_live (fun _ => at_ R).
Proof. intros s Hs. exact Hs. Qed.

Ltac asks := eapply triple_seq; [apply triple_next|intros a; cbv beta zeta].
Ltac by_ret := apply triple_ret; intros s; cbn; try tauto.
Ltac shows := eapply triple_seq; [by apply triple_show|intros []; cbv beta zeta].

Lemma triple_ask_id R : triple (at_ R) ask_election_id (fun _ => at_ R).
Proof.
  apply (triple_forever (fun _ => at_ R)); [by intros _ s []|]. intros _. asks.
  destruct (va_text a) as [t|]; [|by_ret]. cbv zeta. apply triple_if; [by_ret|]. apply triple_if; [|by_ret].
  shows. by_ret.
Qed.

Lemma triple_ask_hash R : triple (at_ R) ask_receipt_hash (fun _ => at_ R).
Proof.
  apply (triple_forever (fun _ => at_ R)); [by intros _ s []|]. intros _. asks.
  destruct (va_text a) as [t|]; [|by_ret]. cbv zeta. apply triple_if; [by_ret|].
  destruct (receipt_hash_ok _); [by_ret|]. shows. by_ret.
Qed.

Lemma triple_connect : triple (at_ any) screen_connect (fun _ => at_ any).
Proof.
  apply (triple_forever (fun _ => at_ any)); [by intros _ s []|]. intros st.
  eapply triple_seq; [by apply triple_show|intros []]. asks.
  destruct (va_form a) as [[h p]|]; [|by_ret]. cbv zeta. destruct (port_ok _) as [port|]; [|by_ret].
  eapply triple_seq; [apply triple_peek|intros v]. destruct (bcl_connect_why _ _) as [why c].
  apply (triple_seq _ _ _ (fun _ => at_ any)); [eapply triple_weaken; [apply (triple_set_ctx any)|by intros s []|done]|intros []].
  eapply triple_seq; [by apply (triple_vnote any any)|intros []]. apply triple_if; by_ret.
Qed.

(** Signing in makes the session the one of that name. *)
Lemma triple_credentials b : triple (at_ any) (screen_credential_flow b) (fun ok => at_ (if ok : bool then signed else any)).
Proof.
  apply (triple_forever (fun _ => at_ any)); [by intros _ s []|]. intros st.
  eapply triple_seq; [by apply triple_show|intros []]. asks.
  destruct (va_form a) as [[u p]|]; [|by_ret]. cbv zeta.
  destruct (if user_name_ok _ then _ else _) as [folded|]; [|by_ret]. apply triple_if; [by_ret|]. apply triple_if; [by_ret|].
  eapply triple_seq; [apply triple_peek|intros v]. destruct (bcl_auth _ _ _ _) as [st' c].
  apply (triple_seq _ _ _ (fun _ => at_ any)); [eapply triple_weaken; [apply (triple_set_ctx any)|by intros s []|done]|intros []].
  destruct (decide (st' = Some 200)) as [->|Hst].
  - apply (triple_seq _ _ _ (fun _ => at_ (fun k _ => k = mkKnown (Some (trunc BB_CERT_LEN folded)) None None))); [by apply (triple_vnote any)|intros []].
    eapply (triple_seq _ _ _ (fun _ => at_ signed)); [|intros []; by_ret].
    intros s [Hs Hk]. split; [exact Hs|]. cbv beta in Hk. cbn [p_log p_state u_session]. rewrite Hk. split; [done|]. split; [apply trunc_idem|done].
  - eapply triple_seq; [by apply (triple_vnote any any)|intros []].
    assert (Hd : forall st0, triple (at_ any) (let '(e, f) := auth_error st0 in ret (inl (Some e, f)))
      (fun r s => match r with inl _ => at_ any s | inr ok => at_ (if ok : bool then signed else any) s end)).
    { intros st0. destruct (auth_error st0) as [e f]. by_ret. }
    destruct st' as [st'|]; [|by_ret]. repeat (case_match; try apply Hd; try done).
Qed.

Lemma triple_vauth : triple (at_ any) screen_auth (fun ok => at_ (if ok : bool then signed else any)).
Proof.
  apply (triple_forever (fun _ => at_ any)); [by intros _ s []|]. intros _. asks. apply triple_if; [by_ret|].
  eapply triple_seq; [apply triple_credentials|intros []; by_ret].
Qed.

(** Sending changes no more than the transport. *)
Lemma triple_vsend R r : triple (at_ R) (send r) (fun _ => at_ R).
Proof.
  intros s Hs. cbv [send seq peek set_ctx poke ret]. destruct (send_via_session _ _) as [[rc resp] c]. exact Hs.
Qed.

(** A ballot leaves the session where it was. *)
Lemma submit_session (c : bcl_ctx (N := N)) s k n :
  let s' := default s (bu_submit_vote c (Some s) k (Some n)).1.2 in
  v_cert_name s' = v_cert_name s /\ v_joined s' = v_joined s /\ v_election_id s' = v_election_id s.
Proof.
  cbv zeta. unfold bu_submit_vote. destruct (bu_route_vote (Some s)); [done|..]; destruct (bu_encrypt_ballot k (Some n)); try done;
    destruct (send_via_session _ _) as [[rc resp] c']; by destruct (final_status rc resp).
Qed.

(** The confirmed option, and only it. *)
Definition sure (i : Z) (k : known) (s : bu_session) : Prop := signed k s /\ v_joined s = true /\ k_sure k = Some i.

Lemma triple_submit u i n : triple (at_ (sure i)) (submit u i n) (fun _ => at_ signed).
Proof.
  intros s [Hs [[Hu [Ht Hj]] [Hjoined Hi]]]. cbv [submit seq peek set_ctx set_session poke ret note say still_live].
  pose proof (submit_session (u_ctx (p_state s)) (u_session (p_state s)) i n) as Hsame.
  destruct (bu_submit_vote _ _ _ _) as [[rc s'] c]. cbn in Hsame |- *. destruct Hsame as (H1 & H2 & H3).
  assert (Hl : each_act allowed (p_log s ++ [VVote (v_cert_name (u_session (p_state s))) (v_election_id (u_session (p_state s))) i rc])).
  { apply each_act_snoc; [done|]. cbn. destruct (after (p_log s)) as [ku kj ks]. cbn in *. by rewrite Hu, Hi, Hj. }
  assert (Hsg : signed (learn (after (p_log s)) (VVote (v_cert_name (u_session (p_state s))) (v_election_id (u_session (p_state s))) i rc)) (default (u_session (p_state s)) s')).
  { split_and!; cbn; rewrite ?H1, ?H2, ?H3; done. }
  destruct rc as [receipt|e]; (split; [apply each_act_snoc; [exact Hl|cbn]|cbn; rewrite !after_snoc; exact Hsg]); [|done].
  rewrite last_snoc. by eauto 10.
Qed.

Lemma triple_cast u : triple (at_ signed) (cast_common u) (fun _ => at_ signed).
Proof.
  eapply triple_seq; [apply triple_session|intros v].
  eapply (triple_weaken (fun s => at_ (fun k x => signed k x /\ x = v) s)); [|intros s [[Hs HR] ->]; split; [exact Hs|split; [exact HR|done]]|intros r s Hr; exact Hr].
  set (R := fun k x => signed k x /\ x = v).
  assert (Hw : forall s, at_ R s -> at_ signed s) by (intros s [Hs [HR _]]; by split).
  destruct (v_joined v) eqn:Hj; cbn [negb]; [|shows; apply triple_ret; intros s; apply Hw].
  apply (triple_seq _ _ _ (fun _ => at_ R)).
  { destruct (bu_route_vote (Some v)), u; try by_ret; shows; by_ret. }
  intros u'. asks. apply triple_if; [apply triple_ret; intros s; apply Hw|].
  eapply triple_seq; [apply triple_next|intros b].
  destruct (va_yes b) eqn:Hy; cbn [negb].
  - apply (triple_seq _ _ _ (fun _ => at_ (sure (va_menu a)))); [|intros []; apply triple_submit]. apply triple_vnote; [done|].
    intros k x [[Hu [Ht Hjn]] ->]. by repeat split.
  - eapply triple_seq; [apply (triple_vnote R R); [done|]|intros []; apply triple_ret; intros s; apply Hw].
    intros k x [[Hu [Ht Hjn]] ->]. by repeat split.
Qed.

(** A JOIN keeps the session true to the log. *)
Lemma join_session (c : bcl_ctx (N := N)) s id k :
  signed k s -> let '(o, s', _) := bu_join c (Some s) (Some id) (Some (v_cert_name s)) in
  signed (learn k (VJoin (trunc BB_ID_LEN id) o)) (default s s').
Proof.
  intros (Hu & Ht & Hj). unfold bu_join. destruct (send_via_session _ _) as [[rc resp] c'].
  destruct (bu_classify_join _ _); cbn -[trunc]; unfold signed; cbn -[trunc]; rewrite ?trunc_idem, ?Ht; done.
Qed.

Lemma triple_join_election : triple (at_ signed) screen_join_election (fun _ => at_ signed).
Proof.
  eapply triple_seq; [apply triple_ask_id|intros t]. destruct t as [id|]; [|by_ret].
  eapply triple_seq; [apply triple_peek|intros v]. cbv zeta.
  destruct (bu_join _ _ _ _) as [[o s'] c] eqn:E.
  apply (triple_seq _ _ _ (fun _ s => at_ signed s /\ u_session v = u_session (p_state s))); [intros s [Hs ->]; by split|intros []].
  apply (triple_seq _ _ _ (fun _ => at_ (fun k x => signed (learn k (VJoin (trunc BB_ID_LEN id) o)) x))).
  { intros s [[Hs HR] Hv]. split; [exact Hs|]. cbn. pose proof (join_session (u_ctx v) (u_session v) id (after (p_log s))) as Hjn.
    rewrite E in Hjn. apply Hjn. by rewrite Hv. }
  intros []. apply (triple_seq _ _ _ (fun _ => at_ signed)); [by apply triple_vnote|intros []].
  destruct o; try (shows; first [apply triple_still_live|by_ret]).
  eapply triple_seq; [eapply triple_weaken; [apply (triple_session signed)|done|intros x s [H _]; exact H]|intros x].
  apply triple_if; shows; [apply triple_cast|by_ret].
Qed.

Lemma triple_results : triple (at_ signed) screen_view_results (fun _ => at_ signed).
Proof.
  eapply triple_seq; [apply triple_ask_id|intros t]. destruct t as [id|]; [|by_ret].
  eapply triple_seq; [eapply triple_weaken; [apply (triple_session signed)|done|intros x s [H _]; exact H]|intros x].
  eapply triple_seq; [apply triple_vsend|intros [st resp]]. cbn [fst snd]. destruct st; cbv zeta; shows; [by_ret|apply triple_still_live].
Qed.

Lemma triple_check : triple (at_ signed) screen_check_vote (fun _ => at_ signed).
Proof.
  eapply triple_seq; [apply triple_ask_hash|intros h]. destruct h as [hash|]; [|by_ret].
  eapply triple_seq; [apply triple_ask_id|intros t]. destruct t as [id|]; [|by_ret].
  eapply triple_seq; [apply triple_vsend|intros [st resp]]. cbv zeta.
  destruct (bu_classify_check _ _); shows; [by_ret..|apply triple_still_live].
Qed.

Lemma triple_voter_menu : triple (at_ signed) voter_menu (fun _ => at_ any).
Proof.
  assert (Hw : forall s, at_ signed s -> at_ any s) by (intros s [Hs _]; by split).
  apply (triple_forever (fun _ => at_ signed)); [by intros _ s []|]. intros _. shows. asks.
  apply triple_if; [apply triple_ret; apply Hw|].
  apply (triple_seq _ _ _ (fun _ => at_ signed)).
  - assert (Hc : forall u, triple (at_ signed) (cast_common u) (fun _ => at_ signed)) by apply triple_cast.
    repeat (case_match; try first [apply triple_join_election|apply Hc|apply triple_results|apply triple_check|by_ret]).
  - intros r. apply triple_if; [apply triple_ret; apply Hw|by_ret].
Qed.

Lemma triple_ballotu : triple (at_ any) ballotu (fun _ => at_ any).
Proof.
  assert (Hd : forall R, triple (at_ R) drop_ctx (fun _ => at_ R)) by (intros R s Hs; exact Hs).
  eapply (triple_seq _ _ _ (fun _ => at_ any)); [|intros []; apply Hd].
  apply (triple_forever (fun _ => at_ any)); [by intros _ s []|]. intros []. unfold main_round.
  eapply triple_seq; [apply triple_connect|intros ok]. apply triple_if; [by_ret|].
  eapply triple_seq; [apply triple_vauth|intros [] ]; cbn [negb].
  - eapply triple_seq; [apply triple_voter_menu|intros r]. apply triple_if; [by_ret|].
    eapply triple_seq; [apply Hd|intros []].
    apply (triple_seq _ _ _ (fun _ => at_ any)); [by intros s [Hs _]|intros []].
    apply (triple_seq _ _ _ (fun _ => at_ any)); [|intros []; by_ret].
    unfold offer_reconnect. shows. asks. by_ret.
  - eapply triple_seq; [apply Hd|intros []; by_ret].
Qed.

(** C4: The voter's program casts only what the voter confirmed.  Whatever is typed and
    whatever the network does, the program waits only for an answer it has not been given;
    each ballot it submits is for the option confirmed immediately before, under the name
    that signed in on this very connection and in the election that name was last admitted
    to there; and a receipt is shown only right after a ballot the daemon accepted, with
    the hash it issued. *)
Theorem votes_are_confirmed (answers : list (vanswer (N := N))) :
  let '(r, s) := ballotu (fresh_voter answers) in
  (r = None -> p_ans s = []) /\ each_act allowed (p_log s).
Proof.
  pose proof (keeps_ballotu (fresh_voter answers)) as Hu. pose proof (triple_ballotu (fresh_voter answers)) as Ht.
  assert (H0 : at_ any (fresh_voter answers)) by (split; [apply each_act_nil|exact I]).
  specialize (Ht H0). destruct (ballotu (fresh_voter answers)) as [[v|] s]; split; try done; apply Ht.
Qed.
End theorems.

(** ** A voter at work *)

Section example.

(** A session with the replies it will receive. *)
#[local] Instance scripted : Channel (list (list Z)) := {
  chan_send _ n := (SESSION_OK, n);
  chan_recv _ n := match n with r :: n => (SESSION_OK, r, n) | [] => (SESSION_ERR_IO, [], []) end
}.

Definition date : option (list Z) := Some (bytes "Thu, 01 Jan 2026 00:00:00 GMT").

Definition says (op : bcl_op) (r : bcl_response) : list Z := default [] (bcl_encode_response date op r (Z.to_nat TRANSPORT_MAX)).

Definition replies : list (list Z) :=
  [match htttp_serialize_response date (mkResponse 200 [] None 0) 4096 with Ok f => f | Err _ => [] end;
   says BCL_JOIN (mkBclResponse (BB_OK tt)
     (mkElection (bytes "E-1") (bytes "Lunch") BB_STATE_OPEN (bytes "rice" :: bytes "soup" :: replicate 14 []) 2 (replicate 64 []) 0 [] [])
     0 0 (mkReceipt [] []) (replicate 16 0) 0 (replicate 16 []) [] 0 0 0 []);
   says BCL_CAST (mkBclResponse (BB_OK tt) zero_election 0 0 (mkReceipt (replicate 64 97) (bytes "1970-01-01T00:00:00Z")) (replicate 16 0) 0 (replicate 16 []) [] 0 0 0 [])].

Definition menu (n : Z) : vanswer (N := list (list Z)) := mkVanswer n None None false DNoSocket 0 0.
Definition form (a b : string) (d : dialled (list (list Z))) : vanswer := mkVanswer 0 (Some (bytes a, bytes b)) None false d 0 0.
Definition text (a : string) : vanswer (N := list (list Z)) := mkVanswer 0 None (Some (bytes a)) false DNoSocket 0 0.
Definition agreed : vanswer (N := list (list Z)) := mkVanswer 0 None None true DNoSocket 1700000000 42.

(** Alice signs in, joins, picks the second option, confirms it, and quits. *)
Definition alice : list (vanswer (N := list (list Z))) :=
  [form "127.0.0.1" "7676" (DShaken SESSION_OK replies); menu 0; form "Alice" "secret" DNoSocket; menu 0; text "E-1"; menu 1; menu 1; agreed; menu 5].

Example alice_votes :
  (ballotu (fresh_voter alice)).1 = Some tt /\
  List.filter (fun a => match a with VConfirm _ _ _ | VVote _ _ _ _ | VReceipt _ _ => true | _ => false end) (p_log (ballotu (fresh_voter alice)).2) =
  [VConfirm 1 (bytes "soup") true;
   VVote (bytes "alice") (bytes "E-1") 1 (BB_OK (mkReceipt (replicate 64 97) (bytes "1970-01-01T00:00:00Z")));
   VReceipt false (replicate 64 97)].
Proof. split; vm_compute; reflexivity. Qed.
End example.
