(* ===== verification/NetTheorems.v ===== *)
(** * NetTheorems: the game client and the session process, end to end

    tetriSH/src/tetrisu/net.c against tetriSH/src/tetrisd/session.c over libhtttp:
    a command the client sends is the move the server plays, and what the server
    pushes is what the client then believes. *)

From Stdlib Require Import String.
From stdpp Require Import options.
From S2P Require Import Prelude Piece Board Action Brain Engine AdminMsg Text Layout DbRows History HistoryTheorems Htttp HtttpTheorems HtttpSends Tetrissh.
From S2P Require Import Auth SessionProc SessionTheorems Net.
#[local] Open Scope Z_scope.

(** ** Printed numbers *)

Lemma decimal_int_valid n sp : int_range n -> valid_field (decimal_int n) sp = true.
Proof.
  intros Hn. unfold int_range, INT_MIN, INT_MAX in Hn. unfold valid_field, decimal_int.
  assert (Hd : forall m, 0 <= m <= 2147483648 ->
    forallb (fun c => ((33 <=? c) && (c <=? 126)) || (sp && (c =? SP))) (decimal m) = true).
  { intros m Hm. destruct (decimal_digits m) as (_ & Hd & _); [unfold UINT32_MAX; lia|]. apply forallb_forall.
    intros c Hc. rewrite forallb_forall in Hd. specialize (Hd c Hc). unfold is_digit in Hd. bool_arith.
    by rewrite !(proj2 (Z.leb_le _ _)) by lia. }
  destruct (Z.ltb_spec n 0); [|apply Hd; lia]. simpl. apply Hd. lia.
Qed.

Lemma valid_field_app s s' sp : valid_field (s ++ s') sp = valid_field s sp && valid_field s' sp.
Proof. apply forallb_app. Qed.

Lemma trunc_short cap s : (length s < cap)%nat -> trunc cap s = s.
Proof. intros H. unfold trunc. apply take_ge. lia. Qed.

(** ** Paths *)

Lemma scan_lit_app lit s : scan_lit lit (lit ++ s) = Some s.
Proof. induction lit as [|c lit IH]; simpl; [done|]. by rewrite Z.eqb_refl. Qed.

Definition path_of (room : Z) (player : option Z) : list Z :=
  bytes "/room/" ++ decimal_int room ++
  match player with Some p => bytes "/player/" ++ decimal_int p | None => [] end.

Lemma room_path_reads room : int_range room -> path_ids (path_of room None) PATH_ROOM = Some (room, -1).
Proof.
  intros Hr. unfold path_ids, path_of. rewrite scan_lit_app. cbn [mbind option_bind].
  by rewrite scan_int_decimal_int by done.
Qed.

Lemma player_path_reads room p :
  int_range room -> int_range p -> path_ids (path_of room (Some p)) PATH_ROOM_PLAYER = Some (room, p).
Proof.
  intros Hr Hp. unfold path_ids, path_of. rewrite scan_lit_app. cbn [mbind option_bind].
  rewrite scan_int_decimal_int; [|done|intros c Hc; apply (inj Some) in Hc as <-; reflexivity]. cbn [mbind option_bind].
  rewrite scan_lit_app. cbn [mbind option_bind]. rewrite <- (app_nil_r (decimal_int p)).
  by rewrite scan_int_decimal_int.
Qed.

Lemma path_of_fits room player : int_range room -> (forall p, player = Some p -> int_range p) ->
  (length (path_of room player) < 64)%nat /\ valid_field (path_of room player) false = true /\ path_of room player <> [] /\
  strcmp (path_of room player) AUTH_PATH <> 0.
Proof.
  intros Hr Hp. unfold path_of. pose proof (decimal_int_length room Hr). split_and!.
  - destruct player as [p|]; rewrite !length_app; [|simpl; lia]. pose proof (decimal_int_length p (Hp p eq_refl)). simpl. lia.
  - rewrite !valid_field_app, (decimal_int_valid room) by done. destruct player as [p|]; [|done].
    rewrite valid_field_app, decimal_int_valid by auto. done.
  - done.
  - intros E%strcmp_eq. discriminate.
Qed.

Lemma room_path_of room : int_range room -> room_path room = path_of room None.
Proof.
  intros Hr. unfold room_path. destruct (path_of_fits room None Hr) as (Hl & _); [done|]. unfold path_of in *. rewrite app_nil_r in *.
  apply trunc_short. unfold HTTTP_MAX_PATH. lia.
Qed.

Lemma player_path_of c : int_range (room_id (cl_session c)) -> int_range (player_id (cl_session c)) ->
  player_path c = path_of (room_id (cl_session c)) (Some (player_id (cl_session c))).
Proof.
  intros Hr Hp. destruct (path_of_fits (room_id (cl_session c)) (Some (player_id (cl_session c))) Hr) as (Hl & _); [by intros ? [= <-]|].
  apply trunc_short. unfold path_of, HTTTP_MAX_PATH in *. lia.
Qed.

(** ** A command on the wire *)

Definition word_ok (w : list Z) : Prop := (length w < 16)%nat /\ w <> [] /\ valid_field w false = true.

Lemma add_player_id n hs : int_range n -> (length hs <= 1)%nat ->
  add_header PLAYER_ID (trunc 16 (decimal_int n)) hs = hs ++ [mkHeader PLAYER_ID (decimal_int n)].
Proof.
  intros Hn Hl. pose proof (decimal_int_length n Hn). rewrite trunc_short by lia. unfold add_header, htttp_header_set.
  change (bool_decide (PLAYER_ID = [])) with false. change (valid_field PLAYER_ID false) with true.
  rewrite decimal_int_valid by done. cbn [negb orb]. rewrite (proj2 (Nat.leb_gt _ _)) by (unfold HTTTP_MAX_HEADERS; lia).
  change (copy_token HTTTP_MAX_KEY PLAYER_ID) with (Ok (A := list Z) PLAYER_ID). cbn [or_err mbind res_bind].
  rewrite copy_token_ok; [done|unfold HTTTP_MAX_VALUE; lia|]. by apply decimal_int_avoids.
Qed.

(** A command under a room's path goes out and the server reads what the client meant. *)
Lemma command_arrives accepts c m room player b :
  0 <= cl_fd c -> (forall f, accepts f = true) -> word_ok m ->
  int_range room -> (forall p, player = Some p -> int_range p) -> int_range (player_id (cl_session c)) ->
  (forall w, b = Some w -> (0 < length w < 16)%nat) ->
  exists frame req, send_cmd accepts c m (path_of room player) b = Some frame /\ htttp_parse_request frame = Ok req /\
    method req = m /\ path req = path_of room player /\ body req = b /\ body_len req = Z.of_nat (length (default [] b)) /\
    htttp_header_get (headers req) PLAYER_ID = Some (decimal_int (player_id (cl_session c))).
Proof.
  intros Hfd Hacc (Hml & Hmn & Hmv) Hr Hp Hid Hb. destruct (path_of_fits room player Hr Hp) as (Hpl & Hpv & Hpn & Hpa).
  unfold send_cmd. rewrite (proj2 (Z.ltb_ge _ _)) by done.
  set (n := Z.of_nat (length (default [] b))).
  assert (Hn : 0 <= n < 16) by (unfold n; destruct b as [w|]; [specialize (Hb w eq_refl); simpl; lia|simpl; lia]).
  set (hs := (if 0 <? n then [mkHeader (bytes "Content-Type") CT_COMMAND] else []) ++
             [mkHeader PLAYER_ID (decimal_int (player_id (cl_session c)))]).
  assert (Hreq : command_request c m (path_of room player) b = mkRequest m (path_of room player) hs b n).
  { unfold command_request. fold n. rewrite (proj2 (Z.eqb_neq _ _) Hpa). cbn [negb].
    rewrite !trunc_short by (unfold HTTTP_MAX_METHOD, HTTTP_MAX_PATH; lia). f_equal. unfold hs.
    change (add_header (bytes "Content-Type") CT_COMMAND []) with [mkHeader (bytes "Content-Type") CT_COMMAND].
    rewrite add_player_id by (done || (case_match; simpl; lia)). done. }
  assert (Hgo : header_goes false (mkHeader PLAYER_ID (decimal_int (player_id (cl_session c)))))
    by (split_and!; [done|done|done|done|by apply decimal_int_valid]).
  pose proof (decimal_int_length _ Hid) as Hil.
  assert (Hblock : (length (header_block hs) <= 80)%nat).
  { unfold hs. rewrite header_block_app, length_app.
    assert (Hpid : (length (header_block [mkHeader PLAYER_ID (decimal_int (player_id (cl_session c)))]) <= 24)%nat)
      by (unfold header_block; cbn [fmap list_fmap mjoin list_join]; rewrite app_nil_r; unfold header_line; rewrite !length_app; cbn [key value]; change (length PLAYER_ID) with 9%nat; simpl; lia).
    case_match; [change (length (header_block [mkHeader (bytes "Content-Type") CT_COMMAND])) with 42%nat|change (length (header_block [])) with 0%nat]; lia. }
  destruct (request_sends (mkRequest m (path_of room player) hs b n) CLIENT_FRAME_CAP) as (wire & Hw & Hpar).
  - split; cbn [method path headers body body_len]; unfold HTTTP_MAX_METHOD, HTTTP_MAX_PATH, HTTTP_MAX_KEY, HTTTP_MAX_VALUE, UINT32_MAX; try lia.
    unfold hs. apply Forall_app. assert (Hcolon : COLON ∉ PLAYER_ID /\ COLON ∉ bytes "Content-Type") by (split; by apply (bool_decide_unpack _)).
    split; [case_match; constructor; [|constructor]|constructor; [|constructor]]; cbn [key value]; split_and!; try apply Hcolon;
      first [simpl; lia|vm_compute; lia].
  - unfold hs. apply Forall_app. split; [|by constructor]. case_match; constructor; [|constructor]. split_and!; done.
  - done.
  - done.
  - done.
  - done.
  - unfold hs. case_match; simpl; unfold HTTTP_MAX_HEADERS; lia.
  - cbn [body body_len]. intros ->. done.
  - cbn [body_len method path headers]. unfold CLIENT_FRAME_CAP. lia.
  - rewrite Hreq, Hw, Hacc. eexists _, _. split_and!; [done|exact Hpar|done|done| |done|].
    + cbn [body body_len]. unfold body_of, n. destruct b as [w|]; [|done]. specialize (Hb w eq_refl).
      change (default [] (Some w)) with w. by rewrite (proj2 (Z.ltb_lt _ _)) by lia.
    + cbn [headers body_len]. unfold hs. rewrite <- app_assoc. rewrite header_get_app; [reflexivity|].
      case_match; by repeat constructor.
Qed.

(** ** The command at the server *)

Ltac decide_methods :=
  repeat match goal with |- context [strcmp (bytes ?a) (bytes ?b) =? 0] =>
    let v := eval vm_compute in (strcmp (bytes a) (bytes b) =? 0) in change (strcmp (bytes a) (bytes b) =? 0) with v end;
  cbv iota.

Section server.
Context {W : Type} `{conn_ops : !DbConn W}.

(** Past the guards of its row a request is that row's. *)
Lemma dispatched (t : moment (W := W)) name s io req r room :
  r ∈ ROUTES name -> method req = ro_method r -> route_guards s req r = inr room ->
  session_dispatch t name s io req =
  ('(st, s', io') ← ro_fn r s io req room;
   Some (s', if true && negb (st =? 200) then session_push_reject (t_date t) st io' else io')).
Proof.
  intros Hr Hm Hg. unfold session_dispatch, auth_offer, auth_method_of, history_offer. rewrite Hm.
  unfold ROUTES in Hr |- *. repeat (apply elem_of_cons in Hr as [->|Hr]); [..|by apply elem_of_nil in Hr];
    cbn [ro_method]; decide_methods; cbn [negb mbind option_bind route_request]; rewrite Hm; cbn [ro_method]; decide_methods;
    cbn [negb]; rewrite Hg; cbn [ro_fn]; match goal with |- context [?f s io req room] => destruct (f s io req room) as [[[st s'] io']|] end; done.
Qed.

Lemma guards_open s req r id room p :
  (ro_when r = ROUTE_PLAYING -> phase (s_session s) = SESSION_PLAYING) ->
  htttp_header_get (headers req) PLAYER_ID = Some id ->
  (room_id (s_session s) = ROOM_NONE \/ atoi id = player_id (s_session s)) ->
  path_ids (path req) (ro_shape r) = Some (room, p) ->
  (ro_owns_room r = true -> room = room_id (s_session s)) ->
  (ro_shape r = PATH_ROOM_PLAYER -> p = player_id (s_session s)) ->
  route_guards s req r = inr room.
Proof.
  intros Hw Hh Hid Hp Ho Hs. unfold route_guards. rewrite Hh, Hp.
  replace (_ && negb (bool_decide (phase (s_session s) = SESSION_PLAYING))) with false.
  2: { destruct (ro_when r); [done|]. by rewrite Hw. }
  replace (negb (room_id (s_session s) =? ROOM_NONE) && negb (atoi id =? player_id (s_session s))) with false.
  2: { destruct Hid as [->| ->]; [done|]. by rewrite Z.eqb_refl, andb_false_r. }
  destruct (ro_owns_room r); [|done]. rewrite (Ho eq_refl), Z.eqb_refl. cbn [negb orb andb].
  case_bool_decide as Hd; [|done]. by rewrite (Hs Hd), Z.eqb_refl.
Qed.
End server.

(** The client's key for each move. *)
Definition move_frame (accepts : list Z -> bool) (c : Client) (mv : Move) : option (list Z) :=
  match mv with
  | MOVE_LEFT => client_move accepts c false
  | MOVE_RIGHT => client_move accepts c true
  | MOVE_ROT_RIGHT => client_rotate accepts c true
  | MOVE_ROT_LEFT => client_rotate accepts c false
  | MOVE_SOFT_DROP => client_drop accepts c false
  | MOVE_HARD_DROP => client_drop accepts c true
  | HOLD => client_hold accepts c
  | MOVE_NONE => None
  end.

(** What the table of routes does with the words the client sends for a move. *)
Lemma move_row name mv :
  mv <> MOVE_NONE ->
  exists r w, r ∈ ROUTES name /\ ro_when r = ROUTE_PLAYING /\ ro_shape r = PATH_ROOM_PLAYER /\ word_ok (ro_method r) /\
    (forall v, w = Some v -> (0 < length v < 16)%nat) /\
    (forall accepts c, move_frame accepts c mv = send_cmd accepts c (ro_method r) (player_path c) w) /\
    forall s io req room s1, body req = w -> body_len req = Z.of_nat (length (default [] w)) -> play mv s = Some s1 ->
      exists s' io', ro_fn r s io req room = Some (200, s', io') /\ ((s', io') = (s1, io) \/ (s', io') = session_flush_garbage s1 io).
Proof.
  intros Hmv.
  assert (Hok : forall m, bool_decide ((length m < 16)%nat /\ m <> [] /\ valid_field m false = true) = true -> word_ok m)
    by (intros m Hm; by apply bool_decide_eq_true in Hm).
  assert (Hin : forall k r, ROUTES name !! k = Some r -> r ∈ ROUTES name) by (intros; by eapply list_elem_of_lookup_2).
  assert (Hbody : forall a b req, body req = Some (bytes a) -> body_len req = Z.of_nat (length (bytes a)) ->
    body_is req (bytes b) = (Z.of_nat (length (bytes a)) =? Z.of_nat (length (bytes b))) &&
      bool_decide (take (length (bytes b)) (bytes a) = bytes b))
    by (intros a b req Hb Hl; unfold body_is; by rewrite Hb, Hl).
  destruct mv; try done.
  1, 2: eexists (mkRoute (bytes "MOVE") ROUTE_PLAYING PATH_ROOM_PLAYER true route_move), (Some _); split; [by apply (Hin 0%nat)|].
  3, 4: eexists (mkRoute (bytes "ROTATE") ROUTE_PLAYING PATH_ROOM_PLAYER true route_rotate), (Some _); split; [by apply (Hin 1%nat)|].
  5, 6: eexists (mkRoute (bytes "DROP") ROUTE_PLAYING PATH_ROOM_PLAYER true route_drop), (Some _); split; [by apply (Hin 2%nat)|].
  7: exists (mkRoute (bytes "HOLD") ROUTE_PLAYING PATH_ROOM_PLAYER true route_hold), None; split; [by apply (Hin 3%nat)|].
  all: split; [done|]; split; [done|]; split; [by apply Hok|]; split; [|split; [intros; reflexivity|]].
  all: try (intros v Hv; apply (inj Some) in Hv as <-; vm_compute; lia); try done.
  all: intros s io req room s1 Hb Hl Hpl; cbn [ro_fn]; unfold route_move, route_rotate, route_drop, route_hold;
    repeat match goal with |- context [body_is req (bytes ?b)] =>
      match type of Hb with _ = Some (bytes ?a) =>
        let v := eval vm_compute in ((Z.of_nat (length (bytes a)) =? Z.of_nat (length (bytes b))) &&
          bool_decide (take (length (bytes b)) (bytes a) = bytes b)) in
        replace (body_is req (bytes b)) with v by (rewrite (Hbody a b req Hb Hl); vm_compute; reflexivity)
      end end; cbv iota; rewrite Hpl; cbn [mbind option_bind];
    repeat (match goal with |- context [session_flush_garbage ?a ?b] =>
      let E := fresh in destruct (session_flush_garbage a b) as [? ?] eqn:E end); eauto.
Qed.

Section end_to_end.
Context {W : Type} `{conn_ops : !DbConn W}.

(** C9: what the player presses is what the server plays.  A client that has been
    told its room and player number sends each of the seven moves as one frame; the
    session process, in a round, parses that frame, lets it past every guard of its
    row, and makes exactly the engine's step for that move, sending the garbage it
    cleared to the admin if the admin takes it; it answers nothing and loses
    nothing. *)
Theorem keys_play_on_the_server accepts c (t : moment (W := W)) name l mv g :
  mv <> MOVE_NONE -> 0 <= cl_fd c -> (forall f, accepts f = true) ->
  int_range (room_id (s_session (l_sess l))) -> int_range (player_id (s_session (l_sess l))) ->
  room_id (cl_session c) = room_id (s_session (l_sess l)) -> player_id (cl_session c) = player_id (s_session (l_sess l)) ->
  phase (s_session (l_sess l)) = SESSION_PLAYING -> tetrisbrain_input (s_game (l_sess l)) mv = Some g ->
  exists frame s' io', move_frame accepts c mv = Some frame /\
    session_turn name l (Woken t (Some (SESSION_OK, frame)) false None false false) =
      Some (true, mkLoop s' io' (last_score l) (last_lines l)) /\
    ((s', io') = (set_game g (l_sess l), l_io l) \/ (s', io') = session_flush_garbage (set_game g (l_sess l)) (l_io l)).
Proof.
  intros Hmv Hfd Hacc Hr Hp Er Ep Hph Hg. destruct (move_row name mv Hmv) as (r & w & Hin & Hw & Hs & Hm & Hlen & Hf & Hrow).
  destruct (command_arrives accepts c (ro_method r) (room_id (s_session (l_sess l))) (Some (player_id (s_session (l_sess l)))) w)
    as (frame & req & Hsend & Hpar & Emeth & Epath & Eb & El & Eh);
    [done|done|done|done|by intros ? [= <-]|by rewrite Ep|done|].
  exists frame. rewrite Hf, player_path_of, Er, Ep by (rewrite ?Er, ?Ep; done). cbn [session_turn]. rewrite Hpar.
  rewrite (dispatched t name _ _ req r (room_id (s_session (l_sess l)))); [|done|done|].
  2: { eapply guards_open; [done|exact Eh| |rewrite Epath, Hs; by apply player_path_reads|done|done].
       right. rewrite <- (app_nil_r (decimal_int _)). by rewrite Ep, atoi_decimal_int. }
  destruct (Hrow (l_sess l) (l_io l) req (room_id (s_session (l_sess l))) (set_game g (l_sess l)) Eb El) as (s' & io' & -> & Hend);
    [unfold play; by rewrite Hg|].
  exists s', io'. split; [done|]. split; [done|exact Hend].
Qed.
End end_to_end.

(** ** What the server pushes *)

Lemma serialized_starts req cap wire :
  htttp_serialize_request req cap = Ok wire -> exists rest, wire = method req ++ SP :: rest.
Proof.
  unfold htttp_serialize_request. do 3 (case_match; [done|]). intros Hser. append_inv.
  apply emit_headers_inv in Hb5 as (-> & _). apply emit_body_inv in Hser as ->. simpl. rewrite <- !app_assoc. simpl. eauto.
Qed.

(** A frame that does not begin like a status line is not taken for a response. *)
Lemma not_a_response c rest : c <> 72 -> exists e, htttp_parse_response (c :: rest) = Err e.
Proof.
  intros Hc. unfold htttp_parse_response. destruct (find_crlf (c :: rest) 0) as [eol|]; [|eauto].
  rewrite (bool_decide_false (slice _ _ _ = _)); [rewrite orb_true_r; simpl; eauto|].
  intros E. apply (f_equal head) in E. change (Some c = Some 72) in E. congruence.
Qed.

Definition path_good (p : list Z) : Prop := (length p < 64)%nat /\ p <> [] /\ valid_field p false = true.

Lemma push_arrives {A} (l : layout A) `{!Lawful l} m p a io :
  word_ok m -> head m <> Some 72 -> path_good p -> lok l a -> (0 < sizeof l < 5000)%nat ->
  exists frame req e, push_request m p (image l a) io = emit (ToClient frame) io /\
    htttp_parse_response frame = Err e /\ htttp_parse_request frame = Ok req /\ method req = m /\ pushed l req = Some a.
Proof.
  intros (Hml & Hmn & Hmv) Hh (Hpl & Hpn & Hpv) Ha Hsz. pose proof (length_image a Ha) as Hlen.
  set (hs := [mkHeader (bytes "Content-Type") CT_STATE]).
  assert (Hreq : push_of m p (image l a) = mkRequest m p hs (Some (image l a)) (Z.of_nat (sizeof l))).
  { unfold push_of. rewrite !trunc_short by (unfold HTTTP_MAX_METHOD, HTTTP_MAX_PATH; lia). by rewrite Hlen. }
  destruct (request_sends (mkRequest m p hs (Some (image l a)) (Z.of_nat (sizeof l))) FRAME_CAP) as (wire & Hw & Hpar);
    cbn [method path headers body body_len]; try done.
  - split; cbn [method path headers body body_len]; unfold HTTTP_MAX_METHOD, HTTTP_MAX_PATH, UINT32_MAX; try lia.
    + apply Forall_singleton. split_and!; [vm_compute; lia..|by apply (bool_decide_unpack _)].
    + simpl. by rewrite Hlen.
  - apply Forall_singleton. by split_and!.
  - unfold HTTTP_MAX_HEADERS. simpl. lia.
  - change (length (header_block hs)) with 40%nat. unfold FRAME_CAP. lia.
  - destruct (serialized_starts _ _ _ Hw) as [rest Hwire]. cbn [method] in Hwire. destruct m as [|ch m]; [done|].
    destruct (not_a_response ch (m ++ SP :: rest)) as [e He]; [simpl in Hh; congruence|]. rewrite <- app_comm_cons in Hwire.
    eexists wire, _, e. unfold push_request. rewrite Hreq, Hw. split_and!; [done|by rewrite Hwire|exact Hpar|done|].
    unfold pushed, body_of. cbn [body body_len]. rewrite (proj2 (Z.ltb_lt _ _)) by lia. rewrite Z.eqb_refl. by rewrite load_image.
Qed.

(** A client between two frames. *)
Definition calm (c : Client) : Client := set_cl_auth (with_refused false (cl_auth c)) c.

Lemma service_push c frame e req ev c' :
  htttp_parse_response frame = Err e -> htttp_parse_request frame = Ok req -> take_push (calm c) req = (ev, c') ->
  ev <> CLI_EV_AUTH_REPLY -> ev <> CLI_EV_DISCONNECT -> client_service c (SESSION_OK, frame) = (ev, c').
Proof.
  intros Hres Hreq Ht H1 H2. unfold client_service. fold (calm c). unfold net_service.
  rewrite !(bool_decide_false (SESSION_OK = _)), (bool_decide_true (SESSION_OK = SESSION_OK)) by done. cbn [orb negb].
  rewrite Hres, Hreq, Ht, (bool_decide_false (ev = CLI_EV_AUTH_REPLY)), (bool_decide_false (ev = CLI_EV_DISCONNECT)) by done. done.
Qed.

(** What taking a state does to the phase the client shows. *)
Definition phase_after_game (g : GameState) (p : ClientPhase) : ClientPhase :=
  if game_over g then CLI_GAME_OVER
  else match p with CLI_WAITING | CLI_CONNECTED => CLI_PLAYING | _ => p end.

Lemma word_lit m : bool_decide ((length m < 16)%nat /\ m <> [] /\ valid_field m false = true) = true -> word_ok m.
Proof. intros H. by apply bool_decide_eq_true in H. Qed.

Lemma path_lit p : bool_decide ((length p < 64)%nat /\ p <> [] /\ valid_field p false = true) = true -> path_good p.
Proof. intros H. by apply bool_decide_eq_true in H. Qed.

Ltac by_push l a :=
  match goal with |- context [push_request ?m ?p (image l a) ?io] =>
    destruct (push_arrives l m p a io) as (frame & req & e & Hpush & Hres & Hreq & Hm & Hbody);
    [by apply word_lit|done| |done|vm_compute; lia|] end.

(** C24: the client believes what the server says, and nothing else.  Each of the
    three pushes of a session process - its session state, its game, the winner of a
    round - is one frame, and the client that receives it holds afterwards the very
    struct the server sent: the room, player number, ownership and roster; the board,
    pieces, score and standings (unless it has left its room, when a late frame is
    dropped); the winner.  The rest of what it believed is unchanged. *)
Theorem pushes_are_believed s io c winner :
  lok SessionState_layout (s_session s) -> lok GameState_layout (s_game s) -> int_range (room_id (s_session s)) -> int_range winner ->
  (exists frame, session_push_session s io = emit (ToClient frame) io /\
     client_service c (SESSION_OK, frame) =
       (CLI_EV_SESSION, set_cl_phase (phase_after_session (phase (s_session s)) (cl_phase c)) (set_cl_session (s_session s) true (calm c)))) /\
  (exists frame, session_push_game s io = emit (ToClient frame) io /\
     client_service c (SESSION_OK, frame) =
       if room_id (cl_session c) =? ROOM_NONE then (CLI_EV_NONE, calm c)
       else (CLI_EV_GAME, set_cl_phase (phase_after_game (s_game s) (cl_phase c))
              (set_cl_game (s_game s) true (u32 (frames_seen c + 1)) (calm c)))) /\
  (exists frame, session_push_result winner io = emit (ToClient frame) io /\
     client_service c (SESSION_OK, frame) = (CLI_EV_RESULT, set_last_winner winner (calm c))).
Proof.
  intros Hs Hg Hr Hw. unfold session_push_session, session_push_game, session_push_result. split_and!.
  - by_push SessionState_layout (s_session s); [by apply path_lit|]. exists frame. split; [done|].
    apply (service_push c frame e req); [done|done| |done|done]. unfold take_push. rewrite Hm, Hbody. decide_methods. done.
  - destruct (path_of_fits (room_id (s_session s)) None Hr) as (Hl & Hv & Hn & _); [done|].
    unfold path_of in Hl, Hv, Hn. rewrite app_nil_r in Hl, Hv, Hn.
    by_push GameState_layout (s_game s); [rewrite trunc_short by (unfold HTTTP_MAX_PATH; lia); done|].
    exists frame. split; [done|]. destruct (Z.eqb_spec (room_id (cl_session c)) ROOM_NONE) as [E|E];
      (apply (service_push c frame e req); [done|done| |done|done]); unfold take_push; rewrite Hm, Hbody; decide_methods.
    + cbn [calm set_cl_auth cl_session]. by rewrite E.
    + cbn [calm set_cl_auth cl_session]. rewrite (proj2 (Z.eqb_neq _ _) E). unfold phase_after_game.
      by destruct (cl_phase c) eqn:Ec; simpl; rewrite ?Ec; simpl; destruct (game_over (s_game s)); rewrite <- ?Ec; destruct c.
  - by_push int_layout winner; [by apply path_lit|]. exists frame. split; [done|].
    apply (service_push c frame e req); [done|done| |done|done]. unfold take_push. rewrite Hm, Hbody. decide_methods. done.
Qed.

(** ** Examples *)

(** The client of the session in [playing_session]. *)
Definition player_client : Client :=
  set_cl_session (s_session playing_session) true (set_cl_phase CLI_PLAYING (set_cl_fd 5 fresh_client)).

Definition dropped : GameState := default zero_game (tetrisbrain_input (s_game playing_session) MOVE_HARD_DROP).

Lemma dropped_eq : tetrisbrain_input (s_game playing_session) MOVE_HARD_DROP = Some dropped.
Proof. vm_compute. reflexivity. Qed.

Lemma keys_play_on_the_server_witness :
  let l := mkLoop playing_session (mkIo [] []) 0 0 in
  exists frame s' io', move_frame (fun _ => true) player_client MOVE_HARD_DROP = Some frame /\
    session_turn (W := script) (bytes "ann") l
      (Woken (mkMoment None 0 None) (Some (SESSION_OK, frame)) false None false false) =
      Some (true, mkLoop s' io' (last_score l) (last_lines l)) /\
    ((s', io') = (set_game dropped (l_sess l), l_io l) \/ (s', io') = session_flush_garbage (set_game dropped (l_sess l)) (l_io l)).
Proof.
  intros l.
  exact (keys_play_on_the_server (W := script) (fun _ => true) player_client (mkMoment None 0 None) (bytes "ann") l MOVE_HARD_DROP
    dropped ltac:(discriminate) ltac:(vm_compute; discriminate) (fun _ => eq_refl) ltac:(split; vm_compute; discriminate)
    ltac:(split; vm_compute; discriminate) eq_refl eq_refl eq_refl dropped_eq).
Defined.

Definition lobby_session : Session :=
  mkSess (mkSession SESSION_WAITING 7 1 false (replicate 8 zero_member) 2) (set_my_player_id 1 blank_game) (bytes "bob") 0.

Lemma lobby_session_fits :
  lok SessionState_layout (s_session lobby_session) /\ lok GameState_layout (s_game lobby_session).
Proof.
  assert (Hname : name_fits (Z.to_nat MAX_USER_NAME) EmptyString) by (split; [vm_compute; lia|apply not_elem_of_nil]).
  unfold lobby_session, SessionState_layout, GameState_layout, RoomMember_layout, PlayerStanding_layout, Piece_layout.
  cbn [s_session s_game set_my_player_id blank_game
    board active next hold hold_used score lines level tick_count tick_trigger seed piece_generated_counter game_over garbage_out
    standings standing_count my_player_id].
  cbn [lok pair_layout struct_layout array_layout padded_layout enum_layout int_layout unsigned_layout bool_layout name_layout].
  unfold INT_MIN, INT_MAX, UINT32_MAX, ROOM_NONE.
  repeat first [exact Hname|split|apply Forall_replicate]; try lia; try done.
Qed.

Lemma pushes_are_believed_witness :
  exists frame, session_push_session lobby_session (mkIo [] []) = emit (ToClient frame) (mkIo [] []) /\
    client_service player_client (SESSION_OK, frame) =
      (CLI_EV_SESSION, set_cl_phase CLI_WAITING (set_cl_session (s_session lobby_session) true (calm player_client))).
Proof.
  destruct (pushes_are_believed lobby_session (mkIo [] []) player_client 0) as (Hs & _);
    [apply lobby_session_fits|apply lobby_session_fits|done|done|exact Hs].
Defined.

(** ** Signing in *)

Lemma take_push_auth c req : let '(ev, c') := take_push c req in
  cl_auth c' = cl_auth c /\ ev <> CLI_EV_AUTH_REPLY /\ ev <> CLI_EV_DISCONNECT /\ ev <> CLI_EV_REJECT /\ ev <> CLI_EV_AUTH_OK.
Proof. unfold take_push. repeat case_match; simplify_eq; done. Qed.

(** the client's count of refused sign-ins belongs to one connection.  Whatever
    arrives, the internal "reply" event never escapes; a refusal is counted exactly
    when the frame answers a pending sign-in with a status that is no success, and a
    success counts nothing; when the connection dies the count, the pending request
    and the last reply are forgotten, and the client may reconnect by itself only if
    the frame before was such a refusal. *)
Theorem sign_in_belongs_to_connection c rx :
  let '(ev, c') := client_service c rx in
  let a := cl_auth c in let a' := cl_auth c' in
  ev <> CLI_EV_AUTH_REPLY /\
  (auth_refused_last a' = true <-> ev = CLI_EV_REJECT /\ auth_pending a <> AUTH_NONE) /\
  (ev = CLI_EV_DISCONNECT -> cl_phase c' = CLI_DISCONNECTED /\ a' = mkAuth 0 false AUTH_NONE AUTH_NONE (auth_refused_last a)) /\
  (ev <> CLI_EV_DISCONNECT -> reconnect_ok a' = reconnect_ok a /\
     auth_failures a' = auth_failures a + (if auth_refused_last a' then 1 else 0)) /\
  (ev = CLI_EV_AUTH_OK -> is_2xx (last_reject c') = true /\ auth_reply a' = auth_pending a /\ auth_pending a' = AUTH_NONE).
Proof.
  destruct rx as [rc buf]. unfold client_service. fold (calm c). unfold net_service.
  destruct (bool_decide (rc = SESSION_ERR_IO) || bool_decide (rc = SESSION_ERR_TOOBIG)).
  { simpl. split_and!; try done; [split; [done|by intros []]]. }
  destruct (negb (bool_decide (rc = SESSION_OK))).
  { simpl. split_and!; try done; [split; [done|by intros []]|]. intros _. split; [done|lia]. }
  destruct (htttp_parse_response buf) as [res|].
  - change (cl_auth (calm c)) with (with_refused false (cl_auth c)). cbn [auth_pending with_refused].
    destruct (is_2xx (status res)) eqn:E2; destruct (bool_decide (auth_pending (cl_auth c) = AUTH_NONE)) eqn:Ea;
      cbn [andb]; cbn [cl_auth set_last_reject calm set_cl_auth auth_pending with_refused]; rewrite ?Ea; cbn [negb];
      try apply bool_decide_eq_true in Ea; try apply bool_decide_eq_false in Ea;
      repeat (rewrite bool_decide_true by done || rewrite bool_decide_false by done); unfold fold_auth_reply;
      cbn [last_reject set_last_reject]; rewrite ?E2; simpl; rewrite ?E2;
      split_and!; try done; try (split; [by intros|by intros []]); try (intros _; split; [done|lia]).
  - destruct (htttp_parse_request buf) as [req|].
    + pose proof (take_push_auth (calm c) req) as H. destruct (take_push (calm c) req) as [ev c']. destruct H as (Ha & H1 & H2 & H3 & H4).
      rewrite !bool_decide_false by done. rewrite Ha. simpl.
      split_and!; try done; [split; [done|by intros []]|]. intros _. split; [done|lia].
    + simpl. split_and!; try done; [split; [done|by intros []]|]. intros _. split; [done|lia].
Qed.
